(* ===== verification/_CoqProject ===== *)
-Q . S2P
Prelude.v
Frames.v
Platform.v
Params.v
Gpio.v
I2c.v
I2cProofs.v
SimI2c.v
SimI2cProofs.v
Spi.v
Sensors.v
SensorsProofs.v
Tel0157.v
Dht.v
DhtProofs.v
SpiProofs.v
W25qxx.v
W25qxxProofs.v
Pta.v
PtaProofs.v
IoReq.v
IoState.v
IoSignal.v
IoSignalProofs.v
IoSpec.v
IoHandlers.v
IoHandlersProofs.v
IoHelper.v
IoSystem.v
IoReference.v
IoRefinement.v
IoService.v
IoRun.v
ServiceTheorems.v
Boards.v
DriverTheorems.v
SimI2cTheorems.v
PtaTheorems.v
Runtime.v
RuntimeScan.v
RuntimeProofs.v
RuntimeKernel.v
RuntimeTheorems.v
AppMemory.v
TeeApi.v
Tzio.v
TzioAsync.v
TzioProofs.v
TzioSafe.v
TzioNative.v
TzioPointers.v
IoEffects.v
TzioApp.v
TeeKernel.v
TzioTheorems.v
AppTheorems.v
Queues.v
Adaptive.v
Estimate.v
AdaptiveProofs.v
AdaptiveTheorems.v
RuntimeTa.v
RuntimeTaProofs.v
RuntimeTaTheorems.v
TzPlatform.v
