(* ===== verification/Prelude.v ===== *)
(** * TrustWasm: verification library

    TrustWasm runs WebAssembly applications inside a TrustZone trusted
    application (TA) and gives them secure peripherals.  Its own code, beside
    the OP-TEE kernel and the WebAssembly runtime it is built on, is the path
    from a device register to a handler of the application:

    - drivers in the OP-TEE kernel for the Raspberry Pi 3 (GPIO, I2C, SPI,
      under optee_os-3.21.0/core/drivers/rpi3) and for the devices behind them
      (EEPROM, fingerprint reader, light, motion, temperature and GNSS sensors,
      serial flash, under core/drivers);
    - pseudo TAs (core/pta/*_service.c) that offer each driver synchronously;
    - the I/O helper (core/pta/io_helper), a pseudo TA that takes requests,
      serves each of 64 peripherals with a thread of its own, and keeps the
      results under 64 signals per peripheral until they are collected;
    - the signal table of the runtime (runtime-modified/core/iwasm), which
      polls the I/O helper at checkpoints of the application and calls the
      handler the application registered;
    - the native library (optee_test-3.21.0/ta/native_tzio/tzio_lib.c), the 94
      functions an application imports: they check the pointers it passes,
      call the services directly, or submit a request to the I/O helper and
      hand back a future or a promise or register a handler;
    - the trusted application that runs Wasm code (wamr_tzio/ta) on a platform
      layer (core/shared/platform/linux-trustzone): it copies the code into
      secure memory, starts the runtime with the native libraries, collects
      the output of the application for the client and tears all down again.

    ** Conventions

    C functions are state-passing computations [M S A] (below).  A result is
    [Ok], [Undef] with a kind of undefined behaviour (also panics and
    self-deadlocks), or [OutOfFuel].  Integers are [Z] with the conversions of
    the C code written out; memory is a list of bytes, [None] where it is
    indeterminate.  Devices, clock, allocator and secure storage are the
    parameters [Env] and [Storage]: arbitrary functions of the whole history of
    interactions, so the theorems hold for every device.  [wp t m Q s] says
    that [m] reaches no undefined behaviour from [s] and every result satisfies
    [Q]; with [t = true] also that [m] returns.

    Fuel is used only for loops that C does not bound.  [env_fuel] bounds
    polling loops on devices: theorems with [t = true] assume that the device
    answers within it ([i2c_live], [spi_ready], [flash_live], [hw_live],
    [pta_ready]), those with [t = false] hold for any device and any fuel.
    Loops with a bound in the code (DHT timings, I2C write timeouts, copying)
    are proved to terminate without assumption.  [ready_fuel] is one more than
    the number of peripherals.  The loop of the delay of the simulated I2C
    driver has its count as fuel ([nops]).  [future_fuel] bounds the polling of the two
    native functions that wait for a result ([waits]); they are covered with
    [t = false] only, because the code waits for ever.  The nesting depth of
    [run] is 1, which is proved to be enough because signals are masked while
    a handler runs.

    Floating point is that of the Standard Library's SpecFloat, in the
    precision of each operation of the code, rounded to nearest and without
    contraction; a conversion to an integer type that cannot hold the value is
    undefined ([UB_conv]), and so is a format that asks for an argument which
    is not passed ([UB_format]).

    ** Files

    - Prelude: integers, outcomes, loops, buffers, [wp] rules, automation.
    - Platform: result codes, registers, time, locks, driver state; Params: the
      four parameters of an invocation and what the kernel guarantees of them.
    - Gpio, I2c, Spi (core/drivers/rpi3); Sensors (at24cxx, atk301, bh1750fvi,
      mpu6050), Tel0157, Dht, W25qxx; with I2cProofs, SpiProofs, SensorsProofs,
      DhtProofs, W25qxxProofs.  DriverTheorems: each driver operation sends
      exactly the bytes it should in order, stores what the device delivered
      and nothing else, gives its bus back on every path, and terminates or
      not as stated; Boards: concrete devices for the witnesses.
    - SimI2c (core/drivers/rpi3/rpi3_sim_i2c.c): the I2C interface on two GPIO
      pins.  SimI2cProofs: an observer that reads the accesses to the pins as
      the bits, starts and stops on the wire, for pins that behave as
      documented ([gpio_registers]: a level is what was last set or cleared,
      an input what the device answers).  SimI2cTheorems: what a write and a
      read put on the wire and store, and how the start condition swallows the
      first bit of the address.
    - Pta: all commands of the ten services; PtaProofs, PtaTheorems: any
      sequence of commands to them is safe and leaves every lock free, bad
      commands are refused without touching a device, reads fill the client's
      buffer.
    - IoReq (io_req.c), IoState, IoSignal (io_signal.h), IoHandlers and
      IoHelper (io_helper_service.c); IoSpec: the abstract request/response
      machine; IoSystem, IoRefinement, IoService: the relation, the commands
      and the interleaved system [c_step] of client commands and service loops
      (cut at their critical sections).  IoReference: for every kind of request
      the driver operation or system calls it stands for ([operation]), which
      the handlers are proved to record.  IoRun: runs of the service with an
      event per step ([c_run], the runs of [c_step]), and what was submitted,
      taken and handled as functions of the events.  ServiceTheorems:
      refinement of IoSpec, safety in every reachable state; along every run
      the results that are collected are those of the requests that were
      submitted, and requests are taken in FIFO order; no lost wake-up, and
      inputs that leave defined behaviour.
    - Runtime (tz_io_sigtable.c, the look-up of handlers, aot_runtime.c and
      wasm_interp.h at checkpoints); RuntimeScan: polling against a reference
      and the interface [IoHelper] the runtime needs; RuntimeProofs: the
      invariant of table and function instances, dispatch, whole runs;
      RuntimeKernel: the I/O helper model implements that interface, with
      service loops running between any two system calls; RuntimeTheorems:
      whole runs are safe, which ready signal is found, and a checkpoint calls
      the handler of that signal or none ([dispatched]).

    - AppMemory: fat pointers of tzio_lib.c, the linear memory and its range
      checks (wasm_runtime.c, aot_runtime.c); TeeApi: the state of the library
      and TEE_InvokeTACommand (libutee/tee_api.c), over the interface
      [TeeServices] of system calls; Tzio: the synchronous functions;
      TzioAsync: requests, futures, promises, the table [native_symbols].
      TzioProofs: the interface [TeeOk], what the library relies on of the
      system, with the duties it has as a client, and the proof rules of the
      invocation; TzioSafe, TzioNative: every function of the table keeps the
      invariants of memory, runtime and system and writes only where its
      arguments say ([windows]), by way of one lemma per kind of function.
      TzioPointers: the pointer arguments of each function, how they are
      checked and which ranges they stand for; the refusals; and that the
      functions without a pointer never touch the memory.
      Frames: a calculus of what a computation leaves alone; TeeKernel: the
      kernel with the ten services, the I/O helper and its loops implements
      [TeeOk].  TzioTheorems: safety of single calls against the interface and
      of sequences of calls on the whole stack, refusal of unsigned pointers
      and of ranges outside the memory, round trips of fat pointers and
      promises, and arguments that the checks of the library let through.
    - IoEffects: what each command of the I/O helper can change of signals and
      device bases (only an accepted request takes a signal, the one it
      answers with), a law of [TeeOk]; TzioApp: functions that register a
      handler and functions that submit no request to a peripheral with
      handlers keep the invariant of the runtime's dispatch.  AppTheorems:
      applications as code on the linear memory, native calls and checkpoints,
      with handlers of the same form, are safe on the whole stack; [respects]
      states what they have to keep.
    - Adaptive (USE_ADAPTIVE_CHECKPOINT in tz_io_sigtable.c, aot_runtime.c,
      wasm_interp.h): queues of the requests with handlers, estimates of their
      ends, the decision to poll.  The variables of the option are kept beside
      the system in [adapt W], so that the runtime with the option is the one
      of Runtime over another system.  Queues: the FIFO laws of the linked
      queues; Estimate: the error of the estimates in floating point;
      AdaptiveProofs: the invariants of queues and table, what a checkpoint
      does when it polls and when not; AdaptiveTheorems: safety, an overdue
      request is handled, the accuracy of the estimates, and requests that are
      never handled because their entry could not be made.
    - RuntimeTa (wamr_tzio/ta/main.c, wasm.c, native_lib.c and the console of
      tz_file.c and tz_platform.c) over the calls [TaEnv] to allocator, linker,
      runtime and application, all recorded; RuntimeTaProofs: a ledger of the
      recorded calls, which says when a call is legal and what is held;
      RuntimeTaTheorems: a run leaves nothing behind but handles of libraries,
      on every path, any sequence of commands is safe, and the client's buffer
      holds what the application wrote.
    - TzPlatform (tz_platform.c, tz_time.c): memory mappings, through
      libutee/tee_system_pta.c and core/pta/system.c, over the kernel's
      virtual memory [Vm] with the laws [VmOk]; string copy; clocks.

    The configuration is that of the test scripts: the I/O helper is the pseudo
    TA (USE_PTA_IO_HELPER) and fat pointers are checked (USE_FAT_PTR_CHECK).
    USE_ADAPTIVE_CHECKPOINT is 0 there, and in all files but the five named
    above for it.  Profiling options are off.

    The services leave duties to their clients which the native library passes
    on to the application; [native_pre] states them: no handler on peripheral
    63, seven-bit I2C addresses, a buffer that is not empty and no longer than
    the answer for a written request, a bus and chip select that exist for the
    flash, lengths up to a chosen bound for the SPI and flash transfers, fewer
    than 65534 bytes for an EEPROM write (and at least one if it is
    asynchronous), eight bytes of room at the length word of
    read_secure_object, and no call of w25qxx_read_id, whose service reads an
    uninitialised variable.  Where a duty is not kept the model can
    reach [Undef]; the theorems on unchecked arguments show it.

    ** Not modelled

    The vendored OP-TEE kernel (mutexes, condition variables and time are
    modelled as far as the code uses them, secure storage is a parameter), the
    objects, memory checks and panics of libutee ([TeeLibrary], a parameter
    with the hypotheses [TeeLibraryOk]; a panic ends the trusted application),
    the heap blocks of the native library (allocation may fail; the blocks are
    local to one function), the vendored WebAssembly runtime beyond the
    functions named above (its instructions; an application is its native
    calls and checkpoints with any functions on its memory between them), the
    client library, the host program, tests and examples; the virtual memory of
    the kernel (an interface with laws); of the platform layer the functions
    that answer that they are not supported and the locks that do nothing; the
    profiling and benchmark options of the trusted application. *)

From Stdlib Require Import ZArith Lia Bool.
From stdpp Require Import base tactics option list numbers.

Open Scope Z_scope.

(** ** Machine integers

    Every C integer is a [Z]; the conversions below are applied exactly where
    the C code converts or where an unsigned operation wraps. *)

Definition u8 (x : Z) : Z := x mod 2 ^ 8.
Definition u16 (x : Z) : Z := x mod 2 ^ 16.
Definition u32 (x : Z) : Z := x mod 2 ^ 32.
Definition u64 (x : Z) : Z := x mod 2 ^ 64.

(** Conversion to a signed type of [w] bits (two's complement, as gcc does). *)
Definition signed (w x : Z) : Z := (x + 2 ^ (w - 1)) mod 2 ^ w - 2 ^ (w - 1).
Definition i8 : Z → Z := signed 8.
Definition i16 : Z → Z := signed 16.
Definition i32 : Z → Z := signed 32.
Definition i64 : Z → Z := signed 64.

(** [BIT(n)] of util.h. *)
Definition BIT (n : Z) : Z := Z.shiftl 1 n.

(** C truth value of an integer. *)
Definition truth (x : Z) : bool := negb (x =? 0).

(** The bitwise complement of a [w]-bit unsigned value. *)
Definition unot (w x : Z) : Z := Z.land (Z.lnot x) (Z.ones w).

(** ** Outcomes

    A modelled C function takes the state and either returns, or reaches
    undefined behaviour (or a kernel panic or self-deadlock), or uses up the
    fuel that bounds the loops the C code does not bound. *)

Inductive ub :=
  | UB_oob        (* access outside an array or a heap block *)
  | UB_null       (* null or dangling pointer *)
  | UB_uninit     (* use of an indeterminate value *)
  | UB_free       (* free of something that is not a live block *)
  | UB_shift      (* shift by at least the width of the type *)
  | UB_union      (* member of a union read through the other member *)
  | UB_lock       (* mutex_lock on a mutex this thread holds *)
  | UB_unlock     (* mutex_unlock on a mutex that is not held *)
  | UB_conv       (* floating point value outside the range of the integer type *)
  | UB_format.    (* a conversion in a format without its argument *)

Inductive outcome (S A : Type) :=
  | Ok (a : A) (s : S)
  | Undef (why : ub)
  | OutOfFuel.
Arguments Ok {S A} a s.
Arguments Undef {S A} why.
Arguments OutOfFuel {S A}.

Definition M (S A : Type) : Type := S → outcome S A.

#[export] Instance M_ret S : MRet (M S) := λ A a s, Ok a s.
#[export] Instance M_bind S : MBind (M S) := λ A B f m s,
  match m s with
  | Ok a s' => f a s'
  | Undef w => Undef w
  | OutOfFuel => OutOfFuel
  end.

Definition undef {S A} (w : ub) : M S A := λ _, Undef w.
Definition out_of_fuel {S A} : M S A := λ _, OutOfFuel.
Definition gets {S A} (f : S → A) : M S A := λ s, Ok (f s) s.
Definition modify {S} (f : S → S) : M S unit := λ s, Ok tt (f s).

(** Running a computation on a component of a larger state. *)
Definition zoom {S T A} (prj : T → S) (upd : S → T → T) (m : M S A) : M T A :=
  λ t, match m (prj t) with
       | Ok a s' => Ok a (upd s' t)
       | Undef w => Undef w
       | OutOfFuel => OutOfFuel
       end.

(** ** Loops

    [loop] is the general loop: the body either asks for another round with
    new local variables or leaves with a result.  [while_] is C's [while] (the
    test may have effects).  [for_] is a counted loop whose bound is known
    when it starts, so it needs no fuel. *)

Fixpoint loop {S A B} (fuel : nat) (body : A → M S (A + B)) (a : A) : M S B :=
  match fuel with
  | O => out_of_fuel
  | Datatypes.S f =>
      r ← body a;
      match r with
      | inl a' => loop f body a'
      | inr b => mret b
      end
  end.

Definition while_ {S A} (fuel : nat) (cond : A → M S bool) (body : A → M S A)
    (a : A) : M S A :=
  loop fuel (λ a, c ← cond a;
                  if c : bool then a' ← body a; mret (inl a') else mret (inr a)) a.

(** [do body while (cond)]. *)
Definition do_while {S A} (fuel : nat) (body : A → M S A) (cond : A → M S bool)
    (a : A) : M S A :=
  loop fuel (λ a, a' ← body a; c ← cond a';
                  if c : bool then mret (inl a') else mret (inr a')) a.

(** [for (i = i0; i < i0 + n; i++)] with early return: the body gives the new
    accumulator or leaves with a result. *)
Fixpoint for_ {S A B} (n : nat) (i : Z) (body : Z → A → M S (A + B)) (a : A) :
    M S (A + B) :=
  match n with
  | O => mret (inl a)
  | Datatypes.S n' =>
      r ← body i a;
      match r with
      | inl a' => for_ n' (i + 1) body a'
      | inr b => mret (inr b)
      end
  end.

(** ** Memory buffers

    A byte of memory is [None] while it is indeterminate. *)

Abbreviation mbyte := (option Z).
Abbreviation buf := (list (option Z)).

Definition bytes (l : list Z) : buf := Some <$> l.
Definition uninit (n : Z) : buf := replicate (Z.to_nat n) None.

Definition blen (b : buf) : Z := Z.of_nat (length b).

Definition buf_get {S} (b : buf) (i : Z) : M S Z :=
  if (0 <=? i)%Z then
    match b !! Z.to_nat i with
    | Some (Some v) => mret v
    | Some None => undef UB_uninit
    | None => undef UB_oob
    end
  else undef UB_oob.

Definition buf_set {S} (b : buf) (i v : Z) : M S buf :=
  if (0 <=? i)%Z && (i <? blen b)%Z then mret (<[Z.to_nat i := Some v]> b)
  else undef UB_oob.

(** Little endian, with indeterminate bytes for an unset variable. *)
Fixpoint le (n : nat) (x : Z) : list Z :=
  match n with O => [] | S n' => x mod 256 :: le n' (x / 256) end.
Definition le_opt (n : nat) (o : option Z) : buf :=
  match o with Some x => bytes (le n x) | None => replicate n None end.

(** Memory [old] after the determinate bytes of [new] were stored to it. *)
Definition overlay (new old : buf) : buf :=
  zip_with (λ n o, match n with Some _ => n | None => o end) new old.

(** A C array of fixed length. *)
Definition arr_get {S A} (l : list A) (i : Z) : M S A :=
  if (0 <=? i)%Z then
    match l !! Z.to_nat i with
    | Some v => mret v
    | None => undef UB_oob
    end
  else undef UB_oob.

Definition arr_set {S A} (l : list A) (i : Z) (v : A) : M S (list A) :=
  if (0 <=? i)%Z && (i <? Z.of_nat (length l))%Z then mret (<[Z.to_nat i := v]> l)
  else undef UB_oob.

(** ** Weakest preconditions

    [wp t m Q s]: from [s], [m] never reaches undefined behaviour and every
    result satisfies [Q]; with [t = true] it also returns. *)

Definition wp {S A} (t : bool) (m : M S A) (Q : A → S → Prop) (s : S) : Prop :=
  match m s with
  | Ok a s' => Q a s'
  | Undef _ => False
  | OutOfFuel => t = false
  end.

Section wp_rules.
Context {S : Type}.
Implicit Types (s : S) (t : bool).

Lemma wp_ret {A} t (a : A) (Q : A → S → Prop) s : Q a s → wp t (mret a) Q s.
Proof. done. Qed.

Lemma wp_bind {A B} t (m : M S A) (k : A → M S B) (Q : B → S → Prop) s :
  wp t m (λ a s', wp t (k a) Q s') s → wp t (m ≫= k) Q s.
Proof. unfold wp, mbind, M_bind. by destruct (m s). Qed.

Lemma wp_bind_inv {A B} t (m : M S A) (k : A → M S B) (Q : B → S → Prop) s :
  wp t (m ≫= k) Q s → wp t m (λ a s', wp t (k a) Q s') s.
Proof. unfold wp, mbind, M_bind. by destruct (m s). Qed.

Lemma wp_mono {A} t (m : M S A) (P Q : A → S → Prop) s :
  wp t m P s → (∀ a s', P a s' → Q a s') → wp t m Q s.
Proof. unfold wp. destruct (m s); naive_solver. Qed.

Lemma wp_and {A} t (m : M S A) (P Q : A → S → Prop) s :
  wp t m P s → wp t m Q s → wp t m (λ a s', P a s' ∧ Q a s') s.
Proof. unfold wp. destruct (m s); naive_solver. Qed.

Lemma wp_partial {A} t (m : M S A) (Q : A → S → Prop) s :
  wp t m Q s → wp false m Q s.
Proof. unfold wp. by destruct (m s). Qed.

Lemma wp_total {A} t (m : M S A) (Q : A → S → Prop) s :
  wp true m Q s → wp t m Q s.
Proof. unfold wp. by destruct (m s). Qed.

Lemma wp_gets {A} t (f : S → A) (Q : A → S → Prop) s :
  Q (f s) s → wp t (gets f) Q s.
Proof. done. Qed.

Lemma wp_modify t (f : S → S) (Q : unit → S → Prop) s :
  Q tt (f s) → wp t (modify f) Q s.
Proof. done. Qed.

Lemma wp_loop {A B} (fuel : nat) (body : A → M S (A + B)) (I : A → S → Prop)
    (Q : B → S → Prop) a s :
  (∀ a s, I a s →
     wp false (body a) (λ r s', match r with inl a' => I a' s' | inr b => Q b s' end) s) →
  I a s → wp false (loop fuel body a) Q s.
Proof.
  intros Hb. revert a s; induction fuel as [|f IH]; intros a s HI; [done|].
  cbn [loop]. apply wp_bind. eapply wp_mono; [by apply Hb|].
  intros [a'|b] s' ?; [by apply IH | by apply wp_ret].
Qed.

(** The total rule: a measure bounded by the fuel decreases at each round. *)
Lemma wp_loop_total {A B} (fuel : nat) (body : A → M S (A + B))
    (I : A → S → Prop) (mea : A → S → Z) (Q : B → S → Prop) a s :
  (∀ a s, I a s → 0 <= mea a s ∧
     wp true (body a) (λ r s', match r with
       | inl a' => I a' s' ∧ mea a' s' < mea a s
       | inr b => Q b s' end) s) →
  I a s → mea a s < Z.of_nat fuel → wp true (loop fuel body a) Q s.
Proof.
  intros Hb. revert a s; induction fuel as [|f IH]; intros a s HI Hm.
  { apply Hb in HI. lia. }
  cbn [loop]. apply wp_bind. eapply wp_mono; [by apply Hb|].
  intros [a'|b] s' H; [|by apply wp_ret].
  destruct H as [? ?]. apply IH; [done|lia].
Qed.

(** Both rules at once: the fuel matters only for the total reading. *)
Lemma wp_loop_gen {A B} t (fuel : nat) (body : A → M S (A + B))
    (I : A → S → Prop) (mea : A → Z) (Q : B → S → Prop) a s :
  (∀ a s, I a s → 0 <= mea a ∧
     wp t (body a) (λ r s', match r with
       | inl a' => I a' s' ∧ mea a' < mea a
       | inr b => Q b s' end) s) →
  I a s → (t = true → mea a < Z.of_nat fuel) → wp t (loop fuel body a) Q s.
Proof.
  destruct t; intros Hb HI Hf; [by apply (wp_loop_total _ _ I (λ a _, mea a)); auto|].
  eapply (wp_loop _ _ I); [|done]. intros a' s' HI'.
  eapply wp_mono; [by apply Hb|]. intros [|] s''; [by intros [? ?]; auto|done].
Qed.

(** The measure is needed only for the total reading. *)
Lemma wp_loop_if {A B} t (fuel : nat) (body : A → M S (A + B))
    (I : A → S → Prop) (mea : A → S → Z) (Q : B → S → Prop) a s :
  (∀ a s, I a s → 0 <= mea a s ∧
     wp t (body a) (λ r s', match r with
       | inl a' => I a' s' ∧ (t = true → mea a' s' < mea a s)
       | inr b => Q b s' end) s) →
  I a s → (t = true → mea a s < Z.of_nat fuel) → wp t (loop fuel body a) Q s.
Proof.
  destruct t; intros Hb HI Hf.
  - apply (wp_loop_total _ _ I mea); auto. intros a' s' HI'. destruct (Hb a' s' HI') as [? Hw].
    split; [done|]. eapply wp_mono; [exact Hw|]. intros [|] s''; [by intros [? ?]; auto|done].
  - eapply (wp_loop _ _ I); [|done]. intros a' s' HI'.
    eapply wp_mono; [by apply Hb|]. intros [|] s''; [by intros [? ?]; auto|done].
Qed.

Lemma wp_while {A} (fuel : nat) (cond : A → M S bool) (body : A → M S A)
    (I : A → S → Prop) (Q : A → S → Prop) a s :
  (∀ a s, I a s →
     wp false (cond a) (λ c s', if c then wp false (body a) I s' else Q a s') s) →
  I a s → wp false (while_ fuel cond body a) Q s.
Proof.
  intros Hb HI. unfold while_. eapply (wp_loop _ _ I); [|done].
  intros a' s' HI'. apply wp_bind. eapply wp_mono; [by apply Hb|].
  intros [] s'' H; [|by apply wp_ret].
  apply wp_bind. eapply wp_mono; [exact H|]. intros; by apply wp_ret.
Qed.

Lemma wp_do_while {A} (fuel : nat) (body : A → M S A) (cond : A → M S bool)
    (I : A → S → Prop) (Q : A → S → Prop) a s :
  (∀ a s, I a s →
     wp false (body a) (λ a' s', wp false (cond a')
       (λ c s'', if c : bool then I a' s'' else Q a' s'') s') s) →
  I a s → wp false (do_while fuel body cond a) Q s.
Proof.
  intros Hb HI. unfold do_while. eapply (wp_loop _ _ I); [|done].
  intros a' s' HI'. apply wp_bind. eapply wp_mono; [by apply Hb|].
  intros a'' s'' H. apply wp_bind. eapply wp_mono; [exact H|].
  intros [] ? ?; by apply wp_ret.
Qed.

Lemma wp_for {A B} t (n : nat) (body : Z → A → M S (A + B)) (I : Z → A → S → Prop)
    (Q : A + B → S → Prop) i a s :
  (∀ j a s, i <= j < i + Z.of_nat n → I j a s →
     wp t (body j a) (λ r s', match r with
       | inl a' => I (j + 1) a' s'
       | inr b => Q (inr b) s' end) s) →
  (∀ a s, I (i + Z.of_nat n) a s → Q (inl a) s) →
  I i a s → wp t (for_ n i body a) Q s.
Proof.
  revert i a s; induction n as [|n IH]; intros i a s Hb HQ HI; cbn [for_].
  { apply wp_ret, HQ. by replace (i + Z.of_nat 0) with i by lia. }
  apply wp_bind. eapply wp_mono; [apply Hb; [lia|done]|].
  intros [a'|b] s' H; [|by apply wp_ret].
  apply IH; [|intros ??; replace (i + 1 + Z.of_nat n) with (i + Z.of_nat (Datatypes.S n)) by lia; apply HQ|done].
  intros j ???; apply Hb; lia.
Qed.

Lemma wp_while_if {A} t (fuel : nat) (cond : A → M S bool) (body : A → M S A)
    (I : A → S → Prop) (mea : A → S → Z) (Q : A → S → Prop) a s :
  (∀ a s, I a s → 0 <= mea a s ∧
     wp t (cond a) (λ c s', if c then
       wp t (body a) (λ a' s'', I a' s'' ∧ (t = true → mea a' s'' < mea a s)) s'
       else Q a s') s) →
  I a s → (t = true → mea a s < Z.of_nat fuel) → wp t (while_ fuel cond body a) Q s.
Proof.
  intros Hb HI Hf. unfold while_. apply (wp_loop_if _ _ _ I mea); [|done|done].
  intros a' s' HI'. destruct (Hb a' s' HI') as [? Hc]. split; [done|].
  apply wp_bind. eapply wp_mono; [exact Hc|].
  intros [] s'' Hw; [|by apply wp_ret].
  apply wp_bind. eapply wp_mono; [exact Hw|]. intros; by apply wp_ret.
Qed.

Lemma wp_zoom {T A} t (prj : T → S) (upd : S → T → T) (m : M S A)
    (Q : A → T → Prop) (x : T) :
  wp t m (λ a s', Q a (upd s' x)) (prj x) → wp t (zoom prj upd m) Q x.
Proof. unfold wp, zoom. by destruct (m (prj x)). Qed.

Lemma wp_buf_get t b i v (Q : Z → S → Prop) s :
  0 <= i → b !! Z.to_nat i = Some (Some v) → Q v s → wp t (buf_get b i) Q s.
Proof.
  intros Hi Hb HQ. unfold buf_get. rewrite (proj2 (Z.leb_le 0 i)) by done.
  by rewrite Hb.
Qed.

Lemma wp_buf_set t b i v (Q : buf → S → Prop) s :
  0 <= i < blen b → Q (<[Z.to_nat i := Some v]> b) s → wp t (buf_set b i v) Q s.
Proof.
  intros Hi HQ. unfold buf_set.
  rewrite (proj2 (Z.leb_le 0 i)), (proj2 (Z.ltb_lt _ _)) by lia. done.
Qed.

Lemma wp_arr_get {A} t (l : list A) i v (Q : A → S → Prop) s :
  0 <= i → l !! Z.to_nat i = Some v → Q v s → wp t (arr_get l i) Q s.
Proof.
  intros Hi Hl HQ. unfold arr_get. rewrite (proj2 (Z.leb_le 0 i)) by done.
  by rewrite Hl.
Qed.

Lemma wp_arr_set {A} t (l : list A) i v (Q : list A → S → Prop) s :
  0 <= i < Z.of_nat (length l) → Q (<[Z.to_nat i := v]> l) s →
  wp t (arr_set l i v) Q s.
Proof.
  intros Hi HQ. unfold arr_set.
  rewrite (proj2 (Z.leb_le 0 i)), (proj2 (Z.ltb_lt _ _)) by lia. done.
Qed.
End wp_rules.

(** ** Automation

    [wp_specs] collects the specifications of modelled functions, each of the
    form [pre -> wp t (f args) post s]; [wp_step] applies the rule of the head
    construct, [wp_call] uses a specification from the database. *)

Create HintDb wp_specs.

Ltac wp_case :=
  match goal with
  | |- wp _ (if ?c then _ else _) _ _ => destruct c eqn:?
  | |- wp _ (match ?x with _ => _ end) _ _ => destruct x eqn:?
  end.

Ltac wp_step :=
  match goal with
  | |- wp _ (_ ≫= _) _ _ => apply wp_bind
  | |- wp _ (mret _) _ _ => apply wp_ret
  | |- wp _ (gets _) _ _ => apply wp_gets
  | |- wp _ (modify _) _ _ => apply wp_modify
  end; cbn beta.

Ltac wp_steps := repeat wp_step.

Tactic Notation "wp_call" := eapply wp_mono; [solve [eauto with wp_specs]|].

(** Booleans of the code turned into propositions. *)
Ltac bool_props :=
  repeat match goal with
  | H : (_ && _)%bool = true |- _ => apply andb_prop in H as [? ?]
  | H : (_ && _)%bool = false |- _ => apply andb_false_iff in H
  | H : (_ || _)%bool = true |- _ => apply orb_prop in H
  | H : (_ || _)%bool = false |- _ => apply orb_false_iff in H as [? ?]
  | H : negb _ = true |- _ => apply negb_true_iff in H
  | H : negb _ = false |- _ => apply negb_false_iff in H
  | H : (_ =? _) = true |- _ => apply Z.eqb_eq in H
  | H : (_ =? _) = false |- _ => apply Z.eqb_neq in H
  | H : (_ <? _) = true |- _ => apply Z.ltb_lt in H
  | H : (_ <? _) = false |- _ => apply Z.ltb_ge in H
  | H : (_ <=? _) = true |- _ => apply Z.leb_le in H
  | H : (_ <=? _) = false |- _ => apply Z.leb_gt in H
  end.

(** ** Facts on machine integers *)

Lemma u8_range x : 0 <= u8 x < 2 ^ 8.
Proof. apply Z.mod_pos_bound. lia. Qed.
Lemma u16_range x : 0 <= u16 x < 2 ^ 16.
Proof. apply Z.mod_pos_bound. lia. Qed.
Lemma u32_range x : 0 <= u32 x < 2 ^ 32.
Proof. apply Z.mod_pos_bound. lia. Qed.
Lemma u64_range x : 0 <= u64 x < 2 ^ 64.
Proof. apply Z.mod_pos_bound. lia. Qed.
Lemma u8_id x : 0 <= x < 2 ^ 8 → u8 x = x.
Proof. apply Z.mod_small. Qed.
Lemma u16_id x : 0 <= x < 2 ^ 16 → u16 x = x.
Proof. apply Z.mod_small. Qed.
Lemma u32_id x : 0 <= x < 2 ^ 32 → u32 x = x.
Proof. apply Z.mod_small. Qed.
Lemma u64_id x : 0 <= x < 2 ^ 64 → u64 x = x.
Proof. apply Z.mod_small. Qed.

Lemma signed_id w x : 0 < w → - 2 ^ (w - 1) <= x < 2 ^ (w - 1) → signed w x = x.
Proof.
  intros Hw Hx. unfold signed.
  assert (2 ^ w = 2 * 2 ^ (w - 1)) as ->.
  { rewrite <- Z.pow_succ_r by lia. f_equal. lia. }
  rewrite Z.mod_small; lia.
Qed.

Lemma i32_pos x : 0 <= x < 2 ^ 31 → i32 x = x.
Proof. intros. apply signed_id; lia. Qed.

Lemma i32_neg x : 2 ^ 31 <= x < 2 ^ 32 → i32 x = x - 2 ^ 32.
Proof.
  intros. unfold i32, signed. change (2 ^ (32 - 1)) with (2 ^ 31).
  replace (x + 2 ^ 31) with ((x - 2 ^ 31) + 1 * 2 ^ 32) by lia.
  rewrite Z.mod_add, Z.mod_small; lia.
Qed.

Lemma u32_i32 x : 0 <= x < 2 ^ 32 → u32 (i32 x) = x.
Proof.
  intros. destruct (Z.lt_ge_cases x (2 ^ 31)).
  - rewrite i32_pos, u32_id; lia.
  - rewrite i32_neg by lia. unfold u32. replace (x - 2 ^ 32) with (x + -1 * 2 ^ 32) by lia.
    rewrite Z.mod_add, Z.mod_small; lia.
Qed.

(** Bits of the operations the code uses. *)
Lemma BIT_spec n i : 0 <= n → 0 <= i → Z.testbit (BIT n) i = (i =? n).
Proof.
  intros. unfold BIT. rewrite Z.shiftl_1_l, Z.pow2_bits_eqb by done. apply Z.eqb_sym.
Qed.

Lemma ones_spec n i : 0 <= n → Z.testbit (Z.ones n) i = (0 <=? i) && (i <? n).
Proof.
  intros. destruct (Z.leb_spec 0 i); [|by rewrite Z.testbit_neg_r].
  destruct (Z.ltb_spec i n); cbn; [apply Z.ones_spec_low | apply Z.ones_spec_high]; lia.
Qed.

(** [v & BIT(n)] as a condition. *)
Lemma BIT_test v n : 0 <= n → truth (Z.land v (BIT n)) = Z.testbit v n.
Proof.
  intros Hn. unfold truth. destruct (Z.eqb_spec (Z.land v (BIT n)) 0) as [Hz|Hz]; cbn.
  - apply (f_equal (λ x, Z.testbit x n)) in Hz.
    by rewrite Z.land_spec, BIT_spec, Z.eqb_refl, andb_true_r, Z.bits_0 in Hz by done.
  - destruct (Z.testbit v n) eqn:Hb; [done|]. destruct Hz.
    apply Z.bits_inj'. intros i Hi. rewrite Z.land_spec, BIT_spec, Z.bits_0 by done.
    destruct (Z.eqb_spec i n) as [->|]; [by rewrite Hb|apply andb_false_r].
Qed.

Lemma unot_spec w x i : 0 <= w → 0 <= i →
  Z.testbit (unot w x) i = negb (Z.testbit x i) && (i <? w).
Proof.
  intros. unfold unot. rewrite Z.land_spec, Z.lnot_spec, ones_spec by done.
  rewrite (proj2 (Z.leb_le 0 i)) by done. done.
Qed.

Lemma testbit_high x w i : 0 <= x < 2 ^ w → 0 <= w <= i → Z.testbit x i = false.
Proof.
  intros Hx Hi. rewrite <- (Z.mod_small x (2 ^ w)) by done.
  apply Z.mod_pow2_bits_high. lia.
Qed.

Lemma mod_bits x w i : 0 <= w → 0 <= i →
  Z.testbit (x mod 2 ^ w) i = (i <? w) && Z.testbit x i.
Proof.
  intros. destruct (Z.ltb_spec i w); cbn;
    [apply Z.mod_pow2_bits_low | apply Z.mod_pow2_bits_high]; lia.
Qed.

(** Rewrites the bits of an expression; [bits] then decides the bit index. *)
Ltac bits_rw :=
  repeat first
    [ rewrite Z.land_spec | rewrite Z.lor_spec
    | rewrite unot_spec by lia | rewrite Z.shiftl_spec by lia
    | rewrite Z.shiftr_spec by lia | rewrite mod_bits by lia
    | rewrite ones_spec by lia | rewrite BIT_spec by lia ].

Ltac zcases :=
  repeat match goal with
  | |- context [?a <? ?b] => destruct (Z.ltb_spec a b); try lia
  | |- context [?a <=? ?b] => destruct (Z.leb_spec a b); try lia
  | |- context [?a =? ?b] => destruct (Z.eqb_spec a b); try lia
  end.

(** A value whose bits above [w] are clear is below [2^w]. *)
Lemma bits_bound x w : 0 <= w → 0 <= x →
  (∀ i, w <= i → Z.testbit x i = false) → x < 2 ^ w.
Proof.
  intros Hw Hx Hb. enough (x = x mod 2 ^ w) as ->.
  { apply Z.mod_pos_bound. apply Z.pow_pos_nonneg; lia. }
  apply Z.bits_inj'. intros i Hi. destruct (Z.lt_ge_cases i w).
  - by rewrite Z.mod_pow2_bits_low by lia.
  - rewrite Z.mod_pow2_bits_high by lia. by apply Hb.
Qed.

(** Assembling a word from a high and a low part. *)
Lemma lor_shiftl_add x y n : 0 <= n → 0 <= y < 2 ^ n →
  Z.lor (Z.shiftl x n) y = x * 2 ^ n + y.
Proof.
  intros Hn Hy. rewrite <- Z.shiftl_mul_pow2 by done.
  assert (Z.land (Z.shiftl x n) y = 0) as Hland.
  { apply Z.bits_inj'. intros i Hi. rewrite Z.land_spec, Z.bits_0.
    destruct (Z.lt_ge_cases i n).
    - rewrite Z.shiftl_spec_low by done. done.
    - rewrite (testbit_high y n) by lia. apply andb_false_r. }
  rewrite Z.add_nocarry_lxor, Z.lxor_lor by done. done.
Qed.

(** A decidable fact on bytes can be checked on all of them. *)
Lemma byte_forall (P : Z → bool) :
  forallb P (seqZ 0 256) = true → ∀ x, 0 <= x < 2 ^ 8 → P x = true.
Proof.
  intros HP x Hx. rewrite forallb_forall in HP. apply HP. apply list_elem_of_In, elem_of_seqZ. lia.
Qed.

(** ** Facts on buffers *)

Lemma blen_insert b i v : blen (<[i := v]> b) = blen b.
Proof. unfold blen. by rewrite length_insert. Qed.

Lemma blen_uninit n : 0 <= n → blen (uninit n) = n.
Proof. intros. unfold blen, uninit. rewrite length_replicate. lia. Qed.

Lemma blen_bytes l : blen (bytes l) = Z.of_nat (length l).
Proof. unfold blen, bytes. by rewrite length_fmap. Qed.

Lemma blen_nonneg b : 0 <= blen b.
Proof. unfold blen. lia. Qed.

Lemma le_length n x : length (le n x) = n.
Proof. revert x; induction n as [|n IH]; intros x; cbn; [done|by rewrite IH]. Qed.
Lemma le_opt_length n o : length (le_opt n o) = n.
Proof.
  destruct o; cbn; [unfold bytes; by rewrite length_fmap, le_length|by rewrite length_replicate].
Qed.

Lemma overlay_blen new old : blen new = blen old → blen (overlay new old) = blen old.
Proof. unfold blen, overlay. intros H. rewrite length_zip_with. lia. Qed.

(** Writing behind a prefix of known bytes. *)
Lemma insert_after_prefix (b : buf) (got : list Z) x : (length got < length b)%nat →
  <[length got := Some x]> (bytes got ++ drop (length got) b)
  = bytes (got ++ [x]) ++ drop (length (got ++ [x])) b.
Proof.
  intros Hl. destruct (lookup_lt_is_Some_2 b (length got) Hl) as [y Hy].
  rewrite (drop_S b y) by done. rewrite insert_app_r_alt by (unfold bytes; by rewrite length_fmap).
  unfold bytes. rewrite length_fmap, Nat.sub_diag. cbn.
  rewrite fmap_app, length_app, Nat.add_1_r, <- app_assoc. done.
Qed.
