(* ===== verification/Frames.v ===== *)
(** * What a computation leaves alone

    [frames f P m]: whenever [m] returns, the part [f] of the state is as it
    was and the result satisfies [P].  The rules follow the structure of the
    code, so that a frame is proved by unfolding it. *)

From Stdlib Require Import ZArith Lia Bool.
From stdpp Require Import base tactics option list numbers gmap.
From S2P Require Import Prelude.

Section frames.
Context {S X : Type} (f : S → X).
Definition frames {A} (P : A → Prop) (m : M S A) : Prop :=
  ∀ s, match m s with Ok a s' => f s' = f s ∧ P a | _ => True end.

Lemma frames_bind {A B} (P : A → Prop) (Q : B → Prop) (m : M S A) (k : A → M S B) :
  frames P m → (∀ a, P a → frames Q (k a)) → frames Q (m ≫= k).
Proof.
  intros Hm Hk s. unfold mbind, M_bind. specialize (Hm s). destruct (m s) as [a s1| |]; [|done|done].
  destruct Hm as [E Ha]. specialize (Hk a Ha s1). destruct (k a s1); [|done|done]. by rewrite <- E.
Qed.
Lemma frames_ret {A} (P : A → Prop) a : P a → frames P (mret a).
Proof. done. Qed.
Lemma frames_gets {A} (g : S → A) : frames (λ _, True) (gets g).
Proof. done. Qed.
Lemma frames_undef {A} (P : A → Prop) u : frames P (undef u : M S A).
Proof. done. Qed.
Lemma frames_modify g : (∀ s, f (g s) = f s) → frames (λ _, True) (modify g).
Proof. intros Hg s. split; [apply Hg|done]. Qed.
Lemma frames_mono {A} (P Q : A → Prop) (m : M S A) : frames P m → (∀ a, P a → Q a) → frames Q m.
Proof. intros Hm HPQ s. specialize (Hm s). destruct (m s); naive_solver. Qed.

Lemma frames_arr_get {A} (l : list A) i : frames (λ _, True) (arr_get l i).
Proof. unfold arr_get. repeat case_match; done. Qed.
Lemma frames_arr_set {A} (l : list A) i x : frames (λ l', l' = <[Z.to_nat i := x]> l) (arr_set l i x).
Proof. unfold arr_set. by case_match. Qed.

(** A computation on a component. *)
Lemma frames_zoom {T A} (prj : S → T) (upd : T → S → S) (m : M T A) :
  (∀ s, match m (prj s) with Ok _ s' => f (upd s' s) = f s | _ => True end) → frames (λ _, True) (zoom prj upd m).
Proof. intros Hm s. specialize (Hm s). unfold zoom. by destruct (m (prj s)). Qed.

Lemma frames_loop {A B} fuel (body : A → M S (A + B)) a : (∀ a, frames (λ _, True) (body a)) → frames (λ _, True) (loop fuel body a).
Proof.
  intros Hb. revert a. induction fuel as [|n IH]; intros a; cbn [loop]; [by intros s|].
  apply (frames_bind (λ _, True)); [apply Hb|]. intros [a'|b] _; [apply IH|by apply frames_ret].
Qed.

Lemma wp_frames {A} t (m : M S A) P (Q : A → S → Prop) s : frames P m → wp t m Q s →
  wp t m (λ a s', Q a s' ∧ f s' = f s ∧ P a) s.
Proof. intros Hm. specialize (Hm s). unfold wp. by destruct (m s). Qed.
Lemma frames_run {A} (m : M S A) P s a s' : frames P m → m s = Ok a s' → f s' = f s ∧ P a.
Proof. intros Hm E. specialize (Hm s). by rewrite E in Hm. Qed.

(** What holds at the end of a run, if it ends. *)
Definition ends {A} (Q : A → S → Prop) (o : outcome S A) : Prop := match o with Ok a s => Q a s | _ => True end.
Lemma ends_bind {A B} (P : A → Prop) (m : M S A) (k : A → M S B) (Q : B → S → Prop) s : frames P m →
  (∀ a s', f s' = f s → P a → ends Q (k a s')) → ends Q ((m ≫= k) s).
Proof.
  intros Hm Hk. unfold mbind, M_bind. specialize (Hm s). destruct (m s) as [a s1| |]; [|done|done].
  destruct Hm. by apply Hk.
Qed.
End frames.

Create HintDb frames.
#[export] Hint Resolve frames_gets frames_undef frames_arr_get frames_arr_set : frames.

(** One step through the code; facts on results come from the hints. *)
Ltac frames_step := first
  [ solve [auto with frames nocore]
  | apply frames_ret | apply frames_undef
  | (apply frames_modify; by intros [])
  | (eapply frames_bind; [solve [auto with frames nocore]|cbn beta; intros ? ?])
  | (eapply (frames_bind _ (λ _, True)); [|intros ? _])
  | case_match ].

(** The function a computation is a call of. *)
Ltac head_of f := lazymatch f with ?g _ => head_of g | _ => f end.
