(* ===== verification/Platform.v ===== *)
(** * The platform: TEE result codes, the environment and memory-mapped I/O

    Everything outside the modelled C code (device registers, the clock, the
    allocator) answers as a function of the whole history of interactions, so
    a theorem over all [Env] holds for every deterministic device.  The
    history is kept in the driver state, newest event first. *)

From Stdlib Require Import ZArith Lia Bool.
From stdpp Require Import base tactics option list numbers gmap.
From S2P Require Import Prelude.

Open Scope Z_scope.

(** ** Result codes (tee_api_defines.h) *)

Definition TEE_SUCCESS : Z := 0x00000000.
Definition TEE_ERROR_GENERIC : Z := 0xFFFF0000.
Definition TEE_ERROR_ACCESS_DENIED : Z := 0xFFFF0001.
Definition TEE_ERROR_BAD_FORMAT : Z := 0xFFFF0005.
Definition TEE_ERROR_BAD_PARAMETERS : Z := 0xFFFF0006.
Definition TEE_ERROR_BAD_STATE : Z := 0xFFFF0007.
Definition TEE_ERROR_ITEM_NOT_FOUND : Z := 0xFFFF0008.
Definition TEE_ERROR_NOT_IMPLEMENTED : Z := 0xFFFF0009.
Definition TEE_ERROR_NOT_SUPPORTED : Z := 0xFFFF000A.
Definition TEE_ERROR_NO_DATA : Z := 0xFFFF000B.
Definition TEE_ERROR_OUT_OF_MEMORY : Z := 0xFFFF000C.
Definition TEE_ERROR_BUSY : Z := 0xFFFF000D.
Definition TEE_ERROR_COMMUNICATION : Z := 0xFFFF000E.
Definition TEE_ERROR_SHORT_BUFFER : Z := 0xFFFF0010.
Definition TEE_ERROR_TIMEOUT : Z := 0xFFFF3001.

(** A status as the drivers return it: success, or a code whose top bit is
    set, so that it is negative once stored in an [int]. *)
Definition tee_status (r : Z) : Prop := r = TEE_SUCCESS ∨ 2 ^ 31 <= r < 2 ^ 32.

Lemma tee_status_i32 r : tee_status r → (i32 r < 0 ↔ r ≠ TEE_SUCCESS).
Proof.
  intros [->|?]; [done|]. rewrite i32_neg by done. unfold TEE_SUCCESS. lia.
Qed.

Lemma tee_status_check r :
  (r =? TEE_SUCCESS) || ((2 ^ 31 <=? r) && (r <? 2 ^ 32)) = true → tee_status r.
Proof. intros. unfold tee_status. bool_props. destruct H; bool_props; lia. Qed.
#[export] Hint Extern 1 (tee_status _) => apply tee_status_check; reflexivity : core.

(** ** Platform constants (plat-rpi3/platform_config.h) *)

Definition GPIO_BASE : Z := 0x3f200000.
Definition SPI0_BASE : Z := 0x3f204000.
Definition BSC0_BASE : Z := 0x3f205000.
Definition BSC1_BASE : Z := 0x3f804000.
Definition CORE_CLK : Z := 250000000.
Definition AVAILABLE_GPIO_NUM : Z := 28.
Definition AVAILABLE_I2C_NUM : Z := 2.
Definition AVAILABLE_SPI_NUM : Z := 1.

(** ** The environment *)

Inductive lock_id :=
  | L_bsc (dev : Z)          (* bsc_locks of rpi3_i2c.c *)
  | L_spi (bus : Z)          (* spi_locks of rpi3_spi.c *)
  | L_sigpending (p : Z)     (* sigpending_mutexes of io_signal.c *)
  | L_sigusing (p : Z)       (* sigusing_mutexes of io_signal.c *)
  | L_queue (p : Z)          (* queue_mutexes of io_helper_service.c *)
  | L_sim_i2c (dev : Z).     (* i2c_locks of rpi3_sim_i2c.c *)

#[export] Instance lock_id_eq_dec : EqDecision lock_id.
Proof. solve_decision. Defined.

Definition lock_code (l : lock_id) : Z * Z :=
  match l with
  | L_bsc d => (0, d) | L_spi d => (1, d) | L_sigpending p => (2, p)
  | L_sigusing p => (3, p) | L_queue p => (4, p) | L_sim_i2c d => (5, d)
  end.
Definition lock_decode (c : Z * Z) : option lock_id :=
  match c with
  | (0, d) => Some (L_bsc d) | (1, d) => Some (L_spi d)
  | (2, d) => Some (L_sigpending d) | (3, d) => Some (L_sigusing d)
  | (4, d) => Some (L_queue d) | (5, d) => Some (L_sim_i2c d) | _ => None
  end.
#[export] Instance lock_id_countable : Countable lock_id.
Proof. by apply (inj_countable lock_code lock_decode); intros []. Defined.

Inductive event :=
  | E_read (w addr v : Z)      (* a load of [w] bits *)
  | E_write (w addr v : Z)     (* a store of [w] bits *)
  | E_delay (us : Z)           (* udelay *)
  | E_time (sec micros : Z)    (* tee_time_get_sys_time *)
  | E_lock (l : lock_id)
  | E_unlock (l : lock_id)
  | E_malloc (n : Z) (ok : bool)
  | E_storage (res : Z).       (* a secure storage system call *)

Definition history : Type := list event.

Class Env := {
  env_read : history → Z → Z → Z;          (* register contents: width, address *)
  env_time : history → Z * Z;              (* seconds, micros *)
  env_malloc : history → Z → bool;         (* does an allocation succeed *)
  env_mmu : bool;                          (* cpu_mmu_enabled *)
  env_phys_to_virt : Z → Z;                (* phys_to_virt of a device area *)
  env_fuel : nat                           (* rounds given to unbounded loops *)
}.

(** ** The state of the drivers *)

Record dstate := DState {
  d_trace : history;
  d_held : gset lock_id;
  d_gpio_base : Z;            (* gpioRegister *)
  d_bsc_base : list Z;        (* bsc_registers *)
  d_spi_base : list Z;        (* spi_registers *)
  d_byte_wait : list Z;       (* i2c_byte_wait_us *)
  d_bit_order : Z             (* rpi3_spi_bit_order *)
}.

Definition d_init : dstate :=
  DState [] ∅ 0 [BSC0_BASE; BSC1_BASE] [SPI0_BASE] [0; 0] 1.

Definition d_log (e : event) (s : dstate) : dstate :=
  DState (e :: d_trace s) (d_held s) (d_gpio_base s) (d_bsc_base s)
    (d_spi_base s) (d_byte_wait s) (d_bit_order s).
Definition d_set_held (h : gset lock_id) (s : dstate) : dstate :=
  DState (d_trace s) h (d_gpio_base s) (d_bsc_base s)
    (d_spi_base s) (d_byte_wait s) (d_bit_order s).
Definition d_set_gpio_base (b : Z) (s : dstate) : dstate :=
  DState (d_trace s) (d_held s) b (d_bsc_base s)
    (d_spi_base s) (d_byte_wait s) (d_bit_order s).
Definition d_set_bsc_base (b : list Z) (s : dstate) : dstate :=
  DState (d_trace s) (d_held s) (d_gpio_base s) b
    (d_spi_base s) (d_byte_wait s) (d_bit_order s).
Definition d_set_spi_base (b : list Z) (s : dstate) : dstate :=
  DState (d_trace s) (d_held s) (d_gpio_base s) (d_bsc_base s)
    b (d_byte_wait s) (d_bit_order s).
Definition d_set_byte_wait (w : list Z) (s : dstate) : dstate :=
  DState (d_trace s) (d_held s) (d_gpio_base s) (d_bsc_base s)
    (d_spi_base s) w (d_bit_order s).
Definition d_set_bit_order (o : Z) (s : dstate) : dstate :=
  DState (d_trace s) (d_held s) (d_gpio_base s) (d_bsc_base s)
    (d_spi_base s) (d_byte_wait s) o.

Definition D (A : Type) : Type := M dstate A.

Section platform.
Context `{Env}.

(** ** Memory-mapped registers (core/include/io.h) *)

Definition io_read (w addr : Z) : D Z := λ s,
  let v := env_read (d_trace s) w addr mod 2 ^ w in
  Ok v (d_log (E_read w addr v) s).
Definition io_write (w addr v : Z) : D unit :=
  modify (d_log (E_write w addr (v mod 2 ^ w))).

Definition io_read32 : Z → D Z := io_read 32.
Definition io_read16 : Z → D Z := io_read 16.
Definition io_read8 : Z → D Z := io_read 8.
Definition io_write32 : Z → Z → D unit := io_write 32.
Definition io_write16 : Z → Z → D unit := io_write 16.
Definition io_write8 : Z → Z → D unit := io_write 8.

Definition io_setbits32 (addr set_mask : Z) : D unit :=
  v ← io_read32 addr; io_write32 addr (Z.lor v set_mask).
Definition io_clrbits32 (addr clear_mask : Z) : D unit :=
  v ← io_read32 addr; io_write32 addr (Z.land v (unot 32 clear_mask)).
Definition io_clrsetbits32 (addr clear_mask set_mask : Z) : D unit :=
  v ← io_read32 addr;
  io_write32 addr (Z.lor (Z.land v (unot 32 clear_mask)) set_mask).

(** ** Time, delays and mutexes *)

Definition udelay (us : Z) : D unit := modify (d_log (E_delay us)).

Definition tee_time_get_sys_time : D (Z * Z) := λ s,
  let t := env_time (d_trace s) in
  let t := (u32 t.1, u32 t.2) in
  Ok t (d_log (E_time t.1 t.2) s).

(** [teetime_micro]: both operands are [uint32_t], so the product and the
    sum wrap at 32 bits before the conversion to [uint64_t]. *)
Definition teetime_micro (t : Z * Z) : Z := u32 (u32 (t.1 * 1000000) + t.2).

(** [teetime_micro(&end) - teetime_micro(&start)] in [uint64_t]. *)
Definition elapsed (t0 t1 : Z * Z) : Z := u64 (teetime_micro t1 - teetime_micro t0).

Definition mutex_lock (l : lock_id) : D unit := λ s,
  if decide (l ∈ d_held s) then Undef UB_lock
  else Ok tt (d_log (E_lock l) (d_set_held ({[l]} ∪ d_held s) s)).
Definition mutex_unlock (l : lock_id) : D unit := λ s,
  if decide (l ∈ d_held s)
  then Ok tt (d_log (E_unlock l) (d_set_held (d_held s ∖ {[l]}) s))
  else Undef UB_unlock.
End platform.

(** ** Frames: computations that only add to the history *)

Definition d_logs (evs : history) (s : dstate) : dstate :=
  DState (evs ++ d_trace s) (d_held s) (d_gpio_base s) (d_bsc_base s)
    (d_spi_base s) (d_byte_wait s) (d_bit_order s).

Definition d_ext (s s' : dstate) : Prop := ∃ evs, s' = d_logs evs s.

#[export] Instance d_ext_preorder : PreOrder d_ext.
Proof.
  split.
  - intros []. by exists [].
  - intros [] ? ? [e1 ->] [e2 ->]. exists (e2 ++ e1). unfold d_logs; cbn.
    by rewrite app_assoc.
Qed.

Lemma d_ext_log e s : d_ext s (d_log e s).
Proof. by exists [e]. Qed.

Lemma d_ext_logged e s s' : d_ext s s' → d_ext s (d_log e s').
Proof. intros. etrans; [done|apply d_ext_log]. Qed.

(** The arrays of the drivers have their declared lengths. *)
Definition d_wf (s : dstate) : Prop :=
  length (d_bsc_base s) = 2%nat ∧ length (d_spi_base s) = 1%nat
  ∧ length (d_byte_wait s) = 2%nat.

Lemma d_ext_wf s s' : d_ext s s' → d_wf s → d_wf s'.
Proof. by intros [? ->]. Qed.

Lemma d_ext_held s s' : d_ext s s' → d_held s' = d_held s.
Proof. by intros [? ->]. Qed.

Lemma d_init_wf : d_wf d_init.
Proof. done. Qed.

#[export] Hint Resolve d_ext_logged d_ext_log d_ext_wf : core.

(** ** Frames: what every driver call preserves

    Acquiring a bus also takes a lock and refreshes the byte timing, so the
    general frame fixes the register bases and lets the history grow; [kept]
    adds that every lock taken has been given back. *)
Definition d_frame (s s' : dstate) : Prop :=
  d_gpio_base s' = d_gpio_base s ∧ d_bsc_base s' = d_bsc_base s
  ∧ d_spi_base s' = d_spi_base s ∧ d_bit_order s' = d_bit_order s
  ∧ length (d_byte_wait s') = length (d_byte_wait s)
  ∧ ∃ evs, d_trace s' = evs ++ d_trace s.
Definition kept (s s' : dstate) : Prop := d_frame s s' ∧ d_held s' = d_held s.

#[export] Instance d_frame_preorder : PreOrder d_frame.
Proof.
  split.
  - intros s. split_and!; auto. by exists [].
  - intros s1 s2 s3 (?&?&?&?&?&e1&E1) (?&?&?&?&?&e2&E2).
    split_and!; [congruence..|]. exists (e2 ++ e1). by rewrite E2, E1, app_assoc.
Qed.
#[export] Instance kept_preorder : PreOrder kept.
Proof.
  split.
  - intros s. by split.
  - intros s1 s2 s3 [? E1] [? E2]. split; [by transitivity s2|congruence].
Qed.

Lemma d_ext_frame s s' : d_ext s s' → d_frame s s'.
Proof. intros [evs ->]. split_and!; auto. by exists evs. Qed.
Lemma d_ext_kept s s' : d_ext s s' → kept s s'.
Proof. intros He. split; [by apply d_ext_frame|by apply d_ext_held]. Qed.
Lemma d_frame_wf s s' : d_frame s s' → d_wf s → d_wf s'.
Proof. intros (?&?&?&?&?&_) (?&?&?). split_and!; congruence. Qed.
Lemma kept_wf s s' : kept s s' → d_wf s → d_wf s'.
Proof. intros [? _]. by apply d_frame_wf. Qed.
Lemma d_frame_log e s s' : d_frame s s' → d_frame s (d_log e s').
Proof. intros. etrans; [done|]. apply d_ext_frame, d_ext_log. Qed.

(** Composes the extensions in the context backwards from the goal's state. *)
Ltac d_ext_chain :=
  cbn beta in *;
  repeat match goal with
  | |- d_ext ?s ?s => reflexivity
  | |- d_ext _ (d_log _ _) => apply d_ext_logged
  | H : d_ext _ ?b |- d_ext _ ?b => etrans; [|exact H]; clear H
  end.

#[export] Hint Extern 0 (d_ext ?s ?s) => reflexivity : core.
#[export] Hint Extern 0 (kept ?s ?s) => reflexivity : core.

(** The stores to, and the loads from, an address, oldest first. *)
Definition write_of (a : Z) (e : event) : list Z :=
  match e with E_write _ a' v => if a' =? a then [v] else [] | _ => [] end.
Definition read_of (a : Z) (e : event) : list Z :=
  match e with E_read _ a' v => if a' =? a then [v] else [] | _ => [] end.
Fixpoint writes_to (a : Z) (h : history) : list Z :=
  match h with [] => [] | e :: h' => writes_to a h' ++ write_of a e end.
Fixpoint reads_from (a : Z) (h : history) : list Z :=
  match h with [] => [] | e :: h' => reads_from a h' ++ read_of a e end.

Section platform_specs.
Context `{Env}.

Lemma io_read_spec t w a s : 0 <= w →
  wp t (io_read w a) (λ v s', s' = d_log (E_read w a v) s ∧ 0 <= v < 2 ^ w) s.
Proof. intros. split; [done|]. apply Z.mod_pos_bound. lia. Qed.

Lemma io_write_spec t w a v s :
  wp t (io_write w a v) (λ _ s', s' = d_log (E_write w a (v mod 2 ^ w)) s) s.
Proof. done. Qed.

Lemma udelay_spec t us s : wp t (udelay us) (λ _ s', s' = d_log (E_delay us) s) s.
Proof. done. Qed.

Lemma tee_time_spec t s :
  wp t tee_time_get_sys_time (λ x s', s' = d_log (E_time x.1 x.2) s) s.
Proof. done. Qed.

Lemma mutex_lock_spec t l s : l ∉ d_held s →
  wp t (mutex_lock l)
    (λ _ s', s' = d_log (E_lock l) (d_set_held ({[l]} ∪ d_held s) s)) s.
Proof. intros. unfold wp, mutex_lock. by rewrite decide_False. Qed.

Lemma mutex_unlock_spec t l s : l ∈ d_held s →
  wp t (mutex_unlock l)
    (λ _ s', s' = d_log (E_unlock l) (d_set_held (d_held s ∖ {[l]}) s)) s.
Proof. intros. unfold wp, mutex_unlock. by rewrite decide_True. Qed.

(** [teetime_micro] loses the high bits of the product: it is periodic in
    2^32 microseconds, so a wait that straddles the wrap looks endless. *)
Lemma elapsed_wrap sec us :
  0 <= sec → teetime_micro (sec, us) = (sec * 1000000 + us) mod 2 ^ 32.
Proof. intros. unfold teetime_micro, u32; cbn. by rewrite Zplus_mod_idemp_l. Qed.
End platform_specs.
#[export] Hint Resolve io_read_spec io_write_spec udelay_spec tee_time_spec : wp_specs.
