(* ===== verification/Params.v ===== *)
(** * Parameters of an invocation

    The four typed parameters a trusted application passes to a pseudo TA
    ([TEE_Param params[TEE_NUM_PARAMS]]), shared by the I/O helper and the
    peripheral services, with what the kernel guarantees about them. *)

From Stdlib Require Import ZArith Lia Bool.
From stdpp Require Import base tactics option list numbers.
From S2P Require Import Prelude Platform.

Open Scope Z_scope.

(** ** Types and access (tee_api_defines.h) *)

Definition TEE_PARAM_TYPE_NONE : Z := 0.
Definition TEE_PARAM_TYPE_VALUE_INPUT : Z := 1.
Definition TEE_PARAM_TYPE_VALUE_OUTPUT : Z := 2.
Definition TEE_PARAM_TYPE_VALUE_INOUT : Z := 3.
Definition TEE_PARAM_TYPE_MEMREF_INPUT : Z := 5.
Definition TEE_PARAM_TYPE_MEMREF_OUTPUT : Z := 6.
Definition TEE_PARAM_TYPE_MEMREF_INOUT : Z := 7.
Definition TEE_PARAM_TYPES (t0 t1 t2 t3 : Z) : Z :=
  Z.lor (Z.lor (Z.lor t0 (Z.shiftl t1 4)) (Z.shiftl t2 8)) (Z.shiftl t3 12).

(** A parameter as the kernel hands it over: a memory reference comes with
    the client memory it maps. *)
Inductive uparam := UNone | UValue (a b : Z) | UMemref (buffer : buf) (size : Z).
Definition uparams : Type := list uparam.

Definition uvalue_a {S} (ps : uparams) (i : Z) : M S Z :=
  p ← arr_get ps i; match p with UValue a _ => mret a | _ => undef UB_union end.
Definition uvalue_b {S} (ps : uparams) (i : Z) : M S Z :=
  p ← arr_get ps i; match p with UValue _ b => mret b | _ => undef UB_union end.
Definition umemref {S} (ps : uparams) (i : Z) : M S (buf * Z) :=
  p ← arr_get ps i; match p with UMemref b n => mret (b, n) | _ => undef UB_union end.
Definition set_uvalue_a {S} (ps : uparams) (i a : Z) : M S uparams :=
  p ← arr_get ps i; match p with UValue _ b => arr_set ps i (UValue a b) | _ => undef UB_union end.
Definition set_uvalue_b {S} (ps : uparams) (i b : Z) : M S uparams :=
  p ← arr_get ps i; match p with UValue a _ => arr_set ps i (UValue a b) | _ => undef UB_union end.
Definition set_usize {S} (ps : uparams) (i n : Z) : M S uparams :=
  p ← arr_get ps i; match p with UMemref b _ => arr_set ps i (UMemref b n) | _ => undef UB_union end.
Definition set_umem {S} (ps : uparams) (i : Z) (b : buf) : M S uparams :=
  p ← arr_get ps i; match p with UMemref _ n => arr_set ps i (UMemref b n) | _ => undef UB_union end.

(** [memcpy] of [n] bytes, which must lie within both ranges. *)
Definition memcpy {S} (dst src : buf) (n : Z) : M S buf :=
  if (n <=? blen src) && (n <=? blen dst)
  then mret (take (Z.to_nat n) src ++ drop (Z.to_nat n) dst)
  else undef UB_oob.

(** [teetime_to_micro] of the services: 64-bit microseconds. *)
Definition teetime_to_micro (t : Z * Z) : Z := u64 (u64 (t.1 * 1000 * 1000) + t.2).

(** ** What the kernel guarantees about parameters *)

Definition nib (t i : Z) : Z := Z.land (Z.shiftr t (4 * i)) 0xF.

Definition param_ok (t : Z) (u : uparam) : Prop :=
  if t =? TEE_PARAM_TYPE_NONE then u = UNone
  else if (1 <=? t) && (t <=? 3) then
    ∃ a b, u = UValue a b ∧ 0 <= a < 2 ^ 32 ∧ 0 <= b < 2 ^ 32
  else if (5 <=? t) && (t <=? 7) then
    ∃ b n, u = UMemref b n ∧ blen b = n ∧ n < 2 ^ 32
      ∧ (t = TEE_PARAM_TYPE_MEMREF_INPUT → ∃ data, b = bytes data ∧ Forall (λ x, 0 <= x < 2 ^ 8) data)
  else False.

Definition params_ok (types : Z) (ps : uparams) : Prop :=
  match ps with
  | [u0; u1; u2; u3] => param_ok (nib types 0) u0 ∧ param_ok (nib types 1) u1
                        ∧ param_ok (nib types 2) u2 ∧ param_ok (nib types 3) u3
  | _ => False
  end.

(** ** Rules *)

Section params.
Context {S : Type} (ps : uparams) (i : Z) (Hi : 0 <= i).

Lemma wp_uvalue_a t a b Q (k : S) : ps !! Z.to_nat i = Some (UValue a b) → Q a k → wp t (uvalue_a ps i) Q k.
Proof using Hi. intros. unfold uvalue_a. wp_steps. by eapply wp_arr_get. Qed.
Lemma wp_uvalue_b t a b Q (k : S) : ps !! Z.to_nat i = Some (UValue a b) → Q b k → wp t (uvalue_b ps i) Q k.
Proof using Hi. intros. unfold uvalue_b. wp_steps. by eapply wp_arr_get. Qed.
Lemma wp_umemref t b n Q (k : S) : ps !! Z.to_nat i = Some (UMemref b n) → Q (b, n) k → wp t (umemref ps i) Q k.
Proof using Hi. intros. unfold umemref. wp_steps. by eapply wp_arr_get. Qed.

Lemma wp_set_at {u} t v (Q : uparams → S → Prop) k :
  ps !! Z.to_nat i = Some u → Q (<[Z.to_nat i := v]> ps) k → wp t (arr_set ps i v) Q k.
Proof using Hi. intros Hl HQ. apply lookup_lt_Some in Hl. apply wp_arr_set; [lia|done]. Qed.

Lemma wp_set_uvalue_a t a b a' Q (k : S) : ps !! Z.to_nat i = Some (UValue a b) →
  Q (<[Z.to_nat i := UValue a' b]> ps) k → wp t (set_uvalue_a ps i a') Q k.
Proof using Hi. intros Hl HQ. unfold set_uvalue_a. wp_steps. eapply wp_arr_get; [lia|done|]. by eapply wp_set_at. Qed.
Lemma wp_set_uvalue_b t a b b' Q (k : S) : ps !! Z.to_nat i = Some (UValue a b) →
  Q (<[Z.to_nat i := UValue a b']> ps) k → wp t (set_uvalue_b ps i b') Q k.
Proof using Hi. intros Hl HQ. unfold set_uvalue_b. wp_steps. eapply wp_arr_get; [lia|done|]. by eapply wp_set_at. Qed.
Lemma wp_set_usize t b n n' Q (k : S) : ps !! Z.to_nat i = Some (UMemref b n) →
  Q (<[Z.to_nat i := UMemref b n']> ps) k → wp t (set_usize ps i n') Q k.
Proof using Hi. intros Hl HQ. unfold set_usize. wp_steps. eapply wp_arr_get; [lia|done|]. by eapply wp_set_at. Qed.
Lemma wp_set_umem t b n b' Q (k : S) : ps !! Z.to_nat i = Some (UMemref b n) →
  Q (<[Z.to_nat i := UMemref b' n]> ps) k → wp t (set_umem ps i b') Q k.
Proof using Hi. intros Hl HQ. unfold set_umem. wp_steps. eapply wp_arr_get; [lia|done|]. by eapply wp_set_at. Qed.
End params.

(** Reads and writes of parameters given as a literal list. *)
Ltac uget1 := first
  [ wp_step
  | eapply wp_uvalue_a; [lia|reflexivity|] | eapply wp_uvalue_b; [lia|reflexivity|]
  | eapply wp_umemref; [lia|reflexivity|]
  | eapply wp_set_uvalue_a; [lia|reflexivity|cbn [insert list_insert]]
  | eapply wp_set_uvalue_b; [lia|reflexivity|cbn [insert list_insert]]
  | eapply wp_set_usize; [lia|reflexivity|cbn [insert list_insert]]
  | eapply wp_set_umem; [lia|reflexivity|cbn [insert list_insert]] ].

(** The shapes of four parameters whose type word is known. *)
Lemma params_shape types ps t0 t1 t2 t3 :
  params_ok types ps → types = TEE_PARAM_TYPES t0 t1 t2 t3 →
  nib (TEE_PARAM_TYPES t0 t1 t2 t3) 0 = t0 → nib (TEE_PARAM_TYPES t0 t1 t2 t3) 1 = t1 →
  nib (TEE_PARAM_TYPES t0 t1 t2 t3) 2 = t2 → nib (TEE_PARAM_TYPES t0 t1 t2 t3) 3 = t3 →
  ∃ u0 u1 u2 u3, ps = [u0; u1; u2; u3]
    ∧ param_ok t0 u0 ∧ param_ok t1 u1 ∧ param_ok t2 u2 ∧ param_ok t3 u3.
Proof.
  intros Hps -> E0 E1 E2 E3. destruct ps as [|u0 [|u1 [|u2 [|u3 []]]]]; try done.
  destruct Hps as (P0&P1&P2&P3). rewrite E0 in P0. rewrite E1 in P1. rewrite E2 in P2. rewrite E3 in P3.
  by exists u0, u1, u2, u3.
Qed.

Ltac param_case H :=
  unfold param_ok in H; cbn in H;
  lazymatch type of H with
  | context [UValue] => destruct H as (?a&?b&->&?&?)
  | context [UMemref] => destruct H as (?m&?n&->&?&?&?Hin)
  | ?u = _ => subst u
  end.
Ltac param_shape H E :=
  let u0 := fresh "u" in let u1 := fresh "u" in let u2 := fresh "u" in let u3 := fresh "u" in
  let H0 := fresh in let H1 := fresh in let H2 := fresh in let H3 := fresh in
  destruct (params_shape _ _ _ _ _ _ H E eq_refl eq_refl eq_refl eq_refl)
    as (u0&u1&u2&u3&->&H0&H1&H2&H3);
  param_case H0; param_case H1; param_case H2; param_case H3.
