(* ===== verification/Gpio.v ===== *)
(** * The GPIO driver (core/drivers/rpi3/rpi3_gpio.c)

    Register layout, pin function select, level, pull-up/down sequence and the
    exported [gpio_init], [gpio_set], [gpio_get], [gpio_fsel]. *)

From Stdlib Require Import ZArith Lia Bool.
From stdpp Require Import base tactics option list numbers gmap.
From S2P Require Import Prelude Platform.

Open Scope Z_scope.

(** ** Types (periph/gpio.h, drivers/rpi3/rpi3_gpio.h) *)

(** A C enum can hold values that are no enumerator: [GPIO_MODE_other]. *)
Inductive gpio_mode_t :=
  | GPIO_IN | GPIO_OUT | GPIO_IN_PU | GPIO_IN_PD | GPIO_OD | GPIO_OD_PU
  | GPIO_MODE_other (v : Z).

Definition gpio_mode_of (v : Z) : gpio_mode_t :=
  match v with
  | 0 => GPIO_IN | 1 => GPIO_OUT | 2 => GPIO_IN_PU | 3 => GPIO_IN_PD
  | 4 => GPIO_OD | 5 => GPIO_OD_PU | _ => GPIO_MODE_other v
  end.

Inductive gpio_level_t := GPIO_LOW_LEVEL | GPIO_HIGH_LEVEL.
Definition gpio_level_code (l : gpio_level_t) : Z :=
  match l with GPIO_LOW_LEVEL => 0 | GPIO_HIGH_LEVEL => 1 end.

Inductive Rpi3_FunctionSelect_GPFSEL :=
  | GPIO_FSEL_INPT | GPIO_FSEL_OUTP | GPIO_FSEL_ALT0 | GPIO_FSEL_ALT1
  | GPIO_FSEL_ALT2 | GPIO_FSEL_ALT3 | GPIO_FSEL_ALT4 | GPIO_FSEL_ALT5.

Definition fsel_code (f : Rpi3_FunctionSelect_GPFSEL) : Z :=
  match f with
  | GPIO_FSEL_INPT => 0x00 | GPIO_FSEL_OUTP => 0x01 | GPIO_FSEL_ALT0 => 0x04
  | GPIO_FSEL_ALT1 => 0x05 | GPIO_FSEL_ALT2 => 0x06 | GPIO_FSEL_ALT3 => 0x07
  | GPIO_FSEL_ALT4 => 0x03 | GPIO_FSEL_ALT5 => 0x02
  end.
Definition GPIO_FESL_MASK : Z := 0x07.

Definition RPI3_MAX_PIN_NUM : Z := 53.
Definition GPPUD_OFF : Z := 0x00.
Definition GPPUD_ENABLE_PULL_DOWN_CTRL : Z := 0x01.
Definition GPPUD_ENABLE_PULL_UP_CTRL : Z := 0x02.
Inductive Rpi3_GPPUDCLK_Value := NO_EFFECT | ASSERT_CLK.

Definition NBITS_PER_FSEL_GPIO : Z := 3.
Definition NGPIOS_PER_FSEL : Z := 10.
Definition NGPIOS_PER_BANK : Z := 32.
Definition NFSELS : Z := 6.
Definition NBANKS : Z := 2.

Definition RPI3_GPIO_FSEL_BANK (pin : Z) : Z := pin / NGPIOS_PER_FSEL.
Definition RPI3_GPIO_FSEL_SHIFT (pin : Z) : Z :=
  (pin mod NGPIOS_PER_FSEL) * NBITS_PER_FSEL_GPIO.
Definition RPI3_GPIO_BANK (pin : Z) : Z := pin / NGPIOS_PER_BANK.
Definition RPI3_GPIO_SHIFT (pin : Z) : Z := pin mod NGPIOS_PER_BANK.

(** ** [struct GpioRegister]: its members in order, each an array of words *)

Inductive gpio_member :=
  | GPFSEL | GPSET | GPCLR | GPLEV | GPEDS | GPREN | GPFEN | GPHEN | GPLEN
  | GPAREN | GPAFEN | GPPUD | GPPUDCLK | Reserved (n : Z).
#[export] Instance gpio_member_eq_dec : EqDecision gpio_member.
Proof. solve_decision. Defined.

Definition GpioRegister : list (gpio_member * Z) :=
  [(GPFSEL, NFSELS); (Reserved 1, 1); (GPSET, NBANKS); (Reserved 2, 1);
   (GPCLR, NBANKS); (Reserved 3, 1); (GPLEV, NBANKS); (Reserved 4, 1);
   (GPEDS, NBANKS); (Reserved 5, 1); (GPREN, NBANKS); (Reserved 6, 1);
   (GPFEN, NBANKS); (Reserved 7, 1); (GPHEN, NBANKS); (Reserved 8, 1);
   (GPLEN, NBANKS); (Reserved 9, 1); (GPAREN, NBANKS); (Reserved 10, 1);
   (GPAFEN, NBANKS); (Reserved 11, 1); (GPPUD, 1); (GPPUDCLK, NBANKS)].

Fixpoint member_offset (l : list (gpio_member * Z)) (m : gpio_member) (acc : Z) : Z :=
  match l with
  | [] => acc
  | (m', n) :: l' => if decide (m' = m) then acc else member_offset l' m (acc + 4 * n)
  end.
Definition gpio_offset (m : gpio_member) : Z := member_offset GpioRegister m 0.

Section driver.
Context `{Env}.

(** [&gpioRegister->MEMBER[index]] *)
Definition get_base_address (m : gpio_member) (index : Z) : D Z :=
  gets (λ s, d_gpio_base s + gpio_offset m + 4 * u8 index).

Definition rpi3_set_gpio_pin_function (pin : Z)
    (functionCode : Rpi3_FunctionSelect_GPFSEL) : D unit :=
  let index_GPFSEL := RPI3_GPIO_FSEL_BANK pin in
  let bit_GPFSEL := RPI3_GPIO_FSEL_SHIFT pin in
  let clear_mask := u32 (Z.shiftl GPIO_FESL_MASK bit_GPFSEL) in
  a ← get_base_address GPFSEL index_GPFSEL;
  io_clrsetbits32 a clear_mask (u32 (Z.shiftl (fsel_code functionCode) bit_GPFSEL)).

Definition rpi3_set_gpio_pin_value (pin : Z) (value : gpio_level_t) : D unit :=
  let index_register := RPI3_GPIO_BANK pin in
  let shift := RPI3_GPIO_SHIFT pin in
  base_addr ← match value with
              | GPIO_LOW_LEVEL => get_base_address GPCLR index_register
              | GPIO_HIGH_LEVEL => get_base_address GPSET index_register
              end;
  io_clrsetbits32 base_addr (BIT shift) (BIT shift).

Definition rpi3_get_gpio_pin_value (pin : Z) : D gpio_level_t :=
  let index_register := RPI3_GPIO_BANK pin in
  let shift := RPI3_GPIO_SHIFT pin in
  a ← get_base_address GPLEV index_register;
  v ← io_read32 a;
  mret (if truth (Z.land v (BIT shift)) then GPIO_HIGH_LEVEL else GPIO_LOW_LEVEL).

Definition rpi3_set_GPPUD (value : Z) : D unit :=
  a ← get_base_address GPPUD 0;
  io_write32 a (u32 (Z.land value 0x03)).

Definition rpi3_set_GPPUDCLK (pin : Z) (value : Rpi3_GPPUDCLK_Value) : D unit :=
  let index_register := RPI3_GPIO_BANK pin in
  let shift := RPI3_GPIO_SHIFT pin in
  base_addr_GPPUDCLK ← get_base_address GPPUDCLK index_register;
  match value with
  | ASSERT_CLK => io_setbits32 base_addr_GPPUDCLK (BIT shift)
  | NO_EFFECT => io_clrbits32 base_addr_GPPUDCLK (BIT shift)
  end.

Definition rpi3_ctrl_gpio_pull_up_down (pin : Z) (updown : bool) : D unit :=
  (if updown then
     rpi3_set_GPPUD GPPUD_ENABLE_PULL_UP_CTRL;;
     udelay 5;;
     rpi3_set_GPPUDCLK pin ASSERT_CLK
   else
     rpi3_set_GPPUD GPPUD_ENABLE_PULL_DOWN_CTRL;;
     udelay 5;;
     rpi3_set_GPPUDCLK pin ASSERT_CLK);;
  udelay 5;;
  rpi3_set_GPPUD GPPUD_OFF;;
  udelay 5;;
  rpi3_set_GPPUDCLK pin NO_EFFECT;;
  udelay 5.

Definition gpio_init (pin : Z) (mode : gpio_mode_t) : D Z :=
  if RPI3_MAX_PIN_NUM <? pin then mret (-1) else
  match mode with
  | GPIO_IN => rpi3_set_gpio_pin_function pin GPIO_FSEL_INPT;; mret 0
  | GPIO_OUT => rpi3_set_gpio_pin_function pin GPIO_FSEL_OUTP;; mret 0
  | GPIO_IN_PU =>
      rpi3_set_gpio_pin_function pin GPIO_FSEL_INPT;;
      rpi3_ctrl_gpio_pull_up_down pin true;; mret 0
  | GPIO_IN_PD =>
      rpi3_set_gpio_pin_function pin GPIO_FSEL_INPT;;
      rpi3_ctrl_gpio_pull_up_down pin false;; mret 0
  | GPIO_OD => rpi3_set_gpio_pin_function pin GPIO_FSEL_OUTP;; mret 0
  | GPIO_OD_PU =>
      rpi3_set_gpio_pin_function pin GPIO_FSEL_OUTP;;
      rpi3_ctrl_gpio_pull_up_down pin true;; mret 0
  | GPIO_MODE_other _ => mret (-1)
  end.

Definition gpio_set (pin : Z) (level : gpio_level_t) : D Z :=
  if RPI3_MAX_PIN_NUM <? pin then mret (-1) else
  rpi3_set_gpio_pin_value pin level;; mret 0.

Definition gpio_get (pin : Z) : D Z :=
  if RPI3_MAX_PIN_NUM <? pin then mret (-1) else
  l ← rpi3_get_gpio_pin_value pin; mret (gpio_level_code l).

Definition gpio_fsel (pin : Z) (mode : Rpi3_FunctionSelect_GPFSEL) : D unit :=
  if RPI3_MAX_PIN_NUM <? pin then mret () else
  rpi3_set_gpio_pin_function pin mode.

(** [rpi3_gpio_init] maps the register block when the MMU is on. *)
Definition rpi3_gpio_init : D Z :=
  modify (d_set_gpio_base (if env_mmu then env_phys_to_virt GPIO_BASE else GPIO_BASE));;
  mret TEE_SUCCESS.
End driver.

(** ** Correctness *)

(** The three-bit function field of [pin] in its GPFSEL word. *)
Definition fsel_field (v pin : Z) : Z :=
  Z.land (Z.shiftr v (RPI3_GPIO_FSEL_SHIFT pin)) GPIO_FESL_MASK.

(** The word that a function select writes back. *)
Definition fsel_update (v pin : Z) (f : Rpi3_FunctionSelect_GPFSEL) : Z :=
  Z.lor (Z.land v (unot 32 (u32 (Z.shiftl GPIO_FESL_MASK (RPI3_GPIO_FSEL_SHIFT pin)))))
        (u32 (Z.shiftl (fsel_code f) (RPI3_GPIO_FSEL_SHIFT pin))).

Lemma fsel_shift_range pin : 0 <= pin → 0 <= RPI3_GPIO_FSEL_SHIFT pin <= 27.
Proof.
  intros. unfold RPI3_GPIO_FSEL_SHIFT, NGPIOS_PER_FSEL, NBITS_PER_FSEL_GPIO.
  pose proof (Z.mod_pos_bound pin 10). lia.
Qed.

Lemma fsel_code_range f : 0 <= fsel_code f < 2 ^ 3.
Proof. destruct f; cbn; lia. Qed.

Lemma fsel_update_range v pin f : 0 <= pin → 0 <= v < 2 ^ 32 →
  0 <= fsel_update v pin f < 2 ^ 32.
Proof.
  intros Hp Hv. unfold fsel_update.
  assert (∀ x y, 0 <= x < 2 ^ 32 → 0 <= y < 2 ^ 32 → 0 <= Z.lor x y < 2 ^ 32) as Hor.
  { intros x y Hx Hy. split; [apply Z.lor_nonneg; lia|].
    apply bits_bound; [lia|apply Z.lor_nonneg; lia|]. intros i Hi.
    rewrite Z.lor_spec, !(testbit_high _ 32) by lia. done. }
  apply Hor; [|apply u32_range].
  assert (0 <= Z.land v (unot 32 (u32 (Z.shiftl GPIO_FESL_MASK (RPI3_GPIO_FSEL_SHIFT pin))))).
  { apply Z.land_nonneg. lia. }
  split; [done|]. apply bits_bound; [lia|done|]. intros i Hi.
  rewrite Z.land_spec, (testbit_high v 32) by lia. done.
Qed.

Lemma fsel_update_same v pin f : 0 <= pin → fsel_field (fsel_update v pin f) pin = fsel_code f.
Proof.
  intros Hp. pose proof (fsel_shift_range pin Hp). pose proof (fsel_code_range f).
  unfold fsel_field, fsel_update, GPIO_FESL_MASK, u32.
  change 7 with (Z.ones 3). apply Z.bits_inj'. intros i Hi. bits_rw.
  zcases; cbn; rewrite ?orb_false_r, ?andb_true_r, ?andb_false_r; cbn.
  1: f_equal; lia.
  all: symmetry; apply (testbit_high _ 3); lia.
Qed.

Lemma fsel_update_other v pin q f : 0 <= pin → 0 <= q → q mod 10 ≠ pin mod 10 →
  0 <= v < 2 ^ 32 → fsel_field (fsel_update v pin f) q = fsel_field v q.
Proof.
  intros Hp Hq Hne Hv.
  pose proof (fsel_shift_range pin Hp) as Hsp. pose proof (fsel_shift_range q Hq) as Hsq.
  pose proof (fsel_code_range f).
  assert (RPI3_GPIO_FSEL_SHIFT q + 3 <= RPI3_GPIO_FSEL_SHIFT pin
          ∨ RPI3_GPIO_FSEL_SHIFT pin + 3 <= RPI3_GPIO_FSEL_SHIFT q).
  { unfold RPI3_GPIO_FSEL_SHIFT, NGPIOS_PER_FSEL, NBITS_PER_FSEL_GPIO. lia. }
  unfold fsel_field, fsel_update, GPIO_FESL_MASK, u32.
  set (sp := RPI3_GPIO_FSEL_SHIFT pin) in *. set (sq := RPI3_GPIO_FSEL_SHIFT q) in *.
  change 7 with (Z.ones 3). apply Z.bits_inj'. intros i Hi. bits_rw.
  zcases; cbn; rewrite ?andb_false_r, ?andb_true_r; cbn; try done.
  all: try (rewrite (testbit_high (fsel_code f) 3) by lia).
  all: try (rewrite (Z.testbit_neg_r (fsel_code f)) by lia).
  all: by rewrite ?orb_false_r, ?andb_true_r.
Qed.

Section correctness.
Context `{Env}.

(** A function select is one load and one store of the pin's GPFSEL word. *)
Lemma gpio_fsel_eq pin f s : 0 <= pin <= RPI3_MAX_PIN_NUM →
  let a := d_gpio_base s + 4 * (pin / 10) in
  let v := u32 (env_read (d_trace s) 32 a) in
  gpio_fsel pin f s =
    Ok () (d_log (E_write 32 a (fsel_update v pin f)) (d_log (E_read 32 a v) s)).
Proof.
  intros Hp a v. unfold gpio_fsel. rewrite (proj2 (Z.ltb_ge _ _)) by lia.
  assert (d_gpio_base s + gpio_offset GPFSEL + 4 * u8 (RPI3_GPIO_FSEL_BANK pin) = a) as Ha.
  { unfold a, RPI3_GPIO_FSEL_BANK, NGPIOS_PER_FSEL, RPI3_MAX_PIN_NUM in *.
    change (gpio_offset GPFSEL) with 0. rewrite u8_id; [lia|].
    split; [apply Z.div_pos; lia|]. apply Z.div_lt_upper_bound; lia. }
  unfold rpi3_set_gpio_pin_function, io_clrsetbits32, get_base_address, gets,
    io_read32, io_write32, io_read, io_write, modify, mbind, M_bind.
  rewrite Ha. fold (u32 (env_read (d_trace s) 32 a)). fold v. fold (fsel_update v pin f).
  rewrite Z.mod_small; [done|]. apply fsel_update_range; [lia|apply u32_range].
Qed.

(** The word of bank [pin / 32] of a register pair. *)
Definition bank_addr (s : dstate) (m : gpio_member) (pin : Z) : Z :=
  d_gpio_base s + gpio_offset m + 4 * (pin / 32).

Lemma bank_addr_eq m pin s : 0 <= pin <= RPI3_MAX_PIN_NUM →
  get_base_address m (RPI3_GPIO_BANK pin) s = Ok (bank_addr s m pin) s.
Proof.
  intros Hp. unfold get_base_address, gets, bank_addr, RPI3_GPIO_BANK, NGPIOS_PER_BANK, RPI3_MAX_PIN_NUM in *.
  do 2 f_equal. rewrite u8_id; [done|]. split; [apply Z.div_pos; lia|]. apply Z.div_lt_upper_bound; lia.
Qed.

Lemma gpio_get_eq pin s : 0 <= pin <= RPI3_MAX_PIN_NUM →
  let v := u32 (env_read (d_trace s) 32 (bank_addr s GPLEV pin)) in
  gpio_get pin s = Ok (Z.b2z (Z.testbit v (pin mod 32))) (d_log (E_read 32 (bank_addr s GPLEV pin) v) s).
Proof.
  intros Hp v. unfold gpio_get. rewrite (proj2 (Z.ltb_ge _ _)) by lia.
  unfold rpi3_get_gpio_pin_value, mbind, M_bind. rewrite bank_addr_eq by done.
  unfold io_read32, io_read. fold (u32 (env_read (d_trace s) 32 (bank_addr s GPLEV pin))). fold v.
  unfold mret, M_ret. f_equal. unfold RPI3_GPIO_SHIFT, NGPIOS_PER_BANK.
  rewrite BIT_test by (apply Z.mod_pos_bound; lia). by destruct (Z.testbit _ _).
Qed.

(** Setting or clearing a pin is a read-modify-write of its GPSET or GPCLR word. *)
Lemma gpio_set_eq pin l s : 0 <= pin <= RPI3_MAX_PIN_NUM →
  let a := bank_addr s (match l with GPIO_LOW_LEVEL => GPCLR | GPIO_HIGH_LEVEL => GPSET end) pin in
  let v := u32 (env_read (d_trace s) 32 a) in
  gpio_set pin l s = Ok 0 (d_log (E_write 32 a (Z.setbit v (pin mod 32))) (d_log (E_read 32 a v) s)).
Proof.
  intros Hp a v. unfold gpio_set. rewrite (proj2 (Z.ltb_ge _ _)) by lia.
  assert (0 <= pin mod 32 < 32) as Hm by (apply Z.mod_pos_bound; lia).
  assert (Z.lor (Z.land v (unot 32 (BIT (pin mod 32)))) (BIT (pin mod 32)) = Z.setbit v (pin mod 32)) as Hbit.
  { apply Z.bits_inj'. intros i Hi. rewrite Z.setbit_eqb, Z.lor_spec, Z.land_spec, unot_spec, BIT_spec by lia.
    rewrite (Z.eqb_sym i). destruct (Z.eqb_spec (pin mod 32) i); [by rewrite orb_true_r|].
    rewrite orb_false_r. cbn [negb orb]. destruct (Z.ltb_spec i 32); [by rewrite andb_true_r|].
    rewrite (testbit_high v 32) by (apply u32_range || lia). done. }
  assert (0 <= Z.setbit v (pin mod 32) < 2 ^ 32) as Hr.
  { pose proof (u32_range (env_read (d_trace s) 32 a)). split; [rewrite Z.setbit_spec'; apply Z.lor_nonneg; split; [lia|apply Z.pow_nonneg; lia]|].
    apply bits_bound; [lia|rewrite Z.setbit_spec'; apply Z.lor_nonneg; split; [lia|apply Z.pow_nonneg; lia]|].
    intros i Hi. rewrite Z.setbit_neq, (testbit_high v 32) by lia. done. }
  unfold rpi3_set_gpio_pin_value, mbind, M_bind.
  assert (∀ m, io_clrsetbits32 (bank_addr s m pin) (BIT (pin mod 32)) (BIT (pin mod 32)) s
    = let v := u32 (env_read (d_trace s) 32 (bank_addr s m pin)) in
      Ok tt (d_log (E_write 32 (bank_addr s m pin) (u32 (Z.lor (Z.land v (unot 32 (BIT (pin mod 32)))) (BIT (pin mod 32)))))
        (d_log (E_read 32 (bank_addr s m pin) v) s))) as Hrmw by done.
  destruct l; rewrite bank_addr_eq by done; unfold RPI3_GPIO_SHIFT, NGPIOS_PER_BANK; rewrite Hrmw; cbv zeta;
    fold a; fold v; rewrite Hbit, u32_id by done; done.
Qed.
End correctness.
