(* ===== verification/I2c.v ===== *)
(** * The BSC I2C driver (core/drivers/rpi3/rpi3_i2c.c)

    All exported operations of the bus driver over the environment of
    Platform: acquire/release with the pin functions and the lock, polled reads
    and writes through the 16-byte FIFO, register access, and the clock
    divider.  Buffers are passed by value and the updated buffer is returned
    beside the status. *)

From Stdlib Require Import ZArith Lia Bool.
From stdpp Require Import base tactics option list numbers gmap.
From S2P Require Import Prelude Platform Gpio.

Open Scope Z_scope.

Definition I2C_NUM : Z := 2.
Definition I2C_START_TIMEOUT_US : Z := 1000.
Definition UINT16_MAX : Z := 65535.

(** [struct BSCRegister]: word offsets of its members. *)
Inductive bsc_member :=
  | BSC_C | BSC_S | BSC_DLEN | BSC_A | BSC_FIFO | BSC_DIV | BSC_DEL | BSC_CLKT.
Definition bsc_offset (m : bsc_member) : Z :=
  match m with
  | BSC_C => 0x00 | BSC_S => 0x04 | BSC_DLEN => 0x08 | BSC_A => 0x0C
  | BSC_FIFO => 0x10 | BSC_DIV => 0x14 | BSC_DEL => 0x18 | BSC_CLKT => 0x1C
  end.

Definition BSC_C_I2CEN : Z := BIT 15.
Definition BSC_C_ST : Z := BIT 7.
Definition BSC_C_CLEAR : Z := BIT 4.
Definition BSC_C_READ : Z := BIT 0.
Definition BSC_S_CLKT : Z := BIT 9.
Definition BSC_S_ERR : Z := BIT 8.
Definition BSC_S_RXD : Z := BIT 5.
Definition BSC_S_TXD : Z := BIT 4.
Definition BSC_S_DONE : Z := BIT 1.
Definition BSC_S_TA : Z := BIT 0.
Definition BSC_S_CLEARED : Z := Z.lor (Z.lor BSC_S_CLKT BSC_S_ERR) BSC_S_DONE.
Definition BSC_DEL_FEDL_SHIFT : Z := 16.
Definition BSC_DEL_REDL_SHIFT : Z := 0.
Definition BSC_CDIV_MIN : Z := 0x0002.
Definition BSC_CDIV_MAX : Z := 0xFFFE.
Definition BSC_FIFO_SIZE : Z := 16.

(** Transfer flags and speeds (periph/i2c.h). *)
Definition I2C_ADDR10 : Z := 0x01.
Definition I2C_REG16 : Z := 0x02.
Definition I2C_CONT : Z := 0x10.
Inductive i2c_speed_t :=
  | I2C_SPEED_LOW | I2C_SPEED_NORMAL | I2C_SPEED_FAST | I2C_SPEED_FAST_PLUS
  | I2C_SPEED_HIGH | I2C_SPEED_other (v : Z).
Definition i2c_speed_of (v : Z) : i2c_speed_t :=
  match v with
  | 0 => I2C_SPEED_LOW | 1 => I2C_SPEED_NORMAL | 2 => I2C_SPEED_FAST
  | 3 => I2C_SPEED_FAST_PLUS | 4 => I2C_SPEED_HIGH | _ => I2C_SPEED_other v
  end.

Definition flag (flags f : Z) : bool := truth (Z.land flags f).

(** [i2c_t] is [uint_fast8_t], an unsigned char on this platform. *)
Definition i2c_t (v : Z) : Z := u8 v.

Section driver.
Context `{Env}.

(** [&(bsc_registers[dev]->member)] *)
Definition BSC_ (m : bsc_member) (dev : Z) : D Z :=
  l ← gets d_bsc_base;
  b ← arr_get l dev;
  mret (b + bsc_offset m).

Definition bsc_read16 (m : bsc_member) (dev : Z) : D Z := a ← BSC_ m dev; io_read16 a.
Definition bsc_read32 (m : bsc_member) (dev : Z) : D Z := a ← BSC_ m dev; io_read32 a.
Definition bsc_write8 (m : bsc_member) (dev v : Z) : D unit := a ← BSC_ m dev; io_write8 a v.
Definition bsc_write16 (m : bsc_member) (dev v : Z) : D unit := a ← BSC_ m dev; io_write16 a v.
Definition bsc_write32 (m : bsc_member) (dev v : Z) : D unit := a ← BSC_ m dev; io_write32 a v.
Definition bsc_setbits32 (m : bsc_member) (dev v : Z) : D unit :=
  a ← BSC_ m dev; io_setbits32 a v.

Definition i2c_set_divider (dev bus_clk_rate : Z) : D Z :=
  let divider := u32 ((CORE_CLK + bus_clk_rate - 1) / bus_clk_rate) in
  let divider := if truth (Z.land divider 1) then u32 (divider + 1) else divider in
  if (divider <? BSC_CDIV_MIN) || (BSC_CDIV_MAX <? divider)
  then mret TEE_ERROR_BAD_PARAMETERS else
  bsc_write16 BSC_DIV dev divider;;
  let fedl := Z.max (divider / 16) 1 in
  let redl := Z.max (divider / 4) 1 in
  let del := u32 (Z.lor (Z.shiftl fedl BSC_DEL_FEDL_SHIFT)
                        (Z.shiftl redl BSC_DEL_REDL_SHIFT)) in
  bsc_write16 BSC_DEL dev del;;
  bsc_write32 BSC_DIV dev del;;
  mret TEE_SUCCESS.

Definition i2c_acquire (dev : Z) : D Z :=
  if I2C_NUM <=? dev then mret TEE_ERROR_BAD_PARAMETERS else
  mutex_lock (L_bsc dev);;
  (if dev =? 1 then
     gpio_fsel 2 GPIO_FSEL_ALT0;;
     gpio_fsel 3 GPIO_FSEL_ALT0
   else
     gpio_fsel 0 GPIO_FSEL_ALT0;;
     gpio_fsel 1 GPIO_FSEL_ALT0);;
  cdiv ← bsc_read16 BSC_DIV dev;
  w ← gets d_byte_wait;
  w' ← arr_set w dev (u64 (cdiv * 1000000 * 9) / CORE_CLK);
  modify (d_set_byte_wait w');;
  mret TEE_SUCCESS.

Definition i2c_release (dev : Z) : D Z :=
  if I2C_NUM <=? dev then mret TEE_ERROR_BAD_PARAMETERS else
  (if dev =? 1 then
     gpio_fsel 2 GPIO_FSEL_INPT;;
     gpio_fsel 3 GPIO_FSEL_INPT
   else
     gpio_fsel 0 GPIO_FSEL_INPT;;
     gpio_fsel 1 GPIO_FSEL_INPT);;
  mutex_unlock (L_bsc dev);;
  mret TEE_SUCCESS.

(** *** Reading *)

(** [while (remain && (io_read16(BSC_S) & BSC_S_RXD)) { data[received] = ... }];
    the locals are the buffer, [received] and [remain].  Each round
    decrements [remain], so [remain + 1] rounds are enough. *)
Definition bsc_drain_rxfifo (dev : Z) (v : buf * Z * Z) : D (buf * Z * Z) :=
  while_ (S (Z.to_nat v.2))
    (λ '(_, _, remain),
       if truth remain then st ← bsc_read16 BSC_S dev; mret (flag st BSC_S_RXD)
       else mret false)
    (λ '(data, received, remain),
       x ← bsc_read32 BSC_FIFO dev;
       data' ← buf_set data received (u8 x);
       mret (data', u16 (received + 1), u16 (remain - 1)))
    v.

(** The 10-bit address prologue of [i2c_read_bytes]: [None] to go on, or the
    status to return. *)
Definition i2c_read_addr10 (dev addr len control : Z) : D (option Z) :=
  bsc_write16 BSC_DLEN dev 1;;
  bsc_write8 BSC_FIFO dev (u8 (Z.land addr 0xFF));;
  bsc_write8 BSC_A dev (Z.lor (u8 (Z.land (Z.shiftr addr 8) 0x03)) 0x78);;
  bsc_write32 BSC_C dev control;;
  start ← tee_time_get_sys_time;
  end_ ← tee_time_get_sys_time;
  '(transfer_active, end_) ← do_while env_fuel
    (λ '(_, _),
       st ← bsc_read16 BSC_S dev;
       e ← tee_time_get_sys_time;
       mret (Z.land st BSC_S_TA, e))
    (λ '(ta, e), mret (negb (truth ta) && (elapsed start e <=? I2C_START_TIMEOUT_US)))
    (0, end_);
  if I2C_START_TIMEOUT_US <? elapsed start end_ then
    bsc_write32 BSC_S dev BSC_S_CLEARED;;
    mret (Some TEE_ERROR_TIMEOUT)
  else if truth transfer_active then
    bsc_write16 BSC_DLEN dev len;;
    mret None
  else
    bsc_write32 BSC_S dev BSC_S_CLEARED;;
    mret (Some TEE_ERROR_TIMEOUT).

(** The status decoding at the end of [i2c_read_bytes]; the debug message
    reads the status register again. *)
Definition i2c_read_status (dev remain : Z) : D Z :=
  st ← bsc_read16 BSC_S dev;
  if flag st BSC_S_ERR then
    bsc_read16 BSC_S dev;; mret TEE_ERROR_NO_DATA
  else
    st ← bsc_read16 BSC_S dev;
    if flag st BSC_S_CLKT then
      bsc_read16 BSC_S dev;; mret TEE_ERROR_TIMEOUT
    else if truth remain then mret TEE_ERROR_BAD_STATE
    else mret TEE_SUCCESS.

Definition i2c_read_bytes (dev addr : Z) (data : option buf) (len flags : Z) :
    D (Z * option buf) :=
  let len := u16 len in
  let control := Z.lor BSC_C_ST BSC_C_I2CEN in
  match data with
  | None => mret (TEE_ERROR_BAD_PARAMETERS, data)
  | Some b =>
    if (I2C_NUM <=? dev) || (len =? 0) then mret (TEE_ERROR_BAD_PARAMETERS, data) else
    (if flag flags I2C_CONT then mret () else
       bsc_setbits32 BSC_C dev BSC_C_CLEAR;;
       bsc_write32 BSC_S dev BSC_S_CLEARED);;
    early ← (if flag flags I2C_ADDR10 then i2c_read_addr10 dev addr len control
             else
               bsc_write32 BSC_DLEN dev len;;
               bsc_write32 BSC_A dev (u8 addr);;
               mret None);
    match early with
    | Some res => mret (res, data)
    | None =>
      bsc_write32 BSC_C dev (Z.lor control BSC_C_READ);;
      v ← while_ env_fuel
            (λ _, st ← bsc_read16 BSC_S dev; mret (negb (flag st BSC_S_DONE)))
            (bsc_drain_rxfifo dev)
            (b, 0, len);
      '(b', _, remain) ← bsc_drain_rxfifo dev v;
      res ← i2c_read_status dev remain;
      bsc_write32 BSC_S dev BSC_S_CLEARED;;
      mret (res, Some b')
    end
  end.

(** [i2c_read_bytes(dev, addr, &data[off], len, flags)]: the callee gets a
    pointer into the caller's buffer. *)
Definition i2c_read_at (dev addr : Z) (data : option buf) (off len flags : Z) :
    D (Z * option buf) :=
  match data with
  | None => if off =? 0 then i2c_read_bytes dev addr None len flags else undef UB_null
  | Some b =>
    if blen b <? off then undef UB_oob else
    '(res, b1) ← i2c_read_bytes dev addr (Some (drop (Z.to_nat off) b)) len flags;
    mret (res, (λ b1, take (Z.to_nat off) b ++ b1) <$> b1)
  end.

Definition i2c_read_byte (dev addr : Z) (data : option buf) (flags : Z) :
    D (Z * option buf) :=
  i2c_read_bytes dev addr data 1 flags.

(** *** Writing *)

(** Locals of the write loops: [sent], [remain], [fail_safe], [safe_timeout]. *)
Record txv := Txv { tx_sent : Z; tx_remain : Z; tx_fail_safe : Z; tx_timeout : bool }.

(** [while (remain && (sent < BSC_FIFO_SIZE)) { FIFO = byte(sent); ... }] *)
Definition tx_prefill (dev : Z) (byte_at : Z → D Z) (sent remain : Z) : D (Z * Z) :=
  while_ (S (Z.to_nat BSC_FIFO_SIZE))
    (λ '(sent, remain), mret (truth remain && (sent <? BSC_FIFO_SIZE)))
    (λ '(sent, remain),
       x ← byte_at sent;
       bsc_write32 BSC_FIFO dev x;;
       mret (u16 (sent + 1), u16 (remain - 1)))
    (sent, remain).

(** The inner loop: one byte per round while the FIFO has room. *)
Definition tx_inner (dev : Z) (byte_at : Z → D Z) (v : txv) : D txv :=
  loop (S (Z.to_nat (tx_remain v)))
    (λ v,
       room ← (if negb (tx_timeout v) && truth (tx_remain v)
               then st ← bsc_read32 BSC_S dev; mret (flag st BSC_S_TXD)
               else mret false);
       if room : bool then
         x ← byte_at (tx_sent v);
         bsc_write32 BSC_FIFO dev x;;
         let fs := u64 (tx_fail_safe v - 1) in
         let v' := Txv (u16 (tx_sent v + 1)) (u16 (tx_remain v - 1)) fs (tx_timeout v) in
         if fs =? 0 then mret (inr (Txv (tx_sent v') (tx_remain v') fs true))
         else mret (inl v')
       else mret (inr v))
    v.

(** The outer loop: until DONE or until [fail_safe] runs out. *)
Definition tx_outer (dev : Z) (byte_at : Z → D Z) (v : txv) : D txv :=
  loop env_fuel
    (λ v,
       go ← (if tx_timeout v then mret false
             else st ← bsc_read32 BSC_S dev; mret (negb (flag st BSC_S_DONE)));
       if go : bool then
         v ← tx_inner dev byte_at v;
         let fs := u64 (tx_fail_safe v - 1) in
         if fs =? 0 then mret (inr (Txv (tx_sent v) (tx_remain v) fs true))
         else mret (inl (Txv (tx_sent v) (tx_remain v) fs (tx_timeout v)))
       else mret (inr v))
    v.

Definition i2c_write_status (dev : Z) (v : txv) : D Z :=
  if tx_timeout v then mret TEE_ERROR_TIMEOUT else
  st ← bsc_read32 BSC_S dev;
  if flag st BSC_S_ERR then
    bsc_read32 BSC_S dev;; mret TEE_ERROR_NO_DATA
  else
    st ← bsc_read32 BSC_S dev;
    if flag st BSC_S_CLKT then
      bsc_read32 BSC_S dev;; mret TEE_ERROR_TIMEOUT
    else if truth (tx_remain v) then mret TEE_ERROR_BAD_STATE
    else mret TEE_SUCCESS.

Definition i2c_write_bytes (dev addr : Z) (data : option buf) (len flags : Z) : D Z :=
  let len := u16 len in
  let control := Z.lor BSC_C_I2CEN BSC_C_ST in
  match data with
  | None => mret TEE_ERROR_BAD_PARAMETERS
  | Some b =>
    if (I2C_NUM <=? dev) || (len =? 0) || ((len =? UINT16_MAX) && flag flags I2C_ADDR10)
    then mret TEE_ERROR_BAD_PARAMETERS else
    (if flag flags I2C_CONT then mret () else
       bsc_setbits32 BSC_C dev BSC_C_CLEAR;;
       bsc_write32 BSC_S dev BSC_S_CLEARED);;
    sent ← (if flag flags I2C_ADDR10 then
              bsc_write32 BSC_DLEN dev (len + 1);;
              bsc_write32 BSC_FIFO dev (Z.land addr 0xFF);;
              bsc_write32 BSC_FIFO dev (Z.lor (Z.land (Z.shiftr addr 8) 0x03) 0x78);;
              mret 1
            else
              bsc_write32 BSC_DLEN dev len;;
              bsc_write32 BSC_A dev (u8 addr);;
              mret 0);
    '(sent, remain) ← tx_prefill dev (buf_get b) sent len;
    bsc_write32 BSC_C dev control;;
    v ← tx_outer dev (buf_get b) (Txv sent remain (u64 (len * 10000)) false);
    res ← i2c_write_status dev v;
    bsc_setbits32 BSC_S dev BSC_S_CLEARED;;
    mret res
  end.

Definition i2c_write_byte (dev addr data flags : Z) : D Z :=
  i2c_write_bytes dev addr (Some (bytes [u8 data])) 1 flags.

(** *** Registers *)

Definition i2c_read_regs (dev addr reg : Z) (data : option buf) (len flags : Z) :
    D (Z * option buf) :=
  if flag flags I2C_REG16 then mret (TEE_ERROR_NOT_IMPLEMENTED, data) else
  r ← for_ (Z.to_nat (u16 len)) 0
    (λ i '(flags, data),
       res ← i2c_write_byte dev addr (u8 reg + i) flags;
       if negb (res =? TEE_SUCCESS) then mret (inr (res, data)) else
       let flags := Z.lor flags I2C_CONT in
       '(res, data) ← i2c_read_at dev addr data i 1 flags;
       if negb (res =? TEE_SUCCESS) then mret (inr (res, data)) else
       mret (inl (flags, data)))
    (flags, data);
  match r with
  | inl (_, data) => mret (TEE_SUCCESS, data)
  | inr v => mret v
  end.

Definition i2c_read_reg (dev addr reg : Z) (data : option buf) (flags : Z) :
    D (Z * option buf) :=
  i2c_read_regs dev addr reg data 1 flags.

Definition i2c_write_reg (dev addr reg data flags : Z) : D Z :=
  if flag flags I2C_REG16 then mret TEE_ERROR_NOT_IMPLEMENTED else
  i2c_write_bytes dev addr (Some (bytes [u8 reg; u8 data])) 2 flags.

Definition i2c_write_regs (dev addr reg : Z) (data : option buf) (len flags : Z) : D Z :=
  if flag flags I2C_REG16 then mret TEE_ERROR_NOT_IMPLEMENTED else
  res ← i2c_write_bytes dev addr (Some (bytes [u8 reg])) 1 flags;
  if negb (res =? TEE_SUCCESS) then mret res else
  i2c_write_bytes dev addr data len (Z.lor flags I2C_CONT).

(** [sent < prefix_len ? prefix[sent] : data[sent - prefix_len]] *)
Definition prefix_byte (prefix : buf) (prefix_len : Z) (data : buf) (sent : Z) : D Z :=
  if sent <? prefix_len then buf_get prefix sent else buf_get data (sent - prefix_len).

Definition i2c_write_with_prefix (dev addr : Z) (prefix : option buf) (prefix_len : Z)
    (data : option buf) (len flags : Z) : D Z :=
  let prefix_len := u16 prefix_len in
  let len := u16 len in
  let control := Z.lor BSC_C_I2CEN BSC_C_ST in
  match prefix, data with
  | Some p, Some b =>
    if (I2C_NUM <=? dev) || (len =? 0) || ((len =? UINT16_MAX) && flag flags I2C_ADDR10)
    then mret TEE_ERROR_BAD_PARAMETERS else
    if flag flags I2C_ADDR10 then mret TEE_ERROR_NOT_IMPLEMENTED else
    (if flag flags I2C_CONT then mret () else
       bsc_setbits32 BSC_C dev BSC_C_CLEAR;;
       bsc_write32 BSC_S dev BSC_S_CLEARED);;
    bsc_write32 BSC_DLEN dev (prefix_len + len);;
    bsc_write32 BSC_A dev (u8 addr);;
    '(sent, remain) ← tx_prefill dev (prefix_byte p prefix_len b) 0 (u16 (prefix_len + len));
    bsc_write32 BSC_C dev control;;
    v ← tx_outer dev (prefix_byte p prefix_len b)
          (Txv sent remain (u64 ((prefix_len + len) * 10000)) false);
    res ← i2c_write_status dev v;
    bsc_setbits32 BSC_S dev BSC_S_CLEARED;;
    mret res
  | _, _ => mret TEE_ERROR_BAD_PARAMETERS
  end.

Definition i2c_set_frequency (dev : Z) (freq : i2c_speed_t) : D Z :=
  match freq with
  | I2C_SPEED_LOW => i2c_set_divider dev 10000
  | I2C_SPEED_NORMAL => i2c_set_divider dev 100000
  | I2C_SPEED_FAST => i2c_set_divider dev 400000
  | I2C_SPEED_FAST_PLUS => i2c_set_divider dev 1000000
  | I2C_SPEED_HIGH => i2c_set_divider dev 3400000
  | I2C_SPEED_other _ => mret TEE_ERROR_NOT_SUPPORTED
  end.

Definition rpi3_i2c_init : D Z :=
  (if env_mmu then
     modify (d_set_bsc_base [env_phys_to_virt BSC0_BASE; env_phys_to_virt BSC1_BASE])
   else mret ());;
  mret TEE_SUCCESS.
End driver.
