(* ===== verification/I2cProofs.v ===== *)
(** * Correctness of the BSC I2C driver

    What each transfer puts into and takes from the FIFO (as parts of the
    history), that it touches no other register or lock, and
    when it terminates ([i2c_live]). *)

From Stdlib Require Import ZArith Lia Bool.
From stdpp Require Import base tactics option list numbers gmap.
From S2P Require Import Prelude Platform Gpio I2c.

Open Scope Z_scope.

(** The address of a register of bus [dev]. *)
Definition bsc_addr (s : dstate) (dev : Z) (m : bsc_member) : Z :=
  default 0 (d_bsc_base s !! Z.to_nat dev) + bsc_offset m.

Lemma bsc_addr_ext s s' dev m : d_ext s s' → bsc_addr s' dev m = bsc_addr s dev m.
Proof. by intros [? ->]. Qed.

Lemma bsc_addr_inj s dev m1 m2 : bsc_addr s dev m1 = bsc_addr s dev m2 → m1 = m2.
Proof. unfold bsc_addr. destruct m1, m2; cbn; intros; try done; lia. Qed.

(** A byte source that yields the bytes of [data] without effects. *)
Definition yields (byte_at : Z → D Z) (data : list Z) : Prop :=
  ∀ i x s, 0 <= i → data !! Z.to_nat i = Some x → byte_at i s = Ok x s.

Section bsc.
Context `{Env} (dev : Z) (Hdev : 0 <= dev < I2C_NUM).

Lemma BSC_spec m s : d_wf s → BSC_ m dev s = Ok (bsc_addr s dev m) s.
Proof using Hdev.
  intros [Hl _]. unfold BSC_, gets, mbind, M_bind, arr_get.
  rewrite (proj2 (Z.leb_le 0 dev)) by lia. unfold bsc_addr.
  destruct (d_bsc_base s !! Z.to_nat dev) as [b|] eqn:Hb; [done|].
  apply lookup_ge_None in Hb. unfold I2C_NUM in *. lia.
Qed.

Lemma bsc_read16_spec t m s : d_wf s →
  wp t (bsc_read16 m dev)
    (λ v s', s' = d_log (E_read 16 (bsc_addr s dev m) v) s ∧ 0 <= v < 2 ^ 16) s.
Proof using Hdev.
  intros. unfold bsc_read16. apply wp_bind. unfold wp at 1. rewrite BSC_spec by done.
  apply io_read_spec. lia.
Qed.

Lemma bsc_read32_spec t m s : d_wf s →
  wp t (bsc_read32 m dev)
    (λ v s', s' = d_log (E_read 32 (bsc_addr s dev m) v) s ∧ 0 <= v < 2 ^ 32) s.
Proof using Hdev.
  intros. unfold bsc_read32. apply wp_bind. unfold wp at 1. rewrite BSC_spec by done.
  apply io_read_spec. lia.
Qed.

Lemma bsc_write8_spec t m v s : d_wf s →
  wp t (bsc_write8 m dev v)
    (λ _ s', s' = d_log (E_write 8 (bsc_addr s dev m) (u8 v)) s) s.
Proof using Hdev.
  intros. unfold bsc_write8. apply wp_bind. unfold wp at 1. by rewrite BSC_spec.
Qed.

Lemma bsc_write16_spec t m v s : d_wf s →
  wp t (bsc_write16 m dev v)
    (λ _ s', s' = d_log (E_write 16 (bsc_addr s dev m) (u16 v)) s) s.
Proof using Hdev.
  intros. unfold bsc_write16. apply wp_bind. unfold wp at 1. by rewrite BSC_spec.
Qed.

Lemma bsc_write32_spec t m v s : d_wf s →
  wp t (bsc_write32 m dev v)
    (λ _ s', s' = d_log (E_write 32 (bsc_addr s dev m) (u32 v)) s) s.
Proof using Hdev.
  intros. unfold bsc_write32. apply wp_bind. unfold wp at 1. by rewrite BSC_spec.
Qed.

Lemma bsc_setbits32_spec t m v s : d_wf s →
  wp t (bsc_setbits32 m dev v)
    (λ _ s', ∃ x, s' = d_log (E_write 32 (bsc_addr s dev m) (u32 (Z.lor x v)))
                       (d_log (E_read 32 (bsc_addr s dev m) x) s)) s.
Proof using Hdev.
  intros. unfold bsc_setbits32. apply wp_bind. unfold wp at 1. rewrite BSC_spec by done.
  by eexists.
Qed.
End bsc.
#[export] Hint Resolve bsc_read16_spec bsc_read32_spec bsc_write8_spec bsc_write16_spec
  bsc_write32_spec bsc_setbits32_spec : wp_specs.

(** ** A bus that answers

    [polls_since st ct h]: the loads of the status register [st] since the
    last store to the control register [ct], which starts a transfer. *)
Fixpoint polls_since (st ct : Z) (h : history) : Z :=
  match h with
  | [] => 0
  | E_write _ a _ :: h' => if a =? ct then 0 else polls_since st ct h'
  | E_read _ a _ :: h' => polls_since st ct h' + (if a =? st then 1 else 0)
  | _ :: h' => polls_since st ct h'
  end.

(** With [t = true]: every transfer is DONE after some number of polls, and
    the fuel covers these polls and the [fail_safe] counter of the longest
    write. *)
Definition i2c_live `{Env} (t : bool) (dev : Z) (s : dstate) : Prop :=
  t = true → dev < I2C_NUM → 655350000 < Z.of_nat env_fuel ∧ ∃ n, 0 <= n < Z.of_nat env_fuel ∧ ∀ h,
    n <= polls_since (bsc_addr s dev BSC_S) (bsc_addr s dev BSC_C) h →
    flag (env_read h 16 (bsc_addr s dev BSC_S) mod 2 ^ 16) BSC_S_DONE = true.

Lemma bsc_addr_frame s s' dev m : d_frame s s' → bsc_addr s' dev m = bsc_addr s dev m.
Proof. intros (_&Hb&_). unfold bsc_addr. by rewrite Hb. Qed.

Lemma i2c_live_frame `{Env} t dev s s' : d_frame s s' → i2c_live t dev s → i2c_live t dev s'.
Proof.
  intros Hf Hl Ht Hd. destruct (Hl Ht Hd) as (?&n&?&Hn). split; [done|]. exists n. split; [done|].
  intros h. rewrite !(bsc_addr_frame s s') by done. apply Hn.
Qed.
Lemma i2c_live_ext `{Env} t dev s s' : d_ext s s' → i2c_live t dev s → i2c_live t dev s'.
Proof. intros He. apply i2c_live_frame. by apply d_ext_frame. Qed.
Lemma i2c_live_false `{Env} dev s : i2c_live false dev s.
Proof. intros Ht. discriminate. Qed.
#[export] Hint Resolve i2c_live_ext i2c_live_false : core.

(** What one event adds to the loads or stores of another register. *)
Lemma writes_to_skip a e h : write_of a e = [] → writes_to a (e :: h) = writes_to a h.
Proof. intros He. cbn. rewrite He. by rewrite app_nil_r. Qed.

Lemma write_of_other s dev m1 m2 w v : m1 ≠ m2 →
  write_of (bsc_addr s dev m1) (E_write w (bsc_addr s dev m2) v) = [].
Proof.
  intros Hne. cbn. destruct (Z.eqb_spec (bsc_addr s dev m2) (bsc_addr s dev m1)); [|done].
  exfalso. by apply Hne, eq_sym, (bsc_addr_inj s dev).
Qed.

Lemma write_of_same a w v : write_of a (E_write w a v) = [v].
Proof. cbn. by rewrite Z.eqb_refl. Qed.

(** ** Writing: the FIFO receives a prefix of the data, in order *)

Section write.
Context `{Env} (dev : Z) (Hdev : 0 <= dev < I2C_NUM).
Context (byte_at : Z → D Z) (data : list Z).
Context (Hsrc : yields byte_at data).
Context (Hbytes : Forall (λ x, 0 <= x < 2 ^ 8) data).
Context (Hlen : Z.of_nat (length data) < 2 ^ 16).
Context (s0 : dstate) (Hwf : d_wf s0).

Local Abbreviation fifo := (bsc_addr s0 dev BSC_FIFO).
Local Abbreviation len := (Z.of_nat (length data)).

(** [sent] bytes of the data are in the FIFO and [remain] are left. *)
Definition tx_inv (sent remain : Z) (s : dstate) : Prop :=
  d_ext s0 s ∧ 0 <= sent ∧ 0 <= remain ∧ sent + remain = len
  ∧ writes_to fifo (d_trace s) = writes_to fifo (d_trace s0) ++ take (Z.to_nat sent) data.

Lemma tx_inv_log e sent remain s : tx_inv sent remain s → write_of fifo e = [] →
  tx_inv sent remain (d_log e s).
Proof.
  intros (?&?&?&?&Hw) He. split_and!; auto. cbn [d_trace d_log].
  by rewrite writes_to_skip.
Qed.

Lemma tx_inv_reg m w v sent remain s : tx_inv sent remain s → m ≠ BSC_FIFO →
  tx_inv sent remain (d_log (E_write w (bsc_addr s dev m) v) s).
Proof.
  intros HI Hm. apply tx_inv_log; [done|]. rewrite (bsc_addr_ext s0 s dev m) by apply HI.
  by apply write_of_other.
Qed.

Lemma tx_inv_send sent remain s : tx_inv sent remain s → 0 < remain →
  ∃ x, byte_at sent s = Ok x s
    ∧ tx_inv (u16 (sent + 1)) (u16 (remain - 1)) (d_log (E_write 32 fifo (u32 x)) s).
Proof using Hbytes Hsrc Hlen.
  intros (He&?&?&Hsum&Hw) Hr.
  destruct (lookup_lt_is_Some_2 data (Z.to_nat sent)) as [x Hx]; [lia|].
  exists x. split; [by apply Hsrc|].
  rewrite !u16_id by lia. split_and!; auto; [lia..|]. cbn [d_trace d_log writes_to].
  rewrite write_of_same, Hw, <- app_assoc. f_equal.
  replace (Z.to_nat (sent + 1)) with (S (Z.to_nat sent)) by lia.
  rewrite (take_S_r _ _ x) by done. f_equal.
  eapply Forall_lookup in Hbytes; [|done]. rewrite u32_id by lia. done.
Qed.

Lemma tx_prefill_spec t sent remain s : tx_inv sent remain s →
  wp t (tx_prefill dev byte_at sent remain)
    (λ '(sent', remain') s', tx_inv sent' remain' s') s.
Proof using All.
  intros HI. unfold tx_prefill, while_.
  eapply (wp_loop_gen _ _ _ (λ '(a, b) s', tx_inv a b s')
    (λ '(a, _), Z.max 0 (BSC_FIFO_SIZE - a))); [|done|].
  - clear s HI sent remain. intros [sent remain] s HI. split; [lia|].
    wp_steps. destruct (truth remain) eqn:Hr; cbn; [|by wp_steps].
    destruct (Z.ltb_spec sent BSC_FIFO_SIZE); [|by wp_steps].
    unfold truth in Hr. bool_props. pose proof HI as HI'.
    destruct HI' as (?&?&?&Hsum&_).
    destruct (tx_inv_send sent remain s HI) as (x&Hx&HI2); [lia|].
    wp_steps. unfold wp at 1. rewrite Hx.
    wp_steps. eapply wp_mono; [apply bsc_write32_spec; eauto|].
    intros _ s' ->. rewrite (bsc_addr_ext s0) by done. wp_steps.
    split; [done|]. rewrite u16_id by lia. lia.
  - intros _. unfold BSC_FIFO_SIZE. destruct HI as (?&?&?&_). lia.
Qed.
Definition txv_inv (v : txv) (s : dstate) : Prop :=
  tx_inv (tx_sent v) (tx_remain v) s
  ∧ if tx_timeout v then tx_fail_safe v = 0 ∨ tx_fail_safe v = 2 ^ 64 - 1
    else 1 <= tx_fail_safe v < 2 ^ 64.

Lemma tx_inner_spec t v s : txv_inv v s → tx_timeout v = false →
  wp t (tx_inner dev byte_at v)
    (λ v' s', txv_inv v' s' ∧ if tx_timeout v' then tx_fail_safe v' = 0
              else tx_fail_safe v' <= tx_fail_safe v) s.
Proof using All.
  intros HI Ht. unfold tx_inner.
  eapply (wp_loop_gen _ _ _
    (λ v' s', txv_inv v' s' ∧ tx_timeout v' = false ∧ tx_fail_safe v' <= tx_fail_safe v)
    tx_remain); [|done|].
  - clear s HI Ht. intros u s ((HI&Hfs)&Ht&Hle).
    pose proof HI as (?&?&?&?&?). rewrite Ht in *. cbn [negb andb]. split; [done|].
    wp_steps. destruct (truth (tx_remain u)) eqn:Hr.
    2:{ wp_steps. split; [split|]; rewrite ?Ht; auto. }
    unfold truth in Hr. bool_props.
    wp_steps. eapply wp_mono; [apply bsc_read32_spec; eauto|].
    intros st s' [-> _]. wp_steps.
    assert (tx_inv (tx_sent u) (tx_remain u) (d_log (E_read 32 (bsc_addr s dev BSC_S) st) s))
      as HI2 by by apply tx_inv_log.
    destruct (flag st BSC_S_TXD); wp_steps.
    2:{ split; [split|]; rewrite ?Ht; auto. }
    destruct (tx_inv_send _ _ _ HI2) as (x&Hx&HI3); [lia|].
    unfold wp at 1. rewrite Hx. wp_steps.
    eapply wp_mono; [apply bsc_write32_spec; eauto|].
    intros _ s'' ->. rewrite (bsc_addr_ext s0) by eauto. cbn zeta.
    rewrite u64_id by lia. destruct (Z.eqb_spec (tx_fail_safe u - 1) 0) as [Hz|Hz]; wp_steps.
    + split; [split|]; cbn; auto.
    + cbn [tx_sent tx_remain tx_fail_safe tx_timeout].
      split; [|rewrite u16_id; lia]. split_and!; [|done|lia].
      split; cbn [tx_sent tx_remain tx_fail_safe tx_timeout]; [done|]. rewrite ?Ht. lia.
  - intros _. destruct HI as [(?&?&?&_) _]. lia.
Qed.

Lemma tx_outer_spec t v s : txv_inv v s → tx_timeout v = false →
  (t = true → tx_fail_safe v < Z.of_nat env_fuel) →
  wp t (tx_outer dev byte_at v) txv_inv s.
Proof using All.
  intros HI Ht Hfuel. unfold tx_outer.
  eapply (wp_loop_gen _ _ _ txv_inv (λ v, if tx_timeout v then 0 else tx_fail_safe v));
    [|done|by rewrite Ht].
  clear s v HI Ht Hfuel. intros v s (HI&Hfs). pose proof HI as (?&?&?&?&?).
  destruct (tx_timeout v) eqn:Ht; (split; [lia|]); wp_steps.
  { split; by rewrite ?Ht. }
  eapply wp_mono; [apply bsc_read32_spec; eauto|]. intros st s' [-> _]. wp_steps.
  assert (txv_inv v (d_log (E_read 32 (bsc_addr s dev BSC_S) st) s)) as HI2.
  { split; [by apply tx_inv_log|]. by rewrite Ht. }
  destruct (negb (flag st BSC_S_DONE)); wp_steps; [|done].
  eapply wp_mono; [by apply tx_inner_spec|].
  intros v' s' [[HI' Hfs'] Hcase]. cbn zeta.
  destruct (tx_timeout v') eqn:Ht'.
  - rewrite Hcase. change (u64 (0 - 1)) with (2 ^ 64 - 1). cbn [Z.eqb]. wp_steps.
    split; [split|]; cbn [tx_sent tx_remain tx_fail_safe tx_timeout]; rewrite ?Ht'; auto.
    lia.
  - rewrite u64_id by lia. destruct (Z.eqb_spec (tx_fail_safe v' - 1) 0); wp_steps.
    + split; [done|]. by left.
    + cbn [tx_timeout tx_fail_safe]. rewrite ?Ht'. split; [|lia].
      split; cbn [tx_sent tx_remain tx_fail_safe tx_timeout]; [done|]. rewrite ?Ht'. lia.
Qed.

Lemma i2c_write_status_spec t v s : txv_inv v s →
  wp t (i2c_write_status dev v)
    (λ r s', txv_inv v s' ∧ tee_status r ∧ (r = TEE_SUCCESS → tx_remain v = 0)) s.
Proof using Hdev Hwf.
  intros [HI Hfs]. unfold i2c_write_status.
  assert (∀ st a s, txv_inv v s → txv_inv v (d_log (E_read 32 a st) s)) as Hlog.
  { intros st a s1 [? ?]. split; [by apply tx_inv_log|done]. }
  assert (txv_inv v s) as HI0 by done. clear HI Hfs.
  destruct (tx_timeout v).
  { wp_steps. split_and!; auto; discriminate. }
  wp_steps. eapply wp_mono; [apply bsc_read32_spec; auto; eapply d_ext_wf, Hwf; apply HI0|].
  intros st s1 [-> _]. eapply (Hlog st) in HI0. destruct (flag st BSC_S_ERR); wp_steps.
  { eapply wp_mono; [apply bsc_read32_spec; auto; eapply d_ext_wf, Hwf; apply HI0|].
    intros ? ? [-> _]. wp_steps. split_and!; auto; discriminate. }
  eapply wp_mono; [apply bsc_read32_spec; auto; eapply d_ext_wf, Hwf; apply HI0|].
  intros st2 s2 [-> _]. eapply (Hlog st2) in HI0. destruct (flag st2 BSC_S_CLKT); wp_steps.
  { eapply wp_mono; [apply bsc_read32_spec; auto; eapply d_ext_wf, Hwf; apply HI0|].
    intros ? ? [-> _]. wp_steps. split_and!; auto; discriminate. }
  destruct (truth (tx_remain v)) eqn:Hr; unfold truth in Hr; bool_props; wp_steps.
  all: split_and!; auto; discriminate.
Qed.

(** The register writes that start a transfer leave the FIFO alone. *)
Lemma tx_inv_start : tx_inv 0 len s0.
Proof.
  split_and!; [reflexivity|lia..|]. change (Z.to_nat 0) with 0%nat.
  by rewrite take_0, app_nil_r.
Qed.

(** The common tail of both write functions, from the FIFO prefill on. *)
Definition tx_tail (control : Z) : D Z :=
  '(sent, remain) ← tx_prefill dev byte_at 0 len;
  bsc_write32 BSC_C dev control;;
  v ← tx_outer dev byte_at (Txv sent remain (u64 (len * 10000)) false);
  res ← i2c_write_status dev v;
  bsc_setbits32 BSC_S dev BSC_S_CLEARED;;
  mret res.

Definition tx_post (r : Z) (s' : dstate) : Prop :=
  d_ext s0 s' ∧ tee_status r ∧ ∃ n, (n <= length data)%nat
    ∧ writes_to fifo (d_trace s') = writes_to fifo (d_trace s0) ++ take n data
    ∧ (r = TEE_SUCCESS → n = length data).

Lemma tx_tail_spec t control s : 0 < len → tx_inv 0 len s →
  (t = true → len * 10000 < Z.of_nat env_fuel) → wp t (tx_tail control) tx_post s.
Proof using All.
  intros Hpos HI Hfuel. unfold tx_tail. wp_steps.
  eapply wp_mono; [by apply tx_prefill_spec|]. intros [sent remain] s1 HI1.
  wp_steps. eapply wp_mono; [apply bsc_write32_spec; auto; eapply d_ext_wf, Hwf; apply HI1|].
  intros _ s2 ->. apply (tx_inv_reg BSC_C 32 (u32 control)) in HI1; [|done].
  wp_steps. rewrite u64_id by lia.
  eapply wp_mono; [apply tx_outer_spec; [split; cbn; [done|lia]|done|done]|].
  intros v s3 HI3. wp_steps. eapply wp_mono; [by apply i2c_write_status_spec|].
  intros r s4 ([HI4 _]&Hr&Hrem). wp_steps.
  eapply wp_mono; [apply bsc_setbits32_spec; auto; eapply d_ext_wf, Hwf; apply HI4|].
  intros _ s5 [x ->]. wp_steps.
  assert (tx_inv (tx_sent v) (tx_remain v) (d_log (E_read 32 (bsc_addr s4 dev BSC_S) x) s4))
    as HI5 by by apply tx_inv_log.
  apply (tx_inv_reg BSC_S 32 (u32 (Z.lor x BSC_S_CLEARED))) in HI5; [|done].
  destruct HI5 as (He&?&?&Hsum&Hw).
  split_and!; [exact He|done|]. exists (Z.to_nat (tx_sent v)). split_and!; [lia|exact Hw|lia].
Qed.
End write.

Lemma yields_buf b data :
  take (length data) b = bytes data → yields (buf_get b) data.
Proof.
  intros Hb i x s Hi Hx. unfold buf_get. rewrite (proj2 (Z.leb_le 0 i)) by done.
  assert (b !! Z.to_nat i = Some (Some x)) as ->; [|done].
  rewrite <- (lookup_take_lt b (length data)) by (by eapply lookup_lt_Some).
  rewrite Hb. unfold bytes. by rewrite list_lookup_fmap, Hx.
Qed.

Lemma yields_prefix p b data1 data2 :
  p = bytes data1 → take (length data2) b = bytes data2 →
  yields (prefix_byte p (Z.of_nat (length data1)) b) (data1 ++ data2).
Proof.
  intros -> Hb i x s Hi Hx. unfold prefix_byte.
  destruct (Z.ltb_spec i (Z.of_nat (length data1))).
  - rewrite lookup_app_l in Hx by lia.
    apply (yields_buf _ data1); auto. apply take_ge. unfold bytes. by rewrite length_fmap.
  - rewrite lookup_app_r in Hx by lia. apply (yields_buf _ data2); auto; [lia|].
    by replace (Z.to_nat (i - Z.of_nat (length data1)))
      with (Z.to_nat i - length data1)%nat by lia.
Qed.

(** Runs the specification of a register access whose state is known to be an
    extension of a well-formed one. *)
Ltac bsc_call := eapply wp_mono; [solve [eauto 6 with wp_specs]|].

Section write_main.
Context `{Env} (dev : Z) (Hdev : 0 <= dev < I2C_NUM).

Lemma i2c_clear_spec t data flags s : d_wf s →
  wp t (if flag flags I2C_CONT then mret () else
          bsc_setbits32 BSC_C dev BSC_C_CLEAR;;
          bsc_write32 BSC_S dev BSC_S_CLEARED)
    (λ _ s', tx_inv dev data s 0 (Z.of_nat (length data)) s') s.
Proof using Hdev.
  intros Hwf. pose proof (tx_inv_start dev data s) as HI.
  destruct (flag flags I2C_CONT); wp_steps; [done|].
  bsc_call. intros _ s1 [x ->]. apply (tx_inv_log _ _ _ (E_read 32 (bsc_addr s dev BSC_C) x))
    in HI; [|done].
  apply (tx_inv_reg _ _ _ BSC_C 32 (u32 (Z.lor x BSC_C_CLEAR))) in HI; [|done].
  bsc_call. intros _ s2 ->. apply (tx_inv_reg _ _ _ BSC_S 32 (u32 BSC_S_CLEARED)) in HI; done.
Qed.

(** A write in 7-bit mode: whatever the device answers, the FIFO receives a
    prefix of the data in order, and all of it when the call succeeds. *)
Lemma i2c_write_bytes_spec t addr b len flags data s :
  d_wf s → flag flags I2C_ADDR10 = false → 0 < len < 2 ^ 16 →
  len = Z.of_nat (length data) → take (length data) b = bytes data →
  Forall (λ x, 0 <= x < 2 ^ 8) data →
  (t = true → len * 10000 < Z.of_nat env_fuel) →
  wp t (i2c_write_bytes dev addr (Some b) len flags) (tx_post dev data s) s.
Proof using Hdev.
  intros Hwf Hf Hlen -> Hb Hbytes Hfuel. unfold i2c_write_bytes.
  rewrite u16_id, Hf by lia. rewrite (proj2 (Z.leb_gt _ _)) by lia.
  rewrite (proj2 (Z.eqb_neq _ 0)) by lia. rewrite andb_false_r. cbn [orb].
  wp_steps. eapply wp_mono; [apply (i2c_clear_spec t data); auto|].
  intros [] s1 HI. wp_steps.
  eapply wp_mono; [apply bsc_write32_spec; auto; eapply d_ext_wf; [apply HI|done]|].
  intros _ s2 ->. apply (tx_inv_reg _ _ _ BSC_DLEN 32 (u32 (Z.of_nat (length data)))) in HI; [|done]. wp_steps.
  eapply wp_mono; [apply bsc_write32_spec; auto; eapply d_ext_wf; [apply HI|done]|].
  intros _ s3 ->. apply (tx_inv_reg _ _ _ BSC_A 32 (u32 (u8 addr))) in HI; [|done].
  wp_step. apply (tx_tail_spec dev Hdev (buf_get b) data); auto; [|lia..].
  by apply yields_buf.
Qed.

Lemma i2c_write_with_prefix_spec t addr p b plen len flags pdata data s :
  d_wf s → flag flags I2C_ADDR10 = false → 0 < len → 0 <= plen → plen + len < 2 ^ 16 →
  plen = Z.of_nat (length pdata) → p = bytes pdata →
  len = Z.of_nat (length data) → take (length data) b = bytes data →
  Forall (λ x, 0 <= x < 2 ^ 8) (pdata ++ data) →
  (t = true → (plen + len) * 10000 < Z.of_nat env_fuel) →
  wp t (i2c_write_with_prefix dev addr (Some p) plen (Some b) len flags)
    (tx_post dev (pdata ++ data) s) s.
Proof using Hdev.
  intros Hwf Hf Hlen Hplen Hsum Hp ? Hl Hb Hbytes Hfuel. unfold i2c_write_with_prefix.
  rewrite (u16_id plen), (u16_id len), (u16_id (plen + len)), Hf by lia.
  rewrite (proj2 (Z.leb_gt _ _)) by lia.
  rewrite (proj2 (Z.eqb_neq len 0)) by lia. rewrite andb_false_r. cbn [orb].
  wp_steps. eapply wp_mono; [apply (i2c_clear_spec t (pdata ++ data)); auto|].
  intros [] s1 HI. wp_steps.
  eapply wp_mono; [apply bsc_write32_spec; auto; eapply d_ext_wf; [apply HI|done]|].
  intros _ s2 ->. apply (tx_inv_reg _ _ _ BSC_DLEN 32 (u32 (plen + len))) in HI; [|done].
  wp_steps. eapply wp_mono; [apply bsc_write32_spec; auto; eapply d_ext_wf; [apply HI|done]|].
  intros _ s3 ->. apply (tx_inv_reg _ _ _ BSC_A 32 (u32 (u8 addr))) in HI; [|done].
  assert (plen + len = Z.of_nat (length (pdata ++ data))) as E
    by (rewrite length_app; lia).
  rewrite E in HI, Hfuel |- *. rewrite Hp.
  apply (tx_tail_spec dev Hdev (prefix_byte p (Z.of_nat (length pdata)) b) (pdata ++ data));
    auto; [|lia..].
  by apply yields_prefix.
Qed.
End write_main.

(** ** Reading: the buffer receives what the FIFO delivered, in order *)

Lemma reads_from_skip a e h : read_of a e = [] → reads_from a (e :: h) = reads_from a h.
Proof. intros He. cbn. rewrite He. by rewrite app_nil_r. Qed.

Lemma read_of_other s dev m1 m2 w v : m1 ≠ m2 →
  read_of (bsc_addr s dev m1) (E_read w (bsc_addr s dev m2) v) = [].
Proof.
  intros Hne. cbn. destruct (Z.eqb_spec (bsc_addr s dev m2) (bsc_addr s dev m1)); [|done].
  exfalso. by apply Hne, eq_sym, (bsc_addr_inj s dev).
Qed.

Section read.
Context `{Env} (dev : Z) (Hdev : 0 <= dev < I2C_NUM).
Context (b0 : buf) (len : Z) (Hlen : 0 <= len < 2 ^ 16) (Hb : len <= blen b0).
Context (s0 : dstate) (Hwf : d_wf s0).

Local Abbreviation fifo := (bsc_addr s0 dev BSC_FIFO).

(** No byte has been taken from the FIFO since [s0]. *)
Definition rx_quiet (s : dstate) : Prop :=
  d_ext s0 s ∧ reads_from fifo (d_trace s) = reads_from fifo (d_trace s0).

(** The buffer holds the bytes [got], as taken from the FIFO since [s0]. *)
Definition rx_got (got : list Z) (b : buf) (s : dstate) : Prop :=
  d_ext s0 s ∧ b = bytes got ++ drop (length got) b0
  ∧ Forall (λ x, 0 <= x < 2 ^ 8) got
  ∧ u8 <$> reads_from fifo (d_trace s) = (u8 <$> reads_from fifo (d_trace s0)) ++ got.

Definition rx_inv (v : buf * Z * Z) (s : dstate) : Prop :=
  let '(b, received, remain) := v in
  0 <= received ∧ 0 <= remain ∧ received + remain = len
  ∧ ∃ got, rx_got got b s ∧ Z.of_nat (length got) = received.

Lemma rx_quiet_log e s : rx_quiet s → read_of fifo e = [] → rx_quiet (d_log e s).
Proof. intros [? Hr] He. split; [auto|]. cbn [d_trace d_log]. by rewrite reads_from_skip. Qed.

Lemma rx_quiet_reg m w v s : rx_quiet s → m ≠ BSC_FIFO →
  rx_quiet (d_log (E_read w (bsc_addr s dev m) v) s).
Proof.
  intros Hq Hm. apply rx_quiet_log; [done|]. rewrite (bsc_addr_ext s0 s dev m) by apply Hq.
  by apply read_of_other.
Qed.

Lemma rx_inv_status w x v s : rx_inv v s → rx_inv v (d_log (E_read w (bsc_addr s dev BSC_S) x) s).
Proof.
  destruct v as [[b received] remain]. intros (?&?&?&got&(He&?&?&Hr)&?).
  split_and!; auto. exists got. split; [|done]. split_and!; auto. cbn [d_trace d_log].
  rewrite (bsc_addr_ext s0 s) by done. rewrite reads_from_skip; [done|]. by apply read_of_other.
Qed.

Lemma rx_inv_ext v s : rx_inv v s → d_ext s0 s.
Proof. destruct v as [[? ?] ?]. by intros (?&?&?&?&(?&_)&_). Qed.

Lemma rx_inv_start s : rx_quiet s → rx_inv (b0, 0, len) s.
Proof using Hlen.
  intros [He Hr]. split_and!; [lia..|]. exists []. split; [|done].
  split_and!; [done|done|constructor|]. by rewrite Hr, app_nil_r.
Qed.

Lemma rx_inv_take b received remain x s :
  rx_inv (b, received, remain) s → 0 < remain →
  0 <= received < blen b ∧
  rx_inv (<[Z.to_nat received := Some (u8 x)]> b, u16 (received + 1), u16 (remain - 1))
    (d_log (E_read 32 (bsc_addr s dev BSC_FIFO) x) s).
Proof using Hlen Hb.
  intros (?&?&?&got&(He&->&Hg&Hr)&Hgl) Hrem. unfold blen in *.
  assert (Z.to_nat received = length got) as -> by lia.
  split.
  { unfold bytes. rewrite length_app, length_fmap, length_drop. lia. }
  rewrite !u16_id by lia. split_and!; [lia..|]. exists (got ++ [u8 x]).
  split; [|rewrite length_app; cbn; lia]. split_and!.
  - auto.
  - by rewrite insert_after_prefix by lia.
  - apply Forall_app. split; [done|]. constructor; [apply u8_range|constructor].
  - cbn [d_trace d_log reads_from]. rewrite (bsc_addr_ext s0 s) by done.
    unfold read_of. rewrite Z.eqb_refl, fmap_app, Hr, <- app_assoc. done.
Qed.

(** Loads do not start a new transfer. *)
Definition polls (s : dstate) : Z :=
  polls_since (bsc_addr s0 dev BSC_S) (bsc_addr s0 dev BSC_C) (d_trace s).
Lemma polls_read w a v s : polls s <= polls (d_log (E_read w a v) s).
Proof. unfold polls. cbn. destruct (a =? _); lia. Qed.
Lemma polls_status w v s : d_ext s0 s →
  polls (d_log (E_read w (bsc_addr s dev BSC_S) v) s) = polls s + 1.
Proof. intros. unfold polls. cbn. by rewrite (bsc_addr_ext s0 s), Z.eqb_refl. Qed.

Lemma bsc_drain_spec t v s : rx_inv v s →
  wp t (bsc_drain_rxfifo dev v) (λ v' s', rx_inv v' s' ∧ polls s <= polls s') s.
Proof using All.
  intros HI. unfold bsc_drain_rxfifo, while_.
  eapply (wp_loop_gen _ _ _ (λ v' s', rx_inv v' s' ∧ polls s <= polls s') snd); [|done|].
  2:{ intros _. destruct v as [[??]?], HI as (?&?&_). cbn. lia. }
  clear v HI. intros [[b received] remain] s1 [HI Hs]. pose proof (rx_inv_ext _ _ HI).
  pose proof HI as (?&?&_). split; [done|]. cbn [snd].
  destruct (truth remain) eqn:Hr; wp_steps; [|done]. unfold truth in Hr. bool_props.
  eapply wp_mono; [apply bsc_read16_spec; eauto|]. intros st s2 [-> _].
  pose proof (polls_read 16 (bsc_addr s1 dev BSC_S) st s1).
  apply (rx_inv_status 16 st) in HI. wp_steps.
  destruct (flag st BSC_S_RXD); wp_steps; [|split; [done|lia]].
  eapply wp_mono; [apply bsc_read32_spec; eauto|]. intros x s3 [-> _].
  destruct (rx_inv_take _ _ _ x _ HI) as [? HI2]; [lia|].
  wp_steps. apply wp_buf_set; [done|]. wp_steps. split; [split; [done|]|].
  { etrans; [|apply polls_read]. lia. }
  cbn. destruct HI as (?&?&?&_). rewrite u16_id; lia.
Qed.

Definition i2c_read_poll (v : buf * Z * Z) : D (buf * Z * Z) :=
  while_ env_fuel
    (λ _, st ← bsc_read16 BSC_S dev; mret (negb (flag st BSC_S_DONE)))
    (bsc_drain_rxfifo dev) v.

(** The rounds are bounded by the polls the device still asks for. *)
Lemma i2c_read_poll_spec t v s : i2c_live t dev s0 → rx_inv v s →
  wp t (i2c_read_poll v) rx_inv s.
Proof using All.
  intros Hl HI. assert (∃ n, t = true → (0 <= n < Z.of_nat env_fuel) ∧ ∀ h,
    n <= polls_since (bsc_addr s0 dev BSC_S) (bsc_addr s0 dev BSC_C) h →
    flag (env_read h 16 (bsc_addr s0 dev BSC_S) mod 2 ^ 16) BSC_S_DONE = true) as [n Hn].
  { destruct t; [destruct (Hl eq_refl) as (_&n&Hn); [lia|by exists n]|by exists 0]. }
  apply (wp_while_if _ _ _ _ rx_inv (λ _ s, Z.max 0 (n - polls s))); [|done|].
  2:{ intros Ht. destruct (Hn Ht) as [? _].
      assert (0 <= polls s); [|lia]. unfold polls. generalize (d_trace s). clear.
      induction h as [|[] h IH]; cbn; try (case_match; lia); lia. }
  clear v s HI. intros v s HI. split; [lia|]. pose proof (rx_inv_ext _ _ HI) as He.
  wp_steps. unfold wp at 1, bsc_read16. unfold mbind at 1, M_bind at 1. rewrite BSC_spec by eauto.
  cbn [io_read16 io_read]. set (st := env_read _ _ _ mod 2 ^ 16).
  pose proof HI as HI2. apply (rx_inv_status 16 st) in HI2. wp_steps.
  destruct (flag st BSC_S_DONE) eqn:Hst; cbn [negb]; [done|].
  pose proof (polls_status 16 st s He).
  eapply wp_mono; [by apply bsc_drain_spec|]. intros v' s' [? Hs]. split; [done|].
  intros Ht. destruct (Hn Ht) as [_ Hd]. unfold st in Hst. rewrite (bsc_addr_ext s0 s) in Hst by done.
  destruct (Z.le_gt_cases n (polls s)) as [Hc|]; [|lia]. by rewrite (Hd _ Hc) in Hst.
Qed.

Definition rx_post (r : Z * option buf) (s : dstate) : Prop :=
  d_ext s0 s ∧ tee_status r.1 ∧ ∃ got b, r.2 = Some b ∧ rx_got got b s
    ∧ Z.of_nat (length got) <= len ∧ (r.1 = TEE_SUCCESS → Z.of_nat (length got) = len).

Lemma i2c_read_status_spec t v s : rx_inv v s →
  wp t (i2c_read_status dev v.2)
    (λ r s', rx_inv v s' ∧ tee_status r ∧ (r = TEE_SUCCESS → v.2 = 0)) s.
Proof using Hdev Hwf.
  intros HI. unfold i2c_read_status. wp_steps. pose proof (rx_inv_ext _ _ HI).
  eapply wp_mono; [apply bsc_read16_spec; eauto|]. intros st s1 [-> _].
  apply (rx_inv_status 16 st) in HI. destruct (flag st BSC_S_ERR); wp_steps.
  { eapply wp_mono; [apply bsc_read16_spec; eauto|]. intros st1 ? [-> _]. wp_steps.
    apply (rx_inv_status 16 st1) in HI. split_and!; auto; discriminate. }
  eapply wp_mono; [apply bsc_read16_spec; eauto|]. intros st2 s2 [-> _].
  apply (rx_inv_status 16 st2) in HI. destruct (flag st2 BSC_S_CLKT); wp_steps.
  { eapply wp_mono; [apply bsc_read16_spec; eauto|]. intros st3 ? [-> _]. wp_steps.
    apply (rx_inv_status 16 st3) in HI. split_and!; auto; discriminate. }
  destruct (truth v.2) eqn:Hr; unfold truth in Hr; bool_props; wp_steps.
  all: split_and!; auto; discriminate.
Qed.

Lemma rx_inv_post r v s e : rx_inv v s → tee_status r → (r = TEE_SUCCESS → v.2 = 0) →
  read_of fifo e = [] → rx_post (r, Some v.1.1) (d_log e s).
Proof using Hlen.
  destruct v as [[b received] remain]. intros (?&?&?&got&(He&Hbb&Hg&Hr)&?) Hst Hz Hev.
  cbn in Hz |- *. split_and!; auto. exists got, b. cbn [fst snd].
  split_and!; [done| |lia|intros Hs; specialize (Hz Hs); lia].
  split_and!; auto. cbn [d_trace d_log]. by rewrite reads_from_skip.
Qed.

(** Everything after the start bit has been written. *)
Definition i2c_read_tail : D (Z * option buf) :=
  v ← i2c_read_poll (b0, 0, len);
  '(b', _, remain) ← bsc_drain_rxfifo dev v;
  res ← i2c_read_status dev remain;
  bsc_write32 BSC_S dev BSC_S_CLEARED;;
  mret (res, Some b').

Lemma i2c_read_tail_spec t s : rx_quiet s →
  wp t (i2c_read_poll (b0, 0, len)) rx_inv s → wp t i2c_read_tail rx_post s.
Proof using All.
  intros Hq Hpoll. unfold i2c_read_tail. wp_steps. eapply wp_mono; [exact Hpoll|].
  intros v s1 HI. wp_steps. eapply wp_mono; [by apply bsc_drain_spec|].
  intros [[b1 rec1] rem1] s2 [HI2 _]. wp_steps.
  eapply wp_mono; [apply (i2c_read_status_spec _ (b1, rec1, rem1)); done|].
  intros r s3 (HI3&?&?). wp_steps.
  pose proof (rx_inv_ext _ _ HI3). eapply wp_mono; [apply bsc_write32_spec; eauto|].
  intros _ s4 ->. wp_steps. by apply (rx_inv_post r (b1, rec1, rem1)).
Qed.

(** The 10-bit address prologue takes nothing from the FIFO. *)
Lemma i2c_read_addr10_spec addr control s : rx_quiet s →
  wp false (i2c_read_addr10 dev addr len control)
    (λ o s', rx_quiet s' ∧ match o with
                           | Some r => r = TEE_ERROR_TIMEOUT | None => True end) s.
Proof using Hdev Hwf.
  intros Hq. unfold i2c_read_addr10.
  assert (∀ e s, rx_quiet s → read_of fifo e = [] → rx_quiet (d_log e s)) as Hlog
    by (intros; by apply rx_quiet_log).
  assert (∀ s, rx_quiet s → d_wf s) as Hw by (intros ? [? _]; eauto).
  wp_steps. eapply wp_mono; [by apply bsc_write16_spec; auto|]. intros _ ? ->.
  wp_steps. eapply wp_mono; [by apply bsc_write8_spec; auto|]. intros _ ? ->.
  wp_steps. eapply wp_mono; [by apply bsc_write8_spec; auto|]. intros _ ? ->.
  wp_steps. eapply wp_mono; [by apply bsc_write32_spec; auto|]. intros _ ? ->.
  wp_steps. eapply wp_mono; [apply tee_time_spec|]. intros t0 ? ->.
  wp_steps. eapply wp_mono; [apply tee_time_spec|]. intros t1 ? ->. wp_steps.
  eapply (wp_do_while _ _ _ (λ _, rx_quiet)); [|by auto 10].
  { intros [ta e] s1 Hq1. wp_steps. eapply wp_mono; [by apply bsc_read16_spec; auto|].
    intros st ? [-> _]. apply (rx_quiet_reg BSC_S 16 st) in Hq1; [|done]. wp_steps.
    eapply wp_mono; [apply tee_time_spec|]. intros t2 ? ->. wp_steps.
    assert (rx_quiet (d_log (E_time t2.1 t2.2)
      (d_log (E_read 16 (bsc_addr s1 dev BSC_S) st) s1))) as Hq2 by auto.
    destruct (negb _ && _); [done|].
    destruct (_ <? _); [|destruct (truth _)]; wp_steps.
    1: eapply wp_mono; [by apply bsc_write32_spec; auto|].
    2: eapply wp_mono; [by apply bsc_write16_spec; auto|].
    3: eapply wp_mono; [by apply bsc_write32_spec; auto|].
    all: intros _ ? ->; wp_steps; auto. }
Qed.
End read.

Section read_main.
Context `{Env} (dev : Z) (Hdev : 0 <= dev < I2C_NUM).

Lemma i2c_read_clear_spec t flags s : d_wf s →
  wp t (if flag flags I2C_CONT then mret () else
          bsc_setbits32 BSC_C dev BSC_C_CLEAR;;
          bsc_write32 BSC_S dev BSC_S_CLEARED)
    (λ _ s', rx_quiet dev s s') s.
Proof using Hdev.
  intros Hwf. assert (rx_quiet dev s s) as Hq by (split; [reflexivity|done]).
  destruct (flag flags I2C_CONT); wp_steps; [done|].
  bsc_call. intros _ s1 [x ->]. apply (rx_quiet_reg _ _ BSC_C 32 x) in Hq; [|done].
  apply (rx_quiet_log _ _ (E_write 32 (bsc_addr s dev BSC_C) (u32 (Z.lor x BSC_C_CLEAR)))) in Hq;
    [|done].
  bsc_call. intros _ s2 ->. by apply rx_quiet_log.
Qed.

(** The prologue of a 7-bit read: two more register stores, then the start. *)
Lemma i2c_read_bytes_gen t addr b len flags s :
  d_wf s → flag flags I2C_ADDR10 = false → 0 < len < 2 ^ 16 → len <= blen b →
  (∀ s', rx_quiet dev s s' →
     wp t (i2c_read_poll dev (b, 0, len)) (rx_inv dev b len s) s') →
  wp t (i2c_read_bytes dev addr (Some b) len flags) (rx_post dev b len s) s.
Proof using Hdev.
  intros Hwf Hf Hlen Hb Hpoll. unfold i2c_read_bytes.
  rewrite u16_id, Hf by lia. rewrite (proj2 (Z.leb_gt _ _)) by lia.
  rewrite (proj2 (Z.eqb_neq _ 0)) by lia. cbn [orb].
  wp_steps. eapply wp_mono; [by apply i2c_read_clear_spec|]. intros [] s1 Hq.
  assert (∀ e s', rx_quiet dev s s' → read_of (bsc_addr s dev BSC_FIFO) e = [] →
    rx_quiet dev s (d_log e s')) as Hlog by (intros; by apply rx_quiet_log).
  assert (∀ s', rx_quiet dev s s' → d_wf s') as Hw by (intros ? [? _]; eauto).
  wp_steps. eapply wp_mono; [by apply bsc_write32_spec; auto|]. intros _ ? ->.
  wp_steps. eapply wp_mono; [by apply bsc_write32_spec; auto|]. intros _ ? ->.
  wp_steps. eapply wp_mono; [by apply bsc_write32_spec; auto|]. intros _ ? ->.
  apply (i2c_read_tail_spec dev Hdev b len); auto; lia.
Qed.

(** Whatever the device does and however the address is formed, a read that
    returns has stored in the buffer exactly the bytes taken from the FIFO;
    it does return, for a 7-bit address, when the device finishes. *)
Lemma i2c_read_bytes_spec t addr b len flags s :
  d_wf s → 0 < len < 2 ^ 16 → len <= blen b →
  i2c_live t dev s → (t = true → flag flags I2C_ADDR10 = false) →
  wp t (i2c_read_bytes dev addr (Some b) len flags) (rx_post dev b len s) s.
Proof using Hdev.
  intros Hwf Hlen Hb Hl Ht. destruct (flag flags I2C_ADDR10) eqn:Hf.
  2:{ apply i2c_read_bytes_gen; auto. intros. apply i2c_read_poll_spec; auto; [lia|].
      by apply rx_inv_start; [lia|]. }
  destruct t; [by specialize (Ht eq_refl)|].
  unfold i2c_read_bytes. rewrite u16_id, Hf by lia. rewrite (proj2 (Z.leb_gt _ _)) by lia.
  rewrite (proj2 (Z.eqb_neq _ 0)) by lia. cbn [orb].
  wp_steps. eapply wp_mono; [by apply i2c_read_clear_spec|]. intros [] s1 Hq.
  wp_steps. eapply wp_mono; [by apply (i2c_read_addr10_spec dev Hdev len s)|].
  intros [r|] s2 [Hq2 Hr]; wp_steps.
  - subst r. split_and!; [apply Hq2|auto|]. exists [], b.
    split_and!; [done| |cbn; lia|discriminate]. destruct Hq2 as [? Hrd].
    split_and!; auto. by rewrite Hrd, app_nil_r.
  - eapply wp_mono; [apply bsc_write32_spec; auto; destruct Hq2; eauto|]. intros _ ? ->.
    apply (rx_quiet_log _ _ (E_write 32 (bsc_addr s2 dev BSC_C)
      (u32 (Z.lor (Z.lor BSC_C_ST BSC_C_I2CEN) BSC_C_READ)))) in Hq2; [|done].
    apply (i2c_read_tail_spec dev Hdev b len); auto; [lia|].
    apply i2c_read_poll_spec; auto; [lia|]. by apply rx_inv_start; [lia|].
Qed.
End read_main.

(** Arguments the driver rejects leave the bus untouched. *)
Lemma i2c_read_bytes_bad `{Env} dev addr b len flags s :
  b = None ∨ I2C_NUM <= dev ∨ u16 len = 0 →
  i2c_read_bytes dev addr b len flags s = Ok (TEE_ERROR_BAD_PARAMETERS, b) s.
Proof.
  intros Hbad. unfold i2c_read_bytes. destruct b as [b|]; [|done].
  destruct (Z.leb_spec I2C_NUM dev); [done|]. destruct (Z.eqb_spec (u16 len) 0); [done|].
  destruct Hbad as [|[]]; done || lia.
Qed.

Lemma i2c_write_bytes_bad `{Env} dev addr b len flags s :
  b = None ∨ I2C_NUM <= dev ∨ u16 len = 0 →
  i2c_write_bytes dev addr b len flags s = Ok TEE_ERROR_BAD_PARAMETERS s.
Proof.
  intros Hbad. unfold i2c_write_bytes. destruct b as [b|]; [|done].
  destruct (Z.leb_spec I2C_NUM dev); [done|]. destruct (Z.eqb_spec (u16 len) 0); [done|].
  destruct Hbad as [|[]]; done || lia.
Qed.

(** ** Acquire and release *)

Section acquire.
Context `{Env} (dev : Z).

Lemma gpio_fsel_spec t pin f s : 0 <= pin <= RPI3_MAX_PIN_NUM →
  wp t (gpio_fsel pin f) (λ _ s', d_ext s s') s.
Proof. intros. unfold wp. rewrite gpio_fsel_eq by done. auto. Qed.

(** An acquire of an existing bus that nobody holds takes its lock. *)
Lemma i2c_acquire_spec t s : 0 <= dev < I2C_NUM → d_wf s → L_bsc dev ∉ d_held s →
  wp t (i2c_acquire dev)
    (λ r s', r = TEE_SUCCESS ∧ d_frame s s' ∧ d_held s' = {[L_bsc dev]} ∪ d_held s) s.
Proof.
  intros Hdev Hwf Hl. unfold i2c_acquire. rewrite (proj2 (Z.leb_gt _ _)) by lia.
  wp_steps. eapply wp_mono; [by apply mutex_lock_spec|]. intros _ s1 ->.
  set (s1 := d_log _ _). assert (d_wf s1) as Hwf1 by apply Hwf.
  wp_steps. apply (wp_mono _ _ (λ _ s2, d_ext s1 s2)).
  { destruct (dev =? 1); wp_steps.
    all: eapply wp_mono; [apply gpio_fsel_spec; unfold RPI3_MAX_PIN_NUM; lia|].
    all: intros ? s2 He; cbn beta in He.
    all: eapply wp_mono; [apply gpio_fsel_spec; unfold RPI3_MAX_PIN_NUM; lia|].
    all: intros; by etrans. }
  intros ? s2 He. cbn beta in He. wp_steps.
  eapply wp_mono; [apply bsc_read16_spec; eauto|]. intros cdiv s3 [Hs3 _]. wp_steps.
  assert (d_ext s1 s3) as He3 by (subst s3; auto).
  assert (d_wf s3) as (?&?&Hbw) by eauto.
  apply wp_arr_set; [unfold I2C_NUM in *; lia|]. wp_steps. split; [done|].
  clear Hs3. destruct He3 as [evs ->]. split; [|done].
  split_and!; [done..|cbn; by rewrite length_insert|]. cbn. by exists (evs ++ [E_lock (L_bsc dev)]); rewrite <- app_assoc.
Qed.

Lemma i2c_release_spec t s : 0 <= dev < I2C_NUM → L_bsc dev ∈ d_held s →
  wp t (i2c_release dev)
    (λ r s', r = TEE_SUCCESS ∧ d_frame s s' ∧ d_held s' = d_held s ∖ {[L_bsc dev]}) s.
Proof.
  intros Hdev Hl. unfold i2c_release. rewrite (proj2 (Z.leb_gt _ _)) by lia.
  wp_steps. apply (wp_mono _ _ (λ _ s2, d_ext s s2)).
  { destruct (dev =? 1); wp_steps.
    all: eapply wp_mono; [apply gpio_fsel_spec; unfold RPI3_MAX_PIN_NUM; lia|].
    all: intros ? s2 He; cbn beta in He.
    all: eapply wp_mono; [apply gpio_fsel_spec; unfold RPI3_MAX_PIN_NUM; lia|].
    all: intros; by etrans. }
  intros ? s2 [evs ->]. wp_steps. eapply wp_mono; [by apply mutex_unlock_spec|].
  intros _ s3 ->. wp_steps. split_and!; [done| |done]. split_and!; auto.
  by exists (E_unlock (L_bsc dev) :: evs).
Qed.

Lemma i2c_acquire_bad s : I2C_NUM <= dev → i2c_acquire dev s = Ok TEE_ERROR_BAD_PARAMETERS s.
Proof. intros. unfold i2c_acquire. by rewrite (proj2 (Z.leb_le _ _)). Qed.
Lemma i2c_release_bad s : I2C_NUM <= dev → i2c_release dev s = Ok TEE_ERROR_BAD_PARAMETERS s.
Proof. intros. unfold i2c_release. by rewrite (proj2 (Z.leb_le _ _)). Qed.
End acquire.

(** ** What the bus promises its clients

    The sensor drivers and the services only need to know that a transfer
    adds to the history, returns a TEE status, and fills the buffer it was
    given when it succeeds; these laws are derived from the exact ones. *)

(** The buffer [b'] is [b] with its first [n] bytes (at least) filled. *)
Definition filled (n : Z) (b b' : buf) : Prop :=
  ∃ l, length l = Z.to_nat n ∧ Forall (λ x, 0 <= x < 2 ^ 8) l
       ∧ b' = bytes l ++ drop (Z.to_nat n) b.

(** A length argument is taken modulo 2^16. *)
Section trunc.
Context `{Env}.

Lemma u16_twice x : u16 (u16 x) = u16 x.
Proof. apply u16_id, u16_range. Qed.
Lemma i2c_read_trunc dev addr b len flags :
  i2c_read_bytes dev addr b len flags = i2c_read_bytes dev addr b (u16 len) flags.
Proof. unfold i2c_read_bytes. by rewrite u16_twice. Qed.
Lemma i2c_read_regs_trunc dev addr reg b len flags :
  i2c_read_regs dev addr reg b len flags = i2c_read_regs dev addr reg b (u16 len) flags.
Proof. unfold i2c_read_regs. by rewrite u16_twice. Qed.
Lemma i2c_write_trunc dev addr b len flags :
  i2c_write_bytes dev addr b len flags = i2c_write_bytes dev addr b (u16 len) flags.
Proof. unfold i2c_write_bytes. by rewrite u16_twice. Qed.
Lemma i2c_write_regs_trunc dev addr reg b len flags :
  i2c_write_regs dev addr reg b len flags = i2c_write_regs dev addr reg b (u16 len) flags.
Proof. unfold i2c_write_regs. by rewrite (i2c_write_trunc _ _ _ len). Qed.
Lemma u16_le x : 0 <= x → 0 <= u16 x <= x.
Proof. intros. split; [apply u16_range|]. apply Z.mod_le; lia. Qed.
End trunc.

Section client.
Context `{Env} (t : bool) (dev : Z) (Hdev : 0 <= dev).

Definition bus_read_post (n : Z) (b : option buf) (s : dstate)
    (r : Z * option buf) (s' : dstate) : Prop :=
  d_ext s s' ∧ tee_status r.1 ∧ (blen <$> r.2) = (blen <$> b)
  ∧ (r.1 = TEE_SUCCESS → ∃ b0 b1, b = Some b0 ∧ r.2 = Some b1 ∧ filled n b0 b1).

Lemma i2c_read_client addr b len flags s :
  d_wf s → i2c_live t dev s → 0 <= len < 2 ^ 16 → (∀ b0, b = Some b0 → len <= blen b0) →
  (t = true → flag flags I2C_ADDR10 = false) →
  wp t (i2c_read_bytes dev addr b len flags) (bus_read_post len b s) s.
Proof using Hdev.
  intros Hwf Hlive Hlen Hb H10.
  destruct (decide (b = None ∨ I2C_NUM <= dev ∨ u16 len = 0)) as [Hbad|Hok].
  { unfold wp. rewrite i2c_read_bytes_bad by done. split_and!; [reflexivity|auto|done|].
    cbn. discriminate. }
  destruct b as [b|]; [|by destruct Hok; left]. rewrite u16_id in Hok by lia.
  eapply wp_mono; [apply i2c_read_bytes_spec; auto; lia|].
  intros [r ob] s' (He&Hr&got&b'&Hob&(_&Hb'&Hg&_)&Hlg&Hs). cbn in *. subst ob.
  specialize (Hb _ eq_refl). unfold blen in *. split_and!; auto.
  - cbn. f_equal. unfold blen. rewrite Hb', length_app, length_drop. unfold bytes.
    rewrite length_fmap. lia.
  - intros Hsuc. specialize (Hs Hsuc). exists b, b'. split_and!; auto. exists got.
    split_and!; [lia|done|]. by replace (Z.to_nat len) with (length got) by lia.
Qed.

Lemma i2c_write_client addr b len flags s data :
  d_wf s → i2c_live t dev s → flag flags I2C_ADDR10 = false → 0 <= len < 2 ^ 16 →
  len = Z.of_nat (length data) → take (length data) b = bytes data →
  Forall (λ x, 0 <= x < 2 ^ 8) data →
  wp t (i2c_write_bytes dev addr (Some b) len flags) (λ r s', d_ext s s' ∧ tee_status r) s.
Proof using Hdev.
  intros Hwf Hlive Hf Hlen Hl Hb Hd.
  destruct (decide (Some b = None ∨ I2C_NUM <= dev ∨ u16 len = 0)) as [Hbad|Hok].
  { unfold wp. rewrite i2c_write_bytes_bad by done. split; [reflexivity|auto]. }
  rewrite u16_id in Hok by lia.
  eapply wp_mono; [apply (i2c_write_bytes_spec dev) with (data := data); auto; try lia; intros Ht; destruct (Hlive Ht); lia|].
  by intros r s' (?&?&_).
Qed.

Lemma i2c_write_byte_client addr x flags s : d_wf s → i2c_live t dev s → flag flags I2C_ADDR10 = false →
  wp t (i2c_write_byte dev addr x flags) (λ r s', d_ext s s' ∧ tee_status r) s.
Proof using Hdev.
  intros. unfold i2c_write_byte. apply (i2c_write_client _ _ _ _ _ [u8 x]); auto; [lia|].
  constructor; [apply u8_range|constructor].
Qed.

Lemma i2c_write_reg_client addr reg x flags s : d_wf s → i2c_live t dev s → flag flags I2C_ADDR10 = false →
  wp t (i2c_write_reg dev addr reg x flags) (λ r s', d_ext s s' ∧ tee_status r) s.
Proof using Hdev.
  intros. unfold i2c_write_reg. destruct (flag flags I2C_REG16); [by wp_steps; split; [reflexivity|auto]|].
  apply (i2c_write_client _ _ _ _ _ [u8 reg; u8 x]); auto; [lia|].
  repeat constructor; apply u8_range.
Qed.

Lemma flag_cont_addr10 flags : flag (Z.lor flags I2C_CONT) I2C_ADDR10 = flag flags I2C_ADDR10.
Proof.
  unfold flag. rewrite Z.land_lor_distr_l. change (Z.land I2C_CONT I2C_ADDR10) with 0.
  by rewrite Z.lor_0_r.
Qed.

Lemma i2c_write_regs_client addr reg b len flags s data :
  d_wf s → i2c_live t dev s → flag flags I2C_ADDR10 = false → 0 <= len < 2 ^ 16 →
  len = Z.of_nat (length data) → take (length data) b = bytes data →
  Forall (λ x, 0 <= x < 2 ^ 8) data →
  wp t (i2c_write_regs dev addr reg (Some b) len flags) (λ r s', d_ext s s' ∧ tee_status r) s.
Proof using Hdev.
  intros Hwf Hlive Hf Hlen Hl Hb Hd. unfold i2c_write_regs.
  destruct (flag flags I2C_REG16); [by wp_steps; split; [reflexivity|auto]|]. wp_steps.
  eapply wp_mono; [apply (i2c_write_client _ _ _ _ _ [u8 reg]); auto; [lia|]|].
  { constructor; [apply u8_range|constructor]. }
  intros r s1 [He Hr]. destruct (negb (r =? TEE_SUCCESS)); wp_steps; [done|].
  eapply wp_mono; [apply (i2c_write_client _ _ _ _ _ data); eauto; by rewrite flag_cont_addr10|].
  intros r2 s2 [? ?]. split; [by etrans|done].
Qed.

Lemma i2c_write_with_prefix_client addr p b plen len flags pdata data s :
  d_wf s → i2c_live t dev s → flag flags I2C_ADDR10 = false → 0 <= len → 0 <= plen → plen + len < 2 ^ 16 →
  plen = Z.of_nat (length pdata) → p = bytes pdata →
  len = Z.of_nat (length data) → take (length data) b = bytes data →
  Forall (λ x, 0 <= x < 2 ^ 8) (pdata ++ data) →
  wp t (i2c_write_with_prefix dev addr (Some p) plen (Some b) len flags)
    (λ r s', d_ext s s' ∧ tee_status r) s.
Proof using Hdev.
  intros Hwf Hlive Hf Hlen Hplen Hsum. intros.
  destruct (decide (I2C_NUM <= dev ∨ len = 0)) as [Hbad|Hok].
  { unfold i2c_write_with_prefix. rewrite (u16_id len) by lia.
    assert ((I2C_NUM <=? dev) || (len =? 0) = true) as ->; [|wp_steps; split; [reflexivity|auto]].
    destruct Hbad; [rewrite (proj2 (Z.leb_le _ _)) by done|rewrite (proj2 (Z.eqb_eq _ _)) by done];
      [done|apply orb_true_r]. }
  eapply wp_mono; [apply (i2c_write_with_prefix_spec dev) with (pdata := pdata) (data := data);
    auto; try lia; intros Ht; destruct (Hlive Ht); lia|].
  by intros r s' (?&?&_).
Qed.

(** Setting the clock stores to registers of the bus only. *)
Lemma i2c_set_frequency_client f s : dev < I2C_NUM → d_wf s →
  wp t (i2c_set_frequency dev f) (λ r s', d_ext s s' ∧ tee_status r) s.
Proof using Hdev.
  intros Hlt Hwf.
  assert (∀ hz, wp t (i2c_set_divider dev hz) (λ r s', d_ext s s' ∧ tee_status r) s) as Hdiv.
  { intros hz. unfold i2c_set_divider. destruct (_ || _); wp_steps; [by split; [reflexivity|auto]|].
    bsc_call. intros ? s1 ->. wp_steps. bsc_call. intros ? s2 ->. wp_steps.
    bsc_call. intros ? s3 ->. wp_steps. split; [d_ext_chain|auto]. }
  destruct f; cbn; auto; wp_steps; by split; [reflexivity|auto].
Qed.

(** Reading [n] bytes behind the first [i]. *)
Lemma filled_step i n b b' b1 : 0 <= i → 0 <= n → filled i b b' →
  filled n (drop (Z.to_nat i) b') b1 →
  filled (i + n) b (take (Z.to_nat i) b' ++ b1).
Proof.
  intros Hi Hn (l&Hl&Hf&->) (l1&Hl1&Hf1&->). exists (l ++ l1). split_and!.
  - rewrite length_app. lia.
  - by apply Forall_app.
  - assert (length (bytes l) = Z.to_nat i) as Hlb by (unfold bytes; by rewrite length_fmap).
    rewrite take_app_length', drop_app_length', drop_drop by done.
    unfold bytes. rewrite fmap_app, <- app_assoc. do 3 f_equal. lia.
Qed.

Lemma filled_blen n b b' : 0 <= n <= blen b → filled n b b' → blen b' = blen b.
Proof.
  unfold blen. intros Hn (l&Hl&_&->). unfold bytes.
  rewrite length_app, length_fmap, length_drop. lia.
Qed.

Lemma filled_0 b : filled 0 b b.
Proof. by exists []. Qed.

(** A read behind offset [off] leaves what is before it. *)
Lemma i2c_read_at_spec addr b off len flags s :
  d_wf s → i2c_live t dev s → 0 <= off → 0 <= len < 2 ^ 16 → off + len <= blen b →
  (t = true → flag flags I2C_ADDR10 = false) →
  wp t (i2c_read_at dev addr (Some b) off len flags)
    (λ r s', d_ext s s' ∧ tee_status r.1 ∧ ∃ b1, r.2 = Some (take (Z.to_nat off) b ++ b1)
       ∧ blen b1 = blen b - off
       ∧ (r.1 = TEE_SUCCESS → filled len (drop (Z.to_nat off) b) b1)) s.
Proof using Hdev.
  intros Hwf Hlive Hoff Hlen Hb H10. unfold i2c_read_at.
  rewrite (proj2 (Z.ltb_ge _ _)) by lia. wp_steps.
  eapply wp_mono; [apply (i2c_read_client addr (Some (drop (Z.to_nat off) b)) len); auto|].
  { intros b0 [= <-]. unfold blen in *. rewrite length_drop. lia. }
  intros [r ob] s' (He&Hr&Hbl2&Hs). cbn [fst snd] in *. wp_steps.
  destruct ob as [b1|]; [|done]. injection Hbl2 as Hbl2.
  split_and!; auto. exists b1; split_and!; [done| |].
  - unfold blen in *. rewrite length_drop in Hbl2. lia.
  - intros Hsuc. by destruct (Hs Hsuc) as (?&?&[= <-]&[= <-]&Hf1).
Qed.

Lemma i2c_read_at_client addr b b' off len flags s :
  d_wf s → i2c_live t dev s → 0 <= off → 0 <= len < 2 ^ 16 → off + len <= blen b → filled off b b' →
  (t = true → flag flags I2C_ADDR10 = false) →
  wp t (i2c_read_at dev addr (Some b') off len flags)
    (λ r s', d_ext s s' ∧ tee_status r.1 ∧ ∃ b1, r.2 = Some b1 ∧ blen b1 = blen b
       ∧ (r.1 = TEE_SUCCESS → filled (off + len) b b1)) s.
Proof using Hdev.
  intros Hwf Hlive Hoff Hlen Hb Hfi H10.
  pose proof (filled_blen off b b' ltac:(lia) Hfi) as Hbl.
  eapply wp_mono; [apply i2c_read_at_spec; auto; lia|].
  intros [r ob] s' (He&Hr&b1&Hob&Hbl2&Hs). cbn [fst snd] in *. subst ob.
  split_and!; auto. eexists; split_and!; [done| |].
  - unfold blen in *. rewrite length_app, length_take. lia.
  - intros Hsuc. apply filled_step; auto. lia.
Qed.

Lemma i2c_read_regs_client addr reg b len flags s :
  d_wf s → i2c_live t dev s → flag flags I2C_ADDR10 = false → 0 <= len < 2 ^ 16 → len <= blen b →
  wp t (i2c_read_regs dev addr reg (Some b) len flags) (bus_read_post len (Some b) s) s.
Proof using Hdev.
  intros Hwf Hlive Hf Hlen Hb. unfold i2c_read_regs, bus_read_post.
  destruct (flag flags I2C_REG16).
  { wp_steps. split_and!; [reflexivity|auto|done|discriminate]. }
  wp_steps. rewrite u16_id by lia.
  apply (wp_for _ _ _ (λ j '(fl, od) s', flag fl I2C_ADDR10 = false ∧ d_ext s s'
    ∧ ∃ b', od = Some b' ∧ filled j b b')).
  3:{ split_and!; [done|reflexivity|]. exists b. split; [done|apply filled_0]. }
  2:{ intros [fl od] s' (_&He&b'&->&Hfi). wp_steps. rewrite Z2Nat.id in Hfi by lia.
      split_and!; [done|auto| |by eauto]. cbn. f_equal.
      by apply (filled_blen len) in Hfi; [|lia]. }
  intros j [fl od] s1 Hj (Hfl&He&b'&->&Hfi). rewrite Z2Nat.id in Hj by lia. wp_steps.
  eapply wp_mono; [apply i2c_write_byte_client; eauto|]. intros r s2 [He2 Hr].
  pose proof (filled_blen j b b' ltac:(lia) Hfi) as Hbl.
  destruct (negb (r =? TEE_SUCCESS)) eqn:Hc; wp_steps; bool_props.
  { split_and!; [by etrans|done|cbn; by f_equal|done]. }
  eapply wp_mono; [apply (i2c_read_at_client addr b b' j 1); eauto; try lia; by rewrite flag_cont_addr10|].
  intros [r2 ob] s3 (He3&Hr2&b1&Hob&Hbl2&Hs). cbn [fst snd] in *. subst ob. wp_steps.
  destruct (negb (r2 =? TEE_SUCCESS)) eqn:Hc2; wp_steps; bool_props.
  - split_and!; [by do 2 (etrans; [|done])|done|cbn; by f_equal|done].
  - split_and!; [by rewrite flag_cont_addr10|by do 2 (etrans; [|done])|]. eauto.
Qed.

Lemma i2c_read_reg_client addr reg b flags s :
  d_wf s → i2c_live t dev s → flag flags I2C_ADDR10 = false → 1 <= blen b →
  wp t (i2c_read_reg dev addr reg (Some b) flags) (bus_read_post 1 (Some b) s) s.
Proof using Hdev. intros. unfold i2c_read_reg. apply i2c_read_regs_client; auto. lia. Qed.
End client.

(** ** Holding the bus *)

Section owns.
Context `{Env} (dev : Z).

(** [s1] is reached from [s] by taking the bus and using it. *)
Definition owns (s s1 : dstate) : Prop :=
  d_frame s s1 ∧ d_held s1 = {[L_bsc dev]} ∪ d_held s.

Lemma owns_ext s s1 s2 : owns s s1 → d_ext s1 s2 → owns s s2.
Proof.
  intros [? Hh] He. split; [by etrans; [|apply d_ext_frame]|].
  by rewrite (d_ext_held s1 s2).
Qed.

Lemma owns_wf s s1 : owns s s1 → d_wf s → d_wf s1.
Proof. intros [? _]. by apply d_frame_wf. Qed.

(** The bus exists and is not already held here. *)
Definition bus_free (s : dstate) : Prop := 0 <= dev ∧ L_bsc dev ∉ d_held s.

Lemma i2c_acquire_owns t s : bus_free s → d_wf s →
  wp t (i2c_acquire dev)
    (λ r s', (r = TEE_SUCCESS ∧ dev < I2C_NUM ∧ owns s s')
             ∨ (r = TEE_ERROR_BAD_PARAMETERS ∧ I2C_NUM <= dev ∧ s' = s)) s.
Proof.
  intros [Hd Hl] Hwf. destruct (Z.lt_ge_cases dev I2C_NUM).
  - eapply wp_mono; [by apply i2c_acquire_spec|]. intros r s' (->&?&?). by left.
  - unfold wp. rewrite i2c_acquire_bad by done. by right.
Qed.

Lemma i2c_release_owns t s s1 : bus_free s → dev < I2C_NUM → owns s s1 →
  wp t (i2c_release dev) (λ r s', r = TEE_SUCCESS ∧ kept s s') s1.
Proof.
  intros [Hd Hl] Hdev [Hf Hh]. eapply wp_mono; [apply i2c_release_spec; [lia|set_solver]|].
  intros r s' (->&Hf'&Hh'). split; [done|]. split; [by etrans|]. set_solver.
Qed.
End owns.
