(* ===== verification/SimI2c.v ===== *)
(** * The simulated I2C driver (core/drivers/rpi3/rpi3_sim_i2c.c)

    The interface of the I2C driver on two GPIO pins per bus: every bit is a
    sequence of levels of the data and the clock pin.  The array of the
    devices is an argument: only [rpi3_sim_i2c_init] assigns it. *)

From Stdlib Require Import ZArith Lia Bool.
From stdpp Require Import base tactics option list numbers gmap.
From S2P Require Import Prelude Platform Gpio I2c.

Open Scope Z_scope.

Record i2c_dev := I2cDev { sda : Z; scl : Z; delay_us : Z }.
Definition I2C_NUM : Z := 2.
Definition I2C_NORMAL_SPEED_DELAY_US : Z := 126.
Definition I2C_NACK : gpio_level_t := GPIO_HIGH_LEVEL.
Definition I2C_ACK : gpio_level_t := GPIO_LOW_LEVEL.

Definition htons (x : Z) : Z := u16 (Z.lor (Z.shiftl (Z.land x 0x00ff) 8) (Z.shiftr (Z.land x 0xff00) 8)).

(** [rpi3_sim_i2c_init]: the status and the array. *)
Definition rpi3_sim_i2c_init : Z * list i2c_dev :=
  (TEE_SUCCESS, [I2cDev 0 1 I2C_NORMAL_SPEED_DELAY_US; I2cDev 2 3 I2C_NORMAL_SPEED_DELAY_US]).

Section driver.
Context `{Env} (i2c_devs : list i2c_dev).

(** [delay_us] rounds of a [nop]. *)
Fixpoint nops (n : nat) : D unit :=
  match n with O => mret () | S n' => mret ();; nops n' end.
Definition i2c_delay (dev : Z) : D unit := d ← arr_get i2c_devs dev; nops (Z.to_nat (delay_us d)).

Definition i2c_init (dev : Z) : D unit :=
  d ← arr_get i2c_devs dev;
  gpio_init (scl d) GPIO_OUT;;
  gpio_init (sda d) GPIO_OUT;;
  gpio_set (scl d) GPIO_HIGH_LEVEL;;
  gpio_set (sda d) GPIO_HIGH_LEVEL;;
  tee_time_get_sys_time;;
  i2c_delay dev;;
  tee_time_get_sys_time;;
  mret ().

Definition i2c_set_sda_output (dev : Z) : D unit := d ← arr_get i2c_devs dev; gpio_init (sda d) GPIO_OUT;; mret ().
Definition i2c_set_sda_input (dev : Z) : D unit := d ← arr_get i2c_devs dev; gpio_init (sda d) GPIO_IN;; mret ().
Definition i2c_set_sda (dev : Z) (level : gpio_level_t) : D unit :=
  i2c_set_sda_output dev;;
  d ← arr_get i2c_devs dev; gpio_set (sda d) level;; mret ().
Definition i2c_read_sda (dev : Z) : D Z :=
  i2c_set_sda_input dev;;
  d ← arr_get i2c_devs dev; gpio_get (sda d).
Definition i2c_set_scl (dev : Z) (level : gpio_level_t) : D unit :=
  d ← arr_get i2c_devs dev; gpio_set (scl d) level;; mret ().

Definition i2c_start (dev : Z) : D unit :=
  i2c_set_sda dev GPIO_HIGH_LEVEL;;
  i2c_delay dev;;
  i2c_set_scl dev GPIO_HIGH_LEVEL;;
  i2c_delay dev;;
  i2c_set_sda dev GPIO_LOW_LEVEL;;
  i2c_delay dev;;
  i2c_set_sda dev GPIO_LOW_LEVEL;;
  i2c_delay dev.

Definition i2c_stop (dev : Z) : D unit :=
  i2c_set_sda dev GPIO_LOW_LEVEL;;
  i2c_delay dev;;
  i2c_set_scl dev GPIO_HIGH_LEVEL;;
  i2c_delay dev;;
  i2c_set_sda dev GPIO_HIGH_LEVEL;;
  i2c_delay dev.

(** The loop of [_i2c_write_byte] from [i = n - 1] down to 0. *)
Fixpoint send_bits (dev byte : Z) (n : nat) : D unit :=
  match n with
  | O => mret ()
  | S i =>
      let level := if truth (Z.land byte (Z.shiftl 1 (Z.of_nat i))) then GPIO_HIGH_LEVEL else GPIO_LOW_LEVEL in
      i2c_set_sda dev level;;
      i2c_delay dev;;
      i2c_set_scl dev GPIO_HIGH_LEVEL;;
      i2c_delay dev;;
      i2c_set_scl dev GPIO_LOW_LEVEL;;
      i2c_delay dev;;
      send_bits dev byte i
  end.
Definition _i2c_write_byte (dev byte : Z) : D Z :=
  i2c_set_sda_output dev;;
  send_bits dev byte 8;;
  i2c_set_sda_input dev;;
  i2c_delay dev;;
  i2c_set_scl dev GPIO_HIGH_LEVEL;;
  i2c_delay dev;;
  ack ← i2c_read_sda dev;
  i2c_set_scl dev GPIO_LOW_LEVEL;;
  i2c_delay dev;;
  mret (if 0 <? ack then TEE_ERROR_TIMEOUT else TEE_SUCCESS).

(** The loop of [_i2c_read_byte] from [i = n - 1] down to 0. *)
Fixpoint recv_bits (dev byte : Z) (n : nat) : D Z :=
  match n with
  | O => mret byte
  | S i =>
      i2c_set_scl dev GPIO_HIGH_LEVEL;;
      i2c_delay dev;;
      v ← i2c_read_sda dev;
      let byte := if v =? gpio_level_code GPIO_HIGH_LEVEL then u8 (Z.lor byte (Z.shiftl 1 (Z.of_nat i))) else byte in
      i2c_set_scl dev GPIO_LOW_LEVEL;;
      i2c_delay dev;;
      recv_bits dev byte i
  end.
Definition _i2c_read_byte (dev : Z) (ack : gpio_level_t) : D Z :=
  i2c_set_sda_input dev;;
  i2c_delay dev;;
  byte ← recv_bits dev 0 8;
  i2c_set_sda_output dev;;
  i2c_set_sda dev ack;;
  i2c_delay dev;;
  i2c_set_scl dev GPIO_HIGH_LEVEL;;
  i2c_delay dev;;
  i2c_set_scl dev GPIO_LOW_LEVEL;;
  i2c_delay dev;;
  mret byte.

(** [&i2c_locks[dev]] *)
Definition i2c_lock (dev : Z) : D lock_id := if I2C_NUM <=? dev then undef UB_oob else mret (L_sim_i2c dev).
Definition i2c_acquire (dev : Z) : D Z :=
  if I2C_NUM <=? dev then mret TEE_ERROR_BAD_PARAMETERS else
  l ← i2c_lock dev; mutex_lock l;; mret TEE_SUCCESS.
Definition i2c_release (dev : Z) : D Z :=
  if I2C_NUM <? dev then mret TEE_ERROR_BAD_PARAMETERS else
  l ← i2c_lock dev; mutex_unlock l;; mret TEE_SUCCESS.

(** [((uint8_t)addr) << 1] as a [uint8_t], with the transfer bit. *)
Definition addr_byte (addr rw : Z) : Z := u8 (Z.lor (Z.shiftl (u8 addr) 1) rw).

Definition i2c_read_bytes (dev addr : Z) (data : option buf) (len flags : Z) : D (Z * option buf) :=
  let len := u16 len in
  match data with
  | None => mret (TEE_ERROR_BAD_PARAMETERS, data)
  | Some b =>
      if (I2C_NUM <=? dev) || (len =? 0) then mret (TEE_ERROR_BAD_PARAMETERS, data) else
      i2c_init dev;;
      i2c_start dev;;
      r ← _i2c_write_byte dev (addr_byte addr 0);
      if negb (r =? TEE_SUCCESS) then i2c_stop dev;; mret (TEE_ERROR_ITEM_NOT_FOUND, data) else
      i2c_start dev;;
      r ← _i2c_write_byte dev (addr_byte addr 1);
      if negb (r =? TEE_SUCCESS) then i2c_stop dev;; mret (TEE_ERROR_ITEM_NOT_FOUND, data) else
      b ← for_ (Z.to_nat len) 0
        (λ i b, x ← _i2c_read_byte dev (if i =? len - 1 then GPIO_HIGH_LEVEL else GPIO_LOW_LEVEL);
                b ← buf_set b i x; mret (inl b)) b;
      match b : buf + buf with inl b | inr b => i2c_stop dev;; mret (TEE_SUCCESS, Some b) end
  end.

Definition i2c_write_bytes (dev addr : Z) (data : option buf) (len flags : Z) : D Z :=
  let len := u16 len in
  match data with
  | None => mret TEE_ERROR_BAD_PARAMETERS
  | Some b =>
      if (I2C_NUM <? dev) || (len =? 0) then mret TEE_ERROR_BAD_PARAMETERS else
      if flag flags I2C_ADDR10 then mret TEE_ERROR_NOT_IMPLEMENTED else
      i2c_init dev;;
      i2c_start dev;;
      r ← _i2c_write_byte dev (addr_byte addr 0);
      if negb (r =? TEE_SUCCESS) then i2c_stop dev;; mret TEE_ERROR_ITEM_NOT_FOUND else
      r ← for_ (Z.to_nat len) 0
        (λ i u, x ← buf_get b i;
                r ← _i2c_write_byte dev x;
                if negb (r =? TEE_SUCCESS) then i2c_stop dev;; mret (inr TEE_ERROR_TIMEOUT) else mret (inl u)) tt;
      match r with inr r => mret r | inl _ => i2c_stop dev;; mret TEE_SUCCESS end
  end.

Definition i2c_read_byte (dev addr : Z) (data : option buf) (flags : Z) : D (Z * option buf) :=
  i2c_read_bytes dev addr data 1 flags.
Definition i2c_write_byte (dev addr data flags : Z) : D Z :=
  i2c_write_bytes dev addr (Some (bytes [u8 data])) 1 flags.

(** The bytes of the register number that are sent. *)
Definition reg_bytes (reg flags : Z) : list Z :=
  let reg := htons (u16 reg) in if flag flags I2C_REG16 then le 2 reg else drop 1 (le 2 reg).
Definition i2c_read_regs (dev addr reg : Z) (data : option buf) (len flags : Z) : D (Z * option buf) :=
  res ← i2c_write_bytes dev addr (Some (bytes (reg_bytes reg flags))) (if flag flags I2C_REG16 then 2 else 1) flags;
  if negb (res =? TEE_SUCCESS) then mret (res, data) else i2c_read_bytes dev addr data len flags.
Definition i2c_read_reg (dev addr reg : Z) (data : option buf) (flags : Z) : D (Z * option buf) :=
  i2c_read_regs dev addr reg data 1 flags.
Definition i2c_write_regs (dev addr reg : Z) (data : option buf) (len flags : Z) : D Z :=
  res ← i2c_write_bytes dev addr (Some (bytes (reg_bytes reg flags))) (if flag flags I2C_REG16 then 2 else 1) flags;
  if negb (res =? TEE_SUCCESS) then mret res else i2c_write_bytes dev addr data len flags.
Definition i2c_write_reg (dev addr reg data flags : Z) : D Z :=
  i2c_write_regs dev addr reg (Some (bytes [u8 data])) 1 flags.

Definition i2c_set_frequency (dev freq : Z) : D Z := mret TEE_ERROR_NOT_SUPPORTED.
End driver.
