(* ===== verification/SimI2cProofs.v ===== *)
(** * The simulated I2C driver: what appears on the wires

    A history of register accesses is read as levels of the two pins, and the
    levels as conditions of the I2C protocol.  Every operation of the driver
    is described by the conditions it causes. *)

From Stdlib Require Import ZArith Lia Bool.
From stdpp Require Import base tactics option list numbers gmap.
From S2P Require Import Prelude Platform Gpio I2c SimI2c.

Open Scope Z_scope.

(** ** Reading the history *)

(** The word of pin functions and the levels that are driven when the pins
    are outputs. *)
Record bus := Bus { b_fsel : Z; b_sda : bool; b_scl : bool }.

(** What a device on the bus sees: a data change while the clock is high, a
    rising clock edge with the level the master drives ([None]: it drives
    none), and a level the master has sampled. *)
Inductive wire :=
  | W_start | W_stop
  | W_float                               (* the driver changed hands under a high clock *)
  | W_clock (l : option bool)
  | W_sample (b : bool).

Section wires.
Context `{Env} (base : Z) (d : i2c_dev).

Definition is_output (v pin : Z) : bool := fsel_field v pin =? fsel_code GPIO_FSEL_OUTP.
Definition sda_driven (b : bus) : option bool := if is_output (b_fsel b) (sda d) then Some (b_sda b) else None.
(** The clock line is pulled up. *)
Definition scl_level (b : bus) : bool := if is_output (b_fsel b) (scl d) then b_scl b else true.

Definition driven (b b' : bus) : list wire :=
  if scl_level b' then
    if scl_level b then
      match sda_driven b, sda_driven b' with
      | Some true, Some false => [W_start]
      | Some false, Some true => [W_stop]
      | Some _, None | None, Some _ => [W_float]
      | _, _ => []
      end
    else [W_clock (sda_driven b')]
  else [].

(** Registers of bank 0. *)
Definition reg (m : gpio_member) : Z := base + gpio_offset m.
Definition bus_step (b : bus) (e : event) : bus :=
  match e with
  | E_write _ a v =>
      if a =? reg GPFSEL then Bus (u32 v) (b_sda b) (b_scl b)
      else if a =? reg GPSET then Bus (b_fsel b) (b_sda b || Z.testbit v (sda d)) (b_scl b || Z.testbit v (scl d))
      else if a =? reg GPCLR then Bus (b_fsel b) (b_sda b && negb (Z.testbit v (sda d))) (b_scl b && negb (Z.testbit v (scl d)))
      else b
  | _ => b
  end.
Definition sampled (e : event) : list wire :=
  match e with E_read _ a v => if a =? reg GPLEV then [W_sample (Z.testbit v (sda d))] else [] | _ => [] end.

Fixpoint observe (b0 : bus) (h : history) : bus * list wire :=
  match h with
  | [] => (b0, [])
  | e :: h => let r := observe b0 h in (bus_step r.1 e, r.2 ++ driven r.1 (bus_step r.1 e) ++ sampled e)
  end.

(** The registers as documented: the function word reads as written, the set
    and clear registers read as zero. *)
Record gpio_registers (b0 : bus) : Prop := {
  gr_fsel h : u32 (env_read h 32 (reg GPFSEL)) = b_fsel (observe b0 h).1;
  gr_set h : u32 (env_read h 32 (reg GPSET)) = 0;
  gr_clr h : u32 (env_read h 32 (reg GPCLR)) = 0
}.

(** ** States of the bus *)

(** The driver drives the clock; [ln_out]: it drives the data line too. *)
Record line := Line { ln_out : bool; ln_sda : bool; ln_scl : bool; ln_log : list wire }.
Definition level (b : bool) : gpio_level_t := if b then GPIO_HIGH_LEVEL else GPIO_LOW_LEVEL.
Definition ln_driven (l : line) : option bool := if ln_out l then Some (ln_sda l) else None.
Definition add (w : list wire) (l : line) : line := Line (ln_out l) (ln_sda l) (ln_scl l) (ln_log l ++ w).

Record on_line (b0 : bus) (s : dstate) (l : line) : Prop := {
  ol_base : d_gpio_base s = base;
  ol_fsel : 0 <= b_fsel (observe b0 (d_trace s)).1 < 2 ^ 32;
  ol_scl_out : is_output (b_fsel (observe b0 (d_trace s)).1) (scl d) = true;
  ol_out : is_output (b_fsel (observe b0 (d_trace s)).1) (sda d) = ln_out l;
  ol_levels : b_sda (observe b0 (d_trace s)).1 = ln_sda l ∧ b_scl (observe b0 (d_trace s)).1 = ln_scl l;
  ol_log : (observe b0 (d_trace s)).2 = ln_log l
}.

(** The steps of the driver on such states. *)
Definition drive_scl (v : bool) (l : line) : line :=
  Line (ln_out l) (ln_sda l) v (ln_log l ++ if v && negb (ln_scl l) then [W_clock (ln_driven l)] else []).
Definition drive_out (o : bool) (l : line) : line :=
  Line o (ln_sda l) (ln_scl l) (ln_log l ++ if ln_scl l && negb (eqb o (ln_out l)) then [W_float] else []).
Definition drive_level (v : bool) (l : line) : line :=
  Line (ln_out l) v (ln_scl l)
    (ln_log l ++ if ln_scl l && ln_out l && negb (eqb v (ln_sda l)) then [if v then W_stop else W_start] else []).
Definition drive_sda (v : bool) (l : line) : line := drive_level v (drive_out true l).

(** Pins in one function word and one bank. *)
Definition pins_ok : Prop := 0 <= sda d < 10 ∧ 0 <= scl d < 10 ∧ sda d ≠ scl d.
End wires.

(** ** The pin operations *)
Section pins.
Context `{Env} (base : Z) (d : i2c_dev) (b0 : bus) (Hpins : pins_ok d) (Hregs : gpio_registers base d b0).
Abbreviation on_bus s l := (on_line base d b0 s l).
Abbreviation seen h := (observe base d b0 h).

Ltac reg_lia :=
  unfold reg; change (gpio_offset GPFSEL) with 0; change (gpio_offset GPSET) with 28; change (gpio_offset GPCLR) with 40;
  change (gpio_offset GPLEV) with 52; lia.

Lemma driven_same b : driven d b b = [].
Proof using. unfold driven. destruct (scl_level d b), (sda_driven d b) as [[]|]; done. Qed.
Lemma observe_read w a v (h : history) : seen (E_read w a v :: h) = ((seen h).1, (seen h).2 ++ sampled base d (E_read w a v)).
Proof using. cbn [observe bus_step]. by rewrite driven_same. Qed.
Lemma observe_quiet e (h : history) : (∀ b, bus_step base d b e = b) → sampled base d e = [] → seen (e :: h) = seen h.
Proof using. intros He Hs. cbn [observe]. rewrite He, Hs, driven_same, !app_nil_r. by destruct (seen h). Qed.

(** Setting the function of the data pin. *)
Lemma output_same v (o : bool) : 0 <= v < 2 ^ 32 → let f := if o then GPIO_FSEL_OUTP else GPIO_FSEL_INPT in
  is_output (fsel_update v (sda d) f) (sda d) = o ∧ is_output (fsel_update v (sda d) f) (scl d) = is_output v (scl d).
Proof using Hpins.
  intros Hv f. destruct Hpins as (Hsda&Hscl&Hne). unfold is_output. rewrite fsel_update_same by lia. split; [by destruct o|].
  rewrite fsel_update_other by (rewrite ?(Z.mod_small _ 10) by lia; lia). done.
Qed.

(** A store to the function word, after a load of it. *)
Lemma fsel_seen x v s : 0 <= v < 2 ^ 32 → let B := seen (d_trace s) in
  seen (d_trace (d_log (E_write 32 (reg base GPFSEL) v) (d_log (E_read 32 (reg base GPFSEL) x) s)))
  = (Bus v (b_sda B.1) (b_scl B.1), B.2 ++ driven d B.1 (Bus v (b_sda B.1) (b_scl B.1))).
Proof using.
  intros Hv B. cbn [d_trace d_log]. set (h := E_read _ _ _ :: _). assert (seen h = B) as Eh.
  { unfold h. rewrite observe_read. cbn [sampled]. rewrite (proj2 (Z.eqb_neq _ _)), app_nil_r by reg_lia. unfold B. by destruct (observe _ _ _ _). }
  cbn [observe]. rewrite Eh. cbn [bus_step sampled]. by rewrite Z.eqb_refl, u32_id, app_nil_r.
Qed.

Lemma line_init_ok t o s l (Q : Z → dstate → Prop) : on_bus s l →
  (∀ s', on_bus s' (drive_out o l) → d_ext s s' → Q 0 s') → wp t (gpio_init (sda d) (if o then GPIO_OUT else GPIO_IN)) Q s.
Proof using Hpins Hregs.
  intros Hl HQ. pose proof Hpins as (Hsda&_&_). pose proof Hl as [Hb Hf Hso Ho [Es Ec] Elog].
  assert (wp t (gpio_fsel (sda d) (if o then GPIO_FSEL_OUTP else GPIO_FSEL_INPT);; mret 0) Q s) as Hw.
  { unfold wp, mbind, M_bind. rewrite gpio_fsel_eq by (unfold RPI3_MAX_PIN_NUM; lia).
    rewrite Hb, Z.div_small by lia. replace (base + 4 * 0) with (reg base GPFSEL) by reg_lia.
    rewrite (gr_fsel _ _ _ Hregs). set (B := observe base d b0 (d_trace s)) in *. apply HQ; [|by repeat apply d_ext_logged].
    destruct (output_same (b_fsel B.1) o Hf) as [Eo Ecl].
    set (v := fsel_update _ _ _) in *. assert (0 <= v < 2 ^ 32) as Hv by (apply fsel_update_range; [lia|done]).
    assert (seen (d_trace (d_log (E_write 32 (reg base GPFSEL) v) (d_log (E_read 32 (reg base GPFSEL) (b_fsel B.1)) s)))
      = (Bus v (b_sda B.1) (b_scl B.1), B.2 ++ driven d B.1 (Bus v (b_sda B.1) (b_scl B.1)))) as E by by apply fsel_seen.
    split; rewrite ?E; cbn [fst snd b_fsel b_sda b_scl drive_out ln_out ln_sda ln_scl ln_log]; try done; [by rewrite Ecl|].
    rewrite Elog. f_equal. unfold driven, scl_level, sda_driven. cbn [b_fsel b_sda b_scl]. rewrite Ecl, Hso, Eo, Ho, Ec.
    destruct (ln_scl l), o, (ln_out l), (b_sda B.1); done. }
  unfold gpio_fsel in Hw. unfold gpio_init. rewrite (proj2 (Z.ltb_ge _ _)) in * by (unfold RPI3_MAX_PIN_NUM; lia). by destruct o.
Qed.

(** The clock pin becomes an output, from any state of the bus. *)
Definition powered (s : dstate) : Prop := d_gpio_base s = base ∧ 0 <= b_fsel (seen (d_trace s)).1 < 2 ^ 32.
Lemma init_scl_ok t s (Q : Z → dstate → Prop) : powered s →
  (∀ s' l, on_bus s' l → d_ext s s' → (∃ o, ln_log l = (seen (d_trace s)).2 ++ o) → Q 0 s') → wp t (gpio_init (scl d) GPIO_OUT) Q s.
Proof using Hpins Hregs.
  intros [Hb Hf] HQ. pose proof Hpins as (_&Hscl&_).
  assert (wp t (gpio_fsel (scl d) GPIO_FSEL_OUTP;; mret 0) Q s) as Hw.
  { unfold wp, mbind, M_bind. rewrite gpio_fsel_eq by (unfold RPI3_MAX_PIN_NUM; lia).
    rewrite Hb, Z.div_small by lia. replace (base + 4 * 0) with (reg base GPFSEL) by reg_lia.
    rewrite (gr_fsel _ _ _ Hregs). set (B := observe base d b0 (d_trace s)) in *. set (v := fsel_update _ _ _).
    assert (0 <= v < 2 ^ 32) as Hv by (apply fsel_update_range; [lia|done]).
    assert (is_output v (scl d) = true) as Ho by (unfold is_output, v; by rewrite fsel_update_same by lia).
    assert (seen (d_trace (d_log (E_write 32 (reg base GPFSEL) v) (d_log (E_read 32 (reg base GPFSEL) (b_fsel B.1)) s)))
      = (Bus v (b_sda B.1) (b_scl B.1), B.2 ++ driven d B.1 (Bus v (b_sda B.1) (b_scl B.1)))) as E by by apply fsel_seen.
    eapply (HQ _ (Line (is_output v (sda d)) (b_sda B.1) (b_scl B.1) _)); [split; rewrite ?E; try done|by repeat apply d_ext_logged|].
    cbn. eexists. reflexivity. }
  unfold gpio_fsel in Hw. unfold gpio_init. by rewrite (proj2 (Z.ltb_ge _ _)) in * by (unfold RPI3_MAX_PIN_NUM; lia).
Qed.

Lemma read_ok t s l (Q : Z → dstate → Prop) : on_bus s l →
  (∀ x s', on_bus s' (add [W_sample x] l) → d_ext s s' → Q (Z.b2z x) s') → wp t (gpio_get (sda d)) Q s.
Proof using Hpins.
  intros Hl HQ. pose proof Hpins as (Hsda&_&_). pose proof Hl as [Hb Hf Hso Ho [Es Ec] Elog].
  unfold wp. rewrite gpio_get_eq by (unfold RPI3_MAX_PIN_NUM; lia). unfold bank_addr. rewrite Hb, Z.div_small, Z.mod_small by lia.
  replace (base + gpio_offset GPLEV + 4 * 0) with (reg base GPLEV) by (unfold reg; lia). set (v := u32 _).
  apply HQ; [|done]. split; cbn [d_trace d_log d_gpio_base]; rewrite ?observe_read; cbn [fst snd]; try done.
  rewrite Elog. cbn [sampled]. by rewrite Z.eqb_refl.
Qed.

(** Setting a level of a pin of the bus. *)
Definition level_step (p : Z) (x : bool) (b : bus) : bus :=
  Bus (b_fsel b) (if p =? sda d then x else b_sda b) (if p =? scl d then x else b_scl b).
Lemma level_bus t p x s l (Q : Z → dstate → Prop) : on_bus s l → p = sda d ∨ p = scl d →
  (∀ s', d_gpio_base s' = d_gpio_base s → d_ext s s' → seen (d_trace s') = (level_step p x (seen (d_trace s)).1,
     (seen (d_trace s)).2 ++ driven d (seen (d_trace s)).1 (level_step p x (seen (d_trace s)).1)) → Q 0 s') →
  wp t (gpio_set p (level x)) Q s.
Proof using Hpins Hregs.
  intros Hl Hp HQ. destruct Hpins as (Hsda&Hscl&Hne). assert (0 <= p < 10) as Hp10 by (by destruct Hp; subst).
  unfold wp. rewrite gpio_set_eq by (unfold RPI3_MAX_PIN_NUM; lia). unfold bank_addr.
  rewrite (ol_base _ _ _ _ _ Hl), Z.div_small, Z.mod_small by lia.
  set (m := match level x with GPIO_LOW_LEVEL => GPCLR | GPIO_HIGH_LEVEL => GPSET end).
  replace (base + gpio_offset m + 4 * 0) with (reg base m) by (unfold reg; lia).
  assert (u32 (env_read (d_trace s) 32 (reg base m)) = 0) as -> by (unfold m; destruct x; apply Hregs).
  apply HQ; [done|by repeat apply d_ext_logged|]. set (B := observe base d b0 (d_trace s)) in *. cbn [d_trace d_log]. set (h := E_read _ _ _ :: _).
  assert (seen h = B) as Eh.
  { unfold h. rewrite observe_read. cbn [sampled]. rewrite (proj2 (Z.eqb_neq _ _)), app_nil_r by (unfold m; destruct x; cbn [level]; reg_lia).
    unfold B. by destruct (observe _ _ _ _). }
  cbn [observe]. rewrite Eh.
  assert (bus_step base d B.1 (E_write 32 (reg base m) (Z.setbit 0 p)) = level_step p x B.1) as ->; [|by cbn; rewrite app_nil_r].
  cbn [bus_step]. rewrite !Z.setbit_eqb, !Z.bits_0, !orb_false_r by lia. unfold m, level_step. destruct x; cbn [level];
    repeat (rewrite (proj2 (Z.eqb_neq _ _)) by reg_lia); rewrite Z.eqb_refl; f_equal; by destruct (p =? _), (b_sda B.1), (b_scl B.1).
Qed.
Lemma set_scl_ok t x s l (Q : Z → dstate → Prop) : on_bus s l →
  (∀ s', on_bus s' (drive_scl x l) → d_ext s s' → Q 0 s') → wp t (gpio_set (scl d) (level x)) Q s.
Proof using Hpins Hregs.
  intros Hl HQ. apply (level_bus t _ _ s l); [done|by right|]. intros s' Hb He E. pose proof Hl as [Hb0 Hf Hso Ho [Es Ec] Elog].
  destruct Hpins as (_&_&Hne). unfold level_step in E. rewrite (proj2 (Z.eqb_neq _ _)), Z.eqb_refl in E by done. apply HQ; [|done].
  split; rewrite ?E; cbn [fst snd b_fsel b_sda b_scl drive_scl ln_out ln_sda ln_scl ln_log]; try done; [congruence|]. rewrite Elog. f_equal.
  unfold driven, scl_level, sda_driven, ln_driven. cbn [b_fsel b_sda b_scl]. rewrite Hso, Ho, Es, Ec. by destruct x, (ln_scl l), (ln_out l), (ln_sda l).
Qed.
Lemma set_level_ok t x s l (Q : Z → dstate → Prop) : on_bus s l →
  (∀ s', on_bus s' (drive_level x l) → d_ext s s' → Q 0 s') → wp t (gpio_set (sda d) (level x)) Q s.
Proof using Hpins Hregs.
  intros Hl HQ. apply (level_bus t _ _ s l); [done|by left|]. intros s' Hb He E. pose proof Hl as [Hb0 Hf Hso Ho [Es Ec] Elog].
  destruct Hpins as (_&_&Hne). unfold level_step in E. rewrite Z.eqb_refl, (proj2 (Z.eqb_neq _ _)) in E by done. apply HQ; [|done].
  split; rewrite ?E; cbn [fst snd b_fsel b_sda b_scl drive_level ln_out ln_sda ln_scl ln_log]; try done; [congruence|]. rewrite Elog. f_equal.
  unfold driven, scl_level, sda_driven. cbn [b_fsel b_sda b_scl]. rewrite Hso, Ho, Es, Ec. by destruct x, (ln_scl l), (ln_out l), (ln_sda l).
Qed.
End pins.

(** ** The operations as functions on lines *)
Section driver_specs.
Context `{Env} (base : Z) (d : i2c_dev) (b0 : bus) (Hpins : pins_ok d) (Hregs : gpio_registers base d b0).
Context (devs : list i2c_dev) (dev : Z) (Hnn : 0 <= dev) (Hdev : devs !! Z.to_nat dev = Some d).
Abbreviation on_bus s l := (on_line base d b0 s l).

(** [m] takes a line [l] to [f l], whatever the devices do. *)
Definition runs (m : D unit) (f : line → line) : Prop := ∀ t s l (Q : unit → dstate → Prop), on_bus s l →
  (∀ s', on_bus s' (f l) → d_ext s s' → Q tt s') → wp t m Q s.

Lemma nops_eq n s : nops n s = Ok tt s.
Proof using. induction n as [|n IH]; [done|]. cbn. unfold mbind, M_bind, mret, M_ret. by rewrite IH. Qed.
Lemma runs_delay : runs (i2c_delay devs dev) (λ l, l).
Proof using Hnn Hdev.
  intros t s l Q Hl HQ. unfold i2c_delay. wp_steps. eapply wp_arr_get; [done|exact Hdev|]. cbn beta. unfold wp. rewrite nops_eq. by apply HQ.
Qed.
Lemma runs_dir o : runs (if o : bool then i2c_set_sda_output devs dev else i2c_set_sda_input devs dev) (drive_out o).
Proof using All.
  intros t s l Q Hl HQ.
  assert (wp t (d ← arr_get devs dev; gpio_init (sda d) (if o then GPIO_OUT else GPIO_IN);; mret ()) Q s) as Hw; [|by destruct o].
  wp_steps. eapply wp_arr_get; [done|exact Hdev|]. wp_steps. apply (line_init_ok base d b0 Hpins Hregs t o s l); [done|].
  intros s' Hl' He'. wp_steps. by apply HQ.
Qed.
Lemma runs_out : runs (i2c_set_sda_output devs dev) (drive_out true).
Proof using All. exact (runs_dir true). Qed.
Lemma runs_in : runs (i2c_set_sda_input devs dev) (drive_out false).
Proof using All. exact (runs_dir false). Qed.
Lemma runs_sda x : runs (i2c_set_sda devs dev (level x)) (drive_sda x).
Proof using All.
  intros t s l Q Hl HQ. unfold i2c_set_sda. wp_steps. apply (runs_out t s l); [done|]. intros s1 Hl1 He1. wp_steps.
  eapply wp_arr_get; [done|exact Hdev|]. wp_steps. apply (set_level_ok base d b0 Hpins Hregs t x s1 _ _ Hl1).
  intros s' Hl' He'. wp_steps. apply HQ; [done|by etrans].
Qed.
Lemma runs_scl x : runs (i2c_set_scl devs dev (level x)) (drive_scl x).
Proof using All.
  intros t s l Q Hl HQ. unfold i2c_set_scl. wp_steps. eapply wp_arr_get; [done|exact Hdev|]. wp_steps.
  apply (set_scl_ok base d b0 Hpins Hregs t x s l); [done|]. intros s' Hl' He'. wp_steps. by apply HQ.
Qed.

(** Reading the data pin makes it an input. *)
Lemma read_sda_ok t s l (Q : Z → dstate → Prop) : on_bus s l →
  (∀ x s', on_bus s' (add [W_sample x] (drive_out false l)) → d_ext s s' → Q (Z.b2z x) s') → wp t (i2c_read_sda devs dev) Q s.
Proof using All.
  intros Hl HQ. unfold i2c_read_sda. wp_steps. apply (runs_in t s l); [done|]. intros s1 Hl1 He1. wp_steps.
  eapply wp_arr_get; [done|exact Hdev|]. apply (read_ok base d b0 Hpins t s1 _ _ Hl1). intros x s2 Hl2 He2. apply HQ; [done|by etrans].
Qed.

(** *** Conditions *)
Definition start_line (l : line) : line := drive_sda false (drive_sda false (drive_scl true (drive_sda true l))).
Definition stop_line (l : line) : line := drive_sda true (drive_scl true (drive_sda false l)).

(** One operation on the bus; [bus_done] applies the continuation. *)
Ltac bus_step :=
  wp_steps;
  match goal with Hl : on_line _ _ _ ?s _ |- wp _ _ _ ?s =>
    first [ eapply (runs_delay _ _ _ _ Hl) | eapply (runs_scl true _ _ _ _ Hl) | eapply (runs_scl false _ _ _ _ Hl)
          | eapply (runs_sda true _ _ _ _ Hl) | eapply (runs_sda false _ _ _ _ Hl) | eapply (runs_sda _ _ _ _ _ Hl)
          | eapply (runs_out _ _ _ _ Hl) | eapply (runs_in _ _ _ _ Hl) ];
    clear Hl; let s' := fresh "s" in let He := fresh "He" in intros s' Hl He
  end.
Ltac bus_done HQ := wp_steps; eapply HQ; [eassumption|d_ext_chain].

Lemma runs_start : runs (i2c_start devs dev) start_line.
Proof using All. intros t s l Q Hl HQ. unfold i2c_start. repeat bus_step. by bus_done HQ. Qed.
Lemma runs_stop : runs (i2c_stop devs dev) stop_line.
Proof using All. intros t s l Q Hl HQ. unfold i2c_stop. repeat bus_step. by bus_done HQ. Qed.

Lemma on_bus_time s l x y : on_bus s l → on_bus (d_log (E_time x y) s) l.
Proof using. intros [? ? ? ? ? ?]. split; cbn [d_trace d_log d_gpio_base]; rewrite ?observe_quiet; done. Qed.

(** Initialisation: both lines are driven high. *)
Lemma bus_init_ok t s (Q : unit → dstate → Prop) : powered base d b0 s →
  (∀ s' o, on_bus s' (Line true true true ((observe base d b0 (d_trace s)).2 ++ o)) → d_ext s s' → Q tt s') →
  wp t (i2c_init devs dev) Q s.
Proof using All.
  intros Hp HQ. unfold i2c_init. wp_steps. eapply wp_arr_get; [done|exact Hdev|]. wp_steps.
  apply (init_scl_ok base d b0 Hpins Hregs); [done|]. intros s1 [o1 a1 c1 g1] Hl1 He1 [w1 E1]. cbn in E1. subst g1. wp_steps.
  apply (line_init_ok base d b0 Hpins Hregs t true s1 _ _ Hl1). intros s2 Hl2 He2. wp_steps.
  apply (set_scl_ok base d b0 Hpins Hregs t true s2 _ _ Hl2). intros s3 Hl3 He3. wp_steps.
  apply (set_level_ok base d b0 Hpins Hregs t true s3 _ _ Hl3). intros s4 Hl4 He4. wp_steps.
  eapply wp_mono; [apply tee_time_spec|]. cbn beta. intros x5 s5 ->. wp_steps. apply (on_bus_time _ _ x5.1 x5.2) in Hl4.
  apply (runs_delay _ _ _ _ Hl4). intros s6 Hl6 He6. wp_steps. eapply wp_mono; [apply tee_time_spec|]. cbn beta. intros x7 s7 ->. wp_steps.
  apply (on_bus_time _ _ x7.1 x7.2) in Hl6. eapply HQ; [|d_ext_chain].
  cbv [drive_level drive_scl drive_out ln_out ln_sda ln_scl ln_log] in Hl6. rewrite <- !app_assoc in Hl6. exact Hl6.
Qed.

(** *** Bytes *)

Fixpoint send_line (byte : Z) (n : nat) (l : line) : line :=
  match n with
  | O => l
  | S i => send_line byte i (drive_scl false (drive_scl true (drive_sda (Z.testbit byte (Z.of_nat i)) l)))
  end.
Lemma runs_send byte n : runs (send_bits devs dev byte n) (send_line byte n).
Proof using All.
  induction n as [|i IH]; intros t s l Q Hl HQ; cbn [send_bits send_line] in *.
  - wp_steps. by apply HQ.
  - change (Z.shiftl 1 (Z.of_nat i)) with (BIT (Z.of_nat i)). rewrite BIT_test by lia.
    change (if Z.testbit byte (Z.of_nat i) then GPIO_HIGH_LEVEL else GPIO_LOW_LEVEL) with (level (Z.testbit byte (Z.of_nat i))).
    do 6 bus_step. wp_steps. eapply IH; [exact Hl|]. intros sf Hl' Hef. bus_done HQ.
Qed.

(** Sending a byte: the eight bits, and the acknowledge of the device. *)
Definition ack_line (a : bool) (l : line) : line :=
  drive_scl false (add [W_sample a] (drive_out false (drive_scl true (drive_out false l)))).
Definition write_line (byte : Z) (a : bool) (l : line) : line := ack_line a (send_line byte 8 (drive_out true l)).
Lemma write_byte_ok t byte s l (Q : Z → dstate → Prop) : on_bus s l →
  (∀ a s', on_bus s' (write_line byte a l) → d_ext s s' → Q (if a : bool then TEE_ERROR_TIMEOUT else TEE_SUCCESS) s') →
  wp t (_i2c_write_byte devs dev byte) Q s.
Proof using All.
  intros Hl HQ. unfold _i2c_write_byte. bus_step. wp_steps. eapply (runs_send byte 8); [exact Hl|]. clear Hl. intros ? Hl ?.
  do 4 bus_step. wp_steps. eapply (read_sda_ok t _ _ _ Hl). clear Hl. intros a ? Hl ?. do 2 bus_step. wp_steps.
  replace (if 0 <? Z.b2z a then TEE_ERROR_TIMEOUT else TEE_SUCCESS) with (if a then TEE_ERROR_TIMEOUT else TEE_SUCCESS) by (by destruct a).
  eapply HQ; [exact Hl|d_ext_chain].
Qed.

(** Receiving a byte: eight samples, and the acknowledge of the driver. *)
Fixpoint recv_line (bits : list bool) (l : line) : line :=
  match bits with [] => l | x :: bits => recv_line bits (drive_scl false (add [W_sample x] (drive_out false (drive_scl true l)))) end.
Fixpoint of_bits (acc : Z) (bits : list bool) : Z :=
  match bits with [] => acc | x :: bits => of_bits (2 * acc + Z.b2z x) bits end.
Lemma recv_step byte i x : 0 <= byte < 2 ^ (8 - Z.of_nat (S i)) → (S i <= 8)%nat →
  (if Z.b2z x =? gpio_level_code GPIO_HIGH_LEVEL then u8 (Z.lor (byte * 2 ^ Z.of_nat (S i)) (Z.shiftl 1 (Z.of_nat i))) else byte * 2 ^ Z.of_nat (S i))
  = (2 * byte + Z.b2z x) * 2 ^ Z.of_nat i.
Proof using.
  intros Hb Hi. rewrite Nat2Z.inj_succ, Z.pow_succ_r in * by lia. destruct x; cbn [Z.b2z gpio_level_code Z.eqb]; [|lia].
  rewrite Z.shiftl_1_l. assert (byte * (2 * 2 ^ Z.of_nat i) = Z.shiftl byte (Z.succ (Z.of_nat i))) as -> by (rewrite Z.shiftl_mul_pow2, Z.pow_succ_r by lia; lia).
  assert (0 < 2 ^ Z.of_nat i) by (apply Z.pow_pos_nonneg; lia).
  rewrite lor_shiftl_add by (rewrite ?Z.pow_succ_r by lia; lia). rewrite Z.pow_succ_r by lia.
  assert ((2 * byte + 1) * 2 ^ Z.of_nat i < 2 ^ 8).
  { replace (2 ^ 8) with (2 ^ (8 - Z.of_nat i) * 2 ^ Z.of_nat i) by (rewrite <- Z.pow_add_r by lia; f_equal; lia).
    apply Z.mul_lt_mono_pos_r; [done|]. replace (8 - Z.of_nat i) with (Z.succ (8 - Z.succ (Z.of_nat i))) by lia. rewrite Z.pow_succ_r by lia. lia. }
  replace (byte * (2 * 2 ^ Z.of_nat i) + 2 ^ Z.of_nat i) with ((2 * byte + 1) * 2 ^ Z.of_nat i) by lia.
  apply u8_id. split; [apply Z.mul_nonneg_nonneg; lia|done].
Qed.
Lemma recv_ok t byte n s l (Q : Z → dstate → Prop) : 0 <= byte < 2 ^ (8 - Z.of_nat n) → (n <= 8)%nat → on_bus s l →
  (∀ bits s', length bits = n → on_bus s' (recv_line bits l) → d_ext s s' → Q (of_bits byte bits) s') →
  wp t (recv_bits devs dev (byte * 2 ^ Z.of_nat n) n) Q s.
Proof using All.
  revert byte s l. induction n as [|i IH]; intros byte s l Hb Hn Hl HQ; cbn [recv_bits].
  - wp_steps. change (2 ^ Z.of_nat 0) with 1. rewrite Z.mul_1_r. by apply (HQ []).
  - do 2 bus_step. wp_steps. eapply (read_sda_ok t _ _ _ Hl). clear Hl. intros x ? Hl ?. do 2 bus_step. wp_steps.
    rewrite recv_step by done. eapply IH; [|lia|exact Hl|].
    + rewrite Nat2Z.inj_succ in Hb. replace (8 - Z.of_nat i) with (Z.succ (8 - Z.succ (Z.of_nat i))) by lia. rewrite Z.pow_succ_r by lia.
      destruct x; cbn [Z.b2z]; lia.
    + intros bits sf Hlen Hl' Hef. eapply (HQ (x :: bits)); [by cbn; f_equal|exact Hl'|d_ext_chain].
Qed.

Definition read_line (bits : list bool) (ack : bool) (l : line) : line :=
  drive_scl false (drive_scl true (drive_sda ack (drive_out true (recv_line bits (drive_out false l))))).
Lemma read_byte_ok t ack s l (Q : Z → dstate → Prop) : on_bus s l →
  (∀ bits s', length bits = 8%nat → on_bus s' (read_line bits ack l) → d_ext s s' → Q (of_bits 0 bits) s') →
  wp t (_i2c_read_byte devs dev (level ack)) Q s.
Proof using All.
  intros Hl HQ. unfold _i2c_read_byte. do 2 bus_step. wp_steps. eapply (recv_ok t 0 8 _ _ _ ltac:(lia) ltac:(lia) Hl). clear Hl.
  intros bits ? Hlen Hl ?. do 7 bus_step. wp_steps. eapply HQ; [exact Hlen|exact Hl|d_ext_chain].
Qed.
End driver_specs.

(** ** What the lines show *)

(** The levels of the bits of a byte, most significant first. *)
Definition msb_first (byte : Z) (n : nat) : list bool := (λ i, Z.testbit byte (Z.of_nat i)) <$> rev (seq 0 n).
Definition clocks (l : list bool) : list wire := (λ x, W_clock (Some x)) <$> l.
Definition acknowledge (a : bool) : list wire := [W_clock None; W_sample a].
Definition byte_wires (byte : Z) (a : bool) : list wire := clocks (msb_first byte 8) ++ acknowledge a.
(** The first byte after a start condition. *)
Definition first_wires (byte : Z) (a : bool) : list wire :=
  (if Z.testbit byte 7 then [W_stop] else []) ++ clocks (msb_first byte 7) ++ acknowledge a.
Definition stop_wires : list wire := [W_clock (Some false); W_stop].
Definition sample_wires (bits : list bool) : list wire := bits ≫= λ x, [W_clock None; W_sample x].

(** The steps on explicit lines. *)
Lemma out_same o x c log : drive_out o (Line o x c log) = Line o x c log.
Proof. unfold drive_out. cbn. by rewrite eqb_reflx, andb_false_r, app_nil_r. Qed.
Lemma out_low o' o x log : drive_out o' (Line o x false log) = Line o' x false log.
Proof. unfold drive_out. cbn. by rewrite app_nil_r. Qed.
Lemma scl_up o x log : drive_scl true (Line o x false log) = Line o x true (log ++ [W_clock (if o then Some x else None)]).
Proof. done. Qed.
Lemma scl_down o x c log : drive_scl false (Line o x c log) = Line o x false log.
Proof. unfold drive_scl. cbn. by rewrite app_nil_r. Qed.
Lemma scl_high o x log : drive_scl true (Line o x true log) = Line o x true log.
Proof. unfold drive_scl. cbn. by rewrite app_nil_r. Qed.
Lemma sda_low v o x log : drive_sda v (Line o x false log) = Line true v false log.
Proof. unfold drive_sda. rewrite out_low. unfold drive_level. cbn. by rewrite app_nil_r. Qed.
Lemma sda_high v x log : drive_sda v (Line true x true log) = Line true v true (log ++ if eqb v x then [] else [if v then W_stop else W_start]).
Proof. unfold drive_sda. rewrite out_same. unfold drive_level. cbn. by destruct v, x. Qed.
Lemma add_line w o x c log : add w (Line o x c log) = Line o x c (log ++ w).
Proof. done. Qed.
Ltac line_eq := rewrite ?out_same, ?out_low; rewrite ?add_line;
  repeat first [rewrite scl_up | rewrite scl_down | rewrite scl_high | rewrite sda_low | rewrite sda_high | rewrite add_line | rewrite out_same | rewrite out_low];
  cbn [eqb]; rewrite ?app_nil_r.

Lemma msb_first_S byte n : msb_first byte (S n) = Z.testbit byte (Z.of_nat n) :: msb_first byte n.
Proof. unfold msb_first. by rewrite seq_S, rev_unit. Qed.

Lemma send_line_S byte i l :
  send_line byte (S i) l = send_line byte i (drive_scl false (drive_scl true (drive_sda (Z.testbit byte (Z.of_nat i)) l))).
Proof. done. Qed.
(** While the clock is low the bits are clocked one by one. *)
Lemma send_low byte n x log : send_line byte n (Line true x false log)
  = Line true (match n with O => x | S _ => Z.testbit byte 0 end) false (log ++ clocks (msb_first byte n)).
Proof.
  revert x log. induction n as [|i IH]; intros x log; cbn [send_line].
  - by rewrite app_nil_r.
  - line_eq. rewrite IH, msb_first_S. cbn [clocks fmap list_fmap]. rewrite <- app_assoc. f_equal. by destruct i.
Qed.
Lemma write_low byte a o x log : write_line byte a (Line o x false log) = Line false (Z.testbit byte 0) false (log ++ byte_wires byte a).
Proof.
  unfold write_line, ack_line. line_eq. rewrite send_low. line_eq. unfold byte_wires, acknowledge. by rewrite <- !app_assoc.
Qed.
(** With the clock high, as [i2c_start] leaves it, the first bit is not clocked. *)
Lemma write_high byte a log : write_line byte a (Line true false true log) = Line false (Z.testbit byte 0) false (log ++ first_wires byte a).
Proof.
  unfold write_line, ack_line. rewrite (send_line_S byte 7).
  line_eq. rewrite send_low. line_eq. unfold first_wires, acknowledge. rewrite <- !app_assoc. change (Z.of_nat 7) with 7. by destruct (Z.testbit byte 7).
Qed.
Lemma start_high log : start_line (Line true true true log) = Line true false true (log ++ [W_start]).
Proof. unfold start_line. by line_eq. Qed.
Lemma start_low o x log : start_line (Line o x false log) = Line true false true (log ++ [W_clock (Some true); W_start]).
Proof. unfold start_line. line_eq. by rewrite <- app_assoc. Qed.
Lemma stop_low o x log : stop_line (Line o x false log) = Line true true true (log ++ stop_wires).
Proof. unfold stop_line. line_eq. by rewrite <- app_assoc. Qed.
Lemma recv_low bits x log : recv_line bits (Line false x false log) = Line false x false (log ++ sample_wires bits).
Proof.
  revert log. induction bits as [|y bits IH]; intros log; cbn [recv_line]; [by rewrite app_nil_r|]. line_eq. rewrite IH. cbn. by rewrite <- !app_assoc.
Qed.
Lemma read_low bits a o x log : read_line bits a (Line o x false log)
  = Line true a false (log ++ sample_wires bits ++ [W_clock (Some a)]).
Proof. unfold read_line. line_eq. rewrite recv_low. line_eq. by rewrite <- app_assoc. Qed.

(** ** Transactions *)

(** The bytes that were sent and how each was acknowledged. *)
Definition data_wires (data : list Z) (acks : list bool) : list wire := concat (zip_with byte_wires data acks).
(** The bytes that were received: [n] in all, the last one not acknowledged. *)
Definition read_wires (n : Z) (l : list (list bool)) : list wire :=
  concat (imap (λ i bits, sample_wires bits ++ [W_clock (Some (Z.of_nat i =? n - 1))]) l).

Lemma data_wires_nil data : data_wires data [] = [].
Proof. by destruct data. Qed.
Lemma data_wires_snoc data k x a : data !! k = Some x →
  data_wires data (replicate k false ++ [a]) = data_wires data (replicate k false) ++ byte_wires x a.
Proof.
  revert k. unfold data_wires. induction data as [|y data IH]; intros [|k] Hx; [done|done| |].
  - injection Hx as ->. destruct data; cbn; by rewrite ?app_nil_r.
  - change (byte_wires y false ++ concat (zip_with byte_wires data (replicate k false ++ [a]))
      = (byte_wires y false ++ concat (zip_with byte_wires data (replicate k false))) ++ byte_wires x a).
    rewrite <- app_assoc. f_equal. by apply IH.
Qed.
Lemma read_wires_snoc n l bits : read_wires n (l ++ [bits])
  = read_wires n l ++ sample_wires bits ++ [W_clock (Some (Z.of_nat (length l) =? n - 1))].
Proof. unfold read_wires. rewrite imap_app, concat_app. cbn. by rewrite Nat.add_0_r, app_nil_r. Qed.

Section transactions.
Context `{Env} (base : Z) (d : i2c_dev) (b0 : bus) (Hpins : pins_ok d) (Hregs : gpio_registers base d b0).
Context (devs : list i2c_dev) (dev : Z) (Hnn : 0 <= dev < I2C_NUM) (Hdev : devs !! Z.to_nat dev = Some d).
Abbreviation on_bus s l := (on_line base d b0 s l).
Abbreviation log_of s := (observe base d b0 (d_trace s)).2.

(** The outcome of a write. *)
Inductive write_result (data : list Z) : bool → list bool → Z → Prop :=
  | WR_no_device : write_result data true [] TEE_ERROR_ITEM_NOT_FOUND
  | WR_refused k : (k < length data)%nat → write_result data false (replicate k false ++ [true]) TEE_ERROR_TIMEOUT
  | WR_done : write_result data false (replicate (length data) false) TEE_SUCCESS.

Lemma powered_ext s l : on_bus s l → powered base d b0 s.
Proof using. intros Hl. split; apply Hl. Qed.
Lemma i2c_stop_ok t o x log s (Q : unit → dstate → Prop) : on_bus s (Line o x false log) →
  (∀ s', log_of s' = log ++ stop_wires → powered base d b0 s' → d_ext s s' → Q tt s') → wp t (i2c_stop devs dev) Q s.
Proof using All.
  intros Hl HQ. eapply (runs_stop base d b0 Hpins Hregs devs dev (proj1 Hnn) Hdev); [exact Hl|]. rewrite stop_low. intros s' Hl' He.
  apply HQ; [apply (ol_log _ _ _ _ _ Hl')|by eapply powered_ext|done].
Qed.

(** The start of a transfer from any state of the bus: the address byte. *)
Lemma open_ok t byte s (Q : Z → dstate → Prop) : powered base d b0 s →
  (∀ o a s', on_bus s' (Line false (Z.testbit byte 0) false (log_of s ++ o ++ W_start :: first_wires byte a)) → d_ext s s' →
     Q (if a : bool then TEE_ERROR_TIMEOUT else TEE_SUCCESS) s') →
  wp t (i2c_init devs dev;; i2c_start devs dev;; _i2c_write_byte devs dev byte) Q s.
Proof using All.
  intros Hp HQ. wp_steps. apply (bus_init_ok base d b0 Hpins Hregs devs dev (proj1 Hnn) Hdev); [done|]. intros s1 o Hl1 He1. wp_steps.
  eapply (runs_start base d b0 Hpins Hregs devs dev (proj1 Hnn) Hdev); [exact Hl1|]. rewrite start_high. intros s2 Hl2 He2. wp_steps.
  eapply (write_byte_ok base d b0 Hpins Hregs devs dev (proj1 Hnn) Hdev); [exact Hl2|]. intros a s3. rewrite write_high, <- !app_assoc.
  intros Hl3 He3. eapply HQ; [exact Hl3|d_ext_chain].
Qed.
Lemma bind_assoc2 {A B} t (m1 m2 : D unit) (m : D A) (k : A → D B) Q s :
  wp t (x ← (m1;; m2;; m); k x) Q s → wp t (m1;; m2;; x ← m; k x) Q s.
Proof using. unfold wp, mbind, M_bind. destruct (m1 s); [|done|done]. by destruct (m2 _). Qed.

(** The data bytes of a write, from a bus with a low clock. *)
Lemma write_data_ok t b data log o x s (Q : Z → dstate → Prop) : take (length data) b = bytes data → on_bus s (Line o x false log) →
  (∀ acks r s', write_result data false acks r → log_of s' = log ++ data_wires data acks ++ stop_wires → powered base d b0 s' →
     d_ext s s' → Q r s') →
  wp t (r ← for_ (length data) 0 (λ i u, x ← buf_get b i; r ← _i2c_write_byte devs dev x;
           if negb (r =? TEE_SUCCESS) then i2c_stop devs dev;; mret (inr TEE_ERROR_TIMEOUT) else mret (inl u)) tt;
        match r with inr r => mret r | inl _ => i2c_stop devs dev;; mret TEE_SUCCESS end) Q s.
Proof using All.
  intros Hb Hl HQ. wp_steps.
  eapply (wp_for t _ _ (λ i _ s', d_ext s s' ∧ ∃ o x, on_bus s' (Line o x false (log ++ data_wires data (replicate (Z.to_nat i) false)))) _ 0).
  - intros i [] s1 Hi (He1&o1&x1&Hl1). wp_steps. destruct (lookup_lt_is_Some_2 data (Z.to_nat i)) as [y Hy]; [lia|].
    apply (wp_buf_get _ _ _ y); [lia| |].
    { rewrite <- (lookup_take_lt _ (length data)), Hb by lia. unfold bytes. by rewrite list_lookup_fmap, Hy. }
    wp_steps. eapply (write_byte_ok base d b0 Hpins Hregs devs dev (proj1 Hnn) Hdev); [exact Hl1|]. intros a s2 Hl2 He2.
    rewrite write_low, <- app_assoc, <- data_wires_snoc in Hl2 by done. wp_steps. destruct a; [change (negb (TEE_ERROR_TIMEOUT =? TEE_SUCCESS)) with true|change (negb (TEE_SUCCESS =? TEE_SUCCESS)) with false]; cbn iota; wp_steps.
    + eapply i2c_stop_ok; [exact Hl2|]. intros s3 El Hp He3. wp_steps. eapply (HQ _ _ _ (WR_refused data (Z.to_nat i) ltac:(lia))); [|done|d_ext_chain].
      by rewrite El, <- app_assoc.
    + split; [d_ext_chain|]. replace (Z.to_nat (i + 1)) with (S (Z.to_nat i)) by lia. rewrite replicate_S_end. by eexists _, _.
  - intros u s1 (He1&o1&x1&Hl1). wp_steps. eapply i2c_stop_ok; [exact Hl1|]. intros s3 El Hp He3. wp_steps.
    eapply (HQ _ _ _ (WR_done data)); [|done|d_ext_chain]. rewrite El, <- app_assoc. by rewrite Z.add_0_l, Nat2Z.id.
  - split; [done|]. exists o, x. cbn [Z.to_nat replicate]. by rewrite data_wires_nil, app_nil_r.
Qed.

Lemma i2c_write_bytes_ok t addr b data len flags s : powered base d b0 s → flag flags I2C_ADDR10 = false → 0 < len < 2 ^ 16 →
  len = Z.of_nat (length data) → take (length data) b = bytes data →
  wp t (i2c_write_bytes devs dev addr (Some b) len flags) (λ r s', d_ext s s' ∧ powered base d b0 s' ∧ ∃ o a acks, write_result data a acks r
    ∧ log_of s' = log_of s ++ o ++ W_start :: first_wires (addr_byte addr 0) a ++ data_wires data acks ++ stop_wires) s.
Proof using All.
  intros Hp Hfl Hlen Elen Hb. unfold i2c_write_bytes. assert (u16 len = len) as -> by (apply Z.mod_small; lia). cbv zeta. unfold I2C_NUM in *.
  rewrite orb_false_intro by lia. rewrite Hfl. apply bind_assoc2, wp_bind, open_ok; [done|]. intros o a s1 Hl1 He1.
  destruct a; [change (negb (TEE_ERROR_TIMEOUT =? TEE_SUCCESS)) with true|change (negb (TEE_SUCCESS =? TEE_SUCCESS)) with false]; cbn iota; wp_steps.
  - eapply i2c_stop_ok; [exact Hl1|]. intros s2 El Hp2 He2. wp_steps. split; [d_ext_chain|]. split; [done|]. exists o, true, []. split; [constructor|].
    by rewrite El, data_wires_nil, <- !app_assoc.
  - rewrite Elen, Nat2Z.id. apply wp_bind_inv. eapply write_data_ok; [done|exact Hl1|]. intros acks r s2 Hr El Hp2 He2.
    split; [d_ext_chain|]. split; [done|]. exists o, false, acks. split; [done|]. rewrite El. by rewrite <- !app_assoc.
Qed.

(** A read: the bus is turned around by a second start condition. *)
Inductive read_result (n : Z) (b : buf) (addr : Z) : list wire → Z → buf → Prop :=
  | RR_no_device : read_result n b addr (first_wires (addr_byte addr 0) true) TEE_ERROR_ITEM_NOT_FOUND b
  | RR_refused : read_result n b addr (first_wires (addr_byte addr 0) false ++ W_clock (Some true) :: W_start
      :: first_wires (addr_byte addr 1) true) TEE_ERROR_ITEM_NOT_FOUND b
  | RR_done got : Z.of_nat (length got) = n → Forall (λ bits, length bits = 8%nat) got →
      read_result n b addr (first_wires (addr_byte addr 0) false ++ W_clock (Some true) :: W_start
        :: first_wires (addr_byte addr 1) false ++ read_wires n got) TEE_SUCCESS (bytes (of_bits 0 <$> got) ++ drop (length got) b).

Lemma read_data_ok t b n log o x s (Q : Z * option buf → dstate → Prop) : 0 < n <= blen b → on_bus s (Line o x false log) →
  (∀ got s', Z.of_nat (length got) = n → Forall (λ bits, length bits = 8%nat) got → log_of s' = log ++ read_wires n got ++ stop_wires →
     powered base d b0 s' → d_ext s s' → Q (TEE_SUCCESS, Some (bytes (of_bits 0 <$> got) ++ drop (length got) b)) s') →
  wp t (b ← for_ (Z.to_nat n) 0 (λ i b, x ← _i2c_read_byte devs dev (if i =? n - 1 then GPIO_HIGH_LEVEL else GPIO_LOW_LEVEL);
                b ← buf_set b i x; mret (inl b)) b;
        match b : buf + buf with inl b | inr b => i2c_stop devs dev;; mret (TEE_SUCCESS, Some b) end) Q s.
Proof using All.
  intros Hn Hl HQ. unfold blen in Hn. wp_steps.
  eapply (wp_for t _ _ (λ i b' s', d_ext s s' ∧ ∃ got o x, Z.of_nat (length got) = i ∧ Forall (λ bits, length bits = 8%nat) got
    ∧ b' = bytes (of_bits 0 <$> got) ++ drop (length got) b ∧ on_bus s' (Line o x false (log ++ read_wires n got))) _ 0).
  - intros i b' s1 Hi (He1&got&o1&x1&Hlen&Hgot&->&Hl1). wp_steps.
    change (if i =? n - 1 then GPIO_HIGH_LEVEL else GPIO_LOW_LEVEL) with (level (i =? n - 1)).
    eapply (read_byte_ok base d b0 Hpins Hregs devs dev (proj1 Hnn) Hdev); [exact Hl1|]. intros bits s2 Hbits Hl2 He2.
    rewrite read_low, <- app_assoc in Hl2. wp_steps. apply wp_buf_set.
    { unfold blen, bytes. rewrite length_app, !length_fmap, length_drop. lia. }
    wp_steps. split; [d_ext_chain|]. exists (got ++ [bits]). do 2 eexists. split_and!; [rewrite length_app; cbn; lia|apply Forall_app; split; [done|by repeat constructor]|..].
    + pose proof (insert_after_prefix b (of_bits 0 <$> got) (of_bits 0 bits)) as E. rewrite !length_app, !length_fmap in E.
      rewrite fmap_app, length_app, <- Hlen, Nat2Z.id. apply E. lia.
    + rewrite read_wires_snoc, Hlen. exact Hl2.
  - intros b' s1 (He1&got&o1&x1&Hlen&Hgot&->&Hl1). wp_steps. eapply i2c_stop_ok; [exact Hl1|]. intros s2 El Hp He2. wp_steps.
    eapply HQ; [lia|done|by rewrite El, <- app_assoc|done|d_ext_chain].
  - split; [done|]. exists [], o, x. split_and!; [done|constructor|done|by rewrite app_nil_r].
Qed.

Lemma i2c_read_bytes_ok t addr b len flags s : powered base d b0 s → 0 < len < 2 ^ 16 → len <= blen b →
  wp t (i2c_read_bytes devs dev addr (Some b) len flags) (λ r s', d_ext s s' ∧ powered base d b0 s' ∧ ∃ o w b', r.2 = Some b'
    ∧ read_result len b addr w r.1 b' ∧ log_of s' = log_of s ++ o ++ W_start :: w ++ stop_wires) s.
Proof using All.
  intros Hp Hlen Hb. unfold i2c_read_bytes. assert (u16 len = len) as -> by (apply Z.mod_small; lia). cbv zeta. unfold I2C_NUM in *.
  rewrite orb_false_intro by lia. apply bind_assoc2, wp_bind, open_ok; [done|]. intros o a s1 Hl1 He1.
  destruct a; [change (negb (TEE_ERROR_TIMEOUT =? TEE_SUCCESS)) with true|change (negb (TEE_SUCCESS =? TEE_SUCCESS)) with false]; cbn iota; wp_steps.
  { eapply i2c_stop_ok; [exact Hl1|]. intros s2 El Hp2 He2. wp_steps. split; [d_ext_chain|]. split; [done|]. exists o. do 2 eexists. split; [done|].
    split; [apply RR_no_device|]. by rewrite El, <- !app_assoc. }
  eapply (runs_start base d b0 Hpins Hregs devs dev (proj1 Hnn) Hdev); [exact Hl1|]. rewrite start_low. intros s2 Hl2 He2. wp_steps.
  eapply (write_byte_ok base d b0 Hpins Hregs devs dev (proj1 Hnn) Hdev); [exact Hl2|]. intros a s3. rewrite write_high. intros Hl3 He3. wp_steps.
  destruct a; [change (negb (TEE_ERROR_TIMEOUT =? TEE_SUCCESS)) with true|change (negb (TEE_SUCCESS =? TEE_SUCCESS)) with false]; cbn iota; wp_steps.
  { eapply i2c_stop_ok; [exact Hl3|]. intros s4 El Hp2 He4. wp_steps. split; [d_ext_chain|]. split; [done|]. exists o. do 2 eexists. split; [done|].
    split; [apply RR_refused|]. rewrite El, <- !app_assoc. cbn. by rewrite <- !app_assoc. }
  apply wp_bind_inv. eapply read_data_ok; [|exact Hl3|]; [lia|]. intros got s4 Hn Hgot El Hp4 He4. split; [d_ext_chain|]. split; [done|].
  exists o. do 2 eexists. split; [done|]. split; [by apply RR_done|]. rewrite El, <- !app_assoc. cbn. by rewrite <- !app_assoc.
Qed.
End transactions.
