(* ===== verification/Spi.v ===== *)
(** * The SPI driver (core/drivers/rpi3/rpi3_spi.c)

    Bus set-up and release, the polled full-duplex, send-only and receive-only
    transfers, and the software bit reversal.  The three transfer functions
    share their loops, which the source repeats three times. *)

From Stdlib Require Import ZArith Lia Bool.
From stdpp Require Import base tactics option list numbers gmap.
From S2P Require Import Prelude Platform Gpio.

Open Scope Z_scope.

Definition SPI_NUM : Z := 1.
Definition SPI_CS_NUM : Z := 3.

(** [struct SPIRegister] *)
Inductive spi_member := SPI_CS | SPI_FIFO | SPI_CLK | SPI_DLEN | SPI_LTOH | SPI_DC.
Definition spi_offset (m : spi_member) : Z :=
  match m with
  | SPI_CS => 0x00 | SPI_FIFO => 0x04 | SPI_CLK => 0x08
  | SPI_DLEN => 0x0c | SPI_LTOH => 0x10 | SPI_DC => 0x14
  end.

Definition SPI_CS_TXD : Z := 0x00040000.
Definition SPI_CS_RXD : Z := 0x00020000.
Definition SPI_CS_DONE : Z := 0x00010000.
Definition SPI_CS_TA : Z := 0x00000080.
Definition SPI_CS_CLEAR : Z := 0x00000030.
Definition SPI_CS_CPOL : Z := 0x00000008.
Definition SPI_CS_CPHA : Z := 0x00000004.
Definition SPI_CS_CS : Z := 0x00000003.
Definition SPI_CSPOL_SHIFT_BASE : Z := 21.
Definition SPI_MODE_SHIFT (x : Z) : Z := u32 (Z.shiftl x 2).

Definition SPI_WAIT_TXD_US : Z := 10000.
Definition SPI_WAIT_RXD_US : Z := 10000.
Definition SPI_TRANSFER_WAIT_DONE_PERBYTE_US : Z := 1000.

Definition RPI3_SPI_BIT_ORDER_LSBFIRST : Z := 0.
Definition RPI3_SPI_BIT_ORDER_MSBFIRST : Z := 1.

(** Clock speeds (periph/spi.h); an enum variable can hold other values. *)
Inductive spi_clk_t :=
  | SPI_CLK_100KHZ | SPI_CLK_400KHZ | SPI_CLK_1MHZ | SPI_CLK_5MHZ
  | SPI_CLK_10MHZ | SPI_CLK_40MHZ | SPI_CLK_other (v : Z).
Definition spi_clk_of (v : Z) : spi_clk_t :=
  match v with
  | 0 => SPI_CLK_100KHZ | 1 => SPI_CLK_400KHZ | 2 => SPI_CLK_1MHZ
  | 3 => SPI_CLK_5MHZ | 4 => SPI_CLK_10MHZ | 5 => SPI_CLK_40MHZ
  | _ => SPI_CLK_other v
  end.
Definition SPI_MODE_0 : Z := 0.

(** [spi_t] and [spi_cs_t] are [uint_fast8_t], unsigned chars here. *)
Definition spi_t (v : Z) : Z := u8 v.
Definition spi_cs_t (v : Z) : Z := u8 v.

Definition rpi3_byte_reverse_table : list Z :=
  [0x00; 0x80; 0x40; 0xc0; 0x20; 0xa0; 0x60; 0xe0; 0x10; 0x90; 0x50; 0xd0; 0x30; 0xb0; 0x70; 0xf0;
   0x08; 0x88; 0x48; 0xc8; 0x28; 0xa8; 0x68; 0xe8; 0x18; 0x98; 0x58; 0xd8; 0x38; 0xb8; 0x78; 0xf8;
   0x04; 0x84; 0x44; 0xc4; 0x24; 0xa4; 0x64; 0xe4; 0x14; 0x94; 0x54; 0xd4; 0x34; 0xb4; 0x74; 0xf4;
   0x0c; 0x8c; 0x4c; 0xcc; 0x2c; 0xac; 0x6c; 0xec; 0x1c; 0x9c; 0x5c; 0xdc; 0x3c; 0xbc; 0x7c; 0xfc;
   0x02; 0x82; 0x42; 0xc2; 0x22; 0xa2; 0x62; 0xe2; 0x12; 0x92; 0x52; 0xd2; 0x32; 0xb2; 0x72; 0xf2;
   0x0a; 0x8a; 0x4a; 0xca; 0x2a; 0xaa; 0x6a; 0xea; 0x1a; 0x9a; 0x5a; 0xda; 0x3a; 0xba; 0x7a; 0xfa;
   0x06; 0x86; 0x46; 0xc6; 0x26; 0xa6; 0x66; 0xe6; 0x16; 0x96; 0x56; 0xd6; 0x36; 0xb6; 0x76; 0xf6;
   0x0e; 0x8e; 0x4e; 0xce; 0x2e; 0xae; 0x6e; 0xee; 0x1e; 0x9e; 0x5e; 0xde; 0x3e; 0xbe; 0x7e; 0xfe;
   0x01; 0x81; 0x41; 0xc1; 0x21; 0xa1; 0x61; 0xe1; 0x11; 0x91; 0x51; 0xd1; 0x31; 0xb1; 0x71; 0xf1;
   0x09; 0x89; 0x49; 0xc9; 0x29; 0xa9; 0x69; 0xe9; 0x19; 0x99; 0x59; 0xd9; 0x39; 0xb9; 0x79; 0xf9;
   0x05; 0x85; 0x45; 0xc5; 0x25; 0xa5; 0x65; 0xe5; 0x15; 0x95; 0x55; 0xd5; 0x35; 0xb5; 0x75; 0xf5;
   0x0d; 0x8d; 0x4d; 0xcd; 0x2d; 0xad; 0x6d; 0xed; 0x1d; 0x9d; 0x5d; 0xdd; 0x3d; 0xbd; 0x7d; 0xfd;
   0x03; 0x83; 0x43; 0xc3; 0x23; 0xa3; 0x63; 0xe3; 0x13; 0x93; 0x53; 0xd3; 0x33; 0xb3; 0x73; 0xf3;
   0x0b; 0x8b; 0x4b; 0xcb; 0x2b; 0xab; 0x6b; 0xeb; 0x1b; 0x9b; 0x5b; 0xdb; 0x3b; 0xbb; 0x7b; 0xfb;
   0x07; 0x87; 0x47; 0xc7; 0x27; 0xa7; 0x67; 0xe7; 0x17; 0x97; 0x57; 0xd7; 0x37; 0xb7; 0x77; 0xf7;
   0x0f; 0x8f; 0x4f; 0xcf; 0x2f; 0xaf; 0x6f; 0xef; 0x1f; 0x9f; 0x5f; 0xdf; 0x3f; 0xbf; 0x7f; 0xff].

Definition spi_flag (st f : Z) : bool := truth (Z.land st f).

Section driver.
Context `{Env}.

Definition spi_reg (m : spi_member) (dev : Z) : D Z :=
  l ← gets d_spi_base;
  b ← arr_get l dev;
  mret (b + spi_offset m).

Definition spi_read32 (m : spi_member) (bus : Z) : D Z := a ← spi_reg m bus; io_read32 a.
Definition spi_write32 (m : spi_member) (bus v : Z) : D unit :=
  a ← spi_reg m bus; io_write32 a v.
Definition spi_clrsetbits (m : spi_member) (bus c v : Z) : D unit :=
  a ← spi_reg m bus; io_clrsetbits32 a c v.

(** [spi_setbits(SPI_CS_(bus), value, mask)] *)
Definition spi_setbits (bus value mask : Z) : D unit :=
  a ← spi_reg SPI_CS bus;
  v ← io_read32 a;
  io_write32 a (Z.lor (Z.land v (unot 32 mask)) (Z.land value mask)).

Definition rpi3_correct_order (v : Z) : D Z :=
  o ← gets d_bit_order;
  if o =? RPI3_SPI_BIT_ORDER_LSBFIRST then arr_get rpi3_byte_reverse_table v
  else mret v.

Definition spi_speed_hz (clk : spi_clk_t) : Z :=
  match clk with
  | SPI_CLK_100KHZ => 100000 | SPI_CLK_400KHZ => 400000 | SPI_CLK_1MHZ => 1000000
  | SPI_CLK_5MHZ => 5000000 | SPI_CLK_10MHZ => 10000000 | SPI_CLK_40MHZ => 40000000
  | SPI_CLK_other _ => 4000000
  end.

Definition spi_set_speed_clk (bus : Z) (clk : spi_clk_t) : D unit :=
  let divider := u16 (CORE_CLK / spi_speed_hz clk) in
  spi_write32 SPI_CLK bus (Z.land divider 0xFFFE).

Definition spi_set_mode (bus mode : Z) : D unit :=
  spi_clrsetbits SPI_CS bus (Z.lor SPI_CS_CPOL SPI_CS_CPHA) (SPI_MODE_SHIFT mode).

Definition spi_chip_select (bus cs : Z) : D unit :=
  spi_clrsetbits SPI_CS bus SPI_CS_CS cs.

Definition spi_set_chip_select_polarity (bus cs active : Z) : D unit :=
  let shift := u8 (SPI_CSPOL_SHIFT_BASE + cs) in
  if 32 <=? shift then undef UB_shift else
  spi_clrsetbits SPI_CS bus (u32 (Z.shiftl 1 shift)) (u32 (Z.shiftl active shift)).

Definition spi_set_bit_order (order : Z) : D unit := modify (d_set_bit_order (u8 order)).

(** The five pins of bus 0: CE1, CE0, MISO, MOSI, SCLK. *)
Definition spi_pins (f : Rpi3_FunctionSelect_GPFSEL) : D unit :=
  gpio_fsel 7 f;; gpio_fsel 8 f;; gpio_fsel 9 f;; gpio_fsel 10 f;; gpio_fsel 11 f.

Definition spi_acquire (bus cs mode : Z) (clk : spi_clk_t) : D Z :=
  if (SPI_NUM <=? bus) || (SPI_CS_NUM <=? cs) then mret TEE_ERROR_BAD_PARAMETERS else
  mutex_lock (L_spi bus);;
  (if bus =? 0 then spi_pins GPIO_FSEL_ALT0 else mret ());;
  spi_write32 SPI_CS bus 0;;
  spi_write32 SPI_CS bus SPI_CS_CLEAR;;
  spi_chip_select bus cs;;
  spi_set_speed_clk bus clk;;
  spi_set_mode bus mode;;
  mret TEE_SUCCESS.

Definition spi_release (bus : Z) : D Z :=
  if SPI_NUM <=? bus then mret TEE_ERROR_BAD_PARAMETERS else
  (if bus =? 0 then spi_pins GPIO_FSEL_INPT else mret ());;
  mutex_unlock (L_spi bus);;
  mret TEE_SUCCESS.

(** [do { status = CS; end = now; } while (!(status & bit) && elapsed <= limit)]
    followed by the elapsed-time test and the clean-up when it is too late:
    true when the caller may go on, false when it returns TEE_ERROR_TIMEOUT. *)
Definition spi_wait (bus bit limit : Z) : D bool :=
  start ← tee_time_get_sys_time;
  '(_, end_) ← do_while env_fuel
    (λ _, st ← spi_read32 SPI_CS bus; e ← tee_time_get_sys_time; mret (st, e))
    (λ '(st, e), mret (negb (spi_flag st bit) && (elapsed start e <=? limit)))
    (0, start);
  if limit <? elapsed start end_ then
    spi_setbits bus 0 SPI_CS_TA;; mret false
  else mret true.

Definition spi_transfer_byte (bus cs : Z) (cont : bool) (out : Z) (want : bool) :
    D (Z * option Z) :=
  if (SPI_NUM <=? bus) || (SPI_CS_NUM <=? cs) then mret (TEE_ERROR_BAD_PARAMETERS, None) else
  spi_chip_select bus cs;;
  (if cont then mret () else spi_setbits bus SPI_CS_CLEAR SPI_CS_CLEAR);;
  spi_setbits bus SPI_CS_TA SPI_CS_TA;;
  ok ← spi_wait bus SPI_CS_TXD SPI_WAIT_TXD_US;
  if negb ok then mret (TEE_ERROR_TIMEOUT, None) else
  x ← rpi3_correct_order out;
  spi_write32 SPI_FIFO bus x;;
  ok ← spi_wait bus SPI_CS_DONE SPI_TRANSFER_WAIT_DONE_PERBYTE_US;
  if negb ok then mret (TEE_ERROR_TIMEOUT, None) else
  got ← (if want then
           w ← spi_read32 SPI_FIFO bus;
           r ← rpi3_correct_order (u8 w);
           mret (Some (u8 r))
         else mret None);
  spi_setbits bus 0 SPI_CS_TA;;
  mret (TEE_SUCCESS, got).

(** *** The transfer loops *)

(** [while ((CS & TXD) && sent < len) { FIFO = order(out[sent]); sent++; start = now; }] *)
Definition spi_tx (bus : Z) (out : buf) (len : Z) (v : Z * (Z * Z)) : D (Z * (Z * Z)) :=
  while_ env_fuel
    (λ '(sent, _), st ← spi_read32 SPI_CS bus; mret (spi_flag st SPI_CS_TXD && (sent <? len)))
    (λ '(sent, _),
       x ← buf_get out sent;
       y ← rpi3_correct_order x;
       spi_write32 SPI_FIFO bus y;;
       t ← tee_time_get_sys_time;
       mret (u32 (sent + 1), t))
    v.

(** [while ((CS & RXD) && received < len) { in[received] = order(FIFO); ... }] *)
Definition spi_rx (bus len : Z) (v : buf * Z * (Z * Z)) : D (buf * Z * (Z * Z)) :=
  while_ env_fuel
    (λ '(_, received, _),
       st ← spi_read32 SPI_CS bus; mret (spi_flag st SPI_CS_RXD && (received <? len)))
    (λ '(inb, received, _),
       w ← spi_read32 SPI_FIFO bus;
       y ← rpi3_correct_order (u8 w);
       inb' ← buf_set inb received y;
       t ← tee_time_get_sys_time;
       mret (inb', u32 (received + 1), t))
    v.

(** After the data loop: late, or wait for DONE, or give up. *)
Definition spi_finish (bus limit : Z) (start end_ : Z * Z) (done_len : Z) : D bool :=
  if limit <? elapsed start end_ then
    spi_setbits bus 0 SPI_CS_TA;; mret false
  else spi_wait bus SPI_CS_DONE (u64 (SPI_TRANSFER_WAIT_DONE_PERBYTE_US * done_len)).

Definition spi_both (bus : Z) (out inb : buf) (out_len in_len : Z) : D (bool * buf) :=
  start ← tee_time_get_sys_time;
  end_ ← tee_time_get_sys_time;
  '(_, inb, _, start, end_) ← while_ env_fuel
    (λ '(sent, _, received, start, end_),
       mret (((sent <? out_len) || (received <? in_len))
             && (elapsed start end_ <=? SPI_WAIT_TXD_US)))
    (λ '(sent, inb, received, start, _),
       '(sent, start) ← spi_tx bus out out_len (sent, start);
       '(inb, received, start) ← spi_rx bus in_len (inb, received, start);
       end_ ← tee_time_get_sys_time;
       mret (sent, inb, received, start, end_))
    (0, inb, 0, start, end_);
  ok ← spi_finish bus SPI_WAIT_TXD_US start end_ (Z.max out_len in_len);
  mret (ok, inb).

Definition spi_send (bus : Z) (out : buf) (len : Z) : D bool :=
  start ← tee_time_get_sys_time;
  end_ ← tee_time_get_sys_time;
  '(_, start, end_) ← while_ env_fuel
    (λ '(sent, start, end_),
       mret ((sent <? len) && (elapsed start end_ <=? SPI_WAIT_TXD_US)))
    (λ '(sent, start, _),
       '(sent, start) ← spi_tx bus out len (sent, start);
       end_ ← tee_time_get_sys_time;
       mret (sent, start, end_))
    (0, start, end_);
  spi_finish bus SPI_WAIT_TXD_US start end_ len.

Definition spi_recv (bus : Z) (inb : buf) (len : Z) : D (bool * buf) :=
  start ← tee_time_get_sys_time;
  end_ ← tee_time_get_sys_time;
  '(inb, _, start, end_) ← while_ env_fuel
    (λ '(_, received, start, end_),
       mret ((received <? len) && (elapsed start end_ <=? SPI_WAIT_RXD_US)))
    (λ '(inb, received, start, _),
       '(inb, received, start) ← spi_rx bus len (inb, received, start);
       end_ ← tee_time_get_sys_time;
       mret (inb, received, start, end_))
    (inb, 0, start, end_);
  ok ← spi_finish bus SPI_WAIT_RXD_US start end_ len;
  mret (ok, inb).

(** The three-way choice on [out] and [in], and the end of the transfer. *)
Definition spi_data (bus : Z) (out inb : option buf) (out_len in_len : Z) :
    D (Z * option buf) :=
  '(ok, inb) ← match out, inb with
               | Some o, Some i =>
                   '(ok, i) ← spi_both bus o i out_len in_len; mret (ok, Some i)
               | Some o, None => ok ← spi_send bus o out_len; mret (ok, None)
               | None, Some i => '(ok, i) ← spi_recv bus i in_len; mret (ok, Some i)
               | None, None => mret (true, None)
               end;
  if negb ok then mret (TEE_ERROR_TIMEOUT, inb) else
  spi_setbits bus 0 SPI_CS_TA;;
  mret (TEE_SUCCESS, inb).

Definition spi_transfer_diff_bytes (bus cs : Z) (cont : bool) (out inb : option buf)
    (out_len in_len : Z) : D (Z * option buf) :=
  spi_chip_select bus cs;;
  (if cont then mret () else spi_setbits bus SPI_CS_CLEAR SPI_CS_CLEAR);;
  spi_setbits bus SPI_CS_TA SPI_CS_TA;;
  spi_data bus out inb out_len in_len.

Definition spi_transfer_bytes (bus cs : Z) (cont : bool) (out inb : option buf)
    (len : Z) : D (Z * option buf) :=
  spi_chip_select bus cs;;
  (if cont then mret () else spi_setbits bus SPI_CS_CLEAR SPI_CS_CLEAR);;
  spi_setbits bus SPI_CS_TA SPI_CS_TA;;
  spi_data bus out inb len len.

Definition spi_transfer_regs (bus cs reg : Z) (out inb : option buf) (len : Z) :
    D (Z * option buf) :=
  spi_chip_select bus cs;;
  spi_setbits bus SPI_CS_CLEAR SPI_CS_CLEAR;;
  spi_setbits bus SPI_CS_TA SPI_CS_TA;;
  r ← rpi3_correct_order (u8 reg);
  spi_write32 SPI_FIFO bus r;;
  spi_data bus out inb len len.

Definition spi_transfer_reg (bus cs reg out : Z) (inb : option buf) : D (Z * option buf) :=
  spi_transfer_regs bus cs reg (Some (bytes [u8 out])) inb 1.

Definition rpi3_spi_init : D Z :=
  (if env_mmu then modify (d_set_spi_base [env_phys_to_virt SPI0_BASE]) else mret ());;
  mret TEE_SUCCESS.
End driver.
