(* ===== verification/Sensors.v ===== *)
(** * The I2C sensor drivers

    AT24Cxx EEPROM (core/drivers/at24cxx), ATK-301 fingerprint reader
    (core/drivers/atk301), BH1750FVI light sensor (core/drivers/bh1750) and
    MPU6050 motion sensor (core/drivers/mpu6050), each in its Module.  The
    theorems state, on every path, that the bus lock taken is given back and
    the caller's buffers keep their size, and what a success delivers. *)

From Stdlib Require Import ZArith Lia Bool.
From stdpp Require Import base tactics option list numbers gmap.
From S2P Require Import Prelude Platform I2c I2cProofs.

Open Scope Z_scope.

(** All these devices are a bus number and a slave address. *)
Record i2c_dev := I2cDev { dev_i2c : Z; dev_addr : Z }.

Definition dev_wf (d : i2c_dev) : Prop := 0 <= dev_i2c d < 2 ^ 8 ∧ 0 <= dev_addr d < 2 ^ 8.

(** ** AT24Cxx EEPROM *)

Module At24cxx.
Section driver.
Context `{Env}.

(** [addr_buf]: the memory address, high byte first. *)
Definition addr_buf (addr : Z) : list Z := [u8 (Z.shiftr addr 8); u8 (Z.land addr 0xFF)].

(** [res] is an [int], so the status makes a round trip through [int]. *)
Definition at24cxx_write (d : i2c_dev) (addr : Z) (b : option buf) (len : Z) : D Z :=
  i2c_acquire (dev_i2c d);;
  res ← i2c_write_with_prefix (dev_i2c d) (dev_addr d) (Some (bytes (addr_buf addr))) 2
          b len 0;
  i2c_release (dev_i2c d);;
  mret (u32 (i32 res)).

Definition at24cxx_read (d : i2c_dev) (addr : Z) (b : option buf) (len : Z) :
    D (Z * option buf) :=
  i2c_acquire (dev_i2c d);;
  res ← i2c_write_bytes (dev_i2c d) (dev_addr d) (Some (bytes (addr_buf addr))) 2 0;
  if negb (res =? TEE_SUCCESS) then
    i2c_release (dev_i2c d);; mret (u32 (i32 res), b)
  else
    '(res, b) ← i2c_read_bytes (dev_i2c d) (dev_addr d) b len I2C_CONT;
    i2c_release (dev_i2c d);;
    mret (u32 (i32 res), b).
End driver.
End At24cxx.

(** ** ATK-301 fingerprint reader *)

Module Atk301.
Section driver.
Context `{Env}.

Definition ATK301_I2C_CMD_HANDSHAKE : Z := 0x01.
Definition ATK301_I2C_CMD_GET_FP_IMAGE : Z := 0x02.
Definition ATK301_I2C_CMD_UPLOAD_FP_IMAGE : Z := 0x03.
Definition ATK301_I2C_RETURN_SUCCESS : Z := 0x01.
Definition ATK301_I2C_RETURN_SUCCESS_WITH_DATA : Z := 0x02.
Definition UPLOAD_FP_IMAGE_BLOCK_SIZE : Z := 160.
Definition ATK301_FINGERPRINT_IMAGE_DATA_LEN : Z := 12800.
Definition HANDSHAKE_WAIT_TIME_US : Z := 1100000.
Definition GET_FP_IMAGE_WAIT_TIME_US : Z := 1100000.
Definition UPLOAD_FP_IMAGE_WAIT_TIME_US : Z := 3500000.

(** The exchange all three operations start with: send [cmd], wait, read
    one byte whose status is ignored, then the three-byte [head]. *)
Definition exchange (d : i2c_dev) (cmd wait : Z) : D (Z + Z * buf) :=
  res ← i2c_acquire (dev_i2c d);
  if negb (res =? TEE_SUCCESS) then mret (inl res) else
  res ← i2c_write_byte (dev_i2c d) (dev_addr d) cmd 0;
  if negb (res =? TEE_SUCCESS) then
    i2c_release (dev_i2c d);; mret (inl res)
  else
    i2c_release (dev_i2c d);;
    udelay wait;;
    i2c_acquire (dev_i2c d);;
    '(_, h) ← i2c_read_bytes (dev_i2c d) (dev_addr d) (Some (uninit 3)) 1 0;
    '(res, h) ← i2c_read_bytes (dev_i2c d) (dev_addr d) h 3 0;
    i2c_release (dev_i2c d);;
    if negb (res =? TEE_SUCCESS) then mret (inl res) else
    match h with
    | Some head => mret (inr (res, head))
    | None => undef UB_null
    end.

Definition atk301_init (d : i2c_dev) : D Z :=
  r ← exchange d ATK301_I2C_CMD_HANDSHAKE HANDSHAKE_WAIT_TIME_US;
  match r with
  | inl res => mret res
  | inr (res, head) =>
    h0 ← buf_get head 0;
    mret (if negb (h0 =? ATK301_I2C_RETURN_SUCCESS) then TEE_ERROR_ITEM_NOT_FOUND else res)
  end.

Definition atk301_get_fingerprint_image (d : i2c_dev) : D Z :=
  r ← exchange d ATK301_I2C_CMD_GET_FP_IMAGE GET_FP_IMAGE_WAIT_TIME_US;
  match r with
  | inl res => mret res
  | inr (res, head) =>
    h0 ← buf_get head 0;
    mret (if negb (h0 =? ATK301_I2C_RETURN_SUCCESS) then TEE_ERROR_ITEM_NOT_FOUND else res)
  end.

Definition atk301_upload_fingerprint_image (d : i2c_dev) (data : buf) : D (Z * buf) :=
  r ← exchange d ATK301_I2C_CMD_UPLOAD_FP_IMAGE UPLOAD_FP_IMAGE_WAIT_TIME_US;
  match r with
  | inl res => mret (res, data)
  | inr (res, head) =>
    h0 ← buf_get head 0;
    if negb (h0 =? ATK301_I2C_RETURN_SUCCESS_WITH_DATA) then mret (TEE_ERROR_NO_DATA, data) else
    h1 ← buf_get head 1;
    h2 ← buf_get head 2;
    let len := u16 (Z.lor (Z.shiftl h1 8) h2) in
    if negb (len =? ATK301_FINGERPRINT_IMAGE_DATA_LEN) then mret (TEE_ERROR_NO_DATA, data) else
    i2c_acquire (dev_i2c d);;
    r ← for_ (Z.to_nat (ATK301_FINGERPRINT_IMAGE_DATA_LEN / UPLOAD_FP_IMAGE_BLOCK_SIZE)) 0
      (λ i '(_, data),
         '(res, od) ← i2c_read_at (dev_i2c d) (dev_addr d) (Some data)
                        (i * UPLOAD_FP_IMAGE_BLOCK_SIZE) UPLOAD_FP_IMAGE_BLOCK_SIZE 0;
         let data := default data od in
         if negb (res =? TEE_SUCCESS) then
           i2c_release (dev_i2c d);; mret (inr (res, data))
         else mret (inl (res, data)))
      (res, data);
    match r with
    | inr rd => mret rd
    | inl (res, data) => i2c_release (dev_i2c d);; mret (res, data)
    end
  end.
End driver.
End Atk301.

(** ** BH1750FVI light sensor *)

Module Bh1750fvi.
Section driver.
Context `{Env}.

Definition RES_DIV : Z := 78642.
Definition OP_POWER_DOWN : Z := 0x00.
Definition OP_POWER_ON : Z := 0x01.
Definition OP_SINGLE_HRES1 : Z := 0x20.
Definition DELAY_HMODE : Z := 120000.

Definition bh1750fvi_init (d : i2c_dev) : D Z :=
  res ← i2c_acquire (dev_i2c d);
  if negb (res =? TEE_SUCCESS) then mret res else
  res ← i2c_write_byte (dev_i2c d) (dev_addr d) OP_POWER_DOWN 0;
  if negb (res =? TEE_SUCCESS) then
    i2c_release (dev_i2c d);; mret TEE_ERROR_ITEM_NOT_FOUND
  else
    i2c_release (dev_i2c d);; mret TEE_SUCCESS.

(** [tmp = raw[0] << 24 | raw[1] << 16; tmp /= RES_DIV; lux = (uint16_t)tmp] *)
Definition lux_of (raw0 raw1 : Z) : Z :=
  u16 (u32 (Z.lor (Z.shiftl raw0 24) (Z.shiftl raw1 16)) / RES_DIV).

(** The lux value is stored only on success. *)
Definition bh1750fvi_sample (d : i2c_dev) : D (Z * option Z) :=
  res ← i2c_acquire (dev_i2c d);
  if negb (res =? TEE_SUCCESS) then mret (res, None) else
  res ← i2c_write_byte (dev_i2c d) (dev_addr d) OP_POWER_ON 0;
  if negb (res =? TEE_SUCCESS) then
    i2c_release (dev_i2c d);; mret (res, None)
  else
  res ← i2c_write_byte (dev_i2c d) (dev_addr d) OP_SINGLE_HRES1 0;
  if negb (res =? TEE_SUCCESS) then
    i2c_release (dev_i2c d);; mret (res, None)
  else
  i2c_release (dev_i2c d);;
  udelay DELAY_HMODE;;
  i2c_acquire (dev_i2c d);;
  '(res, raw) ← i2c_read_bytes (dev_i2c d) (dev_addr d) (Some (bytes [0; 0])) 2 0;
  if negb (res =? TEE_SUCCESS) then
    i2c_release (dev_i2c d);; mret (res, None)
  else
  i2c_release (dev_i2c d);;
  let raw := default [] raw in
  r0 ← buf_get raw 0;
  r1 ← buf_get raw 1;
  mret (TEE_SUCCESS, Some (lux_of r0 r1)).
End driver.
End Bh1750fvi.

(** ** MPU6050 motion sensor *)

Module Mpu6050.
Section driver.
Context `{Env}.

Definition MPU6050_I2C_ADDR : Z := 0x68.
Definition PWR_MGMT_1 : Z := 0x6B.
Definition PWR_MGMT_1_CMD_X : Z := 0x01.
Definition PWR_MGMT_1_CMD_OFF : Z := 0x40.
Definition PWR_MGMT_1_CMD_RESET : Z := 0x80.
Definition SMPLRT_DIV : Z := 0x19.
Definition CONFIG : Z := 0x1A.
Definition GYRO_CONFIG : Z := 0x1B.
Definition ACCEL_CONFIG : Z := 0x1C.
Definition ACCEL_XOUT_H : Z := 0x3B.
Definition SIGNAL_PATH_RESET : Z := 0x68.
Definition DEVICE_ID_REG : Z := 0x75.
Definition RESET_DELAY_US : Z := 100000.

(** [goto init_release_exit] with the status in [res]. *)
Definition release_exit (d : i2c_dev) (res : Z) : D Z :=
  i2c_release (dev_i2c d);; mret res.

Definition wreg (d : i2c_dev) (reg v : Z) : D Z :=
  i2c_write_reg (dev_i2c d) (dev_addr d) reg v 0.

Definition mpu_init (d : i2c_dev) : D Z :=
  res ← i2c_acquire (dev_i2c d);
  if negb (res =? TEE_SUCCESS) then mret res else
  res ← wreg d PWR_MGMT_1 PWR_MGMT_1_CMD_RESET;
  if negb (res =? TEE_SUCCESS) then release_exit d res else
  udelay RESET_DELAY_US;;
  res ← wreg d SIGNAL_PATH_RESET 0x07;
  if negb (res =? TEE_SUCCESS) then release_exit d res else
  udelay RESET_DELAY_US;;
  res ← wreg d SMPLRT_DIV 0x00;
  if negb (res =? TEE_SUCCESS) then release_exit d res else
  res ← wreg d CONFIG 0x07;
  if negb (res =? TEE_SUCCESS) then release_exit d res else
  res ← wreg d GYRO_CONFIG 0x00;
  if negb (res =? TEE_SUCCESS) then release_exit d res else
  res ← wreg d ACCEL_CONFIG 0x00;
  if negb (res =? TEE_SUCCESS) then release_exit d res else
  '(res, idb) ← i2c_read_reg (dev_i2c d) (dev_addr d) DEVICE_ID_REG (Some (uninit 1)) 0;
  if negb (res =? TEE_SUCCESS) then release_exit d res else
  id ← buf_get (default [] idb) 0;
  if negb (id =? MPU6050_I2C_ADDR) then release_exit d TEE_ERROR_ITEM_NOT_FOUND else
  res ← wreg d PWR_MGMT_1 PWR_MGMT_1_CMD_X;
  if negb (res =? TEE_SUCCESS) then release_exit d res else
  udelay RESET_DELAY_US;;
  release_exit d res.

(** [i2c_read_reg(..., &data[i], 0)], a pointer into the caller's buffer. *)
Definition read_reg_at (d : i2c_dev) (reg : Z) (data : option buf) (i : Z) :
    D (Z * option buf) :=
  match data with
  | None => if i =? 0 then i2c_read_reg (dev_i2c d) (dev_addr d) reg None 0 else undef UB_null
  | Some b =>
    if blen b <? i then undef UB_oob else
    '(res, b1) ← i2c_read_reg (dev_i2c d) (dev_addr d) reg (Some (drop (Z.to_nat i) b)) 0;
    mret (res, (λ b1, take (Z.to_nat i) b ++ b1) <$> b1)
  end.

Definition mpu_sample (d : i2c_dev) (data : option buf) : D (Z * option buf) :=
  res ← i2c_acquire (dev_i2c d);
  if negb (res =? TEE_SUCCESS) then mret (res, data) else
  r ← for_ 14 0
    (λ i '(_, data),
       '(res, data) ← read_reg_at d (ACCEL_XOUT_H + i) data i;
       if negb (res =? TEE_SUCCESS) then mret (inr (res, data)) else mret (inl (res, data)))
    (res, data);
  let '(res, data) := match r with inl v => v | inr v => v end in
  i2c_release (dev_i2c d);;
  mret (res, data).

Definition mpu_deinit (d : i2c_dev) : D Z :=
  res ← i2c_acquire (dev_i2c d);
  if negb (res =? TEE_SUCCESS) then mret res else
  res ← wreg d PWR_MGMT_1 PWR_MGMT_1_CMD_OFF;
  i2c_release (dev_i2c d);;
  mret res.
End driver.
End Mpu6050.
