(* ===== verification/SensorsProofs.v ===== *)
(** * Correctness of the I2C sensor drivers

    The bus is given back on every path, buffers keep their size, and what a
    success delivers. *)

From Stdlib Require Import ZArith Lia Bool.
From stdpp Require Import base tactics option list numbers gmap.
From S2P Require Import Prelude Platform I2c I2cProofs Sensors.

Open Scope Z_scope.

(** The state a sensor operation starts from: the arrays are well formed, the
    device descriptor is in range, its bus is not held by the caller and, for
    the total reading [t = true], the device answers. *)
Definition dev_ready `{Env} (t : bool) (d : i2c_dev) (s : dstate) : Prop :=
  d_wf s ∧ dev_wf d ∧ bus_free (dev_i2c d) s ∧ i2c_live t (dev_i2c d) s.

Lemma dev_ready_kept `{Env} t d s s' : dev_ready t d s → kept s s' → dev_ready t d s'.
Proof.
  intros (?&?&[]&?) [Hf Hh]. split_and!; [by eapply d_frame_wf|done| |by eapply i2c_live_frame].
  split; [done|by rewrite Hh].
Qed.

Lemma u32_i32_status r : tee_status r → u32 (i32 r) = r.
Proof. intros [->|?]; [done|]. apply u32_i32. lia. Qed.

Lemma dev_ready_free `{Env} t d s : dev_ready t d s → bus_free (dev_i2c d) s.
Proof. by intros (_&_&?&_). Qed.
Lemma dev_ready_wf `{Env} t d s : dev_ready t d s → d_wf s.
Proof. by intros (?&_). Qed.
Lemma dev_ready_pos `{Env} t d s : dev_ready t d s → 0 <= dev_i2c d.
Proof. by intros (_&_&[]&_). Qed.
Lemma dev_ready_live `{Env} t d s s1 :
  dev_ready t d s → owns (dev_i2c d) s s1 → i2c_live t (dev_i2c d) s1.
Proof. intros (_&_&_&?) [? _]. by eapply i2c_live_frame. Qed.

Create HintDb own.
#[export] Hint Resolve dev_ready_free dev_ready_wf dev_ready_pos dev_ready_kept dev_ready_live : own.
#[export] Hint Resolve d_ext_kept kept_wf owns_wf owns_ext : own.
#[export] Hint Extern 2 (d_wf _) => eapply owns_wf; [eassumption|] : own.
#[export] Hint Extern 2 (flag _ _ = false) => reflexivity : own.
#[export] Hint Extern 2 (0 <= _ < _) => lia : own.
#[export] Hint Extern 3 (0 <= _) => lia : own.

(** Takes the bus: the good case goes on with [owns], the bad one returns. *)
Ltac acquire_bus :=
  eapply wp_mono; [apply i2c_acquire_owns; eauto with own|];
  intros ? ? [(->&?&?)|(->&?&->)];
  rewrite ?Z.eqb_refl; change (TEE_ERROR_BAD_PARAMETERS =? TEE_SUCCESS) with false;
  cbn [negb]; wp_steps.
Ltac release_bus :=
  eapply wp_mono; [eapply i2c_release_owns; eauto with own|];
  intros ? ? [-> ?]; wp_steps.
(** Splits on the status of a call. *)
Ltac on_status r := destruct (Z.eqb_spec r TEE_SUCCESS) as [->|]; cbn [negb]; wp_steps.

Section sensors.
Context `{Env} (t : bool) (d : i2c_dev).

(** A register or byte write while the bus is held. *)
Lemma own_write_byte x s s1 : dev_ready t d s → owns (dev_i2c d) s s1 →
  wp t (i2c_write_byte (dev_i2c d) (dev_addr d) x 0)
    (λ r s2, owns (dev_i2c d) s s2 ∧ tee_status r) s1.
Proof.
  intros Hr Ho. eapply wp_mono; [apply i2c_write_byte_client; eauto with own|].
  intros r s2 []. eauto with own.
Qed.

Lemma own_write_reg reg x s s1 : dev_ready t d s → owns (dev_i2c d) s s1 →
  wp t (i2c_write_reg (dev_i2c d) (dev_addr d) reg x 0)
    (λ r s2, owns (dev_i2c d) s s2 ∧ tee_status r) s1.
Proof.
  intros Hr Ho. eapply wp_mono; [apply i2c_write_reg_client; eauto with own|].
  intros r s2 []. eauto with own.
Qed.

Definition read_post (n : Z) (b : buf) (r : Z * option buf) : Prop :=
  tee_status r.1 ∧ ∃ b1, r.2 = Some b1 ∧ blen b1 = blen b
    ∧ (r.1 = TEE_SUCCESS → filled n b b1).

Lemma bus_read_post_own n b s1 r s2 : bus_read_post n (Some b) s1 r s2 → read_post n b r.
Proof.
  intros (_&Ht&Hbl&Hs). split; [done|]. destruct r as [r [b1|]]; [|done].
  injection Hbl as Hbl. exists b1. split_and!; auto. intros Hr.
  by destruct (Hs Hr) as (?&?&[= <-]&[= <-]&?).
Qed.

Lemma own_read_bytes b len flags s s1 : dev_ready t d s → owns (dev_i2c d) s s1 →
  0 <= len < 2 ^ 16 → len <= blen b → (t = true → flag flags I2C_ADDR10 = false) →
  wp t (i2c_read_bytes (dev_i2c d) (dev_addr d) (Some b) len flags)
    (λ r s2, owns (dev_i2c d) s s2 ∧ read_post len b r) s1.
Proof.
  intros Hr Ho Hl Hb H10.
  eapply wp_mono; [apply (i2c_read_client t (dev_i2c d)) with (b := Some b); eauto with own|].
  { by intros ? [= <-]. }
  intros r s2 Hp. split; [destruct Hp as (?&_); eauto with own|by eapply bus_read_post_own].
Qed.

Lemma own_read_regs reg b len s s1 : dev_ready t d s → owns (dev_i2c d) s s1 →
  0 <= len < 2 ^ 16 → len <= blen b →
  wp t (i2c_read_regs (dev_i2c d) (dev_addr d) reg (Some b) len 0)
    (λ r s2, owns (dev_i2c d) s s2 ∧ read_post len b r) s1.
Proof.
  intros Hr Ho Hl Hb.
  eapply wp_mono; [apply i2c_read_regs_client; eauto with own|].
  intros r s2 Hp. split; [destruct Hp as (?&_); eauto with own|by eapply bus_read_post_own].
Qed.

Lemma own_udelay us s s1 : owns (dev_i2c d) s s1 →
  wp t (udelay us) (λ _ s2, owns (dev_i2c d) s s2) s1.
Proof. intros. eapply wp_mono; [apply udelay_spec|]. intros ? ? ->. eauto with own. Qed.
End sensors.

(** ** AT24Cxx *)
Section at24cxx.
Context `{Env} (t : bool) (d : i2c_dev).
Import At24cxx.

Lemma addr_buf_bytes addr : Forall (λ x, 0 <= x < 2 ^ 8) (addr_buf addr).
Proof. repeat constructor; apply u8_range. Qed.

Lemma addr_buf_roundtrip addr : 0 <= addr < 2 ^ 16 →
  match addr_buf addr with [h; l] => h * 256 + l | _ => -1 end = addr.
Proof.
  intros. unfold addr_buf. change 0xFF with (Z.ones 8).
  rewrite Z.land_ones, Z.shiftr_div_pow2 by lia.
  assert (0 <= addr / 2 ^ 8 < 2 ^ 8).
  { split; [apply Z.div_pos; lia|apply Z.div_lt_upper_bound; lia]. }
  rewrite !u8_id; [|apply Z.mod_pos_bound; lia|done].
  pose proof (Z.div_mod addr (2 ^ 8)). lia.
Qed.

Lemma at24cxx_write_ok addr b data s : dev_ready t d s →
  Forall (λ x, 0 <= x < 2 ^ 8) data → take (length data) b = bytes data →
  Z.of_nat (length data) < 2 ^ 16 - 2 →
  wp t (at24cxx_write d addr (Some b) (Z.of_nat (length data)))
    (λ r s', kept s s' ∧ tee_status r) s.
Proof.
  intros Hr Hd Hb Hl. pose proof Hr as (?&?&[Hdev ?]&?). unfold at24cxx_write.
  assert (∀ s1, d_wf s1 → i2c_live t (dev_i2c d) s1 → wp t
    (i2c_write_with_prefix (dev_i2c d) (dev_addr d) (Some (bytes (addr_buf addr))) 2 (Some b)
       (Z.of_nat (length data)) 0) (λ r s2, d_ext s1 s2 ∧ tee_status r) s1) as Hw.
  { intros s1 ??.
    apply (i2c_write_with_prefix_client t (dev_i2c d)) with (pdata := addr_buf addr) (data := data);
      auto; try lia. apply Forall_app. split; [apply addr_buf_bytes|done]. }
  wp_steps. acquire_bus.
  - eapply wp_mono; [apply Hw; eauto with own|]. intros r s2 [? ?]. wp_steps. release_bus.
    rewrite u32_i32_status by done. done.
  - eapply wp_mono; [apply Hw; eauto with own|]. intros r s2 [He ?]. wp_steps.
    unfold wp. rewrite i2c_release_bad by done. rewrite u32_i32_status by done.
    split; [by apply d_ext_kept|done].
Qed.

Lemma at24cxx_read_trunc dv addr b n : at24cxx_read dv addr b n = at24cxx_read dv addr b (u16 n).
Proof. unfold at24cxx_read. by rewrite (i2c_read_trunc _ _ _ n). Qed.

Lemma at24cxx_read_ok addr b len s : dev_ready t d s → 0 <= len < 2 ^ 16 → len <= blen b →
  wp t (at24cxx_read d addr (Some b) len) (λ r s', kept s s' ∧ read_post len b r) s.
Proof.
  intros Hr Hl Hb. pose proof Hr as (?&?&[Hdev ?]&?). unfold at24cxx_read.
  assert (∀ s1, d_wf s1 → i2c_live t (dev_i2c d) s1 → wp t
    (i2c_write_bytes (dev_i2c d) (dev_addr d) (Some (bytes (addr_buf addr))) 2 0)
    (λ r s2, d_ext s1 s2 ∧ tee_status r) s1) as Hw.
  { intros s1 ??. apply (i2c_write_client _ _ Hdev _ _ _ _ _ (addr_buf addr)); auto; try lia.
    apply addr_buf_bytes. }
  wp_steps. acquire_bus.
  - eapply wp_mono; [apply Hw; eauto with own|]. intros r s2 [? ?]. wp_steps.
    destruct (Z.eqb_spec r TEE_SUCCESS) as [->|]; cbn [negb]; wp_steps.
    + eapply wp_mono; [eapply (own_read_bytes t d b len _ s); eauto with own|].
      intros [r2 ob] s3 [? Hrp]. wp_steps. release_bus.
      destruct Hrp as [Ht ?]. cbn [fst snd] in *. rewrite u32_i32_status by done. done.
    + release_bus. rewrite u32_i32_status by done. split; [done|]. split; [done|].
      exists b. split_and!; auto. done.
  - unfold wp. unfold mbind, M_bind. rewrite i2c_write_bytes_bad by auto.
    cbn. rewrite i2c_release_bad by done. split; [reflexivity|].
    split; [auto|]. exists b. split_and!; auto. discriminate.
Qed.
End at24cxx.

(** A fully filled buffer is a list of bytes. *)
Lemma filled_all n b b' : n = blen b → filled n b b' →
  ∃ l, b' = bytes l ∧ length l = Z.to_nat n ∧ Forall (λ x, 0 <= x < 2 ^ 8) l.
Proof.
  intros Hn (l&Hl&Hf&->). exists l. split_and!; auto.
  rewrite drop_ge, app_nil_r; [done|]. unfold blen in Hn. lia.
Qed.

Lemma wp_bytes_get {S} t l i x (Q : Z → S → Prop) s :
  0 <= i → l !! Z.to_nat i = Some x → Q x s → wp t (buf_get (bytes l) i) Q s.
Proof.
  intros ? Hx HQ. apply (wp_buf_get _ _ _ x); auto. unfold bytes. by rewrite list_lookup_fmap, Hx.
Qed.

(** ** ATK-301 *)
Section atk301.
Context `{Env} (t : bool) (d : i2c_dev).
Import Atk301.

Definition exchange_post (s : dstate) (r : Z + Z * buf) (s' : dstate) : Prop :=
  kept s s' ∧ match r with
    | inl res => tee_status res ∧ res ≠ TEE_SUCCESS
    | inr (res, head) => res = TEE_SUCCESS ∧ dev_i2c d < I2C_NUM ∧ ∃ h0 h1 h2, head = bytes [h0; h1; h2]
        ∧ Forall (λ x, 0 <= x < 2 ^ 8) [h0; h1; h2]
    end.

(** After the second acquire of an exchange. *)
Lemma exchange_read s s1 : dev_ready t d s → dev_i2c d < I2C_NUM → owns (dev_i2c d) s s1 →
  wp t
   ('(_, h) ← i2c_read_bytes (dev_i2c d) (dev_addr d) (Some (uninit 3)) 1 0;
    '(res, h) ← i2c_read_bytes (dev_i2c d) (dev_addr d) h 3 0;
    i2c_release (dev_i2c d);;
    if negb (res =? TEE_SUCCESS) then mret (inl res) else
    match h with
    | Some head => mret (inr (res, head))
    | None => undef UB_null
    end) (exchange_post s) s1.
Proof.
  intros Hr Hdev Ho. wp_steps.
  eapply wp_mono; [eapply own_read_bytes; eauto; rewrite ?blen_uninit by lia; lia|].
  intros [r1 ob1] s2 (?&_&b1&Hb1&Hl1&_). cbn in Hb1. subst ob1.
  change (blen b1 = 3) in Hl1. wp_steps.
  eapply wp_mono; [apply own_read_bytes; eauto; lia|].
  intros [r2 ob2] s3 (?&Ht&b2&Hb2&Hl2&Hf). cbn in Ht, Hb2, Hf. subst ob2. wp_steps.
  release_bus. on_status r2; [|done]. split_and!; [done..|].
  destruct (filled_all 3 b1 b2) as ([|h0 [|h1 [|h2 [|]]]]&->&Hl&?); auto; try done.
  by exists h0, h1, h2.
Qed.

Lemma exchange_ok cmd w s : dev_ready t d s → wp t (exchange d cmd w) (exchange_post s) s.
Proof.
  intros Hr. unfold exchange. wp_steps. acquire_bus.
  2:{ split; [reflexivity|]. split; [auto|discriminate]. }
  eapply wp_mono; [eapply own_write_byte; eauto|]. intros r s1 [? ?].
  on_status r; [|by release_bus]. release_bus.
  eapply wp_mono; [apply udelay_spec|]. intros ? s3 ->. wp_steps.
  set (s4 := d_log _ _). assert (kept s s4) as Hk4
    by (etrans; [done|]; apply d_ext_kept, d_ext_log).
  assert (dev_ready t d s4) as Hr4 by eauto with own.
  acquire_bus; [|lia]. apply wp_bind_inv. eapply wp_mono; [by apply (exchange_read s4)|].
  intros r s5 [? ?]. split; [by etrans|done].
Qed.

(** Every ATK-301 command gives the bus back and reports success only when
    the module confirmed it. *)
Lemma atk301_init_ok s : dev_ready t d s →
  wp t (atk301_init d) (λ r s', kept s s' ∧ tee_status r) s.
Proof.
  intros Hr. unfold atk301_init. wp_steps. eapply wp_mono; [by apply exchange_ok|].
  intros [res|[res head]] s1 [? Hp]; wp_steps; [naive_solver|].
  destruct Hp as (->&_&h0&h1&h2&->&_). apply (wp_bytes_get _ _ _ h0); [lia|done|].
  wp_steps. destruct (negb _); auto.
Qed.

Lemma atk301_get_fingerprint_image_ok s : dev_ready t d s →
  wp t (atk301_get_fingerprint_image d) (λ r s', kept s s' ∧ tee_status r) s.
Proof.
  intros Hr. unfold atk301_get_fingerprint_image. wp_steps.
  eapply wp_mono; [by apply exchange_ok|].
  intros [res|[res head]] s1 [? Hp]; wp_steps; [naive_solver|].
  destruct Hp as (->&_&h0&h1&h2&->&_). apply (wp_bytes_get _ _ _ h0); [lia|done|].
  wp_steps. destruct (negb _); auto.
Qed.

Definition upload_post (data : buf) (s : dstate) (r : Z * buf) (s' : dstate) : Prop :=
  kept s s' ∧ tee_status r.1 ∧ blen r.2 = blen data
  ∧ (r.1 = TEE_SUCCESS → filled ATK301_FINGERPRINT_IMAGE_DATA_LEN data r.2).

(** The 80 block reads, with the bus held since [s]. *)
Lemma upload_blocks_ok data s s1 : dev_ready t d s → dev_i2c d < I2C_NUM →
  owns (dev_i2c d) s s1 → ATK301_FINGERPRINT_IMAGE_DATA_LEN <= blen data →
  wp t
   (r ← for_ (Z.to_nat (ATK301_FINGERPRINT_IMAGE_DATA_LEN / UPLOAD_FP_IMAGE_BLOCK_SIZE)) 0
      (λ i '(_, data),
         '(res, od) ← i2c_read_at (dev_i2c d) (dev_addr d) (Some data)
                        (i * UPLOAD_FP_IMAGE_BLOCK_SIZE) UPLOAD_FP_IMAGE_BLOCK_SIZE 0;
         let data := default data od in
         if negb (res =? TEE_SUCCESS) then
           i2c_release (dev_i2c d);; mret (inr (res, data))
         else mret (inl (res, data)))
      (TEE_SUCCESS, data);
    match r with
    | inr rd => mret rd
    | inl (res, data) => i2c_release (dev_i2c d);; mret (res, data)
    end) (upload_post data s) s1.
Proof.
  intros Hr Hdev Ho Hl. wp_steps. unfold ATK301_FINGERPRINT_IMAGE_DATA_LEN in *.
  apply (wp_for _ _ _ (λ j '(r, b) s2, r = TEE_SUCCESS ∧ owns (dev_i2c d) s s2
    ∧ filled (j * UPLOAD_FP_IMAGE_BLOCK_SIZE) data b)).
  3:{ split_and!; auto. apply filled_0. }
  2:{ intros [r b] s2 (->&?&Hf). wp_steps. release_bus.
      change (filled 12800 data b) in Hf. split_and!; auto.
      by apply (filled_blen 12800); [lia|]. }
  intros j [r b] s2 Hj (->&Ho2&Hf). change (Z.of_nat (Z.to_nat (12800 / _))) with 80 in Hj.
  pose proof Hr as (?&?&?&?). wp_steps. unfold UPLOAD_FP_IMAGE_BLOCK_SIZE in *.
  eapply wp_mono; [apply (i2c_read_at_client t (dev_i2c d)) with (b := data); eauto with own; lia|].
  intros [r2 od] s3 (?&?&b1&Hob&Hbl&Hs). cbn in Hob, Hs. subst od. wp_steps. cbn [default].
  assert (owns (dev_i2c d) s s3) by eauto with own. on_status r2.
  - split_and!; auto. replace ((j + 1) * 160) with (j * 160 + 160) by lia. auto.
  - release_bus. split_and!; auto. done.
Qed.

(** The upload stays within the 12800-byte buffer; a success has filled it. *)
Lemma atk301_upload_ok data s : dev_ready t d s → ATK301_FINGERPRINT_IMAGE_DATA_LEN <= blen data →
  wp t (atk301_upload_fingerprint_image d data) (upload_post data s) s.
Proof.
  intros Hr Hl. unfold atk301_upload_fingerprint_image. wp_steps.
  eapply wp_mono; [by apply exchange_ok|].
  intros [res|[res head]] s1 [Hk Hp]; wp_steps.
  { destruct Hp. by split_and!. }
  destruct Hp as (->&Hdev&h0&h1&h2&->&_). apply (wp_bytes_get _ _ _ h0); [lia|done|].
  assert (∀ r, tee_status r → r ≠ TEE_SUCCESS → upload_post data s (r, data) s1) as Herr
    by (intros; by split_and!).
  destruct (negb _); wp_steps; [by apply Herr; [auto|]|].
  apply (wp_bytes_get _ _ _ h1); [lia|done|]. wp_steps.
  apply (wp_bytes_get _ _ _ h2); [lia|done|].
  destruct (negb _); wp_steps; [by apply Herr; [auto|]|].
  assert (dev_ready t d s1) as Hr1 by eauto with own.
  acquire_bus; [|lia]. apply wp_bind_inv.
  eapply wp_mono; [by apply (upload_blocks_ok data s1)|].
  intros r s2 (?&?&?&?). split_and!; auto. by etrans.
Qed.
End atk301.

(** ** BH1750FVI *)
Section bh1750.
Context `{Env} (t : bool) (d : i2c_dev).
Import Bh1750fvi.

Lemma lux_of_spec r0 r1 : 0 <= r0 < 2 ^ 8 → 0 <= r1 < 2 ^ 8 →
  lux_of r0 r1 = ((r0 * 256 + r1) * 65536) / 78642 ∧ 0 <= lux_of r0 r1 <= 54613.
Proof.
  intros H0 H1. unfold lux_of, RES_DIV.
  assert (Z.lor (Z.shiftl r0 24) (Z.shiftl r1 16) = (r0 * 256 + r1) * 65536) as ->.
  { replace (Z.shiftl r0 24) with (Z.shiftl (Z.shiftl r0 8) 16)
      by (rewrite Z.shiftl_shiftl by lia; done).
    rewrite <- Z.shiftl_lor, lor_shiftl_add, Z.shiftl_mul_pow2 by lia. lia. }
  rewrite u32_id by lia.
  assert (0 <= (r0 * 256 + r1) * 65536 / 78642 <= 54613).
  { split; [apply Z.div_pos; lia|]. apply Z.lt_succ_r, Z.div_lt_upper_bound; lia. }
  rewrite u16_id by lia. done.
Qed.

Lemma bh1750fvi_init_ok s : dev_ready t d s →
  wp t (bh1750fvi_init d) (λ r s', kept s s' ∧ tee_status r) s.
Proof.
  intros Hr. unfold bh1750fvi_init. wp_steps. acquire_bus.
  2:{ split; [reflexivity|auto]. }
  eapply wp_mono; [eapply own_write_byte; eauto|]. intros r s1 [? ?].
  on_status r; release_bus; auto.
Qed.

(** The illuminance of two bytes of the sensor, high byte first. *)
Definition lux_reading (lux : Z) : Prop := ∃ r0 r1, 0 <= r0 < 2 ^ 8 ∧ 0 <= r1 < 2 ^ 8
  ∧ lux = ((r0 * 256 + r1) * 65536) / 78642 ∧ 0 <= lux <= 54613.

(** The measurement, from the second acquire on. *)
Lemma bh1750fvi_read_ok s s1 : dev_ready t d s → dev_i2c d < I2C_NUM →
  owns (dev_i2c d) s s1 →
  wp t
   ('(res, raw) ← i2c_read_bytes (dev_i2c d) (dev_addr d) (Some (bytes [0; 0])) 2 0;
    if negb (res =? TEE_SUCCESS) then
      i2c_release (dev_i2c d);; mret (res, None)
    else
    i2c_release (dev_i2c d);;
    let raw := default [] raw in
    r0 ← buf_get raw 0;
    r1 ← buf_get raw 1;
    mret (TEE_SUCCESS, Some (lux_of r0 r1)))
    (λ r s', kept s s' ∧ tee_status r.1 ∧ match r.2 with
       | Some lux => r.1 = TEE_SUCCESS ∧ lux_reading lux
       | None => r.1 ≠ TEE_SUCCESS end) s1.
Proof.
  intros Hr Hdev Ho. wp_steps.
  eapply wp_mono; [eapply own_read_bytes; eauto; rewrite ?blen_bytes; cbn [length]; lia|].
  intros [r ob] s2 (?&Ht&b1&Hob&_&Hf). cbn in Ht, Hob, Hf. subst ob. wp_steps. on_status r.
  - release_bus. cbn [default]. destruct (filled_all 2 (bytes [0; 0]) b1)
      as ([|r0 [|r1 [|]]]&->&?&Hb); auto; try done.
    apply (wp_bytes_get _ _ _ r0); [lia|done|]. wp_steps.
    apply (wp_bytes_get _ _ _ r1); [lia|done|]. wp_steps. split; [done|]. split; [auto|].
    split; [done|]. apply Forall_cons in Hb as [? Hb]. apply Forall_cons in Hb as [? _].
    exists r0, r1. split; [done|]. split; [done|]. by apply lux_of_spec.
  - release_bus. done.
Qed.

Lemma bh1750fvi_sample_ok s : dev_ready t d s →
  wp t (bh1750fvi_sample d)
    (λ r s', kept s s' ∧ tee_status r.1 ∧ match r.2 with
       | Some lux => r.1 = TEE_SUCCESS ∧ lux_reading lux
       | None => r.1 ≠ TEE_SUCCESS end) s.
Proof.
  intros Hr. unfold bh1750fvi_sample. wp_steps. acquire_bus.
  2:{ split; [reflexivity|split; [auto|discriminate]]. }
  eapply wp_mono; [eapply own_write_byte; eauto|]. intros r s1 [? ?].
  on_status r; [|by release_bus].
  eapply wp_mono; [eapply own_write_byte; eauto|]. intros r s2 [? ?].
  on_status r; [|by release_bus]. release_bus.
  eapply wp_mono; [apply udelay_spec|]. intros ? s3 ->. wp_steps.
  set (s4 := d_log _ _). assert (kept s s4) as Hk4
    by (etrans; [done|]; apply d_ext_kept, d_ext_log).
  assert (dev_ready t d s4) as Hr4 by eauto with own.
  acquire_bus; [|lia]. apply wp_bind_inv. eapply wp_mono; [by apply (bh1750fvi_read_ok s4)|].
  intros r s5 (?&?&?). split; [by etrans|done].
Qed.
End bh1750.

(** ** MPU6050 *)
Section mpu6050.
Context `{Env} (t : bool) (d : i2c_dev).
Import Mpu6050.

Lemma release_exit_ok res s s1 : dev_ready t d s → dev_i2c d < I2C_NUM →
  owns (dev_i2c d) s s1 → tee_status res →
  wp t (release_exit d res) (λ r s', kept s s' ∧ tee_status r) s1.
Proof. intros. unfold release_exit. wp_steps. by release_bus. Qed.

(** One step of the initialisation chain: write a register, leave on error. *)
Lemma wreg_chain reg v k s s1 : dev_ready t d s → dev_i2c d < I2C_NUM →
  owns (dev_i2c d) s s1 →
  (∀ s2, owns (dev_i2c d) s s2 →
     wp t (k TEE_SUCCESS) (λ r s', kept s s' ∧ tee_status r) s2) →
  wp t (res ← wreg d reg v;
            if negb (res =? TEE_SUCCESS) then release_exit d res else k res)
    (λ r s', kept s s' ∧ tee_status r) s1.
Proof.
  intros Hr Hdev Ho Hk. wp_steps. eapply wp_mono; [by eapply own_write_reg|].
  intros r s2 [? ?]. on_status r; [by apply Hk|by apply release_exit_ok].
Qed.

Lemma delay_chain {A} us (m : D A) Q s s1 : owns (dev_i2c d) s s1 →
  (∀ s2, owns (dev_i2c d) s s2 → wp t m Q s2) → wp t (udelay us;; m) Q s1.
Proof. intros Ho Hk. wp_steps. eapply wp_mono; [by apply own_udelay|]. auto. Qed.

Lemma mpu_init_ok s : dev_ready t d s →
  wp t (mpu_init d) (λ r s', kept s s' ∧ tee_status r) s.
Proof.
  intros Hr. unfold mpu_init. apply wp_bind. acquire_bus; [apply wp_bind_inv|].
  2:{ split; [reflexivity|auto]. }
  assert (∀ res s1, owns (dev_i2c d) s s1 → tee_status res →
    wp t (release_exit d res) (λ r s', kept s s' ∧ tee_status r) s1) as Hexit
    by (intros; by apply release_exit_ok).
  apply wreg_chain; auto; intros. apply (delay_chain _ _ _ s); auto; intros.
  apply wreg_chain; auto; intros. apply (delay_chain _ _ _ s); auto; intros.
  do 4 (apply wreg_chain; auto; intros). wp_steps.
  eapply wp_mono; [eapply own_read_regs; eauto; [|rewrite blen_uninit]; lia|].
  intros [r ob] s9 (?&Ht&b1&Hob&_&Hf). cbn in Ht, Hob, Hf. subst ob. wp_steps.
  on_status r; [|by apply Hexit].
  destruct (filled_all 1 (uninit 1) b1) as ([|id [|]]&->&?&Hb); auto; try done.
  cbn [default]. apply (wp_bytes_get _ _ _ id); [lia|done|].
  destruct (negb _); [apply Hexit; auto|].
  apply wreg_chain; auto; intros. apply (delay_chain _ _ _ s); auto.
Qed.

Lemma read_reg_at_ok reg b b' i s s1 : dev_ready t d s → owns (dev_i2c d) s s1 →
  0 <= i → i + 1 <= blen b → filled i b b' →
  wp t (read_reg_at d reg (Some b') i)
    (λ r s2, owns (dev_i2c d) s s2 ∧ tee_status r.1 ∧ ∃ b1, r.2 = Some b1
       ∧ blen b1 = blen b ∧ (r.1 = TEE_SUCCESS → filled (i + 1) b b1)) s1.
Proof.
  intros Hr Ho Hi Hb Hfi. unfold read_reg_at.
  pose proof (filled_blen i b b' ltac:(lia) Hfi) as Hbl.
  rewrite (proj2 (Z.ltb_ge _ _)) by lia. wp_steps.
  eapply wp_mono; [eapply (own_read_regs t d reg (drop (Z.to_nat i) b') 1); eauto; [lia|]|].
  { unfold blen in *. rewrite length_drop. lia. }
  intros [r ob] s' (?&Ht&b1&Hob&Hbl2&Hs). cbn in Ht, Hob, Hs. subst ob. wp_steps.
  cbn [fst snd fmap option_fmap option_map]. split_and!; auto. eexists; split_and!; [done| |].
  - unfold blen in *. rewrite length_app, length_take. rewrite length_drop in Hbl2. lia.
  - intros Hsuc. apply filled_step; auto. lia.
Qed.

(** A successful sample fills the 14 bytes; any result keeps the buffer's size. *)
Lemma mpu_sample_ok b s : dev_ready t d s → 14 <= blen b →
  wp t (mpu_sample d (Some b)) (λ r s', kept s s' ∧ read_post 14 b r) s.
Proof.
  intros Hr Hb. unfold mpu_sample. wp_steps. acquire_bus.
  2:{ split; [reflexivity|]. split; [auto|]. exists b. split_and!; auto. discriminate. }
  apply (wp_for _ _ _ (λ j '(r, ob) s2, r = TEE_SUCCESS ∧ owns (dev_i2c d) s s2
    ∧ ∃ b1, ob = Some b1 ∧ filled j b b1)).
  3:{ split_and!; auto. exists b. split; [done|apply filled_0]. }
  2:{ intros [r ob] s2 (->&?&b1&->&Hf). wp_steps. release_bus. split; [done|].
      split; [auto|]. exists b1. split_and!; auto. by apply (filled_blen 14); [lia|]. }
  intros j [r ob] s2 Hj (->&Ho&b1&->&Hf). wp_steps.
  eapply wp_mono; [eapply (read_reg_at_ok _ b b1 j s); auto; lia|].
  intros [r2 ob2] s3 (?&?&b2&Hob&?&Hs). cbn in Hob, Hs. subst ob2. wp_steps.
  on_status r2; [by eauto 6|]. release_bus. split; [done|]. split; [done|].
  exists b2. split_and!; auto. done.
Qed.

Lemma mpu_deinit_ok s : dev_ready t d s →
  wp t (mpu_deinit d) (λ r s', kept s s' ∧ tee_status r) s.
Proof.
  intros Hr. unfold mpu_deinit. wp_steps. acquire_bus; [|by split; [reflexivity|auto]].
  eapply wp_mono; [by eapply own_write_reg|]. intros r s1 [? ?]. wp_steps. by release_bus.
Qed.
End mpu6050.
