(* ===== verification/Tel0157.v ===== *)
(** * The TEL0157 GNSS receiver (core/drivers/gnss/tel0157.c)

    Power and mode control, the time and position getters, and the block-wise
    download of the raw sentences with its NUL replacement. *)

From Stdlib Require Import ZArith Lia Bool.
From stdpp Require Import base tactics option list numbers gmap.
From S2P Require Import Prelude Platform I2c I2cProofs Sensors SensorsProofs.

Open Scope Z_scope.

(** ** Data *)

Record tel0157_t := Tel { tel_dev : i2c_dev; gnss_mode : Z; rgb : Z }.

(** A member is [None] while it has not been stored to. *)
Record tel0157_time_t := Time {
  tm_year : option Z; tm_month : option Z; tm_date : option Z;
  tm_hour : option Z; tm_minute : option Z; tm_second : option Z }.
Record tel0157_lon_lat_t := LonLat {
  lonMMMMM : option Z; latMMMMM : option Z; lonDD : option Z; lonMM : option Z;
  latDD : option Z; latMM : option Z; lonDirection : option Z; latDirection : option Z }.

Definition TEL0157_I2C_YEAR_H : Z := 0.
Definition TEL0157_I2C_HOUR : Z := 4.
Definition TEL0157_I2C_LAT_1 : Z := 7.
Definition TEL0157_I2C_LON_DIS : Z := 12.
Definition TEL0157_I2C_LON_1 : Z := 13.
Definition TEL0157_I2C_LAT_DIS : Z := 18.
Definition TEL0157_I2C_USE_STAR : Z := 19.
Definition TEL0157_I2C_ALT_H : Z := 20.
Definition TEL0157_I2C_SOG_H : Z := 23.
Definition TEL0157_I2C_COG_H : Z := 26.
Definition TEL0157_I2C_START_GET : Z := 29.
Definition TEL0157_I2C_DATA_LEN_H : Z := 31.
Definition TEL0157_I2C_ALL_DATA : Z := 33.
Definition TEL0157_I2C_GNSS_MODE : Z := 34.
Definition TEL0157_I2C_SLEEP_MODE : Z := 35.
Definition TEL0157_I2C_RGB_MODE : Z := 36.
Definition TEL0157_ENABLE_POWER : Z := 0.
Definition TEL0157_DISABLE_POWER : Z := 1.
Definition TEL0157_RGB_ON : Z := 0x05.
Definition TEL0157_RGB_OFF : Z := 0x02.
Definition TEL0157_START_GET_CMD : Z := 0x55.
Definition TEL0157_GENERAL_DELAY_US : Z := 50000.
Definition TEL0157_GET_GNSS_LEN_DELAY_US : Z := 100000.
Definition eGPS_BeiDou_GLONASS : Z := 7.
Definition block_size : Z := 32.

(** The records as the client's memory holds them. *)
(** [tel0157_time_t]: seven bytes and one of padding. *)
Definition time_bytes (t : tel0157_time_t) : buf :=
  le_opt 2 (tm_year t) ++ le_opt 1 (tm_month t) ++ le_opt 1 (tm_date t) ++ le_opt 1 (tm_hour t)
  ++ le_opt 1 (tm_minute t) ++ le_opt 1 (tm_second t) ++ [None].
(** [tel0157_lon_lat_t]: fourteen bytes and two of padding. *)
Definition lon_lat_bytes (p : tel0157_lon_lat_t) : buf :=
  le_opt 4 (lonMMMMM p) ++ le_opt 4 (latMMMMM p) ++ le_opt 1 (lonDD p) ++ le_opt 1 (lonMM p)
  ++ le_opt 1 (latDD p) ++ le_opt 1 (latMM p) ++ le_opt 1 (lonDirection p)
  ++ le_opt 1 (latDirection p) ++ [None; None].
Definition sizeof_time : Z := 8.
Definition sizeof_lon_lat : Z := 16.
Definition time_none : tel0157_time_t := Time None None None None None None.
Definition lon_lat_none : tel0157_lon_lat_t := LonLat None None None None None None None None.

Lemma time_blen q : blen (time_bytes q) = sizeof_time.
Proof. unfold blen, time_bytes. by rewrite !length_app, !le_opt_length. Qed.
Lemma lon_lat_blen q : blen (lon_lat_bytes q) = sizeof_lon_lat.
Proof. unfold blen, lon_lat_bytes. by rewrite !length_app, !le_opt_length. Qed.

Section driver.
Context `{Env}.

Definition tel_wreg (d : tel0157_t) (reg v : Z) : D Z :=
  i2c_write_reg (dev_i2c (tel_dev d)) (dev_addr (tel_dev d)) reg v 0.
Definition tel_rregs (d : tel0157_t) (reg : Z) (b : option buf) (len : Z) : D (Z * option buf) :=
  i2c_read_regs (dev_i2c (tel_dev d)) (dev_addr (tel_dev d)) reg b len 0.

Definition tel0157_enable_power_internal (d : tel0157_t) : D Z :=
  tel_wreg d TEL0157_I2C_SLEEP_MODE TEL0157_ENABLE_POWER.
Definition tel0157_disable_power_internal (d : tel0157_t) : D Z :=
  tel_wreg d TEL0157_I2C_SLEEP_MODE TEL0157_DISABLE_POWER.
Definition tel0157_set_gnss_mode_internal (d : tel0157_t) : D Z :=
  if eGPS_BeiDou_GLONASS <? gnss_mode d then mret TEE_ERROR_NOT_SUPPORTED else
  tel_wreg d TEL0157_I2C_GNSS_MODE (gnss_mode d).
Definition tel0157_set_rgb_internal (d : tel0157_t) : D Z :=
  tel_wreg d TEL0157_I2C_RGB_MODE (if 0 <? rgb d then TEL0157_RGB_ON else TEL0157_RGB_OFF).

Definition tel0157_get_date_internal (d : tel0157_t) (t : tel0157_time_t) :
    D (Z * tel0157_time_t) :=
  '(res, b) ← tel_rregs d TEL0157_I2C_YEAR_H (Some (bytes [0; 0; 0; 0])) 4;
  if negb (res =? TEE_SUCCESS) then mret (res, t) else
  let b := default [] b in
  b0 ← buf_get b 0; b1 ← buf_get b 1; b2 ← buf_get b 2; b3 ← buf_get b 3;
  mret (res, Time (Some (u16 (Z.lor (Z.shiftl b0 8) b1))) (Some b2) (Some b3)
                  (tm_hour t) (tm_minute t) (tm_second t)).

Definition tel0157_get_utc_internal (d : tel0157_t) (t : tel0157_time_t) :
    D (Z * tel0157_time_t) :=
  '(res, b) ← tel_rregs d TEL0157_I2C_HOUR (Some (bytes [0; 0; 0])) 3;
  if negb (res =? TEE_SUCCESS) then mret (res, t) else
  let b := default [] b in
  b0 ← buf_get b 0; b1 ← buf_get b 1; b2 ← buf_get b 2;
  mret (res, Time (tm_year t) (tm_month t) (tm_date t) (Some b0) (Some b1) (Some b2)).

(** [(b2 << 16) | (b3 << 8) | b4] *)
Definition word24 (b2 b3 b4 : Z) : Z :=
  Z.lor (Z.lor (Z.shiftl b2 16) (Z.shiftl b3 8)) b4.

(** The six position bytes and the direction byte of [tel0157_get_lat_internal]
    and [tel0157_get_lon_internal]; the direction read reuses the buffer. *)
Definition read_coord (d : tel0157_t) (reg : Z) : D (Z + Z * Z * Z * buf) :=
  '(res, b) ← tel_rregs d reg (Some (bytes [0; 0; 0; 0; 0; 0])) 6;
  if negb (res =? TEE_SUCCESS) then mret (inl res) else
  let b := default [] b in
  b0 ← buf_get b 0; b1 ← buf_get b 1; b2 ← buf_get b 2; b3 ← buf_get b 3; b4 ← buf_get b 4;
  mret (inr (b0, b1, word24 b2 b3 b4, b)).

Definition tel0157_get_lat_internal (d : tel0157_t) (p : tel0157_lon_lat_t) :
    D (Z * tel0157_lon_lat_t) :=
  r ← read_coord d TEL0157_I2C_LAT_1;
  match r with
  | inl res => mret (res, p)
  | inr (dd, mm, mmmmm, b) =>
    let p := LonLat (lonMMMMM p) (Some mmmmm) (lonDD p) (lonMM p) (Some dd) (Some mm)
               (lonDirection p) (latDirection p) in
    '(res, b) ← tel_rregs d TEL0157_I2C_LAT_DIS (Some b) 1;
    if negb (res =? TEE_SUCCESS) then mret (res, p) else
    c ← buf_get (default [] b) 0;
    mret (res, LonLat (lonMMMMM p) (latMMMMM p) (lonDD p) (lonMM p) (latDD p) (latMM p)
                 (lonDirection p) (Some c))
  end.

Definition tel0157_get_lon_internal (d : tel0157_t) (p : tel0157_lon_lat_t) :
    D (Z * tel0157_lon_lat_t) :=
  r ← read_coord d TEL0157_I2C_LON_1;
  match r with
  | inl res => mret (res, p)
  | inr (dd, mm, mmmmm, b) =>
    let p := LonLat (Some mmmmm) (latMMMMM p) (Some dd) (Some mm) (latDD p) (latMM p)
               (lonDirection p) (latDirection p) in
    '(res, b) ← tel_rregs d TEL0157_I2C_LON_DIS (Some b) 1;
    if negb (res =? TEE_SUCCESS) then mret (res, p) else
    c ← buf_get (default [] b) 0;
    mret (res, LonLat (lonMMMMM p) (latMMMMM p) (lonDD p) (lonMM p) (latDD p) (latMM p)
                 (Some c) (latDirection p))
  end.

Definition tel0157_get_alt_internal (d : tel0157_t) (b : option buf) : D (Z * option buf) :=
  tel_rregs d TEL0157_I2C_ALT_H b 3.
Definition tel0157_get_sog_internal (d : tel0157_t) (b : option buf) : D (Z * option buf) :=
  tel_rregs d TEL0157_I2C_SOG_H b 3.
Definition tel0157_get_cog_internal (d : tel0157_t) (b : option buf) : D (Z * option buf) :=
  tel_rregs d TEL0157_I2C_COG_H b 3.
Definition tel0157_get_num_sat_used_internal (d : tel0157_t) (b : option buf) :
    D (Z * option buf) :=
  i2c_read_reg (dev_i2c (tel_dev d)) (dev_addr (tel_dev d)) TEL0157_I2C_USE_STAR b 0.
Definition tel0157_get_gnss_mode_internal (d : tel0157_t) (b : option buf) :
    D (Z * option buf) :=
  i2c_read_reg (dev_i2c (tel_dev d)) (dev_addr (tel_dev d)) TEL0157_I2C_GNSS_MODE b 0.

(** The length is stored only on success. *)
Definition tel0157_get_gnss_len_internal (d : tel0157_t) : D (Z * option Z) :=
  res ← tel_wreg d TEL0157_I2C_START_GET TEL0157_START_GET_CMD;
  if negb (res =? TEE_SUCCESS) then mret (res, None) else
  udelay TEL0157_GET_GNSS_LEN_DELAY_US;;
  '(res, b) ← tel_rregs d TEL0157_I2C_DATA_LEN_H (Some (bytes [TEL0157_START_GET_CMD; 0])) 2;
  if negb (res =? TEE_SUCCESS) then mret (res, None) else
  let b := default [] b in
  b0 ← buf_get b 0; b1 ← buf_get b 1;
  mret (res, Some (u16 (Z.lor (Z.shiftl b0 8) b1))).

(** [tel0157_get_all_data_internal(dev, &all_gnss_buf[off], len)] *)
Definition tel0157_get_all_data_internal (d : tel0157_t) (b : option buf) (off len : Z) :
    D (Z * option buf) :=
  res ← i2c_write_byte (dev_i2c (tel_dev d)) (dev_addr (tel_dev d)) TEL0157_I2C_ALL_DATA 0;
  if negb (res =? TEE_SUCCESS) then mret (res, b) else
  i2c_read_at (dev_i2c (tel_dev d)) (dev_addr (tel_dev d)) b off len I2C_CONT.

(** [for (j = 0; j < n; j++) if (b[off+j] == 0) b[off+j] = '\n';] *)
Definition replace_nul (b : buf) (off n : Z) : D buf :=
  r ← for_ (B := Empty_set) (Z.to_nat n) 0
    (λ j b, c ← buf_get b (off + j);
            b ← (if c =? 0 then buf_set b (off + j) 10 else mret b);
            mret (inl b)) b;
  match r with inl b => mret b | inr e => match (e : Empty_set) with end end.

Definition tel0157_get_all_gnss_internal (d : tel0157_t) (b : option buf) (len : Z) :
    D (Z * option buf) :=
  if (1024 + 200 <? len) || (len =? 0) then mret (TEE_ERROR_BAD_PARAMETERS, b) else
  let tmp_len := u8 ((len + block_size - 1) / block_size) in
  r ← for_ (Z.to_nat tmp_len) 0
    (λ i b,
       let current_block_size :=
         if (i =? tmp_len - 1) && negb (len mod block_size =? 0)
         then len mod block_size else block_size in
       '(res, b) ← tel0157_get_all_data_internal d b (block_size * i) current_block_size;
       if negb (res =? TEE_SUCCESS) then mret (inr (res, b)) else
       match b with
       | None => undef UB_null
       | Some bb => bb ← replace_nul bb (block_size * i) current_block_size; mret (inl (Some bb))
       end)
    b;
  match r with
  | inl b => mret (TEE_SUCCESS, b)
  | inr v => mret v
  end.

(** *** The exported operations: acquire, work, release on every path *)

Definition with_bus {A} (d : tel0157_t) (dflt : A) (body : D (Z * A)) : D (Z * A) :=
  res ← i2c_acquire (dev_i2c (tel_dev d));
  if negb (res =? TEE_SUCCESS) then mret (res, dflt) else
  r ← body;
  i2c_release (dev_i2c (tel_dev d));;
  mret r.

Definition tel0157_init (d : tel0157_t) : D (Z * unit) :=
  with_bus d tt (
    res ← tel0157_enable_power_internal d;
    if negb (res =? TEE_SUCCESS) then mret (res, tt) else
    udelay TEL0157_GENERAL_DELAY_US;;
    res ← tel0157_set_gnss_mode_internal d;
    if negb (res =? TEE_SUCCESS) then mret (res, tt) else
    udelay TEL0157_GENERAL_DELAY_US;;
    res ← tel0157_set_rgb_internal d;
    if negb (res =? TEE_SUCCESS) then mret (res, tt) else
    udelay TEL0157_GENERAL_DELAY_US;;
    mret (res, tt)).

Definition tel0157_deinit (d : tel0157_t) : D (Z * unit) :=
  with_bus d tt (
    res ← tel0157_disable_power_internal d;
    if negb (res =? TEE_SUCCESS) then mret (res, tt) else
    udelay TEL0157_GENERAL_DELAY_US;;
    mret (res, tt)).

Definition tel0157_get_utc_time (d : tel0157_t) (t : tel0157_time_t) :
    D (Z * tel0157_time_t) :=
  with_bus d t (
    '(res, t) ← tel0157_get_date_internal d t;
    if negb (res =? TEE_SUCCESS) then mret (res, t) else
    tel0157_get_utc_internal d t).

Definition tel0157_get_lon (d : tel0157_t) (p : tel0157_lon_lat_t) : D (Z * tel0157_lon_lat_t) :=
  with_bus d p (tel0157_get_lon_internal d p).
Definition tel0157_get_lat (d : tel0157_t) (p : tel0157_lon_lat_t) : D (Z * tel0157_lon_lat_t) :=
  with_bus d p (tel0157_get_lat_internal d p).
Definition tel0157_get_alt (d : tel0157_t) (b : option buf) : D (Z * option buf) :=
  with_bus d b (tel0157_get_alt_internal d b).
Definition tel0157_get_sog (d : tel0157_t) (b : option buf) : D (Z * option buf) :=
  with_bus d b (tel0157_get_sog_internal d b).
Definition tel0157_get_cog (d : tel0157_t) (b : option buf) : D (Z * option buf) :=
  with_bus d b (tel0157_get_cog_internal d b).
Definition tel0157_get_num_sat_used (d : tel0157_t) (b : option buf) : D (Z * option buf) :=
  with_bus d b (tel0157_get_num_sat_used_internal d b).
Definition tel0157_get_gnss_mode (d : tel0157_t) (b : option buf) : D (Z * option buf) :=
  with_bus d b (tel0157_get_gnss_mode_internal d b).
Definition tel0157_get_gnss_len (d : tel0157_t) : D (Z * option Z) :=
  with_bus d None (tel0157_get_gnss_len_internal d).
Definition tel0157_get_all_gnss (d : tel0157_t) (b : option buf) (len : Z) : D (Z * option buf) :=
  with_bus d b (tel0157_get_all_gnss_internal d b len).
End driver.

(** ** Correctness *)

Section correctness.
Context `{Env} (t : bool) (d : tel0157_t).
Local Abbreviation dev := (dev_i2c (tel_dev d)).

Lemma with_bus_ok {A} (dflt : A) body (P : Z → A → Prop) s :
  dev_ready t (tel_dev d) s → P TEE_ERROR_BAD_PARAMETERS dflt →
  (∀ s1, owns dev s s1 → wp t body (λ r s2, owns dev s s2 ∧ P r.1 r.2) s1) →
  wp t (with_bus d dflt body) (λ r s', kept s s' ∧ P r.1 r.2) s.
Proof.
  intros Hr Hbad Hbody. unfold with_bus. wp_steps. acquire_bus.
  2:{ by split; [reflexivity|]. }
  eapply wp_mono; [by apply Hbody|]. intros r s2 [? ?]. wp_steps. by release_bus.
Qed.

(** A register read into a buffer of constants, with the bus held. *)
Lemma rregs_ok reg l n s s1 : dev_ready t (tel_dev d) s → owns dev s s1 →
  n = Z.of_nat (length l) → n < 2 ^ 16 →
  wp t (tel_rregs d reg (Some (bytes l)) n)
    (λ r s2, owns dev s s2 ∧ tee_status r.1 ∧ (r.1 = TEE_SUCCESS →
       ∃ l', r.2 = Some (bytes l') ∧ length l' = length l
             ∧ Forall (λ x, 0 <= x < 2 ^ 8) l')) s1.
Proof.
  intros Hr Ho Hn Hl. eapply wp_mono;
    [eapply own_read_regs; eauto; rewrite ?blen_bytes; lia|].
  intros [r ob] s2 (?&?&b1&Hob&_&Hf). cbn in *. subst ob. split_and!; auto. intros Hs.
  destruct (filled_all n (bytes l) b1) as (l'&->&?&?); [by rewrite blen_bytes|by auto|].
  exists l'. split_and!; auto. lia.
Qed.

Lemma wreg_ok reg v s s1 : dev_ready t (tel_dev d) s → owns dev s s1 →
  wp t (tel_wreg d reg v) (λ r s2, owns dev s s2 ∧ tee_status r) s1.
Proof. intros. by apply own_write_reg. Qed.

Lemma tel0157_init_ok s : dev_ready t (tel_dev d) s →
  wp t (tel0157_init d) (λ r s', kept s s' ∧ tee_status r.1) s.
Proof.
  intros Hr. apply (with_bus_ok tt _ (λ r _, tee_status r)); [done|by auto|].
  intros s1 Ho. wp_steps. eapply wp_mono; [by eapply wreg_ok|]. intros r s2 [? ?].
  on_status r; [|done]. eapply wp_mono; [by eapply own_udelay|]. intros ? s3 ?. wp_steps.
  unfold tel0157_set_gnss_mode_internal. destruct (_ <? _); wp_steps.
  { split; [done|auto]. }
  eapply wp_mono; [by eapply wreg_ok|]. intros r s4 [? ?].
  on_status r; [|done]. eapply wp_mono; [by eapply own_udelay|]. intros ? s5 ?. wp_steps.
  eapply wp_mono; [by eapply wreg_ok|]. intros r s6 [? ?].
  on_status r; [|done]. eapply wp_mono; [by eapply own_udelay|]. intros ? s7 ?. by wp_steps.
Qed.

Lemma tel0157_deinit_ok s : dev_ready t (tel_dev d) s →
  wp t (tel0157_deinit d) (λ r s', kept s s' ∧ tee_status r.1) s.
Proof.
  intros Hr. apply (with_bus_ok tt _ (λ r _, tee_status r)); [done|by auto|].
  intros s1 Ho. wp_steps. eapply wp_mono; [by eapply wreg_ok|]. intros r s2 [? ?].
  on_status r; [|done]. eapply wp_mono; [by eapply own_udelay|]. intros ? s3 ?. by wp_steps.
Qed.

(** A success stores every member of the time. *)
Definition time_set (t : tel0157_time_t) : Prop :=
  is_Some (tm_year t) ∧ is_Some (tm_month t) ∧ is_Some (tm_date t)
  ∧ is_Some (tm_hour t) ∧ is_Some (tm_minute t) ∧ is_Some (tm_second t).

Ltac get_bytes := repeat (eapply wp_bytes_get; [lia|reflexivity|]; wp_steps).

Lemma tel0157_get_utc_time_ok tm s : dev_ready t (tel_dev d) s →
  wp t (tel0157_get_utc_time d tm)
    (λ r s', kept s s' ∧ tee_status r.1 ∧ (r.1 = TEE_SUCCESS → time_set r.2)) s.
Proof.
  intros Hr. apply (with_bus_ok tm _ (λ r t, tee_status r ∧ (r = TEE_SUCCESS → time_set t)));
    [done|by split; [auto|discriminate]|].
  intros s1 Ho. unfold tel0157_get_date_internal, tel0157_get_utc_internal. wp_steps.
  eapply wp_mono; [eapply rregs_ok; eauto; lia|]. intros [r b] s2 (?&Ht&Hs). cbn in Ht, Hs.
  wp_steps. destruct (Z.eqb_spec r TEE_SUCCESS) as [->|]; cbn [negb]; wp_steps.
  2:{ rewrite (proj2 (Z.eqb_neq r TEE_SUCCESS)) by done. wp_steps. by split_and!. }
  destruct (Hs eq_refl) as ([|b0 [|b1 [|b2 [|b3 [|]]]]]&->&?&_); try done. cbn [default].
  get_bytes. rewrite Z.eqb_refl. cbn [negb]. wp_steps.
  eapply wp_mono; [eapply rregs_ok; eauto; lia|]. intros [r b] s3 (?&Ht2&Hs2). cbn in Ht2, Hs2.
  wp_steps. on_status r; [|by split_and!].
  destruct (Hs2 eq_refl) as ([|c0 [|c1 [|c2 [|]]]]&->&?&_); done.
Qed.

Lemma read_coord_ok reg s s1 : dev_ready t (tel_dev d) s → owns dev s s1 →
  wp t (read_coord d reg) (λ r s2, owns dev s s2 ∧ match r with
    | inl res => tee_status res ∧ res ≠ TEE_SUCCESS
    | inr (dd, mm, mmmmm, b) => ∃ l, b = bytes l ∧ length l = 6%nat end) s1.
Proof.
  intros Hr Ho. unfold read_coord. wp_steps.
  eapply wp_mono; [eapply rregs_ok; eauto; lia|]. intros [r b] s2 (?&Ht&Hs). cbn in Ht, Hs.
  wp_steps. on_status r; [|done].
  destruct (Hs eq_refl) as ([|b0 [|b1 [|b2 [|b3 [|b4 [|b5 [|]]]]]]]&->&?&_); try done.
  cbn [default]. get_bytes. split; [done|]. eauto.
Qed.

(** The direction byte, read into the position buffer. *)
Lemma read_dir_ok reg l s s1 : dev_ready t (tel_dev d) s → owns dev s s1 → length l = 6%nat →
  wp t (tel_rregs d reg (Some (bytes l)) 1)
    (λ r s2, owns dev s s2 ∧ tee_status r.1 ∧ (r.1 = TEE_SUCCESS →
       ∃ x b, r.2 = Some (Some x :: b))) s1.
Proof.
  intros Hr Ho Hl. eapply wp_mono;
    [eapply own_read_regs; eauto; rewrite ?blen_bytes; lia|].
  intros [r ob] s2 (?&?&b1&Hob&_&Hf). cbn in *. subst ob. split_and!; auto. intros Hs.
  destruct (Hf Hs) as ([|x [|]]&?&?&->); try done. cbn. eauto.
Qed.

(** A successful [tel0157_get_lon] sets the four longitude members and
    leaves the latitude members as they were (and conversely). *)
Lemma tel0157_get_lon_ok p s : dev_ready t (tel_dev d) s →
  wp t (tel0157_get_lon d p)
    (λ r s', kept s s' ∧ tee_status r.1
       ∧ (latMMMMM r.2 = latMMMMM p ∧ latDD r.2 = latDD p ∧ latMM r.2 = latMM p
          ∧ latDirection r.2 = latDirection p)
       ∧ (r.1 = TEE_SUCCESS → is_Some (lonMMMMM r.2) ∧ is_Some (lonDD r.2)
            ∧ is_Some (lonMM r.2) ∧ is_Some (lonDirection r.2))) s.
Proof.
  intros Hr. apply (with_bus_ok p _ (λ r q, tee_status r
    ∧ (latMMMMM q = latMMMMM p ∧ latDD q = latDD p ∧ latMM q = latMM p
          ∧ latDirection q = latDirection p)
    ∧ (r = TEE_SUCCESS → is_Some (lonMMMMM q) ∧ is_Some (lonDD q)
            ∧ is_Some (lonMM q) ∧ is_Some (lonDirection q))));
    [done|by split_and!; [auto|..|discriminate]|].
  intros s1 Ho. unfold tel0157_get_lon_internal. wp_steps.
  eapply wp_mono; [by eapply read_coord_ok|].
  intros [res|[[[dd mm] m5] b]] s2 [? Hp]; wp_steps; [by destruct Hp; split_and!|].
  destruct Hp as (l&->&?). wp_steps. eapply wp_mono; [by eapply read_dir_ok|].
  intros [r ob] s3 (?&Ht&Hs). cbn in Ht, Hs. wp_steps. on_status r; [|by split_and!].
  destruct (Hs eq_refl) as (x&b&->). cbn [default].
  eapply wp_buf_get; [lia|reflexivity|]. wp_steps. by split_and!.
Qed.

Lemma tel0157_get_lat_ok p s : dev_ready t (tel_dev d) s →
  wp t (tel0157_get_lat d p)
    (λ r s', kept s s' ∧ tee_status r.1
       ∧ (lonMMMMM r.2 = lonMMMMM p ∧ lonDD r.2 = lonDD p ∧ lonMM r.2 = lonMM p
          ∧ lonDirection r.2 = lonDirection p)
       ∧ (r.1 = TEE_SUCCESS → is_Some (latMMMMM r.2) ∧ is_Some (latDD r.2)
            ∧ is_Some (latMM r.2) ∧ is_Some (latDirection r.2))) s.
Proof.
  intros Hr. apply (with_bus_ok p _ (λ r q, tee_status r
    ∧ (lonMMMMM q = lonMMMMM p ∧ lonDD q = lonDD p ∧ lonMM q = lonMM p
          ∧ lonDirection q = lonDirection p)
    ∧ (r = TEE_SUCCESS → is_Some (latMMMMM q) ∧ is_Some (latDD q)
            ∧ is_Some (latMM q) ∧ is_Some (latDirection q))));
    [done|by split_and!; [auto|..|discriminate]|].
  intros s1 Ho. unfold tel0157_get_lat_internal. wp_steps.
  eapply wp_mono; [by eapply read_coord_ok|].
  intros [res|[[[dd mm] m5] b]] s2 [? Hp]; wp_steps; [by destruct Hp; split_and!|].
  destruct Hp as (l&->&?). wp_steps. eapply wp_mono; [by eapply read_dir_ok|].
  intros [r ob] s3 (?&Ht&Hs). cbn in Ht, Hs. wp_steps. on_status r; [|by split_and!].
  destruct (Hs eq_refl) as (x&b&->). cbn [default].
  eapply wp_buf_get; [lia|reflexivity|]. wp_steps. by split_and!.
Qed.

(** The small getters. *)
Lemma reg_getter_ok reg n b s : dev_ready t (tel_dev d) s → 0 <= n < 2 ^ 16 → n <= blen b →
  wp t (with_bus d (Some b) (tel_rregs d reg (Some b) n))
    (λ r s', kept s s' ∧ read_post n b r) s.
Proof.
  intros Hr Hn Hb. eapply wp_mono.
  - apply (with_bus_ok (Some b) _ (λ r ob, read_post n b (r, ob))); [done| |].
    + split; [auto|]. exists b. split_and!; auto. discriminate.
    + intros s1 Ho. eapply wp_mono; [eapply own_read_regs; eauto|]. by intros [] ?.
  - by intros [] ?.
Qed.

Lemma tel0157_get_gnss_len_ok s : dev_ready t (tel_dev d) s →
  wp t (tel0157_get_gnss_len d)
    (λ r s', kept s s' ∧ tee_status r.1 ∧ (r.1 = TEE_SUCCESS ↔ is_Some r.2)
       ∧ ∀ v, r.2 = Some v → 0 <= v < 2 ^ 16) s.
Proof.
  intros Hr. pose (P := λ (r : Z) l, tee_status r ∧ (r = TEE_SUCCESS ↔ is_Some l)
    ∧ ∀ v, l = Some v → 0 <= v < 2 ^ 16).
  assert (∀ r, tee_status r → r ≠ TEE_SUCCESS → P r (@None Z)) as Herr
    by (intros; split_and!; [done|split; [done|by intros []]|done]).
  apply (with_bus_ok None _ P); [done|by apply Herr; [auto|]|].
  intros s1 Ho. unfold tel0157_get_gnss_len_internal. wp_steps.
  eapply wp_mono; [by eapply wreg_ok|]. intros r s2 [? ?]. on_status r; [|by eauto].
  eapply wp_mono; [by eapply own_udelay|]. intros ? s3 ?. wp_steps.
  eapply wp_mono; [eapply rregs_ok; eauto; lia|]. intros [r b] s4 (?&Ht&Hs). cbn in Ht, Hs.
  wp_steps. on_status r; [|by eauto].
  destruct (Hs eq_refl) as ([|b0 [|b1 [|]]]&->&?&_); try done.
  cbn [default]. get_bytes. cbn [fst snd]. split; [done|]. split_and!; [done|by split; eauto|]. intros v [= <-]. apply u16_range.
Qed.

(** *** The sentence download *)

Definition nz (x : Z) : Z := if x =? 0 then 10 else x.

Lemma nz_pos x : 0 <= x < 2 ^ 8 → 0 < nz x < 2 ^ 8.
Proof. unfold nz. destruct (Z.eqb_spec x 0); lia. Qed.

(** The first [n] bytes are text: filled and free of NULs. *)
Definition text (n : Z) (b b' : buf) : Prop :=
  ∃ l, length l = Z.to_nat n ∧ Forall (λ x, 0 < x < 2 ^ 8) l
       ∧ b' = bytes l ++ drop (Z.to_nat n) b.

Lemma replace_nul_ok l m rest s :
  wp t (replace_nul (bytes l ++ bytes m ++ rest) (Z.of_nat (length l)) (Z.of_nat (length m)))
    (λ b s', s' = s ∧ b = bytes l ++ bytes (nz <$> m) ++ rest) s.
Proof.
  unfold replace_nul. wp_steps. rewrite Nat2Z.id.
  apply (wp_for _ _ _ (λ j b s', s' = s ∧ b = bytes (l ++ (nz <$> take (Z.to_nat j) m))
    ++ bytes (drop (Z.to_nat j) m) ++ rest)).
  3:{ split; [done|]. change (Z.to_nat 0) with 0%nat. rewrite take_0, drop_0.
      cbn [fmap list_fmap]. by rewrite app_nil_r. }
  2:{ intros b s' [-> ->]. wp_steps. split; [done|]. rewrite Z.add_0_l, Nat2Z.id, take_ge, drop_ge by lia.
      unfold bytes. rewrite fmap_app. cbn. by rewrite app_assoc. }
  intros j b s' Hj [-> ->]. wp_steps.
  destruct (lookup_lt_is_Some_2 m (Z.to_nat j)) as [x Hx]; [lia|].
  set (pre := bytes (l ++ (nz <$> take (Z.to_nat j) m))).
  assert (length pre = Z.to_nat (Z.of_nat (length l) + j)) as Hpre.
  { unfold pre, bytes. rewrite length_fmap, length_app, length_fmap, length_take. lia. }
  rewrite (drop_S m x) by done. cbn [bytes fmap list_fmap app].
  apply (wp_buf_get _ _ _ x); [lia| |].
  { rewrite <- Hpre, lookup_app_r, Nat.sub_diag by done. done. }
  assert (bytes (l ++ (nz <$> take (Z.to_nat (j + 1)) m)) = pre ++ [Some (nz x)]) as Hnext.
  { replace (Z.to_nat (j + 1)) with (S (Z.to_nat j)) by lia.
    rewrite (take_S_r _ _ x), fmap_app by done. unfold pre, bytes.
    rewrite !fmap_app, <- app_assoc. done. }
  replace (drop (S (Z.to_nat j)) m) with (drop (Z.to_nat (j + 1)) m) by (f_equal; lia).
  wp_steps. unfold nz in Hnext at 2. destruct (x =? 0); wp_steps.
  - apply wp_buf_set.
    { unfold blen. rewrite length_app. cbn. lia. }
    wp_steps. split; [done|]. rewrite Hnext, <- Hpre.
    rewrite insert_app_r_alt, Nat.sub_diag by done. cbn. by rewrite <- app_assoc.
  - split; [done|]. rewrite Hnext, <- app_assoc. done.
Qed.

Lemma text_step off n b b' b1 : 0 <= off → 0 <= n → text off b b' →
  filled n (drop (Z.to_nat off) b') b1 →
  ∃ l m rest, take (Z.to_nat off) b' ++ b1 = bytes l ++ bytes m ++ rest
    ∧ Z.of_nat (length l) = off ∧ Z.of_nat (length m) = n
    ∧ text (off + n) b (bytes l ++ bytes (nz <$> m) ++ rest).
Proof.
  intros Hoff Hn (l&Hl&Hf&->) (m&Hm&Hfm&->).
  assert (length (bytes l) = Z.to_nat off) as Hlb by (unfold bytes; by rewrite length_fmap).
  exists l, m, (drop (Z.to_nat n) (drop (Z.to_nat off) (bytes l ++ drop (Z.to_nat off) b))).
  rewrite take_app_length', drop_app_length' by done. split_and!; [done|lia|lia|].
  exists (l ++ (nz <$> m)). split_and!.
  - rewrite length_app, length_fmap. lia.
  - apply Forall_app; split; [done|]. apply Forall_fmap. eapply Forall_impl; [done|].
    intros; by apply nz_pos.
  - unfold bytes. rewrite fmap_app, <- app_assoc, drop_drop. do 3 f_equal. lia.
Qed.

Lemma text_blen n b b' : 0 <= n <= blen b → text n b b' → blen b' = blen b.
Proof.
  unfold blen. intros Hn (l&Hl&_&->). unfold bytes.
  rewrite length_app, length_fmap, length_drop. lia.
Qed.

(** The blocks of 32 bytes cover the length exactly. *)
Lemma block_cover len i : 0 < len <= 1024 + 200 →
  let n := u8 ((len + block_size - 1) / block_size) in
  let cb := if (i =? n - 1) && negb (len mod block_size =? 0)
            then len mod block_size else block_size in
  0 <= i < n →
  0 < cb <= block_size ∧ block_size * i + cb = Z.min (block_size * (i + 1)) len
  ∧ block_size * i < len ∧ len <= block_size * n.
Proof.
  intros Hl n cb Hi. unfold block_size in *.
  assert (n = (len + 32 - 1) / 32) as Hn.
  { apply u8_id. split; [apply Z.div_pos; lia|apply Z.div_lt_upper_bound; lia]. }
  pose proof (Z.div_mod (len + 32 - 1) 32). pose proof (Z.mod_pos_bound (len + 32 - 1) 32).
  pose proof (Z.div_mod len 32). pose proof (Z.mod_pos_bound len 32).
  unfold cb. destruct (Z.eqb_spec i (n - 1)); destruct (Z.eqb_spec (len mod 32) 0); cbn; lia.
Qed.

Definition all_gnss_post (len : Z) (b : buf) (r : Z) (ob : option buf) : Prop :=
  tee_status r ∧ ∃ b1, ob = Some b1 ∧ blen b1 = blen b ∧ (r = TEE_SUCCESS → text len b b1).

Lemma tel0157_get_all_gnss_internal_ok b len s s1 :
  dev_ready t (tel_dev d) s → owns dev s s1 → 0 <= len < 2 ^ 16 → len <= blen b →
  wp t (tel0157_get_all_gnss_internal d (Some b) len)
    (λ r s2, owns dev s s2 ∧ all_gnss_post len b r.1 r.2) s1.
Proof.
  intros Hr Ho Hl Hb. unfold tel0157_get_all_gnss_internal.
  destruct ((1024 + 200 <? len) || (len =? 0)) eqn:Hc; wp_steps.
  { split; [done|]. split; [auto|]. exists b. split_and!; auto. discriminate. }
  bool_props. assert (0 < len <= 1024 + 200) as Hlen by lia.
  set (n := u8 ((len + block_size - 1) / block_size)).
  pose proof (u8_range ((len + block_size - 1) / block_size)) as Hn. fold n in Hn.
  apply (wp_for _ _ _ (λ i ob s2, owns dev s s2 ∧ ∃ b', ob = Some b'
    ∧ text (Z.min (block_size * i) len) b b')).
  3:{ split; [done|]. exists b. split; [done|]. rewrite Z.min_l by lia. by exists []. }
  2:{ rewrite Z2Nat.id by lia. intros ob s2 (?&b'&->&Ht). wp_steps. split; [done|].
      assert (0 < n) as Hpos.
      { unfold n, block_size. rewrite u8_id; [|split; [apply Z.div_pos|apply Z.div_lt_upper_bound]; lia].
        apply Z.div_str_pos. lia. }
      pose proof (block_cover len (n - 1) Hlen) as Hbc. cbn zeta in Hbc. fold n in Hbc.
      destruct Hbc as (_&_&_&?); [lia|].
      replace (Z.min (block_size * (0 + n)) len) with len in Ht by lia.
      split; [auto|]. exists b'. split_and!; auto. by apply (text_blen len); [lia|]. }
  rewrite Z2Nat.id by lia. intros i ob s2 Hi (Ho2&b'&->&Ht). cbn zeta.
  pose proof (block_cover len i Hlen) as Hbc. cbn zeta in Hbc. fold n in Hbc.
  destruct Hbc as (Hcb&Hnext&Hlt&_); [lia|]. fold n.
  set (cb := if (i =? n - 1) && negb (len mod block_size =? 0)
             then len mod block_size else block_size) in *. rewrite Z.min_l in Ht by lia.
  assert (blen b' = blen b) as Hbl by (apply (text_blen (block_size * i)); [unfold block_size in *; lia|done]).
  unfold tel0157_get_all_data_internal. wp_steps.
  eapply wp_mono; [by eapply own_write_byte|]. intros r s3 [? ?].
  assert (∀ s4 r b2, owns dev s s4 → tee_status r → r ≠ TEE_SUCCESS → blen b2 = blen b →
    owns dev s s4 ∧ all_gnss_post len b r (Some b2)) as Herr.
  { intros. split; [done|]. split; [done|]. by exists b2. }
  destruct (Z.eqb_spec r TEE_SUCCESS) as [->|Hne]; cbn [negb]; wp_steps.
  2:{ rewrite (proj2 (Z.eqb_neq r TEE_SUCCESS)) by done. cbn [negb]. wp_steps. by apply (Herr s3). }
  pose proof Hr as (?&?&?&?). unfold block_size in Hcb.
  eapply wp_mono; [apply (i2c_read_at_spec t dev); eauto with own; unfold block_size in *; lia|].
  intros [r ob] s4 (?&?&b1&Hob&Hbl1&Hs). cbn in Hob, Hs. subst ob. wp_steps.
  assert (owns dev s s4) by eauto with own. on_status r.
  - destruct (text_step (block_size * i) cb b b' b1) as (l&m&rest&->&Hll&Hlm&Ht2);
      [unfold block_size; lia|lia|done|by apply Hs|].
    rewrite <- Hll, <- Hlm. eapply wp_mono; [apply replace_nul_ok|].
    intros ? ? [-> ->]. wp_steps. rewrite <- Hnext. eauto.
  - apply (Herr s4); auto. unfold blen in *. rewrite length_app, length_take.
    unfold block_size in *. lia.
Qed.

(** A successful download leaves [len] bytes of NUL-free text, never writes
    outside them, and gives the bus back. *)
Lemma tel0157_get_all_gnss_ok b len s : dev_ready t (tel_dev d) s → 0 <= len < 2 ^ 16 →
  len <= blen b →
  wp t (tel0157_get_all_gnss d (Some b) len)
    (λ r s', kept s s' ∧ all_gnss_post len b r.1 r.2) s.
Proof.
  intros. apply (with_bus_ok (Some b) _ (all_gnss_post len b)); [done| |].
  - split; [auto|]. exists b. split_and!; auto. discriminate.
  - intros. by apply tel0157_get_all_gnss_internal_ok.
Qed.
End correctness.
