(* ===== verification/Dht.v ===== *)
(** * The DHT temperature and humidity sensors (core/drivers/dht/dht.c)

    A single-wire protocol bit-banged on a GPIO pin: start signal, 40 timed
    bits, checksum and the two data formats.  Every wait is bounded by a
    counter, so all operations terminate whatever the pin does. *)

From Stdlib Require Import ZArith Lia Bool.
From stdpp Require Import base tactics option list numbers gmap.
From S2P Require Import Prelude Platform Gpio.

Open Scope Z_scope.

Inductive dht_type_t := DHT11 | DHT11_2022 | DHT22 | DHT_other (v : Z).
Definition dht_type_of (v : Z) : dht_type_t :=
  match v with 0 => DHT11 | 1 => DHT11_2022 | 2 => DHT22 | _ => DHT_other v end.

Record dht_params_t := DhtParams { dht_pin : Z; dht_type : dht_type_t; dht_in_mode : gpio_mode_t }.
(** [dht_data_t]: both members are [uint16_t]. *)
Record dht_data_t := DhtData { humidity : Z; temperature : Z }.
Record dht_t := Dht { dht_params : dht_params_t; last_val : dht_data_t }.

Definition READ_THRESHOLD : Z := 40.
Definition SPIN_TIMEOUT_US : Z := 100.
Definition START_LOW_TIME : Z := 19 * 1000.
Definition POWER_WAIT_TIMEOUT : Z := 2 * 1000000.

Section driver.
Context `{Env}.

(** [while (level_test(gpio_get(pin)) && --time_out) {}]: [time_out] is a
    [uint16_t] that reaches 0 after at most [time_out] rounds. *)
Definition spin (pin : Z) (test : Z → bool) (time_out : Z) : D Z :=
  loop (S (Z.to_nat time_out))
    (λ t, g ← gpio_get pin;
          if test g then
            let t := u16 (t - 1) in
            if t =? 0 then mret (inr t) else mret (inl t)
          else mret (inr t))
    time_out.

Definition is_low (g : Z) : bool := negb (truth g).
Definition is_high (g : Z) : bool := truth g.

Definition _send_start_signal (p : dht_params_t) : D Z :=
  gpio_init (dht_pin p) GPIO_OUT;;
  gpio_set (dht_pin p) GPIO_LOW_LEVEL;;
  udelay START_LOW_TIME;;
  gpio_set (dht_pin p) GPIO_HIGH_LEVEL;;
  udelay 60;;
  gpio_init (dht_pin p) (dht_in_mode p);;
  g ← gpio_get (dht_pin p);
  if g =? gpio_level_code GPIO_LOW_LEVEL then
    time_out ← spin (dht_pin p) is_low SPIN_TIMEOUT_US;
    if time_out <=? 0 then mret TEE_ERROR_ITEM_NOT_FOUND else
    udelay 80;;
    mret TEE_SUCCESS
  else mret TEE_ERROR_ITEM_NOT_FOUND.

(** [pos = bit_pos++; if (bit) data[pos/8] |= 0x80 >> (pos % 8);] *)
Definition _bit_parse (data : list Z) (bit_pos bit : Z) : D (list Z * Z) :=
  let pos := bit_pos in
  data ← (if truth bit then
            x ← arr_get data (pos / 8);
            arr_set data (pos / 8) (u8 (Z.lor x (Z.shiftr 0x80 (pos mod 8))))
          else mret data);
  mret (data, i8 (bit_pos + 1)).

(** The locals of [_busy_wait_read]: [time_out], [data], [bit_pos]. *)
Definition _busy_wait_read (pin : Z) (data : list Z) : D (Z * list Z) :=
  loop 41
    (λ '(time_out, data, bit_pos),
       if bit_pos =? 40 then mret (inr (TEE_SUCCESS, data)) else
       time_out ← spin pin is_high time_out;
       if time_out <=? 0 then mret (inr (TEE_ERROR_TIMEOUT, data)) else
       time_out ← spin pin is_low SPIN_TIMEOUT_US;
       if time_out <=? 0 then mret (inr (TEE_ERROR_TIMEOUT, data)) else
       udelay READ_THRESHOLD;;
       g ← gpio_get pin;
       let bit := if g =? gpio_level_code GPIO_HIGH_LEVEL then 1 else 0 in
       '(data, bit_pos) ← _bit_parse data bit_pos bit;
       mret (inl (time_out, data, bit_pos)))
    (SPIN_TIMEOUT_US, data, 0).

(** Total on five-byte arrays; [nth] reads never default there. *)
Definition _validate_checksum (data : list Z) : Z :=
  let sum := u8 (u8 (u8 (u8 (nth 0 data 0) + nth 1 data 0) + nth 2 data 0) + nth 3 data 0) in
  if negb (sum =? nth 4 data 0) then TEE_ERROR_BAD_FORMAT else TEE_SUCCESS.

(** The switch of [_parse_raw_values]: the status and the new [last_val]. *)
Definition _parse_raw_values (ty : dht_type_t) (v : dht_data_t) (data : list Z) :
    Z * dht_data_t :=
  let d0 := nth 0 data 0 in let d1 := nth 1 data 0 in
  let d2 := nth 2 data 0 in let d3 := nth 3 data 0 in
  let finish (is_negative : bool) (v : dht_data_t) :=
    (TEE_SUCCESS, if is_negative then DhtData (humidity v) (u16 (- temperature v)) else v) in
  let dht11 (div10 : bool) :=
    let hum := u16 (d0 * 10 + d1) in
    let is_negative := truth (Z.land d3 0x80) in
    let d3 := Z.land d3 (unot 8 0x80) in
    let d3 := if div10 then d3 / 10 else d3 in
    if 10 <=? d3 then (TEE_ERROR_BAD_PARAMETERS, DhtData hum (temperature v))
    else finish is_negative (DhtData hum (u16 (d2 * 10 + d3))) in
  match ty with
  | DHT11 => dht11 false
  | DHT11_2022 => dht11 true
  | DHT22 =>
    let hum := u16 (i16 (Z.lor (Z.shiftl d0 8) d1)) in
    let is_negative := truth (Z.land d2 0x80) in
    let d2 := Z.land d2 (unot 8 0x80) in
    finish is_negative (DhtData hum (u16 (i16 (Z.lor (Z.shiftl d2 8) d3))))
  | DHT_other _ => (TEE_ERROR_NOT_SUPPORTED, v)
  end.

Definition dht_type_ok (ty : dht_type_t) : bool :=
  match ty with DHT_other _ => false | _ => true end.

(** [while ((gpio_get(pin) <= 0) && timeout--) udelay(1000);] *)
Definition power_wait (pin timeout : Z) : D Z :=
  loop (S (S (Z.to_nat timeout)))
    (λ t, g ← gpio_get pin;
          if g <=? 0 then
            if truth t then udelay 1000;; mret (inl (i16 (t - 1)))
            else mret (inr (i16 (t - 1)))
          else mret (inr t))
    timeout.

(** [while (_send_start_signal(dev) != TEE_SUCCESS && (timeout -= 19) > 0) {}] *)
Definition presence_wait (p : dht_params_t) (timeout : Z) : D Z :=
  loop (S (Z.to_nat timeout))
    (λ t, r ← _send_start_signal p;
          if negb (r =? TEE_SUCCESS) then
            let t := i16 (t - START_LOW_TIME / 1000) in
            if 0 <? t then mret (inl t) else mret (inr t)
          else mret (inr t))
    timeout.

Definition dht_init (dev : option dht_t) (params : option dht_params_t) :
    D (Z * option dht_t) :=
  match dev, params with
  | Some _, Some p =>
    if negb (dht_type_ok (dht_type p)) then mret (TEE_ERROR_BAD_PARAMETERS, dev) else
    let dev := Dht p (DhtData 0 0) in
    gpio_init (dht_pin p) GPIO_IN;;
    timeout ← power_wait (dht_pin p) (i16 (POWER_WAIT_TIMEOUT / 1000));
    if timeout <=? 0 then mret (TEE_ERROR_BAD_STATE, Some dev) else
    timeout ← presence_wait p timeout;
    if timeout <=? 0 then mret (TEE_ERROR_ITEM_NOT_FOUND, Some dev) else
    mret (TEE_SUCCESS, Some dev)
  | _, _ => mret (TEE_ERROR_BAD_PARAMETERS, dev)
  end.

(** The two outputs (temperature, humidity) are [int16_t]s, stored only on
    success. *)
Definition dht_read (dev : option dht_t) : D (Z * option dht_t * option (Z * Z)) :=
  match dev with
  | None => mret (TEE_ERROR_BAD_PARAMETERS, dev, None)
  | Some dv =>
    let p := dht_params dv in
    r ← _send_start_signal p;
    if negb (r =? TEE_SUCCESS) then mret (TEE_ERROR_ITEM_NOT_FOUND, dev, None) else
    '(r, data) ← _busy_wait_read (dht_pin p) [0; 0; 0; 0; 0];
    if negb (r =? TEE_SUCCESS) then mret (TEE_ERROR_ITEM_NOT_FOUND, dev, None) else
    if negb (_validate_checksum data =? TEE_SUCCESS) then
      mret (TEE_ERROR_BAD_FORMAT, dev, None)
    else
    let '(r, v) := _parse_raw_values (dht_type p) (last_val dv) data in
    let dev := Some (Dht p v) in
    if negb (r =? TEE_SUCCESS) then mret (r, dev, None) else
    mret (TEE_SUCCESS, dev, Some (i16 (temperature v), i16 (humidity v)))
  end.
End driver.
