(* ===== verification/DhtProofs.v ===== *)
(** * Correctness of the DHT driver

    All operations terminate; a reading is exactly the 40 levels sampled
    after each rising edge; the two data formats round-trip. *)

From Stdlib Require Import ZArith Lia Bool.
From stdpp Require Import base tactics option list numbers gmap.
From S2P Require Import Prelude Platform Gpio Dht.

Open Scope Z_scope.

(** ** The bits of a reading *)

(** Eight levels, most significant first; missing ones count as low. *)
Definition msb_byte (l : list bool) : Z :=
  foldl (λ acc b, 2 * acc + Z.b2z b) 0 (resize 8 false l).
Definition pack_byte (bits : list bool) (j : nat) : Z := msb_byte (take 8 (drop (8 * j) bits)).
Definition pack (bits : list bool) : list Z := pack_byte bits <$> seq 0 5.

Lemma msb_byte_snoc l b : (length l < 8)%nat →
  msb_byte (l ++ [b])
  = if b then Z.lor (msb_byte l) (Z.shiftr 0x80 (Z.of_nat (length l))) else msb_byte l.
Proof.
  intros Hl. do 8 (destruct l as [|[] l]; [destruct b; reflexivity|..]); cbn in Hl; lia.
Qed.

Lemma msb_byte_range l : (length l <= 8)%nat → 0 <= msb_byte l < 2 ^ 8.
Proof.
  intros Hl. do 8 (destruct l as [|[] l]; [cbn; lia|..]);
    (destruct l; [cbn; lia|cbn in Hl; lia]).
Qed.

Lemma pack_byte_other bits b j : j ≠ (length bits / 8)%nat →
  pack_byte (bits ++ [b]) j = pack_byte bits j.
Proof.
  intros Hj. unfold pack_byte.
  pose proof (Nat.div_mod (length bits) 8). pose proof (Nat.mod_upper_bound (length bits) 8).
  destruct (Nat.lt_ge_cases j (length bits / 8)).
  - rewrite drop_app_le, take_app_le; [done|rewrite length_drop; lia|lia].
  - rewrite !drop_ge; [done|lia|rewrite length_app; cbn; lia].
Qed.

Lemma pack_byte_last bits b :
  pack_byte (bits ++ [b]) (length bits / 8)
  = if b then Z.lor (pack_byte bits (length bits / 8))
                    (Z.shiftr 0x80 (Z.of_nat (length bits mod 8)))
    else pack_byte bits (length bits / 8).
Proof.
  unfold pack_byte.
  pose proof (Nat.div_mod (length bits) 8). pose proof (Nat.mod_upper_bound (length bits) 8).
  assert (length (drop (8 * (length bits / 8)) bits) = (length bits mod 8)%nat) as Hd
    by (rewrite length_drop; lia).
  rewrite drop_app_le, !take_ge by (rewrite ?length_app, ?Hd; cbn [length]; lia).
  rewrite msb_byte_snoc by lia. by rewrite Hd.
Qed.

Lemma pack_byte_range bits j : 0 <= pack_byte bits j < 2 ^ 8.
Proof. apply msb_byte_range. rewrite length_take. lia. Qed.

Lemma pack_snoc bits b : (length bits < 40)%nat →
  pack (bits ++ [b])
  = if b then <[(length bits / 8)%nat :=
                 Z.lor (pack_byte bits (length bits / 8))
                       (Z.shiftr 0x80 (Z.of_nat (length bits mod 8)))]> (pack bits)
    else pack bits.
Proof.
  intros Hl. assert (length bits / 8 < 5)%nat as Hq by (apply Nat.Div0.div_lt_upper_bound; lia).
  unfold pack. apply list_eq. intros j. destruct b.
  - destruct (decide (j = (length bits / 8)%nat)) as [->|Hne].
    + rewrite list_lookup_insert_eq by (rewrite length_fmap, length_seq; done).
      rewrite list_lookup_fmap, lookup_seq_lt by done. rewrite Nat.add_0_l.
      apply (f_equal Some), pack_byte_last.
    + rewrite list_lookup_insert_ne by done. rewrite !list_lookup_fmap.
      destruct (seq 0 5 !! j) as [k|] eqn:Hk; [|done]. apply lookup_seq in Hk as [-> _].
      rewrite Nat.add_0_l. by apply (f_equal Some), pack_byte_other.
  - rewrite !list_lookup_fmap. destruct (seq 0 5 !! j) as [k|] eqn:Hk; [|done].
    apply lookup_seq in Hk as [-> _]. rewrite Nat.add_0_l. apply (f_equal Some).
    destruct (decide (j = (length bits / 8)%nat)) as [->|]; [apply pack_byte_last|by apply pack_byte_other].
Qed.

Lemma pack_length bits : length (pack bits) = 5%nat.
Proof. reflexivity. Qed.

(** ** GPIO calls only add to the history *)
Section gpio.
Context `{Env}.

Ltac gpio_ext := repeat first
  [ wp_step
  | eapply wp_mono; [apply io_read_spec; lia|]; intros ? ? [-> _]
  | eapply wp_mono; [apply io_write_spec|]; intros ? ? ->
  | eapply wp_mono; [apply udelay_spec|]; intros ? ? -> ].

Lemma set_function_ext t pin f s :
  wp t (rpi3_set_gpio_pin_function pin f) (λ _ s', d_ext s s') s.
Proof.
  unfold rpi3_set_gpio_pin_function, get_base_address, io_clrsetbits32. gpio_ext. auto.
Qed.

Lemma pull_ext t pin u s : wp t (rpi3_ctrl_gpio_pull_up_down pin u) (λ _ s', d_ext s s') s.
Proof.
  unfold rpi3_ctrl_gpio_pull_up_down, rpi3_set_GPPUD, rpi3_set_GPPUDCLK, get_base_address,
    io_setbits32, io_clrbits32. destruct u; gpio_ext; auto 20.
Qed.

Lemma gpio_init_ext t pin mode s : wp t (gpio_init pin mode) (λ _ s', d_ext s s') s.
Proof.
  unfold gpio_init. destruct (_ <? _); [by wp_steps|].
  destruct mode; wp_steps; [eapply wp_mono; [apply set_function_ext|]; intros ? s1 ?..|done];
    wp_steps; try done.
  all: eapply wp_mono; [apply pull_ext|]; intros ? s2 ?; wp_steps; cbn beta in *; by etrans.
Qed.

Lemma gpio_set_ext t pin l s : wp t (gpio_set pin l) (λ _ s', d_ext s s') s.
Proof.
  unfold gpio_set. destruct (_ <? _); [by wp_steps|].
  unfold rpi3_set_gpio_pin_value, get_base_address, io_clrsetbits32. wp_steps.
  destruct l; gpio_ext; auto.
Qed.

(** A level read is one load of the pin's GPLEV word, or -1. *)
Lemma gpio_get_spec t pin s :
  wp t (gpio_get pin) (λ g s',
    (RPI3_MAX_PIN_NUM < pin ∧ g = -1 ∧ s' = s)
    ∨ (pin <= RPI3_MAX_PIN_NUM ∧ ∃ a v, s' = d_log (E_read 32 a v) s
         ∧ g = Z.b2z (Z.testbit v (RPI3_GPIO_SHIFT pin)))) s.
Proof.
  unfold gpio_get. destruct (Z.ltb_spec RPI3_MAX_PIN_NUM pin); wp_steps; [by left|].
  unfold rpi3_get_gpio_pin_value, get_base_address. wp_steps.
  eapply wp_mono; [apply io_read_spec; lia|]. intros v s1 [-> ?]. wp_steps. right.
  split; [done|]. eexists _, v. split; [done|].
  assert (0 <= RPI3_GPIO_SHIFT pin) by (apply Z.mod_pos_bound; done).
  rewrite BIT_test by done. by destruct (Z.testbit _ _).
Qed.

Lemma gpio_get_ext t pin s : wp t (gpio_get pin) (λ g s', d_ext s s' ∧ -1 <= g <= 1) s.
Proof.
  eapply wp_mono; [apply gpio_get_spec|].
  intros g s' [(_&->&->)|(_&a&v&->&->)]; [by split; [reflexivity|lia]|].
  split; [auto|]. destruct (Z.testbit _ _); cbn; lia.
Qed.
End gpio.

(** ** The waits and the start signal *)
Section protocol.
Context `{Env} (pin : Z).

(** The levels read 40 microseconds after a rising edge, oldest first. *)
Fixpoint samples (h : history) : list bool :=
  match h with
  | [] => []
  | e :: h' =>
    match e, h' with
    | E_read _ _ v, E_delay us :: _ =>
      if us =? READ_THRESHOLD then samples h' ++ [Z.testbit v (RPI3_GPIO_SHIFT pin)]
      else samples h'
    | _, _ => samples h'
    end
  end.

(** The last event is not the delay before a sample. *)
Definition settled (h : history) : Prop :=
  match h with E_delay us :: _ => us ≠ READ_THRESHOLD | _ => True end.

Lemma samples_read a v h : settled h → samples (E_read 32 a v :: h) = samples h.
Proof. destruct h as [|[] h]; cbn; try done. intros. by rewrite (proj2 (Z.eqb_neq _ _)). Qed.

(** A spin leaves the samples alone and ends with its counter in range. *)
Lemma spin_spec t test time_out s : 1 <= time_out < 2 ^ 16 → settled (d_trace s) →
  wp t (spin pin test time_out)
    (λ r s', d_ext s s' ∧ 0 <= r <= time_out ∧ settled (d_trace s')
             ∧ samples (d_trace s') = samples (d_trace s)) s.
Proof.
  intros Ht Hset. unfold spin.
  apply (wp_loop_gen _ _ _ (λ r s', d_ext s s' ∧ 1 <= r <= time_out ∧ settled (d_trace s')
             ∧ samples (d_trace s') = samples (d_trace s)) (λ r, r)).
  3:{ intros _. lia. }
  2:{ by split_and!; [|lia..| |]. }
  intros r s1 (He&Hr&Hs1&Hsm). split; [lia|]. wp_steps.
  eapply wp_mono; [apply gpio_get_spec|]. intros g s2 Hg.
  assert (d_ext s s2 ∧ settled (d_trace s2) ∧ samples (d_trace s2) = samples (d_trace s))
    as (?&?&?).
  { destruct Hg as [(_&_&->)|(_&a&v&->&_)]; [done|]. split_and!; [by auto|done|].
    cbn [d_trace d_log]. by rewrite samples_read. }
  destruct (test g); [|wp_steps; split_and!; auto; lia].
  rewrite u16_id by lia. destruct (Z.eqb_spec (r - 1) 0); wp_steps; split_and!; auto; lia.
Qed.

Lemma spin_ext t test time_out s : 1 <= time_out < 2 ^ 16 →
  wp t (spin pin test time_out) (λ r s', d_ext s s' ∧ 0 <= r <= time_out) s.
Proof.
  intros Ht. unfold spin.
  apply (wp_loop_gen _ _ _ (λ r s', d_ext s s' ∧ 1 <= r <= time_out) (λ r, r)).
  3:{ intros _. lia. }
  2:{ split; [done|lia]. }
  intros r s1 (He&Hr). split; [lia|]. wp_steps.
  eapply wp_mono; [apply gpio_get_ext|]. intros g s2 [? _].
  assert (d_ext s s2) by (by etrans).
  destruct (test g); [|wp_steps; split_and!; auto; lia].
  rewrite u16_id by lia. destruct (Z.eqb_spec (r - 1) 0); wp_steps; split_and!; auto; lia.
Qed.

End protocol.

Section reading.
Context `{Env}.

(** The start signal terminates; a success ends on its 80 microsecond pause. *)
Lemma send_start_spec t p s :
  wp t (_send_start_signal p)
    (λ r s', d_ext s s' ∧ (r = TEE_SUCCESS ∨ r = TEE_ERROR_ITEM_NOT_FOUND)
             ∧ (r = TEE_SUCCESS → settled (d_trace s') ∧ dht_pin p <= RPI3_MAX_PIN_NUM)) s.
Proof.
  unfold _send_start_signal. wp_steps.
  eapply wp_mono; [apply gpio_init_ext|]. intros ? s1 ?. wp_steps.
  eapply wp_mono; [apply gpio_set_ext|]. intros ? s2 ?. wp_steps.
  eapply wp_mono; [apply udelay_spec|]. intros ? ? ->. wp_steps.
  eapply wp_mono; [apply gpio_set_ext|]. intros ? s3 ?. wp_steps.
  eapply wp_mono; [apply udelay_spec|]. intros ? ? ->. wp_steps.
  eapply wp_mono; [apply gpio_init_ext|]. intros ? s4 ?. wp_steps.
  eapply wp_mono; [apply gpio_get_spec|]. intros g s5 Hg.
  assert (d_ext s s5 ∧ (g = 0 → dht_pin p <= RPI3_MAX_PIN_NUM)) as [He Hpin].
  { destruct Hg as [(_&->&->)|(?&ad&v&->&_)]; split; [d_ext_chain|done|d_ext_chain|done]. }
  destruct (Z.eqb_spec g (gpio_level_code GPIO_LOW_LEVEL)); wp_steps;
    [|split_and!; auto; discriminate].
  eapply wp_mono; [apply spin_ext; unfold SPIN_TIMEOUT_US; lia|]. intros r s6 [? _].
  destruct (r <=? 0); wp_steps; [split_and!; [by etrans|auto|discriminate]|].
  eapply wp_mono; [apply udelay_spec|]. intros ? ? ->. wp_steps.
  split_and!; [|by auto|by intros _; split; [cbn; unfold READ_THRESHOLD; lia|auto]].
  etrans; [|apply d_ext_log]. by etrans.
Qed.

(** One bit of the loop. *)
Lemma bit_parse_spec t bits b s : (length bits < 40)%nat →
  wp t (_bit_parse (pack bits) (Z.of_nat (length bits)) (Z.b2z b))
    (λ '(data, pos) s', s' = s ∧ data = pack (bits ++ [b])
       ∧ pos = Z.of_nat (length (bits ++ [b]))) s.
Proof.
  intros Hl. unfold _bit_parse. wp_steps.
  assert (i8 (Z.of_nat (length bits) + 1) = Z.of_nat (length (bits ++ [b]))) as Hpos.
  { rewrite length_app. cbn [length]. unfold i8, signed. change (2 ^ (8 - 1)) with 128.
    rewrite Z.mod_small; change (2 ^ 8) with 256; lia. }
  assert (Z.of_nat (length bits) / 8 = Z.of_nat (length bits / 8)) as ->
    by (by rewrite Nat2Z.inj_div).
  assert (Z.of_nat (length bits) mod 8 = Z.of_nat (length bits mod 8)) as ->
    by (by rewrite Nat2Z.inj_mod).
  destruct b; cbn [Z.b2z truth Z.eqb negb]; wp_steps.
  2:{ split_and!; auto. by rewrite pack_snoc. }
  assert (length bits / 8 < 5)%nat as Hq by (apply Nat.Div0.div_lt_upper_bound; lia).
  apply (wp_arr_get _ _ _ (pack_byte bits (length bits / 8))); [lia| |].
  { rewrite Nat2Z.id. unfold pack. by rewrite list_lookup_fmap, lookup_seq_lt. }
  apply wp_arr_set; [rewrite pack_length; lia|]. wp_steps. rewrite Nat2Z.id.
  split_and!; auto. rewrite pack_snoc by done. f_equal.
  apply u8_id. pose proof (pack_byte_last bits true) as Hb. cbn in Hb |- *. rewrite <- Hb.
  apply pack_byte_range.
Qed.

(** *** [_busy_wait_read]: 40 samples, or a timeout *)
Definition bits_inv (pin : Z) (s0 : dstate) (bits : list bool) (s : dstate) : Prop :=
  d_ext s0 s ∧ settled (d_trace s)
  ∧ samples pin (d_trace s) = samples pin (d_trace s0) ++ bits.

Definition read_ok (pin : Z) (s0 : dstate) (r : Z * list Z) (s : dstate) : Prop :=
  d_ext s0 s ∧ (r.1 = TEE_SUCCESS ∨ r.1 = TEE_ERROR_TIMEOUT)
  ∧ (r.1 = TEE_SUCCESS → ∃ bits, length bits = 40%nat ∧ r.2 = pack bits
       ∧ samples pin (d_trace s) = samples pin (d_trace s0) ++ bits).

(** The sample itself. *)
Lemma sample_spec t pin bits s0 s : pin <= RPI3_MAX_PIN_NUM → bits_inv pin s0 bits s →
  wp t (udelay READ_THRESHOLD;; gpio_get pin)
    (λ g s', ∃ b, g = Z.b2z b ∧ bits_inv pin s0 (bits ++ [b]) s') s.
Proof.
  intros Hp (He&Hset&Hs). wp_steps. eapply wp_mono; [apply udelay_spec|]. intros ? ? ->.
  eapply wp_mono; [apply gpio_get_spec|].
  intros g s2 [(?&_)|(_&ad&v&->&->)]; [lia|]. eexists; split; [done|]. split_and!; auto.
  - done.
  - cbn [d_trace d_log samples]. rewrite Z.eqb_refl. cbn [samples].
    by rewrite Hs, <- app_assoc.
Qed.

Lemma busy_wait_read_spec t pin s0 : pin <= RPI3_MAX_PIN_NUM → settled (d_trace s0) →
  wp t (_busy_wait_read pin [0; 0; 0; 0; 0]) (read_ok pin s0) s0.
Proof.
  intros Hp Hset. unfold _busy_wait_read.
  apply (wp_loop_gen _ _ _ (λ '(tmo, data, pos) s, 1 <= tmo <= 100 ∧ ∃ bits,
    bits_inv pin s0 bits s ∧ data = pack bits ∧ pos = Z.of_nat (length bits)
    ∧ (length bits <= 40)%nat) (λ '(_, _, pos), 40 - pos)).
  3:{ intros _. lia. }
  2:{ split; [unfold SPIN_TIMEOUT_US; lia|]. exists []. split_and!; [|done|done|cbn; lia].
      split_and!; auto. by rewrite app_nil_r. }
  intros [[tmo data] pos] s (Htmo&bits&HI&->&->&Hlen). split; [lia|].
  destruct HI as (He&Hst&Hs).
  destruct (Z.eqb_spec (Z.of_nat (length bits)) 40).
  { wp_steps. split_and!; auto. intros _. exists bits. split_and!; auto. lia. }
  wp_steps. eapply wp_mono; [apply (spin_spec pin); [lia|done]|].
  intros r s1 (?&Hr&Hst1&Hs1). destruct (Z.leb_spec r 0); wp_steps.
  { split_and!; [d_ext_chain|by right|discriminate]. }
  eapply wp_mono; [apply (spin_spec pin); [unfold SPIN_TIMEOUT_US; lia|done]|].
  intros r2 s2 (?&Hr2&Hst2&Hs2). destruct (Z.leb_spec r2 0); wp_steps.
  { split_and!; [d_ext_chain|by right|discriminate]. }
  assert (bits_inv pin s0 bits s2) as HI2.
  { split_and!; [d_ext_chain|done|]. by rewrite Hs2, Hs1. }
  eapply wp_mono; [exact (wp_bind_inv _ _ _ _ _ (sample_spec t pin bits s0 s2 Hp HI2))|]. intros ? ? Hw. wp_steps.
  eapply wp_mono; [exact Hw|].
  intros g s3 (b&->&HI3). wp_steps.
  assert ((if Z.b2z b =? gpio_level_code GPIO_HIGH_LEVEL then 1 else 0) = Z.b2z b) as ->
    by by destruct b.
  eapply wp_mono; [apply bit_parse_spec; lia|].
  intros [data' pos'] s4 (->&->&->). wp_steps.
  rewrite length_app. cbn [length]. unfold SPIN_TIMEOUT_US in *. split; [split; [lia|]|lia].
  exists (bits ++ [b]). rewrite length_app. cbn [length]. split_and!; auto; lia.
Qed.
End reading.

(** ** The data formats *)

(** The reading a frame stands for: temperature and humidity in tenths. *)
Definition dht_decode (ty : dht_type_t) (d0 d1 d2 d3 : Z) : option (Z * Z) :=
  let dht11 f :=
    if 10 <=? f then None
    else Some (if 128 <=? d3 then - (d2 * 10 + f) else d2 * 10 + f, d0 * 10 + d1) in
  match ty with
  | DHT11 => dht11 (d3 mod 128)
  | DHT11_2022 => dht11 (d3 mod 128 / 10)
  | DHT22 => let m := d2 mod 128 * 256 + d3 in
             Some (if 128 <=? d2 then - m else m, i16 (d0 * 256 + d1))
  | DHT_other _ => None
  end.

Lemma sign_bit d : 0 <= d < 2 ^ 8 → truth (Z.land d 0x80) = (128 <=? d).
Proof.
  intros Hd. apply eqb_prop.
  by apply (byte_forall (λ d, Bool.eqb (truth (Z.land d 0x80)) (128 <=? d))).
Qed.
Lemma clear_sign d : 0 <= d < 2 ^ 8 → Z.land d (unot 8 0x80) = d mod 128.
Proof. intros Hd. change (unot 8 0x80) with (Z.ones 7). by rewrite Z.land_ones. Qed.

Lemma i16_u16_neg m : 0 <= m < 2 ^ 15 → i16 (u16 (- m)) = - m.
Proof.
  intros Hm. unfold i16, signed, u16. change (2 ^ (16 - 1)) with 32768.
  change (2 ^ 16) with 65536. destruct (Z.eq_dec m 0) as [->|]; [done|].
  rewrite <- (Z.mod_add (- m) 1 65536), (Z.mod_small (- m + 1 * 65536)) by lia.
  replace (- m + 1 * 65536 + 32768) with (- m + 32768 + 1 * 65536) by lia.
  rewrite Z.mod_add, Z.mod_small; lia.
Qed.
Lemma i16_id x : - 2 ^ 15 <= x < 2 ^ 15 → i16 x = x.
Proof. intros. apply signed_id; change (2 ^ (16 - 1)) with (2 ^ 15); lia. Qed.
Lemma i16_u16 x : 0 <= x < 2 ^ 16 → i16 (u16 (i16 x)) = i16 x.
Proof.
  intros. unfold i16, signed, u16. change (2 ^ (16 - 1)) with 32768.
  change (2 ^ 16) with 65536. destruct (Z.lt_ge_cases x 32768).
  - rewrite (Z.mod_small (x + 32768)) by lia. rewrite (Z.mod_small (x + 32768 - 32768)) by lia.
    rewrite Z.mod_small; lia.
  - replace (x + 32768) with (x - 32768 + 1 * 65536) by lia.
    rewrite Z.mod_add, (Z.mod_small (x - 32768)) by lia.
    replace (x - 32768 - 32768) with (x + (-1) * 65536) by lia.
    rewrite Z.mod_add, (Z.mod_small x) by lia.
    replace (x + 32768) with (x - 32768 + 1 * 65536) by lia.
    rewrite Z.mod_add, Z.mod_small; lia.
Qed.

(** What [_parse_raw_values] computes, for every type and every frame. *)
Lemma parse_spec ty v d0 d1 d2 d3 d4 : Forall (λ x, 0 <= x < 2 ^ 8) [d0; d1; d2; d3] →
  let '(r, v') := _parse_raw_values ty v [d0; d1; d2; d3; d4] in
  match dht_decode ty d0 d1 d2 d3 with
  | Some (t, h) => r = TEE_SUCCESS ∧ i16 (temperature v') = t ∧ i16 (humidity v') = h
  | None => r = TEE_ERROR_BAD_PARAMETERS ∨ r = TEE_ERROR_NOT_SUPPORTED
  end.
Proof.
  rewrite !Forall_cons. intros (H0&H1&H2&H3&_).
  pose proof (Z.mod_pos_bound d3 128). pose proof (Z.mod_pos_bound d2 128).
  unfold _parse_raw_values, dht_decode. cbn [nth].
  rewrite sign_bit, (sign_bit d2), (clear_sign d3), (clear_sign d2) by done.
  assert (0 <= d3 mod 128 / 10) by (apply Z.div_pos; lia).
  destruct ty; [| | |by right].
  1: set (f := d3 mod 128) in *. 2: set (f := d3 mod 128 / 10) in *.
  1,2: destruct (Z.leb_spec 10 f); [by left|]; split; [done|];
    rewrite !(u16_id (d0 * 10 + d1)), !(u16_id (d2 * 10 + f)) by lia;
    destruct (128 <=? d3); cbn [temperature humidity];
    rewrite ?i16_u16_neg, !i16_id by lia; done.
  rewrite !lor_shiftl_add by (change (2 ^ 8) with 256 in *; lia).
  change (2 ^ 8) with 256 in *. rewrite (i16_id (d2 mod 128 * 256 + d3)) by lia.
  rewrite (u16_id (d2 mod 128 * 256 + d3)) by lia. split; [done|].
  destruct (128 <=? d2); cbn [temperature humidity];
    rewrite ?i16_u16_neg, i16_u16, ?(i16_id (d2 mod 128 * 256 + d3)) by lia; done.
Qed.

(** The frame a DHT22 sends for a temperature and a humidity. *)
Definition dht22_encode (t h : Z) : list Z :=
  let m := Z.abs t in
  let d := [h / 256; h mod 256; m / 256 + (if t <? 0 then 128 else 0); m mod 256] in
  d ++ [u8 (foldr Z.add 0 d)].

Lemma checksum_spec d0 d1 d2 d3 d4 : 
  _validate_checksum [d0; d1; d2; d3; d4] = TEE_SUCCESS ↔ u8 (d0 + d1 + d2 + d3) = d4.
Proof.
  unfold _validate_checksum. cbn [nth]. unfold u8.
  rewrite !Zplus_mod_idemp_l, <- !Z.add_assoc, !Zplus_mod_idemp_l, !Z.add_assoc.
  destruct (Z.eqb_spec ((d0 + d1 + d2 + d3) mod 2 ^ 8) d4); cbn [negb]; [split; auto|].
  split; [discriminate|done].
Qed.

Lemma dht22_encode_bytes t h : - 2 ^ 15 < t < 2 ^ 15 → 0 <= h < 2 ^ 15 →
  ∃ d0 d1 d2 d3, dht22_encode t h = [d0; d1; d2; d3; u8 (d0 + d1 + d2 + d3)]
    ∧ Forall (λ x, 0 <= x < 2 ^ 8) [d0; d1; d2; d3]
    ∧ dht_decode DHT22 d0 d1 d2 d3 = Some (t, h).
Proof.
  intros Ht Hh. change (2 ^ 15) with 32768 in *.
  set (m := Z.abs t). assert (0 <= m < 32768) as Hm by lia.
  pose proof (Z.div_mod h 256). pose proof (Z.mod_pos_bound h 256).
  pose proof (Z.div_mod m 256). pose proof (Z.mod_pos_bound m 256).
  assert (0 <= h / 256 < 128) by lia. assert (0 <= m / 256 < 128) by lia.
  set (c := m / 256 + (if t <? 0 then 128 else 0)).
  exists (h / 256), (h mod 256), c, (m mod 256). split_and!.
  - unfold dht22_encode. cbn [app foldr]. fold m. fold c.
    by replace (h / 256 + (h mod 256 + (c + (m mod 256 + 0))))
      with (h / 256 + h mod 256 + c + m mod 256) by lia.
  - change (2 ^ 8) with 256. unfold c. repeat constructor; try lia; destruct (t <? 0); lia.
  - unfold dht_decode, c. rewrite i16_id by (change (2 ^ 15) with 32768; lia). do 2 f_equal; [|lia].
    destruct (Z.ltb_spec t 0).
    + rewrite (proj2 (Z.leb_le 128 _)) by lia.
      replace (m / 256 + 128) with (m / 256 + 1 * 128) by lia.
      rewrite Z.mod_add, Z.mod_small by lia. lia.
    + rewrite (proj2 (Z.leb_gt 128 _)) by lia. rewrite Z.mod_small by lia. lia.
Qed.

(** ** The exported operations *)
Section exported.
Context `{Env}.

(** What a call to [dht_read] promises: it returns, the history only grows,
    and a success reports the decoding of 40 sampled bits whose checksum
    holds; on any failure no value is stored. *)
Definition dht_read_post (dv : dht_t) (s : dstate)
    (r : Z * option dht_t * option (Z * Z)) (s' : dstate) : Prop :=
  let pin := dht_pin (dht_params dv) in
  d_ext s s' ∧ match r with
  | (res, _, Some (t, h)) => res = TEE_SUCCESS ∧ ∃ s1 bits d0 d1 d2 d3,
      d_ext s s1 ∧ samples pin (d_trace s') = samples pin (d_trace s1) ++ bits
      ∧ length bits = 40%nat ∧ pack bits = [d0; d1; d2; d3; u8 (d0 + d1 + d2 + d3)]
      ∧ dht_decode (dht_type (dht_params dv)) d0 d1 d2 d3 = Some (t, h)
  | (res, _, None) => tee_status res ∧ res ≠ TEE_SUCCESS
  end.

Lemma dht_read_spec dv s : wp true (dht_read (Some dv)) (dht_read_post dv s) s.
Proof.
  unfold dht_read. set (p := dht_params dv). wp_steps.
  eapply wp_mono; [apply send_start_spec|]. intros r s1 (He1&Hr&Hsuc).
  destruct (Z.eqb_spec r TEE_SUCCESS) as [->|]; cbn [negb]; wp_steps.
  2:{ split; [done|]. split; [auto|discriminate]. }
  destruct Hsuc as [Hset Hpin]; [done|].
  eapply wp_mono; [by apply busy_wait_read_spec|]. intros [r data] s2 (He2&Hr2&Hs2).
  cbn [fst snd] in *. assert (d_ext s s2) by (by etrans). wp_steps.
  destruct (Z.eqb_spec r TEE_SUCCESS) as [->|]; cbn [negb]; wp_steps; [|by split; [|split; auto]].
  destruct (Hs2 eq_refl) as (bits&Hlen&->&Hsm).
  destruct (Z.eqb_spec (_validate_checksum (pack bits)) TEE_SUCCESS) as [Hck|]; cbn [negb];
    wp_steps; [|by split; [|split; auto]].
  assert (∃ d0 d1 d2 d3 d4, pack bits = [d0; d1; d2; d3; d4]
    ∧ Forall (λ x, 0 <= x < 2 ^ 8) [d0; d1; d2; d3]) as (d0&d1&d2&d3&d4&Hp&Hb).
  { unfold pack. cbn [seq fmap list_fmap]. do 5 eexists. split; [done|].
    repeat constructor; apply pack_byte_range. }
  rewrite Hp in Hck |- *. apply checksum_spec in Hck. subst d4.
  pose proof (parse_spec (dht_type p) (last_val dv) d0 d1 d2 d3 (u8 (d0 + d1 + d2 + d3)) Hb) as Hps.
  destruct (_parse_raw_values _ _ _) as [r v].
  destruct (dht_decode (dht_type p) d0 d1 d2 d3) as [[t h]|] eqn:Hdec.
  - destruct Hps as (->&<-&<-). cbn [negb Z.eqb]. rewrite Z.eqb_refl. wp_steps.
    split; [done|]. split; [done|]. exists s1, bits, d0, d1, d2, d3. by split_and!.
  - destruct (Z.eqb_spec r TEE_SUCCESS) as [->|]; cbn [negb]; wp_steps.
    + by destruct Hps.
    + split; [done|]. split; [|done]. destruct Hps as [->| ->]; auto.
Qed.

Lemma power_wait_spec pin timeout s : 0 <= timeout < 2 ^ 15 →
  wp true (power_wait pin timeout) (λ r s', d_ext s s' ∧ -1 <= r <= timeout) s.
Proof.
  intros Ht. unfold power_wait. change (2 ^ 15) with 32768 in *.
  apply (wp_loop_gen _ _ _ (λ r s', d_ext s s' ∧ 0 <= r <= timeout) (λ r, r)).
  3:{ intros _. lia. }
  2:{ split; [done|lia]. }
  intros r s1 (He&Hr). split; [lia|]. wp_steps.
  eapply wp_mono; [apply gpio_get_ext|]. intros g s2 [? _].
  assert (d_ext s s2) by (by etrans).
  destruct (g <=? 0); [|wp_steps; split; [done|lia]].
  rewrite i16_id by (change (2 ^ 15) with 32768; lia).
  destruct (truth r) eqn:Hz; unfold truth in Hz; bool_props; wp_steps; [|split; [done|lia]].
  eapply wp_mono; [apply udelay_spec|]. intros ? ? ->. wp_steps. split_and!; [auto|lia..].
Qed.

Lemma presence_wait_spec p timeout s : 0 < timeout < 2 ^ 15 →
  wp true (presence_wait p timeout) (λ r s', d_ext s s' ∧ -19 < r <= timeout) s.
Proof.
  intros Ht. unfold presence_wait. change (2 ^ 15) with 32768 in *.
  apply (wp_loop_gen _ _ _ (λ r s', d_ext s s' ∧ 0 < r <= timeout) (λ r, r)).
  3:{ intros _. lia. }
  2:{ split; [done|lia]. }
  intros r s1 (He&Hr). split; [lia|]. wp_steps.
  eapply wp_mono; [apply send_start_spec|]. intros res s2 (?&_&_).
  assert (d_ext s s2) by (by etrans).
  destruct (negb _); [|wp_steps; split; [done|lia]].
  change (START_LOW_TIME / 1000) with 19. rewrite i16_id by (change (2 ^ 15) with 32768; lia).
  destruct (Z.ltb_spec 0 (r - 19)); wp_steps; split_and!; auto; lia.
Qed.

(** [dht_init] always returns, with one of its four documented results, and
    a device that was accepted starts from zeroed values. *)
Lemma dht_init_spec dev p s :
  wp true (dht_init (Some dev) (Some p)) (λ r s', d_ext s s' ∧
    if dht_type_ok (dht_type p) then
      r.2 = Some (Dht p (DhtData 0 0))
      ∧ (r.1 = TEE_SUCCESS ∨ r.1 = TEE_ERROR_BAD_STATE ∨ r.1 = TEE_ERROR_ITEM_NOT_FOUND)
    else r = (TEE_ERROR_BAD_PARAMETERS, Some dev) ∧ s' = s) s.
Proof.
  unfold dht_init. destruct (dht_type_ok (dht_type p)); cbn [negb]; wp_steps; [|done].
  eapply wp_mono; [apply gpio_init_ext|]. intros ? s1 ?. wp_steps.
  eapply wp_mono; [apply power_wait_spec; by vm_compute|]. intros r s2 [? Hr].
  assert (d_ext s s2) by d_ext_chain.
  destruct (Z.leb_spec r 0); wp_steps; [by auto|].
  eapply wp_mono; [apply presence_wait_spec|].
  { change (i16 (POWER_WAIT_TIMEOUT / 1000)) with 2000 in Hr. lia. }
  intros r2 s3 [? _]. assert (d_ext s s3) by (by etrans).
  destruct (r2 <=? 0); wp_steps; by auto.
Qed.
End exported.
