(* ===== verification/SpiProofs.v ===== *)
(** * Correctness of the SPI driver

    The bytes each transfer sends and stores, the transfer-active bit on every
    path, and termination on a controller that is ready ([spi_ready]). *)

From Stdlib Require Import ZArith Lia Bool.
From stdpp Require Import base tactics option list numbers gmap.
From S2P Require Import Prelude Platform Gpio I2cProofs Spi.

Open Scope Z_scope.

(** ** The bit order *)

(** Reversal of the eight bits of a byte, the reference for the table. *)
Definition reverse8 (x : Z) : Z :=
  foldr (λ i acc, Z.lor acc (if Z.testbit x i then BIT (7 - i) else 0)) 0 (seqZ 0 8).

Definition ord (o x : Z) : Z := if o =? RPI3_SPI_BIT_ORDER_LSBFIRST then reverse8 x else x.

Lemma table_lookup x : 0 <= x < 2 ^ 8 →
  rpi3_byte_reverse_table !! Z.to_nat x = Some (reverse8 x).
Proof.
  intros Hx. pose proof (byte_forall (λ x, bool_decide
    (rpi3_byte_reverse_table !! Z.to_nat x = Some (reverse8 x))) ltac:(by vm_compute) x Hx) as Hf.
  by apply bool_decide_eq_true in Hf.
Qed.

Lemma reverse8_bits x i : 0 <= x < 2 ^ 8 → 0 <= i < 8 →
  Z.testbit (reverse8 x) i = Z.testbit x (7 - i).
Proof.
  intros Hx Hi. apply eqb_prop.
  pose proof (byte_forall (λ x, forallb (λ i, Bool.eqb (Z.testbit (reverse8 x) i)
    (Z.testbit x (7 - i))) (seqZ 0 8)) ltac:(by vm_compute) x Hx) as Hf.
  cbn beta in Hf. rewrite forallb_forall in Hf. apply Hf, list_elem_of_In, elem_of_seqZ. lia.
Qed.

Lemma reverse8_range x : 0 <= x < 2 ^ 8 → 0 <= reverse8 x < 2 ^ 8.
Proof.
  intros Hx. pose proof (byte_forall (λ x, (0 <=? reverse8 x) && (reverse8 x <? 256))
    ltac:(by vm_compute) x Hx) as Hf. cbn beta in Hf. bool_props. lia.
Qed.

Lemma reverse8_involutive x : 0 <= x < 2 ^ 8 → reverse8 (reverse8 x) = x.
Proof.
  intros Hx. apply Z.eqb_eq.
  by apply (byte_forall (λ x, reverse8 (reverse8 x) =? x) ltac:(by vm_compute)).
Qed.

Lemma ord_range o x : 0 <= x < 2 ^ 8 → 0 <= ord o x < 2 ^ 8.
Proof. intros. unfold ord. destruct (_ =? _); [by apply reverse8_range|done]. Qed.

Section order.
Context `{Env}.
Lemma correct_order_eq x s : 0 <= x < 2 ^ 8 →
  rpi3_correct_order x s = Ok (ord (d_bit_order s) x) s.
Proof.
  intros Hx. unfold rpi3_correct_order, ord, gets, mbind, M_bind, arr_get.
  destruct (_ =? _); [|done]. rewrite (proj2 (Z.leb_le 0 x)) by lia. by rewrite table_lookup.
Qed.
End order.

(** ** Registers of bus 0, the only bus *)

Definition spi_addr (s : dstate) (m : spi_member) : Z :=
  default 0 (d_spi_base s !! 0%nat) + spi_offset m.

Lemma spi_addr_ext s s' m : d_ext s s' → spi_addr s' m = spi_addr s m.
Proof. by intros [? ->]. Qed.

(** The transfer-active bit is clear in what was last stored to CS. *)
Definition ta_clear (s : dstate) : Prop :=
  ∃ v h, d_trace s = E_write 32 (spi_addr s SPI_CS) v :: h ∧ Z.testbit v 7 = false.

Section registers.
Context `{Env}.

Lemma spi_reg_eq m s : d_wf s → spi_reg m 0 s = Ok (spi_addr s m) s.
Proof.
  intros (_&Hl&_). unfold spi_reg, gets, mbind, M_bind, arr_get, spi_addr. cbn.
  destruct (d_spi_base s) as [|b [|]]; done.
Qed.

Lemma spi_read32_eq m s : d_wf s →
  let v := env_read (d_trace s) 32 (spi_addr s m) mod 2 ^ 32 in
  spi_read32 m 0 s = Ok v (d_log (E_read 32 (spi_addr s m) v) s).
Proof. intros Hw v. unfold spi_read32, mbind, M_bind. by rewrite spi_reg_eq. Qed.

Lemma spi_write32_eq m v s : d_wf s →
  spi_write32 m 0 v s = Ok tt (d_log (E_write 32 (spi_addr s m) (u32 v)) s).
Proof. intros Hw. unfold spi_write32, mbind, M_bind. by rewrite spi_reg_eq. Qed.

(** Read-modify-write of CS: one load, one store, and what is stored. *)
Lemma spi_setbits_spec t value mask s : d_wf s →
  wp t (spi_setbits 0 value mask) (λ _ s', ∃ x,
    s' = d_log (E_write 32 (spi_addr s SPI_CS)
                  (u32 (Z.lor (Z.land x (unot 32 mask)) (Z.land value mask))))
           (d_log (E_read 32 (spi_addr s SPI_CS) x) s)) s.
Proof.
  intros Hw. unfold spi_setbits. wp_steps. unfold wp at 1. rewrite spi_reg_eq by done.
  wp_steps. by eexists.
Qed.

Lemma spi_clear_ta t s : d_wf s →
  wp t (spi_setbits 0 0 SPI_CS_TA) (λ _ s', d_ext s s' ∧ ta_clear s'
    ∧ writes_to (spi_addr s SPI_FIFO) (d_trace s') = writes_to (spi_addr s SPI_FIFO) (d_trace s)
    ∧ reads_from (spi_addr s SPI_FIFO) (d_trace s') = reads_from (spi_addr s SPI_FIFO) (d_trace s)) s.
Proof.
  intros Hw. eapply wp_mono; [by apply spi_setbits_spec|]. intros _ s' [x ->].
  assert ((spi_addr s SPI_CS =? spi_addr s SPI_FIFO) = false) as Hne
    by (apply Z.eqb_neq; unfold spi_addr; cbn; lia).
  split_and!; [by auto| | |].
  - eexists _, _. split; [done|]. unfold u32. rewrite mod_bits by lia.
    rewrite Z.lor_spec, !Z.land_spec, unot_spec by lia. cbn.
    by rewrite andb_false_r.
  - cbn. rewrite Hne. by rewrite !app_nil_r.
  - cbn. rewrite Hne. by rewrite !app_nil_r.
Qed.

Lemma spi_clrsetbits_ext t c v s : d_wf s →
  wp t (spi_clrsetbits SPI_CS 0 c v) (λ _ s', ∃ x y,
    s' = d_log (E_write 32 (spi_addr s SPI_CS) y) (d_log (E_read 32 (spi_addr s SPI_CS) x) s)) s.
Proof.
  intros Hw. unfold spi_clrsetbits, io_clrsetbits32. wp_steps. unfold wp at 1.
  rewrite spi_reg_eq by done. wp_steps. by eexists _, _.
Qed.
End registers.

Lemma d_ext_order s s' : d_ext s s' → d_bit_order s' = d_bit_order s.
Proof. by intros [evs ->]. Qed.

(** ** The transfer loops *)

(** A device whose status always says ready, and enough fuel for the bytes:
    what the total reading of the theorems needs. *)
Definition spi_ready `{Env} (a n : Z) : Prop :=
  (∀ h b, b ∈ [SPI_CS_TXD; SPI_CS_RXD; SPI_CS_DONE] →
     spi_flag (env_read h 32 a mod 2 ^ 32) b = true)
  ∧ n + 1 < Z.of_nat env_fuel.

(** [y] is the device's answer at a moment when the bytes written so far
    satisfy [P]. *)
Definition answered `{Env} (o fifo : Z) (P : list Z → Prop) (y : Z) : Prop :=
  ∃ h, P (writes_to fifo h) ∧ y = ord o (u8 (env_read h 32 fifo mod 2 ^ 32)).

Section transfer.
Context `{Env} (t : bool).
Context (out : buf) (data : list Z) (b0 : buf) (n_in : Z) (s0 : dstate).
Context (Hwf : d_wf s0).
Context (Hout : take (length data) out = bytes data).
Context (Hbytes : Forall (λ x, 0 <= x < 2 ^ 8) data).
Context (Hdl : Z.of_nat (length data) < 2 ^ 32) (Hin : 0 <= n_in < 2 ^ 32).
Context (Hb0 : n_in <= blen b0).
Context (Hrdy : t = true → spi_ready (spi_addr s0 SPI_CS) (Z.max (Z.of_nat (length data)) n_in)).

Local Abbreviation o := (d_bit_order s0).
Local Abbreviation n_out := (Z.of_nat (length data)).
Local Abbreviation fifo := (spi_addr s0 SPI_FIFO).
Local Abbreviation cs := (spi_addr s0 SPI_CS).

(** [sent] bytes of the data are in the TX FIFO; [got] came from the RX FIFO
    and is what the buffer [b] holds. *)
Definition xf (sent : Z) (got : list Z) (b : buf) (s : dstate) : Prop :=
  d_ext s0 s ∧ (0 <= sent <= n_out ∧ Z.of_nat (length got) <= n_in)
  ∧ writes_to fifo (d_trace s) = writes_to fifo (d_trace s0) ++ (ord o <$> take (Z.to_nat sent) data)
  ∧ (λ w, ord o (u8 w)) <$> reads_from fifo (d_trace s)
    = ((λ w, ord o (u8 w)) <$> reads_from fifo (d_trace s0)) ++ got
  ∧ b = bytes got ++ drop (length got) b0
  ∧ Forall (answered o fifo (λ l, ∃ k, l = writes_to fifo (d_trace s0) ++ (ord o <$> take k data))) got.

Definition silent (e : event) : Prop := write_of fifo e = [] ∧ read_of fifo e = [].

Lemma silent_cs e : (∃ w v, e = E_read w cs v) ∨ (∃ w v, e = E_write w cs v)
  ∨ (∃ a b, e = E_time a b) → silent e.
Proof.
  assert ((cs =? fifo) = false) as Hne by (apply Z.eqb_neq; unfold spi_addr; cbn; lia).
  intros [(w&v&->)|[(w&v&->)|(a&b&->)]]; split; cbn; rewrite ?Hne; done.
Qed.

Lemma xf_log e sent got b s : xf sent got b s → silent e → xf sent got b (d_log e s).
Proof.
  intros (?&?&Hw&Hr&?&?) [He1 He2]. split_and!; auto; try tauto; cbn [d_trace d_log].
  - by rewrite writes_to_skip.
  - by rewrite reads_from_skip.
Qed.

Lemma xf_start : xf 0 [] b0 s0.
Proof using Hin.
  split; [done|]. split; [cbn; lia|]. split; [|split; [by rewrite app_nil_r|by split]].
  change (Z.to_nat 0) with 0%nat. by rewrite take_0, app_nil_r.
Qed.

Lemma xf_wf sent got b s : xf sent got b s → d_wf s.
Proof using Hwf. intros (?&_). eauto. Qed.

Lemma xf_time sent got b s : xf sent got b s →
  wp t tee_time_get_sys_time (λ _ s', xf sent got b s') s.
Proof.
  intros HI. eapply wp_mono; [apply tee_time_spec|]. intros x s' ->.
  apply xf_log; [done|]. apply silent_cs. by eauto 6.
Qed.

(** Polling CS: a ready device answers with the bit set. *)
Lemma xf_status bit sent got b s :
  bit ∈ [SPI_CS_TXD; SPI_CS_RXD; SPI_CS_DONE] → xf sent got b s →
  wp t (spi_read32 SPI_CS 0) (λ st s', xf sent got b s' ∧ (t = true → spi_flag st bit = true)) s.
Proof using All.
  intros Hbit HI. unfold wp. rewrite spi_read32_eq by (by eapply xf_wf).
  rewrite (spi_addr_ext s0) by apply HI. split.
  - apply xf_log; [done|]. apply silent_cs. by eauto 6.
  - intros Ht. by apply (Hrdy Ht).
Qed.

Lemma xf_send sent got b s : xf sent got b s → sent < n_out →
  ∃ x, buf_get out sent s = Ok x s ∧ 0 <= x < 2 ^ 8
    ∧ xf (u32 (sent + 1)) got b (d_log (E_write 32 fifo (u32 (ord o x))) s).
Proof using All.
  intros (?&[? ?]&Hw&Hr&?&?) Hlt.
  destruct (lookup_lt_is_Some_2 data (Z.to_nat sent)) as [x Hx]; [lia|].
  pose proof (proj1 (Forall_lookup _ _) Hbytes _ _ Hx) as Hxr. cbn in Hxr.
  exists x. split_and!; [by apply (yields_buf out data); auto; lia|lia|lia|].
  rewrite u32_id by lia. split_and!; auto; try lia.
  - cbn [d_trace d_log writes_to]. rewrite write_of_same, Hw, <- app_assoc.
    replace (Z.to_nat (sent + 1)) with (S (Z.to_nat sent)) by lia.
    rewrite (take_S_r _ _ x), fmap_app by done. do 2 f_equal. cbn. f_equal.
    apply u32_id. pose proof (ord_range o x ltac:(lia)). lia.
  - cbn [d_trace d_log]. by rewrite reads_from_skip.
Qed.

Lemma xf_recv sent got b s : xf sent got b s → Z.of_nat (length got) < n_in →
  let w := env_read (d_trace s) 32 fifo mod 2 ^ 32 in
  let y := ord o (u8 w) in
  0 <= Z.of_nat (length got) < blen b
  ∧ xf sent (got ++ [y]) (<[length got := Some y]> b) (d_log (E_read 32 fifo w) s).
Proof using All.
  intros (?&[? ?]&Hw&Hr&->&Ha) Hlt w y. unfold blen in *. split.
  { unfold bytes. rewrite length_app, length_fmap, length_drop. lia. }
  split_and!; auto; try lia; try tauto.
  - rewrite length_app. cbn. lia.
  - cbn [d_trace d_log]. by rewrite writes_to_skip.
  - cbn [d_trace d_log reads_from]. unfold read_of at 1.
    rewrite Z.eqb_refl, fmap_app, Hr, <- app_assoc. done.
  - apply insert_after_prefix. lia.
  - apply Forall_app. split; [done|]. apply Forall_singleton. exists (d_trace s).
    split; [by exists (Z.to_nat sent)|done].
Qed.

Lemma spi_tx_spec sent st got b s : xf sent got b s →
  wp t (spi_tx 0 out n_out (sent, st))
    (λ v s', xf v.1 got b s' ∧ (t = true → v.1 = n_out)) s.
Proof using All.
  intros HI. unfold spi_tx.
  apply (wp_while_if _ _ _ _ (λ v s', xf v.1 got b s') (λ v _, n_out - v.1)); [|done|].
  2:{ intros Ht. destruct (Hrdy Ht) as [_ ?], HI as (_&[? _]&_). cbn. lia. }
  clear sent st s HI. intros [sent st] s HI. cbn [fst snd] in HI |- *.
  pose proof HI as (?&[? ?]&_). split; [lia|]. wp_steps.
  eapply wp_mono; [apply (xf_status SPI_CS_TXD); [set_solver|done]|].
  intros x s1 [HI1 Hx]. wp_steps. destruct (spi_flag x SPI_CS_TXD); cbn [andb].
  2:{ split; [done|]. intros Ht. by specialize (Hx Ht). }
  destruct (Z.ltb_spec sent n_out); [|by split; [done|lia]].
  destruct (xf_send _ _ _ _ HI1) as (d&Hd&?&HI2); [done|].
  wp_steps. unfold wp at 1. rewrite Hd. wp_steps. unfold wp at 1.
  rewrite correct_order_eq by lia. wp_steps. unfold wp at 1.
  rewrite spi_write32_eq by (by eapply xf_wf).
  rewrite (spi_addr_ext s0) by apply HI1.
  assert (d_bit_order s1 = o) as -> by (destruct HI1 as ([evs ->]&_); done).
  wp_steps. eapply wp_mono; [by apply xf_time|]. intros x' s3 ?. wp_steps. cbn [fst].
  split; [done|]. intros _. rewrite u32_id; lia.
Qed.

Lemma spi_rx_spec sent got b s st : xf sent got b s →
  wp t (spi_rx 0 n_in (b, Z.of_nat (length got), st))
    (λ v s', ∃ got', xf sent got' v.1.1 s' ∧ v.1.2 = Z.of_nat (length got')
       ∧ (t = true → v.1.2 = n_in)) s.
Proof using All.
  intros HI. unfold spi_rx.
  apply (wp_while_if _ _ _ _ (λ v s', ∃ got', xf sent got' v.1.1 s'
    ∧ v.1.2 = Z.of_nat (length got')) (λ v _, n_in - v.1.2)); [|by eauto|].
  2:{ intros Ht. destruct (Hrdy Ht) as [_ ?]. cbn [fst snd]. lia. }
  clear got b s st HI. intros [[b rcv] st] s (got&HI&Hrcv). cbn [fst snd] in HI, Hrcv |- *. subst rcv.
  pose proof HI as (?&[? ?]&_). split; [lia|]. wp_steps.
  eapply wp_mono; [apply (xf_status SPI_CS_RXD); [set_solver|done]|].
  intros x s1 [HI1 Hx]. wp_steps. destruct (spi_flag x SPI_CS_RXD); cbn [andb].
  2:{ exists got. split_and!; auto. intros Ht. by specialize (Hx Ht). }
  destruct (Z.ltb_spec (Z.of_nat (length got)) n_in).
  2:{ exists got. split_and!; auto. lia. }
  wp_steps. unfold wp at 1. rewrite spi_read32_eq by (by eapply xf_wf).
  rewrite (spi_addr_ext s0) by apply HI1. set (w := _ mod _).
  destruct (xf_recv _ _ _ _ HI1) as [? HI2]; [done|]. fold w in HI2.
  wp_steps. unfold wp at 1. rewrite correct_order_eq by apply u8_range.
  assert (d_bit_order (d_log (E_read 32 fifo w) s1) = o) as ->
    by (destruct HI1 as ([evs ->]&_); done).
  wp_steps. apply wp_buf_set; [done|]. rewrite Nat2Z.id. wp_steps.
  eapply wp_mono; [by eapply xf_time|]. intros x' s3 HI3. wp_steps. cbn [fst snd].
  rewrite u32_id by lia. split; [|lia].
  eexists; split; [exact HI3|]. rewrite length_app. cbn [length]. lia.
Qed.

Lemma xf_clear_ta sent got b s : xf sent got b s →
  wp t (spi_setbits 0 0 SPI_CS_TA) (λ _ s', xf sent got b s' ∧ ta_clear s') s.
Proof using Hin Hwf.
  intros HI. eapply wp_mono; [apply spi_clear_ta; by eapply xf_wf|].
  intros ? s' (He&Hta&Hw&Hr). destruct HI as (He0&?&Hw0&Hr0&?&?).
  rewrite (spi_addr_ext s0 s) in Hw, Hr by done.
  split; [|done]. split_and!; [by etrans|tauto..| | |done|done]; congruence.
Qed.

Lemma spi_wait_spec bit limit sent got b s :
  bit ∈ [SPI_CS_TXD; SPI_CS_RXD; SPI_CS_DONE] → xf sent got b s →
  wp t (spi_wait 0 bit limit) (λ ok s', xf sent got b s' ∧ (ok = false → ta_clear s')) s.
Proof using All.
  intros Hbit HI. unfold spi_wait, do_while. wp_steps.
  eapply wp_mono; [by eapply xf_time|]. intros st s1 HI1. wp_steps. cbn beta in HI1.
  apply (wp_loop_if _ _ _ (λ _ s', xf sent got b s') (λ _ _, 0)); [|done|].
  2:{ intros Ht. destruct (Hrdy Ht) as [_ ?]. lia. }
  clear s HI s1 HI1. intros _ s HI. split; [done|]. wp_steps.
  eapply wp_mono; [by apply (xf_status bit)|]. intros x s1 [HI1 Hx]. wp_steps.
  eapply wp_mono; [by eapply xf_time|]. intros e s2 HI2. cbn beta in HI2. wp_steps.
  destruct (spi_flag x bit) eqn:Hf; cbn [negb andb].
  2:{ destruct (_ <=? _); wp_steps; [split; [done|intros Ht; by specialize (Hx Ht)]|].
      destruct (_ <? _); wp_steps; [|by split].
      eapply wp_mono; [by apply xf_clear_ta|]. intros ? s3 [? ?]. by wp_steps. }
  wp_steps. destruct (_ <? _); wp_steps; [|by split].
  eapply wp_mono; [by apply xf_clear_ta|]. intros ? s3 [? ?]. by wp_steps.
Qed.

Lemma spi_finish_spec limit st en dl sent got b s : xf sent got b s →
  wp t (spi_finish 0 limit st en dl)
    (λ ok s', xf sent got b s' ∧ (ok = false → ta_clear s') ∧ (ok = true → elapsed st en <= limit)) s.
Proof using All.
  intros HI. unfold spi_finish. destruct (Z.ltb_spec limit (elapsed st en)); wp_steps.
  - eapply wp_mono; [by apply xf_clear_ta|]. intros ? s3 [? ?]. by wp_steps.
  - eapply wp_mono; [apply spi_wait_spec; [set_solver|done]|]. intros ok s' [? ?]. by auto.
Qed.

(** What the data phase leaves: [ok = false] is a timeout with TA cleared;
    [ok = true] means everything asked for was moved. *)
Lemma spi_both_spec : wp t (spi_both 0 out b0 n_out n_in)
  (λ '(ok, b) s', ∃ sent got, xf sent got b s' ∧ (ok = false → ta_clear s')
     ∧ (ok = true → sent = n_out ∧ Z.of_nat (length got) = n_in)) s0.
Proof using All.
  pose proof xf_start as HI.
  unfold spi_both. wp_steps. eapply wp_mono; [by eapply xf_time|]. intros st s1 HI1. wp_steps. cbn beta in HI1.
  eapply wp_mono; [by eapply xf_time|]. intros en s2 HI2. wp_steps. cbn beta in HI2.
  apply (wp_while_if _ _ _ _ (λ '(sent, b, rcv, _, _) s', ∃ got, xf sent got b s'
    ∧ rcv = Z.of_nat (length got))
    (λ '(sent, _, rcv, _, _) _, if (sent <? n_out) || (rcv <? n_in) then 1 else 0)).
  3:{ intros Ht. destruct (Hrdy Ht) as [_ ?]. destruct (_ || _); lia. }
  2:{ by exists []. }
  clear st s1 HI1 en s2 HI2 HI. intros [[[[sent b] rcv] st] en] s (got&HI&->).
  pose proof HI as (?&[? ?]&_). split; [destruct (_ || _); lia|]. wp_steps.
  destruct ((sent <? n_out) || (Z.of_nat (length got) <? n_in)) eqn:Hgo; cbn [andb].
  - destruct (elapsed st en <=? SPI_WAIT_TXD_US) eqn:Hel; wp_steps.
    + eapply wp_mono; [by eapply spi_tx_spec|]. intros [sent2 st2] s1 [HI1 Hs].
      cbn [fst] in HI1, Hs. wp_steps. eapply wp_mono; [by eapply spi_rx_spec|].
      intros [[b2 rcv2] st3] s2 (got2&HI2&Hr2&Hr). cbn [fst snd] in HI2, Hr2, Hr. wp_steps.
      eapply wp_mono; [by eapply xf_time|]. intros en2 s3 HI3. wp_steps. subst rcv2.
      split; [by exists got2; split; [exact HI3|]|]. intros Ht. rewrite (Hs Ht), (Hr Ht), !Z.ltb_irrefl. cbn. lia.
    + bool_props. eapply wp_mono; [by eapply spi_finish_spec|].
      intros ok s1 (?&?&Hok). wp_steps. exists sent, got. split_and!; auto.
      intros E. specialize (Hok E). lia.
  - bool_props. wp_steps. eapply wp_mono; [by eapply spi_finish_spec|].
    intros ok s1 (?&?&_). wp_steps. exists sent, got. split_and!; auto. lia.
Qed.

Lemma spi_send_spec : wp t (spi_send 0 out n_out)
  (λ ok s', ∃ sent, xf sent [] b0 s' ∧ (ok = false → ta_clear s')
     ∧ (ok = true → sent = n_out)) s0.
Proof using All.
  pose proof xf_start as HI.
  unfold spi_send. wp_steps. eapply wp_mono; [by eapply xf_time|]. intros st s1 HI1. wp_steps. cbn beta in HI1.
  eapply wp_mono; [by eapply xf_time|]. intros en s2 HI2. wp_steps. cbn beta in HI2.
  apply (wp_while_if _ _ _ _ (λ '(sent, _, _) s', xf sent [] b0 s')
    (λ '(sent, _, _) _, if sent <? n_out then 1 else 0)); [|done|].
  2:{ intros Ht. destruct (Hrdy Ht) as [_ ?]. destruct (_ <? _); lia. }
  clear st s1 HI1 en s2 HI2 HI. intros [[sent st] en] s HI.
  pose proof HI as (?&[? ?]&_). split; [destruct (_ <? _); lia|]. wp_steps.
  destruct (Z.ltb_spec sent n_out); cbn [andb].
  - destruct (elapsed st en <=? SPI_WAIT_TXD_US) eqn:Hel; wp_steps.
    + eapply wp_mono; [by eapply spi_tx_spec|]. intros [sent2 st2] s1 [HI1 Hs].
      cbn [fst] in HI1, Hs. wp_steps.
      eapply wp_mono; [by eapply xf_time|]. intros en2 s3 HI3. wp_steps.
      split; [done|]. intros Ht. rewrite (Hs Ht), Z.ltb_irrefl. lia.
    + bool_props. eapply wp_mono; [by eapply spi_finish_spec|].
      intros ok s1 (?&?&Hok). exists sent. split_and!; auto.
      intros E. specialize (Hok E). lia.
  - wp_steps. eapply wp_mono; [by eapply spi_finish_spec|].
    intros ok s1 (?&?&_). exists sent. split_and!; auto. lia.
Qed.

Lemma spi_recv_spec : wp t (spi_recv 0 b0 n_in)
  (λ '(ok, b) s', ∃ got, xf 0 got b s' ∧ (ok = false → ta_clear s')
     ∧ (ok = true → Z.of_nat (length got) = n_in)) s0.
Proof using All.
  pose proof xf_start as HI.
  unfold spi_recv. wp_steps. eapply wp_mono; [by eapply xf_time|]. intros st s1 HI1. wp_steps. cbn beta in HI1.
  eapply wp_mono; [by eapply xf_time|]. intros en s2 HI2. wp_steps. cbn beta in HI2.
  apply (wp_while_if _ _ _ _ (λ '(b, rcv, _, _) s', ∃ got, xf 0 got b s'
    ∧ rcv = Z.of_nat (length got)) (λ '(_, rcv, _, _) _, if rcv <? n_in then 1 else 0)).
  3:{ intros Ht. destruct (Hrdy Ht) as [_ ?]. destruct (_ <? _); lia. }
  2:{ by exists []. }
  clear st s1 HI1 en s2 HI2 HI. intros [[[b rcv] st] en] s (got&HI&->).
  pose proof HI as (?&[? ?]&_). split; [destruct (_ <? _); lia|]. wp_steps.
  destruct (Z.ltb_spec (Z.of_nat (length got)) n_in); cbn [andb].
  - destruct (elapsed st en <=? SPI_WAIT_RXD_US) eqn:Hel; wp_steps.
    + eapply wp_mono; [by eapply spi_rx_spec|].
      intros [[b2 rcv2] st3] s2 (got2&HI2&Hr2&Hr). cbn [fst snd] in HI2, Hr2, Hr. wp_steps.
      eapply wp_mono; [by eapply xf_time|]. intros en2 s3 HI3. wp_steps. subst rcv2.
      split; [by exists got2; split; [exact HI3|]|]. intros Ht. rewrite (Hr Ht), Z.ltb_irrefl. lia.
    + bool_props. eapply wp_mono; [by eapply spi_finish_spec|].
      intros ok s1 (?&?&Hok). wp_steps. exists got. split_and!; auto.
      intros E. specialize (Hok E). lia.
  - wp_steps. eapply wp_mono; [by eapply spi_finish_spec|].
    intros ok s1 (?&?&_). wp_steps. exists got. split_and!; auto. lia.
Qed.
(** A single byte, from the wait for room in the FIFO on. *)
Lemma spi_byte_data_spec x want : data = [x] → out = bytes [x] → n_in = Z.b2z want →
  wp t (ok ← spi_wait 0 SPI_CS_TXD SPI_WAIT_TXD_US;
        if negb ok then mret (TEE_ERROR_TIMEOUT, None) else
        y ← rpi3_correct_order x;
        spi_write32 SPI_FIFO 0 y;;
        ok ← spi_wait 0 SPI_CS_DONE SPI_TRANSFER_WAIT_DONE_PERBYTE_US;
        if negb ok then mret (TEE_ERROR_TIMEOUT, None) else
        got ← (if want then
                 w ← spi_read32 SPI_FIFO 0;
                 r ← rpi3_correct_order (u8 w);
                 mret (Some (u8 r))
               else mret None);
        spi_setbits 0 0 SPI_CS_TA;;
        mret (TEE_SUCCESS, got))
    (λ r s', ∃ k got, xf k got (bytes got ++ drop (length got) b0) s' ∧ ta_clear s'
       ∧ (r.1 = TEE_SUCCESS ∨ r.1 = TEE_ERROR_TIMEOUT)
       ∧ (r.1 = TEE_SUCCESS → k = 1 ∧ Z.of_nat (length got) = n_in)
       ∧ match r.2 with
         | Some y => want = true ∧ r.1 = TEE_SUCCESS ∧ got = [y] ∧ 0 <= y < 2 ^ 8
         | None => want = true → r.1 ≠ TEE_SUCCESS
         end) s0.
Proof using All.
  intros Hx Hob Hn. wp_steps.
  eapply wp_mono; [apply spi_wait_spec; [set_solver|by apply xf_start]|].
  intros [] s1 [X1 T1]; cbn [negb]; wp_steps.
  2:{ exists 0, []. by split_and!; auto. }
  destruct (xf_send 0 [] b0 s1 X1) as (x'&Hx'&Hr&X2); [by rewrite Hx|].
  rewrite Hob in Hx'. injection Hx' as <-. pose proof (xf_wf _ _ _ _ X1) as Hwf1. destruct X1 as [He1 _].
  unfold wp at 1. rewrite correct_order_eq by done. wp_steps.
  unfold wp at 1. rewrite spi_write32_eq, (spi_addr_ext s0 s1), (d_ext_order s0 s1) by done. wp_steps.
  eapply wp_mono; [apply spi_wait_spec; [set_solver|exact X2]|].
  intros [] s3 [X3 T3]; cbn [negb]; wp_steps.
  2:{ eexists _, []. split; [exact X3|]. by split_and!; auto. }
  pose proof (xf_wf _ _ _ _ X3) as Hwf3. pose proof X3 as [He3 _].
  destruct want; wp_steps.
  - unfold wp at 1. rewrite spi_read32_eq, (spi_addr_ext s0 s3) by done. wp_steps.
    destruct (xf_recv _ _ _ _ X3 ltac:(cbn in *; lia)) as [_ X4]. cbv zeta in X4.
    set (w := env_read _ _ _ mod _) in *. pose proof (ord_range o (u8 w) (u8_range w)) as Ho.
    unfold wp at 1. rewrite correct_order_eq by apply u8_range. wp_steps.
    change (d_bit_order (d_log _ ?s)) with (d_bit_order s). rewrite (d_ext_order s0 s3), (u8_id (ord _ _)) by done.
    eapply wp_mono; [by eapply xf_clear_ta|]. intros ? s5 [X5 ?]. wp_steps.
    eexists _, _. pose proof X5 as (_&_&_&_&E&_). rewrite E in X5. split; [exact X5|].
    rewrite Hn. by split_and!; auto.
  - eapply wp_mono; [by eapply xf_clear_ta|]. intros ? s5 [X5 ?]. wp_steps.
    eexists _, []. split; [exact X5|]. rewrite Hn. by split_and!; auto.
Qed.
End transfer.

(** ** The exported transfers *)

(** What a transfer has done when it returns: TA is clear, the TX FIFO got
    [pre] and then a prefix of the data, the buffer holds what came from the
    RX FIFO, and a success means both are complete. *)
Definition xfer_post `{Env} (s : dstate) (pre data : list Z) (n_in : Z) (inb : option buf)
    (r : Z * option buf) (s' : dstate) : Prop :=
  let o := d_bit_order s in
  let fifo := spi_addr s SPI_FIFO in
  d_ext s s' ∧ ta_clear s' ∧ (r.1 = TEE_SUCCESS ∨ r.1 = TEE_ERROR_TIMEOUT)
  ∧ ∃ sent got, Z.of_nat (length got) <= n_in
    ∧ writes_to fifo (d_trace s') = writes_to fifo (d_trace s) ++ (ord o <$> pre ++ take sent data)
    ∧ (λ w, ord o (u8 w)) <$> reads_from fifo (d_trace s')
      = ((λ w, ord o (u8 w)) <$> reads_from fifo (d_trace s)) ++ got
    ∧ r.2 = (λ b, bytes got ++ drop (length got) b) <$> inb
    ∧ (r.1 = TEE_SUCCESS → take sent data = data ∧ Z.of_nat (length got) = n_in)
    ∧ Forall (answered o fifo (λ l, ∃ k, l = writes_to fifo (d_trace s) ++ (ord o <$> pre ++ take k data))) got.

(** The arguments of a transfer: [data] is what [out] holds, [n_in] what is
    wanted in [inb]. *)
Definition xfer_pre (out inb : option buf) (out_len in_len : Z) (data : list Z) (n_in : Z) : Prop :=
  match out with
  | Some b => take (length data) b = bytes data ∧ out_len = Z.of_nat (length data)
  | None => data = []
  end
  ∧ match inb with Some b => n_in = in_len ∧ in_len <= blen b | None => n_in = 0 end
  ∧ Forall (λ x, 0 <= x < 2 ^ 8) data ∧ Z.of_nat (length data) < 2 ^ 32 ∧ 0 <= n_in < 2 ^ 32.

Section spi_main.
Context `{Env} (t : bool).

Lemma spi_data_spec out inb out_len in_len data n_in s :
  d_wf s → xfer_pre out inb out_len in_len data n_in →
  (t = true → spi_ready (spi_addr s SPI_CS) (Z.max (Z.of_nat (length data)) n_in)) →
  wp t (spi_data 0 out inb out_len in_len) (xfer_post s [] data n_in inb) s.
Proof.
  intros Hwf (Hout&Hin&Hb&Hdl&Hn) Hrdy. unfold spi_data. apply wp_bind.
  eapply (wp_mono _ _ (λ '(ok, ib) s', ∃ sent got b, xf data (default [] inb) n_in s sent got b s'
    ∧ ib = (λ b, bytes got ++ drop (length got) b) <$> inb
    ∧ (ok = false → ta_clear s')
    ∧ (ok = true → sent = Z.of_nat (length data) ∧ Z.of_nat (length got) = n_in))).
  - destruct out as [ob|], inb as [ib|].
    + destruct Hout as [? ->], Hin as [-> ?]. wp_steps.
      eapply wp_mono; [apply (spi_both_spec t ob data ib in_len s); auto|].
      intros [ok b] s' (sent&got&HI&?&?). wp_steps. exists sent, got, b. split_and!; auto.
      cbn. f_equal. apply HI.
    + destruct Hout as [? ->]. subst n_in. wp_steps.
      eapply wp_mono; [apply (spi_send_spec t ob data [] 0 s); auto; by cbn|].
      intros ok s' (sent&HI&?&?). wp_steps. exists sent, [], []. split_and!; auto.
    + destruct Hin as [-> ?]. subst data. wp_steps.
      eapply wp_mono; [apply (spi_recv_spec t [] [] ib in_len s); auto|].
      intros [ok b] s' (got&HI&?&?). wp_steps. exists 0, got, b. split_and!; auto.
      cbn. f_equal. apply HI.
    + subst data n_in. wp_steps. exists 0, [], []. split_and!; auto; [|done].
      apply xf_start; lia.
  - intros [ok ib] s1 (sent&got&b&HI&->&Hta&Hok).
    assert (∀ s' r, xf data (default [] inb) n_in s sent got b s' → ta_clear s' →
      (r = TEE_SUCCESS ∧ ok = true ∨ r = TEE_ERROR_TIMEOUT) →
      xfer_post s [] data n_in inb
        (r, (λ b, bytes got ++ drop (length got) b) <$> inb) s') as Hpost.
    { intros s' r (?&[? ?]&Hw&Hr&_&?) ? Hc. split_and!; auto; [cbn; tauto|].
      exists (Z.to_nat sent), got. split_and!; auto; try tauto. cbn. intros ->.
      destruct Hc as [[_ E]|]; [|done]. destruct (Hok E). split; [|done].
      apply take_ge. lia. }
    destruct ok; cbn [negb]; wp_steps; [|by apply Hpost; auto].
    eapply wp_mono; [by eapply xf_clear_ta|]. intros ? s2 [? ?]. wp_steps. apply Hpost; auto.
Qed.

(** Events before the data phase: only CS is touched. *)
Definition quiet_ext (s s' : dstate) : Prop :=
  d_ext s s' ∧ writes_to (spi_addr s SPI_FIFO) (d_trace s') = writes_to (spi_addr s SPI_FIFO) (d_trace s)
  ∧ reads_from (spi_addr s SPI_FIFO) (d_trace s') = reads_from (spi_addr s SPI_FIFO) (d_trace s).

Lemma quiet_ext_rmw x y s s' : quiet_ext s s' →
  quiet_ext s (d_log (E_write 32 (spi_addr s' SPI_CS) y) (d_log (E_read 32 (spi_addr s' SPI_CS) x) s')).
Proof.
  intros (He&Hw&Hr). rewrite (spi_addr_ext s s') by done.
  assert ((spi_addr s SPI_CS =? spi_addr s SPI_FIFO) = false) as Hne
    by (apply Z.eqb_neq; unfold spi_addr; cbn; lia).
  split_and!; [by auto|..]; cbn; rewrite Hne, !app_nil_r; done.
Qed.

Lemma quiet_refl s : quiet_ext s s.
Proof. by split_and!. Qed.

Lemma spi_chip_select_spec cs s s' : d_wf s → quiet_ext s s' →
  wp t (spi_chip_select 0 cs) (λ _ s2, quiet_ext s s2) s'.
Proof.
  intros Hwf Hq. unfold spi_chip_select. eapply wp_mono; [apply spi_clrsetbits_ext|].
  { destruct Hq; eauto. }
  intros ? s2 (x&y&->). by apply quiet_ext_rmw.
Qed.

Lemma spi_setbits_quiet v m s s' : d_wf s → quiet_ext s s' →
  wp t (spi_setbits 0 v m) (λ _ s2, quiet_ext s s2) s'.
Proof.
  intros Hwf Hq. eapply wp_mono; [apply spi_setbits_spec|].
  { destruct Hq; eauto. }
  intros ? s2 (x&->). by apply quiet_ext_rmw.
Qed.

Lemma quiet_order s s' : quiet_ext s s' → d_bit_order s' = d_bit_order s.
Proof. intros [? _]. by apply d_ext_order. Qed.

(** A transfer that starts after [pre] has been put in the FIFO. *)
Lemma xfer_post_shift s s1 pre data n_in inb r s' :
  d_ext s s1 →
  writes_to (spi_addr s SPI_FIFO) (d_trace s1)
    = writes_to (spi_addr s SPI_FIFO) (d_trace s) ++ (ord (d_bit_order s) <$> pre) →
  reads_from (spi_addr s SPI_FIFO) (d_trace s1) = reads_from (spi_addr s SPI_FIFO) (d_trace s) →
  xfer_post s1 [] data n_in inb r s' → xfer_post s pre data n_in inb r s'.
Proof.
  intros He Hw Hr (?&?&?&sent&got&?&Hw'&Hr'&?&?&Ha).
  assert (d_bit_order s1 = d_bit_order s) as Ho by (by destruct He as [? ->]).
  rewrite Ho, (spi_addr_ext s s1) in * by done.
  split_and!; [by etrans|done|done|]. exists sent, got. split_and!; auto.
  - by rewrite Hw', Hw, <- app_assoc, <- fmap_app.
  - by rewrite Hr', Hr.
  - eapply Forall_impl; [exact Ha|]. intros y (h&(k&Hk)&->). exists h. split; [|done]. exists k.
    by rewrite Hk, Hw, <- app_assoc, <- fmap_app.
Qed.

Definition spi_fuel_ok (s : dstate) (data : list Z) (n_in : Z) : Prop :=
  t = true → spi_ready (spi_addr s SPI_CS) (Z.max (Z.of_nat (length data)) n_in).

Lemma spi_transfer_bytes_spec cs cont out inb len data n_in s :
  d_wf s → xfer_pre out inb len len data n_in → spi_fuel_ok s data n_in →
  wp t (spi_transfer_bytes 0 cs cont out inb len) (xfer_post s [] data n_in inb) s.
Proof.
  intros Hwf Hpre Hrdy. unfold spi_transfer_bytes. wp_steps.
  eapply wp_mono; [apply spi_chip_select_spec; [done|apply quiet_refl]|]. intros ? s1 Hq1. wp_steps.
  apply (wp_mono _ _ (λ _ s2, quiet_ext s s2)).
  { destruct cont; wp_steps; [done|]. by apply spi_setbits_quiet. }
  intros ? s2 Hq2. wp_steps. eapply wp_mono; [by apply spi_setbits_quiet|].
  intros ? s3 (He&Hw&Hr). eapply wp_mono; [apply spi_data_spec; eauto|].
  { intros E. rewrite (spi_addr_ext s s3) by done. by apply Hrdy. }
  intros r s4 Hp. apply (xfer_post_shift s s3); auto. by rewrite app_nil_r.
Qed.

Lemma spi_transfer_diff_bytes_spec cs cont out inb out_len in_len data n_in s :
  d_wf s → xfer_pre out inb out_len in_len data n_in → spi_fuel_ok s data n_in →
  wp t (spi_transfer_diff_bytes 0 cs cont out inb out_len in_len) (xfer_post s [] data n_in inb) s.
Proof.
  intros Hwf Hpre Hrdy. unfold spi_transfer_diff_bytes. wp_steps.
  eapply wp_mono; [apply spi_chip_select_spec; [done|apply quiet_refl]|]. intros ? s1 Hq1. wp_steps.
  apply (wp_mono _ _ (λ _ s2, quiet_ext s s2)).
  { destruct cont; wp_steps; [done|]. by apply spi_setbits_quiet. }
  intros ? s2 Hq2. wp_steps. eapply wp_mono; [by apply spi_setbits_quiet|].
  intros ? s3 (He&Hw&Hr). eapply wp_mono; [apply spi_data_spec; eauto|].
  { intros E. rewrite (spi_addr_ext s s3) by done. by apply Hrdy. }
  intros r s4 Hp. apply (xfer_post_shift s s3); auto. by rewrite app_nil_r.
Qed.

Lemma spi_transfer_regs_spec cs reg out inb len data n_in s :
  d_wf s → xfer_pre out inb len len data n_in → spi_fuel_ok s data n_in →
  wp t (spi_transfer_regs 0 cs reg out inb len) (xfer_post s [u8 reg] data n_in inb) s.
Proof.
  intros Hwf Hpre Hrdy. unfold spi_transfer_regs. wp_steps.
  eapply wp_mono; [apply spi_chip_select_spec; [done|apply quiet_refl]|]. intros ? s1 Hq1. wp_steps.
  eapply wp_mono; [by apply spi_setbits_quiet|]. intros ? s2 Hq2. wp_steps.
  eapply wp_mono; [by apply spi_setbits_quiet|]. intros ? s3 Hq. cbn beta in Hq. wp_steps.
  pose proof (u8_range reg). unfold wp at 1. rewrite correct_order_eq by lia.
  rewrite (quiet_order s s3) by done. pose proof Hq as (He&Hw&Hr). wp_steps.
  unfold wp at 1. rewrite spi_write32_eq by eauto. rewrite (spi_addr_ext s s3) by done.
  eapply wp_mono; [apply spi_data_spec; eauto|].
  { intros E. rewrite (spi_addr_ext s) by auto. by apply Hrdy. }
  intros r s4 Hp. eapply xfer_post_shift; [|..|exact Hp]; [by auto|..]; cbn.
  - rewrite Z.eqb_refl, Hw. do 2 f_equal. apply u32_id.
    pose proof (ord_range (d_bit_order s) (u8 reg) ltac:(lia)). lia.
  - by rewrite app_nil_r.
Qed.
(** One byte each way: what goes out is [x]; a success hands back what came in. *)
Lemma spi_transfer_byte_spec cs cont x want s : 0 <= cs < SPI_CS_NUM → 0 <= x < 2 ^ 8 →
  d_wf s → spi_fuel_ok s [x] 1 →
  wp t (spi_transfer_byte 0 cs cont x want)
    (λ r s', ∃ ob, xfer_post s [] [x] (Z.b2z want) (if want then Some [None] else None) (r.1, ob) s'
       ∧ match r.2 with
         | Some y => want = true ∧ r.1 = TEE_SUCCESS ∧ ob = Some (bytes [y]) ∧ 0 <= y < 2 ^ 8
         | None => want = true → r.1 ≠ TEE_SUCCESS
         end) s.
Proof.
  intros Hcs Hx Hwf Hrdy. unfold spi_transfer_byte. change (SPI_NUM <=? 0) with false.
  rewrite (proj2 (Z.leb_gt _ _)) by lia. cbn [orb]. wp_steps.
  eapply wp_mono; [apply spi_chip_select_spec; [done|apply quiet_refl]|]. intros ? s1 Hq1. wp_steps.
  apply (wp_mono _ _ (λ _ s2, quiet_ext s s2)).
  { destruct cont; wp_steps; [done|]. by apply spi_setbits_quiet. }
  intros ? s2 Hq2. wp_steps. eapply wp_mono; [by apply spi_setbits_quiet|].
  intros ? s3 (He&Hw&Hr). eapply wp_mono.
  { apply (spi_byte_data_spec t (bytes [x]) [x] [None] (Z.b2z want) s3 ltac:(eauto) ltac:(done)
      ltac:(by constructor) ltac:(cbn; lia) ltac:(by destruct want) ltac:(by destruct want)).
    - intros E. rewrite (spi_addr_ext s s3) by done. destruct (Hrdy E). split; [done|].
      destruct want; cbn in *; lia.
    - done.
    - done.
    - done. }
  intros [r oy] s4 (k&got&(?&[? ?]&Hw'&Hr'&_&?)&?&?&Hs&Hy). cbn [fst snd] in *.
  exists ((λ b, bytes got ++ drop (length got) b) <$> (if want then Some [None] else None)). split.
  - apply (xfer_post_shift s s3); [done|by rewrite Hw, app_nil_r|done|]. split_and!; auto.
    exists (Z.to_nat k), got. split_and!; auto. cbn. intros ->.
    by destruct (Hs eq_refl) as [-> ?].
  - destruct oy; [|done]. destruct Hy as (->&->&->&?). split_and!; auto; lia.
Qed.
End spi_main.

(** ** Acquire and release *)
Section spi_lock.
Context `{Env}.

Lemma spi_pins_spec t f s : wp t (spi_pins f) (λ _ s', d_ext s s') s.
Proof.
  unfold spi_pins. wp_steps.
  do 4 (eapply wp_mono; [apply gpio_fsel_spec; unfold RPI3_MAX_PIN_NUM; lia|]; intros ? ? ?;
        wp_steps).
  eapply wp_mono; [apply gpio_fsel_spec; unfold RPI3_MAX_PIN_NUM; lia|]. intros ? ? ?.
  d_ext_chain.
Qed.

(** [s1] is reached from [s] by taking the SPI bus and using it. *)
Definition spi_owns (s s1 : dstate) : Prop :=
  d_frame s s1 ∧ d_held s1 = {[L_spi 0]} ∪ d_held s.

Lemma spi_owns_ext s s1 s2 : spi_owns s s1 → d_ext s1 s2 → spi_owns s s2.
Proof.
  intros [? Hh] He. split; [by etrans; [|apply d_ext_frame]|].
  by rewrite (d_ext_held s1 s2).
Qed.
Lemma spi_owns_wf s s1 : spi_owns s s1 → d_wf s → d_wf s1.
Proof. intros [? _]. by apply d_frame_wf. Qed.

Lemma spi_acquire_spec t cs mode clk s : 0 <= cs < SPI_CS_NUM → d_wf s → L_spi 0 ∉ d_held s →
  wp t (spi_acquire 0 cs mode clk) (λ r s', r = TEE_SUCCESS ∧ spi_owns s s') s.
Proof.
  intros Hcs Hwf Hl. unfold spi_acquire. change (SPI_NUM <=? 0) with false.
  rewrite (proj2 (Z.leb_gt _ _)) by lia. cbn [orb Z.eqb]. wp_steps.
  eapply wp_mono; [by apply mutex_lock_spec|]. intros ? s1 Hs1. wp_steps.
  assert (spi_owns s s1) as Ho.
  { cbn beta in Hs1. subst s1. split; [|done]. split_and!; auto. by exists [E_lock (L_spi 0)]. }
  clear Hs1. assert (d_wf s1) by (by eapply spi_owns_wf).
  eapply wp_mono; [apply spi_pins_spec|]. intros ? s2 He. cbn beta in He. wp_steps.
  assert (d_wf s2) by eauto. unfold wp at 1. rewrite spi_write32_eq by done.
  wp_steps. unfold wp at 1. rewrite spi_write32_eq by done. wp_steps.
  eapply wp_mono; [by apply spi_clrsetbits_ext|]. intros ? s3 (x&y&->). wp_steps.
  unfold spi_set_speed_clk. unfold wp at 1. rewrite spi_write32_eq by done. wp_steps.
  eapply wp_mono; [by apply spi_clrsetbits_ext|]. intros ? s4 (x2&y2&->). wp_steps.
  split; [done|]. eapply spi_owns_ext; [exact Ho|]. d_ext_chain.
Qed.

Lemma spi_release_spec t s s1 : L_spi 0 ∉ d_held s → spi_owns s s1 →
  wp t (spi_release 0) (λ r s', r = TEE_SUCCESS ∧ kept s s') s1.
Proof.
  intros Hl Ho. unfold spi_release. change (SPI_NUM <=? 0) with false. cbn [Z.eqb]. wp_steps.
  eapply wp_mono; [apply spi_pins_spec|]. intros ? s2 He. cbn beta in He. wp_steps.
  pose proof (spi_owns_ext _ _ _ Ho He) as [Hf Hh].
  eapply wp_mono; [apply mutex_unlock_spec; set_solver|]. intros _ s3 ->. wp_steps.
  split; [done|]. split; [|cbn; set_solver]. etrans; [exact Hf|].
  split_and!; auto. by exists [E_unlock (L_spi 0)].
Qed.

Lemma spi_acquire_bad bus cs mode clk s : SPI_NUM <= bus ∨ SPI_CS_NUM <= cs →
  spi_acquire bus cs mode clk s = Ok TEE_ERROR_BAD_PARAMETERS s.
Proof.
  intros Hb. unfold spi_acquire.
  destruct (Z.leb_spec SPI_NUM bus), (Z.leb_spec SPI_CS_NUM cs); try done. lia.
Qed.
End spi_lock.
