(* ===== verification/W25qxx.v ===== *)
(** * The W25Qxx flash memory (core/drivers/w25qxx/w25qxx.c)

    Status polling, write enable, identification, read, page program and
    erase, over the SPI driver.  The failed acquires and the final statuses
    the source ignores are ignored here too. *)

From Stdlib Require Import ZArith Lia Bool.
From stdpp Require Import base tactics option list numbers gmap.
From S2P Require Import Prelude Platform Gpio I2cProofs Spi SpiProofs.

Open Scope Z_scope.

Definition WRITE_ENABLE_TIMEOUT_US : Z := 2000.
Definition SECTOR_ERASE_TIMEOUT_US : Z := 2000000.
Definition CHIP_ERASE_TIMEOUT_US : Z := 80000000.
Definition PAGE_PROGRAM_TIMEOUT_PER_BYTE_US : Z := 10000.
Definition W25QXX_CMD_READ_ID : Z := 0x9F.
Definition W25QXX_CMD_READ_STATUS : Z := 0x05.
Definition W25QXX_CMD_WRITE_STATUS : Z := 0x01.
Definition W25QXX_CMD_WRITE_ENABLE : Z := 0x06.
Definition W25QXX_CMD_WRITE_DISABLE : Z := 0x04.
Definition W25QXX_CMD_PAGE_PROGRAM : Z := 0x02.
Definition W25QXX_CMD_READ_DATA : Z := 0x03.
Definition W25QXX_CMD_SECTOR_ERASE : Z := 0x20.
Definition W25QXX_CMD_CHIP_ERASE : Z := 0xC7.
Definition W25QXX_STATUS_BUSY : Z := 0x01.

Section driver.
Context `{Env}.

Definition w25qxx_spi_write (bus cs cmd : Z) (data : option buf) (len : Z) : D Z :=
  '(res, _) ← spi_transfer_regs bus cs cmd data None len; mret res.

Definition w25qxx_spi_read (bus cs cmd : Z) (data : option buf) (len : Z) : D (Z * option buf) :=
  spi_transfer_regs bus cs cmd None data len.

Definition w25qxx_read_status_internal (bus cs : Z) (status : option buf) : D (Z * option buf) :=
  w25qxx_spi_read bus cs W25QXX_CMD_READ_STATUS status 1.

(** [status] is one uninitialised byte before the first read. *)
Definition w25qxx_wait_until_ready_internal (bus cs timeout : Z) : D Z :=
  start ← tee_time_get_sys_time;
  loop env_fuel
    (λ status,
       '(res, status) ← w25qxx_read_status_internal bus cs status;
       if negb (res =? TEE_SUCCESS) then mret (inr res) else
       end_ ← tee_time_get_sys_time;
       st ← buf_get (default [] status) 0;
       if spi_flag st W25QXX_STATUS_BUSY && (elapsed start end_ <=? timeout)
       then mret (inl status)
       else mret (inr (if timeout <? elapsed start end_ then TEE_ERROR_TIMEOUT else TEE_SUCCESS)))
    (Some (uninit 1)).

Definition w25qxx_write_enable_internal (bus cs : Z) : D Z :=
  res ← w25qxx_spi_write bus cs W25QXX_CMD_WRITE_ENABLE None 0;
  if negb (res =? TEE_SUCCESS) then mret res else
  w25qxx_wait_until_ready_internal bus cs WRITE_ENABLE_TIMEOUT_US.

Definition w25qxx_write_disable_internal (bus cs : Z) : D Z :=
  res ← w25qxx_spi_write bus cs W25QXX_CMD_WRITE_DISABLE None 1;
  if negb (res =? TEE_SUCCESS) then mret res else
  w25qxx_wait_until_ready_internal bus cs WRITE_ENABLE_TIMEOUT_US.

Definition acquire40 (bus cs : Z) : D Z := spi_acquire bus cs SPI_MODE_0 SPI_CLK_40MHZ.

Definition w25qxx_wait_until_ready (bus cs timeout : Z) : D Z :=
  acquire40 bus cs;;
  res ← w25qxx_wait_until_ready_internal bus cs timeout;
  spi_release bus;;
  mret res.

Definition w25qxx_read_status (bus cs : Z) (status : option buf) : D (Z * option buf) :=
  acquire40 bus cs;;
  '(res, status) ← w25qxx_spi_read bus cs W25QXX_CMD_READ_STATUS status 1;
  spi_release bus;;
  mret (res, status).

Definition w25qxx_write_status (bus cs status : Z) : D Z :=
  acquire40 bus cs;;
  res ← w25qxx_spi_write bus cs W25QXX_CMD_WRITE_STATUS (Some (bytes [u8 status])) 1;
  spi_release bus;;
  mret res.

Definition w25qxx_init (bus cs : Z) : D Z :=
  acquire40 bus cs;;
  res ← w25qxx_write_enable_internal bus cs;
  spi_release bus;;
  mret res.

Definition w25qxx_write_enable (bus cs : Z) : D Z :=
  acquire40 bus cs;;
  res ← w25qxx_write_enable_internal bus cs;
  spi_release bus;;
  mret res.

(** [*id |= out[1] << 8; *id |= out[2];] on the caller's variable, which may
    be indeterminate. *)
Definition w25qxx_read_id (bus cs : Z) (id : option Z) : D (Z * option Z) :=
  res ← acquire40 bus cs;
  if negb (res =? TEE_SUCCESS) then mret (res, id) else
  '(res, out) ← spi_transfer_regs bus cs W25QXX_CMD_READ_ID None (Some (uninit 3)) 3;
  id ← (if res =? TEE_SUCCESS then
          o1 ← buf_get (default [] out) 1;
          o2 ← buf_get (default [] out) 2;
          match id with
          | None => undef UB_uninit
          | Some v => mret (Some (u16 (Z.lor (Z.lor v (Z.shiftl o1 8)) o2)))
          end
        else mret id);
  spi_release bus;;
  mret (res, id).

Definition w25qxx_write_disable (bus cs : Z) : D Z :=
  acquire40 bus cs;;
  res ← w25qxx_write_disable_internal bus cs;
  spi_release bus;;
  mret res.

(** The 24-bit address, high byte first. *)
Definition addr24 (a : Z) : list Z :=
  [Z.land (Z.shiftr a 16) 0xFF; Z.land (Z.shiftr a 8) 0xFF; Z.land a 0xFF].

Definition w25qxx_read_data (bus cs : Z) (b : option buf) (read_addr len : Z) :
    D (Z * option buf) :=
  acquire40 bus cs;;
  res ← w25qxx_spi_write bus cs W25QXX_CMD_READ_DATA (Some (bytes (addr24 read_addr))) 3;
  if negb (res =? TEE_SUCCESS) then
    spi_release bus;; mret (res, b)
  else
    '(_, b) ← spi_transfer_bytes bus cs false None b len;
    spi_release bus;;
    mret (TEE_SUCCESS, b).

Definition w25qxx_page_program (bus cs : Z) (b : option buf) (write_addr len : Z) : D Z :=
  res ← acquire40 bus cs;
  if negb (res =? TEE_SUCCESS) then mret res else
  res ← w25qxx_write_enable_internal bus cs;
  if negb (res =? TEE_SUCCESS) then spi_release bus;; mret res else
  res ← w25qxx_spi_write bus cs W25QXX_CMD_PAGE_PROGRAM (Some (bytes (addr24 write_addr))) 3;
  if negb (res =? TEE_SUCCESS) then spi_release bus;; mret res else
  '(res, _) ← spi_transfer_bytes bus cs true b None len;
  if negb (res =? TEE_SUCCESS) then spi_release bus;; mret res else
  w25qxx_wait_until_ready_internal bus cs (u32 (PAGE_PROGRAM_TIMEOUT_PER_BYTE_US * len));;
  spi_release bus;;
  mret TEE_SUCCESS.

Definition w25qxx_sector_erase (bus cs erase_addr : Z) : D Z :=
  acquire40 bus cs;;
  res ← w25qxx_write_enable_internal bus cs;
  if negb (res =? TEE_SUCCESS) then spi_release bus;; mret res else
  res ← w25qxx_spi_write bus cs W25QXX_CMD_SECTOR_ERASE (Some (bytes (addr24 erase_addr))) 3;
  if negb (res =? TEE_SUCCESS) then spi_release bus;; mret res else
  w25qxx_wait_until_ready_internal bus cs SECTOR_ERASE_TIMEOUT_US;;
  spi_release bus;;
  mret TEE_SUCCESS.

Definition w25qxx_chip_erase (bus cs : Z) : D Z :=
  acquire40 bus cs;;
  res ← w25qxx_write_enable_internal bus cs;
  if negb (res =? TEE_SUCCESS) then spi_release bus;; mret res else
  res ← w25qxx_spi_write bus cs W25QXX_CMD_CHIP_ERASE None 0;
  if negb (res =? TEE_SUCCESS) then spi_release bus;; mret res else
  w25qxx_wait_until_ready_internal bus cs CHIP_ERASE_TIMEOUT_US;;
  spi_release bus;;
  mret TEE_SUCCESS.
End driver.
