(* ===== verification/W25qxxProofs.v ===== *)
(** * Correctness of the W25Qxx driver

    On the only SPI bus every operation gives the bus back on every path and
    stays within its buffers, and a successful page program has sent exactly
    the write enable, the program command with its address, and the data.
    With [t = true] the operations also terminate, on a controller that is
    ready and a flash that stops being busy ([flash_live]). *)

From Stdlib Require Import ZArith Lia Bool.
From stdpp Require Import base tactics option list numbers gmap.
From S2P Require Import Prelude Platform Gpio I2cProofs Spi SpiProofs W25qxx.

Open Scope Z_scope.

(** The SPI bus is free, the chip select exists, and the GPIO function words
    are not where the SPI FIFO is. *)
Definition flash_ready (cs : Z) (s : dstate) : Prop :=
  d_wf s ∧ (0 <= cs < SPI_CS_NUM) ∧ (L_spi 0 ∉ d_held s)
  ∧ d_gpio_base s ≠ spi_addr s SPI_FIFO ∧ (d_gpio_base s + 4)%Z ≠ spi_addr s SPI_FIFO.

(** The bytes [l] went to the TX FIFO between [s] and [s']. *)
Definition sent (s s' : dstate) (l : list Z) : Prop :=
  writes_to (spi_addr s SPI_FIFO) (d_trace s')
  = writes_to (spi_addr s SPI_FIFO) (d_trace s) ++ (ord (d_bit_order s) <$> l).

(** The bytes [g] came from the RX FIFO between [s] and [s']. *)
Definition received (s s' : dstate) (g : list Z) : Prop :=
  let dec := λ w, ord (d_bit_order s) (u8 w) in
  dec <$> reads_from (spi_addr s SPI_FIFO) (d_trace s')
  = (dec <$> reads_from (spi_addr s SPI_FIFO) (d_trace s)) ++ g.

Definition moved (s s' : dstate) (l g : list Z) : Prop := sent s s' l ∧ received s s' g.

Lemma spi_addr_frame s s' m : d_frame s s' → spi_addr s' m = spi_addr s m.
Proof. intros (_&_&Hb&_). unfold spi_addr. by rewrite Hb. Qed.

Lemma moved_trans s1 s2 s3 l l' g g' : d_frame s1 s2 → moved s1 s2 l g → moved s2 s3 l' g' →
  moved s1 s3 (l ++ l') (g ++ g').
Proof.
  intros Hf [Hs Hr] [Hs' Hr']. pose proof (spi_addr_frame _ _ SPI_FIFO Hf) as Ha.
  destruct Hf as (_&_&_&Ho&_). unfold moved, sent, received in *. cbv zeta in *.
  rewrite Ha, Ho in Hs', Hr'. split.
  - by rewrite Hs', Hs, <- app_assoc, fmap_app.
  - by rewrite Hr', Hr, <- app_assoc.
Qed.

Lemma quiet_moved s s' : quiet_ext s s' → moved s s' [] [].
Proof. intros (_&Hw&Hr). unfold moved, sent, received. cbv zeta. by rewrite Hw, Hr, !app_nil_r. Qed.

(** With [t = true]: the controller is ready and the fuel covers the bytes of
    a transfer of [len]; once the last [n] bytes sent are status commands the
    flash answers that it is not busy. *)
Definition flash_live `{Env} (t : bool) (len : Z) (s : dstate) : Prop :=
  let o := d_bit_order s in let fifo := spi_addr s SPI_FIFO in
  t = true → spi_ready (spi_addr s SPI_CS) (Z.max 3 len) ∧
    ∃ n : nat, (n < env_fuel)%nat ∧ ∀ h l,
      writes_to fifo h = l ++ replicate n (ord o W25QXX_CMD_READ_STATUS) →
      spi_flag (ord o (u8 (env_read h 32 fifo mod 2 ^ 32))) W25QXX_STATUS_BUSY = false.

Lemma addr24_bytes a : 0 <= a → Forall (λ x, 0 <= x < 2 ^ 8) (addr24 a).
Proof.
  intros Ha. unfold addr24. change 0xFF with (Z.ones 8).
  repeat constructor; rewrite Z.land_ones by lia; apply Z.mod_pos_bound; lia.
Qed.

Lemma addr24_value a : 0 <= a < 2 ^ 24 →
  match addr24 a with [h; m; l] => h * 65536 + m * 256 + l | _ => -1 end = a.
Proof.
  intros Ha. unfold addr24. change 0xFF with (Z.ones 8).
  rewrite !Z.land_ones, !Z.shiftr_div_pow2 by lia.
  change (2 ^ 16) with 65536. change (2 ^ 8) with 256.
  rewrite (Z.mod_small (a / 65536)) by
    (split; [apply Z.div_pos; lia|apply Z.div_lt_upper_bound; lia]).
  replace (a / 65536) with (a / 256 / 256) by (rewrite Z.div_div by lia; done).
  pose proof (Z.div_mod a 256). pose proof (Z.div_mod (a / 256) 256). lia.
Qed.

Lemma spi_addr_log e s m : spi_addr (d_log e s) m = spi_addr s m.
Proof. done. Qed.

Section flash.
Context `{Env} (t : bool) (cs : Z) (maxlen : Z) (s : dstate).
Context (Hrdy : flash_ready cs s) (Hlive : flash_live t maxlen s).

Lemma pins_quiet f s0 : d_gpio_base s0 ≠ spi_addr s0 SPI_FIFO →
  d_gpio_base s0 + 4 ≠ spi_addr s0 SPI_FIFO →
  wp t (spi_pins f) (λ _ s', quiet_ext s0 s') s0.
Proof using.
  intros Hg0 Hg4. unfold spi_pins.
  assert (∀ pin s', (pin = 7 ∨ pin = 8 ∨ pin = 9 ∨ pin = 10 ∨ pin = 11) → quiet_ext s0 s' →
    wp t (gpio_fsel pin f) (λ _ s2, quiet_ext s0 s2) s') as Hpin.
  { intros pin s' Hp (He&Hw&Hr). unfold wp.
    rewrite gpio_fsel_eq by (unfold RPI3_MAX_PIN_NUM; lia).
    assert (d_gpio_base s' = d_gpio_base s0) as -> by (by destruct He as [? ->]).
    assert ((d_gpio_base s0 + 4 * (pin / 10) =? spi_addr s0 SPI_FIFO) = false) as Hne.
    { apply Z.eqb_neq. destruct Hp as [->|[->|[->|[->| ->]]]]; cbn;
        rewrite ?Z.add_0_r; done. }
    split_and!; [by auto|..]; cbn [d_trace d_log writes_to reads_from write_of read_of];
      rewrite Hne, !app_nil_r; done. }
  wp_steps. do 4 (eapply wp_mono; [apply Hpin; [lia|by auto using quiet_refl]|]; intros ? ? ?; wp_steps).
  apply Hpin; [lia|done].
Qed.

(** The bus is held since [s]; what was sent and received since. *)
Definition fowns (s1 : dstate) (l g : list Z) : Prop := spi_owns s s1 ∧ moved s s1 l g.

Lemma fowns_wf s1 l g : fowns s1 l g → d_wf s1.
Proof using Hrdy. destruct Hrdy as [? _]. intros [? _]. by eapply spi_owns_wf. Qed.

Lemma fowns_log e s1 l g : fowns s1 l g → write_of (spi_addr s SPI_FIFO) e = [] →
  read_of (spi_addr s SPI_FIFO) e = [] → fowns (d_log e s1) l g.
Proof using.
  intros [Ho [Hs Hr]] He He'. split; [eapply spi_owns_ext; eauto|]. unfold moved, sent, received in *.
  cbv zeta in *. cbn [d_trace d_log]. by rewrite writes_to_skip, reads_from_skip.
Qed.

Lemma acquire40_ok : wp t (acquire40 0 cs) (λ r s', r = TEE_SUCCESS ∧ fowns s' [] []) s.
Proof using Hrdy Hlive.
  destruct Hrdy as (Hwf&Hcs&Hl&Hg0&Hg4). unfold fowns.
  eapply wp_mono; [eapply (wp_and _ _ _ (λ _ s', moved s s' [] [])); [by apply spi_acquire_spec|]|].
  2:{ intros r s' [[-> ?] Hs]. done. }
  unfold acquire40, spi_acquire. change (SPI_NUM <=? 0) with false.
  rewrite (proj2 (Z.leb_gt _ _)) by lia. cbn [orb Z.eqb]. wp_steps.
  eapply wp_mono; [by apply mutex_lock_spec|]. intros ? s1 ->. wp_steps.
  set (s1 := d_log _ _). assert (d_wf s1) as Hwf1 by done.
  eapply wp_mono; [by apply pins_quiet|]. intros ? s2 Hq. cbn beta in Hq. wp_steps.
  assert (d_wf s2) by (destruct Hq; eauto).
  assert (∀ m, m ≠ SPI_FIFO → (spi_addr s m =? spi_addr s SPI_FIFO) = false) as Hne.
  { intros m Hm. apply Z.eqb_neq. unfold spi_addr. destruct m; cbn; try done; lia. }
  assert (∀ m, spi_addr s2 m = spi_addr s m) as Ha by (intros; by rewrite (spi_addr_ext s1) by apply Hq).
  unfold wp at 1. rewrite spi_write32_eq by done.
  wp_steps. unfold wp at 1. rewrite spi_write32_eq by done. wp_steps.
  eapply wp_mono; [by apply spi_clrsetbits_ext|]. intros ? s3 (x&y&->). wp_steps.
  unfold spi_set_speed_clk. unfold wp at 1. rewrite spi_write32_eq by done. wp_steps.
  eapply wp_mono; [by apply spi_clrsetbits_ext|]. intros ? s4 (x2&y2&->). wp_steps.
  unfold moved, sent, received. cbv zeta. rewrite !spi_addr_log, !Ha.
  cbn [d_trace d_log writes_to write_of reads_from read_of].
  rewrite !Hne by done. cbn [fmap list_fmap]. rewrite !app_nil_r. destruct Hq as (_&Hq&Hq'). split.
  - etrans; [exact Hq|]. cbn. by rewrite app_nil_r.
  - f_equal. etrans; [exact Hq'|]. cbn. by rewrite app_nil_r.
Qed.

Lemma release_ok s1 l g : fowns s1 l g →
  wp t (spi_release 0) (λ r s', r = TEE_SUCCESS ∧ kept s s' ∧ moved s s' l g) s1.
Proof using Hrdy Hlive.
  destruct Hrdy as (Hwf&Hcs&Hl&Hg0&Hg4). intros [Ho [Hs Hr]].
  eapply wp_mono; [eapply (wp_and _ _ _ (λ _ s', moved s s' l g)); [by eapply spi_release_spec|]|].
  2:{ by intros r s' [[-> ?] ?]. }
  unfold spi_release. change (SPI_NUM <=? 0) with false. cbn [Z.eqb]. wp_steps.
  pose proof Ho as [Hfr Hh]. pose proof (spi_addr_frame _ _ SPI_FIFO Hfr) as Ha.
  destruct Hfr as (Hgb&_&_&Hbo&_).
  eapply wp_mono; [apply pins_quiet; by rewrite Hgb, Ha|]. intros ? s2 Hq. cbn beta in Hq. wp_steps.
  eapply wp_mono; [apply mutex_unlock_spec|].
  { destruct Hq as ([evs ->]&_). cbn. set_solver. }
  intros ? s3 ->. wp_steps. unfold moved, sent, received in *. cbv zeta in *.
  destruct Hq as (_&Hq&Hq'). rewrite Ha in Hq, Hq'.
  cbn [d_trace d_log d_set_held writes_to write_of reads_from read_of]. by rewrite !app_nil_r, Hq, Hq'.
Qed.

(** A transfer with the bus held: [pre] is the command byte, if any. *)
Definition step_post (pre data : list Z) (inb : option buf) (n_in : Z) (s1 : dstate) (l g : list Z)
    (r : Z * option buf) (s2 : dstate) : Prop :=
  (r.1 = TEE_SUCCESS ∨ r.1 = TEE_ERROR_TIMEOUT)
  ∧ ∃ sn got, fowns s2 (l ++ pre ++ take sn data) (g ++ got)
    ∧ Z.of_nat (length got) <= n_in
    ∧ r.2 = (λ b, bytes got ++ drop (length got) b) <$> inb
    ∧ (r.1 = TEE_SUCCESS → take sn data = data ∧ Z.of_nat (length got) = n_in)
    ∧ Forall (answered (d_bit_order s) (spi_addr s SPI_FIFO) (λ w, ∃ k,
        w = writes_to (spi_addr s SPI_FIFO) (d_trace s) ++ (ord (d_bit_order s) <$> l ++ pre ++ take k data))) got.

Lemma step_of_xfer pre data inb n_in s1 l g r s2 : fowns s1 l g →
  xfer_post s1 pre data n_in inb r s2 → step_post pre data inb n_in s1 l g r s2.
Proof using.
  intros [Ho [Hs Hr]] (He&_&Hres&sn&got&?&Hw&Hrd&?&?&Ha). split; [done|].
  exists sn, got. pose proof (proj1 Ho) as Hfr. pose proof (spi_addr_frame _ _ SPI_FIFO Hfr) as Hf.
  assert (d_bit_order s1 = d_bit_order s) as Hbo by (by destruct Hfr as (_&_&_&?&_)).
  split_and!; auto.
  - split; [by eapply spi_owns_ext|]. by apply (moved_trans _ s1).
  - eapply Forall_impl; [exact Ha|]. intros y (h&(k&Hk)&->). rewrite Hbo, Hf in *. exists h.
    split; [|done]. exists k. by rewrite Hk, Hs, <- app_assoc, <- fmap_app.
Qed.

Lemma ready_at s1 l g data n_in : fowns s1 l g → Z.of_nat (length data) <= Z.max 3 maxlen →
  n_in <= Z.max 3 maxlen → spi_fuel_ok t s1 data n_in.
Proof using Hlive.
  intros [[Hfr _] _] Hd Hn Ht. rewrite (spi_addr_frame s s1) by done.
  destruct (Hlive Ht) as [[Hb Hf] _]. split; [done|lia].
Qed.

Lemma regs_ok reg out inb len data n_in s1 l g : fowns s1 l g →
  0 <= reg < 2 ^ 8 → xfer_pre out inb len len data n_in →
  Z.of_nat (length data) <= Z.max 3 maxlen → n_in <= Z.max 3 maxlen →
  wp t (spi_transfer_regs 0 cs reg out inb len) (step_post [reg] data inb n_in s1 l g) s1.
Proof using Hrdy Hlive.
  intros Hf Hreg Hpre Hd Hn. pose proof (fowns_wf _ _ _ Hf).
  eapply wp_mono; [apply spi_transfer_regs_spec; eauto using ready_at|].
  rewrite u8_id by lia. intros r s2. by apply step_of_xfer.
Qed.

Lemma bytes_ok cont out inb len data n_in s1 l g : fowns s1 l g →
  xfer_pre out inb len len data n_in →
  Z.of_nat (length data) <= Z.max 3 maxlen → n_in <= Z.max 3 maxlen →
  wp t (spi_transfer_bytes 0 cs cont out inb len) (step_post [] data inb n_in s1 l g) s1.
Proof using Hrdy Hlive.
  intros Hf Hpre Hd Hn. pose proof (fowns_wf _ _ _ Hf).
  eapply wp_mono; [apply spi_transfer_bytes_spec; eauto using ready_at|].
  intros r s2. by apply step_of_xfer.
Qed.

(** Waiting for the flash sends only status reads. *)
Definition status_cmds (n : nat) : list Z := replicate n W25QXX_CMD_READ_STATUS.

Lemma status_cmds_S n : status_cmds n ++ [W25QXX_CMD_READ_STATUS] = status_cmds (S n).
Proof using. unfold status_cmds. by rewrite <- replicate_S_end. Qed.

(** Enough status reads, and the flash answers that it is idle. *)
Lemma live_bound : ∃ n : nat, t = true → (n < env_fuel)%nat ∧ ∀ l j y, (n <= j)%nat →
  answered (d_bit_order s) (spi_addr s SPI_FIFO) (λ w, ∃ k,
    w = writes_to (spi_addr s SPI_FIFO) (d_trace s)
        ++ (ord (d_bit_order s) <$> (l ++ status_cmds j) ++ [] ++ take k [])) y →
  spi_flag y W25QXX_STATUS_BUSY = false.
Proof using Hlive.
  destruct t; [|by exists 0%nat]. destruct (Hlive eq_refl) as (_&n&Hn&Hidle). exists n. intros _.
  split; [done|]. intros l j y Hj (h&(k&Hk)&->).
  apply (Hidle h (writes_to (spi_addr s SPI_FIFO) (d_trace s)
    ++ (ord (d_bit_order s) <$> l ++ status_cmds (j - n)))).
  rewrite Hk, take_nil, !app_nil_r, <- app_assoc. f_equal. rewrite !fmap_app, <- app_assoc. f_equal.
  unfold status_cmds. rewrite !fmap_replicate, <- replicate_add. f_equal. lia.
Qed.

Lemma wait_ok timeout s1 l g : fowns s1 l g →
  wp t (w25qxx_wait_until_ready_internal 0 cs timeout)
    (λ r s2, (r = TEE_SUCCESS ∨ r = TEE_ERROR_TIMEOUT)
       ∧ ∃ n g', fowns s2 (l ++ status_cmds n) (g ++ g')) s1.
Proof using Hrdy Hlive.
  intros Hf. unfold w25qxx_wait_until_ready_internal. wp_steps.
  eapply wp_mono; [apply tee_time_spec|]. intros st ? ->.
  apply (fowns_log (E_time st.1 st.2)) in Hf; [|done|done].
  destruct live_bound as [N HN]. set (fifo := spi_addr s SPI_FIFO).
  set (base := Z.of_nat (length (writes_to fifo (d_trace s)) + length l)).
  assert (∀ s2 j g', fowns s2 (l ++ status_cmds j) g' →
    Z.of_nat (length (writes_to fifo (d_trace s2))) = base + Z.of_nat j) as Hlen.
  { intros s2 j g' [_ [Hs _]]. unfold base, fifo. rewrite Hs. unfold status_cmds.
    rewrite length_app, length_fmap, length_app, length_replicate. lia. }
  apply (wp_loop_if _ _ _ (λ b s2, (∃ bb, b = Some bb ∧ 1 <= blen bb)
    ∧ ∃ n g', fowns s2 (l ++ status_cmds n) (g ++ g'))
    (λ _ s2, Z.max 0 (Z.of_nat N + base - Z.of_nat (length (writes_to fifo (d_trace s2)))))).
  3:{ intros Ht. destruct (HN Ht) as [? _]. rewrite (Hlen _ 0%nat g) by (cbn; by rewrite app_nil_r). lia. }
  2:{ split; [exists (uninit 1); by split; [|rewrite blen_uninit; lia]|].
      exists 0%nat, []. by rewrite !app_nil_r. }
  clear s1 Hf. intros b s1 ((bb&->&Hbb)&n&g0&Hf). split; [lia|]. rewrite (Hlen _ _ _ Hf). wp_steps.
  eapply wp_mono; [eapply (regs_ok _ _ _ _ [] 1); eauto|].
  { done. } { split_and!; auto; cbn; lia. } { cbn. lia. } { lia. }
  intros [r ob] s2 (Hres&sn&got&Hf2&Hlg&Hob&Hs&Hans). cbn [fst snd] in *. subst ob.
  rewrite take_nil, app_nil_r, <- app_assoc, status_cmds_S, <- app_assoc in Hf2. wp_steps.
  destruct (Z.eqb_spec r TEE_SUCCESS) as [->|]; cbn [negb]; wp_steps; [|by eauto].
  destruct (Hs eq_refl) as [_ Hg]. destruct got as [|y [|]]; cbn in Hg; try lia.
  eapply wp_mono; [apply tee_time_spec|]. intros en ? ->. wp_steps.
  apply (fowns_log (E_time en.1 en.2)) in Hf2; [|done|done].
  cbn [default fmap option_fmap option_map]. eapply (wp_buf_get _ _ _ y); [lia|done|].
  destruct (spi_flag y W25QXX_STATUS_BUSY) eqn:Hbusy; cbn [andb]; [|destruct (_ <? _); wp_steps; eauto].
  destruct (_ <=? _); wp_steps; [|destruct (_ <? _); eauto].
  split; [split; [|by eauto]|].
  - eexists; split; [done|]. unfold blen in *. cbn. lia.
  - intros Ht. rewrite (Hlen _ _ _ Hf2). destruct (HN Ht) as [_ Hidle].
    destruct (decide (N <= S n)%nat); [|lia]. exfalso.
    rewrite (Hidle l (S n) y) in Hbusy; [done|done|]. rewrite Forall_singleton in Hans.
    destruct Hans as (h&(k&Hk)&->). exists h. split; [|done]. exists k. rewrite Hk. do 2 f_equal.
    by rewrite <- (status_cmds_S n), <- !app_assoc, !take_nil.
Qed.

Lemma write_enable_ok s1 l g : fowns s1 l g →
  wp t (w25qxx_write_enable_internal 0 cs)
    (λ r s2, (r = TEE_SUCCESS ∨ r = TEE_ERROR_TIMEOUT)
       ∧ ∃ n g', fowns s2 (l ++ W25QXX_CMD_WRITE_ENABLE :: status_cmds n) (g ++ g')) s1.
Proof using Hrdy Hlive.
  intros Hf. unfold w25qxx_write_enable_internal, w25qxx_spi_write. wp_steps.
  eapply wp_mono; [eapply (regs_ok _ _ _ _ [] 0); eauto|].
  { done. } { split_and!; auto; cbn; lia. } { cbn; lia. } { lia. }
  intros [r ob] s2 (Hres&sn&got&Hf2&_). cbn [fst snd] in *. rewrite take_nil, app_nil_r in Hf2. wp_steps.
  destruct (Z.eqb_spec r TEE_SUCCESS) as [->|]; cbn [negb]; wp_steps.
  2:{ split; [done|]. exists 0%nat. by eauto. }
  eapply wp_mono; [by eapply wait_ok|]. intros r s3 (?&n&g'&Hf3). split; [done|]. exists n, (got ++ g').
  by rewrite <- !app_assoc in Hf3.
Qed.

Lemma xfer_pre_addr a : 0 <= a →
  xfer_pre (Some (bytes (addr24 a))) None 3 3 (addr24 a) 0.
Proof using. intros. split_and!; auto using addr24_bytes; by cbn; lia. Qed.
End flash.

(** ** The exported operations on the flash *)
Definition flash_status (r : Z) : Prop := r = TEE_SUCCESS ∨ r = TEE_ERROR_TIMEOUT.

Section exported.
Context `{Env} (t : bool) (cs : Z) (s : dstate) (Hrdy : flash_ready cs s).

Ltac flash_acquire :=
  wp_steps; eapply wp_mono; [by eapply acquire40_ok|]; intros ? ? [-> ?];
  rewrite ?Z.eqb_refl; cbn [negb]; wp_steps.
Ltac flash_release :=
  eapply wp_mono; [by eapply release_ok|]; intros ? ? (->&?&?&?); wp_steps.

(** The read command and address go out, then up to [len] bytes come in and
    fill the front of the buffer; the status of the data phase is not
    reported. *)
Lemma w25qxx_read_data_ok b a len : flash_live t len s → 0 <= a → 0 <= len < 2 ^ 32 →
  len <= blen b →
  wp t (w25qxx_read_data 0 cs (Some b) a len) (λ r s', kept s s' ∧ flash_status r.1
    ∧ ∃ got, r.2 = Some (bytes got ++ drop (length got) b) ∧ Z.of_nat (length got) <= len
      ∧ received s s' got ∧ (r.1 = TEE_SUCCESS → sent s s' (W25QXX_CMD_READ_DATA :: addr24 a))
      ∧ (r.1 ≠ TEE_SUCCESS → got = [])) s.
Proof using Hrdy.
  intros Hlv Ha Hl Hb. unfold w25qxx_read_data, w25qxx_spi_write. flash_acquire.
  eapply wp_mono; [by eapply (regs_ok t cs len s Hrdy Hlv _ _ _ _ (addr24 a) 0);
    eauto using xfer_pre_addr; solve [done|cbn; lia]|].
  intros [r ob] s2 (Hres&sn&got&Hf2&Hg0&_&Hs&_). cbn [fst snd] in *. wp_steps.
  destruct got; [|cbn in Hg0; lia].
  destruct (Z.eqb_spec r TEE_SUCCESS) as [->|]; cbn [negb]; wp_steps.
  - destruct (Hs eq_refl) as [Htk _]. rewrite Htk in Hf2.
    eapply wp_mono; [eapply (bytes_ok t cs len s Hrdy Hlv _ _ (Some b) _ [] len); eauto|].
    { split_and!; auto; cbn; lia. } { cbn; lia. } { lia. }
    intros [r2 ob2] s3 (_&sn2&got2&Hf3&Hlg&Hob&_). cbn [fst snd] in *. subst ob2. wp_steps.
    rewrite take_nil, !app_nil_r in Hf3. flash_release. split_and!; [done|by left|].
    exists got2. split_and!; auto. by intros [].
  - flash_release. split_and!; auto. exists []. split_and!; [done|cbn; lia|done|done|done].
Qed.

Definition enabled (n : nat) : list Z := W25QXX_CMD_WRITE_ENABLE :: status_cmds n.

Lemma w25qxx_page_program_ok b a data : flash_live t (Z.of_nat (length data)) s → 0 <= a →
  Forall (λ x, 0 <= x < 2 ^ 8) data → take (length data) b = bytes data →
  Z.of_nat (length data) < 2 ^ 32 →
  wp t (w25qxx_page_program 0 cs (Some b) a (Z.of_nat (length data)))
    (λ r s', kept s s' ∧ flash_status r ∧ (r = TEE_SUCCESS → ∃ n m, sent s s'
       (enabled n ++ W25QXX_CMD_PAGE_PROGRAM :: addr24 a ++ data ++ status_cmds m))) s.
Proof using Hrdy.
  intros Hlv Ha Hd Hb Hl. unfold w25qxx_page_program, w25qxx_spi_write. flash_acquire.
  eapply wp_mono; [by eapply write_enable_ok|]. intros r s1 (Hr1&n&g1&Hf1).
  destruct (Z.eqb_spec r TEE_SUCCESS) as [->|]; cbn [negb]; wp_steps; [|by flash_release].
  eapply wp_mono; [by eapply (regs_ok t cs _ s Hrdy Hlv _ _ _ _ (addr24 a) 0);
    eauto using xfer_pre_addr; solve [done|cbn; lia]|].
  intros [r ob] s2 (Hr2&sn&got&Hf2&_&_&Hs&_). cbn [fst snd] in *. wp_steps.
  destruct (Z.eqb_spec r TEE_SUCCESS) as [->|]; cbn [negb]; wp_steps; [|by flash_release].
  destruct (Hs eq_refl) as [Htk _]. rewrite Htk in Hf2.
  eapply wp_mono; [eapply (bytes_ok t cs _ s Hrdy Hlv _ (Some b) None _ data 0); eauto|].
  { split_and!; auto; lia. } { lia. } { lia. }
  intros [r ob2] s3 (Hr3&sn2&got2&Hf3&_&_&Hs3&_). cbn [fst snd] in *. wp_steps.
  destruct (Z.eqb_spec r TEE_SUCCESS) as [->|]; cbn [negb]; wp_steps; [|by flash_release].
  destruct (Hs3 eq_refl) as [Htk3 _]. rewrite Htk3 in Hf3.
  eapply wp_mono; [by eapply wait_ok|]. intros r s4 (_&m&g4&Hf4). wp_steps. flash_release.
  split_and!; [done|by left|]. intros _. exists n, m. unfold enabled.
  cbn [app] in *. by rewrite <- !app_assoc in *.
Qed.

(** What follows the write enable in an erase: the command, its operand,
    and the wait whose outcome is not reported. *)
Lemma erase_tail cmd out data s1 l g timeout : flash_live t 0 s → fowns s s1 l g →
  0 <= cmd < 2 ^ 8 → xfer_pre out None (Z.of_nat (length data)) (Z.of_nat (length data)) data 0 →
  Z.of_nat (length data) <= 3 →
  wp t (res ← w25qxx_spi_write 0 cs cmd out (Z.of_nat (length data));
        if negb (res =? TEE_SUCCESS) then spi_release 0;; mret res else
        w25qxx_wait_until_ready_internal 0 cs timeout;; spi_release 0;; mret TEE_SUCCESS)
    (λ r s', kept s s' ∧ flash_status r ∧ (r = TEE_SUCCESS → ∃ m,
       sent s s' (l ++ cmd :: data ++ status_cmds m))) s1.
Proof using Hrdy.
  intros Hlv Hf Hc Hpre Hl. unfold w25qxx_spi_write. wp_steps.
  eapply wp_mono; [eapply (regs_ok t cs _ s Hrdy Hlv); eauto; lia|].
  intros [r ob] s2 (Hr2&sn&got&Hf2&_&_&Hs&_). cbn [fst snd] in *. wp_steps.
  destruct (Z.eqb_spec r TEE_SUCCESS) as [->|]; cbn [negb]; wp_steps; [|by flash_release].
  destruct (Hs eq_refl) as [Htk _]. rewrite Htk in Hf2.
  eapply wp_mono; [by eapply wait_ok|]. intros r s4 (_&m&g4&Hf4). wp_steps. flash_release.
  split_and!; [done|by left|]. intros _. exists m. cbn [app] in *. by rewrite <- !app_assoc in *.
Qed.

Lemma w25qxx_sector_erase_ok a : flash_live t 0 s → 0 <= a →
  wp t (w25qxx_sector_erase 0 cs a)
    (λ r s', kept s s' ∧ flash_status r ∧ (r = TEE_SUCCESS → ∃ n m, sent s s'
       (enabled n ++ W25QXX_CMD_SECTOR_ERASE :: addr24 a ++ status_cmds m))) s.
Proof using Hrdy.
  intros Hlv Ha. unfold w25qxx_sector_erase. flash_acquire.
  eapply wp_mono; [by eapply write_enable_ok|]. intros r s1 (Hr1&n&g1&Hf1).
  destruct (Z.eqb_spec r TEE_SUCCESS) as [->|]; cbn [negb]; [|wp_steps; by flash_release].
  eapply wp_mono; [eapply (erase_tail _ _ (addr24 a)); eauto using xfer_pre_addr; [done|done]|].
  intros r s2 (?&?&Hs). split_and!; auto. intros Hr. exists n. apply Hs, Hr.
Qed.

Lemma w25qxx_chip_erase_ok : flash_live t 0 s →
  wp t (w25qxx_chip_erase 0 cs)
    (λ r s', kept s s' ∧ flash_status r ∧ (r = TEE_SUCCESS → ∃ n m, sent s s'
       (enabled n ++ W25QXX_CMD_CHIP_ERASE :: status_cmds m))) s.
Proof using Hrdy.
  intros Hlv. unfold w25qxx_chip_erase. flash_acquire.
  eapply wp_mono; [by eapply write_enable_ok|]. intros r s1 (Hr1&n&g1&Hf1).
  destruct (Z.eqb_spec r TEE_SUCCESS) as [->|]; cbn [negb]; [|wp_steps; by flash_release].
  eapply wp_mono; [eapply (erase_tail _ _ []); eauto; [done| |cbn; lia]|].
  { split_and!; auto; cbn; lia. }
  intros r s2 (?&?&Hs). split_and!; auto. intros Hr. exists n. apply Hs, Hr.
Qed.

Lemma w25qxx_init_ok : flash_live t 0 s →
  wp t (w25qxx_init 0 cs) (λ r s', kept s s' ∧ flash_status r ∧ ∃ n, sent s s' (enabled n)) s.
Proof using Hrdy.
  intros Hlv. unfold w25qxx_init. flash_acquire.
  eapply wp_mono; [by eapply write_enable_ok|]. intros r s1 (Hr1&n&g1&Hf1). wp_steps.
  flash_release. split_and!; eauto.
Qed.

(** The identifier is or-ed into the caller's variable: the first of the
    three bytes received is dropped. *)
Lemma w25qxx_read_id_ok id : flash_live t 0 s →
  wp t (w25qxx_read_id 0 cs (Some id)) (λ r s', kept s s' ∧ flash_status r.1
    ∧ if r.1 =? TEE_SUCCESS then ∃ o0 o1 o2, received s s' [o0; o1; o2]
        ∧ sent s s' [W25QXX_CMD_READ_ID]
        ∧ r.2 = Some (u16 (Z.lor id (o1 * 256 + o2)))
      else r.2 = Some id) s.
Proof using Hrdy.
  intros Hlv. unfold w25qxx_read_id. flash_acquire. eapply wp_mono.
  { eapply (regs_ok t cs _ s Hrdy Hlv _ None (Some (uninit 3)) _ [] 3); eauto; try solve [done|cbn; lia]. }
  intros [r ob] s2 (Hr2&sn&got&Hf2&_&Hob&Hs&Hans). cbn [fst snd] in *. subst ob. wp_steps.
  rewrite take_nil in Hf2. cbn [app] in Hf2.
  destruct (Z.eqb_spec r TEE_SUCCESS) as [->|Hne]; wp_steps.
  - destruct (Hs eq_refl) as [_ Hg]. destruct got as [|g0 [|g1 [|g2 [|]]]]; cbn in Hg; try lia.
    assert (∀ y, y ∈ [g0; g1; g2] → 0 <= y < 2 ^ 8) as Hr.
    { intros y Hy. destruct (proj1 (Forall_forall _ _) Hans y Hy) as (h&_&->). apply ord_range, u8_range. }
    pose proof (Hr g1 ltac:(set_solver)). pose proof (Hr g2 ltac:(set_solver)).
    cbn [default fmap option_fmap option_map].
    eapply (wp_buf_get _ _ _ g1); [lia|done|]. wp_steps.
    eapply (wp_buf_get _ _ _ g2); [lia|done|]. wp_steps. flash_release.
    split_and!; [done|by left|]. rewrite Z.eqb_refl. exists g0, g1, g2. split_and!; try done.
    by rewrite <- Z.lor_assoc, lor_shiftl_add by lia.
  - flash_release. split_and!; auto. cbn [fst snd].
    by rewrite (proj2 (Z.eqb_neq r TEE_SUCCESS)).
Qed.
End exported.

(** The source checks neither the bus number nor a failed acquire: on a bus
    that does not exist the transfer indexes past [spi_registers]. *)
Lemma w25qxx_init_bad_bus `{Env} cs s : d_wf s → 0 <= cs → w25qxx_init 1 cs s = Undef UB_oob.
Proof.
  intros (_&Hl&_) ?. unfold w25qxx_init, acquire40. unfold mbind at 1, M_bind at 1.
  rewrite spi_acquire_bad by (left; done).
  unfold w25qxx_write_enable_internal, w25qxx_spi_write, spi_transfer_regs, spi_chip_select,
    spi_clrsetbits, spi_reg, gets, arr_get, mbind, M_bind. cbn.
  by destruct (d_spi_base s) as [|? [|]].
Qed.
