(* ===== verification/Pta.v ===== *)
(** * The peripheral services (core/pta/*_service.c)

    The ten pseudo trusted applications through which a client reaches the
    drivers synchronously: each command checks the types (and some of the
    values) of its parameters, calls the driver and hands the result back.
    Memory references are mapped, also empty ones.  The clock of this platform
    always answers (kernel/tee_time.c over the ARM counter), so the error
    branches of [tee_time_get_sys_time] do not occur. *)

From Stdlib Require Import ZArith Lia Bool.
From stdpp Require Import base tactics option list numbers.
From S2P Require Import Prelude Platform Params Gpio I2c Spi.
From S2P Require Import Sensors Tel0157 Dht W25qxx.

Open Scope Z_scope.

(** A command gets the type word and the parameters and returns a status and
    the parameters. *)
Definition command (S : Type) : Type := Z → uparams → M S (Z * uparams).

(** [if (exp_param_types != param_types) return TEE_ERROR_BAD_PARAMETERS;] *)
Definition typed {S} (t0 t1 t2 t3 : Z) (body : uparams → M S (Z * uparams)) : command S :=
  λ param_types params,
    if negb (TEE_PARAM_TYPES t0 t1 t2 t3 =? param_types)
    then mret (TEE_ERROR_BAD_PARAMETERS, params) else body params.

Abbreviation NONE := TEE_PARAM_TYPE_NONE.
Abbreviation VALUE_IN := TEE_PARAM_TYPE_VALUE_INPUT.
Abbreviation VALUE_OUT := TEE_PARAM_TYPE_VALUE_OUTPUT.
Abbreviation VALUE_INOUT := TEE_PARAM_TYPE_VALUE_INOUT.
Abbreviation MEM_IN := TEE_PARAM_TYPE_MEMREF_INPUT.
Abbreviation MEM_OUT := TEE_PARAM_TYPE_MEMREF_OUTPUT.

(** A driver result whose buffer lies in the client's memory. *)
Definition back {S} (ps : uparams) (i res : Z) (ob : option buf) : M S (Z * uparams) :=
  match ob with
  | Some b => ps ← set_umem ps i b; mret (res, ps)
  | None => mret (res, ps)
  end.
(** A driver result in a variable of one byte, copied on success. *)
Definition back_byte {S} (ps : uparams) (i res : Z) (ob : option buf) : M S (Z * uparams) :=
  if negb (res =? TEE_SUCCESS) then mret (res, ps) else
  x ← buf_get (default [] ob) 0;
  ps ← set_uvalue_a ps i x;
  mret (TEE_SUCCESS, ps).

(** ** GPIO (gpio_service.c) *)
Section gpio.
Context `{Env}.

Definition PTA_GPIO_CMD_INIT : Z := 0.
Definition PTA_GPIO_CMD_SET : Z := 1.
Definition PTA_GPIO_CMD_GET : Z := 2.
Definition PTA_GPIO_CMD_TEST_OVERHEAD : Z := 3.

Definition pta_gpio_init : command dstate := typed VALUE_IN NONE NONE NONE (λ ps,
  pin ← uvalue_a ps 0;
  m ← uvalue_b ps 0;
  if 5 <? m then mret (TEE_ERROR_BAD_PARAMETERS, ps) else
  r ← gpio_init pin (gpio_mode_of m);
  mret (if r =? 0 then TEE_SUCCESS else TEE_ERROR_BAD_PARAMETERS, ps)).

Definition pta_gpio_set : command dstate := typed VALUE_IN NONE NONE NONE (λ ps,
  pin ← uvalue_a ps 0;
  v ← uvalue_b ps 0;
  r ← gpio_set pin (if truth v then GPIO_HIGH_LEVEL else GPIO_LOW_LEVEL);
  mret (if r =? 0 then TEE_SUCCESS else TEE_ERROR_BAD_PARAMETERS, ps)).

Definition pta_gpio_get : command dstate := typed VALUE_IN VALUE_OUT NONE NONE (λ ps,
  pin ← uvalue_a ps 0;
  level ← gpio_get pin;
  if level <? 0 then mret (TEE_ERROR_BAD_PARAMETERS, ps) else
  ps ← set_uvalue_a ps 1 (u32 level);
  mret (TEE_SUCCESS, ps)).

(** The intervals are only printed. *)
Definition pta_gpio_test_overhead : command dstate := typed NONE NONE NONE NONE (λ ps,
  tee_time_get_sys_time;; gpio_init 23 GPIO_OUT;; tee_time_get_sys_time;;
  tee_time_get_sys_time;; gpio_set 23 GPIO_HIGH_LEVEL;; tee_time_get_sys_time;;
  tee_time_get_sys_time;; gpio_set 23 GPIO_LOW_LEVEL;; tee_time_get_sys_time;;
  tee_time_get_sys_time;; gpio_init 23 GPIO_IN;; tee_time_get_sys_time;;
  tee_time_get_sys_time;; gpio_get 23;; tee_time_get_sys_time;;
  tee_time_get_sys_time;; tee_time_get_sys_time;;
  mret (TEE_SUCCESS, ps)).

Definition gpio_invoke_command (cmd_id : Z) : command dstate := λ types ps,
  if cmd_id =? PTA_GPIO_CMD_INIT then pta_gpio_init types ps
  else if cmd_id =? PTA_GPIO_CMD_SET then pta_gpio_set types ps
  else if cmd_id =? PTA_GPIO_CMD_GET then pta_gpio_get types ps
  else if cmd_id =? PTA_GPIO_CMD_TEST_OVERHEAD then pta_gpio_test_overhead types ps
  else mret (TEE_ERROR_NOT_SUPPORTED, ps).
End gpio.

(** ** I2C (i2c_service.c) *)

Definition I2C_SERVICE_OVERHEAD_BENCHMARK_SIZE : Z := 100.
Definition I2C_SERVICE_OVERHEAD_BENCHMARK_POINTS : Z := 2.
Definition I2C_SERVICE_OVERHEAD_BENCHMARK_TIMES : Z := 50.

(** The driver state and the static variables of the service. *)
Record i2c_svc := I2cSvc { is_d : dstate; benchmark_idx : Z; benchmark_time : list Z }.
Definition i2c_svc_init (s : dstate) : i2c_svc :=
  I2cSvc s 0 (replicate (Z.to_nat I2C_SERVICE_OVERHEAD_BENCHMARK_SIZE) 0).
Definition on_driver {A} (m : D A) : M i2c_svc A :=
  zoom is_d (λ s v, I2cSvc s (benchmark_idx v) (benchmark_time v)) m.

Section i2c.
Context `{Env}.

Definition PTA_I2C_READ_BYTE : Z := 0.
Definition PTA_I2C_READ_BYTES : Z := 1.
Definition PTA_I2C_WRITE_BYTE : Z := 2.
Definition PTA_I2C_WRITE_BYTES : Z := 3.
Definition PTA_I2C_READ_REG : Z := 4.
Definition PTA_I2C_READ_REGS : Z := 5.
Definition PTA_I2C_WRITE_REG : Z := 6.
Definition PTA_I2C_WRITE_REGS : Z := 7.
Definition PTA_I2C_SET_FREQ : Z := 8.
Definition PTA_I2C_GET_OVERHEAD_TIMESTAMP : Z := 9.

(** The bus number of the first parameter is acquired around the transfer; a
    failed acquire is reported as bad parameters. *)
Definition i2c_section {A} (ps : uparams) (dev : Z) (m : D A)
    (fin : A → D (Z * uparams)) : D (Z * uparams) :=
  r ← i2c_acquire dev;
  if negb (r =? TEE_SUCCESS) then mret (TEE_ERROR_BAD_PARAMETERS, ps) else
  x ← m;
  i2c_release dev;;
  fin x.

Definition pta_i2c_read_byte : command dstate := typed VALUE_INOUT VALUE_IN NONE NONE (λ ps,
  a ← uvalue_a ps 0; addr ← uvalue_b ps 0; flags ← uvalue_a ps 1;
  i2c_section ps (i2c_t a) (i2c_read_byte (i2c_t a) (u16 addr) (Some (uninit 1)) (u8 flags))
    (λ '(res, ob), back_byte ps 0 res ob)).

Definition i2c_bench (point : Z) : M i2c_svc unit :=
  t ← on_driver tee_time_get_sys_time;
  i ← gets benchmark_idx;
  l ← gets benchmark_time;
  l ← arr_set l (u32 (i * I2C_SERVICE_OVERHEAD_BENCHMARK_POINTS + point)) (teetime_to_micro t);
  modify (λ v, I2cSvc (is_d v) (benchmark_idx v) l).

(** A time stamp before the checks, another after the transfer; the early
    returns skip the second. *)
Definition pta_i2c_read_bytes : command i2c_svc := λ types ps,
  i2c_bench 0;;
  typed VALUE_IN VALUE_IN MEM_OUT NONE (λ ps,
  a ← uvalue_a ps 0; addr ← uvalue_b ps 0; flags ← uvalue_a ps 1;
  '(b, n) ← umemref ps 2;
  r ← on_driver (i2c_acquire (i2c_t a));
  if negb (r =? TEE_SUCCESS) then mret (TEE_ERROR_BAD_PARAMETERS, ps) else
  '(res, ob) ← on_driver (i2c_read_bytes (i2c_t a) (u16 addr) (Some b) n (u8 flags));
  on_driver (i2c_release (i2c_t a));;
  i2c_bench 1;;
  modify (λ v, if benchmark_idx v <? I2C_SERVICE_OVERHEAD_BENCHMARK_TIMES - 1
               then I2cSvc (is_d v) (benchmark_idx v + 1) (benchmark_time v) else v);;
  back ps 2 res ob) types ps.

Definition pta_i2c_write_byte : command dstate := typed VALUE_IN VALUE_IN NONE NONE (λ ps,
  a ← uvalue_a ps 0; addr ← uvalue_b ps 0; x ← uvalue_b ps 1; flags ← uvalue_a ps 1;
  i2c_section ps (i2c_t a) (i2c_write_byte (i2c_t a) (u16 addr) (u8 x) (u8 flags))
    (λ res, mret (res, ps))).

Definition pta_i2c_write_bytes : command dstate := typed VALUE_IN VALUE_IN MEM_IN NONE (λ ps,
  a ← uvalue_a ps 0; addr ← uvalue_b ps 0; flags ← uvalue_a ps 1;
  '(b, n) ← umemref ps 2;
  i2c_section ps (i2c_t a) (i2c_write_bytes (i2c_t a) (u16 addr) (Some b) n (u8 flags))
    (λ res, mret (res, ps))).

Definition pta_i2c_read_reg : command dstate := typed VALUE_INOUT VALUE_IN NONE NONE (λ ps,
  a ← uvalue_a ps 0; addr ← uvalue_b ps 0; reg ← uvalue_b ps 1; flags ← uvalue_a ps 1;
  i2c_section ps (i2c_t a) (i2c_read_reg (i2c_t a) (u16 addr) (u16 reg) (Some (uninit 1)) (u8 flags))
    (λ '(res, ob), back_byte ps 0 res ob)).

Definition pta_i2c_read_regs : command dstate := typed VALUE_IN VALUE_IN MEM_OUT NONE (λ ps,
  a ← uvalue_a ps 0; addr ← uvalue_b ps 0; reg ← uvalue_b ps 1; flags ← uvalue_a ps 1;
  '(b, n) ← umemref ps 2;
  i2c_section ps (i2c_t a) (i2c_read_regs (i2c_t a) (u16 addr) (u16 reg) (Some b) n (u8 flags))
    (λ '(res, ob), back ps 2 res ob)).

Definition pta_i2c_write_reg : command dstate := typed VALUE_IN VALUE_IN VALUE_IN NONE (λ ps,
  a ← uvalue_a ps 0; addr ← uvalue_b ps 0; reg ← uvalue_b ps 1; x ← uvalue_a ps 2;
  flags ← uvalue_a ps 1;
  i2c_section ps (i2c_t a) (i2c_write_reg (i2c_t a) (u16 addr) (u16 reg) (u8 x) (u8 flags))
    (λ res, mret (res, ps))).

Definition pta_i2c_write_regs : command dstate := typed VALUE_IN VALUE_IN MEM_IN NONE (λ ps,
  a ← uvalue_a ps 0; addr ← uvalue_b ps 0; reg ← uvalue_b ps 1; flags ← uvalue_a ps 1;
  '(b, n) ← umemref ps 2;
  i2c_section ps (i2c_t a) (i2c_write_regs (i2c_t a) (u16 addr) (u16 reg) (Some b) n (u8 flags))
    (λ res, mret (res, ps))).

Definition pta_i2c_set_freq : command dstate := typed VALUE_IN NONE NONE NONE (λ ps,
  a ← uvalue_a ps 0; f ← uvalue_b ps 0;
  if 3 <? f then mret (TEE_ERROR_NOT_SUPPORTED, ps) else
  i2c_section ps (i2c_t a) (i2c_set_frequency (i2c_t a) (i2c_speed_of f)) (λ res, mret (res, ps))).

(** [sizeof(benchmark_time)] is 800 bytes; the words are little endian. *)
Definition pta_i2c_get_overhead_timestamp : command i2c_svc :=
  typed MEM_OUT NONE NONE NONE (λ ps,
  '(b, n) ← umemref ps 0;
  if n <? 8 * I2C_SERVICE_OVERHEAD_BENCHMARK_SIZE then mret (TEE_ERROR_SHORT_BUFFER, ps) else
  l ← gets benchmark_time;
  b ← memcpy b (bytes (l ≫= le 8)) (8 * I2C_SERVICE_OVERHEAD_BENCHMARK_SIZE);
  ps ← set_umem ps 0 b;
  modify (λ v, I2cSvc (is_d v) 0 (benchmark_time v));;
  mret (TEE_SUCCESS, ps)).

Definition i2c_invoke_command (cmd_id : Z) : command i2c_svc := λ types ps,
  if cmd_id =? PTA_I2C_READ_BYTE then on_driver (pta_i2c_read_byte types ps)
  else if cmd_id =? PTA_I2C_READ_BYTES then pta_i2c_read_bytes types ps
  else if cmd_id =? PTA_I2C_WRITE_BYTE then on_driver (pta_i2c_write_byte types ps)
  else if cmd_id =? PTA_I2C_WRITE_BYTES then on_driver (pta_i2c_write_bytes types ps)
  else if cmd_id =? PTA_I2C_READ_REG then on_driver (pta_i2c_read_reg types ps)
  else if cmd_id =? PTA_I2C_READ_REGS then on_driver (pta_i2c_read_regs types ps)
  else if cmd_id =? PTA_I2C_WRITE_REG then on_driver (pta_i2c_write_reg types ps)
  else if cmd_id =? PTA_I2C_WRITE_REGS then on_driver (pta_i2c_write_regs types ps)
  else if cmd_id =? PTA_I2C_SET_FREQ then on_driver (pta_i2c_set_freq types ps)
  else if cmd_id =? PTA_I2C_GET_OVERHEAD_TIMESTAMP then pta_i2c_get_overhead_timestamp types ps
  else mret (TEE_ERROR_NOT_SUPPORTED, ps).
End i2c.

(** ** SPI (spi_service.c) *)
Section spi.
Context `{Env}.

Definition PTA_CMD_SPI_TRANSFER_BYTE : Z := 0.
Definition PTA_CMD_SPI_TRANSFER_BYTES : Z := 1.
Definition PTA_CMD_SPI_TRANSFER_DIFF_BYTES : Z := 2.

(** [(params[0].value.a >> 16) & 0xFFFF] and [params[0].value.a & 0xFFFF]. *)
Definition spi_of (a : Z) : Z := spi_t (Z.land (Z.shiftr a 16) 0xFFFF).
Definition spi_cs_of (a : Z) : Z := spi_cs_t (Z.land a 0xFFFF).
(** [SPI_MODE_3] and [SPI_CLK_40MHZ] are the last values of their types. *)
Definition spi_config_bad (mode clk : Z) : bool := (3 <? mode) || (5 <? clk).

Definition pta_spi_transfer_byte : command dstate :=
  typed VALUE_INOUT VALUE_IN VALUE_IN VALUE_IN (λ ps,
  mode ← uvalue_a ps 1; clk ← uvalue_b ps 1;
  if spi_config_bad mode clk then mret (TEE_ERROR_BAD_PARAMETERS, ps) else
  c ← uvalue_b ps 0;
  a ← uvalue_a ps 0;
  let cont := 0 <? c in
  let spi := spi_of a in
  let cs := spi_cs_of a in
  res ← spi_acquire spi cs mode (spi_clk_of clk);
  if negb (res =? TEE_SUCCESS) then mret (res, ps) else
  o ← uvalue_a ps 3;
  w ← uvalue_a ps 2;
  r ← uvalue_b ps 2;
  '(res, ps) ←
    (if (0 <? w) && (0 <? r) then
       '(res, got) ← spi_transfer_byte spi cs cont (u8 o) true;
       if res =? TEE_SUCCESS then
         match got with
         | Some x => ps ← set_uvalue_a ps 0 x; mret (res, ps)
         | None => undef UB_uninit
         end
       else mret (res, ps)
     else if (0 <? w) && (r =? 0) then
       '(res, _) ← spi_transfer_byte spi cs cont (u8 o) false; mret (res, ps)
     else if (w =? 0) && (0 <? r) then
       '(res, got) ← spi_transfer_byte spi cs cont 0 true;
       if res =? TEE_SUCCESS then
         match got with
         | Some x => ps ← set_uvalue_a ps 0 x; mret (res, ps)
         | None => undef UB_uninit
         end
       else mret (res, ps)
     else mret (res, ps));
  spi_release spi;;
  mret (res, ps)).

Definition pta_spi_transfer_bytes : command dstate := typed VALUE_IN VALUE_IN MEM_IN MEM_OUT (λ ps,
  mode ← uvalue_a ps 1; clk ← uvalue_b ps 1;
  if spi_config_bad mode clk then mret (TEE_ERROR_BAD_PARAMETERS, ps) else
  '(ob, on) ← umemref ps 2;
  '(ib, inn) ← umemref ps 3;
  if (0 <? on) && (0 <? inn) && negb (on =? inn) then mret (TEE_ERROR_BAD_PARAMETERS, ps) else
  c ← uvalue_b ps 0;
  a ← uvalue_a ps 0;
  let cont := 0 <? c in
  let spi := spi_of a in
  let cs := spi_cs_of a in
  res ← spi_acquire spi cs mode (spi_clk_of clk);
  if negb (res =? TEE_SUCCESS) then mret (res, ps) else
  '(res, ib) ←
    (if (on =? inn) && (0 <? on) then spi_transfer_bytes spi cs cont (Some ob) (Some ib) on
     else if (0 <? on) && (inn =? 0) then
       '(res, _) ← spi_transfer_bytes spi cs cont (Some ob) None on; mret (res, Some ib)
     else if (0 <? inn) && (on =? 0) then spi_transfer_bytes spi cs cont None (Some ib) inn
     else mret (res, Some ib));
  spi_release spi;;
  back ps 3 res ib).

Definition pta_spi_transfer_diff_bytes : command dstate :=
  typed VALUE_IN VALUE_IN MEM_IN MEM_OUT (λ ps,
  mode ← uvalue_a ps 1; clk ← uvalue_b ps 1;
  if spi_config_bad mode clk then mret (TEE_ERROR_BAD_PARAMETERS, ps) else
  c ← uvalue_b ps 0;
  a ← uvalue_a ps 0;
  let cont := 0 <? c in
  let spi := spi_of a in
  let cs := spi_cs_of a in
  res ← spi_acquire spi cs mode (spi_clk_of clk);
  if negb (res =? TEE_SUCCESS) then mret (res, ps) else
  '(ob, on) ← umemref ps 2;
  '(ib, inn) ← umemref ps 3;
  '(res, ib) ← spi_transfer_diff_bytes spi cs cont (Some ob) (Some ib) on inn;
  spi_release spi;;
  back ps 3 res ib).

Definition spi_invoke_command (cmd_id : Z) : command dstate := λ types ps,
  if cmd_id =? PTA_CMD_SPI_TRANSFER_BYTE then pta_spi_transfer_byte types ps
  else if cmd_id =? PTA_CMD_SPI_TRANSFER_BYTES then pta_spi_transfer_bytes types ps
  else if cmd_id =? PTA_CMD_SPI_TRANSFER_DIFF_BYTES then pta_spi_transfer_diff_bytes types ps
  else mret (TEE_ERROR_NOT_SUPPORTED, ps).
End spi.

(** ** DHT (dht_service.c) *)
Section dht.
Context `{Env}.

Definition PTA_CMD_DHT_INIT : Z := 0.
Definition PTA_CMD_DHT_READ : Z := 1.
Definition PTA_CMD_TEST_GET_SYS_TIME_OVERHEAD : Z := 2.

(** [dev_params] and [dev] of both commands; [last_val] is zeroed. *)
Definition dht_params_of (pin ty : Z) : dht_params_t := DhtParams pin (dht_type_of ty) GPIO_IN_PU.
Definition dht_dev_of (pin ty : Z) : dht_t := Dht (dht_params_of pin ty) (DhtData 0 0).

Definition pta_dht_init : command dstate := typed VALUE_IN NONE NONE NONE (λ ps,
  pin ← uvalue_a ps 0; ty ← uvalue_b ps 0;
  '(res, _) ← dht_init (Some (dht_dev_of pin ty)) (Some (dht_params_of pin ty));
  mret (res, ps)).

(** [temp] and [hum] start as 0 and are stored on every outcome. *)
Definition pta_dht_read : command dstate := typed VALUE_IN VALUE_OUT NONE NONE (λ ps,
  pin ← uvalue_a ps 0; ty ← uvalue_b ps 0;
  '(res, _, v) ← dht_read (Some (dht_dev_of pin ty));
  let '(temp, hum) := default (0, 0) v in
  ps ← set_uvalue_a ps 1 (u32 temp);
  ps ← set_uvalue_b ps 1 (u32 hum);
  mret (res, ps)).

Definition pta_test_get_sys_time_overhead : command dstate := typed NONE NONE NONE NONE (λ ps,
  tee_time_get_sys_time;; tee_time_get_sys_time;; tee_time_get_sys_time;;
  mret (TEE_SUCCESS, ps)).

Definition dht_invoke_command (cmd_id : Z) : command dstate := λ types ps,
  if cmd_id =? PTA_CMD_DHT_INIT then pta_dht_init types ps
  else if cmd_id =? PTA_CMD_DHT_READ then pta_dht_read types ps
  else if cmd_id =? PTA_CMD_TEST_GET_SYS_TIME_OVERHEAD then pta_test_get_sys_time_overhead types ps
  else mret (TEE_ERROR_NOT_SUPPORTED, ps).
End dht.

(** ** Serial flash (w25qxx_service.c) *)
Section w25qxx.
Context `{Env}.

Definition PTA_CMD_W25QXX_INIT : Z := 0.
Definition PTA_CMD_W25QXX_READ_ID : Z := 1.
Definition PTA_CMD_W25QXX_READ_DATA : Z := 2.
Definition PTA_CMD_W25QXX_PAGE_PROGRAM : Z := 3.
Definition PTA_CMD_W25QXX_SECTOR_ERASE : Z := 4.
Definition PTA_CMD_W25QXX_CHIP_ERASE : Z := 5.

Definition pta_w25qxx_init : command dstate := typed VALUE_IN NONE NONE NONE (λ ps,
  bus ← uvalue_a ps 0; cs ← uvalue_b ps 0;
  res ← w25qxx_init (spi_t bus) (spi_cs_t cs); mret (res, ps)).

(** [id] is not initialised. *)
Definition pta_w25qxx_read_id : command dstate := typed VALUE_INOUT NONE NONE NONE (λ ps,
  bus ← uvalue_a ps 0; cs ← uvalue_b ps 0;
  '(res, id) ← w25qxx_read_id (spi_t bus) (spi_cs_t cs) None;
  if negb (res =? TEE_SUCCESS) then mret (res, ps) else
  match id with
  | Some v => ps ← set_uvalue_a ps 0 v; mret (TEE_SUCCESS, ps)
  | None => undef UB_uninit
  end).

Definition pta_w25qxx_read_data : command dstate := typed VALUE_IN VALUE_IN MEM_OUT NONE (λ ps,
  bus ← uvalue_a ps 0; cs ← uvalue_b ps 0; addr ← uvalue_a ps 1;
  '(b, n) ← umemref ps 2;
  '(res, ob) ← w25qxx_read_data (spi_t bus) (spi_cs_t cs) (Some b) addr n;
  back ps 2 res ob).

Definition pta_w25qxx_page_program : command dstate := typed VALUE_IN VALUE_IN MEM_IN NONE (λ ps,
  bus ← uvalue_a ps 0; cs ← uvalue_b ps 0; addr ← uvalue_a ps 1;
  '(b, n) ← umemref ps 2;
  res ← w25qxx_page_program (spi_t bus) (spi_cs_t cs) (Some b) addr n;
  mret (res, ps)).

Definition pta_w25qxx_sector_erase : command dstate := typed VALUE_IN VALUE_IN NONE NONE (λ ps,
  bus ← uvalue_a ps 0; cs ← uvalue_b ps 0; addr ← uvalue_a ps 1;
  res ← w25qxx_sector_erase (spi_t bus) (spi_cs_t cs) addr;
  mret (res, ps)).

Definition pta_w25qxx_chip_erase : command dstate := typed VALUE_IN NONE NONE NONE (λ ps,
  bus ← uvalue_a ps 0; cs ← uvalue_b ps 0;
  res ← w25qxx_chip_erase (spi_t bus) (spi_cs_t cs);
  mret (res, ps)).

Definition w25qxx_invoke_command (cmd_id : Z) : command dstate := λ types ps,
  if cmd_id =? PTA_CMD_W25QXX_INIT then pta_w25qxx_init types ps
  else if cmd_id =? PTA_CMD_W25QXX_READ_ID then pta_w25qxx_read_id types ps
  else if cmd_id =? PTA_CMD_W25QXX_READ_DATA then pta_w25qxx_read_data types ps
  else if cmd_id =? PTA_CMD_W25QXX_PAGE_PROGRAM then pta_w25qxx_page_program types ps
  else if cmd_id =? PTA_CMD_W25QXX_SECTOR_ERASE then pta_w25qxx_sector_erase types ps
  else if cmd_id =? PTA_CMD_W25QXX_CHIP_ERASE then pta_w25qxx_chip_erase types ps
  else mret (TEE_ERROR_NOT_SUPPORTED, ps).
End w25qxx.

(** ** Sensors on I2C

    [dev.i2c = (i2c_t)params[0].value.a; dev.addr = (uint8_t)params[0].value.b]
    in each of them. *)
Section i2c_sensors.
Context `{Env}.

Definition dev_of (ps : uparams) : D i2c_dev :=
  a ← uvalue_a ps 0; b ← uvalue_b ps 0; mret (I2cDev (i2c_t a) (u8 b)).
Definition status (ps : uparams) (m : D Z) : D (Z * uparams) := res ← m; mret (res, ps).

(** *** AT24Cxx (at24cxx_service.c) *)

Definition PTA_CMD_AT24CXX_READ : Z := 0.
Definition PTA_CMD_AT24CXX_WRITE : Z := 1.

Definition pta_at24cxx_read : command dstate := typed VALUE_IN VALUE_IN MEM_OUT NONE (λ ps,
  d ← dev_of ps; addr ← uvalue_a ps 1;
  '(b, n) ← umemref ps 2;
  '(res, ob) ← At24cxx.at24cxx_read d (u16 addr) (Some b) n;
  back ps 2 res ob).

Definition pta_at24cxx_write : command dstate := typed VALUE_IN VALUE_IN MEM_IN NONE (λ ps,
  d ← dev_of ps; addr ← uvalue_a ps 1;
  '(b, n) ← umemref ps 2;
  status ps (At24cxx.at24cxx_write d (u16 addr) (Some b) n)).

Definition at24cxx_invoke_command (cmd_id : Z) : command dstate := λ types ps,
  if cmd_id =? PTA_CMD_AT24CXX_READ then pta_at24cxx_read types ps
  else if cmd_id =? PTA_CMD_AT24CXX_WRITE then pta_at24cxx_write types ps
  else mret (TEE_ERROR_BAD_PARAMETERS, ps).

(** *** ATK-301 (atk301_service.c) *)

Definition PTA_CMD_ATK301_INIT : Z := 0.
Definition PTA_CMD_ATK301_GET_FINGERPRINT_IMAGE : Z := 1.
Definition PTA_CMD_ATK301_UPLOAD_FINGERPRINT_IMAGE : Z := 2.

Definition pta_atk301_init : command dstate := typed VALUE_IN NONE NONE NONE (λ ps,
  d ← dev_of ps; status ps (Atk301.atk301_init d)).

Definition pta_atk301_get_fingerprint_image : command dstate := typed VALUE_IN NONE NONE NONE (λ ps,
  d ← dev_of ps; status ps (Atk301.atk301_get_fingerprint_image d)).

Definition pta_atk301_upload_fingerprint_image : command dstate :=
  typed VALUE_IN MEM_OUT NONE NONE (λ ps,
  '(b, n) ← umemref ps 1;
  if negb (n =? Atk301.ATK301_FINGERPRINT_IMAGE_DATA_LEN)
  then mret (TEE_ERROR_BAD_PARAMETERS, ps) else
  d ← dev_of ps;
  '(res, b) ← Atk301.atk301_upload_fingerprint_image d b;
  back ps 1 res (Some b)).

Definition atk301_invoke_command (cmd_id : Z) : command dstate := λ types ps,
  if cmd_id =? PTA_CMD_ATK301_INIT then pta_atk301_init types ps
  else if cmd_id =? PTA_CMD_ATK301_GET_FINGERPRINT_IMAGE then
    pta_atk301_get_fingerprint_image types ps
  else if cmd_id =? PTA_CMD_ATK301_UPLOAD_FINGERPRINT_IMAGE then
    pta_atk301_upload_fingerprint_image types ps
  else mret (TEE_ERROR_BAD_PARAMETERS, ps).

(** *** BH1750FVI (bh1750fvi_service.c) *)

Definition PTA_CMD_BH1750FVI_INIT : Z := 0.
Definition PTA_CMD_BH1750FVI_SAMPLE : Z := 1.

Definition pta_bh1750fvi_init : command dstate := typed VALUE_IN NONE NONE NONE (λ ps,
  d ← dev_of ps; status ps (Bh1750fvi.bh1750fvi_init d)).

Definition pta_bh1750fvi_sample : command dstate := typed VALUE_INOUT NONE NONE NONE (λ ps,
  d ← dev_of ps;
  '(res, lux) ← Bh1750fvi.bh1750fvi_sample d;
  if negb (res =? TEE_SUCCESS) then mret (res, ps) else
  match lux with
  | Some v => ps ← set_uvalue_a ps 0 v; mret (TEE_SUCCESS, ps)
  | None => undef UB_uninit
  end).

Definition bh1750fvi_invoke_command (cmd_id : Z) : command dstate := λ types ps,
  if cmd_id =? PTA_CMD_BH1750FVI_INIT then pta_bh1750fvi_init types ps
  else if cmd_id =? PTA_CMD_BH1750FVI_SAMPLE then pta_bh1750fvi_sample types ps
  else mret (TEE_ERROR_NOT_SUPPORTED, ps).

(** *** MPU6050 (mpu6050_service.c) *)

Definition PTA_CMD_MPU6050_INIT : Z := 0.
Definition PTA_CMD_MPU6050_DEINIT : Z := 1.
Definition PTA_CMD_MPU6050_SAMPLE : Z := 2.

Definition pta_mpu6050_init : command dstate := typed VALUE_IN NONE NONE NONE (λ ps,
  d ← dev_of ps; status ps (Mpu6050.mpu_init d)).

Definition pta_mpu6050_deinit : command dstate := typed VALUE_IN NONE NONE NONE (λ ps,
  d ← dev_of ps; status ps (Mpu6050.mpu_deinit d)).

Definition pta_mpu6050_sample : command dstate := typed VALUE_IN MEM_OUT NONE NONE (λ ps,
  '(b, n) ← umemref ps 1;
  if negb (n =? 14) then mret (TEE_ERROR_BAD_PARAMETERS, ps) else
  d ← dev_of ps;
  '(res, ob) ← Mpu6050.mpu_sample d (Some b);
  back ps 1 res ob).

Definition mpu6050_invoke_command (cmd_id : Z) : command dstate := λ types ps,
  if cmd_id =? PTA_CMD_MPU6050_INIT then pta_mpu6050_init types ps
  else if cmd_id =? PTA_CMD_MPU6050_DEINIT then pta_mpu6050_deinit types ps
  else if cmd_id =? PTA_CMD_MPU6050_SAMPLE then pta_mpu6050_sample types ps
  else mret (TEE_ERROR_NOT_SUPPORTED, ps).

(** *** TEL0157 (tel0157_service.c)

    [gnss_mode] and [rgb] are read by [tel0157_init] only; the other commands
    leave them unset. *)

Definition PTA_CMD_TEL0157_INIT : Z := 0.
Definition PTA_CMD_TEL0157_DEINIT : Z := 1.
Definition PTA_CMD_TEL0157_GET_UTC_TIME : Z := 2.
Definition PTA_CMD_TEL0157_GET_LON : Z := 3.
Definition PTA_CMD_TEL0157_GET_LAT : Z := 4.
Definition PTA_CMD_TEL0157_GET_ALT : Z := 5.
Definition PTA_CMD_TEL0157_GET_SOG : Z := 6.
Definition PTA_CMD_TEL0157_GET_COG : Z := 7.
Definition PTA_CMD_TEL0157_GET_NUM_SAT_USED : Z := 8.
Definition PTA_CMD_TEL0157_GET_GNSS_MODE : Z := 9.
Definition PTA_CMD_TEL0157_GET_GNSS_LEN : Z := 10.
Definition PTA_CMD_TEL0157_GET_ALL_GNSS : Z := 11.

Definition tel_dev_of (ps : uparams) : D tel0157_t := d ← dev_of ps; mret (Tel d 0 0).

Definition pta_tel0157_init : command dstate := typed VALUE_IN VALUE_IN NONE NONE (λ ps,
  d ← dev_of ps; mode ← uvalue_a ps 1; rgb ← uvalue_b ps 1;
  '(res, _) ← tel0157_init (Tel d (u8 mode) (u8 rgb)); mret (res, ps)).

Definition pta_tel0157_deinit : command dstate := typed VALUE_IN NONE NONE NONE (λ ps,
  d ← tel_dev_of ps; '(res, _) ← tel0157_deinit d; mret (res, ps)).

(** The record lies in the client's memory: only the fields the driver sets
    change. *)
Definition pta_tel0157_get_utc_time : command dstate := typed VALUE_IN MEM_OUT NONE NONE (λ ps,
  '(b, n) ← umemref ps 1;
  if negb (n =? sizeof_time) then mret (TEE_ERROR_BAD_PARAMETERS, ps) else
  d ← tel_dev_of ps;
  '(res, q) ← tel0157_get_utc_time d time_none;
  back ps 1 res (Some (overlay (time_bytes q) b))).

Definition pta_tel0157_get_lon : command dstate := typed VALUE_IN MEM_OUT NONE NONE (λ ps,
  '(b, n) ← umemref ps 1;
  if negb (n =? sizeof_lon_lat) then mret (TEE_ERROR_BAD_PARAMETERS, ps) else
  d ← tel_dev_of ps;
  '(res, q) ← tel0157_get_lon d lon_lat_none;
  back ps 1 res (Some (overlay (lon_lat_bytes q) b))).

Definition pta_tel0157_get_lat : command dstate := typed VALUE_IN MEM_OUT NONE NONE (λ ps,
  '(b, n) ← umemref ps 1;
  if negb (n =? sizeof_lon_lat) then mret (TEE_ERROR_BAD_PARAMETERS, ps) else
  d ← tel_dev_of ps;
  '(res, q) ← tel0157_get_lat d lon_lat_none;
  back ps 1 res (Some (overlay (lon_lat_bytes q) b))).

(** The three getters of three bytes differ only in the driver call. *)
Definition pta_tel0157_get3 (get : tel0157_t → option buf → D (Z * option buf)) : command dstate :=
  typed VALUE_IN MEM_OUT NONE NONE (λ ps,
  '(b, n) ← umemref ps 1;
  if negb (n =? 3) then mret (TEE_ERROR_BAD_PARAMETERS, ps) else
  d ← tel_dev_of ps;
  '(res, ob) ← get d (Some b);
  back ps 1 res ob).
Definition pta_tel0157_get_alt : command dstate := pta_tel0157_get3 tel0157_get_alt.
Definition pta_tel0157_get_sog : command dstate := pta_tel0157_get3 tel0157_get_sog.
Definition pta_tel0157_get_cog : command dstate := pta_tel0157_get3 tel0157_get_cog.

Definition pta_tel0157_get_num_sat_used : command dstate := typed VALUE_INOUT NONE NONE NONE (λ ps,
  d ← tel_dev_of ps;
  '(res, ob) ← tel0157_get_num_sat_used d (Some (uninit 1));
  back_byte ps 0 res ob).

Definition pta_tel0157_get_gnss_mode : command dstate := typed VALUE_INOUT NONE NONE NONE (λ ps,
  d ← tel_dev_of ps;
  '(res, ob) ← tel0157_get_gnss_mode d (Some (uninit 1));
  back_byte ps 0 res ob).

Definition pta_tel0157_get_gnss_len : command dstate := typed VALUE_INOUT NONE NONE NONE (λ ps,
  d ← tel_dev_of ps;
  '(res, len) ← tel0157_get_gnss_len d;
  if negb (res =? TEE_SUCCESS) then mret (res, ps) else
  match len with
  | Some v => ps ← set_uvalue_a ps 0 v; mret (TEE_SUCCESS, ps)
  | None => undef UB_uninit
  end).

Definition pta_tel0157_get_all_gnss : command dstate := typed VALUE_IN MEM_OUT NONE NONE (λ ps,
  d ← tel_dev_of ps;
  '(b, n) ← umemref ps 1;
  '(res, ob) ← tel0157_get_all_gnss d (Some b) (u16 n);
  back ps 1 res ob).

Definition tel0157_invoke_command (cmd_id : Z) : command dstate := λ types ps,
  if cmd_id =? PTA_CMD_TEL0157_INIT then pta_tel0157_init types ps
  else if cmd_id =? PTA_CMD_TEL0157_DEINIT then pta_tel0157_deinit types ps
  else if cmd_id =? PTA_CMD_TEL0157_GET_UTC_TIME then pta_tel0157_get_utc_time types ps
  else if cmd_id =? PTA_CMD_TEL0157_GET_LON then pta_tel0157_get_lon types ps
  else if cmd_id =? PTA_CMD_TEL0157_GET_LAT then pta_tel0157_get_lat types ps
  else if cmd_id =? PTA_CMD_TEL0157_GET_ALT then pta_tel0157_get_alt types ps
  else if cmd_id =? PTA_CMD_TEL0157_GET_SOG then pta_tel0157_get_sog types ps
  else if cmd_id =? PTA_CMD_TEL0157_GET_COG then pta_tel0157_get_cog types ps
  else if cmd_id =? PTA_CMD_TEL0157_GET_NUM_SAT_USED then pta_tel0157_get_num_sat_used types ps
  else if cmd_id =? PTA_CMD_TEL0157_GET_GNSS_MODE then pta_tel0157_get_gnss_mode types ps
  else if cmd_id =? PTA_CMD_TEL0157_GET_GNSS_LEN then pta_tel0157_get_gnss_len types ps
  else if cmd_id =? PTA_CMD_TEL0157_GET_ALL_GNSS then pta_tel0157_get_all_gnss types ps
  else mret (TEE_ERROR_NOT_SUPPORTED, ps).
End i2c_sensors.

(** ** All services

    A client opens a session with one of them and invokes commands; the
    commands of all but the I2C service keep no state of their own. *)

Inductive service :=
  | GPIO_SERVICE | I2C_SERVICE | SPI_SERVICE | DHT_SERVICE | W25QXX_SERVICE | AT24CXX_SERVICE
  | ATK301_SERVICE | BH1750FVI_SERVICE | MPU6050_SERVICE | TEL0157_SERVICE.

Definition pta_invoke `{Env} (svc : service) (cmd_id : Z) : command i2c_svc := λ types ps,
  match svc with
  | I2C_SERVICE => i2c_invoke_command cmd_id types ps
  | GPIO_SERVICE => on_driver (gpio_invoke_command cmd_id types ps)
  | SPI_SERVICE => on_driver (spi_invoke_command cmd_id types ps)
  | DHT_SERVICE => on_driver (dht_invoke_command cmd_id types ps)
  | W25QXX_SERVICE => on_driver (w25qxx_invoke_command cmd_id types ps)
  | AT24CXX_SERVICE => on_driver (at24cxx_invoke_command cmd_id types ps)
  | ATK301_SERVICE => on_driver (atk301_invoke_command cmd_id types ps)
  | BH1750FVI_SERVICE => on_driver (bh1750fvi_invoke_command cmd_id types ps)
  | MPU6050_SERVICE => on_driver (mpu6050_invoke_command cmd_id types ps)
  | TEL0157_SERVICE => on_driver (tel0157_invoke_command cmd_id types ps)
  end.
