(* ===== verification/PtaProofs.v ===== *)
(** * The peripheral services: contract and safety

    Every command of every service, for parameters as the kernel hands them
    over, reaches no undefined behaviour, gives every bus back, returns a TEE
    status, writes only the parameters that its type word declares as output,
    and with [t = true] returns when the devices answer.  [pta_client_ok] says
    what the source leaves to the client. *)

From Stdlib Require Import ZArith Lia Bool.
From stdpp Require Import base tactics option list numbers gmap.
From S2P Require Import Prelude Platform Params Gpio I2c I2cProofs Spi SpiProofs.
From S2P Require Import Sensors SensorsProofs Tel0157 Dht DhtProofs W25qxx W25qxxProofs Pta.

Open Scope Z_scope.

(** ** The contract *)

(** The kinds of parameter a service may write. *)
Definition is_output (ty : Z) : bool := Z.testbit ty 1.
Definition usize (u : uparam) : Z := match u with UMemref _ n => n | _ => 0 end.

Definition answer_ok (ty : Z) (u u' : uparam) : Prop :=
  if is_output ty then param_ok ty u' ∧ usize u' = usize u else u' = u.
Definition reply_ok (types : Z) (ps ps' : uparams) : Prop :=
  match ps, ps' with
  | [u0; u1; u2; u3], [v0; v1; v2; v3] =>
      answer_ok (nib types 0) u0 v0 ∧ answer_ok (nib types 1) u1 v1
      ∧ answer_ok (nib types 2) u2 v2 ∧ answer_ok (nib types 3) u3 v3
  | _, _ => False
  end.

Lemma answer_same ty u : param_ok ty u → answer_ok ty u u.
Proof. unfold answer_ok. by destruct (is_output ty). Qed.
Lemma reply_same types ps : params_ok types ps → reply_ok types ps ps.
Proof.
  destruct ps as [|u0 [|u1 [|u2 [|u3 []]]]]; try done. intros (?&?&?&?).
  by split_and!; apply answer_same.
Qed.
(** A reply has the types of the call. *)
Lemma reply_params types ps ps' : params_ok types ps → reply_ok types ps ps' → params_ok types ps'.
Proof.
  assert (∀ ty u u', param_ok ty u → answer_ok ty u u' → param_ok ty u') as Hk.
  { unfold answer_ok. intros ty u u' ?. destruct (is_output ty); [by intros [? _]|by intros ->]. }
  destruct ps as [|u0 [|u1 [|u2 [|u3 []]]]]; try done.
  destruct ps' as [|v0 [|v1 [|v2 [|v3 []]]]]; try done.
  intros (?&?&?&?) (?&?&?&?). split_and!; eauto.
Qed.

Definition pta_post (types : Z) (ps : uparams) (s : dstate) (r : Z * uparams) (s' : dstate) : Prop :=
  kept s s' ∧ tee_status r.1 ∧ reply_ok types ps r.2.

(** The hardware and the locks as a service finds them: no bus is held, and
    with [t = true] the controllers answer and transfers of up to [maxlen]
    bytes fit the fuel. *)
Record pta_ready `{Env} (t : bool) (maxlen : Z) (s : dstate) : Prop := {
  pr_wf : d_wf s;
  pr_free : d_held s = ∅;
  pr_i2c : ∀ dev, i2c_live t dev s;
  pr_pins : d_gpio_base s ≠ spi_addr s SPI_FIFO ∧ d_gpio_base s + 4 ≠ spi_addr s SPI_FIFO;
  pr_spi : flash_live t maxlen s
}.

Lemma flash_live_frame `{Env} t n s s' : d_frame s s' → flash_live t n s → flash_live t n s'.
Proof.
  intros Hf Hl Ht. destruct (Hl Ht) as [? Hx]. pose proof Hf as (_&_&_&Ho&_).
  rewrite !(spi_addr_frame s s'), Ho by done. by split.
Qed.
Lemma flash_live_le `{Env} t n m s : m <= n → flash_live t n s → flash_live t m s.
Proof. intros ? Hl Ht. destruct (Hl Ht) as [[? ?] Hx]. split; [|done]. split; [done|]. lia. Qed.

Lemma pta_ready_kept `{Env} t n s s' : kept s s' → pta_ready t n s → pta_ready t n s'.
Proof.
  intros [Hf Hh] [Hwf He Hi Hp Hs]. pose proof Hf as (Hg&_). split.
  - by eapply d_frame_wf.
  - by rewrite Hh.
  - intros dev. by eapply i2c_live_frame.
  - by rewrite Hg, (spi_addr_frame s s').
  - by eapply flash_live_frame.
Qed.

(** ** Opening a command *)

Section commands.
Context `{Env} (t : bool) (maxlen : Z) (types : Z) (ps : uparams) (s : dstate).
Context (Hps : params_ok types ps) (Hrdy : pta_ready t maxlen s).

Definition cmd_ok (m : D (Z * uparams)) : Prop := wp t m (pta_post types ps s) s.

Lemma cmd_const res : tee_status res → cmd_ok (mret (res, ps)).
Proof using Hps. intros. split_and!; [reflexivity|done|by apply reply_same]. Qed.

(** Parameter [i] has type [ty] and is [u]. *)
Definition at_ (i ty : Z) (u : uparam) : Prop :=
  ps !! Z.to_nat i = Some u ∧ nib types i = ty ∧ param_ok ty u.

(** The type test: either the call is refused, or the parameters have the
    shapes the command expects. *)
Lemma typed_wp {T} t0 t1 t2 t3 body Q (k : T) :
  nib (TEE_PARAM_TYPES t0 t1 t2 t3) 0 = t0 → nib (TEE_PARAM_TYPES t0 t1 t2 t3) 1 = t1 →
  nib (TEE_PARAM_TYPES t0 t1 t2 t3) 2 = t2 → nib (TEE_PARAM_TYPES t0 t1 t2 t3) 3 = t3 →
  Q (TEE_ERROR_BAD_PARAMETERS, ps) k →
  (∀ u0 u1 u2 u3, at_ 0 t0 u0 → at_ 1 t1 u1 → at_ 2 t2 u2 → at_ 3 t3 u3 → wp t (body ps) Q k) →
  wp t (typed t0 t1 t2 t3 body types ps) Q k.
Proof using Hps.
  intros E0 E1 E2 E3 HQ Hb. unfold typed.
  destruct (Z.eqb_spec (TEE_PARAM_TYPES t0 t1 t2 t3) types) as [E|]; cbn [negb]; [|done].
  destruct (params_shape _ _ _ _ _ _ Hps (eq_sym E) E0 E1 E2 E3) as (u0&u1&u2&u3&Heq&P0&P1&P2&P3).
  apply (Hb u0 u1 u2 u3); unfold at_; rewrite Heq, <- E; by split_and!.
Qed.

Lemma at_value i ty u : at_ i ty u → 1 <= ty <= 3 →
  ∃ a b, u = UValue a b ∧ 0 <= a < 2 ^ 32 ∧ 0 <= b < 2 ^ 32.
Proof using.
  intros (_&_&Hp) Hty. by assert (ty = 1 ∨ ty = 2 ∨ ty = 3) as [-> |[-> | ->]] by lia.
Qed.
Lemma at_memref i ty u : at_ i ty u → 5 <= ty <= 7 → ∃ b n, u = UMemref b n ∧ blen b = n ∧ 0 <= n < 2 ^ 32
  ∧ (ty = TEE_PARAM_TYPE_MEMREF_INPUT → ∃ data, b = bytes data ∧ Forall (λ x, 0 <= x < 2 ^ 8) data).
Proof using.
  intros (_&_&Hp) Hty. assert (ty = 5 ∨ ty = 6 ∨ ty = 7) as [-> |[-> | ->]] by lia; destruct Hp as (b&n&?&<-&?&?);
    exists b, (blen b); split_and!; auto; unfold blen; lia.
Qed.

(** The parameters after a store to an output. *)
Lemma reply_update i ty u v : 0 <= i → at_ i ty u → is_output ty = true → param_ok ty v →
  usize v = usize u → reply_ok types ps (<[Z.to_nat i := v]> ps).
Proof using Hps.
  intros Hi (Hl&Hty&_) Ho Hv Hu. pose proof (reply_same _ _ Hps) as Hr.
  destruct ps as [|u0 [|u1 [|u2 [|u3 []]]]]; try done.
  assert (answer_ok (nib types i) u v) as Ha by (unfold answer_ok; rewrite Hty, Ho; done).
  assert (i = 0 ∨ i = 1 ∨ i = 2 ∨ i = 3) as Hc by (apply lookup_lt_Some in Hl; cbn in Hl; lia).
  destruct Hr as (?&?&?&?). destruct Hc as [-> |[-> |[-> | ->]]]; cbn in Hl; injection Hl as <-;
    by split_and!.
Qed.

Definition stored (i n : Z) (ob : option buf) : uparams :=
  match ob with Some b => <[Z.to_nat i := UMemref b n]> ps | None => ps end.

Lemma back_wp {T} i b n res ob Q (k : T) : 0 <= i → at_ i MEM_OUT (UMemref b n) →
  (∀ b', ob = Some b' → blen b' = n) →
  (reply_ok types ps (stored i n ob) → Q (res, stored i n ob) k) →
  wp t (back ps i res ob) Q k.
Proof using Hps.
  intros Hi Hat Hb HQ. unfold back. destruct ob as [b'|]; wp_steps.
  2:{ apply HQ. by apply reply_same. }
  pose proof Hat as (Hl&_&Hp). eapply wp_set_umem; [done|exact Hl|]. wp_steps. apply HQ.
  eapply reply_update; [done|exact Hat|done| |done]. unfold param_ok in *; cbn in *.
  destruct Hp as (b0&n0&[= <- <-]&?&?&_). exists b', n. split_and!; auto. discriminate.
Qed.
Lemma back_ok s' i b n res ob : 0 <= i → at_ i MEM_OUT (UMemref b n) → kept s s' → tee_status res →
  (∀ b', ob = Some b' → blen b' = n) → wp t (back ps i res ob) (pta_post types ps s) s'.
Proof using Hps. intros. eapply back_wp; eauto. by intros. Qed.

Lemma value_back_ok s' i ty a b v : 0 <= i → at_ i ty (UValue a b) → ty = VALUE_OUT ∨ ty = VALUE_INOUT →
  kept s s' → 0 <= v < 2 ^ 32 →
  wp t (ps' ← set_uvalue_a ps i v; mret (TEE_SUCCESS, ps')) (pta_post types ps s) s'.
Proof using Hps.
  intros Hi Hat Hty Hk Hv. wp_steps. pose proof Hat as (Hl&_&Hp).
  eapply wp_set_uvalue_a; [done|exact Hl|]. wp_steps. split_and!; [done|by left|].
  eapply reply_update; [done|exact Hat|by destruct Hty as [-> | ->]| |done].
  assert (0 <= b < 2 ^ 32).
  { destruct Hty as [-> | ->]; unfold param_ok in Hp; cbn in Hp; by destruct Hp as (?&?&[= <- <-]&?&?). }
  destruct Hty as [-> | ->]; unfold param_ok; cbn; eauto 6.
Qed.

(** A byte the driver stored on success. *)
Lemma back_byte_ok s' i ty a b r : 0 <= i → at_ i ty (UValue a b) → ty = VALUE_OUT ∨ ty = VALUE_INOUT →
  kept s s' → read_post 1 (uninit 1) r →
  wp t (back_byte ps i r.1 r.2) (pta_post types ps s) s'.
Proof using Hps.
  intros Hi Hat Hty Hk (Hr&b1&->&_&Hf). unfold back_byte. destruct (Z.eqb_spec r.1 TEE_SUCCESS) as [E|]; cbn [negb]; wp_steps.
  2:{ split_and!; auto. by apply reply_same. }
  destruct (Hf E) as ([|x [|]]&Hl&Hx&->); try done. inversion Hx; subst.
  eapply wp_buf_get; [lia|done|]. eapply value_back_ok; eauto; lia.
Qed.
End commands.

(** *** The statics of the I2C service *)

Definition bench_ok (v : i2c_svc) : Prop :=
  length (benchmark_time v) = Z.to_nat I2C_SERVICE_OVERHEAD_BENCHMARK_SIZE
  ∧ 0 <= benchmark_idx v < I2C_SERVICE_OVERHEAD_BENCHMARK_TIMES
  ∧ Forall (λ x, 0 <= x < 2 ^ 64) (benchmark_time v).

Definition svc_post (types : Z) (ps : uparams) (v : i2c_svc) (r : Z * uparams) (v' : i2c_svc) : Prop :=
  pta_post types ps (is_d v) r (is_d v') ∧ bench_ok v'.

Lemma svc_refused types ps v v' res : params_ok types ps → tee_status res → bench_ok v' →
  kept (is_d v) (is_d v') → svc_post types ps v (res, ps) v'.
Proof. intros. split; [|done]. split_and!; [done|done|by apply reply_same]. Qed.

(** A successful command filled the first [k n] bytes of output parameter [i],
    of size [n], and left everything else as it was. *)
Definition fills (ps : uparams) (i : Z) (k : Z → Z) (r : Z * uparams) : Prop :=
  r.1 = TEE_SUCCESS → ∃ b n b', ps !! Z.to_nat i = Some (UMemref b n)
    ∧ r.2 = <[Z.to_nat i := UMemref b' n]> ps ∧ filled (k n) b b'.
Lemma fills_error ps i k res : res ≠ TEE_SUCCESS → fills ps i k (res, ps).
Proof. by intros ? ?. Qed.

Ltac at_open A a b :=
  lazymatch type of A with
  | at_ _ _ _ NONE _ => clear A
  | at_ _ _ _ VALUE_IN _ => destruct (at_value _ _ _ _ _ A ltac:(vm_compute; split; discriminate)) as (a&b&->&?&?)
  | at_ _ _ _ VALUE_OUT _ => destruct (at_value _ _ _ _ _ A ltac:(vm_compute; split; discriminate)) as (a&b&->&?&?)
  | at_ _ _ _ VALUE_INOUT _ => destruct (at_value _ _ _ _ _ A ltac:(vm_compute; split; discriminate)) as (a&b&->&?&?)
  | _ => let Hb := fresh "Hb" in let Hn := fresh "Hn" in let Hd := fresh "Hd" in
         destruct (at_memref _ _ _ _ _ A ltac:(vm_compute; split; discriminate)) as (a&b&->&Hb&Hn&Hd)
  end.
(** Passes the type test and names the parameters. *)
Ltac cmd_open :=
  unfold cmd_ok; apply typed_wp; [assumption|reflexivity|reflexivity|reflexivity|reflexivity|
    by first [apply cmd_const; auto | apply svc_refused; eauto | eauto]|];
  let u0 := fresh "u" in let u1 := fresh "u" in let u2 := fresh "u" in let u3 := fresh "u" in
  let A0 := fresh "A0" in let A1 := fresh "A1" in let A2 := fresh "A2" in let A3 := fresh "A3" in
  intros u0 u1 u2 u3 A0 A1 A2 A3;
  let a0 := fresh "a0" in let b0 := fresh "b0" in at_open A0 a0 b0;
  let a1 := fresh "a1" in let b1 := fresh "b1" in at_open A1 a1 b1;
  let a2 := fresh "a2" in let b2 := fresh "b2" in at_open A2 a2 b2;
  let a3 := fresh "a3" in let b3 := fresh "b3" in at_open A3 a3 b3.
(** Branches on a status that is known. *)
Ltac status_red :=
  rewrite ?Z.eqb_refl; change (TEE_ERROR_BAD_PARAMETERS =? TEE_SUCCESS) with false; cbn [negb].
(** Reads parameters. *)
Ltac pget1 :=
  match goal with
  | A : at_ _ ?ps ?i _ _ |- wp _ (uvalue_a ?ps ?i) _ _ => eapply wp_uvalue_a; [done|exact (proj1 A)|]
  | A : at_ _ ?ps ?i _ _ |- wp _ (uvalue_b ?ps ?i) _ _ => eapply wp_uvalue_b; [done|exact (proj1 A)|]
  | A : at_ _ ?ps ?i _ _ |- wp _ (umemref ?ps ?i) _ _ => eapply wp_umemref; [done|exact (proj1 A)|]
  | |- cmd_ok _ _ _ _ _ => unfold cmd_ok
  | _ => wp_step
  end.
Ltac pget := repeat pget1.

(** The next command of a dispatcher. *)
Tactic Notation "on_cmd" uconstr(l) := case_match; [apply l|].

Section gpio_dht.
Context `{Env} (t : bool) (types : Z) (ps : uparams) (s : dstate) (Hps : params_ok types ps).

Lemma same_ok res s' : tee_status res → kept s s' → pta_post types ps s (res, ps) s'.
Proof using Hps. intros. split_and!; [done|done|by apply reply_same]. Qed.

Lemma pta_gpio_init_ok : cmd_ok t types ps s (pta_gpio_init types ps).
Proof using Hps.
  cmd_open. pget. destruct (_ <? _); pget; [by apply same_ok; auto|].
  eapply wp_mono; [apply gpio_init_ext|]. intros r s' He. pget.
  apply same_ok; [by destruct (r =? 0); auto|by apply d_ext_kept].
Qed.
Lemma pta_gpio_set_ok : cmd_ok t types ps s (pta_gpio_set types ps).
Proof using Hps.
  cmd_open. pget. eapply wp_mono; [apply gpio_set_ext|]. intros r s' He. pget.
  apply same_ok; [by destruct (r =? 0); auto|by apply d_ext_kept].
Qed.
Lemma pta_gpio_get_ok : cmd_ok t types ps s (pta_gpio_get types ps).
Proof using Hps.
  cmd_open. pget. eapply wp_mono; [apply gpio_get_ext|]. intros r s' [He Hr]. pget.
  apply d_ext_kept in He. destruct (_ <? _); [pget; by apply same_ok; auto|].
  eapply value_back_ok; eauto; [done|apply u32_range].
Qed.
Lemma pta_gpio_test_overhead_ok : cmd_ok t types ps s (pta_gpio_test_overhead types ps).
Proof using Hps.
  cmd_open. pget.
  repeat first
    [ eapply wp_mono; [apply tee_time_spec|]; intros ? ? ->; pget
    | eapply wp_mono; [apply gpio_init_ext|]; intros ? ? ?; pget
    | eapply wp_mono; [apply gpio_set_ext|]; intros ? ? ?; pget
    | eapply wp_mono; [apply gpio_get_ext|]; intros ? ? [? _]; pget ].
  apply same_ok; [auto|]. apply d_ext_kept. d_ext_chain.
Qed.

Lemma pta_dht_init_ok : cmd_ok t types ps s (pta_dht_init types ps).
Proof using Hps.
  cmd_open. pget. eapply wp_mono; [eapply wp_total, dht_init_spec|].
  intros [res dv] s' [He Hr]. cbn [fst snd] in Hr. pget. apply same_ok; [|by apply d_ext_kept].
  destruct (dht_type_ok _); [by destruct Hr as (_&[-> |[-> | ->]]); auto|].
  destruct Hr as [[= -> _] _]. auto.
Qed.
Lemma pta_dht_read_ok : cmd_ok t types ps s (pta_dht_read types ps).
Proof using Hps.
  cmd_open. pget. eapply wp_mono; [eapply wp_total, dht_read_spec|].
  intros [[res dv] v] s' [He Hr]. pget. apply d_ext_kept in He.
  assert (tee_status res) by (destruct v as [[]|]; [destruct Hr as [-> _]; auto|by destruct Hr]).
  destruct (default (0, 0) v) as [temp hum]. pget.
  pose proof A1 as (Hl&_&Hp). eapply wp_set_uvalue_a; [done|exact Hl|]. pget.
  eapply wp_set_uvalue_b; [done| |].
  { apply list_lookup_insert_eq. by eapply lookup_lt_Some. }
  pget. split_and!; auto. cbn [snd].
  replace (<[_ := _]> (<[_ := _]> ps)) with (<[Z.to_nat 1 := UValue (u32 temp) (u32 hum)]> ps)
    by (symmetry; apply list_insert_insert_eq).
  eapply reply_update; [done|done|exact A1|done| |done].
  eexists _, _. split; [done|]. split; apply u32_range.
Qed.
Lemma pta_test_get_sys_time_overhead_ok : cmd_ok t types ps s (pta_test_get_sys_time_overhead types ps).
Proof using Hps.
  cmd_open. pget. do 3 (eapply wp_mono; [apply tee_time_spec|]; intros ? ? ->; pget).
  apply same_ok; [auto|]. apply d_ext_kept. d_ext_chain.
Qed.

Lemma gpio_service_ok cmd : cmd_ok t types ps s (gpio_invoke_command cmd types ps).
Proof using Hps.
  unfold gpio_invoke_command.
  repeat case_match; auto using pta_gpio_init_ok, pta_gpio_set_ok, pta_gpio_get_ok, pta_gpio_test_overhead_ok.
  by apply cmd_const; auto.
Qed.
Lemma dht_service_ok cmd : cmd_ok t types ps s (dht_invoke_command cmd types ps).
Proof using Hps.
  unfold dht_invoke_command.
  repeat case_match; auto using pta_dht_init_ok, pta_dht_read_ok, pta_test_get_sys_time_overhead_ok.
  by apply cmd_const; auto.
Qed.
End gpio_dht.

(** ** The I2C service *)

(** The source's 10-bit addressing is broken (it sends the wrong bytes and
    reads behind the buffer); the client does not ask for it. *)
Definition addr7 (ps : uparams) : Prop :=
  ∀ flags x, ps !! Z.to_nat 1 = Some (UValue flags x) → flag (u8 flags) I2C_ADDR10 = false.

Section i2c.
Context `{Env} (t : bool) (maxlen : Z) (types : Z) (ps : uparams) (s : dstate).
Context (Hps : params_ok types ps) (Hrdy : pta_ready t maxlen s).

Lemma ready_bus dev : 0 <= dev → bus_free dev s.
Proof using Hrdy. intros. split; [done|]. rewrite (pr_free _ _ _ Hrdy). apply not_elem_of_empty. Qed.

Lemma i2c_section_ok {A} dev (m : D A) fin (P : A → Prop) : 0 <= dev →
  (∀ s1, d_wf s1 → i2c_live t dev s1 → dev < I2C_NUM → wp t m (λ x s2, d_ext s1 s2 ∧ P x) s1) →
  (∀ x s2, kept s s2 → P x → wp t (fin x) (pta_post types ps s) s2) →
  cmd_ok t types ps s (i2c_section ps dev m fin).
Proof using Hps Hrdy.
  intros Hd Hm Hf. unfold cmd_ok, i2c_section. wp_steps.
  pose proof (ready_bus dev Hd) as Hfree. pose proof (pr_wf _ _ _ Hrdy).
  eapply wp_mono; [by apply i2c_acquire_owns|]. intros r s1 [(->&Hlt&Ho)|(->&_&->)]; cbn.
  2:{ by apply same_ok; auto. }
  wp_steps. pose proof Ho as [Hfr _].
  eapply wp_mono; [apply Hm; [by eapply d_frame_wf|by eapply i2c_live_frame; [|apply (pr_i2c _ _ _ Hrdy)]|done]|].
  intros x s2 [He HP]. wp_steps.
  eapply wp_mono; [eapply i2c_release_owns; [done|done|by eapply owns_ext]|]. intros ? s3 [_ Hk]. wp_steps. by apply Hf.
Qed.

Ltac i2c_open := cmd_open; pget; eapply i2c_section_ok; [apply u8_range|intros s1 Hwf1 Hlv1 Hlt|].

Lemma pta_i2c_read_byte_ok : addr7 ps → cmd_ok t types ps s (pta_i2c_read_byte types ps).
Proof using Hps Hrdy.
  intros H7. i2c_open.
  - eapply wp_mono; [apply i2c_read_client; [apply u8_range|done|done|lia| |]|].
    3:{ intros r s2 Hp. split; [apply Hp|]. exact (bus_read_post_own _ _ _ _ _ Hp). }
    + by intros ? [= <-].
    + intros _. by eapply H7, A1.
  - intros [res ob] s2 Hk Hp. by eapply (back_byte_ok _ _ _ _ Hps s2 _ _ _ _ (res, ob)); eauto.
Qed.

(** The bytes a write command takes from an input parameter. *)
Lemma input_bytes i b n : at_ types ps i MEM_IN (UMemref b n) →
  ∃ data, b = bytes data ∧ Forall (λ x, 0 <= x < 2 ^ 8) data ∧ n = Z.of_nat (length data)
    ∧ 0 <= n < 2 ^ 32.
Proof using.
  intros A. destruct (at_memref _ _ _ _ _ A ltac:(vm_compute; split; discriminate)) as (b'&n'&[= <- <-]&<-&?&Hd).
  destruct (Hd eq_refl) as (data&->&?). exists data. split_and!; auto; try lia.
  unfold blen, bytes. by rewrite length_fmap.
Qed.
Lemma take_bytes (data : list Z) n : 0 <= n <= Z.of_nat (length data) →
  let d := take (Z.to_nat n) data in take (length d) (bytes data) = bytes d ∧ Z.of_nat (length d) = n.
Proof using.
  intros Hn d. subst d. rewrite length_take. split; [|lia].
  unfold bytes. by rewrite <- fmap_take, Nat.min_l by lia.
Qed.

Lemma pta_i2c_write_byte_ok : addr7 ps → cmd_ok t types ps s (pta_i2c_write_byte types ps).
Proof using Hps Hrdy.
  intros H7. i2c_open; [|intros; pget; by apply same_ok].
  apply i2c_write_byte_client; [apply u8_range|done|done|]. by eapply H7, A1.
Qed.
Lemma pta_i2c_write_bytes_ok : addr7 ps → cmd_ok t types ps s (pta_i2c_write_bytes types ps).
Proof using Hps Hrdy.
  intros H7. i2c_open; [|intros; pget; by apply same_ok].
  destruct (input_bytes _ _ _ A2) as (data&->&Hby&->&Hr). rewrite i2c_write_trunc.
  pose proof (u16_le _ (proj1 Hr)) as Hle. pose proof (u16_range (Z.of_nat (length data))).
  destruct (take_bytes data _ Hle) as [Htk Hl].
  eapply i2c_write_client with (data := take _ data); [apply u8_range|done|done|by eapply H7, A1|done|by symmetry|done|].
  by apply Forall_take.
Qed.
Lemma pta_i2c_read_reg_ok : addr7 ps → cmd_ok t types ps s (pta_i2c_read_reg types ps).
Proof using Hps Hrdy.
  intros H7. i2c_open.
  - eapply wp_mono; [apply i2c_read_reg_client; [apply u8_range|done|done|by eapply H7, A1|done]|].
    intros r s2 Hp. split; [apply Hp|]. exact (bus_read_post_own _ _ _ _ _ Hp).
  - intros [res ob] s2 Hk Hp. by eapply (back_byte_ok _ _ _ _ Hps s2 _ _ _ _ (res, ob)); eauto.
Qed.
Lemma pta_i2c_read_regs_ok : addr7 ps → cmd_ok t types ps s (pta_i2c_read_regs types ps).
Proof using Hps Hrdy.
  intros H7. i2c_open.
  - rewrite i2c_read_regs_trunc. pose proof (u16_le b2 (proj1 Hn)). pose proof (u16_range b2).
    eapply wp_mono; [apply i2c_read_regs_client; [apply u8_range|done|done|by eapply H7, A1|done|lia]|].
    intros r s2 Hp. split; [apply Hp|]. exact (bus_read_post_own _ _ _ _ _ Hp).
  - intros [res ob] s2 Hk (Hr&b'&E&Hl&_). cbn in E. subst ob.
    eapply back_ok; [done|done|exact A2|done|done|]. intros ? [= <-]. lia.
Qed.
Lemma pta_i2c_write_reg_ok : addr7 ps → cmd_ok t types ps s (pta_i2c_write_reg types ps).
Proof using Hps Hrdy.
  intros H7. i2c_open; [|intros; pget; by apply same_ok].
  apply i2c_write_reg_client; [apply u8_range|done|done|]. by eapply H7, A1.
Qed.
Lemma pta_i2c_write_regs_ok : addr7 ps → cmd_ok t types ps s (pta_i2c_write_regs types ps).
Proof using Hps Hrdy.
  intros H7. i2c_open; [|intros; pget; by apply same_ok].
  destruct (input_bytes _ _ _ A2) as (data&->&Hby&->&Hr). rewrite i2c_write_regs_trunc.
  pose proof (u16_le _ (proj1 Hr)) as Hle. pose proof (u16_range (Z.of_nat (length data))).
  destruct (take_bytes data _ Hle) as [Htk Hl].
  eapply i2c_write_regs_client with (data := take _ data); [apply u8_range|done|done|by eapply H7, A1|done|by symmetry|done|].
  by apply Forall_take.
Qed.
Lemma pta_i2c_set_freq_ok : cmd_ok t types ps s (pta_i2c_set_freq types ps).
Proof using Hps Hrdy.
  cmd_open. pget. destruct (_ <? _); [pget; by apply same_ok; auto|].
  eapply i2c_section_ok; [apply u8_range| |intros; pget; by apply same_ok].
  intros s1 Hwf1 _ Hlt. apply i2c_set_frequency_client; [apply u8_range|done|done].
Qed.
End i2c.

Section i2c_statics.
Context `{Env} (t : bool) (maxlen : Z) (types : Z) (ps : uparams) (v : i2c_svc).
Context (Hps : params_ok types ps) (Hrdy : pta_ready t maxlen (is_d v)) (Hb : bench_ok v).

Lemma on_driver_ok m : cmd_ok t types ps (is_d v) m → wp t (on_driver m) (svc_post types ps v) v.
Proof using Hb. intros Hm. apply wp_zoom. eapply wp_mono; [exact Hm|]. by intros r s' ?. Qed.

Lemma svc_const res : tee_status res → wp t (mret (res, ps)) (svc_post types ps v) v.
Proof using Hb Hps. intros. split; [by apply same_ok|done]. Qed.

(** A time stamp goes to one of the two slots of the current round. *)
Lemma i2c_bench_ok point v0 : bench_ok v0 → 0 <= point < I2C_SERVICE_OVERHEAD_BENCHMARK_POINTS →
  wp t (i2c_bench point) (λ _ v', kept (is_d v0) (is_d v') ∧ bench_ok v'
    ∧ benchmark_idx v' = benchmark_idx v0) v0.
Proof using.
  unfold I2C_SERVICE_OVERHEAD_BENCHMARK_POINTS.
  intros (Hl&Hi&Hf) Hp. unfold i2c_bench. wp_steps. apply wp_zoom.
  eapply wp_mono; [apply tee_time_spec|]. intros x s' ->. wp_steps. cbn [benchmark_idx benchmark_time].
  unfold I2C_SERVICE_OVERHEAD_BENCHMARK_TIMES, I2C_SERVICE_OVERHEAD_BENCHMARK_SIZE in *.
  set (j := u32 _).
  assert (0 <= j < 100) as Hj by (subst j; unfold I2C_SERVICE_OVERHEAD_BENCHMARK_POINTS; rewrite u32_id by lia; lia).
  apply wp_arr_set; [rewrite Hl; lia|]. wp_steps. cbn. split; [apply d_ext_kept, d_ext_log|].
  split; [|done]. split; [cbn; by rewrite length_insert|]. split; [done|]. cbn.
  apply Forall_insert; [done|]. unfold teetime_to_micro. apply u64_range.
Qed.

Lemma pta_i2c_read_bytes_fills : addr7 ps → wp t (pta_i2c_read_bytes types ps)
  (λ r v', svc_post types ps v r v' ∧ fills ps 2 u16 r) v.
Proof using Hb Hps Hrdy.
  intros H7. unfold pta_i2c_read_bytes. wp_steps.
  eapply wp_mono; [by apply i2c_bench_ok|]. intros ? v1 (Hk1&Hb1&Hi1).
  assert (∀ v', bench_ok v' → kept (is_d v) (is_d v') →
    svc_post types ps v (TEE_ERROR_BAD_PARAMETERS, ps) v' ∧ fills ps 2 u16 (TEE_ERROR_BAD_PARAMETERS, ps)) as Hbad
    by (intros; split; [by apply svc_refused; auto|by apply fills_error]).
  cmd_open. pget. pose proof (pta_ready_kept _ _ _ _ Hk1 Hrdy) as Hr1.
  pose proof (ready_bus _ _ _ Hr1 (i2c_t a0) ltac:(apply u8_range)) as Hfree. pose proof (pr_wf _ _ _ Hr1).
  apply wp_zoom. eapply wp_mono; [by apply i2c_acquire_owns|].
  intros r s2 [(->&Hlt&Ho)|(->&_&->)]; status_red; pget; [|by apply Hbad].
  apply wp_zoom. rewrite i2c_read_trunc. pose proof (u16_le b2 (proj1 Hn)). pose proof (u16_range b2).
  cbn [is_d]. pose proof Ho as [Hfr _].
  eapply wp_mono; [apply i2c_read_client; [apply u8_range|by eapply d_frame_wf|
    by eapply i2c_live_frame; [|apply (pr_i2c _ _ _ Hr1)]|done| |intros _; by eapply H7, A1]|].
  { intros ? [= <-]. lia. }
  intros [res ob] s3 (He&Hst&Hbl&Hfl). cbn [fst snd] in *. pget. apply wp_zoom. cbn [is_d].
  eapply wp_mono; [eapply i2c_release_owns; [done|done|by eapply owns_ext]|]. intros ? s4 [_ Hk4]. pget.
  eapply wp_mono; [by apply i2c_bench_ok|]. intros ? v5 (Hk5&Hb5&Hi5). pget. cbn [is_d] in Hk5.
  assert (kept (is_d v) (is_d v5)) as Hk by (by do 2 (etrans; [|done])).
  eapply back_wp; [done|done|exact A2| |].
  { intros ? ->. injection Hbl as Hbl. lia. }
  intros Hrep. split.
  - unfold I2C_SERVICE_OVERHEAD_BENCHMARK_TIMES. destruct Hb5 as (?&Hi&?).
    unfold I2C_SERVICE_OVERHEAD_BENCHMARK_TIMES in Hi.
    destruct (Z.ltb_spec (benchmark_idx v5) (50 - 1)); (split; [by split_and!|]); split_and!; try done; cbn.
    all: unfold I2C_SERVICE_OVERHEAD_BENCHMARK_TIMES; lia.
  - intros Hs. destruct (Hfl Hs) as (?&b'&[= <-]&->&Hf). exists a2, b2, b'. by split_and!; [apply A2| |].
Qed.
Lemma pta_i2c_read_bytes_ok : addr7 ps → wp t (pta_i2c_read_bytes types ps) (svc_post types ps v) v.
Proof using Hb Hps Hrdy. intros. eapply wp_mono; [by apply pta_i2c_read_bytes_fills|]. by intros ? ? [? _]. Qed.

Lemma le_concat_length k (l : list Z) : length (l ≫= le k) = (k * length l)%nat.
Proof using. induction l as [|x l IH]; cbn; [lia|]. rewrite length_app, le_length, IH. lia. Qed.

Lemma pta_i2c_get_overhead_timestamp_ok :
  wp t (pta_i2c_get_overhead_timestamp types ps) (svc_post types ps v) v.
Proof using Hb Hps.
  unfold pta_i2c_get_overhead_timestamp. cmd_open. pget.
  destruct (Z.ltb_spec b0 (8 * I2C_SERVICE_OVERHEAD_BENCHMARK_SIZE)) as [|Hge]; pget; [by apply svc_refused; auto|].
  pose proof Hb as (Hl&Hi&Hf).
  assert (blen (bytes (benchmark_time v ≫= le 8)) = 8 * I2C_SERVICE_OVERHEAD_BENCHMARK_SIZE) as Hsrc.
  { unfold blen, bytes. rewrite length_fmap, le_concat_length, Hl. done. }
  unfold memcpy. rewrite Hsrc, Hb0, Z.leb_refl, (proj2 (Z.leb_le _ _)) by lia. cbn [andb]. pget.
  pose proof A0 as (Hl0&_&_). eapply wp_set_umem; [done|exact Hl0|]. pget.
  assert (8 * I2C_SERVICE_OVERHEAD_BENCHMARK_SIZE = 800) as E8 by done. rewrite E8 in *.
  split; [|by split_and!]. split_and!; [reflexivity|auto|].
  eapply reply_update; [done|done|exact A0|done| |done].
  eexists _, _. split; [done|]. split_and!; [|lia|discriminate].
  unfold blen in *. rewrite length_app, length_take, length_drop. lia.
Qed.

Lemma i2c_service_ok cmd : (0 <= cmd <= PTA_I2C_WRITE_REGS → addr7 ps) →
  wp t (i2c_invoke_command cmd types ps) (svc_post types ps v) v.
Proof using Hb Hps Hrdy.
  intros H7. unfold i2c_invoke_command.
  repeat (match goal with |- wp _ (if cmd =? ?c then _ else _) _ _ =>
    destruct (Z.eqb_spec cmd c) as [-> |] end).
  all: try (specialize (H7 ltac:(by vm_compute))).
  all: eauto using on_driver_ok, svc_const, pta_i2c_read_byte_ok, pta_i2c_write_byte_ok, pta_i2c_write_bytes_ok,
    pta_i2c_read_reg_ok, pta_i2c_read_regs_ok, pta_i2c_write_reg_ok, pta_i2c_write_regs_ok,
    pta_i2c_set_freq_ok, pta_i2c_read_bytes_ok, pta_i2c_get_overhead_timestamp_ok.
Qed.
End i2c_statics.

(** ** The SPI and flash services *)

(** Buffers of at most [maxlen] bytes. *)
Definition fits (maxlen : Z) (ps : uparams) : Prop :=
  ∀ i b n, ps !! i = Some (UMemref b n) → n <= maxlen.

Section spi.
Context `{Env} (t : bool) (maxlen : Z) (types : Z) (ps : uparams) (s : dstate).
Context (Hps : params_ok types ps) (Hrdy : pta_ready t maxlen s) (Hfit : fits maxlen ps).

Lemma spi_free : L_spi 0 ∉ d_held s.
Proof using Hrdy. rewrite (pr_free _ _ _ Hrdy). apply not_elem_of_empty. Qed.

Lemma spi_acquire_cases bus cs mode clk : 0 <= bus → 0 <= cs →
  wp t (spi_acquire bus cs mode clk) (λ r s',
    (r = TEE_SUCCESS ∧ bus = 0 ∧ cs < SPI_CS_NUM ∧ spi_owns s s')
    ∨ (r = TEE_ERROR_BAD_PARAMETERS ∧ s' = s)) s.
Proof using Hrdy.
  intros Hb Hc. destruct (decide (bus = 0 ∧ cs < SPI_CS_NUM)) as [[-> ?]|Hbad].
  - eapply wp_mono; [apply spi_acquire_spec; [done|apply (pr_wf _ _ _ Hrdy)|apply spi_free]|].
    intros r s' [-> ?]. by left.
  - unfold wp. rewrite spi_acquire_bad; [by right|]. unfold SPI_NUM.
    destruct (decide (bus = 0)); [right|left]; [|lia]. destruct (Z.lt_ge_cases cs SPI_CS_NUM); [tauto|lia].
Qed.

Lemma spi_owns_fuel s1 data n : spi_owns s s1 → Z.of_nat (length data) <= Z.max 3 maxlen →
  n <= Z.max 3 maxlen → spi_fuel_ok t s1 data n.
Proof using Hrdy.
  intros [Hf _] Hd Hn Ht. destruct (pr_spi _ _ _ Hrdy Ht) as [[? ?] _].
  rewrite (spi_addr_frame s s1) by done. split; [done|]. lia.
Qed.

Lemma xfer_kept s1 s2 pre data n inb r : spi_owns s s1 → xfer_post s1 pre data n inb r s2 →
  spi_owns s s2 ∧ tee_status r.1
  ∧ ∀ b, inb = Some b → n <= blen b → ∃ b', r.2 = Some b' ∧ blen b' = blen b.
Proof using.
  intros Ho (He&_&Hr&k&got&Hg&_&_&Hb&_). split; [by eapply spi_owns_ext|].
  split; [by destruct Hr as [-> | ->]; auto|]. intros b -> Hn. eexists. split; [exact Hb|].
  unfold blen, bytes in *. rewrite length_app, length_fmap, length_drop. lia.
Qed.

Lemma spi_release_post s1 res ps' : spi_owns s s1 → tee_status res → reply_ok types ps ps' →
  wp t (spi_release 0;; mret (res, ps')) (pta_post types ps s) s1.
Proof using Hrdy.
  intros Ho Hr Hp. wp_steps. eapply wp_mono; [apply spi_release_spec; [apply spi_free|done]|].
  intros ? s2 [_ Hk]. by wp_steps.
Qed.

Definition in_progress (r : Z * uparams) (s2 : dstate) : Prop :=
  spi_owns s s2 ∧ tee_status r.1 ∧ reply_ok types ps r.2.

Lemma spi_byte_step want a b cs cont x s1 : at_ types ps 0 VALUE_INOUT (UValue a b) →
  0 <= cs < SPI_CS_NUM → 0 <= x < 2 ^ 8 → spi_owns s s1 →
  wp t ('(res, got) ← spi_transfer_byte 0 cs cont x want;
        if want : bool then
          if res =? TEE_SUCCESS then
            match got with
            | Some x => ps ← set_uvalue_a ps 0 x; mret (res, ps)
            | None => undef UB_uninit
            end
          else mret (res, ps)
        else mret (res, ps)) in_progress s1.
Proof using Hps Hrdy.
  intros A0 Hcs Hx Ho. wp_steps.
  eapply wp_mono; [apply spi_transfer_byte_spec; [done|done|by eapply spi_owns_wf; [|apply (pr_wf _ _ _ Hrdy)]|]|].
  { apply spi_owns_fuel; [done|cbn; lia|lia]. }
  intros [res got] s2 (ob&Hx2&Hg). cbn [fst snd] in *. destruct (xfer_kept _ _ _ _ _ _ _ Ho Hx2) as (Ho2&Hr&_).
  cbn [fst] in Hr. destruct want; [|by wp_steps; split_and!; [..|apply reply_same]].
  destruct (Z.eqb_spec res TEE_SUCCESS) as [->|]; [|by wp_steps; split_and!; [..|apply reply_same]].
  destruct got as [y|]; [|by specialize (Hg eq_refl)]. destruct Hg as (_&_&_&Hy). pget.
  pose proof A0 as (Hl&_&Hp). eapply wp_set_uvalue_a; [done|exact Hl|]. pget. split_and!; auto.
  destruct Hp as (?&?&[= <- <-]&?&?).
  eapply reply_update; [done|done|exact A0|done| |done]. eexists _, _. split; [done|]. split; [lia|done].
Qed.

Lemma pta_spi_transfer_byte_ok : cmd_ok t types ps s (pta_spi_transfer_byte types ps).
Proof using Hps Hrdy.
  cmd_open. pget. destruct (spi_config_bad a1 b1); pget; [by apply same_ok; auto|]. cbv zeta. pget.
  eapply wp_mono; [apply spi_acquire_cases; apply u8_range|].
  intros r s1 [(->&->&Hcs&Ho)|[-> ->]]; status_red; pget; [|by apply same_ok; auto].
  pose proof (u8_range a3) as Hx. assert (0 <= spi_cs_of a0 < SPI_CS_NUM) as Hc by (split; [apply u8_range|done]).
  apply (wp_mono _ _ in_progress).
  - destruct (_ && _); [by apply (spi_byte_step true _ _ _ _ _ _ A0)|].
    destruct (_ && _); [by apply (spi_byte_step false _ _ _ _ _ _ A0)|].
    destruct (_ && _); [by apply (spi_byte_step true _ _ _ _ _ _ A0)|].
    wp_steps. split_and!; [done|auto|by apply reply_same].
  - intros [res ps'] s2 (?&?&?). by apply spi_release_post.
Qed.

(** A transfer between an input and an output parameter has ended. *)
Definition exchanged (n : Z) (r : Z * option buf) (s2 : dstate) : Prop :=
  spi_owns s s2 ∧ tee_status r.1 ∧ ∃ b, r.2 = Some b ∧ blen b = n.

Lemma exchanged_back b n r s2 : at_ types ps 3 MEM_OUT (UMemref b n) → exchanged n r s2 →
  wp t (spi_release 0;; back ps 3 r.1 r.2) (pta_post types ps s) s2.
Proof using Hps Hrdy.
  intros A3 (Ho&Hr&b'&Eb&Hl). wp_steps.
  eapply wp_mono; [apply spi_release_spec; [apply spi_free|done]|]. intros ? s3 [_ Hk]. wp_steps.
  eapply back_ok; [done|done|exact A3|done|done|]. rewrite Eb. by intros ? [= <-].
Qed.

(** A transfer that fills the output parameter. *)
Lemma spi_exchange (m : D (Z * option buf)) s1 data ib inn out olen :
  (d_wf s1 → xfer_pre out (Some ib) olen inn data inn → spi_fuel_ok t s1 data inn →
     wp t m (xfer_post s1 [] data inn (Some ib)) s1) →
  spi_owns s s1 →
  match out with Some b => b = bytes data ∧ olen = Z.of_nat (length data) | None => data = [] end →
  Forall (λ x, 0 <= x < 2 ^ 8) data → Z.of_nat (length data) < 2 ^ 32 →
  Z.of_nat (length data) <= Z.max 3 maxlen → blen ib = inn → inn < 2 ^ 32 → inn <= maxlen →
  wp t m (exchanged inn) s1.
Proof using Hrdy.
  intros Hm Ho Hout Hd Hl Hl2 Hib Hi1 Hi2. eapply wp_mono; [apply Hm|].
  - by eapply spi_owns_wf; [|apply (pr_wf _ _ _ Hrdy)].
  - assert (0 <= inn) by (unfold blen in *; lia). split_and!; auto; try lia. destruct out; [|done].
    destruct Hout as [-> ->]. split; [|done]. apply take_ge. unfold bytes. rewrite length_fmap. lia.
  - apply spi_owns_fuel; [done|lia|lia].
  - intros r s2 Hx. destruct (xfer_kept _ _ _ _ _ _ _ Ho Hx) as (?&?&Hb).
    destruct (Hb _ eq_refl ltac:(lia)) as (b'&?&?). split_and!; auto. exists b'. split; [done|lia].
Qed.

Lemma pta_spi_transfer_diff_bytes_ok : cmd_ok t types ps s (pta_spi_transfer_diff_bytes types ps).
Proof using Hps Hrdy Hfit.
  cmd_open. pget. destruct (spi_config_bad a1 b1); pget; [by apply same_ok; auto|]. cbv zeta. pget.
  eapply wp_mono; [apply spi_acquire_cases; apply u8_range|].
  intros r s1 [(->&->&Hcs&Ho)|[-> ->]]; status_red; pget; [|by apply same_ok; auto].
  destruct (input_bytes _ _ _ _ _ A2) as (data&->&Hby&->&Hr).
  pose proof (Hfit _ _ _ (proj1 A2)). pose proof (Hfit _ _ _ (proj1 A3)).
  eapply wp_mono.
  { eapply (spi_exchange _ s1 data a3 b3 (Some (bytes data)));
      [intros; by apply spi_transfer_diff_bytes_spec|auto; lia..]. }
  intros [res ob] s2 Hx. by eapply (exchanged_back _ _ (res, ob)).
Qed.

Lemma pta_spi_transfer_bytes_ok : cmd_ok t types ps s (pta_spi_transfer_bytes types ps).
Proof using Hps Hrdy Hfit.
  cmd_open. pget. destruct (spi_config_bad a1 b1); pget; [by apply same_ok; auto|].
  destruct (_ && _ && _); pget; [by apply same_ok; auto|]. cbv zeta. pget.
  eapply wp_mono; [apply spi_acquire_cases; apply u8_range|].
  intros r s1 [(->&->&Hcs&Ho)|[-> ->]]; status_red; pget; [|by apply same_ok; auto].
  destruct (input_bytes _ _ _ _ _ A2) as (data&->&Hby&->&Hr).
  pose proof (Hfit _ _ _ (proj1 A2)). pose proof (Hfit _ _ _ (proj1 A3)).
  apply (wp_mono _ _ (exchanged b3)).
  2:{ intros [res ob] s2 Hx. by eapply (exchanged_back _ _ (res, ob)). }
  destruct (_ && (0 <? Z.of_nat _)) eqn:C1; bool_props.
  { eapply (spi_exchange _ s1 data a3 b3 (Some (bytes data)) b3);
      [|done|by split|auto; lia..]. intros. replace (Z.of_nat _) with b3. by apply spi_transfer_bytes_spec. }
  destruct (_ && (b3 =? 0)) eqn:C2; bool_props.
  { wp_steps. eapply wp_mono; [apply (spi_transfer_bytes_spec t _ _ _ None _ data 0)|].
    - by eapply spi_owns_wf; [|apply (pr_wf _ _ _ Hrdy)].
    - split_and!; auto; try lia. apply take_ge. unfold bytes. rewrite length_fmap. lia.
    - apply spi_owns_fuel; [done|lia|lia].
    - intros [res ob] s2 Hx. destruct (xfer_kept _ _ _ _ _ _ _ Ho Hx) as (?&?&_). wp_steps. split_and!; eauto. }
  destruct (_ && (_ =? 0)) eqn:C3; bool_props.
  { eapply (spi_exchange _ s1 [] a3 b3 None b3);
      [intros; by apply spi_transfer_bytes_spec|auto; cbn; lia..]. }
  wp_steps. split_and!; eauto.
Qed.

Lemma spi_service_ok cmd : cmd_ok t types ps s (spi_invoke_command cmd types ps).
Proof using Hps Hrdy Hfit.
  unfold spi_invoke_command. repeat case_match;
    auto using pta_spi_transfer_byte_ok, pta_spi_transfer_bytes_ok, pta_spi_transfer_diff_bytes_ok.
  by apply cmd_const; auto.
Qed.
End spi.

(** The flash driver does not check the bus it is given. *)
Definition flash_bus (ps : uparams) : Prop :=
  ∀ a b, ps !! Z.to_nat 0 = Some (UValue a b) → spi_t a = 0 ∧ spi_cs_t b < SPI_CS_NUM.

Section w25qxx.
Context `{Env} (t : bool) (maxlen : Z) (types : Z) (ps : uparams) (s : dstate).
Context (Hps : params_ok types ps) (Hrdy : pta_ready t maxlen s) (Hfit : fits maxlen ps).
Context (Hbus : flash_bus ps) (Hmax : 0 <= maxlen).

Lemma flash_at ty a b : at_ types ps 0 ty (UValue a b) → spi_t a = 0 ∧ flash_ready (spi_cs_t b) s.
Proof using Hrdy Hbus.
  intros A. destruct (Hbus _ _ (proj1 A)) as [? ?]. split; [done|].
  destruct (pr_pins _ _ _ Hrdy). split_and!; auto; [apply (pr_wf _ _ _ Hrdy)|apply u8_range|].
  by eapply spi_free.
Qed.
Lemma flash_live_upto n : n <= maxlen → flash_live t n s.
Proof using Hrdy. intros. by eapply flash_live_le, (pr_spi _ _ _ Hrdy). Qed.
Lemma flash_tee r : flash_status r → tee_status r.
Proof using. intros [-> | ->]; auto. Qed.

Lemma pta_w25qxx_init_ok : cmd_ok t types ps s (pta_w25qxx_init types ps).
Proof using Hps Hrdy Hbus Hmax.
  cmd_open. destruct (flash_at _ _ _ A0) as [E Hr]. pget. rewrite E.
  eapply wp_mono; [by apply w25qxx_init_ok; [|apply flash_live_upto]|]. intros r s' (?&?&_). pget.
  apply same_ok; [done|by apply flash_tee|done].
Qed.
Lemma pta_w25qxx_read_data_ok : cmd_ok t types ps s (pta_w25qxx_read_data types ps).
Proof using Hps Hrdy Hbus Hfit.
  cmd_open. destruct (flash_at _ _ _ A0) as [E Hr]. pget. rewrite E.
  pose proof (Hfit _ _ _ (proj1 A2)).
  eapply wp_mono; [apply w25qxx_read_data_ok; [done|by apply flash_live_upto|lia|lia|lia]|].
  intros [r ob] s' (?&?&got&Eb&Hg&_). cbn [fst snd] in *. pget.
  eapply back_ok; [done|done|exact A2|done|by apply flash_tee|]. rewrite Eb. intros ? [= <-].
  unfold blen, bytes in *. rewrite length_app, length_fmap, length_drop. lia.
Qed.
Lemma pta_w25qxx_page_program_ok : cmd_ok t types ps s (pta_w25qxx_page_program types ps).
Proof using Hps Hrdy Hbus Hfit.
  cmd_open. destruct (flash_at _ _ _ A0) as [E Hr]. pget. rewrite E.
  pose proof (Hfit _ _ _ (proj1 A2)). destruct (input_bytes _ _ _ _ _ A2) as (data&->&Hby&->&Hr2).
  eapply wp_mono; [apply w25qxx_page_program_ok; [done|by apply flash_live_upto|lia|done| |lia]|].
  { apply take_ge. unfold bytes. rewrite length_fmap. lia. }
  intros r s' (?&?&_). pget. apply same_ok; [done|by apply flash_tee|done].
Qed.
Lemma pta_w25qxx_sector_erase_ok : cmd_ok t types ps s (pta_w25qxx_sector_erase types ps).
Proof using Hps Hrdy Hbus Hmax.
  cmd_open. destruct (flash_at _ _ _ A0) as [E Hr]. pget. rewrite E.
  eapply wp_mono; [apply w25qxx_sector_erase_ok; [done|by apply flash_live_upto|lia]|].
  intros r s' (?&?&_). pget. apply same_ok; [done|by apply flash_tee|done].
Qed.
Lemma pta_w25qxx_chip_erase_ok : cmd_ok t types ps s (pta_w25qxx_chip_erase types ps).
Proof using Hps Hrdy Hbus Hmax.
  cmd_open. destruct (flash_at _ _ _ A0) as [E Hr]. pget. rewrite E.
  eapply wp_mono; [apply w25qxx_chip_erase_ok; [done|by apply flash_live_upto]|].
  intros r s' (?&?&_). pget. apply same_ok; [done|by apply flash_tee|done].
Qed.
Lemma w25qxx_service_ok cmd : cmd ≠ PTA_CMD_W25QXX_READ_ID →
  cmd_ok t types ps s (w25qxx_invoke_command cmd types ps).
Proof using Hps Hrdy Hbus Hmax Hfit.
  intros Hid. unfold w25qxx_invoke_command. rewrite (proj2 (Z.eqb_neq cmd PTA_CMD_W25QXX_READ_ID)) by done.
  repeat case_match; auto using pta_w25qxx_init_ok, pta_w25qxx_read_data_ok, pta_w25qxx_page_program_ok,
    pta_w25qxx_sector_erase_ok, pta_w25qxx_chip_erase_ok.
  by apply cmd_const; auto.
Qed.
End w25qxx.

(** ** The sensors on I2C *)

(** The prefix and the data of an EEPROM write share a 16-bit length. *)
Definition eeprom_write_fits (ps : uparams) : Prop :=
  ∀ b n, ps !! Z.to_nat 2 = Some (UMemref b n) → n < 2 ^ 16 - 2.

Section sensors.
Context `{Env} (t : bool) (maxlen : Z) (types : Z) (ps : uparams) (s : dstate).
Context (Hps : params_ok types ps) (Hrdy : pta_ready t maxlen s).

Lemma dev_at a b : dev_ready t (I2cDev (i2c_t a) (u8 b)) s.
Proof using Hrdy.
  split; [apply (pr_wf _ _ _ Hrdy)|]. pose proof (u8_range a). pose proof (u8_range b).
  split; [split; cbn; [apply u8_range|lia]|]. split; [eapply ready_bus; [done|apply u8_range]|].
  apply (pr_i2c _ _ _ Hrdy).
Qed.

Ltac sensor := cmd_open; unfold tel_dev_of, dev_of, status; pget.
Ltac simple := intros ? ? [? ?]; pget; by apply same_ok.

Lemma pta_at24cxx_read_ok : cmd_ok t types ps s (pta_at24cxx_read types ps).
Proof using Hps Hrdy.
  sensor. pose proof (u16_le b2 (proj1 Hn)). pose proof (u16_range b2).
  rewrite at24cxx_read_trunc. eapply wp_mono; [apply at24cxx_read_ok; [apply dev_at|lia|lia]|].
  intros [r ob] s' (Hk&Hr&b'&Eb&Hl&_). cbn [fst snd] in *. pget.
  eapply back_ok; [done|done|exact A2|done|done|]. rewrite Eb. intros ? [= <-]. lia.
Qed.
Lemma pta_at24cxx_write_ok : eeprom_write_fits ps → cmd_ok t types ps s (pta_at24cxx_write types ps).
Proof using Hps Hrdy.
  intros Hw. sensor. specialize (Hw _ _ (proj1 A2)).
  destruct (input_bytes _ _ _ _ _ A2) as (data&->&Hby&->&Hr2).
  eapply wp_mono; [apply at24cxx_write_ok; [apply dev_at|done| |done]|simple].
  apply take_ge. unfold bytes. rewrite length_fmap. lia.
Qed.
Lemma at24cxx_service_ok cmd : (cmd = PTA_CMD_AT24CXX_WRITE → eeprom_write_fits ps) →
  cmd_ok t types ps s (at24cxx_invoke_command cmd types ps).
Proof using Hps Hrdy.
  intros Hw. unfold at24cxx_invoke_command.
  repeat case_match; bool_props; auto using pta_at24cxx_read_ok, pta_at24cxx_write_ok.
  by apply cmd_const; auto.
Qed.

Lemma pta_atk301_init_ok : cmd_ok t types ps s (pta_atk301_init types ps).
Proof using Hps Hrdy. sensor. eapply wp_mono; [apply atk301_init_ok, dev_at|simple]. Qed.
Lemma pta_atk301_get_ok : cmd_ok t types ps s (pta_atk301_get_fingerprint_image types ps).
Proof using Hps Hrdy. sensor. eapply wp_mono; [apply atk301_get_fingerprint_image_ok, dev_at|simple]. Qed.
Lemma pta_atk301_upload_ok : cmd_ok t types ps s (pta_atk301_upload_fingerprint_image types ps).
Proof using Hps Hrdy.
  sensor. destruct (Z.eqb_spec b1 Atk301.ATK301_FINGERPRINT_IMAGE_DATA_LEN) as [E|]; cbn [negb]; pget;
    [|by apply same_ok; auto].
  eapply wp_mono; [apply atk301_upload_ok; [apply dev_at|lia]|].
  intros [r b'] s' (Hk&Hr&Hl&_). cbn [fst snd] in *. pget.
  eapply back_ok; [done|done|exact A1|done|done|]. intros ? [= <-]. lia.
Qed.
Lemma atk301_service_ok cmd : cmd_ok t types ps s (atk301_invoke_command cmd types ps).
Proof using Hps Hrdy.
  unfold atk301_invoke_command.
  repeat case_match; auto using pta_atk301_init_ok, pta_atk301_get_ok, pta_atk301_upload_ok.
  by apply cmd_const; auto.
Qed.

Lemma pta_bh1750fvi_init_ok : cmd_ok t types ps s (pta_bh1750fvi_init types ps).
Proof using Hps Hrdy. sensor. eapply wp_mono; [apply bh1750fvi_init_ok, dev_at|simple]. Qed.
Lemma pta_bh1750fvi_sample_ok : cmd_ok t types ps s (pta_bh1750fvi_sample types ps).
Proof using Hps Hrdy.
  sensor. eapply wp_mono; [apply bh1750fvi_sample_ok, dev_at|].
  intros [r [lux|]] s' (Hk&Hr&Hx); cbn [fst snd] in *.
  - destruct Hx as [-> (?&?&?&?&?&?)]. status_red. eapply value_back_ok; eauto; [done|lia].
  - rewrite (proj2 (Z.eqb_neq _ _)) by done. cbn [negb]. pget. by apply same_ok.
Qed.
Lemma bh1750fvi_service_ok cmd : cmd_ok t types ps s (bh1750fvi_invoke_command cmd types ps).
Proof using Hps Hrdy.
  unfold bh1750fvi_invoke_command.
  repeat case_match; auto using pta_bh1750fvi_init_ok, pta_bh1750fvi_sample_ok.
  by apply cmd_const; auto.
Qed.

Lemma pta_mpu6050_init_ok : cmd_ok t types ps s (pta_mpu6050_init types ps).
Proof using Hps Hrdy. sensor. eapply wp_mono; [apply mpu_init_ok, dev_at|simple]. Qed.
Lemma pta_mpu6050_deinit_ok : cmd_ok t types ps s (pta_mpu6050_deinit types ps).
Proof using Hps Hrdy. sensor. eapply wp_mono; [apply mpu_deinit_ok, dev_at|simple]. Qed.
Lemma pta_mpu6050_sample_ok : cmd_ok t types ps s (pta_mpu6050_sample types ps).
Proof using Hps Hrdy.
  sensor. destruct (Z.eqb_spec b1 14); cbn [negb]; pget; [|by apply same_ok; auto].
  eapply wp_mono; [apply mpu_sample_ok; [apply dev_at|lia]|].
  intros [r ob] s' (Hk&Hr&b'&Eb&Hl&_). cbn [fst snd] in *. pget.
  eapply back_ok; [done|done|exact A1|done|done|]. rewrite Eb. intros ? [= <-]. lia.
Qed.
Lemma mpu6050_service_ok cmd : cmd_ok t types ps s (mpu6050_invoke_command cmd types ps).
Proof using Hps Hrdy.
  unfold mpu6050_invoke_command.
  repeat case_match; auto using pta_mpu6050_init_ok, pta_mpu6050_deinit_ok, pta_mpu6050_sample_ok.
  by apply cmd_const; auto.
Qed.

(** *** TEL0157 *)

Lemma pta_tel0157_init_ok : cmd_ok t types ps s (pta_tel0157_init types ps).
Proof using Hps Hrdy.
  sensor. eapply wp_mono; [apply tel0157_init_ok, dev_at|].
  intros [r []] s' (?&?); pget; by apply same_ok.
Qed.
Lemma pta_tel0157_deinit_ok : cmd_ok t types ps s (pta_tel0157_deinit types ps).
Proof using Hps Hrdy.
  sensor. eapply wp_mono; [apply tel0157_deinit_ok, dev_at|].
  intros [r []] s' (?&?); pget; by apply same_ok.
Qed.

(** The record getters: the fields set are copied over the client's memory. *)
Lemma overlay_back i m n new r s' : at_ types ps i MEM_OUT (UMemref m n) → 0 <= i → blen m = n →
  blen new = n → kept s s' → tee_status r →
  wp t (back ps i r (Some (overlay new m))) (pta_post types ps s) s'.
Proof using Hps.
  intros A Hi Hm Hn Hk Hr. eapply back_ok; [done|done|exact A|done|done|]. intros ? [= <-].
  rewrite overlay_blen; lia.
Qed.
Lemma pta_tel0157_get_utc_time_ok : cmd_ok t types ps s (pta_tel0157_get_utc_time types ps).
Proof using Hps Hrdy.
  sensor. destruct (Z.eqb_spec b1 sizeof_time); cbn [negb]; pget; [|by apply same_ok; auto].
  eapply wp_mono; [apply tel0157_get_utc_time_ok, dev_at|].
  intros [r q] s' (Hk&Hr&_). pget. eapply overlay_back; eauto; [done|by rewrite time_blen].
Qed.
Lemma pta_tel0157_get_lon_ok : cmd_ok t types ps s (pta_tel0157_get_lon types ps).
Proof using Hps Hrdy.
  sensor. destruct (Z.eqb_spec b1 sizeof_lon_lat); cbn [negb]; pget; [|by apply same_ok; auto].
  eapply wp_mono; [apply tel0157_get_lon_ok, dev_at|].
  intros [r q] s' (Hk&Hr&_). pget. eapply overlay_back; eauto; [done|by rewrite lon_lat_blen].
Qed.
Lemma pta_tel0157_get_lat_ok : cmd_ok t types ps s (pta_tel0157_get_lat types ps).
Proof using Hps Hrdy.
  sensor. destruct (Z.eqb_spec b1 sizeof_lon_lat); cbn [negb]; pget; [|by apply same_ok; auto].
  eapply wp_mono; [apply tel0157_get_lat_ok, dev_at|].
  intros [r q] s' (Hk&Hr&_). pget. eapply overlay_back; eauto; [done|by rewrite lon_lat_blen].
Qed.

Lemma pta_tel0157_get3_ok get :
  (∀ d b s0, dev_ready t (tel_dev d) s0 → 3 <= blen b →
     wp t (get d (Some b)) (λ r s', kept s0 s' ∧ read_post 3 b r) s0) →
  cmd_ok t types ps s (pta_tel0157_get3 get types ps).
Proof using Hps Hrdy.
  intros Hget. sensor. destruct (Z.eqb_spec b1 3); cbn [negb]; pget; [|by apply same_ok; auto].
  eapply wp_mono; [apply Hget; [apply dev_at|lia]|].
  intros [r ob] s' (Hk&Hr&b'&Eb&Hl&_). cbn [fst snd] in *. pget.
  eapply back_ok; [done|done|exact A1|done|done|]. rewrite Eb. intros ? [= <-]. lia.
Qed.
Lemma pta_tel0157_get_alt_ok : cmd_ok t types ps s (pta_tel0157_get_alt types ps).
Proof using Hps Hrdy. apply pta_tel0157_get3_ok. intros. by apply reg_getter_ok. Qed.
Lemma pta_tel0157_get_sog_ok : cmd_ok t types ps s (pta_tel0157_get_sog types ps).
Proof using Hps Hrdy. apply pta_tel0157_get3_ok. intros. by apply reg_getter_ok. Qed.
Lemma pta_tel0157_get_cog_ok : cmd_ok t types ps s (pta_tel0157_get_cog types ps).
Proof using Hps Hrdy. apply pta_tel0157_get3_ok. intros. by apply reg_getter_ok. Qed.

Lemma pta_tel0157_get_num_sat_used_ok : cmd_ok t types ps s (pta_tel0157_get_num_sat_used types ps).
Proof using Hps Hrdy.
  sensor. eapply wp_mono; [apply (reg_getter_ok t (Tel _ 0 0) _ 1 (uninit 1)); [apply dev_at|done|done]|].
  intros [r ob] s' [Hk Hp]. pget. by eapply (back_byte_ok _ _ _ _ Hps s' _ _ _ _ (r, ob)); eauto.
Qed.
Lemma pta_tel0157_get_gnss_mode_ok : cmd_ok t types ps s (pta_tel0157_get_gnss_mode types ps).
Proof using Hps Hrdy.
  sensor. eapply wp_mono; [apply (reg_getter_ok t (Tel _ 0 0) _ 1 (uninit 1)); [apply dev_at|done|done]|].
  intros [r ob] s' [Hk Hp]. pget. by eapply (back_byte_ok _ _ _ _ Hps s' _ _ _ _ (r, ob)); eauto.
Qed.
Lemma pta_tel0157_get_gnss_len_ok : cmd_ok t types ps s (pta_tel0157_get_gnss_len types ps).
Proof using Hps Hrdy.
  sensor. eapply wp_mono; [apply tel0157_get_gnss_len_ok, dev_at|].
  intros [r len] s' (Hk&Hr&Hs&Hv). cbn [fst snd] in *. pget.
  destruct (Z.eqb_spec r TEE_SUCCESS) as [E|]; cbn [negb]; pget; [|by apply same_ok].
  destruct (proj1 Hs E) as [x ->]. specialize (Hv _ eq_refl). eapply value_back_ok; eauto; [done|lia].
Qed.
Lemma pta_tel0157_get_all_gnss_ok : cmd_ok t types ps s (pta_tel0157_get_all_gnss types ps).
Proof using Hps Hrdy.
  sensor. pose proof (u16_le b1 (proj1 Hn)).
  eapply wp_mono; [apply tel0157_get_all_gnss_ok; [apply dev_at|apply u16_range|lia]|].
  intros [r ob] s' (Hk&Hr&b'&Eb&Hl&_). cbn [fst snd] in *. pget.
  eapply back_ok; [done|done|exact A1|done|done|]. rewrite Eb. intros ? [= <-]. lia.
Qed.
Lemma tel0157_service_ok cmd : cmd_ok t types ps s (tel0157_invoke_command cmd types ps).
Proof using Hps Hrdy.
  unfold tel0157_invoke_command.
  on_cmd pta_tel0157_init_ok.
  on_cmd pta_tel0157_deinit_ok.
  on_cmd pta_tel0157_get_utc_time_ok.
  on_cmd pta_tel0157_get_lon_ok.
  on_cmd pta_tel0157_get_lat_ok.
  on_cmd pta_tel0157_get_alt_ok.
  on_cmd pta_tel0157_get_sog_ok.
  on_cmd pta_tel0157_get_cog_ok.
  on_cmd pta_tel0157_get_num_sat_used_ok.
  on_cmd pta_tel0157_get_gnss_mode_ok.
  on_cmd pta_tel0157_get_gnss_len_ok.
  on_cmd pta_tel0157_get_all_gnss_ok.
  by apply cmd_const; auto.
Qed.
End sensors.

(** ** All services *)

(** What the source leaves to the client, per service. *)
Definition pta_client_ok (maxlen : Z) (svc : service) (cmd : Z) (ps : uparams) : Prop :=
  match svc with
  | I2C_SERVICE => 0 <= cmd <= PTA_I2C_WRITE_REGS → addr7 ps
  | SPI_SERVICE => fits maxlen ps
  | W25QXX_SERVICE => cmd ≠ PTA_CMD_W25QXX_READ_ID ∧ flash_bus ps ∧ fits maxlen ps
  | AT24CXX_SERVICE => cmd = PTA_CMD_AT24CXX_WRITE → eeprom_write_fits ps
  | _ => True
  end.

Lemma pta_invoke_ok `{Env} t maxlen svc cmd types ps v :
  0 <= maxlen → params_ok types ps → pta_ready t maxlen (is_d v) → bench_ok v →
  pta_client_ok maxlen svc cmd ps →
  wp t (pta_invoke svc cmd types ps) (svc_post types ps v) v.
Proof.
  intros Hm Hps Hrdy Hb Hc. destruct svc; cbn in Hc |- *; try (apply on_driver_ok; [done|]).
  - by apply gpio_service_ok.
  - by eapply i2c_service_ok.
  - by eapply spi_service_ok.
  - by apply dht_service_ok.
  - destruct Hc as (?&?&?). by eapply w25qxx_service_ok.
  - by eapply at24cxx_service_ok.
  - by eapply atk301_service_ok.
  - by eapply bh1750fvi_service_ok.
  - by eapply mpu6050_service_ok.
  - by eapply tel0157_service_ok.
Qed.
