(* ===== verification/IoReq.v ===== *)
(** * The request queue (core/pta/io_helper/io_req.c)

    A singly linked list of malloc'ed nodes with front and rear pointers.
    Nodes live in a map from addresses to nodes; address 0 is NULL and freed
    nodes leave the map, so a dangling access is undefined behaviour.  The
    queue is proved to implement a FIFO list, also when several queues share
    the node memory. *)

From Stdlib Require Import ZArith Lia Bool.
From stdpp Require Import base tactics option list numbers gmap.
From S2P Require Import Prelude Platform.

Open Scope Z_scope.

Section queue.
Context {A : Type}.

Record io_req_node := Node { nd_req : A; nd_next : Z }.
Record io_req_queue := Queue { q_front : Z; q_rear : Z }.

(** The node memory: live nodes and the next address malloc gives. *)
Record qmem := QMem { qm_nodes : gmap Z io_req_node; qm_fresh : Z }.

Definition QM (B : Type) : Type := M (qmem * io_req_queue) B.

Definition load_node (p : Z) : QM io_req_node := λ s,
  match qm_nodes s.1 !! p with Some n => Ok n s | None => Undef UB_null end.
Definition store_next (p nx : Z) : QM unit := λ s,
  match qm_nodes s.1 !! p with
  | Some n => Ok tt (QMem (<[p := Node (nd_req n) nx]> (qm_nodes s.1)) (qm_fresh s.1), s.2)
  | None => Undef UB_null
  end.
(** [malloc(sizeof(io_req_node))] and the two stores that fill the node. *)
Definition new_node (req : A) : QM Z := λ s,
  Ok (qm_fresh s.1)
     (QMem (<[qm_fresh s.1 := Node req 0]> (qm_nodes s.1)) (qm_fresh s.1 + 1), s.2).
Definition free_node (p : Z) : QM unit := λ s,
  match qm_nodes s.1 !! p with
  | Some _ => Ok tt (QMem (delete p (qm_nodes s.1)) (qm_fresh s.1), s.2)
  | None => Undef UB_free
  end.
Definition set_front (p : Z) : QM unit := modify (λ s, (s.1, Queue p (q_rear s.2))).
Definition set_rear (p : Z) : QM unit := modify (λ s, (s.1, Queue (q_front s.2) p)).

Definition queue_init : QM unit := set_front 0;; set_rear 0.

Definition is_empty : QM bool := gets (λ s, q_front s.2 =? 0).

(** [ok]: whether malloc succeeds. *)
Definition enqueue (ok : bool) (req : A) : QM Z :=
  if negb ok then mret TEE_ERROR_OUT_OF_MEMORY else
  p ← new_node req;
  e ← is_empty;
  (if e : bool then set_front p;; set_rear p
   else
     rear ← gets (λ s, q_rear s.2);
     store_next rear p;;
     set_rear p);;
  mret TEE_SUCCESS.

Definition dequeue : QM (Z * option A) :=
  e ← is_empty;
  if e : bool then mret (TEE_ERROR_NO_DATA, None) else
  tmp ← gets (λ s, q_front s.2);
  n ← load_node tmp;
  set_front (nd_next n);;
  (if nd_next n =? 0 then set_rear 0 else mret ());;
  free_node tmp;;
  mret (TEE_SUCCESS, Some (nd_req n)).

(** ** The list a queue stands for *)

Fixpoint chain (m : gmap Z io_req_node) (p : Z) (l : list (Z * A)) : Prop :=
  match l with
  | [] => p = 0
  | (id, a) :: l' => p = id ∧ id ≠ 0 ∧ ∃ nx, m !! id = Some (Node a nx) ∧ chain m nx l'
  end.

Definition rear_of (l : list (Z * A)) : Z := default 0 (last l.*1).

(** [queue_rep m q l]: [q] is the list [l] of nodes (address, request). *)
Definition queue_rep (m : qmem) (q : io_req_queue) (l : list (Z * A)) : Prop :=
  chain (qm_nodes m) (q_front q) l ∧ q_rear q = rear_of l ∧ NoDup l.*1
  ∧ Forall (λ id, 0 < id < qm_fresh m) l.*1.

Lemma chain_frame m m' p l :
  (∀ id, id ∈ l.*1 → m' !! id = m !! id) → chain m p l → chain m' p l.
Proof.
  revert p; induction l as [|[id a] l IH]; intros p Heq Hc; [done|].
  destruct Hc as (->&?&nx&Hm&Hc). cbn. split_and!; [done|done|]. exists nx. split.
  - rewrite Heq; [done|]. cbn. by left.
  - apply IH; [|done]. intros id' ?. apply Heq. cbn. by right.
Qed.

Lemma queue_rep_frame m m' q l :
  (∀ id, id ∈ l.*1 → qm_nodes m' !! id = qm_nodes m !! id) → qm_fresh m <= qm_fresh m' →
  queue_rep m q l → queue_rep m' q l.
Proof.
  intros Heq Hf (?&?&?&Hr). split_and!; [by eapply chain_frame|done|done|].
  eapply Forall_impl; [exact Hr|]. cbn. lia.
Qed.

Lemma chain_front m p l : chain m p l → (p = 0 ↔ l = []).
Proof. destruct l as [|[id a] l]; cbn; [done|]. intros (->&?&_). split; done. Qed.

(** Appending a node behind the last one. *)
Lemma chain_snoc m p l r a n x :
  NoDup (l ++ [(r, a)]).*1 → x ∉ (l ++ [(r, a)]).*1 → x ≠ 0 →
  chain m p (l ++ [(r, a)]) → m !! x = Some (Node n 0) →
  chain (<[r := Node a x]> m) p (l ++ [(r, a)] ++ [(x, n)]).
Proof.
  revert p; induction l as [|[id b] l IH]; intros p Hnd Hx Hx0 Hc Hm; cbn in *.
  - destruct Hc as (->&?&nx&Hr&_). split_and!; [done|done|]. exists x.
    rewrite lookup_insert_eq. split; [done|]. split_and!; [done|done|]. exists 0.
    rewrite lookup_insert_ne; [done|]. apply not_elem_of_cons in Hx. naive_solver.
  - apply NoDup_cons in Hnd as [Hni Hnd]. destruct Hc as (->&?&nx&Hid&Hc).
    split_and!; [done|done|]. exists nx. split.
    + rewrite lookup_insert_ne; [done|]. intros ->. apply Hni. rewrite fmap_app.
      apply elem_of_app. right. by left.
    + apply IH; auto. by apply not_elem_of_cons in Hx as [_ ?].
Qed.

Lemma chain_last m p l r a : chain m p (l ++ [(r, a)]) → ∃ nx, m !! r = Some (Node a nx).
Proof.
  revert p; induction l as [|[id c] l IH]; cbn.
  - intros p (->&?&nx&Hm&_). by eexists.
  - intros p (->&?&nx&Hm&Hc). by eapply IH.
Qed.

Lemma rear_of_snoc l x a : rear_of (l ++ [(x, a)]) = x.
Proof. unfold rear_of. rewrite fmap_app. change ([(x, a)].*1) with [x]. by rewrite last_snoc. Qed.

(** The list is determined by the memory. *)
Lemma chain_inj m p l l' : chain m p l → chain m p l' → l = l'.
Proof.
  revert p l'; induction l as [|[id a] l IH]; intros p [|[id' a'] l']; cbn; [done| | |].
  - intros -> (->&?&_). done.
  - intros (->&?&_) ->. done.
  - intros (->&_&nx&Hm&Hc) (->&_&nx'&Hm'&Hc'). rewrite Hm in Hm'. injection Hm' as -> ->.
    f_equal. by eapply IH.
Qed.
Lemma queue_rep_inj m q l l' : queue_rep m q l → queue_rep m q l' → l = l'.
Proof. intros (Hc&_) (Hc'&_). by eapply chain_inj. Qed.

(** ** FIFO behaviour *)

Lemma enqueue_spec t m q l a : queue_rep m q l → 0 < qm_fresh m →
  wp t (enqueue true a) (λ r '(m', q'), r = TEE_SUCCESS ∧
    queue_rep m' q' (l ++ [(qm_fresh m, a)]) ∧ qm_fresh m' = qm_fresh m + 1
    ∧ ∀ id, id ∉ l.*1 → id ≠ qm_fresh m → qm_nodes m' !! id = qm_nodes m !! id) (m, q).
Proof.
  intros (Hc&Hrear&Hnd&Hlt) Hpos. unfold enqueue. cbn [negb]. wp_steps.
  unfold wp at 1, new_node, is_empty. cbn [fst snd]. wp_steps. cbn [fst snd].
  set (x := qm_fresh m). set (m1 := <[x := Node a 0]> (qm_nodes m)).
  assert (x ∉ l.*1) as Hx.
  { intros Hin. rewrite Forall_forall in Hlt. apply Hlt in Hin. lia. }
  assert (chain m1 (q_front q) l) as Hc1.
  { eapply chain_frame; [|exact Hc]. intros id Hid. unfold m1.
    rewrite lookup_insert_ne; [done|]. by intros ->. }
  pose proof (chain_front _ _ _ Hc) as Hf.
  assert (Forall (λ id, 0 < id < x + 1) (l ++ [(x, a)]).*1) as Hall.
  { rewrite fmap_app. apply Forall_app. split; [|by repeat constructor; cbn; lia].
    eapply Forall_impl; [exact Hlt|]. cbn. lia. }
  assert (NoDup (l ++ [(x, a)]).*1) as Hnd'.
  { rewrite fmap_app. apply NoDup_app. split_and!; [done| |apply NoDup_singleton].
    cbn. intros id Hid ->%list_elem_of_singleton. done. }
  destruct (Z.eqb_spec (q_front q) 0) as [Hz|Hz]; unfold set_front, set_rear; wp_steps; cbn.
  - apply Hf in Hz as ->. cbn. split_and!; auto.
    + split_and!; auto. cbn. split_and!; [done|lia|]. exists 0. unfold m1.
      by rewrite lookup_insert_eq.
    + intros id _ Hne. unfold m1. by rewrite lookup_insert_ne.
  - destruct l as [|y l0 _] using rev_ind; [by destruct Hz; apply Hf|]. destruct y as [r b].
    rewrite rear_of_snoc in Hrear. rewrite Hrear.
    destruct (chain_last _ _ _ _ _ Hc1) as [nx Hr].
    unfold wp at 1, store_next. cbn [fst snd qm_nodes qm_fresh]. fold m1. rewrite Hr. wp_steps.
    cbn. split_and!; auto.
    + rewrite <- app_assoc. split_and!; auto; cbn [qm_nodes q_front q_rear qm_fresh nd_req].
      * apply chain_snoc; auto; [lia|]. unfold m1. by rewrite lookup_insert_eq.
      * by rewrite app_assoc, rear_of_snoc.
      * by rewrite app_assoc.
      * by rewrite app_assoc.
    + intros id Hid Hne. rewrite fmap_app in Hid. cbn in Hid.
      rewrite lookup_insert_ne; [|intros ->; apply Hid, elem_of_app; right; by left].
      unfold m1. by rewrite lookup_insert_ne.
Qed.

Lemma enqueue_oom t m q a :
  wp t (enqueue false a) (λ r s', r = TEE_ERROR_OUT_OF_MEMORY ∧ s' = (m, q)) (m, q).
Proof. done. Qed.

Lemma dequeue_empty t m q : queue_rep m q [] →
  wp t dequeue (λ r s', r = (TEE_ERROR_NO_DATA, None) ∧ s' = (m, q)) (m, q).
Proof.
  intros (Hc&_). unfold dequeue, is_empty. wp_steps. cbn in *. by rewrite Hc.
Qed.

Lemma dequeue_spec t m q id a l : queue_rep m q ((id, a) :: l) →
  wp t dequeue (λ r '(m', q'), r = (TEE_SUCCESS, Some a) ∧ queue_rep m' q' l
    ∧ m' = QMem (delete id (qm_nodes m)) (qm_fresh m)) (m, q).
Proof.
  intros (Hc&Hrear&Hnd&Hlt). cbn in Hc, Hnd, Hlt. destruct Hc as (Hfr&Hid&nx&Hm&Hc).
  apply NoDup_cons in Hnd as [Hni Hnd]. apply Forall_cons in Hlt as [? Hlt].
  unfold dequeue, is_empty. wp_steps. cbn [fst snd]. rewrite Hfr.
  rewrite (proj2 (Z.eqb_neq _ _)) by done. wp_steps. cbn [fst snd]. rewrite Hfr.
  unfold wp at 1, load_node. cbn [fst]. rewrite Hm. unfold set_front. wp_steps. cbn [nd_next].
  assert (chain (delete id (qm_nodes m)) nx l) as Hc'.
  { eapply chain_frame; [|exact Hc]. intros id' Hid'. rewrite lookup_delete_ne; [done|].
    by intros ->. }
  pose proof (chain_front _ _ _ Hc) as Hf.
  destruct (Z.eqb_spec nx 0) as [Hz|Hz]; unfold set_rear; wp_steps; cbn.
  - apply Hf in Hz as ->. unfold wp, free_node. cbn. rewrite Hm. split_and!; auto.
    split_and!; auto.
  - destruct l as [|y l0 _] using rev_ind; [by destruct Hz; apply Hf|]. destruct y as [r b].
    unfold wp, free_node. cbn. rewrite Hm. split_and!; auto. split_and!; auto.
    cbn. rewrite Hrear. unfold rear_of. cbn. rewrite !fmap_app. cbn.
    by rewrite app_comm_cons, !last_snoc.
Qed.

Lemma queue_init_spec t m q : 
  wp t queue_init (λ _ s', s'.1 = m ∧ queue_rep m s'.2 []) (m, q).
Proof. split; [done|]. split_and!; [done|done|constructor|constructor]. Qed.

(** ** Any sequence of operations *)

Inductive qop := QEnqueue (ok : bool) (a : A) | QDequeue.

Fixpoint run_ops (ops : list qop) : QM (list (Z * option A)) :=
  match ops with
  | [] => mret []
  | QEnqueue ok a :: ops' => r ← enqueue ok a; rs ← run_ops ops'; mret ((r, None) :: rs)
  | QDequeue :: ops' => r ← dequeue; rs ← run_ops ops'; mret (r :: rs)
  end.

(** The same on a list. *)
Fixpoint spec_ops (ops : list qop) (l : list A) : list (Z * option A) * list A :=
  match ops with
  | [] => ([], l)
  | QEnqueue true a :: ops' => let '(rs, l') := spec_ops ops' (l ++ [a]) in ((TEE_SUCCESS, None) :: rs, l')
  | QEnqueue false a :: ops' => let '(rs, l') := spec_ops ops' l in ((TEE_ERROR_OUT_OF_MEMORY, None) :: rs, l')
  | QDequeue :: ops' =>
      match l with
      | [] => let '(rs, l') := spec_ops ops' [] in ((TEE_ERROR_NO_DATA, None) :: rs, l')
      | a :: l0 => let '(rs, l') := spec_ops ops' l0 in ((TEE_SUCCESS, Some a) :: rs, l')
      end
  end.

Lemma run_ops_spec ops m q l : queue_rep m q l → 0 < qm_fresh m →
  wp true (run_ops ops) (λ rs s, ∃ l', queue_rep s.1 s.2 l' ∧ spec_ops ops l.*2 = (rs, l'.*2)) (m, q).
Proof.
  revert m q l; induction ops as [|[ok a|] ops IH]; intros m q l Hr Hpos; cbn [run_ops spec_ops].
  - wp_steps. by exists l.
  - wp_steps. destruct ok.
    + eapply wp_mono; [by apply enqueue_spec|]. intros r [m' q'] (->&Hr'&Hf&_). wp_steps.
      eapply wp_mono; [apply IH; [exact Hr'|lia]|]. intros rs s (l'&?&Hs). wp_steps. exists l'.
      split; [done|]. rewrite fmap_app in Hs. cbn in Hs. by rewrite Hs.
    + eapply wp_mono; [apply enqueue_oom|]. intros r ? [-> ->]. wp_steps.
      eapply wp_mono; [by apply IH|]. intros rs s (l'&?&Hs). wp_steps. exists l'. split; [done|]. by rewrite Hs.
  - wp_steps. destruct l as [|[id a] l0].
    + eapply wp_mono; [by apply dequeue_empty|]. intros r ? [-> ->]. wp_steps.
      eapply wp_mono; [by apply (IH m q [])|]. intros rs s (l'&?&Hs). wp_steps. exists l'. split; [done|].
      cbn in Hs |- *. by rewrite Hs.
    + eapply wp_mono; [by apply dequeue_spec|]. intros r [m' q'] (->&Hr'&->). wp_steps.
      eapply wp_mono; [by apply IH|]. intros rs s (l'&?&Hs). wp_steps. exists l'. split; [done|].
      cbn. by rewrite Hs.
Qed.
End queue.
