(* ===== verification/IoState.v ===== *)
(** * State of the I/O helper (core/pta/io_helper)

    Requests and signal entries as the C structs have them, the kernel heap,
    and the global arrays of io_signal.c and io_helper_service.c, with the
    memory operations on them. *)

From Stdlib Require Import ZArith Lia Bool.
From stdpp Require Import base tactics option list numbers gmap.
From S2P Require Import Prelude Platform IoReq.

Open Scope Z_scope.

Definition N_PERIPH : Z := 64.
Definition N_SUB_SIG : Z := 64.

(** A pointer into the kernel heap; [Indet] is one that was never stored. *)
Inductive ptr := Null | Blk (id : Z) | Indet.
#[export] Instance ptr_eq_dec : EqDecision ptr.
Proof. solve_decision. Defined.

(** [TEE_Param] of a queued request: a union whose active member is known. *)
Inductive TEE_Param := Value (a b : Z) | Memref (buffer : ptr) (size : Z).

(** [io_req_type_t] (pta_io_helper.h); [REQ_other] stands for the values the
    dispatch treats by default. *)
Inductive io_req_type_t :=
  | DHT_READ | BH1750FVI_SAMPLE | I2C_READ_BYTES | I2C_WRITE_BYTES | I2C_READ_REGS
  | I2C_WRITE_REGS | SPI_TRANSFER_BYTES | SPI_TRANSFER_BYTE | SPI_TRANSFER_DIFF_BYTES
  | WRITE_SECURE_OBJECT | READ_SECURE_OBJECT | MPU6050_SAMPLE | TEL0157_GET_GNSS_LEN
  | TEL0157_GET_ALL_GNSS | TEL0157_GET_UTC_TIME | TEL0157_GET_GNSS_MODE
  | TEL0157_GET_NUM_SAT_USED | TEL0157_GET_LON | TEL0157_GET_LAT | TEL0157_GET_ALT
  | TEL0157_GET_SOG | TEL0157_GET_COG | AT24CXX_WRITE | AT24CXX_READ
  | ATK301_GET_FINGERPRINT_IMAGE | ATK301_UPLOAD_FINGERPRINT_IMAGE | BME280_SAMPLE
  | BME280_GET_CALIBRATION | REQ_TYPE_NONE | REQ_other (v : Z).

(** The enumerators in order, and the conversion from the integer sent. *)
Definition io_req_types : list io_req_type_t :=
  [DHT_READ; BH1750FVI_SAMPLE; I2C_READ_BYTES; I2C_WRITE_BYTES; I2C_READ_REGS;
   I2C_WRITE_REGS; SPI_TRANSFER_BYTES; SPI_TRANSFER_BYTE; SPI_TRANSFER_DIFF_BYTES;
   WRITE_SECURE_OBJECT; READ_SECURE_OBJECT; MPU6050_SAMPLE; TEL0157_GET_GNSS_LEN;
   TEL0157_GET_ALL_GNSS; TEL0157_GET_UTC_TIME; TEL0157_GET_GNSS_MODE;
   TEL0157_GET_NUM_SAT_USED; TEL0157_GET_LON; TEL0157_GET_LAT; TEL0157_GET_ALT;
   TEL0157_GET_SOG; TEL0157_GET_COG; AT24CXX_WRITE; AT24CXX_READ;
   ATK301_GET_FINGERPRINT_IMAGE; ATK301_UPLOAD_FINGERPRINT_IMAGE; BME280_SAMPLE;
   BME280_GET_CALIBRATION; REQ_TYPE_NONE].
Definition io_req_type_of (v : Z) : io_req_type_t :=
  default (REQ_other v) (if 0 <=? v then io_req_types !! Z.to_nat v else None).

Record io_req_t := IoReq { rq_type : io_req_type_t; rq_signo : Z; rq_params : list TEE_Param }.

(** [io_sigentry_t]: [ret] is an [int], [len] and [poll_times] are [uint32_t]. *)
Record io_sigentry_t := SigEntry { se_ret : Z; se_buf : ptr; se_len : Z; se_polls : Z }.

Record kstate := KState {
  k_d : dstate;                           (* the drivers and the event history *)
  k_heap : gmap Z buf;                    (* live malloc'ed blocks *)
  k_fresh : Z;                            (* next block address *)
  k_pending : list Z;                     (* io_helper_sigpending *)
  k_using : list Z;                       (* io_helper_sigusing *)
  k_polls : list Z;                       (* poll_times *)
  k_nums : list Z;                        (* req_nums *)
  k_table : list (list io_sigentry_t);    (* io_helper_signal_table *)
  k_qmem : qmem (A:=io_req_t);            (* nodes of all request queues *)
  k_queues : list io_req_queue;           (* req_queues *)
  k_waiting : list bool;                  (* loops blocked on queue_notempty *)
  k_bench : list Z;                       (* benchmark_time *)
  k_req_idx : Z;                          (* req_idx *)
  k_get_idx : Z                           (* get_data_idx *)
}.

Definition set_k_d (x : dstate) (k : kstate) : kstate :=
  KState x (k_heap k) (k_fresh k) (k_pending k) (k_using k) (k_polls k) (k_nums k)
    (k_table k) (k_qmem k) (k_queues k) (k_waiting k) (k_bench k) (k_req_idx k) (k_get_idx k).
Definition set_k_heap (x : gmap Z buf) (k : kstate) : kstate :=
  KState (k_d k) x (k_fresh k) (k_pending k) (k_using k) (k_polls k) (k_nums k)
    (k_table k) (k_qmem k) (k_queues k) (k_waiting k) (k_bench k) (k_req_idx k) (k_get_idx k).
Definition set_k_fresh (x : Z) (k : kstate) : kstate :=
  KState (k_d k) (k_heap k) x (k_pending k) (k_using k) (k_polls k) (k_nums k)
    (k_table k) (k_qmem k) (k_queues k) (k_waiting k) (k_bench k) (k_req_idx k) (k_get_idx k).
Definition set_k_pending (x : list Z) (k : kstate) : kstate :=
  KState (k_d k) (k_heap k) (k_fresh k) x (k_using k) (k_polls k) (k_nums k)
    (k_table k) (k_qmem k) (k_queues k) (k_waiting k) (k_bench k) (k_req_idx k) (k_get_idx k).
Definition set_k_using (x : list Z) (k : kstate) : kstate :=
  KState (k_d k) (k_heap k) (k_fresh k) (k_pending k) x (k_polls k) (k_nums k)
    (k_table k) (k_qmem k) (k_queues k) (k_waiting k) (k_bench k) (k_req_idx k) (k_get_idx k).
Definition set_k_polls (x : list Z) (k : kstate) : kstate :=
  KState (k_d k) (k_heap k) (k_fresh k) (k_pending k) (k_using k) x (k_nums k)
    (k_table k) (k_qmem k) (k_queues k) (k_waiting k) (k_bench k) (k_req_idx k) (k_get_idx k).
Definition set_k_nums (x : list Z) (k : kstate) : kstate :=
  KState (k_d k) (k_heap k) (k_fresh k) (k_pending k) (k_using k) (k_polls k) x
    (k_table k) (k_qmem k) (k_queues k) (k_waiting k) (k_bench k) (k_req_idx k) (k_get_idx k).
Definition set_k_table (x : list (list io_sigentry_t)) (k : kstate) : kstate :=
  KState (k_d k) (k_heap k) (k_fresh k) (k_pending k) (k_using k) (k_polls k) (k_nums k)
    x (k_qmem k) (k_queues k) (k_waiting k) (k_bench k) (k_req_idx k) (k_get_idx k).
Definition set_k_qmem (x : qmem (A:=io_req_t)) (k : kstate) : kstate :=
  KState (k_d k) (k_heap k) (k_fresh k) (k_pending k) (k_using k) (k_polls k) (k_nums k)
    (k_table k) x (k_queues k) (k_waiting k) (k_bench k) (k_req_idx k) (k_get_idx k).
Definition set_k_queues (x : list io_req_queue) (k : kstate) : kstate :=
  KState (k_d k) (k_heap k) (k_fresh k) (k_pending k) (k_using k) (k_polls k) (k_nums k)
    (k_table k) (k_qmem k) x (k_waiting k) (k_bench k) (k_req_idx k) (k_get_idx k).
Definition set_k_waiting (x : list bool) (k : kstate) : kstate :=
  KState (k_d k) (k_heap k) (k_fresh k) (k_pending k) (k_using k) (k_polls k) (k_nums k)
    (k_table k) (k_qmem k) (k_queues k) x (k_bench k) (k_req_idx k) (k_get_idx k).
Definition set_k_bench (x : list Z) (k : kstate) : kstate :=
  KState (k_d k) (k_heap k) (k_fresh k) (k_pending k) (k_using k) (k_polls k) (k_nums k)
    (k_table k) (k_qmem k) (k_queues k) (k_waiting k) x (k_req_idx k) (k_get_idx k).
Definition set_k_req_idx (x : Z) (k : kstate) : kstate :=
  KState (k_d k) (k_heap k) (k_fresh k) (k_pending k) (k_using k) (k_polls k) (k_nums k)
    (k_table k) (k_qmem k) (k_queues k) (k_waiting k) (k_bench k) x (k_get_idx k).
Definition set_k_get_idx (x : Z) (k : kstate) : kstate :=
  KState (k_d k) (k_heap k) (k_fresh k) (k_pending k) (k_using k) (k_polls k) (k_nums k)
    (k_table k) (k_qmem k) (k_queues k) (k_waiting k) (k_bench k) (k_req_idx k) x.

(** All arrays zero, as the static initialisers leave them. *)
Definition k_init : kstate :=
  KState d_init ∅ 1 (replicate 64 0) (replicate 64 0) (replicate 64 0) (replicate 64 0)
    (replicate 64 (replicate 64 (SigEntry 0 Null 0 0)))
    (QMem ∅ 1) (replicate 64 (Queue 0 0)) (replicate 64 false) (replicate 200 0) 0 0.

Definition K (A : Type) : Type := M kstate A.

(** A driver call. *)
Definition lift {A} (m : D A) : K A := zoom k_d set_k_d m.

(** ** Heap *)
Section memory.
Context `{Env}.

(** [malloc(n)]: the environment decides; a new block is indeterminate. *)
Definition malloc (n : Z) : K ptr := λ k,
  let ok := env_malloc (d_trace (k_d k)) n in
  let k1 := set_k_d (d_log (E_malloc n ok) (k_d k)) k in
  if ok then Ok (Blk (k_fresh k))
                (set_k_heap (<[k_fresh k := uninit n]> (k_heap k)) (set_k_fresh (k_fresh k + 1) k1))
  else Ok Null k1.

Definition free (p : ptr) : K unit := λ k,
  match p with
  | Null => Ok tt k
  | Blk id => match k_heap k !! id with
              | Some _ => Ok tt (set_k_heap (delete id (k_heap k)) k)
              | None => Undef UB_free
              end
  | Indet => Undef UB_free
  end.

(** The memory a pointer argument gives access to. *)
Definition load (p : ptr) : K (option buf) := λ k,
  match p with
  | Null => Ok None k
  | Blk id => match k_heap k !! id with
              | Some b => Ok (Some b) k
              | None => Undef UB_null
              end
  | Indet => Undef UB_uninit
  end.
Definition store (p : ptr) (ob : option buf) : K unit := λ k,
  match p, ob with
  | Blk id, Some b => match k_heap k !! id with
                      | Some _ => Ok tt (set_k_heap (<[id := b]> (k_heap k)) k)
                      | None => Undef UB_null
                      end
  | _, _ => Ok tt k
  end.
End memory.

(** ** Signal table *)

Definition get_entry (p signo : Z) : K io_sigentry_t :=
  t ← gets k_table; row ← arr_get t p; arr_get row signo.
Definition put_entry (p signo : Z) (e : io_sigentry_t) : K unit :=
  t ← gets k_table; row ← arr_get t p; row' ← arr_set row signo e;
  t' ← arr_set t p row'; modify (set_k_table t').

Definition set_ret (p signo r : Z) : K unit :=
  e ← get_entry p signo; put_entry p signo (SigEntry (i32 r) (se_buf e) (se_len e) (se_polls e)).
Definition set_len (p signo n : Z) : K unit :=
  e ← get_entry p signo; put_entry p signo (SigEntry (se_ret e) (se_buf e) (u32 n) (se_polls e)).
Definition set_buf (p signo : Z) (b : ptr) : K unit :=
  e ← get_entry p signo; put_entry p signo (SigEntry (se_ret e) b (se_len e) (se_polls e)).
Definition set_polls (p signo n : Z) : K unit :=
  e ← get_entry p signo; put_entry p signo (SigEntry (se_ret e) (se_buf e) (se_len e) (u32 n)).

(** Members of a request parameter, read through the union. *)
Definition value_a (r : io_req_t) (i : Z) : K Z :=
  p ← arr_get (rq_params r) i; match p with Value a _ => mret a | _ => undef UB_union end.
Definition value_b (r : io_req_t) (i : Z) : K Z :=
  p ← arr_get (rq_params r) i; match p with Value _ b => mret b | _ => undef UB_union end.
Definition memref_buffer (r : io_req_t) (i : Z) : K ptr :=
  p ← arr_get (rq_params r) i; match p with Memref b _ => mret b | _ => undef UB_union end.
Definition memref_size (r : io_req_t) (i : Z) : K Z :=
  p ← arr_get (rq_params r) i; match p with Memref _ n => mret n | _ => undef UB_union end.
