(* ===== verification/IoSignal.v ===== *)
(** * Signal bitmaps (core/include/io_helper/io_signal.h)

    Allocation, completion and release of the 64 sub-signals of each of the
    64 peripherals, as 64-bit bitmaps with their counters. *)

From Stdlib Require Import ZArith Lia Bool.
From stdpp Require Import base tactics option list numbers gmap.
From S2P Require Import Prelude Platform IoReq IoState.

Open Scope Z_scope.

Definition UINT64_MAX : Z := 2 ^ 64 - 1.

(** [__builtin_ffsll]: one plus the index of the least significant set bit. *)
Definition ffsll (x : Z) : Z :=
  match filter (λ i, Z.testbit x i = true) (seqZ 0 64) with
  | i :: _ => i + 1
  | [] => 0
  end.

(** Locks are members of arrays of [N_PERIPH]. *)
Definition klock (l : Z → lock_id) (p : Z) : K unit :=
  if (0 <=? p) && (p <? N_PERIPH) then lift (mutex_lock (l p)) else undef UB_oob.
Definition kunlock (l : Z → lock_id) (p : Z) : K unit :=
  if (0 <=? p) && (p <? N_PERIPH) then lift (mutex_unlock (l p)) else undef UB_oob.

(** [(uint64_t)1 << signo] *)
Definition bit64 (signo : Z) : K Z :=
  if signo <? 64 then mret (BIT signo) else undef UB_shift.

Definition get_ready_signal (p : Z) : K Z :=
  klock L_sigpending p;;
  polls ← gets k_polls;
  n ← arr_get polls p;
  polls ← arr_set polls p (u32 (n + 1));
  modify (set_k_polls polls);;
  pend ← gets k_pending;
  x ← arr_get pend p;
  res ← (if truth x then
           let res := ffsll x - 1 in
           polls ← gets k_polls;
           n ← arr_get polls p;
           set_polls p res n;;
           polls ← arr_set polls p 0;
           modify (set_k_polls polls);;
           mret res
         else mret (-1));
  kunlock L_sigpending p;;
  mret res.

Definition set_ready_signal (p signo : Z) : K unit :=
  klock L_sigpending p;;
  pend ← gets k_pending;
  x ← arr_get pend p;
  b ← bit64 signo;
  pend ← arr_set pend p (Z.lor x b);
  modify (set_k_pending pend);;
  kunlock L_sigpending p.

Definition is_ready_signal (p signo : Z) : K bool :=
  klock L_sigpending p;;
  pend ← gets k_pending;
  x ← arr_get pend p;
  b ← bit64 signo;
  kunlock L_sigpending p;;
  mret (truth (Z.land x b)).

Definition allocate_signo (p : Z) : K Z :=
  klock L_sigusing p;;
  us ← gets k_using;
  x ← arr_get us p;
  res ← (if x =? UINT64_MAX then mret (-1) else
           let idx := ffsll (unot 64 x) in
           us ← arr_set us p (if idx =? 64 then UINT64_MAX else Z.lor x (BIT idx - 1));
           modify (set_k_using us);;
           nums ← gets k_nums;
           n ← arr_get nums p;
           nums ← arr_set nums p (u32 (n + 1));
           modify (set_k_nums nums);;
           set_polls p (idx - 1) 0;;
           mret (idx - 1));
  kunlock L_sigusing p;;
  mret res.

Definition release_signo (p signo : Z) : K unit :=
  klock L_sigpending p;;
  klock L_sigusing p;;
  b ← bit64 signo;
  pend ← gets k_pending;
  x ← arr_get pend p;
  pend ← arr_set pend p (Z.land x (unot 64 b));
  modify (set_k_pending pend);;
  us ← gets k_using;
  y ← arr_get us p;
  us ← arr_set us p (Z.land y (unot 64 b));
  modify (set_k_using us);;
  nums ← gets k_nums;
  n ← arr_get nums p;
  nums ← arr_set nums p (u32 (n - 1));
  modify (set_k_nums nums);;
  kunlock L_sigusing p;;
  kunlock L_sigpending p.

Definition get_req_num (p : Z) : K Z :=
  klock L_sigusing p;;
  nums ← gets k_nums;
  n ← arr_get nums p;
  kunlock L_sigusing p;;
  mret n.

Definition is_using_signo (p signo : Z) : K bool :=
  klock L_sigusing p;;
  us ← gets k_using;
  x ← arr_get us p;
  b ← bit64 signo;
  kunlock L_sigusing p;;
  mret (truth (Z.land x b)).
