(* ===== verification/IoSignalProofs.v ===== *)
(** * Signal bitmaps: correctness of io_signal.h

    Each peripheral has 64 signals, in one of three states: free, busy (handed
    out, request not finished) and ready.  The bitmap operations are proved to
    be the transitions of that abstract table, the allocation to take the
    least free signal and to fail exactly when there is none, and the request
    counter to be the number of signals in use. *)

From Stdlib Require Import ZArith Lia Bool.
From stdpp Require Import base tactics option list numbers gmap.
From S2P Require Import Prelude Platform IoReq IoState IoSignal.

Open Scope Z_scope.

(** ** Bit scans *)

Lemma ffsll_zero : ffsll 0 = 0.
Proof. reflexivity. Qed.

Lemma head_of_filter (P : Z → Prop) `{∀ x, Decision (P x)} (lo : Z) (n : nat) :
  match filter P (seqZ lo (Z.of_nat n)) with
  | i :: _ => lo <= i < lo + Z.of_nat n ∧ P i ∧ ∀ j, lo <= j < i → ¬ P j
  | [] => ∀ j, lo <= j < lo + Z.of_nat n → ¬ P j
  end.
Proof.
  revert lo; induction n as [|n IH]; intros lo; [intros j Hj; cbn in Hj; lia|].
  rewrite seqZ_cons by lia. replace (Z.pred (Z.of_nat (S n))) with (Z.of_nat n) by lia.
  rewrite filter_cons. destruct (decide (P lo)) as [Hp|Hp].
  - split_and!; [lia|lia|done|]. intros; lia.
  - specialize (IH (Z.succ lo)). destruct (filter P _) as [|i l].
    + intros j Hj. destruct (decide (j = lo)) as [->|]; [done|]. apply IH. lia.
    + destruct IH as (?&?&Hl). split_and!; [lia|lia|done|]. intros j Hj.
      destruct (decide (j = lo)) as [->|]; [done|]. apply Hl. lia.
Qed.

Lemma ffsll_spec x : 0 <= x < 2 ^ 64 → x ≠ 0 →
  let i := ffsll x - 1 in
  0 <= i < 64 ∧ Z.testbit x i = true ∧ ∀ j, 0 <= j < i → Z.testbit x j = false.
Proof.
  intros Hx Hnz. unfold ffsll.
  pose proof (head_of_filter (λ i, Z.testbit x i = true) 0 64) as Hf.
  change (Z.of_nat 64) with 64 in Hf. destruct (filter _ _) as [|i l]; cbv zeta.
  - exfalso. apply Hnz, Z.bits_inj'. intros j Hj. rewrite Z.bits_0.
    destruct (Z.lt_ge_cases j 64); [|by apply (testbit_high x 64)].
    apply not_true_is_false, Hf. lia.
  - replace (i + 1 - 1) with i by lia. destruct Hf as (?&?&Hl). split_and!; [lia|lia|done|].
    intros j Hj. apply not_true_is_false, Hl. lia.
Qed.

Lemma unot_range w x : 0 <= w → 0 <= unot w x < 2 ^ w.
Proof.
  intros. unfold unot. rewrite Z.land_ones by done. apply Z.mod_pos_bound.
  apply Z.pow_pos_nonneg; lia.
Qed.

Lemma unot_zero x : 0 <= x < 2 ^ 64 → (unot 64 x = 0 ↔ x = UINT64_MAX).
Proof.
  intros Hx. split; [|by intros ->]. intros Hz. apply Z.bits_inj'. intros i Hi.
  unfold UINT64_MAX. rewrite <- Z.ones_equiv || change (2 ^ 64 - 1) with (Z.ones 64).
  rewrite ones_spec by lia. rewrite (proj2 (Z.leb_le 0 i)) by done. cbn.
  destruct (Z.ltb_spec i 64); [|by apply (testbit_high x 64)].
  apply (f_equal (λ z, Z.testbit z i)) in Hz. rewrite unot_spec, Z.bits_0 in Hz by lia.
  rewrite (proj2 (Z.ltb_lt _ _)) in Hz by done. by destruct (Z.testbit x i).
Qed.

(** Setting every bit up to the least free one sets only that one. *)
Lemma fill_low x i : 0 <= i < 64 → (∀ j, 0 <= j < i → Z.testbit x j = true) →
  Z.lor x (BIT (i + 1) - 1) = Z.setbit x i.
Proof.
  intros Hi Hl. apply Z.bits_inj'. intros j Hj.
  rewrite Z.lor_spec, Z.setbit_eqb by lia.
  replace (BIT (i + 1) - 1) with (Z.ones (i + 1)) by (unfold BIT; rewrite Z.ones_equiv, Z.shiftl_1_l; lia).
  rewrite ones_spec by lia. destruct (Z.lt_ge_cases j i).
  - rewrite Hl by lia. zcases; done.
  - zcases; cbn; by rewrite ?orb_true_r, ?orb_false_r.
Qed.

Lemma setbit_range x i : 0 <= x < 2 ^ 64 → 0 <= i < 64 → 0 <= Z.setbit x i < 2 ^ 64.
Proof.
  intros Hx Hi. assert (0 <= Z.setbit x i).
  { rewrite Z.setbit_spec'. apply Z.lor_nonneg. lia. }
  split; [done|]. apply bits_bound; [lia|done|]. intros j Hj.
  rewrite Z.setbit_eqb, (testbit_high x 64) by lia. zcases; done.
Qed.

Lemma set_last x : 0 <= x < 2 ^ 64 → (∀ j, 0 <= j < 63 → Z.testbit x j = true) →
  UINT64_MAX = Z.setbit x 63.
Proof.
  intros Hx Hl. apply Z.bits_inj'. intros j Hj. change UINT64_MAX with (Z.ones 64).
  rewrite ones_spec, Z.setbit_eqb by lia. destruct (Z.lt_ge_cases j 63).
  - rewrite Hl by lia. zcases; done.
  - destruct (Z.eqb_spec 63 j); [zcases; done|]. rewrite (testbit_high x 64) by lia. zcases; done.
Qed.

Lemma clear_bit x i : 0 <= x < 2 ^ 64 → 0 <= i < 64 →
  Z.land x (unot 64 (BIT i)) = Z.clearbit x i.
Proof.
  intros Hx Hi. apply Z.bits_inj'. intros j Hj.
  rewrite Z.land_spec, unot_spec, Z.clearbit_eqb, BIT_spec by lia.
  destruct (Z.ltb_spec j 64).
  - rewrite (Z.eqb_sym i j). by rewrite andb_true_r.
  - by rewrite (testbit_high x 64) by lia.
Qed.

Lemma clearbit_range x i : 0 <= x < 2 ^ 64 → 0 <= i → 0 <= Z.clearbit x i < 2 ^ 64.
Proof.
  intros Hx Hi. assert (0 <= Z.clearbit x i).
  { rewrite Z.clearbit_spec'. apply Z.ldiff_nonneg. lia. }
  split; [done|]. apply bits_bound; [lia|done|]. intros j Hj.
  by rewrite Z.clearbit_eqb, (testbit_high x 64) by lia.
Qed.

Lemma lor_bit x i : Z.lor x (BIT i) = Z.setbit x i.
Proof. unfold BIT. by rewrite Z.shiftl_1_l, Z.setbit_spec'. Qed.

Lemma land_bit x i : 0 <= i → Z.land x (BIT i) = if Z.testbit x i then BIT i else 0.
Proof.
  intros Hi. apply Z.bits_inj'. intros j Hj. rewrite Z.land_spec, BIT_spec by done.
  destruct (Z.testbit x i) eqn:E; [rewrite BIT_spec by done|rewrite Z.bits_0];
    destruct (Z.eqb_spec j i) as [->|]; by rewrite ?E, ?andb_false_r.
Qed.

Lemma test_bit x i : 0 <= i → truth (Z.land x (BIT i)) = Z.testbit x i.
Proof.
  intros Hi. rewrite land_bit by done. destruct (Z.testbit x i); [|done].
  unfold truth, BIT. rewrite Z.shiftl_1_l. apply negb_true_iff, Z.eqb_neq.
  apply Z.pow_nonzero; lia.
Qed.

(** ** Counting set bits *)

Definition popcount (x : Z) : Z :=
  Z.of_nat (length (filter (λ i, Z.testbit x i = true) (seqZ 0 64))).

Lemma filter_same (P Q : Z → Prop) `{∀ x, Decision (P x)} `{∀ x, Decision (Q x)} (l : list Z) :
  (∀ j, j ∈ l → P j ↔ Q j) → length (filter P l) = length (filter Q l).
Proof.
  induction l as [|j l IH]; intros Heq; [done|]. rewrite !filter_cons.
  assert (P j ↔ Q j) as Hj by (apply Heq; by left).
  assert (length (filter P l) = length (filter Q l)) by (apply IH; intros; apply Heq; by right).
  destruct (decide (P j)), (decide (Q j)); cbn; tauto || lia.
Qed.

Lemma filter_one (P Q : Z → Prop) `{∀ x, Decision (P x)} `{∀ x, Decision (Q x)} (l : list Z) i :
  NoDup l → i ∈ l → ¬ P i → Q i → (∀ j, j ≠ i → P j ↔ Q j) →
  length (filter Q l) = S (length (filter P l)).
Proof.
  intros Hnd. induction Hnd as [|j l Hj Hnd IH]; intros Hin Hp Hq Heq; [by apply elem_of_nil in Hin|].
  rewrite !filter_cons. apply elem_of_cons in Hin as [->|Hin].
  - rewrite decide_True, decide_False by done. cbn. f_equal. symmetry.
    apply filter_same. intros k Hk. apply Heq. by intros ->.
  - assert (P j ↔ Q j) by (apply Heq; by intros ->). specialize (IH Hin Hp Hq Heq).
    destruct (decide (P j)), (decide (Q j)); cbn; tauto || lia.
Qed.

Lemma popcount_setbit x i : 0 <= i < 64 → Z.testbit x i = false →
  popcount (Z.setbit x i) = popcount x + 1.
Proof.
  intros Hi Hx. unfold popcount. rewrite (filter_one (λ j, Z.testbit x j = true) _ _ i); [lia|..].
  - apply NoDup_seqZ.
  - apply elem_of_seqZ. lia.
  - by rewrite Hx.
  - apply Z.setbit_eq. lia.
  - intros j Hj. destruct (Z.lt_ge_cases j 0); [by rewrite !Z.testbit_neg_r|].
    rewrite Z.setbit_neq by lia. done.
Qed.

Lemma popcount_clearbit x i : 0 <= i < 64 → Z.testbit x i = true →
  popcount (Z.clearbit x i) = popcount x - 1.
Proof.
  intros Hi Hx. unfold popcount.
  rewrite (filter_one (λ j, Z.testbit (Z.clearbit x i) j = true) (λ j, Z.testbit x j = true) _ i); [lia|..].
  - apply NoDup_seqZ.
  - apply elem_of_seqZ. lia.
  - by rewrite Z.clearbit_eq.
  - done.
  - intros j Hj. rewrite Z.clearbit_neq by lia. done.
Qed.

Lemma popcount_range x : 0 <= popcount x <= 64.
Proof.
  unfold popcount. pose proof (length_filter (λ i, Z.testbit x i = true) (seqZ 0 64)) as Hl.
  rewrite length_seqZ in Hl. lia.
Qed.

(** The counter is positive exactly when some signal is in use. *)
Lemma popcount_zero x : 0 <= x < 2 ^ 64 → (popcount x = 0 ↔ x = 0).
Proof.
  intros Hx. split; [|by intros ->]. intros Hp.
  apply Z.bits_inj'. intros i Hi. rewrite Z.bits_0. apply not_true_is_false. intros Hb.
  assert (i < 64) by (destruct (Z.lt_ge_cases i 64); [done|rewrite (testbit_high x 64) in Hb by lia; done]).
  assert (i ∈ filter (λ i, Z.testbit x i = true) (seqZ 0 64)) as Hin.
  { apply list_elem_of_filter. split; [done|]. apply elem_of_seqZ. lia. }
  unfold popcount in Hp. destruct (filter _ _); [by apply elem_of_nil in Hin|cbn in Hp; lia].
Qed.

(** ** The state the operations need

    Arrays of their declared sizes and no lock held between operations. *)

Definition table_ok (k : kstate) : Prop :=
  length (k_table k) = 64%nat ∧ Forall (λ r, length r = 64%nat) (k_table k).

Definition k_shape (k : kstate) : Prop :=
  length (k_pending k) = 64%nat ∧ length (k_using k) = 64%nat ∧ length (k_polls k) = 64%nat
  ∧ length (k_nums k) = 64%nat ∧ table_ok k ∧ length (k_queues k) = 64%nat
  ∧ length (k_waiting k) = 64%nat ∧ length (k_bench k) = 200%nat ∧ 0 <= k_req_idx k < 50 ∧ 0 <= k_get_idx k < 50
  ∧ d_wf (k_d k) ∧ d_held (k_d k) = ∅.

Definition in_periph (p : Z) : Prop := 0 <= p < N_PERIPH.
Definition in_sig (s : Z) : Prop := 0 <= s < N_SUB_SIG.

(** The word of a peripheral in a bitmap or counter array. *)
Definition at_ (l : list Z) (p : Z) : Z := default 0 (l !! Z.to_nat p).
Definition entry_at (k : kstate) (p s : Z) : io_sigentry_t :=
  default (SigEntry 0 Null 0 0) (default [] (k_table k !! Z.to_nat p) !! Z.to_nat s).
Definition set_entry (p s : Z) (e : io_sigentry_t) (k : kstate) : kstate :=
  set_k_table (alter (insert (Z.to_nat s) e) (Z.to_nat p) (k_table k)) k.

Lemma at_lookup l p : in_periph p → length l = 64%nat → l !! Z.to_nat p = Some (at_ l p).
Proof.
  intros Hp Hl. unfold at_, in_periph, N_PERIPH in *. destruct (l !! Z.to_nat p) eqn:E; [done|].
  apply lookup_ge_None in E. lia.
Qed.

Lemma at_insert l p q x : in_periph p → in_periph q → length l = 64%nat →
  at_ (<[Z.to_nat p := x]> l) q = if decide (p = q) then x else at_ l q.
Proof.
  intros Hp Hq Hl. unfold at_, in_periph, N_PERIPH in *. destruct (decide (p = q)) as [->|].
  - rewrite list_lookup_insert_eq by lia. done.
  - rewrite list_lookup_insert_ne by lia. done.
Qed.

Lemma row_at k p : in_periph p → table_ok k →
  ∃ row, k_table k !! Z.to_nat p = Some row ∧ length row = 64%nat.
Proof.
  intros Hp (Hl&Hr). unfold in_periph, N_PERIPH in *.
  destruct (k_table k !! Z.to_nat p) as [row|] eqn:E.
  - exists row. split; [done|]. rewrite Forall_lookup in Hr. by eapply Hr.
  - apply lookup_ge_None in E. lia.
Qed.

Lemma entry_lookup k p s row : in_sig s → k_table k !! Z.to_nat p = Some row → length row = 64%nat →
  row !! Z.to_nat s = Some (entry_at k p s).
Proof.
  intros Hs Hr Hl. unfold entry_at. rewrite Hr. cbn. unfold in_sig, N_SUB_SIG in Hs.
  destruct (row !! Z.to_nat s) eqn:E; [done|]. apply lookup_ge_None in E. lia.
Qed.

Section entries.
Context (k : kstate) (p s : Z) (Hk : table_ok k) (Hp : in_periph p) (Hs : in_sig s).

Lemma get_entry_spec t : wp t (get_entry p s) (λ e k', e = entry_at k p s ∧ k' = k) k.
Proof using Hk Hp Hs.
  destruct (row_at k p Hp Hk) as (row&Hr&Hl). unfold get_entry. wp_steps.
  unfold in_periph, in_sig in *.
  eapply wp_arr_get; [lia|exact Hr|]. eapply wp_arr_get; [lia|by apply entry_lookup|]. done.
Qed.

Lemma put_entry_spec t e : wp t (put_entry p s e) (λ _ k', k' = set_entry p s e k) k.
Proof using Hk Hp Hs.
  destruct (row_at k p Hp Hk) as (row&Hr&Hl). unfold put_entry. wp_steps.
  destruct Hk as (Ht&_). unfold in_periph, in_sig, N_PERIPH, N_SUB_SIG in *.
  eapply wp_arr_get; [lia|exact Hr|]. wp_steps. apply wp_arr_set; [lia|]. wp_steps.
  apply wp_arr_set; [lia|]. wp_steps. unfold set_entry. f_equal.
  apply list_eq. intros i. destruct (decide (Z.to_nat p = i)) as [<-|].
  - rewrite list_lookup_insert_eq by lia. by rewrite list_lookup_alter_eq, Hr.
  - by rewrite list_lookup_insert_ne, list_lookup_alter_ne.
Qed.

Lemma set_entry_table e : table_ok (set_entry p s e k).
Proof using Hk.
  destruct Hk as (Ht&Hr). split; cbn; [by rewrite length_alter|].
  rewrite Forall_lookup in Hr |- *. intros i row. destruct (decide (Z.to_nat p = i)) as [<-|].
  - rewrite list_lookup_alter_eq. intros (r&Hi&->)%fmap_Some. rewrite length_insert. by eapply Hr.
  - rewrite list_lookup_alter_ne by done. apply Hr.
Qed.

Lemma set_polls_spec t n : wp t (set_polls p s n) (λ _ k', k' =
  set_entry p s (SigEntry (se_ret (entry_at k p s)) (se_buf (entry_at k p s))
                   (se_len (entry_at k p s)) (u32 n)) k) k.
Proof using Hk Hp Hs.
  unfold set_polls. wp_steps. eapply wp_mono; [apply get_entry_spec|]. intros ? ? [-> ->].
  apply put_entry_spec.
Qed.

Lemma entry_set_same e : entry_at (set_entry p s e k) p s = e.
Proof using Hk Hp Hs.
  destruct (row_at k p Hp Hk) as (row&Hr&Hl). unfold entry_at, set_entry; cbn.
  rewrite list_lookup_alter_eq, Hr; cbn. unfold in_sig, N_SUB_SIG in *.
  by rewrite list_lookup_insert_eq by lia.
Qed.

Lemma entry_set_other e p' s' : in_periph p' → in_sig s' → (p', s') ≠ (p, s) →
  entry_at (set_entry p s e k) p' s' = entry_at k p' s'.
Proof using Hp Hs.
  intros Hp' Hs' Hne. unfold entry_at, set_entry; cbn. unfold in_periph, in_sig in *.
  destruct (decide (p = p')) as [->|].
  - rewrite list_lookup_alter_eq. destruct (k_table k !! Z.to_nat p'); [cbn|done].
    rewrite list_lookup_insert_ne; [done|]. intros ?. destruct Hne. f_equal. lia.
  - rewrite list_lookup_alter_ne; [done|]. lia.
Qed.
End entries.

(** ** Locks *)

Definition locked (l : lock_id) (d : dstate) : dstate :=
  d_log (E_lock l) (d_set_held ({[l]} ∪ d_held d) d).
Definition unlocked (l : lock_id) (d : dstate) : dstate :=
  d_log (E_unlock l) (d_set_held (d_held d ∖ {[l]}) d).

Lemma locked_frame l d : d_frame d (locked l d).
Proof. split_and!; try done. by exists [E_lock l]. Qed.
Lemma unlocked_frame l d : d_frame d (unlocked l d).
Proof. split_and!; try done. by exists [E_unlock l]. Qed.

Lemma kept_section l d : l ∉ d_held d → kept d (unlocked l (locked l d)).
Proof.
  intros Hl. split; [by etrans; [apply locked_frame|apply unlocked_frame]|]. cbn.
  apply leibniz_equiv. set_solver.
Qed.

Lemma kept_sections l1 l2 d : l1 ≠ l2 → l1 ∉ d_held d → l2 ∉ d_held d →
  kept d (unlocked l1 (unlocked l2 (locked l2 (locked l1 d)))).
Proof.
  intros Hne H1 H2. split.
  - etrans; [apply locked_frame|]. etrans; [apply locked_frame|].
    etrans; [apply unlocked_frame|]. apply unlocked_frame.
  - cbn. apply leibniz_equiv. set_solver.
Qed.

Lemma klock_spec t l p k : in_periph p → l p ∉ d_held (k_d k) →
  wp t (klock l p) (λ _ k', k' = set_k_d (locked (l p) (k_d k)) k) k.
Proof.
  intros Hp Hl. unfold klock, in_periph in *.
  rewrite (proj2 (Z.leb_le _ _)), (proj2 (Z.ltb_lt _ _)) by lia. apply wp_zoom.
  eapply wp_mono; [by apply mutex_lock_spec|]. by intros ? ? ->.
Qed.

Lemma kunlock_spec t l p k : in_periph p → l p ∈ d_held (k_d k) →
  wp t (kunlock l p) (λ _ k', k' = set_k_d (unlocked (l p) (k_d k)) k) k.
Proof.
  intros Hp Hl. unfold kunlock, in_periph in *.
  rewrite (proj2 (Z.leb_le _ _)), (proj2 (Z.ltb_lt _ _)) by lia. apply wp_zoom.
  eapply wp_mono; [by apply mutex_unlock_spec|]. by intros ? ? ->.
Qed.

Lemma k_shape_set_d k d : k_shape k → kept (k_d k) d → k_shape (set_k_d d k).
Proof.
  intros (?&?&?&?&?&?&?&?&?&?&Hw&Hh) Hd. split_and!; cbn; try (done || lia).
  - by eapply kept_wf.
  - destruct Hd as [_ ->]. done.
Qed.

(** A result of [f k] up to the history of lock operations. *)
Definition upto (k k' : kstate) : Prop := ∃ d, kept (k_d k) d ∧ k' = set_k_d d k.

Lemma upto_trans_d k d k' : kept (k_d k) d → upto (set_k_d d k) k' → upto k k'.
Proof. intros Hd (d'&Hd'&->). exists d'. split; [by etrans|done]. Qed.

Lemma upto_shape k k' : k_shape k → upto k k' → k_shape k'.
Proof. intros Hk (d&Hd&->). by apply k_shape_set_d. Qed.

Lemma bit64_spec t s k : in_sig s → wp t (bit64 s) (λ x k', x = BIT s ∧ k' = k) k.
Proof.
  intros Hs. unfold bit64, in_sig, N_SUB_SIG in *. by rewrite (proj2 (Z.ltb_lt _ _)) by lia.
Qed.

(** Runs [klock], [kunlock] and array accesses of a function on the bitmaps. *)
Ltac k_lock := eapply wp_mono; [apply klock_spec; [done|cbn; set_solver]|intros ? ? ->].
Ltac k_unlock := eapply wp_mono; [apply kunlock_spec; [done|cbn; set_solver]|intros ? ? ->].
Ltac k_arr :=
  match goal with
  | |- wp _ (arr_get _ _) _ _ =>
      eapply wp_arr_get; [unfold in_periph in *; lia|cbn; apply at_lookup; [done|cbn; done]|]
  | |- wp _ (arr_set _ _ _) _ _ =>
      apply wp_arr_set; [unfold in_periph, N_PERIPH in *; cbn; rewrite ?length_insert; lia|]
  end.
Ltac k_bit := eapply wp_mono; [by apply bit64_spec|intros ? ? [-> ->]].
Ltac k_run := repeat first [wp_step | k_arr | k_lock | k_unlock | k_bit].

Ltac k_done := eexists; split; [|reflexivity]; cbn; (apply kept_section || apply kept_sections);
  (done || set_solver).

Section operations.
Context (k : kstate) (p : Z) (Hk : k_shape k) (Hp : in_periph p).

Let pend := at_ (k_pending k) p.
Let us := at_ (k_using k) p.

Lemma is_ready_signal_spec t s : in_sig s →
  wp t (is_ready_signal p s) (λ r k', r = Z.testbit pend s ∧ upto k k') k.
Proof using Hk Hp.
  intros Hs. destruct Hk as (Hl&_&_&_&_&_&_&_&_&_&_&Hh). unfold is_ready_signal. k_run.
  rewrite test_bit by (destruct Hs; lia). split; [done|]. k_done.
Qed.

Lemma is_using_signo_spec t s : in_sig s →
  wp t (is_using_signo p s) (λ r k', r = Z.testbit us s ∧ upto k k') k.
Proof using Hk Hp.
  intros Hs. destruct Hk as (_&Hl&_&_&_&_&_&_&_&_&_&Hh). unfold is_using_signo. k_run.
  rewrite test_bit by (destruct Hs; lia). split; [done|]. k_done.
Qed.

Lemma get_req_num_spec t :
  wp t (get_req_num p) (λ r k', r = at_ (k_nums k) p ∧ upto k k') k.
Proof using Hk Hp.
  destruct Hk as (_&_&_&Hl&_&_&_&_&_&_&_&Hh). unfold get_req_num. k_run.
  split; [done|]. k_done.
Qed.

Lemma set_ready_signal_spec t s : in_sig s →
  wp t (set_ready_signal p s)
    (λ _ k', upto (set_k_pending (<[Z.to_nat p := Z.setbit pend s]> (k_pending k)) k) k') k.
Proof using Hk Hp.
  intros Hs. destruct Hk as (Hl&_&_&_&_&_&_&_&_&_&_&Hh). unfold set_ready_signal. k_run.
  rewrite lor_bit. k_done.
Qed.

Definition released (s : Z) : kstate :=
  set_k_nums (<[Z.to_nat p := u32 (at_ (k_nums k) p - 1)]> (k_nums k))
    (set_k_using (<[Z.to_nat p := Z.clearbit us s]> (k_using k))
       (set_k_pending (<[Z.to_nat p := Z.clearbit pend s]> (k_pending k)) k)).

Lemma release_signo_spec t s : in_sig s → 0 <= pend < 2 ^ 64 → 0 <= us < 2 ^ 64 →
  wp t (release_signo p s) (λ _ k', upto (released s) k') k.
Proof using Hk Hp.
  intros Hs Hpr Hur. destruct Hk as (Hl&Hl2&_&Hl3&_&_&_&_&_&_&_&Hh). unfold release_signo. k_run.
  cbn. rewrite !clear_bit by done. k_done.
Qed.

(** The state after handing out signal [s]. *)
Definition allocated (s : Z) : kstate :=
  let e := entry_at k p s in
  set_entry p s (SigEntry (se_ret e) (se_buf e) (se_len e) 0)
    (set_k_nums (<[Z.to_nat p := u32 (at_ (k_nums k) p + 1)]> (k_nums k))
       (set_k_using (<[Z.to_nat p := Z.setbit us s]> (k_using k)) k)).

Lemma allocate_signo_spec t : 0 <= us < 2 ^ 64 →
  wp t (allocate_signo p) (λ r k',
    (r = -1 ∧ us = UINT64_MAX ∧ upto k k')
    ∨ (in_sig r ∧ Z.testbit us r = false ∧ (∀ j, 0 <= j < r → Z.testbit us j = true)
       ∧ upto (allocated r) k')) k.
Proof using Hk Hp.
  intros Hur. destruct Hk as (_&Hl&_&Hl3&Ht&_&_&_&_&_&_&Hh). unfold allocate_signo. k_run.
  fold us. destruct (Z.eqb_spec us UINT64_MAX) as [Heq|Hne].
  { k_run. left. split_and!; [done|done|]. k_done. }
  assert (unot 64 us ≠ 0) as Hnz by (by rewrite unot_zero).
  destruct (ffsll_spec (unot 64 us)) as (Hi&Hb&Hlo); [by apply unot_range|done|].
  set (idx := ffsll (unot 64 us)) in *. rewrite unot_spec in Hb by lia.
  apply andb_prop in Hb as [Hb%negb_true_iff _].
  assert (∀ j, 0 <= j < idx - 1 → Z.testbit us j = true) as Hlow.
  { intros j Hj. specialize (Hlo j Hj). rewrite unot_spec in Hlo by lia.
    rewrite (proj2 (Z.ltb_lt _ _)), andb_true_r in Hlo by lia. by apply negb_false_iff. }
  assert ((if idx =? 64 then UINT64_MAX else Z.lor us (BIT idx - 1)) = Z.setbit us (idx - 1)) as ->.
  { destruct (Z.eqb_spec idx 64) as [->|]; [by apply set_last|].
    replace idx with (idx - 1 + 1) at 1 by lia. by apply fill_low. }
  k_run. eapply wp_mono; [apply set_polls_spec; [done|done|exact Hi]|]. intros ? ? ->.
  k_run. right. split_and!; [exact Hi|done|done|]. k_done.
Qed.

(** The state after a poll found signal [s] ready, and after one found none. *)
Definition polled (s : Z) : kstate :=
  let e := entry_at k p s in
  set_k_polls (<[Z.to_nat p := 0]> (<[Z.to_nat p := u32 (at_ (k_polls k) p + 1)]> (k_polls k)))
    (set_entry p s (SigEntry (se_ret e) (se_buf e) (se_len e) (u32 (u32 (at_ (k_polls k) p + 1)))) k).
Definition polled_none : kstate :=
  set_k_polls (<[Z.to_nat p := u32 (at_ (k_polls k) p + 1)]> (k_polls k)) k.

Lemma get_ready_signal_spec t : 0 <= pend < 2 ^ 64 →
  wp t (get_ready_signal p) (λ r k',
    (r = -1 ∧ pend = 0 ∧ upto polled_none k')
    ∨ (in_sig r ∧ Z.testbit pend r = true ∧ (∀ j, 0 <= j < r → Z.testbit pend j = false)
       ∧ upto (polled r) k')) k.
Proof using Hk Hp.
  intros Hpr. destruct Hk as (Hl&_&Hl2&_&Ht&_&_&_&_&_&_&Hh). unfold get_ready_signal. k_run.
  fold pend. unfold truth. destruct (Z.eqb_spec pend 0) as [Heq|Hne]; cbn [negb]; k_run.
  { left. split_and!; [done|done|]. k_done. }
  destruct (ffsll_spec pend) as (Hi&Hb&Hlo); [done|done|].
  eapply (wp_arr_get _ _ _ (u32 (at_ (k_polls k) p + 1))).
  { destruct Hp; lia. }
  { cbn. apply list_lookup_insert_eq. unfold in_periph, N_PERIPH in *. lia. }
  k_run. eapply wp_mono; [apply set_polls_spec; [done|done|exact Hi]|]. intros ? ? ->.
  k_run. right. split_and!; [exact Hi|done|done|]. k_done.
Qed.
End operations.

(** ** The abstract signal table *)

Inductive sig_state := SigFree | SigBusy | SigReady.
#[export] Instance sig_state_eq_dec : EqDecision sig_state.
Proof. solve_decision. Defined.

Definition sig_of (k : kstate) (p s : Z) : sig_state :=
  if Z.testbit (at_ (k_using k) p) s
  then if Z.testbit (at_ (k_pending k) p) s then SigReady else SigBusy
  else SigFree.

(** Only signals in use are ready, and the counter counts those in use. *)
Definition word_ok (pend us n : Z) : Prop :=
  0 <= pend < 2 ^ 64 ∧ 0 <= us < 2 ^ 64 ∧ n = popcount us
  ∧ ∀ s, Z.testbit pend s = true → Z.testbit us s = true.
Definition sig_inv (k : kstate) : Prop :=
  ∀ p, in_periph p → word_ok (at_ (k_pending k) p) (at_ (k_using k) p) (at_ (k_nums k) p).

(** The table with the state of one signal replaced. *)
Definition sig_upd (f : Z → Z → sig_state) (p s : Z) (v : sig_state) : Z → Z → sig_state :=
  λ q j, if decide (q = p ∧ j = s) then v else f q j.

Definition sig_same (f g : Z → Z → sig_state) : Prop :=
  ∀ q j, in_periph q → in_sig j → f q j = g q j.

#[export] Instance sig_same_equiv : Equivalence sig_same.
Proof.
  split; [by intros f q j|intros f g H q j ??; symmetry; by apply H|].
  intros f g h H1 H2 q j ??. by rewrite H1, H2.
Qed.
#[export] Instance sig_upd_proper : Proper (sig_same ==> eq ==> eq ==> eq ==> sig_same) sig_upd.
Proof. intros f g H p ? <- s ? <- v ? <- q j ??. unfold sig_upd. case_decide; [done|by apply H]. Qed.

Lemma k_init_sig : sig_inv k_init.
Proof.
  intros p Hp. unfold at_, in_periph, N_PERIPH in *. cbn [k_init k_pending k_using k_nums].
  rewrite lookup_replicate_2 by lia. split_and!; try done.
Qed.

Lemma k_init_shape : k_shape k_init.
Proof.
  unfold k_shape, table_ok. split_and!; try done. cbn [k_init k_table].
  apply Forall_replicate. by rewrite length_replicate.
Qed.

Lemma upto_sig k k' : upto k k' → (sig_inv k → sig_inv k') ∧ sig_same (sig_of k') (sig_of k).
Proof. by intros (d&_&->). Qed.

(** A step that rewrites the three words of one peripheral. *)
Lemma sig_inv_word k k' p pend us n :
  in_periph p → k_shape k →
  k_pending k' = <[Z.to_nat p := pend]> (k_pending k) →
  k_using k' = <[Z.to_nat p := us]> (k_using k) →
  k_nums k' = <[Z.to_nat p := n]> (k_nums k) →
  word_ok pend us n → sig_inv k → sig_inv k'.
Proof.
  intros Hp (Hl1&Hl2&_&Hl3&_) E1 E2 E3 Hw Hi q Hq. rewrite E1, E2, E3.
  rewrite !at_insert by done. case_decide; [done|by apply Hi].
Qed.

Lemma sig_of_word k k' p s pend us v :
  in_periph p → k_shape k →
  k_pending k' = <[Z.to_nat p := pend]> (k_pending k) →
  k_using k' = <[Z.to_nat p := us]> (k_using k) →
  (∀ j, in_sig j → j ≠ s → Z.testbit pend j = Z.testbit (at_ (k_pending k) p) j
                          ∧ Z.testbit us j = Z.testbit (at_ (k_using k) p) j) →
  v = (if Z.testbit us s then if Z.testbit pend s then SigReady else SigBusy else SigFree) →
  sig_same (sig_of k') (sig_upd (sig_of k) p s v).
Proof.
  intros Hp (Hl1&Hl2&_) E1 E2 Hother -> q j Hq Hj. unfold sig_of, sig_upd. rewrite E1, E2.
  rewrite !at_insert by done. destruct (decide (q = p ∧ j = s)) as [[-> ->]|Hne].
  - rewrite !(decide_True (P:=p = p)) by done. done.
  - destruct (decide (p = q)) as [<-|]; [|done].
    destruct (Hother j) as [-> ->]; [done|naive_solver|done].
Qed.

Lemma at_self l p : in_periph p → length l = 64%nat → l = <[Z.to_nat p := at_ l p]> l.
Proof. intros. symmetry. apply list_insert_id. by apply at_lookup. Qed.

Section transitions.
Context (k : kstate) (p s : Z) (Hk : k_shape k) (Hi : sig_inv k).
Context (Hp : in_periph p) (Hs : in_sig s).

Lemma allocated_sig : sig_of k p s = SigFree →
  sig_inv (allocated k p s) ∧ sig_same (sig_of (allocated k p s)) (sig_upd (sig_of k) p s SigBusy).
Proof using Hk Hi Hp Hs.
  intros Hf. destruct (Hi p Hp) as (?&?&Hn&Hsub). unfold sig_of in Hf.
  pose proof Hk as (Hl&_).
  destruct (Z.testbit (at_ (k_using k) p) s) eqn:Eu; [by destruct (Z.testbit _ _) in Hf|].
  assert (Z.testbit (at_ (k_pending k) p) s = false) as Ep.
  { apply not_true_is_false. intros Hx%Hsub. congruence. }
  unfold in_sig, N_SUB_SIG in Hs. split.
  - eapply (sig_inv_word _ _ p); [done|done|by apply at_self|reflexivity|reflexivity| |done].
    pose proof (popcount_range (at_ (k_using k) p)).
    split_and!; [lia|lia|by apply setbit_range|by apply setbit_range| |].
    + rewrite popcount_setbit, Hn by done. apply u32_id. lia.
    + intros j Hj. apply Hsub in Hj. rewrite Z.setbit_eqb by lia. by rewrite Hj, orb_true_r.
  - eapply (sig_of_word _ _ p); [done|done|by apply at_self|reflexivity| |].
    + intros j Hj Hne. rewrite Z.setbit_neq; [done|lia|lia].
    + by rewrite Z.setbit_eq, Ep by lia.
Qed.

Lemma ready_sig : sig_of k p s = SigBusy →
  let k' := set_k_pending (<[Z.to_nat p := Z.setbit (at_ (k_pending k) p) s]> (k_pending k)) k in
  sig_inv k' ∧ sig_same (sig_of k') (sig_upd (sig_of k) p s SigReady).
Proof using Hk Hi Hp Hs.
  intros Hf. destruct (Hi p Hp) as (?&?&Hn&Hsub). unfold sig_of in Hf.
  pose proof Hk as (_&Hl&_&Hl2&_).
  destruct (Z.testbit (at_ (k_using k) p) s) eqn:Eu; [|done].
  unfold in_sig, N_SUB_SIG in Hs. cbv zeta. split.
  - eapply (sig_inv_word _ _ p); [done|done|reflexivity|by apply at_self|by apply at_self| |done].
    split_and!; [by apply setbit_range|by apply setbit_range|lia|lia|done|].
    intros j. rewrite Z.setbit_eqb by lia. destruct (Z.eqb_spec s j) as [<-|]; [done|apply Hsub].
  - eapply (sig_of_word _ _ p); [done|done|reflexivity|by apply at_self| |].
    + intros j Hj Hne. rewrite Z.setbit_neq; [done|lia|lia].
    + by rewrite Eu, Z.setbit_eq by lia.
Qed.

Lemma released_sig : sig_of k p s ≠ SigFree →
  sig_inv (released k p s) ∧ sig_same (sig_of (released k p s)) (sig_upd (sig_of k) p s SigFree).
Proof using Hk Hi Hp Hs.
  intros Hf. destruct (Hi p Hp) as (?&?&Hn&Hsub). unfold sig_of in Hf.
  destruct (Z.testbit (at_ (k_using k) p) s) eqn:Eu; [|done].
  unfold in_sig, N_SUB_SIG in Hs. split.
  - eapply (sig_inv_word _ _ p); [done|done|reflexivity|reflexivity|reflexivity| |done].
    pose proof (popcount_range (Z.clearbit (at_ (k_using k) p) s)) as Hc.
    rewrite popcount_clearbit in Hc by done.
    split_and!; try (apply clearbit_range; lia).
    + rewrite popcount_clearbit, Hn by done. apply u32_id. lia.
    + intros j. rewrite !Z.clearbit_eqb. intros [Hj ->]%andb_prop. by rewrite Hsub.
  - eapply (sig_of_word _ _ p); [done|done|reflexivity|reflexivity| |].
    + intros j Hj Hne. rewrite !Z.clearbit_neq; [done|lia|lia].
    + by rewrite Z.clearbit_eq.
Qed.
End transitions.

(** ** The operations as transitions of the abstract table *)

Lemma upto_refl k k' : upto k k' → k_shape k → sig_inv k →
  k_shape k' ∧ sig_inv k' ∧ sig_same (sig_of k') (sig_of k).
Proof. intros Hu Hk Hi. split; [by eapply upto_shape|]. destruct (upto_sig k k' Hu). auto. Qed.

Lemma shape_set_entry p s e k : k_shape k → k_shape (set_entry p s e k).
Proof.
  intros Hk. pose proof (set_entry_table k p s) as Ht.
  destruct Hk as (?&?&?&?&?&?&?&?&?&?&?&?). split_and!; try (done || (cbn; lia)). by apply Ht.
Qed.

Ltac shape := intros (?&?&?&?&?&?&?&?&?&?&?&?); split_and!; cbn; rewrite ?length_insert; (done || lia).

Lemma allocated_shape k p s : k_shape k → k_shape (allocated k p s).
Proof. intros Hk. apply shape_set_entry. revert Hk. shape. Qed.
Lemma released_shape k p s : k_shape k → k_shape (released k p s).
Proof. shape. Qed.
Lemma polled_shape k p s : k_shape k → k_shape (polled k p s).
Proof.
  intros Hk. pose proof (shape_set_entry p s (SigEntry (se_ret (entry_at k p s))
    (se_buf (entry_at k p s)) (se_len (entry_at k p s)) (u32 (u32 (at_ (k_polls k) p + 1)))) k Hk) as H.
  revert H. unfold polled. generalize (set_entry p s). intros f. unfold k_shape. cbn.
  rewrite !length_insert. intros. destruct Hk as (?&?&?&_). naive_solver.
Qed.
Lemma polled_none_shape k p : k_shape k → k_shape (polled_none k p).
Proof. shape. Qed.
Lemma pending_shape k p x : k_shape k → k_shape (set_k_pending (<[p := x]> (k_pending k)) k).
Proof. shape. Qed.

Section steps.
Context (k : kstate) (p : Z) (Hk : k_shape k) (Hi : sig_inv k) (Hp : in_periph p).

Lemma sig_free_bit s : sig_of k p s = SigFree ↔ Z.testbit (at_ (k_using k) p) s = false.
Proof using. unfold sig_of. by destruct (Z.testbit (at_ (k_using k) p) s), (Z.testbit (at_ (k_pending k) p) s). Qed.

Lemma sig_ready_bit s : sig_of k p s = SigReady ↔ Z.testbit (at_ (k_pending k) p) s = true.
Proof using Hi Hp.
  destruct (Hi p Hp) as (_&_&_&Hsub). specialize (Hsub s). unfold sig_of.
  destruct (Z.testbit (at_ (k_using k) p) s), (Z.testbit (at_ (k_pending k) p) s); naive_solver.
Qed.

Lemma allocate_step t : wp t (allocate_signo p) (λ r k',
  (r = -1 ∧ (∀ s, in_sig s → sig_of k p s ≠ SigFree) ∧ upto k k')
  ∨ (in_sig r ∧ sig_of k p r = SigFree ∧ (∀ j, 0 <= j < r → sig_of k p j ≠ SigFree)
     ∧ upto (allocated k p r) k')) k.
Proof using Hk Hi Hp.
  destruct (Hi p Hp) as (_&Hu&_). eapply wp_mono; [by apply allocate_signo_spec|].
  intros r k' [(->&Hm&?)|(?&?&Hlow&?)]; [left|right]; split_and!; try done.
  - intros s [??] Hf%sig_free_bit. rewrite Hm in Hf. change UINT64_MAX with (Z.ones 64) in Hf.
    unfold N_SUB_SIG in *. rewrite ones_spec in Hf by lia.
    rewrite (proj2 (Z.leb_le _ _)), (proj2 (Z.ltb_lt _ _)) in Hf by lia. done.
  - by apply sig_free_bit.
  - intros j Hj Hf%sig_free_bit. by rewrite Hlow in Hf.
Qed.

Lemma get_ready_step t : wp t (get_ready_signal p) (λ r k',
  (r = -1 ∧ (∀ s, in_sig s → sig_of k p s ≠ SigReady) ∧ upto (polled_none k p) k')
  ∨ (in_sig r ∧ sig_of k p r = SigReady ∧ (∀ j, 0 <= j < r → sig_of k p j ≠ SigReady)
     ∧ upto (polled k p r) k')) k.
Proof using Hk Hi Hp.
  destruct (Hi p Hp) as (Hu&_). eapply wp_mono; [by apply get_ready_signal_spec|].
  intros r k' [(->&Hm&?)|(?&?&Hlow&?)]; [left|right]; split_and!; try done.
  - intros s _ Hf%sig_ready_bit. by rewrite Hm, Z.bits_0 in Hf.
  - by apply sig_ready_bit.
  - intros j Hj Hf%sig_ready_bit. by rewrite Hlow in Hf.
Qed.

Lemma is_ready_step t s : in_sig s → wp t (is_ready_signal p s)
  (λ r k', r = bool_decide (sig_of k p s = SigReady) ∧ upto k k') k.
Proof using Hk Hi Hp.
  intros Hs. eapply wp_mono; [by apply is_ready_signal_spec|]. intros ? ? [-> ?]. split; [|done].
  apply eq_true_iff_eq. by rewrite bool_decide_eq_true, sig_ready_bit.
Qed.

Lemma is_using_step t s : in_sig s → wp t (is_using_signo p s)
  (λ r k', r = bool_decide (sig_of k p s ≠ SigFree) ∧ upto k k') k.
Proof using Hk Hi Hp.
  intros Hs. eapply wp_mono; [by apply is_using_signo_spec|]. intros ? ? [-> ?]. split; [|done].
  apply eq_true_iff_eq. rewrite bool_decide_eq_true, sig_free_bit. by rewrite not_false_iff_true.
Qed.

Lemma release_step t s : in_sig s → wp t (release_signo p s) (λ _ k', upto (released k p s) k') k.
Proof using Hk Hi Hp. intros. destruct (Hi p Hp) as (?&?&_). by apply release_signo_spec. Qed.
End steps.

Lemma polled_sig k p s : sig_inv k → sig_inv (polled k p s) ∧ sig_same (sig_of (polled k p s)) (sig_of k).
Proof. by intros. Qed.
Lemma polled_none_sig k p :
  sig_inv k → sig_inv (polled_none k p) ∧ sig_same (sig_of (polled_none k p)) (sig_of k).
Proof. by intros. Qed.
