(* ===== verification/IoSpec.v ===== *)
(** * Specification of the I/O helper: asynchronous requests

    The abstract machine clients rely on.  A signal goes round a cycle: free,
    held by a submission, waiting with its request, done with a result, ready
    to be collected, free.  Each peripheral has a FIFO of requests and a
    service loop with a program counter.  [a_inv] relates the three views and
    is preserved by every step. *)

From Stdlib Require Import ZArith Lia Bool.
From stdpp Require Import base tactics option list numbers gmap relations.
From S2P Require Import Prelude Platform IoReq IoState IoSignal IoSignalProofs.

Open Scope Z_scope.

(** What a request comes to: the [int] its entry records and its data. *)
Record result := Res { r_ret : Z; r_data : buf }.

Inductive phase :=
  | PFree
  | PHeld                     (* handed out, request not queued *)
  | PWait (req : io_req_t)    (* queued or being handled *)
  | PDone (res : result)      (* handled, not yet announced *)
  | PReady (res : result).    (* announced, to be collected *)

(** Where the service loop of a peripheral is ([start_loop]). *)
Inductive loop_pc :=
  | LOff                      (* not started *)
  | LCheck                    (* before the test of the queue *)
  | LBlocked                  (* in [condvar_wait] *)
  | LRun (req : io_req_t)     (* has dequeued [req] *)
  | LDone (req : io_req_t).   (* has handled [req] *)

Record astate := AState {
  a_phase : Z → Z → phase;
  a_queue : Z → list io_req_t;
  a_pc : Z → loop_pc
}.

Definition upd1 {A} (f : Z → A) (p : Z) (v : A) : Z → A := λ q, if decide (q = p) then v else f q.
Definition upd2 {A} (f : Z → Z → A) (p s : Z) (v : A) : Z → Z → A :=
  λ q j, if decide (q = p ∧ j = s) then v else f q j.

Lemma upd1_eq {A} (f : Z → A) p v : upd1 f p v p = v.
Proof. unfold upd1. by rewrite decide_True. Qed.
Lemma upd1_ne {A} (f : Z → A) p q v : q ≠ p → upd1 f p v q = f q.
Proof. intros. unfold upd1. by rewrite decide_False. Qed.
Lemma upd2_eq {A} (f : Z → Z → A) p s v : upd2 f p s v p s = v.
Proof. unfold upd2. by rewrite decide_True. Qed.
Lemma upd2_ne {A} (f : Z → Z → A) p s q j v : (q, j) ≠ (p, s) → upd2 f p s v q j = f q j.
Proof. intros. unfold upd2. rewrite decide_False; [done|]. intros [-> ->]. done. Qed.

Definition set_phase (p s : Z) (v : phase) (a : astate) : astate :=
  AState (upd2 (a_phase a) p s v) (a_queue a) (a_pc a).
Definition set_queue (p : Z) (l : list io_req_t) (a : astate) : astate :=
  AState (a_phase a) (upd1 (a_queue a) p l) (a_pc a).
Definition set_pc (p : Z) (c : loop_pc) (a : astate) : astate :=
  AState (a_phase a) (a_queue a) (upd1 (a_pc a) p c).

Definition a_init : astate := AState (λ _ _, PFree) (λ _, []) (λ _, LOff).

(** What a step shows: a request enters a queue, leaves it, gets its result,
    and the result is collected. *)
Inductive label :=
  | TSubmit (p : Z) (r : io_req_t)
  | TTake (p : Z) (r : io_req_t)
  | TFinish (p : Z) (r : io_req_t) (res : result)
  | TCollect (p s : Z) (res : result)
  | TInternal.

Inductive a_lstep (a : astate) : label → astate → Prop :=
  | A_alloc p s : in_periph p → in_sig s → a_phase a p s = PFree →
      a_lstep a TInternal (set_phase p s PHeld a)
  | A_enqueue p r : in_periph p → in_sig (rq_signo r) → a_phase a p (rq_signo r) = PHeld →
      a_lstep a (TSubmit p r)
        (set_queue p (a_queue a p ++ [r]) (set_phase p (rq_signo r) (PWait r) a))
  | A_start p : in_periph p → a_pc a p = LOff → a_lstep a TInternal (set_pc p LCheck a)
  | A_take p r l : in_periph p → a_pc a p = LCheck → a_queue a p = r :: l →
      a_lstep a (TTake p r) (set_pc p (LRun r) (set_queue p l a))
  | A_block p : in_periph p → a_pc a p = LCheck → a_queue a p = [] →
      a_lstep a TInternal (set_pc p LBlocked a)
  | A_wake p : in_periph p → a_pc a p = LBlocked → a_lstep a TInternal (set_pc p LCheck a)
  | A_done p r res : in_periph p → a_pc a p = LRun r →
      a_lstep a (TFinish p r res) (set_pc p (LDone r) (set_phase p (rq_signo r) (PDone res) a))
  | A_announce p r res : in_periph p → a_pc a p = LDone r → a_phase a p (rq_signo r) = PDone res →
      a_lstep a TInternal (set_pc p LCheck (set_phase p (rq_signo r) (PReady res) a))
  | A_collect p s res : in_periph p → in_sig s → a_phase a p s = PReady res →
      a_lstep a (TCollect p s res) (set_phase p s PFree a).

Definition a_step (a a' : astate) : Prop := ∃ l, a_lstep a l a'.

(** ** The invariant *)

(** Requests taken over but not finished, in the order they will be. *)
Definition running (c : loop_pc) : list io_req_t := match c with LRun r => [r] | _ => [] end.
Definition pending (a : astate) (p : Z) : list io_req_t := running (a_pc a p) ++ a_queue a p.

Record a_inv_at (a : astate) (p : Z) : Prop := {
  ai_nodup : NoDup (rq_signo <$> pending a p);
  ai_wait r : r ∈ pending a p → in_sig (rq_signo r) ∧ a_phase a p (rq_signo r) = PWait r;
  ai_done r : a_pc a p = LDone r → in_sig (rq_signo r) ∧ ∃ res, a_phase a p (rq_signo r) = PDone res;
  ai_wait_inv s r : in_sig s → a_phase a p s = PWait r → rq_signo r = s ∧ r ∈ pending a p;
  ai_done_inv s res : in_sig s → a_phase a p s = PDone res → ∃ r, a_pc a p = LDone r ∧ rq_signo r = s
}.
Definition a_inv (a : astate) : Prop := ∀ p, in_periph p → a_inv_at a p.

Lemma a_init_inv : a_inv a_init.
Proof.
  intros p _. constructor; cbn; try done; [constructor|]. intros r Hr. by apply elem_of_nil in Hr.
Qed.

(** A step on one peripheral leaves the others as they are. *)
Lemma a_inv_other a a' p :
  a_inv a → (∀ q, q ≠ p → a_pc a' q = a_pc a q ∧ a_queue a' q = a_queue a q
                         ∧ ∀ s, a_phase a' q s = a_phase a q s) →
  (in_periph p → a_inv_at a' p) → a_inv a'.
Proof.
  intros Hi Hsame Hp q Hq. destruct (decide (q = p)) as [->|Hne]; [by apply Hp|].
  destruct (Hsame q Hne) as (Hpc&Hqu&Hph). destruct (Hi q Hq).
  constructor; unfold pending in *; rewrite ?Hpc, ?Hqu; try done; intros *; rewrite ?Hph; eauto.
Qed.

(** Changing the phase of a signal that carries no request before or after. *)
Definition quiet (v : phase) : Prop :=
  match v with PWait _ | PDone _ => False | _ => True end.

Lemma a_inv_quiet a p s v : a_inv a → quiet (a_phase a p s) → quiet v → a_inv (set_phase p s v a).
Proof.
  intros Hi Hq Hv. apply (a_inv_other _ _ p Hi).
  { intros q Hne. split_and!; try done. intros j. cbn. rewrite upd2_ne; [done|]. congruence. }
  intros Hp. destruct (Hi p Hp) as [Hnd Hw Hd Hwi Hdi].
  assert (∀ j x, a_phase a p j = x → ¬ quiet x → j ≠ s) as Hne.
  { intros j x Hx Hnq ->. by rewrite Hx in Hq. }
  constructor; unfold pending in *; cbn; auto.
  - intros r Hr. apply Hw in Hr as [? Hr]. split; [done|]. rewrite upd2_ne; [done|].
    apply Hne in Hr; [congruence|]. by intros [].
  - intros r Hr. destruct (Hd r Hr) as [? [res Hres]]. split; [done|]. exists res.
    rewrite upd2_ne; [done|]. apply Hne in Hres; [congruence|]. by intros [].
  - intros j r Hj. unfold upd2. case_decide; [intros ->; done|by apply Hwi].
  - intros j r Hj. unfold upd2. case_decide; [intros ->; done|by apply Hdi].
Qed.

Lemma a_enqueue_inv a p r : in_periph p → in_sig (rq_signo r) → a_phase a p (rq_signo r) = PHeld →
  a_inv a → a_inv (set_queue p (a_queue a p ++ [r]) (set_phase p (rq_signo r) (PWait r) a)).
Proof.
  intros Hp Hs Hph Hi. apply (a_inv_other _ _ p Hi).
  { intros q Hne. cbn. rewrite upd1_ne by done. split_and!; try done.
    intros j. rewrite upd2_ne; [done|]. congruence. }
  intros _. destruct (Hi p Hp) as [Hnd Hw Hd Hwi Hdi].
  assert (pending (set_queue p (a_queue a p ++ [r]) (set_phase p (rq_signo r) (PWait r) a)) p
          = pending a p ++ [r]) as Hpe.
  { unfold pending; cbn. by rewrite upd1_eq, app_assoc. }
  assert (∀ r', r' ∈ pending a p → rq_signo r' ≠ rq_signo r) as Hfresh.
  { intros r' Hr'%Hw Heq. destruct Hr' as [_ Hr']. rewrite Heq, Hph in Hr'. done. }
  constructor; rewrite ?Hpe.
  - rewrite fmap_app. apply NoDup_app. split_and!; [done| |apply NoDup_singleton].
    intros x (r'&->&Hr')%list_elem_of_fmap Hin%list_elem_of_singleton. by apply (Hfresh r').
  - intros r' [Hr'|Heq%list_elem_of_singleton]%elem_of_app; [|subst r']; cbn.
    + pose proof (Hfresh _ Hr'). destruct (Hw _ Hr'). split; [done|]. rewrite upd2_ne; congruence.
    + by rewrite upd2_eq.
  - intros r' Hr'. cbn. destruct (Hd r' Hr') as [? [res Hres]]. split; [done|]. exists res.
    rewrite upd2_ne; [done|]. intros [= Heq]. rewrite Heq, Hph in Hres. done.
  - intros s r' Hs'. cbn. unfold upd2. case_decide as Hd'.
    + intros [= <-]. destruct Hd' as [_ ->]. split; [done|]. apply elem_of_app. right. by left.
    + intros Hw'. destruct (Hwi s r' Hs' Hw'). split; [done|]. apply elem_of_app. by left.
  - intros s res Hs'. cbn. unfold upd2. case_decide; [done|by apply Hdi].
Qed.

(** Moves of the loop that keep the pending requests and the phases. *)
Lemma a_inv_moved a a' p : a_inv a → (∀ q, q ≠ p → a_pc a' q = a_pc a q) →
  (∀ q, q ≠ p → a_queue a' q = a_queue a q) → (∀ q s, a_phase a' q s = a_phase a q s) →
  (in_periph p → pending a' p = pending a p) → (∀ r, a_pc a p ≠ LDone r) → (∀ r, a_pc a' p ≠ LDone r) →
  a_inv a'.
Proof.
  intros Hi Hpc Hq Hph Hpe Hn Hn'. apply (a_inv_other _ _ p Hi); [by auto|].
  intros Hp. destruct (Hi p Hp) as [Hnd Hw Hd Hwi Hdi].
  constructor; rewrite ?(Hpe Hp); intros *; rewrite ?Hph; auto.
  - by intros ?%Hn'.
  - intros ? Hx. apply Hdi in Hx; [|done]. destruct Hx as (r&Hr&_). by apply Hn in Hr.
Qed.

Lemma a_done_inv a p r res : in_periph p → a_pc a p = LRun r → a_inv a →
  a_inv (set_pc p (LDone r) (set_phase p (rq_signo r) (PDone res) a)).
Proof.
  intros Hp Hpc Hi. apply (a_inv_other _ _ p Hi).
  { intros q Hne. cbn. rewrite upd1_ne by done. split_and!; try done.
    intros j. rewrite upd2_ne; [done|]. congruence. }
  intros _. destruct (Hi p Hp) as [Hnd Hw Hd Hwi Hdi]. unfold pending in *. rewrite Hpc in *. cbn in Hnd, Hw, Hwi.
  apply NoDup_cons in Hnd as [Hni Hnd]. destruct (Hw r) as [Hs Hph]; [by left|].
  assert (∀ r', r' ∈ a_queue a p → rq_signo r' ≠ rq_signo r) as Hne.
  { intros r' Hr' Heq. apply Hni. apply list_elem_of_fmap. by exists r'. }
  constructor; unfold pending; cbn; rewrite ?upd1_eq; cbn; auto.
  - intros r' Hr'. destruct (Hw r') as [? ?]; [by right|]. split; [done|].
    rewrite upd2_ne; [done|]. pose proof (Hne _ Hr'). congruence.
  - intros r' [= <-]. split; [done|]. exists res. by rewrite upd2_eq.
  - intros s r' Hs'. unfold upd2. case_decide as Hd'; [done|]. intros Hr'.
    destruct (Hwi s r' Hs' Hr') as [? [->|?]%elem_of_cons]; [naive_solver|done].
  - intros s r' Hs'. unfold upd2. case_decide as Hd'; [naive_solver|]. intros Hx.
    destruct (Hdi _ _ Hs' Hx) as (?&?&_). congruence.
Qed.

Lemma a_announce_inv a p r res : in_periph p → a_pc a p = LDone r →
  a_phase a p (rq_signo r) = PDone res → a_inv a →
  a_inv (set_pc p LCheck (set_phase p (rq_signo r) (PReady res) a)).
Proof.
  intros Hp Hpc Hph Hi. apply (a_inv_other _ _ p Hi).
  { intros q Hne. cbn. rewrite upd1_ne by done. split_and!; try done.
    intros j. rewrite upd2_ne; [done|]. congruence. }
  intros _. destruct (Hi p Hp) as [Hnd Hw Hd Hwi Hdi]. unfold pending in *. rewrite Hpc in *.
  constructor; unfold pending; cbn; rewrite ?upd1_eq; cbn; auto.
  - intros r' Hr'. destruct (Hw r' Hr') as [? Hx]. split; [done|].
    rewrite upd2_ne; [done|]. intros [= Heq]. rewrite Heq in Hx. congruence.
  - done.
  - intros s r' Hs'. unfold upd2. case_decide as Hd'; [done|by apply Hwi].
  - intros s r' Hs'. unfold upd2. case_decide as Hd'; [done|]. intros Hx.
    destruct (Hdi _ _ Hs' Hx) as (r2&[= <-]&<-). naive_solver.
Qed.

Lemma a_step_inv a a' : a_step a a' → a_inv a → a_inv a'.
Proof.
  intros [lb Hst]. destruct Hst as [p s ?? Hph|p r ?? Hph|p ? Hpc|p r l ? Hpc Hq|p ? Hpc Hq|p ? Hpc|p r res ? Hpc
    |p r res ? Hpc Hph|p s res ?? Hph]; intros Hi.
  - apply a_inv_quiet; [done|by rewrite Hph|done].
  - by apply a_enqueue_inv.
  - apply (a_inv_moved a _ p); auto; cbn; intros; unfold pending; cbn; rewrite ?upd1_ne, ?upd1_eq by done;
      try rewrite Hpc; done.
  - apply (a_inv_moved a _ p); auto; cbn; intros; unfold pending; cbn; rewrite ?upd1_ne, ?upd1_eq by done;
      rewrite ?Hpc, ?Hq; done.
  - apply (a_inv_moved a _ p); auto; cbn; intros; unfold pending; cbn; rewrite ?upd1_ne, ?upd1_eq by done;
      try rewrite Hpc; done.
  - apply (a_inv_moved a _ p); auto; cbn; intros; unfold pending; cbn; rewrite ?upd1_ne, ?upd1_eq by done;
      try rewrite Hpc; done.
  - by apply a_done_inv.
  - by apply a_announce_inv.
  - apply a_inv_quiet; [done|by rewrite Hph|done].
Qed.

(** ** Traces, newest label first *)

Inductive a_trace : list label → astate → Prop :=
  | a_trace_nil : a_trace [] a_init
  | a_trace_cons tr a l a' : a_trace tr a → a_lstep a l a' → a_trace (l :: tr) a'.

Lemma a_trace_steps tr a a' : a_trace tr a → rtc a_step a a' → ∃ tr', a_trace (tr' ++ tr) a'.
Proof.
  intros Ht Hr. revert tr Ht. induction Hr as [|a a1 a2 [l Hl] _ IH]; intros tr Ht; [by exists []|].
  destruct (IH (l :: tr)) as [tr' Htr']; [by econstructor|]. exists (tr' ++ [l]).
  by rewrite <- app_assoc.
Qed.

Lemma a_trace_inv tr a : a_trace tr a → a_inv a.
Proof. induction 1; [apply a_init_inv|]. eapply a_step_inv; [by eexists|done]. Qed.

(** The requests of a peripheral that entered and left its queue, oldest first. *)
Definition submitted_by (p : Z) (l : label) : list io_req_t :=
  match l with TSubmit q r => if decide (q = p) then [r] else [] | _ => [] end.
Definition taken_by (p : Z) (l : label) : list io_req_t :=
  match l with TTake q r => if decide (q = p) then [r] else [] | _ => [] end.
Fixpoint oldest_first {A} (f : label → list A) (tr : list label) : list A :=
  match tr with [] => [] | l :: tr' => oldest_first f tr' ++ f l end.

(** The result a signal holds according to the trace. *)
Fixpoint latest (p s : Z) (tr : list label) : option result :=
  match tr with
  | [] => None
  | TFinish q r res :: tr' => if decide (q = p ∧ rq_signo r = s) then Some res else latest p s tr'
  | TCollect q j _ :: tr' => if decide (q = p ∧ j = s) then None else latest p s tr'
  | _ :: tr' => latest p s tr'
  end.

Definition result_of (ph : phase) : option result :=
  match ph with PDone res | PReady res => Some res | _ => None end.

Lemma trace_queue tr a p : a_trace tr a →
  oldest_first (submitted_by p) tr = oldest_first (taken_by p) tr ++ a_queue a p.
Proof.
  induction 1 as [|tr a l a' _ IH Hst]; [done|].
  destruct Hst as [q s|q r|q|q r l ?? Hq|q|q|q r res|q r res|q s res]; cbn; rewrite ?app_nil_r; try done;
    unfold upd1; destruct (decide (q = p)) as [->|]; 
    [rewrite decide_True by done|rewrite decide_False, ?app_nil_r by done; done
    |rewrite decide_True by done|rewrite decide_False, ?app_nil_r by done; done].
  - by rewrite IH, app_assoc.
  - by rewrite IH, Hq, <- app_assoc.
Qed.

Lemma trace_latest tr a p s : in_periph p → in_sig s → a_trace tr a →
  latest p s tr = result_of (a_phase a p s).
Proof.
  intros Hp Hs Ht. induction Ht as [|tr a l a' Ht IH Hst]; [done|].
  pose proof (a_trace_inv _ _ Ht) as Hi.
  destruct Hst as [q j ?? Hph|q r ?? Hph|q|q r l ?? Hq|q|q|q r res ? Hpc|q r res ?? Hph|q j res ?? Hph];
    cbn; try done; unfold upd2.
  - case_decide as E; [|done]. destruct E as [-> ->]. by rewrite IH, Hph.
  - case_decide as E; [|done]. destruct E as [-> ->]. by rewrite IH, Hph.
  - destruct (decide (q = p ∧ rq_signo r = s)) as [[-> <-]|Hne].
    + by rewrite decide_True.
    + rewrite decide_False by naive_solver. done.
  - case_decide as E; [|done]. destruct E as [-> ->]. by rewrite IH, Hph.
  - destruct (decide (q = p ∧ j = s)) as [[-> ->]|Hne].
    + by rewrite decide_True.
    + rewrite decide_False by naive_solver. done.
Qed.
