(* ===== verification/IoHandlers.v ===== *)
(** * Request handlers of the I/O helper (core/pta/io_helper/io_helper_service.c)

    One definition per handler: it runs the driver operation of the request
    and records the result in the signal table.  Secure storage is reached
    through system calls that are not part of this program; they are the
    [Storage] parameter. *)

From Stdlib Require Import ZArith Lia Bool.
From stdpp Require Import base tactics option list numbers gmap.
From S2P Require Import Prelude Platform Gpio I2c Spi Sensors Tel0157 Dht IoReq.
From S2P Require Import IoState.

Open Scope Z_scope.

(** The secure storage system calls, as functions of the history: a result
    and what else they deliver.  [st_read] delivers the bytes it stored, at
    most as many as asked for. *)
Class Storage := {
  st_create : history → buf → Z * Z;        (* result, object handle *)
  st_write : history → Z → buf → Z;         (* result *)
  st_open : history → buf → Z * Z;          (* result, object handle *)
  st_info : history → Z → Z * Z;            (* result, data_size *)
  st_read : history → Z → Z → Z * Z * list Z (* result, count, bytes *)
}.

(** ** From peripheral numbers to devices *)

Definition periph_no_to_gpio (p : Z) : Z := p.
Definition periph_no_to_i2c (p : Z) : Z := u16 (p - AVAILABLE_GPIO_NUM).
Definition periph_no_to_spi (p : Z) : Z := u16 (p - AVAILABLE_GPIO_NUM - AVAILABLE_I2C_NUM).

Section handlers.
Context `{Env, Storage}.

Definition i2c_dev_of (p addr : Z) : i2c_dev := I2cDev (i2c_t (periph_no_to_i2c p)) (u8 addr).
Definition tel_of (p addr : Z) : tel0157_t := Tel (i2c_dev_of p addr) 0 0.

(** Results go to the entry of the request's signal. *)
Definition fail (p : Z) (req : io_req_t) (res : Z) : K Z :=
  set_ret p (rq_signo req) res;; mret res.
Definition succeed (p : Z) (req : io_req_t) (n : Z) (b : ptr) : K Z :=
  set_ret p (rq_signo req) n;; set_len p (rq_signo req) n;; set_buf p (rq_signo req) b;;
  mret TEE_SUCCESS.
Definition finish (p : Z) (req : io_req_t) (res : Z) : K unit :=
  set_ret p (rq_signo req) res;; set_len p (rq_signo req) 0;; set_buf p (rq_signo req) Null.

(** Runs [op] on the block [b] and publishes or frees it. *)
Definition run_into (p : Z) (req : io_req_t) (n : Z) (b : ptr)
    (op : option buf → D (Z * option buf)) : K Z :=
  ob ← load b;
  '(res, ob) ← lift (op ob);
  store b ob;;
  if negb (res =? TEE_SUCCESS) then free b;; fail p req res
  else succeed p req n b.

(** The common shape: allocate [n] bytes or report [oom], then [run_into]. *)
Definition handle_alloc (p : Z) (req : io_req_t) (n oom : Z)
    (op : option buf → D (Z * option buf)) : K Z :=
  b ← malloc n;
  match b with
  | Null => fail p req oom
  | _ => run_into p req n b op
  end.

Definition handle_dht_read (req : io_req_t) (p : Z) : K Z :=
  ty ← value_a req 0;
  let dev := Dht (DhtParams (periph_no_to_gpio p) (dht_type_of ty) GPIO_IN_PU) (DhtData 0 0) in
  handle_alloc p req 4 TEE_ERROR_BAD_STATE (λ ob,
    '(res, _, v) ← dht_read (Some dev);
    mret (res, match v with
               | Some (t, h) => Some (bytes (le 2 t ++ le 2 h))
               | None => ob end)).

Definition handle_bh1750fvi_sample (req : io_req_t) (p : Z) : K Z :=
  a ← value_a req 0;
  handle_alloc p req 2 TEE_ERROR_BAD_STATE (λ ob,
    '(res, lux) ← Bh1750fvi.bh1750fvi_sample (i2c_dev_of p a);
    mret (res, match lux with Some v => Some (bytes (le 2 v)) | None => ob end)).

(** This handler does not test the allocation. *)
Definition handle_mpu6050_sample (req : io_req_t) (p : Z) : K Z :=
  a ← value_a req 0;
  b ← malloc 14;
  run_into p req 14 b (Mpu6050.mpu_sample (i2c_dev_of p a)).

(** A storage system call is logged with its result. *)
Definition syscall (res : Z) : K Z := lift (modify (d_log (E_storage res)));; mret res.
Definition hist : K history := gets (λ k, d_trace (k_d k)).

Definition handle_write_secure_object (req : io_req_t) (p : Z) : K Z :=
  b0 ← memref_buffer req 0;
  id ← load b0;
  h ← hist;
  let '(r, obj) := st_create h (default [] id) in
  res ← syscall (u32 r);
  res ← (if negb (res =? TEE_SUCCESS) then mret res else
           b1 ← memref_buffer req 1;
           data ← load b1;
           h ← hist;
           res ← syscall (u32 (st_write h obj (default [] data)));
           syscall TEE_SUCCESS;;  (* obj_del or obj_close *)
           mret res);
  finish p req res;;
  b0 ← memref_buffer req 0;
  free b0;;
  b1 ← memref_buffer req 1;
  free b1;;
  mret res.

Definition handle_read_secure_object (req : io_req_t) (p : Z) : K Z :=
  b0 ← memref_buffer req 0;
  id ← load b0;
  h ← hist;
  let '(r, obj) := st_open h (default [] id) in
  res ← syscall (u32 r);
  res ← (if negb (res =? TEE_SUCCESS) then fail p req res else
         h ← hist;
         let '(r, size) := st_info h obj in
         res ← syscall (u32 r);
         if negb (res =? TEE_SUCCESS) then fail p req res else
         let size := u32 size in
         b ← malloc size;
         match b with
         | Null => set_ret p (rq_signo req) TEE_ERROR_OUT_OF_MEMORY;;
                   syscall TEE_SUCCESS;; mret TEE_ERROR_OUT_OF_MEMORY
         | _ =>
           h ← hist;
           let '(r, cnt, l) := st_read h obj size in
           res ← syscall (u32 r);
           ob ← load b;
           let l := take (Z.to_nat size) l in
           store b ((λ blk, bytes l ++ drop (length l) blk) <$> ob);;
           if negb (res =? TEE_SUCCESS) then
             set_ret p (rq_signo req) res;; syscall TEE_SUCCESS;; free b;; mret res
           else if negb (size =? u32 cnt) then
             set_ret p (rq_signo req) TEE_ERROR_BAD_STATE;; syscall TEE_SUCCESS;; free b;;
             mret TEE_ERROR_BAD_STATE
           else succeed p req size b
         end);
  b0 ← memref_buffer req 0;
  free b0;;
  mret res.

Definition handle_i2c_write_bytes (req : io_req_t) (p : Z) : K Z :=
  let i2c := i2c_t (periph_no_to_i2c p) in
  res ← lift (i2c_acquire i2c);
  if negb (res =? TEE_SUCCESS) then fail p req res else
  addr ← value_a req 1;
  b ← memref_buffer req 0;
  n ← memref_size req 0;
  flags ← value_b req 1;
  data ← load b;
  res ← lift (i2c_write_bytes i2c (u16 addr) data n (u8 flags));
  lift (i2c_release i2c);;
  finish p req res;;
  free b;;
  mret res.

Definition handle_i2c_read_bytes (req : io_req_t) (p : Z) : K Z :=
  let i2c := i2c_t (periph_no_to_i2c p) in
  n ← value_b req 0;
  addr ← value_a req 0;
  flags ← value_a req 1;
  handle_alloc p req n TEE_ERROR_OUT_OF_MEMORY (λ ob,
    res ← i2c_acquire i2c;
    if negb (res =? TEE_SUCCESS) then mret (res, ob) else
    '(res, ob) ← i2c_read_bytes i2c (u16 addr) ob n (u8 flags);
    i2c_release i2c;;
    mret (res, ob)).

Definition handle_i2c_read_regs (req : io_req_t) (p : Z) : K Z :=
  let i2c := i2c_t (periph_no_to_i2c p) in
  n ← value_a req 1;
  addr ← value_a req 0;
  reg ← value_b req 0;
  flags ← value_b req 1;
  handle_alloc p req n TEE_ERROR_OUT_OF_MEMORY (λ ob,
    res ← i2c_acquire i2c;
    if negb (res =? TEE_SUCCESS) then mret (res, ob) else
    '(res, ob) ← i2c_read_regs i2c (u16 addr) (u16 reg) ob n (u8 flags);
    i2c_release i2c;;
    mret (res, ob)).

(** The three ways to call [spi_transfer_bytes]: write only, read only, and
    an exchange whose length is that of the write buffer. *)
Definition handle_spi_transfer_bytes (req : io_req_t) (p : Z) : K Z :=
  cs ← value_a req 1;
  let cs := spi_cs_t cs in
  let spi := spi_t (periph_no_to_spi p) in
  cont ← value_b req 1;
  mf ← value_a req 2;
  let mode := Z.land (Z.shiftr mf 16) 0xFFFF in
  let freq := spi_clk_of (Z.land mf 0xFFFF) in
  rlen ← value_b req 2;
  b ← (if 0 <? rlen then malloc rlen else mret Null);
  if (0 <? rlen) && bool_decide (b = Null) then fail p req TEE_ERROR_OUT_OF_MEMORY else
  res ← lift (spi_acquire spi cs mode freq);
  if negb (res =? TEE_SUCCESS) then
    set_ret p (rq_signo req) res;; free b;; mret res
  else
  wb ← memref_buffer req 0;
  wlen ← memref_size req 0;
  res ← (if rlen =? 0 then
           out ← load wb;
           '(res, _) ← lift (spi_transfer_bytes spi cs (truth cont) out None wlen);
           mret res
         else if wlen =? 0 then
           ib ← load b;
           '(res, ib) ← lift (spi_transfer_bytes spi cs (truth cont) None ib rlen);
           store b ib;; mret res
         else
           out ← load wb;
           ib ← load b;
           '(res, ib) ← lift (spi_transfer_bytes spi cs (truth cont) out ib wlen);
           store b ib;; mret res);
  lift (spi_release spi);;
  if negb (res =? TEE_SUCCESS) then
    free wb;; free b;; fail p req res
  else
    succeed p req rlen b;;
    free wb;;
    mret TEE_SUCCESS.

Definition handle_at24cxx_read (req : io_req_t) (p : Z) : K Z :=
  a ← value_a req 0;
  n ← value_a req 1;
  addr ← value_b req 0;
  handle_alloc p req n TEE_ERROR_OUT_OF_MEMORY (λ ob,
    At24cxx.at24cxx_read (i2c_dev_of p a) (u16 addr) ob n).

Definition handle_at24cxx_write (req : io_req_t) (p : Z) : K Z :=
  a ← value_a req 1;
  addr ← value_b req 1;
  b ← memref_buffer req 0;
  n ← memref_size req 0;
  data ← load b;
  res ← lift (At24cxx.at24cxx_write (i2c_dev_of p a) (u16 addr) data (u32 n));
  finish p req res;;
  free b;;
  mret res.

Definition handle_tel0157_get_gnss_len (req : io_req_t) (p : Z) : K Z :=
  a ← value_a req 0;
  handle_alloc p req 2 TEE_ERROR_OUT_OF_MEMORY (λ ob,
    '(res, l) ← tel0157_get_gnss_len (tel_of p a);
    mret (res, match l with Some v => Some (bytes (le 2 v)) | None => ob end)).

Definition handle_tel0157_get_all_gnss (req : io_req_t) (p : Z) : K Z :=
  a ← value_a req 0;
  n ← value_b req 0;
  handle_alloc p req n TEE_ERROR_OUT_OF_MEMORY (λ ob,
    tel0157_get_all_gnss (tel_of p a) ob (u16 n)).

Definition handle_tel0157_get_utc_time (req : io_req_t) (p : Z) : K Z :=
  a ← value_a req 0;
  handle_alloc p req sizeof_time TEE_ERROR_OUT_OF_MEMORY (λ _,
    '(res, t) ← tel0157_get_utc_time (tel_of p a) time_none;
    mret (res, Some (time_bytes t))).

Definition handle_tel0157_get_gnss_mode (req : io_req_t) (p : Z) : K Z :=
  a ← value_a req 0;
  handle_alloc p req 1 TEE_ERROR_OUT_OF_MEMORY (tel0157_get_gnss_mode (tel_of p a)).

Definition handle_tel0157_get_num_sat_used (req : io_req_t) (p : Z) : K Z :=
  a ← value_a req 0;
  handle_alloc p req 1 TEE_ERROR_OUT_OF_MEMORY (tel0157_get_num_sat_used (tel_of p a)).

Definition handle_tel0157_get_lon (req : io_req_t) (p : Z) : K Z :=
  a ← value_a req 0;
  handle_alloc p req sizeof_lon_lat TEE_ERROR_OUT_OF_MEMORY (λ _,
    '(res, q) ← tel0157_get_lon (tel_of p a) lon_lat_none;
    mret (res, Some (lon_lat_bytes q))).

Definition handle_tel0157_get_lat (req : io_req_t) (p : Z) : K Z :=
  a ← value_a req 0;
  handle_alloc p req sizeof_lon_lat TEE_ERROR_OUT_OF_MEMORY (λ _,
    '(res, q) ← tel0157_get_lat (tel_of p a) lon_lat_none;
    mret (res, Some (lon_lat_bytes q))).

Definition handle_tel0157_get_alt (req : io_req_t) (p : Z) : K Z :=
  a ← value_a req 0;
  handle_alloc p req 3 TEE_ERROR_OUT_OF_MEMORY (tel0157_get_alt (tel_of p a)).

Definition handle_tel0157_get_sog (req : io_req_t) (p : Z) : K Z :=
  a ← value_a req 0;
  handle_alloc p req 3 TEE_ERROR_OUT_OF_MEMORY (tel0157_get_sog (tel_of p a)).

Definition handle_tel0157_get_cog (req : io_req_t) (p : Z) : K Z :=
  a ← value_a req 0;
  handle_alloc p req 3 TEE_ERROR_OUT_OF_MEMORY (tel0157_get_cog (tel_of p a)).

Definition handle_atk301_get_fingerprint_image (req : io_req_t) (p : Z) : K Z :=
  a ← value_a req 0;
  res ← lift (Atk301.atk301_get_fingerprint_image (i2c_dev_of p a));
  finish p req res;;
  mret TEE_SUCCESS.

Definition handle_atk301_upload_fingerprint_image (req : io_req_t) (p : Z) : K Z :=
  a ← value_a req 0;
  handle_alloc p req Atk301.ATK301_FINGERPRINT_IMAGE_DATA_LEN TEE_ERROR_OUT_OF_MEMORY (λ ob,
    '(res, b) ← Atk301.atk301_upload_fingerprint_image (i2c_dev_of p a) (default [] ob);
    mret (res, Some b)).

Definition handle_req (req : io_req_t) (p : Z) : K Z :=
  match rq_type req with
  | DHT_READ => handle_dht_read req p
  | BH1750FVI_SAMPLE => handle_bh1750fvi_sample req p
  | MPU6050_SAMPLE => handle_mpu6050_sample req p
  | WRITE_SECURE_OBJECT => handle_write_secure_object req p
  | READ_SECURE_OBJECT => handle_read_secure_object req p
  | I2C_WRITE_BYTES => handle_i2c_write_bytes req p
  | I2C_READ_BYTES => handle_i2c_read_bytes req p
  | I2C_READ_REGS => handle_i2c_read_regs req p
  | SPI_TRANSFER_BYTES => handle_spi_transfer_bytes req p
  | AT24CXX_READ => handle_at24cxx_read req p
  | AT24CXX_WRITE => handle_at24cxx_write req p
  | TEL0157_GET_GNSS_LEN => handle_tel0157_get_gnss_len req p
  | TEL0157_GET_ALL_GNSS => handle_tel0157_get_all_gnss req p
  | TEL0157_GET_UTC_TIME => handle_tel0157_get_utc_time req p
  | TEL0157_GET_GNSS_MODE => handle_tel0157_get_gnss_mode req p
  | TEL0157_GET_NUM_SAT_USED => handle_tel0157_get_num_sat_used req p
  | TEL0157_GET_LON => handle_tel0157_get_lon req p
  | TEL0157_GET_LAT => handle_tel0157_get_lat req p
  | TEL0157_GET_ALT => handle_tel0157_get_alt req p
  | TEL0157_GET_SOG => handle_tel0157_get_sog req p
  | TEL0157_GET_COG => handle_tel0157_get_cog req p
  | ATK301_GET_FINGERPRINT_IMAGE => handle_atk301_get_fingerprint_image req p
  | ATK301_UPLOAD_FINGERPRINT_IMAGE => handle_atk301_upload_fingerprint_image req p
  | _ => fail p req TEE_ERROR_NOT_SUPPORTED
  end.
End handlers.
