(* ===== verification/IoHandlersProofs.v ===== *)
(** * Request handlers: memory safety and what they publish

    [handler_post] is the contract between a handler and the service loop:
    only the entry of the request's signal, the request's own blocks and new
    blocks change; what the entry announces is there; every driver lock is
    given back.  [handle_req_ok] proves it for every kind of request whose
    parameters have the shape of that kind ([req_ok]). *)

From Stdlib Require Import ZArith Lia Bool.
From stdpp Require Import base tactics option list numbers gmap.
From S2P Require Import Prelude Platform Gpio I2c I2cProofs Spi SpiProofs Sensors.
From S2P Require Import SensorsProofs Tel0157 Dht DhtProofs IoReq IoState IoSignal.
From S2P Require Import IoSignalProofs IoHandlers.

Open Scope Z_scope.

(** ** The kernel heap *)

Definition heap_ok (k : kstate) : Prop :=
  0 < k_fresh k ∧ ∀ id b, k_heap k !! id = Some b → 0 < id < k_fresh k.

Section heap.
Context `{Env}.

Definition after_malloc (n : Z) (ok : bool) (k : kstate) : kstate :=
  let k1 := set_k_d (d_log (E_malloc n ok) (k_d k)) k in
  if ok then set_k_heap (<[k_fresh k := uninit n]> (k_heap k)) (set_k_fresh (k_fresh k + 1) k1)
  else k1.

Lemma malloc_spec t n k : wp t (malloc n) (λ p k', ∃ ok, k' = after_malloc n ok k
  ∧ p = if ok then Blk (k_fresh k) else Null) k.
Proof. unfold wp, malloc. destruct (env_malloc _ _) eqn:E; [by exists true|by exists false]. Qed.

Lemma load_spec t id b k : k_heap k !! id = Some b →
  wp t (load (Blk id)) (λ r k', r = Some b ∧ k' = k) k.
Proof. intros Hb. unfold wp, load. by rewrite Hb. Qed.

Lemma store_spec t id b b' k : k_heap k !! id = Some b →
  wp t (store (Blk id) (Some b')) (λ _ k', k' = set_k_heap (<[id := b']> (k_heap k)) k) k.
Proof. intros Hb. unfold wp, store. by rewrite Hb. Qed.

Lemma free_spec t id b k : k_heap k !! id = Some b →
  wp t (free (Blk id)) (λ _ k', k' = set_k_heap (delete id (k_heap k)) k) k.
Proof. intros Hb. unfold wp, free. by rewrite Hb. Qed.
End heap.

(** ** Entries *)

Lemma set_entry_twice p s e e' k : set_entry p s e (set_entry p s e' k) = set_entry p s e k.
Proof.
  unfold set_entry, set_k_table; cbn. f_equal. apply list_eq. intros i.
  destruct (decide (Z.to_nat p = i)) as [<-|].
  - rewrite !list_lookup_alter_eq. destruct (k_table k !! Z.to_nat p); cbn; [|done].
    by rewrite list_insert_insert_eq.
  - by rewrite !list_lookup_alter_ne.
Qed.

Section publish.
Context (k : kstate) (p s : Z) (Hk : table_ok k) (Hp : in_periph p) (Hs : in_sig s).
Let e := entry_at k p s.

Lemma set_ret_spec t r : wp t (set_ret p s r) (λ _ k', k' =
  set_entry p s (SigEntry (i32 r) (se_buf e) (se_len e) (se_polls e)) k) k.
Proof using Hk Hp Hs.
  unfold set_ret. wp_steps. eapply wp_mono; [by apply get_entry_spec|]. intros ? ? [-> ->].
  by apply put_entry_spec.
Qed.
Lemma set_len_spec t n : wp t (set_len p s n) (λ _ k', k' =
  set_entry p s (SigEntry (se_ret e) (se_buf e) (u32 n) (se_polls e)) k) k.
Proof using Hk Hp Hs.
  unfold set_len. wp_steps. eapply wp_mono; [by apply get_entry_spec|]. intros ? ? [-> ->].
  by apply put_entry_spec.
Qed.
Lemma set_buf_spec t b : wp t (set_buf p s b) (λ _ k', k' =
  set_entry p s (SigEntry (se_ret e) b (se_len e) (se_polls e)) k) k.
Proof using Hk Hp Hs.
  unfold set_buf. wp_steps. eapply wp_mono; [by apply get_entry_spec|]. intros ? ? [-> ->].
  by apply put_entry_spec.
Qed.
End publish.

Section results.
Context `{Env} (k : kstate) (p : Z) (req : io_req_t).
Context (Hk : table_ok k) (Hp : in_periph p) (Hs : in_sig (rq_signo req)).
Let s := rq_signo req.
Let e := entry_at k p s.

(** Writing all three members, in the order the handlers do. *)
Lemma publish_spec t r n b :
  wp t (set_ret p s r;; set_len p s n;; set_buf p s b)
    (λ _ k', k' = set_entry p s (SigEntry (i32 r) b (u32 n) (se_polls e)) k) k.
Proof using Hk Hp Hs.
  wp_steps. eapply wp_mono; [by apply set_ret_spec|]. intros ? ? ->. cbn beta.
  wp_steps. eapply wp_mono; [apply set_len_spec; [by apply set_entry_table|done|done]|].
  intros ? ? ->. cbn beta. rewrite entry_set_same, set_entry_twice by done.
  eapply wp_mono; [apply set_buf_spec; [by apply set_entry_table|done|done]|].
  intros ? ? ->. by rewrite entry_set_same, set_entry_twice by done.
Qed.

Lemma finish_spec t r : wp t (finish p req r)
  (λ _ k', k' = set_entry p s (SigEntry (i32 r) Null 0 (se_polls e)) k) k.
Proof using Hk Hp Hs. apply publish_spec. Qed.

Lemma succeed_spec t n b : wp t (succeed p req n b) (λ r k', r = TEE_SUCCESS
  ∧ k' = set_entry p s (SigEntry (i32 n) b (u32 n) (se_polls e)) k) k.
Proof using Hk Hp Hs.
  pose proof (publish_spec t n n b) as Hw. unfold succeed.
  apply wp_bind_inv in Hw. wp_steps. eapply wp_mono; [exact Hw|]. intros ? k1 H1.
  cbn beta in H1. apply wp_bind_inv in H1. wp_steps.
  eapply wp_mono; [exact H1|]. intros ? k2 H2. cbn beta in H2. wp_steps.
  eapply wp_mono; [exact H2|]. intros ? k3 ->. by wp_steps.
Qed.

Lemma fail_spec t r : wp t (fail p req r) (λ v k', v = r
  ∧ k' = set_entry p s (SigEntry (i32 r) (se_buf e) (se_len e) (se_polls e)) k) k.
Proof using Hk Hp Hs.
  unfold fail. wp_steps. eapply wp_mono; [by apply set_ret_spec|]. intros ? ? ->. by wp_steps.
Qed.
End results.

(** ** The contract of a handler *)

Definition block_of (q : TEE_Param) : list Z :=
  match q with Memref (Blk id) _ => [id] | _ => [] end.
Definition req_blocks (req : io_req_t) : list Z := mjoin (block_of <$> rq_params req).

(** What an entry announces to [get_data]: an error, nothing, or a block with
    as many bytes as the length says. *)
Definition entry_ok (heap : gmap Z buf) (e : io_sigentry_t) : Prop :=
  se_ret e < 0 ∨ se_len e = 0
  ∨ ∃ id b, se_buf e = Blk id ∧ heap !! id = Some b ∧ blen b = se_len e.

(** The block an entry owns. *)
Definition entry_block (e : io_sigentry_t) : option Z :=
  if (se_ret e <? 0) || (se_len e =? 0) then None
  else match se_buf e with Blk id => Some id | _ => None end.

Definition handler_post (k : kstate) (p : Z) (req : io_req_t) (k' : kstate) : Prop :=
  ∃ e, k' = set_k_d (k_d k') (set_k_heap (k_heap k') (set_k_fresh (k_fresh k')
              (set_entry p (rq_signo req) e k)))
    ∧ kept (k_d k) (k_d k') ∧ heap_ok k' ∧ k_fresh k <= k_fresh k'
    ∧ (∀ id, id < k_fresh k → id ∉ req_blocks req → k_heap k' !! id = k_heap k !! id)
    ∧ entry_ok (k_heap k') e
    ∧ (∀ id, entry_block e = Some id → k_fresh k <= id)
    ∧ (∀ id, k_fresh k <= id → is_Some (k_heap k' !! id) → se_buf e = Blk id ∧ 0 <= se_len e)
    ∧ se_polls e = se_polls (entry_at k p (rq_signo req)).

(** The state in which the loop calls a handler. *)
Definition handler_pre (k : kstate) (p : Z) (req : io_req_t) : Prop :=
  k_shape k ∧ heap_ok k ∧ in_periph p ∧ in_sig (rq_signo req).

(** For the total reading [t = true]: the bus of the peripheral and the SPI
    controller answer. *)
Definition hw_live `{Env} (t : bool) (p : Z) (s : dstate) : Prop :=
  i2c_live t (i2c_t (periph_no_to_i2c p)) s
  ∧ (t = true → ∀ h b, b ∈ [SPI_CS_TXD; SPI_CS_RXD; SPI_CS_DONE] →
       spi_flag (env_read h 32 (spi_addr s SPI_CS) mod 2 ^ 32) b = true).

Lemma hw_live_frame `{Env} t p s s' : d_frame s s' → hw_live t p s → hw_live t p s'.
Proof.
  intros Hf [Hi Hs]. split; [by eapply i2c_live_frame|]. unfold spi_addr.
  destruct Hf as (_&_&->&_). exact Hs.
Qed.
Lemma hw_live_kept `{Env} t p s s' : kept s s' → hw_live t p s → hw_live t p s'.
Proof. intros [? _]. by apply hw_live_frame. Qed.
Lemma hw_live_false `{Env} p s : hw_live false p s.
Proof. split; [apply i2c_live_false|discriminate]. Qed.
#[export] Hint Resolve hw_live_false hw_live_kept : own.

(** A driver operation that fills a block of [n] bytes. *)
Definition op_ok `{Env} (t : bool) (p n : Z) (op : option buf → D (Z * option buf)) : Prop :=
  ∀ s b, d_wf s → d_held s = ∅ → hw_live t p s → blen b = n →
    wp t (op (Some b)) (λ r s', kept s s' ∧ tee_status r.1
      ∧ ∃ b1, r.2 = Some b1 ∧ blen b1 = n) s.

Lemma set_k_d_id k : set_k_d (k_d k) k = k.
Proof. by destruct k. Qed.

Lemma heap_fresh k : heap_ok k → k_heap k !! k_fresh k = None.
Proof.
  intros [_ Hh]. destruct (k_heap k !! k_fresh k) eqn:E; [|done]. apply Hh in E. lia.
Qed.

Lemma status_neg r : tee_status r → r ≠ TEE_SUCCESS → i32 r < 0.
Proof. intros. by apply tee_status_i32. Qed.

Lemma entry_block_neg r b n q : r < 0 → entry_block (SigEntry r b n q) = None.
Proof. intros. unfold entry_block; cbn. by rewrite (proj2 (Z.ltb_lt _ _)). Qed.

(** A state that differs from [k] in the history, the next address and the entry only. *)
Lemma post_entry k p req d f e :
  handler_pre k p req → k_fresh k <= f → kept (k_d k) d → entry_ok (k_heap k) e → entry_block e = None →
  se_polls e = se_polls (entry_at k p (rq_signo req)) →
  handler_post k p req (set_k_d d (set_k_fresh f (set_entry p (rq_signo req) e k))).
Proof.
  intros (Hk&[Hf Hh]&Hp&Hs) Hge Hd He Hb Hq. exists e.
  split_and!; cbn; try done.
  all: try lia.
  - split; cbn; [lia|]. intros id b Hx. apply Hh in Hx. lia.
  - by rewrite Hb.
  - intros id Hid [b Hx]. apply Hh in Hx. lia.
Qed.

(** A state with one new block, published by the entry. *)
Lemma post_block k p req d b n :
  handler_pre k p req → kept (k_d k) d → blen b = n → 0 <= n < 2 ^ 32 →
  handler_post k p req
    (set_k_d d (set_k_heap (<[k_fresh k := b]> (k_heap k)) (set_k_fresh (k_fresh k + 1)
       (set_entry p (rq_signo req) (SigEntry (i32 n) (Blk (k_fresh k)) (u32 n)
          (se_polls (entry_at k p (rq_signo req)))) k)))).
Proof.
  intros (Hk&[Hf Hh]&Hp&Hs) Hd Hb Hn. eexists. split; [reflexivity|].
  split_and!; cbn; try done; try lia.
  - split; cbn; [lia|]. intros id b' [(<-&_)|(?&Hx)]%lookup_insert_Some; [lia|]. apply Hh in Hx. lia.
  - intros id Hlt _. rewrite lookup_insert_ne by lia. done.
  - do 2 right. eexists _, _. cbn. rewrite lookup_insert_eq, u32_id by lia. done.
  - intros id. unfold entry_block; cbn. destruct (_ || _); [done|]. intros [= <-]. lia.
  - intros id Hge [b' Hx]. apply lookup_insert_Some in Hx as [(<-&_)|(?&Hx)].
    + split; [done|]. apply u32_range.
    + apply Hh in Hx. lia.
Qed.

Section alloc.
Context `{Env, Storage} (t : bool) (k : kstate) (p : Z) (req : io_req_t).
Context (Hpre : handler_pre k p req).
Let s := rq_signo req.

Let Hp : in_periph p := proj1 (proj2 (proj2 Hpre)).
Let Hs : in_sig s := proj2 (proj2 (proj2 Hpre)).
Let Ht : table_ok k := match Hpre with conj (conj _ (conj _ (conj _ (conj _ (conj h _))))) _ => h end.

Lemma fail_post r : tee_status r → r ≠ TEE_SUCCESS →
  wp t (fail p req r) (λ v k', v = r ∧ handler_post k p req k') k.
Proof using Hpre.
  intros Hr Hne. eapply wp_mono; [by apply fail_spec|]. intros v k' [-> ->]. split; [done|].
  pose proof (status_neg _ Hr Hne).
  refine (post_entry k p req (k_d k) (k_fresh k) _ Hpre _ _ _ _ _); auto; [lia|..].
  - by left.
  - by apply entry_block_neg.
Qed.

Lemma handle_alloc_ok n oom op : hw_live t p (k_d k) →
  0 <= n < 2 ^ 32 → tee_status oom → oom ≠ TEE_SUCCESS → op_ok t p n op →
  wp t (handle_alloc p req n oom op) (λ _ k', handler_post k p req k') k.
Proof using Hpre.
  intros Hlv Hn Hoom Hoom2 Hop. pose proof Hpre as (Hk&Hh&_&_). unfold handle_alloc. wp_steps.
  eapply wp_mono; [apply malloc_spec|]. intros b0 k1 (ok&->&->). destruct ok.
  2:{ cbn. eapply wp_mono; [by apply fail_spec|]. intros v k' [-> ->].
      pose proof (status_neg _ Hoom Hoom2).
      refine (post_entry k p req (d_log (E_malloc n false) (k_d k)) (k_fresh k) _ Hpre _ _ _ _ _);
        auto; [lia|..].
      - apply d_ext_kept, d_ext_log.
      - by left.
      - by apply entry_block_neg. }
  unfold run_into. wp_steps.
  eapply wp_mono; [eapply load_spec; cbn; by rewrite lookup_insert_eq|].
  intros ? ? [-> ->]. wp_steps. apply wp_zoom. pose proof Hk as (_&_&_&_&_&_&_&_&_&_&Hwf&Hheld).
  eapply wp_mono; [apply Hop; [done|done|by eapply hw_live_kept; [apply d_ext_kept, d_ext_log|]|by apply blen_uninit; lia]|].
  intros [res ob] d (Hd&Hr&b1&Hb1&Hl). cbn in Hr, Hb1 |- *. subst ob. wp_steps.
  eapply wp_mono; [eapply store_spec; cbn; by rewrite lookup_insert_eq|].
  intros ? ? ->. cbn beta. assert (kept (k_d k) d) as Hkept.
  { etrans; [|exact Hd]. apply d_ext_kept, d_ext_log. }
  cbn. rewrite insert_insert_eq. destruct (Z.eqb_spec res TEE_SUCCESS) as [->|Hne]; cbn [negb].
  - eapply wp_mono; [apply succeed_spec; [exact Ht|done|done]|].
    intros ? ? [-> ->]. cbn. apply (post_block k p req d b1 n); auto.
  - wp_steps. eapply wp_mono; [eapply free_spec; cbn; by rewrite lookup_insert_eq|].
    intros ? ? ->. cbn. rewrite delete_insert_eq.
    eapply wp_mono; [apply fail_spec; [exact Ht|done|done]|]. intros ? ? [-> ->].
    pose proof (status_neg _ Hr Hne). rewrite delete_id by by apply heap_fresh.
    refine (post_entry k p req d (k_fresh k + 1) _ Hpre _ _ _ _ _); auto; [lia|..].
    + by left.
    + by apply entry_block_neg.
Qed.
End alloc.

(** ** The driver operations the handlers run *)

Section ops.
Context `{Env, Storage} (t : bool) (p : Z).

Lemma dev_ready_of a s : d_wf s → d_held s = ∅ → hw_live t p s → dev_ready t (i2c_dev_of p a) s.
Proof using.
  intros Hwf Hh [Hlv _]. split; [done|]. unfold dev_wf, bus_free, i2c_dev_of, i2c_t; cbn.
  pose proof (u8_range (periph_no_to_i2c p)). pose proof (u8_range a). rewrite Hh.
  split_and!; try done; try lia.
Qed.

(** From the guarantees of the drivers to [op_ok]. *)
Lemma read_post_ok n m b (r : Z * option buf) : blen b = n → read_post m b r →
  tee_status r.1 ∧ ∃ b1, r.2 = Some b1 ∧ blen b1 = n.
Proof using. intros <- (?&b1&?&?&_). eauto. Qed.

Lemma at24_read_op a addr n : 0 <= n → op_ok t p n (λ ob, At24cxx.at24cxx_read (i2c_dev_of p a) addr ob n).
Proof using.
  intros Hn s b Hwf Hh Hlv Hb. pose proof (u16_le n Hn). pose proof (u16_range n).
  rewrite at24cxx_read_trunc.
  eapply wp_mono; [apply at24cxx_read_ok; [by apply dev_ready_of|lia|lia]|].
  intros r s' [? ?]. split; [done|]. by eapply read_post_ok.
Qed.

Lemma mpu_op a : op_ok t p 14 (Mpu6050.mpu_sample (i2c_dev_of p a)).
Proof using.
  intros s b Hwf Hh Hlv Hb. eapply wp_mono; [apply mpu_sample_ok; [by apply dev_ready_of|lia]|].
  intros r s' [? ?]. split; [done|]. by eapply read_post_ok.
Qed.

Lemma bus_read_own n b s0 s1 r s2 dev : owns dev s0 s1 → bus_read_post n (Some b) s1 r s2 →
  owns dev s0 s2 ∧ tee_status r.1 ∧ ∃ b1, r.2 = Some b1 ∧ blen b1 = blen b.
Proof using.
  intros Ho (He&Hr&Hb&_). split; [by eapply owns_ext|]. split; [done|].
  destruct (r.2) as [b1|]; [|done]. injection Hb as ?. by exists b1.
Qed.

(** Acquire the bus, read, release, as three handlers do. *)
Lemma bus_section_ok a n (rd : option buf → D (Z * option buf)) :
  (∀ s b, d_wf s → i2c_live t (i2c_t (periph_no_to_i2c p)) s → blen b = n → wp t (rd (Some b)) (bus_read_post (u16 n) (Some b) s) s) →
  op_ok t p n (λ ob,
    res ← i2c_acquire (dev_i2c (i2c_dev_of p a));
    if negb (res =? TEE_SUCCESS) then mret (res, ob) else
    '(res, ob) ← rd ob;
    i2c_release (dev_i2c (i2c_dev_of p a));;
    mret (res, ob)).
Proof using.
  intros Hrd s b Hwf Hh Hlv Hb. pose proof (dev_ready_of a s Hwf Hh Hlv) as Hr. wp_steps. acquire_bus.
  2:{ split_and!; auto. by exists b. }
  assert (i2c_live t (dev_i2c (i2c_dev_of p a)) s') by eauto with own.
  eapply wp_mono; [apply Hrd; eauto with own|]. intros [r ob] s2 Hpost.
  eapply bus_read_own in Hpost as (?&?&b1&?&?); [|done]. wp_steps. release_bus.
  split_and!; auto. exists b1. split; [done|]. cbn in *. lia.
Qed.

Lemma i2c_read_op addr n flags : 0 <= n → (t = true → flag flags I2C_ADDR10 = false) → op_ok t p n (λ ob,
    res ← i2c_acquire (i2c_t (periph_no_to_i2c p));
    if negb (res =? TEE_SUCCESS) then mret (res, ob) else
    '(res, ob) ← i2c_read_bytes (i2c_t (periph_no_to_i2c p)) addr ob n flags;
    i2c_release (i2c_t (periph_no_to_i2c p));;
    mret (res, ob)).
Proof using.
  intros Hn H10. apply (bus_section_ok 0 n (λ ob, i2c_read_bytes _ addr ob n flags)).
  intros s b Hwf Hlv Hb. rewrite i2c_read_trunc. pose proof (u16_le n Hn). pose proof (u16_range n).
  apply i2c_read_client; [apply u8_range|done|done|lia| |done]. intros b0 [= <-]. lia.
Qed.

Lemma i2c_read_regs_op addr reg n flags : 0 <= n → flag flags I2C_ADDR10 = false → op_ok t p n (λ ob,
    res ← i2c_acquire (i2c_t (periph_no_to_i2c p));
    if negb (res =? TEE_SUCCESS) then mret (res, ob) else
    '(res, ob) ← i2c_read_regs (i2c_t (periph_no_to_i2c p)) addr reg ob n flags;
    i2c_release (i2c_t (periph_no_to_i2c p));;
    mret (res, ob)).
Proof using.
  intros Hn Hf. apply (bus_section_ok 0 n (λ ob, i2c_read_regs _ addr reg ob n flags)).
  intros s b Hwf Hlv Hb. rewrite i2c_read_regs_trunc. pose proof (u16_le n Hn). pose proof (u16_range n).
  apply i2c_read_regs_client; [apply u8_range|done|done|done|lia|lia].
Qed.

Lemma dht_op dv : op_ok t p 4 (λ ob,
  '(res, _, v) ← dht_read (Some dv);
  mret (res, match v with Some (t, h) => Some (bytes (le 2 t ++ le 2 h)) | None => ob end)).
Proof using.
  intros s b Hwf Hh Hlv Hb. wp_steps. eapply wp_mono; [eapply wp_total, dht_read_spec|].
  intros [[res d'] [[tmp hum]|]] s' (He&Hv); wp_steps; cbn [fst snd].
  - destruct Hv as [-> _]. split_and!; [by apply d_ext_kept|auto|]. eexists. split; [done|].
    unfold blen, bytes. by rewrite length_fmap, length_app, !le_length.
  - destruct Hv. split_and!; [by apply d_ext_kept|done|by eauto].
Qed.

Lemma bh1750_op a : op_ok t p 2 (λ ob,
  '(res, lux) ← Bh1750fvi.bh1750fvi_sample (i2c_dev_of p a);
  mret (res, match lux with Some v => Some (bytes (le 2 v)) | None => ob end)).
Proof using.
  intros s b Hwf Hh Hlv Hb. wp_steps.
  eapply wp_mono; [apply bh1750fvi_sample_ok; by apply dev_ready_of|].
  intros [res [v|]] s' (Hk&Hr&_); wp_steps; cbn [fst snd] in *; split_and!; eauto.
Qed.

Lemma gnss_len_op a : op_ok t p 2 (λ ob,
  '(res, l) ← tel0157_get_gnss_len (tel_of p a);
  mret (res, match l with Some v => Some (bytes (le 2 v)) | None => ob end)).
Proof using.
  intros s b Hwf Hh Hlv Hb. wp_steps.
  eapply wp_mono; [apply tel0157_get_gnss_len_ok; by apply dev_ready_of|].
  intros [res [v|]] s' (Hk&Hr&_); wp_steps; cbn [fst snd] in *; split_and!; eauto.
Qed.

Lemma all_gnss_op a n : 0 <= n → op_ok t p n (λ ob, tel0157_get_all_gnss (tel_of p a) ob (u16 n)).
Proof using.
  intros Hn s b Hwf Hh Hlv Hb. pose proof (u16_le n Hn).
  eapply wp_mono; [apply tel0157_get_all_gnss_ok; [by apply dev_ready_of|apply u16_range|lia]|].
  intros r s' (Hk&Hr&b1&?&?&_). split_and!; auto. exists b1. split; [done|lia].
Qed.

Lemma utc_time_op a : op_ok t p sizeof_time (λ _,
  '(res, t) ← tel0157_get_utc_time (tel_of p a) time_none; mret (res, Some (time_bytes t))).
Proof using.
  intros s b Hwf Hh Hlv Hb. wp_steps.
  eapply wp_mono; [apply tel0157_get_utc_time_ok; by apply dev_ready_of|].
  intros [res tm] s' (Hk&Hr&_). wp_steps. cbn [fst snd]. split_and!; auto. eexists. split; [done|].
  unfold blen, time_bytes. by rewrite !length_app, !le_opt_length.
Qed.

Lemma lon_op a : op_ok t p sizeof_lon_lat (λ _,
  '(res, q) ← tel0157_get_lon (tel_of p a) lon_lat_none; mret (res, Some (lon_lat_bytes q))).
Proof using.
  intros s b Hwf Hh Hlv Hb. wp_steps.
  eapply wp_mono; [apply tel0157_get_lon_ok; by apply dev_ready_of|].
  intros [res q] s' (Hk&Hr&_). wp_steps. split_and!; eauto using lon_lat_blen.
Qed.
Lemma lat_op a : op_ok t p sizeof_lon_lat (λ _,
  '(res, q) ← tel0157_get_lat (tel_of p a) lon_lat_none; mret (res, Some (lon_lat_bytes q))).
Proof using.
  intros s b Hwf Hh Hlv Hb. wp_steps.
  eapply wp_mono; [apply tel0157_get_lat_ok; by apply dev_ready_of|].
  intros [res q] s' (Hk&Hr&_). wp_steps. split_and!; eauto using lon_lat_blen.
Qed.

(** The register getters of the GNSS module. *)
Lemma getter_op a reg n : 0 <= n < 2 ^ 16 → op_ok t p n (λ ob,
  with_bus (tel_of p a) ob (tel_rregs (tel_of p a) reg ob n)).
Proof using.
  intros Hn s b Hwf Hh Hlv Hb. eapply wp_mono; [apply reg_getter_ok; [by apply dev_ready_of|done|lia]|].
  intros r s' [? ?]. split; [done|]. by eapply read_post_ok.
Qed.

Lemma upload_op a : op_ok t p Atk301.ATK301_FINGERPRINT_IMAGE_DATA_LEN (λ ob,
  '(res, b) ← Atk301.atk301_upload_fingerprint_image (i2c_dev_of p a) (default [] ob);
  mret (res, Some b)).
Proof using.
  intros s b Hwf Hh Hlv Hb. wp_steps. change (default [] (Some b)) with b.
  eapply wp_mono; [apply atk301_upload_ok; [by apply dev_ready_of|lia]|].
  intros [res b1] s' (Hk&Hr&Hl&_). wp_steps. cbn [fst snd] in *. split_and!; auto.
  exists b1. split; [done|lia].
Qed.

(** The one handler that does not test its allocation relies on the driver
    to refuse the null pointer. *)
Lemma mpu_null a s : d_wf s → d_held s = ∅ → hw_live t p s →
  wp t (Mpu6050.mpu_sample (i2c_dev_of p a) None)
    (λ r s', kept s s' ∧ tee_status r.1 ∧ r.1 ≠ TEE_SUCCESS ∧ r.2 = None) s.
Proof using.
  intros Hwf Hh Hlv. pose proof (dev_ready_of a s Hwf Hh Hlv) as Hr. unfold Mpu6050.mpu_sample. wp_steps.
  acquire_bus; [|by split_and!; auto].
  apply (wp_for _ _ _ (λ j '(_, ob) s2, j = 0 ∧ ob = None ∧ owns (dev_i2c (i2c_dev_of p a)) s s2)).
  2:{ intros [r ob] s2 (Hj&_). lia. }
  2:{ by split_and!. }
  intros j [r ob] s2 Hj (->&->&Ho). wp_steps. unfold Mpu6050.read_reg_at. cbn [Z.eqb].
  unfold i2c_read_reg, i2c_read_regs. change (flag 0 I2C_REG16) with false.
  change (Z.to_nat (u16 1)) with 1%nat. cbn [for_]. wp_steps.
  eapply wp_mono; [apply own_write_byte; eauto|]. intros r2 s3 [Ho3 Hr2]. wp_steps.
  on_status r2.
  2:{ rewrite (proj2 (Z.eqb_neq r2 _)) by done. cbn [negb]. wp_steps. release_bus. by split_and!. }
  unfold i2c_read_at. cbn [Z.eqb i2c_read_bytes]. wp_steps.
  change (TEE_ERROR_BAD_PARAMETERS =? TEE_SUCCESS) with false. cbn [negb]. wp_steps.
  change (TEE_ERROR_BAD_PARAMETERS =? TEE_SUCCESS) with false. cbn [negb]. wp_steps.
  release_bus. by split_and!; auto.
Qed.
End ops.

(** ** Requests whose parameters have the shape of their kind *)

Definition is_value (q : TEE_Param) : Prop :=
  match q with Value a b => 0 <= a < 2 ^ 32 ∧ 0 <= b < 2 ^ 32 | _ => False end.
Definition snd_of (q : TEE_Param) : Z := match q with Value _ b => b | Memref _ n => n end.

(** A memory reference to a live block that holds the client's bytes. *)
Definition is_memref (heap : gmap Z buf) (q : TEE_Param) : Prop :=
  match q with
  | Memref (Blk id) n => ∃ data, heap !! id = Some (bytes data) ∧ n = Z.of_nat (length data)
      ∧ n < 2 ^ 32 ∧ Forall (λ x, 0 <= x < 2 ^ 8) data
  | _ => False
  end.

Definition req_ok (heap : gmap Z buf) (req : io_req_t) : Prop :=
  match rq_params req with
  | [q0; q1; q2] =>
    match rq_type req with
    | I2C_WRITE_BYTES => is_memref heap q0 ∧ is_value q1 ∧ flag (u8 (snd_of q1)) I2C_ADDR10 = false
    | AT24CXX_WRITE => is_memref heap q0 ∧ is_value q1 ∧ snd_of q0 < 2 ^ 16 - 2
    | SPI_TRANSFER_BYTES => is_memref heap q0 ∧ is_value q1 ∧ is_value q2
        ∧ 0 < snd_of q0 ∧ (snd_of q2 = 0 ∨ snd_of q0 <= snd_of q2)
    | WRITE_SECURE_OBJECT => is_memref heap q0 ∧ is_memref heap q1 ∧ NoDup (req_blocks req)
    | READ_SECURE_OBJECT => is_memref heap q0
    | I2C_READ_REGS => is_value q0 ∧ is_value q1 ∧ is_value q2
        ∧ flag (u8 (snd_of q1)) I2C_ADDR10 = false
    | SPI_TRANSFER_BYTE | SPI_TRANSFER_DIFF_BYTES | I2C_WRITE_REGS | BME280_SAMPLE
    | BME280_GET_CALIBRATION | REQ_TYPE_NONE | REQ_other _ => True
    | _ => is_value q0 ∧ is_value q1 ∧ is_value q2
    end
  | _ => False
  end.

Section params.
Context (req : io_req_t).
Lemma wp_value_a t i a b Q k : 0 <= i → rq_params req !! Z.to_nat i = Some (Value a b) →
  Q a k → wp t (value_a req i) Q k.
Proof. intros. unfold value_a. wp_steps. by eapply wp_arr_get. Qed.
Lemma wp_value_b t i a b Q k : 0 <= i → rq_params req !! Z.to_nat i = Some (Value a b) →
  Q b k → wp t (value_b req i) Q k.
Proof. intros. unfold value_b. wp_steps. by eapply wp_arr_get. Qed.
Lemma wp_memref_buffer t i q n Q k : 0 <= i → rq_params req !! Z.to_nat i = Some (Memref q n) →
  Q q k → wp t (memref_buffer req i) Q k.
Proof. intros. unfold memref_buffer. wp_steps. by eapply wp_arr_get. Qed.
Lemma wp_memref_size t i q n Q k : 0 <= i → rq_params req !! Z.to_nat i = Some (Memref q n) →
  Q n k → wp t (memref_size req i) Q k.
Proof. intros. unfold memref_size. wp_steps. by eapply wp_arr_get. Qed.
End params.

(** Reads the parameters of a request given as a literal list. *)
Ltac get_param :=
  repeat (wp_step || (eapply wp_value_a; [lia|reflexivity|]) || (eapply wp_value_b; [lia|reflexivity|])
          || (eapply wp_memref_buffer; [lia|reflexivity|])
          || (eapply wp_memref_size; [lia|reflexivity|])).

(** A state in which the request's own blocks may be gone and nothing is new. *)
Lemma post_dropped k p req d h e :
  handler_pre k p req → kept (k_d k) d → h ⊆ k_heap k →
  (∀ id, id ∉ req_blocks req → h !! id = k_heap k !! id) →
  entry_ok h e → entry_block e = None → se_polls e = se_polls (entry_at k p (rq_signo req)) →
  handler_post k p req (set_k_d d (set_k_heap h (set_entry p (rq_signo req) e k))).
Proof.
  intros (Hk&[Hf Hh]&Hp&Hs) Hd Hsub Hsame He Hb Hq. exists e.
  assert (∀ id b, h !! id = Some b → 0 < id < k_fresh k) as Hh'.
  { intros id b Hx. eapply Hh. eapply lookup_weaken; [exact Hx|done]. }
  split_and!; cbn; try done.
  - by intros id _ ?; apply Hsame.
  - by rewrite Hb.
  - intros id Hge [b Hx]. apply Hh' in Hx. lia.
Qed.

Lemma drop_sub (id : Z) (h : gmap Z buf) : delete id h ⊆ h.
Proof. apply delete_subseteq. Qed.
Lemma finish_entry_ok h r q : entry_ok h (SigEntry r Null 0 q).
Proof. right. by left. Qed.
Lemma finish_entry_block r q : entry_block (SigEntry r Null 0 q) = None.
Proof. unfold entry_block; cbn. by rewrite orb_true_r. Qed.
Lemma fail_entry_ok h r b n q : r < 0 → entry_ok h (SigEntry r b n q).
Proof. by left. Qed.


(** The request's block is freed and only a status is recorded. *)
Lemma post_finish k p req d id r : handler_pre k p req → kept (k_d k) d → id ∈ req_blocks req →
  handler_post k p req (set_k_heap (delete id (k_heap k))
    (set_entry p (rq_signo req) (SigEntry r Null 0 (se_polls (entry_at k p (rq_signo req))))
       (set_k_d d k))).
Proof.
  intros Hpre Hd Hin.
  set (h := delete id (k_heap k)). set (e := SigEntry r Null 0 _).
  assert (set_k_heap h (set_entry p (rq_signo req) e (set_k_d d k))
          = set_k_d d (set_k_heap h (set_entry p (rq_signo req) e k))) as -> by reflexivity.
  apply post_dropped; try done.
  - apply delete_subseteq.
  - intros id' Hni. unfold h. rewrite lookup_delete_ne; [done|]. by intros ->.
  - apply finish_entry_ok.
  - apply finish_entry_block.
Qed.

Section handlers.
Context `{Env, Storage} (t : bool) (k : kstate) (p : Z).

Lemma take_u16 (data : list Z) n : n = Z.of_nat (length data) →
  Z.of_nat (length (take (Z.to_nat (u16 n)) data)) = u16 n.
Proof using. intros ->. rewrite length_take. pose proof (u16_le (Z.of_nat (length data))). lia. Qed.

Lemma handle_i2c_write_ok ty s q0 q1 q2 :
  let req := IoReq ty s [q0; q1; q2] in
  hw_live t p (k_d k) →
  handler_pre k p req → is_memref (k_heap k) q0 → is_value q1 →
  flag (u8 (snd_of q1)) I2C_ADDR10 = false →
  wp t (handle_i2c_write_bytes req p) (λ _ k', handler_post k p req k') k.
Proof using.
  intros req Hlv Hpre Hm Hv Hfl. destruct q1 as [addr fl|]; [|done].
  destruct q0 as [|[| id |] n]; try done. destruct Hm as (data&Hid&Hn&Hlt&Hb).
  pose proof Hpre as (Hk&Hh&Hp&Hs). pose proof Hk as (_&_&_&_&Ht&_&_&_&_&_&Hwf&Hheld).
  pose proof (dev_ready_of t p addr (k_d k) Hwf Hheld Hlv) as Hr.
  change (i2c_t (periph_no_to_i2c p)) with (dev_i2c (i2c_dev_of p addr)) in Hr.
  unfold handle_i2c_write_bytes. wp_steps. apply wp_zoom.
  set (dev := i2c_t (periph_no_to_i2c p)) in *.
  eapply wp_mono; [apply (i2c_acquire_owns dev); [by eapply dev_ready_free in Hr|done]|].
  intros r d1 [(->&Hdev&Ho)|(->&_&->)]; cbn [Z.eqb negb].
  2:{ change (TEE_ERROR_BAD_PARAMETERS =? TEE_SUCCESS) with false. cbn [negb].
      eapply wp_mono; [apply fail_spec; done|]. intros ? ? [-> ->].
      refine (post_entry k p req (k_d k) (k_fresh k) _ Hpre _ _ _ _ _); try done; try lia.
      by left. }
  rewrite Z.eqb_refl. cbn [negb]. get_param.
  eapply wp_mono; [eapply load_spec; exact Hid|]. intros ? ? [-> ->]. wp_steps. apply wp_zoom.
  rewrite i2c_write_trunc.
  eapply wp_mono; [apply (i2c_write_client t dev) with (data := take (Z.to_nat (u16 n)) data)|].
  { apply u8_range. }
  { cbn. eapply owns_wf; eauto. }
  { cbn. eapply (dev_ready_live t (i2c_dev_of p addr)); eauto. }
  { done. }
  { apply u16_range. }
  { symmetry. by apply take_u16. }
  { unfold bytes. rewrite length_take, <- fmap_take. f_equal. rewrite Hn. 
    pose proof (u16_le (Z.of_nat (length data))). rewrite Nat.min_l by lia. done. }
  { by apply Forall_take. }
  intros r d2 [He Hst]. wp_steps. apply wp_zoom.
  eapply wp_mono; [eapply (i2c_release_owns dev _ (k_d k)); [by eapply dev_ready_free in Hr|done|by eapply owns_ext]|].
  intros ? d3 [-> Hkept]. wp_steps. eapply wp_mono; [apply finish_spec; done|]. intros ? ? ->. wp_steps.
  eapply wp_mono; [eapply free_spec; exact Hid|]. intros ? ? ->. wp_steps.
  apply (post_finish k p req d3 id); [done|done|by left].
Qed.

Lemma handle_at24cxx_write_ok ty s q0 q1 q2 :
  let req := IoReq ty s [q0; q1; q2] in
  hw_live t p (k_d k) →
  handler_pre k p req → is_memref (k_heap k) q0 → is_value q1 → snd_of q0 < 2 ^ 16 - 2 →
  wp t (handle_at24cxx_write req p) (λ _ k', handler_post k p req k') k.
Proof using.
  intros req Hlv Hpre Hm Hv Hlen. destruct q1 as [a addr|]; [|done].
  destruct q0 as [|[| id |] n]; try done. destruct Hm as (data&Hid&Hn&Hlt&Hb).
  pose proof Hpre as (Hk&Hh&Hp&Hs). pose proof Hk as (_&_&_&_&Ht&_&_&_&_&_&Hwf&Hheld).
  unfold handle_at24cxx_write. get_param.
  eapply wp_mono; [eapply load_spec; exact Hid|]. intros ? ? [-> ->]. wp_steps. apply wp_zoom.
  cbn in Hlen. rewrite u32_id, Hn by lia.
  eapply wp_mono; [apply (at24cxx_write_ok t _ _ (bytes data) data); [by apply dev_ready_of|done| |lia]|].
  { unfold bytes. by rewrite take_ge by (rewrite length_fmap; lia). }
  intros r d [Hd Hst]. wp_steps. eapply wp_mono; [apply finish_spec; done|]. intros ? ? ->. wp_steps.
  eapply wp_mono; [eapply free_spec; exact Hid|]. intros ? ? ->. wp_steps.
  apply (post_finish k p req d id); [done|done|by left].
Qed.

Lemma post_status req d r : handler_pre k p req → kept (k_d k) d →
  handler_post k p req (set_entry p (rq_signo req)
    (SigEntry r Null 0 (se_polls (entry_at k p (rq_signo req)))) (set_k_d d k)).
Proof using.
  intros Hpre Hd. set (e := SigEntry r Null 0 _).
  assert (set_entry p (rq_signo req) e (set_k_d d k)
    = set_k_d d (set_k_fresh (k_fresh k) (set_entry p (rq_signo req) e k))) as -> by reflexivity.
  apply post_entry; try done; [apply finish_entry_ok|apply finish_entry_block].
Qed.

Lemma post_failed req d f r : handler_pre k p req → kept (k_d k) d → k_fresh k <= f →
  tee_status r → r ≠ TEE_SUCCESS →
  let e := entry_at k p (rq_signo req) in
  handler_post k p req (set_entry p (rq_signo req)
    (SigEntry (i32 r) (se_buf e) (se_len e) (se_polls e)) (set_k_d d (set_k_fresh f k))).
Proof using.
  intros Hpre Hd Hf Hr Hne e0. set (e := SigEntry _ _ _ _).
  assert (set_entry p (rq_signo req) e (set_k_d d (set_k_fresh f k))
    = set_k_d d (set_k_fresh f (set_entry p (rq_signo req) e k))) as -> by reflexivity.
  pose proof (status_neg _ Hr Hne).
  apply post_entry; try done; [by left|by apply entry_block_neg].
Qed.

Lemma handle_atk301_get_ok ty s q0 q1 q2 :
  let req := IoReq ty s [q0; q1; q2] in
  hw_live t p (k_d k) →
  handler_pre k p req → is_value q0 →
  wp t (handle_atk301_get_fingerprint_image req p) (λ _ k', handler_post k p req k') k.
Proof using.
  intros req Hlv Hpre Hv. destruct q0 as [a b|]; [|done].
  pose proof Hpre as (Hk&Hh&Hp&Hs). pose proof Hk as (_&_&_&_&Ht&_&_&_&_&_&Hwf&Hheld).
  unfold handle_atk301_get_fingerprint_image. get_param. apply wp_zoom.
  eapply wp_mono; [apply atk301_get_fingerprint_image_ok; by apply dev_ready_of|].
  intros r d [Hd Hst]. wp_steps. eapply wp_mono; [apply finish_spec; done|]. intros ? ? ->.
  wp_steps. by apply (post_status req d).
Qed.

Lemma handle_mpu6050_ok ty s q0 q1 q2 :
  let req := IoReq ty s [q0; q1; q2] in
  hw_live t p (k_d k) →
  handler_pre k p req → is_value q0 →
  wp t (handle_mpu6050_sample req p) (λ _ k', handler_post k p req k') k.
Proof using.
  intros req Hlv Hpre Hv. destruct q0 as [a b|]; [|done].
  pose proof Hpre as (Hk&Hh&Hp&Hs). pose proof Hk as (_&_&_&_&Ht&_&_&_&_&_&Hwf&Hheld).
  unfold handle_mpu6050_sample. get_param.
  pose proof (handle_alloc_ok t k p req Hpre 14 TEE_ERROR_BAD_STATE
    (Mpu6050.mpu_sample (i2c_dev_of p a)) Hlv ltac:(lia) ltac:(auto) ltac:(done) (mpu_op t p a)) as Hal.
  unfold handle_alloc in Hal. apply wp_bind_inv in Hal.
  eapply wp_mono; [apply wp_and; [apply malloc_spec|exact Hal]|].
  intros b0 k1 [(ok&->&->) Hrun]. destruct ok; [exact Hrun|]. unfold run_into. wp_steps.
  unfold wp at 1, load. wp_steps. apply wp_zoom.
  eapply wp_mono; [apply mpu_null; [exact Hwf|exact Hheld|by eapply hw_live_kept; [apply d_ext_kept, d_ext_log|]]|].
  intros [r ob] d (Hd&Hr&Hne&Hob). cbn [fst snd] in *. subst ob. wp_steps.
  unfold wp at 1, store. wp_steps. rewrite (proj2 (Z.eqb_neq r _)) by done. cbn [negb]. wp_steps.
  unfold wp at 1, free. eapply wp_mono; [apply fail_spec; done|]. intros ? ? [-> ->].
  apply (post_failed req d (k_fresh k)); auto; [|lia]. etrans; [apply d_ext_kept, d_ext_log|exact Hd].
Qed.

(** ** SPI *)

Lemma post_make req d h f e k' :
  k' = set_k_d d (set_k_heap h (set_k_fresh f (set_entry p (rq_signo req) e k))) →
  handler_pre k p req → kept (k_d k) d → k_fresh k <= f →
  (∀ id b, h !! id = Some b → 0 < id < f) →
  (∀ id, id < k_fresh k → id ∉ req_blocks req → h !! id = k_heap k !! id) →
  entry_ok h e → (∀ id, entry_block e = Some id → k_fresh k <= id) →
  (∀ id, k_fresh k <= id → is_Some (h !! id) → se_buf e = Blk id ∧ 0 <= se_len e) →
  se_polls e = se_polls (entry_at k p (rq_signo req)) →
  handler_post k p req k'.
Proof using.
  intros -> (_&[Hf _]&_) Hd Hle Hh Hsame He Hb Hn Hq. exists e. split_and!; try done.
  split; cbn; [lia|done].
Qed.

(** The read buffer of an exchange: none, or the block just allocated. *)
Definition spi_buffer (rlen : Z) (b : ptr) (kk : kstate) : Prop :=
  (rlen = 0 ∧ b = Null ∧ kk = k)
  ∨ (0 < rlen ∧ b = Blk (k_fresh k) ∧ kk = after_malloc rlen true k).

(** The state of a transfer: the history and the read buffer have moved on. *)
Definition spi_mid (rlen : Z) (b : ptr) (d : dstate) (ob : option buf) : kstate :=
  match b, ob with
  | Blk _, Some bb => set_k_d d (set_k_heap (<[k_fresh k := bb]> (k_heap k))
                                   (set_k_fresh (k_fresh k + 1) k))
  | _, _ => set_k_d d k
  end.

Definition spi_ob (rlen : Z) (b : ptr) (ob : option buf) : Prop :=
  (rlen = 0 ∧ b = Null ∧ ob = None)
  ∨ (0 < rlen ∧ b = Blk (k_fresh k) ∧ ∃ bb, ob = Some bb ∧ blen bb = rlen).

Lemma spi_mid_kept rlen b d ob : k_d (spi_mid rlen b d ob) = d.
Proof using. by destruct b, ob. Qed.
Lemma spi_mid_table rlen b d ob : k_table (spi_mid rlen b d ob) = k_table k.
Proof using. by destruct b, ob. Qed.
Lemma spi_mid_old rlen b d ob id : heap_ok k → spi_ob rlen b ob → is_Some (k_heap k !! id) →
  k_heap (spi_mid rlen b d ob) !! id = k_heap k !! id.
Proof using.
  intros [_ Hh] Hob [x Hx]. destruct Hob as [(_&->&->)|(_&->&bb&->&_)]; [done|]. cbn.
  rewrite lookup_insert_ne; [done|]. apply Hh in Hx. lia.
Qed.

(** Giving back both buffers after an error. *)
Lemma spi_abort req id n rlen b d ob r q1 q2 ty s : 
  req = IoReq ty s [Memref (Blk id) n; q1; q2] →
  handler_pre k p req → is_Some (k_heap k !! id) → kept (k_d k) d →
  spi_ob rlen b ob → tee_status r → r ≠ TEE_SUCCESS →
  wp t (free (Blk id);; free b;; fail p req r) (λ _ k', handler_post k p req k')
    (spi_mid rlen b d ob).
Proof using.
  intros -> Hpre [x Hx] Hd Hob Hr Hne. pose proof Hpre as (Hk&[Hf Hh]&Hp&Hs).
  pose proof Hk as (_&_&_&_&Ht&_). pose proof (status_neg _ Hr Hne). pose proof (Hh _ _ Hx).
  wp_steps. eapply wp_mono; [eapply free_spec; rewrite (spi_mid_old rlen); eauto; by split|].
  intros ? ? ->. wp_steps.
  destruct Hob as [(_&->&->)|(_&->&bb&->&_)]; cbn [spi_mid].
  - unfold wp at 1, free. eapply wp_mono; [apply fail_spec; done|]. intros ? ? [-> ->].
    eapply (post_make _ d (delete id (k_heap k)) (k_fresh k)); [reflexivity|..]; try done.
    + intros id' b' [_ Hx']%lookup_delete_Some. eauto.
    + intros id' Hlt Hni. rewrite lookup_delete_ne; [done|]. intros ->. apply Hni. by left.
    + by left.
    + intros id'. by rewrite entry_block_neg.
    + intros id' Hge [b' [_ Hx']%lookup_delete_Some]. apply Hh in Hx'. lia.
  - eapply wp_mono; [eapply free_spec; cbn; rewrite lookup_delete_ne, lookup_insert_eq by lia; done|].
    intros ? ? ->. eapply wp_mono; [apply fail_spec; done|]. intros ? ? [-> ->].
    eapply (post_make _ d (delete (k_fresh k) (delete id (<[k_fresh k := bb]> (k_heap k))))
             (k_fresh k + 1)); [reflexivity|..]; try done; try lia.
    + intros id' b' [? [? Hx']%lookup_delete_Some]%lookup_delete_Some.
      rewrite lookup_insert_ne in Hx' by done. apply Hh in Hx'. lia.
    + intros id' Hlt Hni. rewrite lookup_delete_ne by lia. rewrite lookup_delete_ne.
      * rewrite lookup_insert_ne by lia. done.
      * intros ->. apply Hni. by left.
    + by left.
    + intros id'. by rewrite entry_block_neg.
    + intros id' Hge [b' Hx']. apply lookup_delete_Some in Hx' as [? [? Hx']%lookup_delete_Some].
      rewrite lookup_insert_ne in Hx' by done. apply Hh in Hx'. lia.
Qed.

(** Publishing the read buffer and giving back the write buffer. *)
Lemma spi_commit req id n rlen b d ob q1 q2 ty s :
  req = IoReq ty s [Memref (Blk id) n; q1; q2] →
  handler_pre k p req → is_Some (k_heap k !! id) → kept (k_d k) d →
  spi_ob rlen b ob → 0 <= rlen < 2 ^ 32 →
  wp t (succeed p req rlen b;; free (Blk id);; mret TEE_SUCCESS)
    (λ _ k', handler_post k p req k') (spi_mid rlen b d ob).
Proof using.
  intros -> Hpre [x Hx] Hd Hob Hrl. pose proof Hpre as (Hk&[Hf Hh]&Hp&Hs).
  pose proof Hk as (_&_&_&_&Ht&_). pose proof (Hh _ _ Hx). wp_steps.
  eapply wp_mono; [apply succeed_spec; [|done|done]|].
  { unfold table_ok. by rewrite spi_mid_table. }
  intros ? ? [-> ->]. wp_steps.
  eapply wp_mono; [eapply free_spec; etrans; [apply (spi_mid_old rlen b d ob); [by split|done|by eauto]|exact Hx]|].
  intros ? ? ->. wp_steps.
  destruct Hob as [(->&->&->)|(Hpos&->&bb&->&Hbb)]; cbn [spi_mid].
  - apply (post_make (IoReq ty s _) d (delete id (k_heap k)) (k_fresh k)
      (SigEntry (i32 0) Null (u32 0) (se_polls (entry_at k p s)))); [reflexivity|..]; try done.
    + intros id' b' [_ Hx']%lookup_delete_Some. eauto.
    + intros id' Hlt Hni. rewrite lookup_delete_ne; [done|]. intros ->. apply Hni. by left.
    + right. by left.
    + intros id' Hge [b' [_ Hx']%lookup_delete_Some]. apply Hh in Hx'. lia.
  - apply (post_make (IoReq ty s _) d (delete id (<[k_fresh k := bb]> (k_heap k))) (k_fresh k + 1)
      (SigEntry (i32 rlen) (Blk (k_fresh k)) (u32 rlen) (se_polls (entry_at k p s))));
      [reflexivity|..]; try done; try lia.
    + intros id' b' [? Hx']%lookup_delete_Some.
      apply lookup_insert_Some in Hx' as [[<- _]|[? Hx']]; [lia|]. apply Hh in Hx'. lia.
    + intros id' Hlt Hni. rewrite lookup_delete_ne.
      * rewrite lookup_insert_ne by lia. done.
      * intros ->. apply Hni. by left.
    + do 2 right. exists (k_fresh k), bb. cbn. rewrite lookup_delete_ne, lookup_insert_eq by lia.
      rewrite u32_id by lia. done.
    + intros id'. unfold entry_block; cbn. destruct (_ || _); [done|]. intros [= <-]. lia.
    + intros id' Hge [b' Hx']. apply lookup_delete_Some in Hx' as [? Hx'].
      apply lookup_insert_Some in Hx' as [[<- _]|[? Hx']].
      * split; [done|]. apply u32_range.
      * apply Hh in Hx'. lia.
Qed.

(** The three calls of [spi_transfer_bytes], seen on the state. *)
Lemma spi_call_ok cs cont data rlen b d ob n s0 :
  d_wf d → k_heap k !! s0 = Some (bytes data) → heap_ok k → spi_ob rlen b ob →
  n = Z.of_nat (length data) → n < 2 ^ 32 → Forall (λ x, 0 <= x < 2 ^ 8) data →
  0 < n → (rlen = 0 ∨ n <= rlen) →
  (t = true → spi_ready (spi_addr d SPI_CS) n) →
  wp t
    (if rlen =? 0 then
       out ← load (Blk s0);
       '(res, _) ← lift (spi_transfer_bytes 0 cs cont out None n);
       mret res
     else if n =? 0 then
       ib ← load b;
       '(res, ib) ← lift (spi_transfer_bytes 0 cs cont None ib rlen);
       store b ib;; mret res
     else
       out ← load (Blk s0);
       ib ← load b;
       '(res, ib) ← lift (spi_transfer_bytes 0 cs cont out ib n);
       store b ib;; mret res)
    (λ r k', tee_status r ∧ ∃ d' ob', d_ext d d' ∧ spi_ob rlen b ob' ∧ k' = spi_mid rlen b d' ob')
    (spi_mid rlen b d ob).
Proof using.
  intros Hwf Hx Hh Hob Hn Hlt Hb Hpos Hle Hrdy.
  assert (take (length data) (bytes data) = bytes data) as Htk.
  { unfold bytes. by rewrite take_ge by (rewrite length_fmap; lia). }
  assert (∀ o, spi_ob rlen b o → k_heap (spi_mid rlen b d o) !! s0 = Some (bytes data)) as Hold.
  { intros o Ho. rewrite (spi_mid_old rlen b d o); eauto. }
  destruct (Z.eqb_spec rlen 0) as [->|Hrl].
  - destruct Hob as [(_&->&->)|(?&_)]; [|lia]. wp_steps.
    eapply wp_mono; [eapply load_spec, (Hold None); by left|]. intros ? ? [-> ->]. wp_steps.
    apply wp_zoom.
    eapply wp_mono; [apply (spi_transfer_bytes_spec t) with (data := data) (n_in := 0)|].
    { done. }
    { split_and!; auto; lia. }
    { intros Ht. specialize (Hrdy Ht). by rewrite <- Hn, Z.max_l by lia. }
    intros [r ob] d' (He&_&Hr&_). cbn [fst] in Hr. wp_steps. split; [destruct Hr as [-> | ->]; auto|].
    exists d', None. split_and!; [done|by left|done].
  - rewrite (proj2 (Z.eqb_neq n 0)) by lia.
    destruct Hob as [(?&_)|(?&->&bb&->&Hbb)]; [lia|]. destruct Hle as [?|Hle]; [lia|]. wp_steps.
    eapply wp_mono; [eapply load_spec, (Hold (Some bb)); right; by eauto|].
    intros ? ? [-> ->]. wp_steps.
    eapply wp_mono; [eapply load_spec; cbn; by rewrite lookup_insert_eq|].
    intros ? ? [-> ->]. wp_steps. apply wp_zoom.
    eapply wp_mono; [apply (spi_transfer_bytes_spec t) with (data := data) (n_in := n)|].
    { done. }
    { split_and!; auto; lia. }
    { intros Ht. specialize (Hrdy Ht). by rewrite <- Hn, Z.max_l by lia. }
    intros [r ob] d' (He&_&Hr&sent&got&Hg&_&_&Hob&_). cbn [fst snd fmap option_fmap option_map] in *.
    subst ob. wp_steps. eapply wp_mono; [eapply store_spec; cbn; by rewrite lookup_insert_eq|].
    intros ? ? ->. wp_steps. split; [destruct Hr as [-> | ->]; auto|].
    exists d', (Some (bytes got ++ drop (length got) bb)). split_and!; [done| |].
    + right. split_and!; auto. eexists. split; [done|]. unfold blen, bytes in *.
      rewrite length_app, length_fmap, length_drop. lia.
    + cbn. by rewrite insert_insert_eq.
Qed.

Lemma after_malloc_mid rlen : 0 < rlen →
  after_malloc rlen true k
  = spi_mid rlen (Blk (k_fresh k)) (d_log (E_malloc rlen true) (k_d k)) (Some (uninit rlen)).
Proof using. done. Qed.

Lemma spi_bus_bad : spi_t (periph_no_to_spi p) ≠ 0 → SPI_NUM <= spi_t (periph_no_to_spi p).
Proof using. pose proof (u8_range (periph_no_to_spi p)). unfold spi_t, SPI_NUM. lia. Qed.

(** From the acquisition of the bus to the end of the handler. *)
Lemma spi_run_ok ty s id n cs cont q2 mode freq rlen b d ob data :
  let req := IoReq ty s [Memref (Blk id) n; Value cs cont; q2] in
  handler_pre k p req → kept (k_d k) d → spi_ob rlen b ob → 0 <= rlen < 2 ^ 32 →
  k_heap k !! id = Some (bytes data) → n = Z.of_nat (length data) → n < 2 ^ 32 →
  Forall (λ x, 0 <= x < 2 ^ 8) data → 0 < n → (rlen = 0 ∨ n <= rlen) →
  hw_live t p d → (t = true → n + 1 < Z.of_nat env_fuel) →
  let spi := spi_t (periph_no_to_spi p) in
  wp t
   (res ← lift (spi_acquire spi (spi_cs_t cs) mode freq);
    if negb (res =? TEE_SUCCESS) then
      set_ret p (rq_signo req) res;; free b;; mret res
    else
    wb ← memref_buffer req 0;
    wlen ← memref_size req 0;
    res ← (if rlen =? 0 then
             out ← load wb;
             '(res, _) ← lift (spi_transfer_bytes spi (spi_cs_t cs) (truth cont) out None wlen);
             mret res
           else if wlen =? 0 then
             ib ← load b;
             '(res, ib) ← lift (spi_transfer_bytes spi (spi_cs_t cs) (truth cont) None ib rlen);
             store b ib;; mret res
           else
             out ← load wb;
             ib ← load b;
             '(res, ib) ← lift (spi_transfer_bytes spi (spi_cs_t cs) (truth cont) out ib wlen);
             store b ib;; mret res);
    lift (spi_release spi);;
    if negb (res =? TEE_SUCCESS) then free wb;; free b;; fail p req res
    else succeed p req rlen b;; free wb;; mret TEE_SUCCESS)
    (λ _ k', handler_post k p req k') (spi_mid rlen b d ob).
Proof using.
  intros req Hpre Hd Hob Hrl Hx Hn Hlt Hb Hpos Hle Hlv Hfuel spi.
  pose proof Hpre as (Hk&Hh&Hp&Hs). pose proof Hk as (_&_&_&_&Ht&_&_&_&_&_&Hwf&Hheld).
  assert (d_wf d) as Hwfd by (by eapply kept_wf).
  assert (d_held d = ∅) as Hheldd by (destruct Hd as [_ ->]; done).
  assert (table_ok (spi_mid rlen b d ob)) as Htm by (unfold table_ok; by rewrite spi_mid_table).
  wp_steps. apply wp_zoom. rewrite spi_mid_kept.
  destruct (decide (spi = 0 ∧ spi_cs_t cs < SPI_CS_NUM)) as [[E Hcs]|Hbad].
  - rewrite E.
    eapply wp_mono; [apply spi_acquire_spec; [split; [apply u8_range|done]|done|rewrite Hheldd; set_solver]|].
    intros ? d1 [-> Ho]. rewrite Z.eqb_refl. cbn [negb]. get_param.
    assert (set_k_d d1 (spi_mid rlen b d ob) = spi_mid rlen b d1 ob) as -> by by destruct b, ob.
    assert (t = true → spi_ready (spi_addr d1 SPI_CS) n) as Hrdy.
    { intros Hti. destruct Ho as [Hfr _]. apply (hw_live_frame t p d d1 Hfr) in Hlv as [_ Hsp].
      split; [by apply Hsp|by apply Hfuel]. }
    eapply wp_mono; [eapply (spi_call_ok (spi_cs_t cs)); eauto using spi_owns_wf|].
    intros r ? (Hr&d2&ob2&He&Hob2&->). wp_steps. apply wp_zoom. rewrite spi_mid_kept.
    eapply wp_mono; [eapply (spi_release_spec _ d); [rewrite Hheldd; set_solver|by eapply spi_owns_ext]|].
    intros ? d3 [-> Hd3].
    assert (set_k_d d3 (spi_mid rlen b d2 ob2) = spi_mid rlen b d3 ob2) as -> by by destruct b, ob2.
    assert (kept (k_d k) d3) by (by etrans). wp_steps.
    destruct (Z.eqb_spec r TEE_SUCCESS) as [->|Hne]; cbn [negb].
    + eapply spi_commit; eauto.
    + eapply spi_abort; eauto.
  - assert (SPI_NUM <= spi ∨ SPI_CS_NUM <= spi_cs_t cs) as Hbad'.
    { destruct (decide (spi = 0)) as [E|]; [|left; by apply spi_bus_bad]. right. lia. }
    unfold wp at 1. rewrite spi_acquire_bad by done.
    change (TEE_ERROR_BAD_PARAMETERS =? TEE_SUCCESS) with false. cbn [negb]. wp_steps.
    assert (set_k_d d (spi_mid rlen b d ob) = spi_mid rlen b d ob) as -> by by destruct b, ob.
    eapply wp_mono; [by apply set_ret_spec|]. intros ? ? ->. wp_steps.
    destruct Hob as [(->&->&->)|(Hpos'&->&bb&->&Hbb)].
    + unfold wp at 1, free. wp_steps.
      apply (post_failed req d (k_fresh k)); try done; auto.
    + eapply wp_mono; [eapply free_spec; cbn; by rewrite lookup_insert_eq|]. intros ? ? ->. wp_steps.
      cbn. rewrite delete_insert_eq, delete_id by by apply heap_fresh.
      apply (post_failed req d (k_fresh k + 1)); try done; auto. lia.
Qed.

Lemma handle_spi_ok ty s q0 q1 q2 :
  let req := IoReq ty s [q0; q1; q2] in
  hw_live t p (k_d k) →
  handler_pre k p req → is_memref (k_heap k) q0 → is_value q1 → is_value q2 →
  0 < snd_of q0 → (snd_of q2 = 0 ∨ snd_of q0 <= snd_of q2) →
  (t = true → snd_of q0 + 1 < Z.of_nat env_fuel) →
  wp t (handle_spi_transfer_bytes req p) (λ _ k', handler_post k p req k') k.
Proof using.
  intros req Hlv Hpre Hm Hv1 Hv2 Hpos Hle Hfuel. destruct q1 as [cs cont|]; [|done].
  destruct q2 as [mf rlen|]; [|done]. destruct q0 as [|[| id |] n]; try done.
  destruct Hm as (data&Hid&Hn&Hlt&Hb). cbn in Hpos, Hle, Hv2, Hfuel. destruct Hv2 as [_ Hrl].
  pose proof Hpre as (Hk&Hh&Hp&Hs). pose proof Hk as (_&_&_&_&Ht&_).
  unfold handle_spi_transfer_bytes. get_param.
  destruct (Z.ltb_spec 0 rlen) as [Hpos'|Hz].
  - eapply wp_mono; [apply malloc_spec|]. intros b0 k1 (ok&->&->). destruct ok.
    + rewrite after_malloc_mid by done. cbn [bool_decide andb]. rewrite bool_decide_false by done.
      eapply spi_run_ok; eauto.
      * apply d_ext_kept, d_ext_log.
      * right. split_and!; auto. eexists. split; [done|]. apply blen_uninit. lia.
    + rewrite bool_decide_true by done. cbn [andb].
      eapply wp_mono; [by apply fail_spec|]. intros ? ? [-> ->].
      apply (post_failed req (d_log (E_malloc rlen false) (k_d k)) (k_fresh k)); try done; auto.
      apply d_ext_kept, d_ext_log.
  - wp_steps. cbn [andb]. assert (rlen = 0) as -> by lia.
    refine (eq_ind _ (λ kk, wp _ _ _ kk) _ _ (set_k_d_id k)).
    change (set_k_d (k_d k) k) with (spi_mid 0 Null (k_d k) None).
    eapply spi_run_ok; eauto. by left.
Qed.

(** ** Secure storage *)

(** Freeing one of the request's own blocks. *)
Lemma post_free req k1 id : handler_post k p req k1 → id ∈ req_blocks req → id < k_fresh k →
  handler_post k p req (set_k_heap (delete id (k_heap k1)) k1).
Proof using.
  intros (e&Heq&Hd&[Hf Hh]&Hle&Hsame&He&Hb&Hn&Hq) Hin Hlt. exists e.
  split_and!; try done.
  - exact (f_equal (set_k_heap (delete id (k_heap k1))) Heq).
  - split; cbn; [done|]. intros id' b [_ ?]%lookup_delete_Some. eauto.
  - intros id' ? Hni. cbn. rewrite lookup_delete_ne; [by apply Hsame|]. by intros ->.
  - cbn. destruct (Z.ltb_spec (se_ret e) 0); [by left|].
    destruct (Z.eqb_spec (se_len e) 0) as [|Hl]; [right; by left|].
    destruct He as [?|[?|(id'&b&Hbuf&Hx&Hlen)]]; [lia|done|]. do 2 right. exists id', b.
    split_and!; auto. rewrite lookup_delete_ne; [done|].
    assert (k_fresh k <= id'); [|lia]. apply Hb. unfold entry_block.
    rewrite (proj2 (Z.ltb_ge _ _)), (proj2 (Z.eqb_neq _ _)) by lia. by rewrite Hbuf.
  - intros id' ? [b Hx]. cbn in Hx. apply lookup_delete_Some in Hx as [_ Hx]. apply Hn; eauto.
Qed.

Lemma syscall_spec t' r k0 :
  wp t' (syscall r) (λ v k', v = r ∧ k' = set_k_d (d_log (E_storage r) (k_d k0)) k0) k0.
Proof using. done. Qed.
End handlers.

(** What the code relies on: system calls return GlobalPlatform codes. *)
Class StorageOk `{Storage} := {
  st_create_status h b : tee_status (u32 (st_create h b).1);
  st_write_status h o b : tee_status (u32 (st_write h o b));
  st_open_status h b : tee_status (u32 (st_open h b).1);
  st_info_status h o : tee_status (u32 (st_info h o).1);
  st_read_status h o n : tee_status (u32 (st_read h o n).1.1)
}.

Section storage.
Context `{Env, Storage, !StorageOk} (t : bool) (k : kstate) (p : Z).

Lemma handle_write_secure_ok ty s q0 q1 q2 :
  let req := IoReq ty s [q0; q1; q2] in
  handler_pre k p req → is_memref (k_heap k) q0 → is_memref (k_heap k) q1 →
  NoDup (req_blocks req) →
  wp t (handle_write_secure_object req p) (λ _ k', handler_post k p req k') k.
Proof.
  intros req Hpre Hm0 Hm1 Hnd. destruct q0 as [|[| id0 |] n0]; try done.
  destruct q1 as [|[| id1 |] n1]; try done.
  destruct Hm0 as (data0&Hid0&_). destruct Hm1 as (data1&Hid1&_).
  pose proof Hpre as (Hk&[Hf Hh]&Hp&Hs). pose proof Hk as (_&_&_&_&Ht&_).
  assert (id0 ≠ id1).
  { intros ->. apply NoDup_cons in Hnd as [Hni _]. destruct Hni. by left. }
  pose proof (Hh _ _ Hid0). pose proof (Hh _ _ Hid1).
  unfold handle_write_secure_object. get_param.
  eapply wp_mono; [eapply load_spec; exact Hid0|]. intros ? ? [-> ->]. unfold hist. wp_steps.
  destruct (st_create _ _) as [r obj] eqn:E. wp_steps.
  eapply wp_mono; [apply syscall_spec|]. intros ? k1 [-> ->]. wp_steps.
  assert (∀ r d, kept (k_d k) d → wp t (finish p req r;; free (Blk id0);; free (Blk id1);; mret r)
    (λ _ k', handler_post k p req k') (set_k_d d k)) as Hend.
  { intros r' d Hd. wp_steps. eapply wp_mono; [apply finish_spec; done|]. intros ? ? ->.
    wp_steps. eapply wp_mono; [eapply free_spec; exact Hid0|]. intros ? ? ->. wp_steps.
    eapply wp_mono; [eapply free_spec; cbn; by rewrite lookup_delete_ne|]. intros ? ? ->.
    wp_steps. pose proof (post_status k p req d (i32 r') Hpre Hd) as Hpost.
    eapply post_free in Hpost; [|by left|lia]. eapply post_free in Hpost; [exact Hpost|right; by left|lia]. }
  assert (∀ r d, kept (k_d k) d → wp t (finish p req r)
    (λ _ k', wp t (b0 ← memref_buffer req 0; free b0;; b1 ← memref_buffer req 1; free b1;; mret r)
               (λ _ k', handler_post k p req k') k') (set_k_d d k)) as Hfin.
  { intros r' d Hd. specialize (Hend r' d Hd). apply wp_bind_inv in Hend.
    eapply wp_mono; [exact Hend|]. intros ? k1 Hk1. get_param. apply wp_bind_inv in Hk1.
    eapply wp_mono; [exact Hk1|]. intros ? k2 Hk2. get_param. by apply wp_bind_inv in Hk2. }
  destruct (Z.eqb_spec (u32 r) TEE_SUCCESS); cbn [negb].
  - get_param. eapply wp_mono; [eapply load_spec; exact Hid1|]. intros ? ? [-> ->]. wp_steps.
    eapply wp_mono; [apply syscall_spec|]. intros ? ? [-> ->]. wp_steps.
    eapply wp_mono; [apply syscall_spec|]. intros ? ? [-> ->]. wp_steps.
    eapply wp_mono; [apply Hfin; cbn; apply d_ext_kept; by repeat apply d_ext_logged|].
    intros ? k1 Hk1. exact Hk1.
  - wp_steps. eapply wp_mono; [apply Hfin; cbn; apply d_ext_kept; by repeat apply d_ext_logged|].
    intros ? k1 Hk1. exact Hk1.
Qed.

Lemma kept_logged d e : kept (k_d k) d → kept (k_d k) (d_log e d).
Proof. intros. etrans; [done|]. apply d_ext_kept, d_ext_log. Qed.

(** The part of the read handler before the name buffer is freed: what it
    leaves is a handler result, and the name buffer is still there. *)
Definition read_mid (req : io_req_t) (id : Z) (k1 : kstate) : Prop :=
  handler_post k p req k1 ∧ k_heap k1 !! id = k_heap k !! id.

Lemma read_object_ok req id obj size d :
  handler_pre k p req → is_Some (k_heap k !! id) → kept (k_d k) d → 0 <= size < 2 ^ 32 →
  wp t
   (b ← malloc size;
    match b with
    | Null => set_ret p (rq_signo req) TEE_ERROR_OUT_OF_MEMORY;;
              syscall TEE_SUCCESS;; mret TEE_ERROR_OUT_OF_MEMORY
    | _ =>
      h ← hist;
      let '(r, cnt, l) := st_read h obj size in
      res ← syscall (u32 r);
      ob ← load b;
      let l := take (Z.to_nat size) l in
      store b ((λ blk, bytes l ++ drop (length l) blk) <$> ob);;
      if negb (res =? TEE_SUCCESS) then
        set_ret p (rq_signo req) res;; syscall TEE_SUCCESS;; free b;; mret res
      else if negb (size =? u32 cnt) then
        set_ret p (rq_signo req) TEE_ERROR_BAD_STATE;; syscall TEE_SUCCESS;; free b;;
        mret TEE_ERROR_BAD_STATE
      else succeed p req size b
    end) (λ _ k1, read_mid req id k1) (set_k_d d k).
Proof.
  intros Hpre [x Hx] Hd Hsz. pose proof Hpre as (Hk&[Hf Hh]&Hp&Hs).
  pose proof Hk as (_&_&_&_&Ht&_). pose proof (Hh _ _ Hx). wp_steps.
  eapply wp_mono; [apply malloc_spec|]. intros b0 k1 (ok&->&->). destruct ok.
  2:{ wp_steps. eapply wp_mono; [apply set_ret_spec; done|]. intros ? ? ->. wp_steps. split; [|done].
      apply (post_failed k p req (d_log (E_storage TEE_SUCCESS) (d_log (E_malloc size false) d)) (k_fresh k));
        try done; auto. by do 2 apply kept_logged. }
  unfold hist. wp_steps. destruct (st_read _ _ _) as [[r cnt] l] eqn:E. wp_steps.
  eapply wp_mono; [apply syscall_spec|]. intros ? ? [-> ->]. wp_steps.
  eapply wp_mono; [eapply load_spec; cbn; by rewrite lookup_insert_eq|]. intros ? ? [-> ->]. wp_steps.
  cbn [fmap option_fmap option_map].
  set (l' := take (Z.to_nat size) l). set (b1 := bytes l' ++ _).
  assert (blen b1 = size) as Hb1.
  { unfold b1, blen, bytes, uninit. rewrite length_app, length_fmap, length_drop, length_replicate.
    unfold l'. rewrite length_take. lia. }
  eapply wp_mono; [eapply store_spec; cbn; by rewrite lookup_insert_eq|]. intros ? ? ->. wp_steps.
  cbn. rewrite insert_insert_eq. assert (tee_status (u32 r)) as Hst.
  { pose proof (st_read_status (d_trace (d_log (E_malloc size true) d)) obj size) as Hst.
    cbn in E, Hst. by rewrite E in Hst. }
  assert (∀ r' k', tee_status r' → r' ≠ TEE_SUCCESS →
    k' = set_k_heap (delete (k_fresh k) (<[k_fresh k := b1]> (k_heap k)))
      (set_k_d (d_log (E_storage TEE_SUCCESS) (d_log (E_storage (u32 r)) (d_log (E_malloc size true) d)))
        (set_entry p (rq_signo req) (SigEntry (i32 r') (se_buf (entry_at k p (rq_signo req)))
           (se_len (entry_at k p (rq_signo req))) (se_polls (entry_at k p (rq_signo req))))
           (set_k_fresh (k_fresh k + 1) k))) →
    read_mid req id k') as Hfail.
  { intros r' ? Hr' Hne ->. rewrite delete_insert_eq, delete_id by by apply heap_fresh. split; [|done].
    apply (post_failed k p req (d_log (E_storage TEE_SUCCESS) (d_log (E_storage (u32 r))
      (d_log (E_malloc size true) d))) (k_fresh k + 1)); try done; [by do 3 apply kept_logged|lia]. }
  destruct (Z.eqb_spec (u32 r) TEE_SUCCESS) as [Hr|Hne]; cbn [negb].
  - destruct (Z.eqb_spec size (u32 cnt)) as [Hc|]; cbn [negb].
    + eapply wp_mono; [apply succeed_spec; done|]. intros ? ? [-> ->]. split.
      * apply (post_block k p req (d_log (E_storage (u32 r)) (d_log (E_malloc size true) d)) b1 size); auto.
        by do 2 apply kept_logged.
      * cbn. rewrite lookup_insert_ne by lia. done.
    + wp_steps. eapply wp_mono; [apply set_ret_spec; done|]. intros ? ? ->. wp_steps.
      eapply wp_mono; [apply syscall_spec|]. intros ? ? [-> ->]. wp_steps.
      eapply wp_mono; [eapply free_spec; cbn; by rewrite lookup_insert_eq|]. intros ? ? ->. wp_steps.
      by eapply (Hfail TEE_ERROR_BAD_STATE); auto.
  - wp_steps. eapply wp_mono; [apply set_ret_spec; done|]. intros ? ? ->. wp_steps.
    eapply wp_mono; [apply syscall_spec|]. intros ? ? [-> ->]. wp_steps.
    eapply wp_mono; [eapply free_spec; cbn; by rewrite lookup_insert_eq|]. intros ? ? ->. wp_steps.
    by eapply (Hfail (u32 r)).
Qed.

Lemma handle_read_secure_ok ty s q0 q1 q2 :
  let req := IoReq ty s [q0; q1; q2] in
  handler_pre k p req → is_memref (k_heap k) q0 →
  wp t (handle_read_secure_object req p) (λ _ k', handler_post k p req k') k.
Proof.
  intros req Hpre Hm0. destruct q0 as [|[| id |] n0]; try done.
  destruct Hm0 as (data&Hid&_).
  pose proof Hpre as (Hk&[Hf Hh]&Hp&Hs). pose proof Hk as (_&_&_&_&Ht&_). pose proof (Hh _ _ Hid).
  assert (∀ (m : K Z) k0, wp t m (λ _ k1, read_mid req id k1) k0 →
    wp t (res ← m; b0 ← memref_buffer req 0; free b0;; mret res)
      (λ _ k', handler_post k p req k') k0) as Hend.
  { intros m k0 Hm. wp_steps. eapply wp_mono; [exact Hm|]. intros r k1 [Hpost Hsame]. get_param.
    rewrite Hid in Hsame. eapply wp_mono; [eapply free_spec; exact Hsame|]. intros ? ? ->. wp_steps.
    apply post_free; [done|by left|lia]. }
  assert (∀ r d, kept (k_d k) d → tee_status r → r ≠ TEE_SUCCESS →
    wp t (fail p req r) (λ _ k1, read_mid req id k1) (set_k_d d k)) as Hfail.
  { intros r d Hd Hr Hne. eapply wp_mono; [apply fail_spec; done|]. intros ? ? [-> ->]. split; [|done].
    by apply (post_failed k p req d (k_fresh k)); try done. }
  unfold handle_read_secure_object. get_param.
  eapply wp_mono; [eapply load_spec; exact Hid|]. intros ? ? [-> ->]. unfold hist. wp_steps.
  destruct (st_open _ _) as [r obj] eqn:E. wp_steps.
  eapply wp_mono; [apply syscall_spec|]. intros ? k1 [-> ->]. apply Hend.
  assert (tee_status (u32 r)) as Hr.
  { pose proof (st_open_status (d_trace (k_d k)) (default [] (Some (bytes data)))) as Hst.
    by rewrite E in Hst. }
  destruct (Z.eqb_spec (u32 r) TEE_SUCCESS); cbn [negb].
  2:{ apply Hfail; auto. by apply kept_logged. }
  wp_steps. destruct (st_info _ _) as [r2 size] eqn:E2. wp_steps.
  eapply wp_mono; [apply syscall_spec|]. intros ? k1 [-> ->]. 
  assert (tee_status (u32 r2)) as Hr2.
  { pose proof (st_info_status (d_trace (d_log (E_storage (u32 r)) (k_d k))) obj) as Hst.
    cbn in E2, Hst. by rewrite E2 in Hst. }
  destruct (Z.eqb_spec (u32 r2) TEE_SUCCESS); cbn [negb].
  2:{ apply Hfail; auto. by do 2 apply kept_logged. }
  apply read_object_ok; [done|by rewrite Hid|by do 2 apply kept_logged|apply u32_range].
Qed.
End storage.

(** ** Dispatch *)

(** For [t = true]: the kinds whose duration depends on a length or on the
    address mode. *)
Definition req_live `{Env} (t : bool) (req : io_req_t) : Prop :=
  t = true → match rq_type req, rq_params req with
             | I2C_READ_BYTES, [_; Value fl _; _] => flag (u8 fl) I2C_ADDR10 = false
             | SPI_TRANSFER_BYTES, [q0; _; _] => snd_of q0 + 1 < Z.of_nat env_fuel
             | _, _ => True
             end.

Section dispatch.
Context `{Env, Storage, !StorageOk} (t : bool) (k : kstate) (p : Z).

Ltac alloc lem :=
  apply handle_alloc_ok; [done|done|unfold sizeof_time, sizeof_lon_lat, Atk301.ATK301_FINGERPRINT_IMAGE_DATA_LEN; lia
    |by auto|done|first [apply lem; lia | apply lem]].

Lemma handle_req_ok req : handler_pre k p req → req_ok (k_heap k) req →
  hw_live t p (k_d k) → req_live t req →
  wp t (handle_req req p) (λ _ k', handler_post k p req k') k.
Proof.
  destruct req as [ty s [|q0 [|q1 [|q2 []]]]]; try done. intros Hpre Hok Hlv Hrl. unfold req_ok in Hok.
  unfold req_live in Hrl. cbn [rq_params rq_type] in Hrl.
  cbn [rq_params rq_type] in Hok. unfold handle_req. cbn [rq_type].
  destruct ty; try (
    eapply wp_mono; [eapply (fail_post t k p _ Hpre TEE_ERROR_NOT_SUPPORTED); [by auto|done]|];
    intros ? ? [_ Hq]; exact Hq);
    try (destruct Hok as (Hv0&Hv1&Hv2); destruct q0 as [a b|]; [|done]; destruct q1 as [a1 b1|]; [|done];
         destruct q2 as [a2 b2|]; [|done]; cbn in Hv0, Hv1, Hv2).
  - unfold handle_dht_read. get_param. alloc dht_op.
  - unfold handle_bh1750fvi_sample. get_param. alloc bh1750_op.
  - unfold handle_i2c_read_bytes. get_param.
    apply handle_alloc_ok; [done|done|lia|by auto|done|apply i2c_read_op; [lia|done]].
  - destruct Hok as (?&?&?). by apply handle_i2c_write_ok.
  - destruct Hok as (Hv0&Hv1&_&Hfl). destruct q0 as [a b|]; [|done]. destruct q1 as [a1 b1|]; [|done].
    cbn in Hv0, Hv1. unfold handle_i2c_read_regs. get_param.
    apply handle_alloc_ok; [done|done|lia|auto|done|apply i2c_read_regs_op; [lia|done]].
  - destruct Hok as (?&?&?&?&?). apply handle_spi_ok; auto.
  - destruct Hok as (?&?&?). by apply handle_write_secure_ok.
  - by apply handle_read_secure_ok.
  - by apply handle_mpu6050_ok.
  - unfold handle_tel0157_get_gnss_len. get_param. alloc gnss_len_op.
  - unfold handle_tel0157_get_all_gnss. get_param. alloc all_gnss_op.
  - unfold handle_tel0157_get_utc_time. get_param. alloc utc_time_op.
  - unfold handle_tel0157_get_gnss_mode. get_param. alloc getter_op.
  - unfold handle_tel0157_get_num_sat_used. get_param. alloc getter_op.
  - unfold handle_tel0157_get_lon. get_param. alloc lon_op.
  - unfold handle_tel0157_get_lat. get_param. alloc lat_op.
  - unfold handle_tel0157_get_alt. get_param. alloc getter_op.
  - unfold handle_tel0157_get_sog. get_param. alloc getter_op.
  - unfold handle_tel0157_get_cog. get_param. alloc getter_op.
  - destruct Hok as (?&?&?). by apply handle_at24cxx_write_ok.
  - unfold handle_at24cxx_read. get_param. alloc at24_read_op.
  - by apply handle_atk301_get_ok.
  - unfold handle_atk301_upload_fingerprint_image. get_param. alloc upload_op.
Qed.
End dispatch.
