(* ===== verification/IoHelper.v ===== *)
(** * Commands of the I/O helper (core/pta/io_helper/io_helper_service.c)

    The entry points a client trusted application invokes: submitting read
    and write requests, polling, collecting results and the service loop of a
    peripheral.  The loop is cut at its critical sections, [loop_check] (lock,
    test, wait or dequeue, unlock), [handle_req] and [set_ready_signal], so
    that [IoSystem] can interleave it with client commands. *)

From Stdlib Require Import ZArith Lia Bool.
From stdpp Require Import base tactics option list numbers gmap.
From S2P Require Import Prelude Platform Params IoReq IoState IoSignal IoHandlers.

Open Scope Z_scope.

(** [req.params[i] = params[j]] for a value parameter. *)
Definition copy_value (ps : uparams) (j : Z) : K TEE_Param :=
  a ← uvalue_a ps j; b ← uvalue_b ps j; mret (Value a b).

(** [memcpy] into a heap block. *)
Definition memcpy_in (p : ptr) (src : buf) (n : Z) : K unit :=
  ob ← load p;
  match ob with
  | Some dst => b ← memcpy dst src n; store p (Some b)
  | None => undef UB_null
  end.

Definition IO_HELPER_SERVICE_OVERHEAD_BENCHMARK_POINTS : Z := 4.
Definition IO_HELPER_SERVICE_OVERHEAD_BENCHMARK_TIMES : Z := 50.
Definition sizeof_benchmark_time : Z := 1600.
Definition sizeof_io_req_node : Z := 64.

Section commands.
Context `{Env, Storage}.

(** ** Time stamps of the overhead benchmark *)

Definition bench_store (idx point : Z) : K unit :=
  t ← lift tee_time_get_sys_time;
  l ← gets k_bench;
  l ← arr_set l (u32 (idx * IO_HELPER_SERVICE_OVERHEAD_BENCHMARK_POINTS + point))
        (teetime_to_micro t);
  modify (set_k_bench l).
Definition next_req_idx : K unit :=
  i ← gets k_req_idx;
  if i <? IO_HELPER_SERVICE_OVERHEAD_BENCHMARK_TIMES - 1
  then modify (set_k_req_idx (i + 1)) else mret ().
Definition next_get_idx : K unit :=
  i ← gets k_get_idx;
  if i <? IO_HELPER_SERVICE_OVERHEAD_BENCHMARK_TIMES - 1
  then modify (set_k_get_idx (i + 1)) else mret ().

(** ** The request queues *)

(** An operation on [req_queues[p]]. *)
Definition on_queue {A} (p : Z) (m : QM (A:=io_req_t) A) : K A :=
  qs ← gets k_queues;
  q ← arr_get qs p;
  zoom (λ k, (k_qmem k, default q (k_queues k !! Z.to_nat p)))
    (λ s k, set_k_queues (<[Z.to_nat p := s.2]> (k_queues k)) (set_k_qmem s.1 k)) m.

(** Does the allocation of a queue node succeed? *)
Definition node_malloc : K bool := λ k,
  let ok := env_malloc (d_trace (k_d k)) sizeof_io_req_node in
  Ok ok (set_k_d (d_log (E_malloc sizeof_io_req_node ok) (k_d k)) k).

(** [condvar_signal] wakes the loop that waits, [condvar_wait] blocks. *)
Definition set_waiting (p : Z) (b : bool) : K unit :=
  w ← gets k_waiting; w ← arr_set w p b; modify (set_k_waiting w).
Definition condvar_signal (p : Z) : K unit := set_waiting p false.

(** The common end of the four submissions; the result of [enqueue] is not
    looked at. *)
Definition submit (p : Z) (req : io_req_t) : K unit :=
  klock L_queue p;;
  ok ← node_malloc;
  on_queue p (enqueue ok req);;
  condvar_signal p;;
  kunlock L_queue p.

(** ** Submissions *)

Definition read_req (param_types : Z) (params : uparams) : K (Z * uparams) :=
  idx ← gets k_req_idx;
  bench_store idx 0;;
  if negb (param_types =? TEE_PARAM_TYPES TEE_PARAM_TYPE_VALUE_INOUT TEE_PARAM_TYPE_VALUE_INPUT
                            TEE_PARAM_TYPE_VALUE_INPUT TEE_PARAM_TYPE_VALUE_INPUT)
  then mret (TEE_ERROR_BAD_PARAMETERS, params) else
  a ← uvalue_a params 0;
  if N_PERIPH <=? a then mret (TEE_ERROR_BAD_PARAMETERS, params) else
  let periph_no := u16 a in
  res_signo ← allocate_signo periph_no;
  if res_signo <? 0 then mret (TEE_ERROR_BUSY, params) else
  ty ← uvalue_b params 0;
  params ← set_uvalue_a params 0 res_signo;
  p0 ← copy_value params 1;
  p1 ← copy_value params 2;
  p2 ← copy_value params 3;
  submit periph_no (IoReq (io_req_type_of ty) res_signo [p0; p1; p2]);;
  idx ← gets k_req_idx;
  bench_store idx 1;;
  next_req_idx;;
  mret (TEE_SUCCESS, params).

Definition read_req_with_buffer (param_types : Z) (params : uparams) : K (Z * uparams) :=
  if negb (param_types =? TEE_PARAM_TYPES TEE_PARAM_TYPE_VALUE_INOUT TEE_PARAM_TYPE_MEMREF_INPUT
                            TEE_PARAM_TYPE_VALUE_INPUT TEE_PARAM_TYPE_VALUE_INPUT)
  then mret (TEE_ERROR_BAD_PARAMETERS, params) else
  a ← uvalue_a params 0;
  if N_PERIPH <=? a then mret (TEE_ERROR_BAD_PARAMETERS, params) else
  let periph_no := u16 a in
  ty ← uvalue_b params 0;
  '(src, size) ← umemref params 1;
  b ← malloc size;
  if bool_decide (b = Null) then mret (TEE_ERROR_OUT_OF_MEMORY, params) else
  res_signo ← allocate_signo periph_no;
  if res_signo <? 0 then mret (TEE_ERROR_BUSY, params) else
  params ← set_uvalue_a params 0 res_signo;
  memcpy_in b src size;;
  p1 ← copy_value params 2;
  p2 ← copy_value params 3;
  submit periph_no (IoReq (io_req_type_of ty) res_signo [Memref b size; p1; p2]);;
  mret (TEE_SUCCESS, params).

(** As [read_req_with_buffer], but without a buffer for an empty write: its
    pointer member is then never stored. *)
Definition write_req (param_types : Z) (params : uparams) : K (Z * uparams) :=
  if negb (param_types =? TEE_PARAM_TYPES TEE_PARAM_TYPE_VALUE_INOUT TEE_PARAM_TYPE_MEMREF_INPUT
                            TEE_PARAM_TYPE_VALUE_INPUT TEE_PARAM_TYPE_VALUE_INPUT)
  then mret (TEE_ERROR_BAD_PARAMETERS, params) else
  a ← uvalue_a params 0;
  if N_PERIPH <=? a then mret (TEE_ERROR_BAD_PARAMETERS, params) else
  let periph_no := u16 a in
  ty ← uvalue_b params 0;
  '(src, size) ← umemref params 1;
  b ← (if truth size then malloc size else mret Indet);
  if truth size && bool_decide (b = Null) then mret (TEE_ERROR_OUT_OF_MEMORY, params) else
  res_signo ← allocate_signo periph_no;
  if res_signo <? 0 then mret (TEE_ERROR_BUSY, params) else
  params ← set_uvalue_a params 0 res_signo;
  (if truth size then memcpy_in b src size else mret ());;
  p1 ← copy_value params 2;
  p2 ← copy_value params 3;
  submit periph_no (IoReq (io_req_type_of ty) res_signo [Memref b size; p1; p2]);;
  mret (TEE_SUCCESS, params).

Definition write_req_with_buffer (param_types : Z) (params : uparams) : K (Z * uparams) :=
  if negb (param_types =? TEE_PARAM_TYPES TEE_PARAM_TYPE_VALUE_INOUT TEE_PARAM_TYPE_MEMREF_INPUT
                            TEE_PARAM_TYPE_MEMREF_INPUT TEE_PARAM_TYPE_VALUE_INPUT)
  then mret (TEE_ERROR_BAD_PARAMETERS, params) else
  a ← uvalue_a params 0;
  if N_PERIPH <=? a then mret (TEE_ERROR_BAD_PARAMETERS, params) else
  let periph_no := u16 a in
  ty ← uvalue_b params 0;
  '(src0, size0) ← umemref params 1;
  b0 ← malloc size0;
  if bool_decide (b0 = Null) then mret (TEE_ERROR_OUT_OF_MEMORY, params) else
  '(src1, size1) ← umemref params 2;
  b1 ← malloc size1;
  if bool_decide (b1 = Null) then mret (TEE_ERROR_OUT_OF_MEMORY, params) else
  res_signo ← allocate_signo periph_no;
  if res_signo <? 0 then mret (TEE_ERROR_BUSY, params) else
  params ← set_uvalue_a params 0 res_signo;
  memcpy_in b0 src0 size0;;
  memcpy_in b1 src1 size1;;
  p2 ← copy_value params 3;
  submit periph_no (IoReq (io_req_type_of ty) res_signo [Memref b0 size0; Memref b1 size1; p2]);;
  mret (TEE_SUCCESS, params).

(** ** Polling *)

Definition only_value_inout : Z :=
  TEE_PARAM_TYPES TEE_PARAM_TYPE_VALUE_INOUT TEE_PARAM_TYPE_NONE TEE_PARAM_TYPE_NONE
    TEE_PARAM_TYPE_NONE.

Definition poll (param_types : Z) (params : uparams) : K (Z * uparams) :=
  if negb (param_types =? only_value_inout) then mret (TEE_ERROR_BAD_PARAMETERS, params) else
  a ← uvalue_a params 0;
  let periph_no := u16 a in
  if N_PERIPH <=? periph_no then mret (TEE_ERROR_BAD_PARAMETERS, params) else
  signo ← get_ready_signal periph_no;
  params ← (if signo <? 0 then
              req_num ← get_req_num periph_no;
              if 0 <? req_num then
                params ← set_uvalue_a params 0 1;
                set_uvalue_b params 0 0xFFFFFFFF
              else set_uvalue_a params 0 0
            else
              params ← set_uvalue_a params 0 1;
              set_uvalue_b params 0 (u32 signo));
  mret (TEE_SUCCESS, params).

Definition poll_subsignal (param_types : Z) (params : uparams) : K (Z * uparams) :=
  if negb (param_types =? only_value_inout) then mret (TEE_ERROR_BAD_PARAMETERS, params) else
  a ← uvalue_a params 0;
  let periph_no := u16 a in
  sub_signo ← uvalue_b params 0;
  if (N_PERIPH <=? periph_no) || (N_SUB_SIG <=? sub_signo)
  then mret (TEE_ERROR_BAD_PARAMETERS, params) else
  used ← is_using_signo periph_no sub_signo;
  if negb used then mret (TEE_ERROR_BAD_STATE, params) else
  e ← get_entry periph_no sub_signo;
  set_polls periph_no sub_signo (se_polls e + 1);;
  ready ← is_ready_signal periph_no sub_signo;
  params ← (if ready : bool then set_uvalue_a params 0 1 else set_uvalue_a params 0 0);
  mret (TEE_SUCCESS, params).

(** ** Collecting a result *)

Definition get_data (param_types : Z) (params : uparams) : K (Z * uparams) :=
  idx ← gets k_get_idx;
  bench_store idx 2;;
  if negb (param_types =? TEE_PARAM_TYPES TEE_PARAM_TYPE_VALUE_INOUT TEE_PARAM_TYPE_MEMREF_OUTPUT
                            TEE_PARAM_TYPE_NONE TEE_PARAM_TYPE_NONE)
  then mret (TEE_ERROR_BAD_PARAMETERS, params) else
  a ← uvalue_a params 0;
  let periph_no := u16 a in
  sub_signo ← uvalue_b params 0;
  if N_SUB_SIG <? sub_signo then mret (TEE_ERROR_BAD_PARAMETERS, params) else
  ready ← is_ready_signal periph_no sub_signo;
  if negb ready then mret (TEE_ERROR_NO_DATA, params) else
  e ← get_entry periph_no sub_signo;
  if se_ret e <? 0 then
    params ← set_uvalue_a params 0 (u32 (se_ret e));
    release_signo periph_no sub_signo;;
    mret (TEE_SUCCESS, params)
  else
  '(dst, size) ← umemref params 1;
  if size <? se_len e then
    params ← set_usize params 1 (se_len e);
    mret (TEE_ERROR_SHORT_BUFFER, params)
  else
  if negb (se_len e =? 0) && bool_decide (se_buf e = Null) then
    release_signo periph_no sub_signo;;
    mret (TEE_ERROR_NO_DATA, params)
  else if se_len e =? 0 then
    params ← set_uvalue_a params 0 (u32 (se_ret e));
    params ← set_usize params 1 0;
    release_signo periph_no sub_signo;;
    mret (TEE_SUCCESS, params)
  else
  ob ← load (se_buf e);
  dst ← memcpy dst (default [] ob) (se_len e);
  params ← set_umem params 1 dst;
  free (se_buf e);;
  params ← set_uvalue_a params 0 (u32 (se_ret e));
  params ← set_uvalue_b params 0 (se_polls e);
  params ← set_usize params 1 (se_len e);
  set_len periph_no sub_signo 0;;
  set_ret periph_no sub_signo 0;;
  set_polls periph_no sub_signo 0;;
  release_signo periph_no sub_signo;;
  idx ← gets k_get_idx;
  bench_store idx 3;;
  next_get_idx;;
  mret (TEE_SUCCESS, params).

Definition get_overhead_timestamp (param_types : Z) (params : uparams) : K (Z * uparams) :=
  if negb (param_types =? TEE_PARAM_TYPES TEE_PARAM_TYPE_MEMREF_OUTPUT TEE_PARAM_TYPE_NONE
                            TEE_PARAM_TYPE_NONE TEE_PARAM_TYPE_NONE)
  then mret (TEE_ERROR_BAD_PARAMETERS, params) else
  '(dst, size) ← umemref params 0;
  if size <? sizeof_benchmark_time then mret (TEE_ERROR_SHORT_BUFFER, params) else
  l ← gets k_bench;
  dst ← memcpy dst (bytes (mjoin (le 8 <$> l))) sizeof_benchmark_time;
  params ← set_umem params 0 dst;
  modify (set_k_req_idx 0);;
  modify (set_k_get_idx 0);;
  mret (TEE_SUCCESS, params).

(** ** The service loop *)

Definition mutex_init (l : lock_id) : K unit :=
  lift (modify (λ d, d_set_held (d_held d ∖ {[l]}) d)).

(** The part of [start_loop] before its loop: an error, or the peripheral
    whose loop the thread enters. *)
Definition start_loop (param_types : Z) (params : uparams) : K (Z + Z) :=
  if negb (TEE_PARAM_TYPES TEE_PARAM_TYPE_VALUE_INPUT TEE_PARAM_TYPE_NONE TEE_PARAM_TYPE_NONE
             TEE_PARAM_TYPE_NONE =? param_types)
  then mret (inl TEE_ERROR_BAD_PARAMETERS) else
  a ← uvalue_a params 0;
  let periph_no := u16 a in
  if N_PERIPH <=? periph_no then mret (inl TEE_ERROR_BAD_PARAMETERS) else
  mutex_init (L_sigpending periph_no);;
  mutex_init (L_sigusing periph_no);;
  mutex_init (L_queue periph_no);;
  mret (inr periph_no).

(** Up to the request to handle, or up to [condvar_wait], which gives the
    mutex back while it waits. *)
Definition loop_check (p : Z) : K (option io_req_t) :=
  klock L_queue p;;
  e ← on_queue p is_empty;
  if e : bool then
    set_waiting p true;;
    kunlock L_queue p;;
    mret None
  else
    '(_, req) ← on_queue p dequeue;
    kunlock L_queue p;;
    mret req.

(** ** Dispatch *)

(** What an invocation comes to: a reply, or a thread that serves a
    peripheral and does not return. *)
Inductive reply := Reply (res : Z) (params : uparams) | Serves (periph_no : Z).

Definition replies (m : K (Z * uparams)) : K reply := '(r, ps) ← m; mret (Reply r ps).

Definition invoke_command (cmd_id param_types : Z) (params : uparams) : K reply :=
  match cmd_id with
  | 0 => r ← start_loop param_types params;
         match r with inl e => mret (Reply e params) | inr p => mret (Serves p) end
  | 1 => replies (poll param_types params)
  | 2 => replies (read_req param_types params)
  | 3 => replies (get_data param_types params)
  | 4 => replies (poll_subsignal param_types params)
  | 5 => replies (write_req param_types params)
  | 6 => replies (read_req_with_buffer param_types params)
  | 7 => replies (write_req_with_buffer param_types params)
  | 8 => replies (get_overhead_timestamp param_types params)
  | _ => mret (Reply TEE_ERROR_NOT_SUPPORTED params)
  end.
End commands.
