(* ===== verification/IoSystem.v ===== *)
(** * The I/O helper implements its specification

    The concrete system: client commands of [IoHelper] and the steps of the
    service loops, interleaved at their critical sections.  [rel] relates a
    concrete state to a state of [IoSpec]; every concrete step is safe (no
    undefined behaviour) and is matched by steps of the specification. *)

From Stdlib Require Import ZArith Lia Bool.
From stdpp Require Import base tactics option list numbers gmap relations.
From S2P Require Import Prelude Platform IoReq IoState IoSignal IoSignalProofs.
From S2P Require Import IoSpec IoHandlers IoHandlersProofs IoHelper.

Open Scope Z_scope.

(** ** The relation between concrete and abstract states *)

(** The entry holds the result. *)
Definition entry_is (heap : gmap Z buf) (e : io_sigentry_t) (res : result) : Prop :=
  r_ret res = se_ret e
  ∧ (se_ret e < 0 ∨ (se_len e = 0 ∧ r_data res = [])
     ∨ ∃ id, se_buf e = Blk id ∧ heap !! id = Some (r_data res) ∧ blen (r_data res) = se_len e).

Lemma entry_ok_is heap e : entry_ok heap e → ∃ res, entry_is heap e res.
Proof.
  intros [?|[?|(id&b&?&?&?)]].
  - exists (Res (se_ret e) []). split; auto.
  - exists (Res (se_ret e) []). split; auto.
  - exists (Res (se_ret e) b). split; [done|]. do 2 right. by exists id.
Qed.

Definition phase_ok (k : kstate) (p s : Z) (ph : phase) : Prop :=
  match ph with
  | PFree => sig_of k p s = SigFree
  | PHeld => sig_of k p s = SigBusy
  | PWait r => sig_of k p s = SigBusy ∧ req_ok (k_heap k) r
  | PDone res => sig_of k p s = SigBusy ∧ entry_is (k_heap k) (entry_at k p s) res
  | PReady res => sig_of k p s = SigReady ∧ entry_is (k_heap k) (entry_at k p s) res
  end.

(** The heap blocks that belong to a signal. *)
Definition own (k : kstate) (p s : Z) (ph : phase) : list Z :=
  match ph with
  | PWait r => req_blocks r
  | PDone _ | PReady _ => option_list (entry_block (entry_at k p s))
  | _ => []
  end.

Definition q_at (k : kstate) (p : Z) : io_req_queue := default (Queue 0 0) (k_queues k !! Z.to_nat p).
Definition waiting_at (k : kstate) (p : Z) : bool := default false (k_waiting k !! Z.to_nat p).

Definition queues_rel (k : kstate) (a : astate) : Prop :=
  0 < qm_fresh (k_qmem k) ∧ ∃ ql : Z → list (Z * io_req_t),
    (∀ p, in_periph p → queue_rep (k_qmem k) (q_at k p) (ql p) ∧ (ql p).*2 = a_queue a p)
    ∧ (∀ p q id, in_periph p → in_periph q → p ≠ q → id ∈ (ql p).*1 → id ∉ (ql q).*1).

Record rel (k : kstate) (a : astate) : Prop := {
  rl_shape : k_shape k;
  rl_sig : sig_inv k;
  rl_heap : heap_ok k;
  rl_ainv : a_inv a;
  rl_queues : queues_rel k a;
  rl_phase p s : in_periph p → in_sig s → phase_ok k p s (a_phase a p s);
  rl_own p s p' s' id : in_periph p → in_sig s → in_periph p' → in_sig s' →
    id ∈ own k p s (a_phase a p s) → id ∈ own k p' s' (a_phase a p' s') → p = p' ∧ s = s';
  rl_live p s id : in_periph p → in_sig s → id ∈ own k p s (a_phase a p s) → id < k_fresh k;
  rl_wait p : in_periph p → waiting_at k p = true → a_queue a p = []
}.

(** A block that belongs to some signal. *)
Definition owned (k : kstate) (a : astate) (id : Z) : Prop :=
  ∃ p s, in_periph p ∧ in_sig s ∧ id ∈ own k p s (a_phase a p s).

(** ** Frames *)

Lemma is_memref_frame h h' q : (∀ id, id ∈ block_of q → h' !! id = h !! id) →
  is_memref h q → is_memref h' q.
Proof.
  destruct q as [|[|id|] n]; try done. intros Hs (data&Hx&?). exists data. split; [|done].
  rewrite Hs; [done|by left].
Qed.

Lemma req_ok_frame h h' r : (∀ id, id ∈ req_blocks r → h' !! id = h !! id) →
  req_ok h r → req_ok h' r.
Proof.
  intros Hs. unfold req_ok. destruct r as [ty s [|q0 [|q1 [|q2 []]]]]; try done. cbn [rq_params rq_type].
  assert (is_memref h q0 → is_memref h' q0).
  { apply is_memref_frame. intros id Hid. apply Hs. unfold req_blocks; cbn. rewrite elem_of_app. by left. }
  assert (is_memref h q1 → is_memref h' q1).
  { apply is_memref_frame. intros id Hid. apply Hs. unfold req_blocks; cbn. rewrite !elem_of_app. tauto. }
  destruct ty; naive_solver.
Qed.

Definition same_result (e e' : io_sigentry_t) : Prop :=
  se_ret e' = se_ret e ∧ se_buf e' = se_buf e ∧ se_len e' = se_len e.

Lemma entry_block_same e e' : same_result e e' → entry_block e' = entry_block e.
Proof. intros (H1&H2&H3). unfold entry_block. by rewrite H1, H2, H3. Qed.

Lemma entry_is_frame h h' e e' res : same_result e e' → 
  (∀ id, entry_block e = Some id → h' !! id = h !! id) → entry_is h e res → entry_is h' e' res.
Proof.
  intros (H1&H2&H3) Hs [Hr Hres]. split; [congruence|]. rewrite H1, H2, H3.
  destruct (Z.ltb_spec (se_ret e) 0); [by left|].
  destruct Hres as [?|[?|(id&Hb&Hx&Hl)]]; [lia|by right; left|].
  destruct (Z.eqb_spec (se_len e) 0) as [Hz|].
  - right. left. split; [done|]. rewrite Hz in Hl. unfold blen in Hl. destruct (r_data res); [done|cbn in Hl; lia].
  - do 2 right. exists id. split_and!; auto. rewrite Hs; [done|]. unfold entry_block.
    rewrite (proj2 (Z.ltb_ge _ _)), (proj2 (Z.eqb_neq _ _)) by lia. by rewrite Hb.
Qed.

Lemma phase_ok_frame k k' p s ph :
  sig_of k' p s = sig_of k p s → same_result (entry_at k p s) (entry_at k' p s) →
  (∀ id, id ∈ own k p s ph → k_heap k' !! id = k_heap k !! id) →
  phase_ok k p s ph → phase_ok k' p s ph.
Proof.
  intros Hsig He Hh. destruct ph; cbn [phase_ok own] in *; rewrite ?Hsig; auto.
  - intros [? ?]. split; [done|]. by eapply req_ok_frame.
  - intros [? ?]. split; [done|]. eapply entry_is_frame; [done| |done]. intros id Hid.
    apply Hh. rewrite Hid. by left.
  - intros [? ?]. split; [done|]. eapply entry_is_frame; [done| |done]. intros id Hid.
    apply Hh. rewrite Hid. by left.
Qed.

Lemma own_frame k k' p s ph : same_result (entry_at k p s) (entry_at k' p s) →
  own k' p s ph = own k p s ph.
Proof. intros He. destruct ph; cbn; rewrite ?(entry_block_same _ _ He); done. Qed.

(** A change that touches neither the signals nor owned memory. *)
Lemma rel_frame k k' a : rel k a → k_shape k' → heap_ok k' → k_fresh k <= k_fresh k' →
  k_pending k' = k_pending k → k_using k' = k_using k → k_nums k' = k_nums k →
  (∀ p s, in_periph p → in_sig s → same_result (entry_at k p s) (entry_at k' p s)) →
  k_qmem k' = k_qmem k → k_queues k' = k_queues k → k_waiting k' = k_waiting k →
  (∀ id, owned k a id → k_heap k' !! id = k_heap k !! id) → rel k' a.
Proof.
  intros [? Hsig ?? Hq Hph Hown Hlive Hw] Hsh Hh Hf E1 E2 E3 He E4 E5 E6 Hsame.
  assert (∀ p s, sig_of k' p s = sig_of k p s) as Hso by (intros; unfold sig_of; by rewrite E1, E2).
  constructor; auto.
  - intros p Hp. rewrite E1, E2, E3. by apply Hsig.
  - unfold queues_rel, q_at in *. by rewrite E4, E5.
  - intros p s Hp Hs. eapply phase_ok_frame; [by apply Hso|by apply He| |by apply Hph].
    intros id Hid. apply Hsame. by exists p, s.
  - intros p s p' s' id Hp Hs Hp' Hs'. rewrite !(own_frame k k') by auto. by apply Hown.
  - intros p s id Hp Hs. rewrite (own_frame k k') by auto. intros Hid. 
    pose proof (Hlive p s id Hp Hs Hid). lia.
  - intros p Hp. unfold waiting_at. rewrite E6. by apply Hw.
Qed.

Lemma same_refl e : same_result e e.
Proof. done. Qed.

Lemma rel_upto k k' a : upto k k' → rel k a → rel k' a.
Proof.
  intros (d&Hd&->) Hr. pose proof (rl_shape _ _ Hr). pose proof (rl_heap _ _ Hr).
  apply (rel_frame k); auto; try done. by apply k_shape_set_d.
Qed.

(** A change of the phase of one signal. *)
Lemma rel_update k k' a a' p s v :
  rel k a → in_periph p → in_sig s → a_inv a' →
  (∀ q j, a_phase a' q j = upd2 (a_phase a) p s v q j) →
  k_shape k' → sig_inv k' → heap_ok k' → k_fresh k <= k_fresh k' →
  (∀ q j, in_periph q → in_sig j → (q, j) ≠ (p, s) →
     sig_of k' q j = sig_of k q j ∧ same_result (entry_at k q j) (entry_at k' q j)
     ∧ ∀ id, id ∈ own k q j (a_phase a q j) →
         k_heap k' !! id = k_heap k !! id ∧ id ∉ own k' p s v) →
  phase_ok k' p s v → (∀ id, id ∈ own k' p s v → id < k_fresh k') →
  queues_rel k' a' → (∀ q, in_periph q → waiting_at k' q = true → a_queue a' q = []) →
  rel k' a'.
Proof.
  intros Hr Hp Hs Hai Hph Hsh Hsig Hh Hf Hoth Hok Hlv Hq Hw.
  assert (∀ q j, in_periph q → in_sig j → (q, j) ≠ (p, s) →
    own k' q j (a_phase a' q j) = own k q j (a_phase a q j)) as Hown.
  { intros q j ?? Hne. rewrite Hph, upd2_ne by done. by apply own_frame, Hoth. }
  assert (own k' p s (a_phase a' p s) = own k' p s v) as Hownp by (by rewrite Hph, upd2_eq).
  constructor; auto.
  - intros q j ??. destruct (decide ((q, j) = (p, s))) as [[= -> ->]|Hne].
    + by rewrite Hph, upd2_eq.
    + destruct (Hoth q j) as (?&?&Hid); auto. rewrite Hph, upd2_ne by done.
      eapply phase_ok_frame; eauto; [|by apply Hr]. intros id Hi. by apply Hid.
  - intros q j q' j' id ????.
    destruct (decide ((q, j) = (p, s))) as [[= -> ->]|Hne], (decide ((q', j') = (p, s))) as [[= -> ->]|Hne'];
      rewrite ?Hownp, ?Hown by done.
    + done.
    + intros Hi Hi'. destruct (Hoth q' j') as (_&_&Hx); auto. by destruct (Hx id Hi').
    + intros Hi Hi'. destruct (Hoth q j) as (_&_&Hx); auto. by destruct (Hx id Hi).
    + by apply (rl_own _ _ Hr).
  - intros q j id ??. destruct (decide ((q, j) = (p, s))) as [[= -> ->]|Hne].
    + rewrite Hownp. apply Hlv.
    + rewrite Hown by done. intros Hi. pose proof (rl_live _ _ Hr q j id). assert (id < k_fresh k) by auto. lia.
Qed.

(** A move of the loop or the queue that leaves the phases alone. *)
Lemma rel_moved k k' a a' : rel k a → a_inv a' → (∀ q j, a_phase a' q j = a_phase a q j) →
  upto (set_k_waiting (k_waiting k') (set_k_queues (k_queues k') (set_k_qmem (k_qmem k') k))) k' →
  k_shape k' → queues_rel k' a' →
  (∀ q, in_periph q → waiting_at k' q = true → a_queue a' q = []) → rel k' a'.
Proof.
  intros Hr Hai Hph (d&Hd&E) Hsh Hq Hw. destruct Hr as [Hs Hsig Hh _ _ Hphk Hown Hlive _].
  assert (k_heap k' = k_heap k ∧ k_fresh k' = k_fresh k ∧ k_table k' = k_table k
    ∧ k_pending k' = k_pending k ∧ k_using k' = k_using k ∧ k_nums k' = k_nums k) as (E1&E2&E3&E4&E5&E6)
    by (rewrite E; done).
  assert (∀ q j, sig_of k' q j = sig_of k q j) as Hso by (intros; unfold sig_of; by rewrite E4, E5).
  assert (∀ q j, entry_at k' q j = entry_at k q j) as He by (intros; unfold entry_at; by rewrite E3).
  assert (∀ q j ph, own k' q j ph = own k q j ph) as Ho by (intros q j []; cbn; by rewrite ?He).
  constructor; auto.
  - intros p Hp. rewrite E4, E5, E6. by apply Hsig.
  - unfold heap_ok in *. by rewrite E1, E2.
  - intros p s Hp Hs'. rewrite Hph. eapply phase_ok_frame; [by apply Hso|by rewrite He| |by apply Hphk].
    intros. by rewrite E1.
  - intros *. rewrite !Ho, !Hph. by apply Hown.
  - intros *. rewrite !Ho, !Hph, E2. by apply Hlive.
Qed.

(** ** The initial state *)

Lemma k_init_heap : heap_ok k_init.
Proof. split; [done|]. intros id b Hx. change (k_heap k_init) with (∅ : gmap Z buf) in Hx. by rewrite lookup_empty in Hx. Qed.

Lemma rel_init : rel k_init a_init.
Proof.
  constructor; try done.
  - apply k_init_shape.
  - apply k_init_sig.
  - apply a_init_inv.
  - split; [done|]. exists (λ _, []). split.
    + intros p Hp. split; [|done]. unfold q_at. cbn [k_init k_queues k_qmem].
      unfold in_periph, N_PERIPH in *. rewrite lookup_replicate_2 by lia.
      split_and!; [done|done|constructor|constructor].
    + intros p q id _ _ _ Hin. by apply elem_of_nil in Hin.
  - intros p s Hp Hs. cbn. unfold sig_of, at_. cbn [k_init k_using].
    unfold in_periph, N_PERIPH in *. rewrite lookup_replicate_2 by lia. cbn. by rewrite Z.testbit_0_l.
  - intros p s p' s' id ???? Hin. by apply elem_of_nil in Hin.
  - intros p s id ?? Hin. by apply elem_of_nil in Hin.
Qed.

(** ** Steps of the implementation *)

Lemma rel_free k a p s : rel k a → in_periph p → in_sig s → sig_of k p s = SigFree →
  a_phase a p s = PFree.
Proof.
  intros Hr Hp Hs Hf. pose proof (rl_phase _ _ Hr p s Hp Hs) as Hok.
  destruct (a_phase a p s); cbn in Hok; [done|congruence|..]; destruct Hok; congruence.
Qed.

Lemma rel_ready k a p s : rel k a → in_periph p → in_sig s → sig_of k p s = SigReady →
  ∃ res, a_phase a p s = PReady res ∧ entry_is (k_heap k) (entry_at k p s) res.
Proof.
  intros Hr Hp Hs Hf. pose proof (rl_phase _ _ Hr p s Hp Hs) as Hok.
  destruct (a_phase a p s) as [| | | |res]; cbn in Hok; [congruence|congruence|..];
    try (destruct Hok; congruence). exists res. by destruct Hok.
Qed.

Lemma queues_rel_phase k k' a a' : k_qmem k' = k_qmem k → k_queues k' = k_queues k →
  a_queue a' = a_queue a → queues_rel k a → queues_rel k' a'.
Proof. intros E1 E2 E3. unfold queues_rel, q_at. by rewrite E1, E2, E3. Qed.

Lemma rel_alloc t k a p : rel k a → in_periph p →
  wp t (allocate_signo p) (λ r k',
    k_heap k' = k_heap k ∧ k_fresh k' = k_fresh k
    ∧ ((r = -1 ∧ rel k' a ∧ ∀ s, in_sig s → sig_of k p s ≠ SigFree)
       ∨ (in_sig r ∧ a_step a (set_phase p r PHeld a) ∧ rel k' (set_phase p r PHeld a)
          ∧ (∀ id, owned k' (set_phase p r PHeld a) id → owned k a id)
          ∧ sig_of k p r = SigFree ∧ ∀ j, 0 <= j < r → sig_of k p j ≠ SigFree))) k.
Proof.
  intros Hr Hp. pose proof (rl_shape _ _ Hr) as Hk. pose proof (rl_sig _ _ Hr) as Hi.
  eapply wp_mono; [by apply (allocate_step k p)|].
  intros r k' [(->&Hnone&Hu)|(Hs&Hf&Hlow&Hu)].
  - pose proof (rel_upto _ _ _ Hu Hr). destruct Hu as (d&_&->). split_and!; try done. by left.
  - assert (k_heap k' = k_heap k ∧ k_fresh k' = k_fresh k) as [E1 E2] by (by destruct Hu as (d&_&->)).
    split_and!; try done. right. pose proof (rel_free _ _ _ _ Hr Hp Hs Hf) as Hph.
    assert (a_step a (set_phase p r PHeld a)) as Hst by (eexists; by constructor). split_and!; try done.
    2:{ intros id (q&j&Hq&Hj&Hid). exists q, j. split_and!; try done. revert Hid. cbn. unfold upd2.
        case_decide as Hd; cbn; [intros Hx; by apply elem_of_nil in Hx|]. rewrite (own_frame k k'); [done|].
        destruct Hu as (d&_&->). change (entry_at (set_k_d d (allocated k p r)) q j)
          with (entry_at (allocated k p r) q j). unfold allocated.
        destruct Hk as (_&_&_&_&Ht&_). rewrite entry_set_other; [done|done|done|done|done|naive_solver]. }
    eapply rel_upto; [exact Hu|].
    destruct (allocated_sig k p r Hk Hi Hp Hs Hf) as [Hi' Hso]. pose proof Hk as (_&_&_&_&Ht&_).
    pose proof (rl_heap _ _ Hr) as Hh.
    apply (rel_update k _ a _ p r PHeld); auto.
    + eapply a_step_inv; [exact Hst|apply Hr].
    + by apply allocated_shape.
    + done.
    + intros q j Hq Hj Hne. rewrite Hso by done. unfold sig_upd. rewrite decide_False by naive_solver.
      split_and!; [done| |].
      * unfold allocated. rewrite entry_set_other; done.
      * intros id Hid. split; [done|]. intros Hx. by apply elem_of_nil in Hx.
    + cbn. rewrite Hso by done. unfold sig_upd. by rewrite decide_True.
    + intros id Hx. by apply elem_of_nil in Hx.
    + eapply queues_rel_phase; [..|apply Hr]; done.
    + apply Hr.
Qed.

(** ** What a command does to the queues

    The requests as their clients sent them: without the addresses of the
    blocks that hold the buffers. *)
Definition as_sent (r : io_req_t) : io_req_t :=
  IoReq (rq_type r) (rq_signo r)
    ((λ q, match q with Memref _ n => Memref Null n | v => v end) <$> rq_params r).

(** Whether the last allocation of a history succeeded. *)
Fixpoint last_malloc (h : history) : option bool :=
  match h with
  | E_malloc _ ok :: _ => Some ok
  | _ :: h' => last_malloc h'
  | [] => None
  end.

(** No loop moves, one request may enter a queue, no result appears or
    changes, and the signal of a request that waits is the one it was sent
    with. *)
Definition sent_to (q : Z) (sub : option (Z * io_req_t)) : list io_req_t :=
  match sub with Some (p, r) => if decide (q = p) then [r] else [] | None => [] end.
Definition client_moves (a a' : astate) (sub : option (Z * io_req_t)) : Prop :=
  a_pc a' = a_pc a
  ∧ (∀ q, as_sent <$> a_queue a' q = (as_sent <$> a_queue a q) ++ sent_to q sub)
  ∧ (∀ q j, a_phase a' q j = a_phase a q j ∨ result_of (a_phase a' q j) = None)
  ∧ (∀ q j r, a_phase a' q j = PWait r → a_phase a q j = PWait r ∨ sub = Some (q, as_sent r))
  ∧ ∀ q r, sub = Some (q, r) → ∃ r0, as_sent r0 = r ∧ a_phase a' q (rq_signo r) = PWait r0.

Lemma moves_refl a : client_moves a a None.
Proof. split; [done|]. split; [intros q; by rewrite app_nil_r|]. split; [by left|]. split; [by left|done]. Qed.
Lemma moves_trans a a1 a2 sub : client_moves a a1 None → client_moves a1 a2 sub → client_moves a a2 sub.
Proof.
  intros (Hp1&Hq1&Hr1&Hw1&_) (Hp2&Hq2&Hr2&Hw2&Hs2). split; [congruence|]. split; [|split; [|split; [|done]]].
  - intros q. rewrite Hq2, Hq1. by rewrite app_nil_r.
  - intros q j. destruct (Hr2 q j) as [->|?]; [apply Hr1|by right].
  - intros q j r Hw. destruct (Hw2 q j r Hw) as [Hw'|?]; [|by right]. left. by destruct (Hw1 q j r Hw') as [?|?].
Qed.

(** One signal is given out or taken back. *)
Lemma moves_phase a p s v : v = PHeld ∨ v = PFree → client_moves a (set_phase p s v a) None.
Proof.
  intros Hv. split; [done|]. split; [|split; [|split; [|done]]].
  - intros q. by rewrite app_nil_r.
  - intros q j. cbn. unfold upd2. case_decide; [right; by destruct Hv as [-> | ->]|by left].
  - intros q j r. cbn. unfold upd2. case_decide; [by destruct Hv as [-> | ->]|by left].
Qed.

(** What every command guarantees. *)
Definition cmd_post (a : astate) (sub : option (Z * io_req_t)) (k' : kstate) : Prop :=
  ∃ a', rtc a_step a a' ∧ client_moves a a' sub ∧ rel k' a'.

Lemma cmd_post_idle k a : rel k a → cmd_post a None k.
Proof. intros. exists a. split_and!; [done|apply moves_refl|done]. Qed.
Lemma cmd_post_step k a a1 sub : a_step a a1 → client_moves a a1 None → cmd_post a1 sub k → cmd_post a sub k.
Proof.
  intros Hs Hm (a'&?&?&?). exists a'. split_and!; [by eapply rtc_l|by eapply moves_trans|done].
Qed.

Section submission.
Context `{Env, Storage}.

Lemma wp_on_queue {A} t p (m : QM (A:=io_req_t) A) Q k : in_periph p → length (k_queues k) = 64%nat →
  wp t m (λ r s, Q r (set_k_queues (<[Z.to_nat p := s.2]> (k_queues k)) (set_k_qmem s.1 k)))
    (k_qmem k, q_at k p) →
  wp t (on_queue p m) Q k.
Proof using.
  intros Hp Hl Hw. unfold on_queue. wp_steps. unfold in_periph, N_PERIPH in *.
  assert (k_queues k !! Z.to_nat p = Some (q_at k p)) as Hq.
  { unfold q_at. destruct (k_queues k !! Z.to_nat p) eqn:E; [done|].
    apply lookup_ge_None in E. lia. }
  eapply wp_arr_get; [lia|exact Hq|]. apply wp_zoom. rewrite Hq. exact Hw.
Qed.

Lemma q_at_insert k p q x m : in_periph p → in_periph q → k_shape k →
  q_at (set_k_queues (<[Z.to_nat p := x]> (k_queues k)) (set_k_qmem m k)) q
  = if decide (p = q) then x else q_at k q.
Proof using.
  intros Hp Hq (_&_&_&_&_&Hl&_). unfold q_at, in_periph, N_PERIPH in *; cbn.
  destruct (decide (p = q)) as [->|].
  - rewrite list_lookup_insert_eq by lia. done.
  - rewrite list_lookup_insert_ne by lia. done.
Qed.

Lemma waiting_insert k p q b : in_periph p → in_periph q → k_shape k →
  waiting_at (set_k_waiting (<[Z.to_nat p := b]> (k_waiting k)) k) q
  = if decide (p = q) then b else waiting_at k q.
Proof using.
  intros Hp Hq (_&_&_&_&_&_&Hl&_). unfold waiting_at, in_periph, N_PERIPH in *; cbn.
  destruct (decide (p = q)) as [->|].
  - rewrite list_lookup_insert_eq by lia. done.
  - rewrite list_lookup_insert_ne by lia. done.
Qed.

Lemma waiting_shape k p b : k_shape k → k_shape (set_k_waiting (<[p := b]> (k_waiting k)) k).
Proof using. shape. Qed.

Lemma set_waiting_spec t p b k : in_periph p → length (k_waiting k) = 64%nat →
  wp t (set_waiting p b) (λ _ k', k' = set_k_waiting (<[Z.to_nat p := b]> (k_waiting k)) k) k.
Proof using.
  intros Hp Hl. unfold set_waiting. wp_steps.
  apply wp_arr_set; [unfold in_periph, N_PERIPH in *; lia|]. by wp_steps.
Qed.

(** Appending to one of the queues, all of which share the node memory. *)
Lemma queues_rel_enqueue k a p m' q' r l : queues_rel k a → in_periph p → k_shape k →
  (∀ l0, queue_rep (k_qmem k) (q_at k p) l0 →
     queue_rep m' q' (l0 ++ [(qm_fresh (k_qmem k), r)]) ∧ qm_fresh m' = qm_fresh (k_qmem k) + 1
     ∧ ∀ id, id ∉ l0.*1 → id ≠ qm_fresh (k_qmem k) → qm_nodes m' !! id = qm_nodes (k_qmem k) !! id) →
  l = a_queue a p ++ [r] →
  queues_rel (set_k_queues (<[Z.to_nat p := q']> (k_queues k)) (set_k_qmem m' k)) (set_queue p l a).
Proof using.
  intros (Hpos&ql&Hql&Hdis) Hp Hk Henq ->. destruct (Hql p Hp) as [Hrep Hl2].
  destruct (Henq _ Hrep) as (Hrep'&Hf&Hother). split; [cbn; lia|].
  exists (upd1 ql p (ql p ++ [(qm_fresh (k_qmem k), r)])).
  assert (∀ q, in_periph q → qm_fresh (k_qmem k) ∉ (ql q).*1) as Hni.
  { intros q Hq Hin. destruct (Hql q Hq) as [(_&_&_&Hlt) _].
    rewrite Forall_forall in Hlt. apply Hlt in Hin. lia. }
  split.
  - intros q Hq. rewrite q_at_insert by done. cbn. destruct (decide (p = q)) as [<-|Hne].
    + rewrite !upd1_eq. split; [done|]. by rewrite fmap_app, Hl2.
    + rewrite !upd1_ne by done. destruct (Hql q Hq) as [Hq1 Hq2]. split; [|done].
      eapply queue_rep_frame; [| |exact Hq1]; [|lia]. intros id Hid. apply Hother.
      * intros Hin. by apply (Hdis p q id).
      * intros ->. by apply (Hni q).
  - intros q1 q2 id Hq1 Hq2 Hne. unfold upd1.
    assert (∀ x, x ∈ (ql p ++ [(qm_fresh (k_qmem k), r)]).*1 →
      x ∈ (ql p).*1 ∨ x = qm_fresh (k_qmem k)) as Hsp.
    { intros x. rewrite fmap_app, elem_of_app. intros [?|?%list_elem_of_singleton]; auto. }
    destruct (decide (q1 = p)) as [->|], (decide (q2 = p)) as [->|]; try done.
    + intros [?| ->]%Hsp; [by apply (Hdis p)|by apply Hni].
    + intros Hin [?| ->]%Hsp; [by apply (Hdis q1 p id)|by apply (Hni q1)].
    + by apply Hdis.
Qed.

Lemma kept_logged_section l e d : l ∉ d_held d → kept d (unlocked l (d_log e (locked l d))).
Proof using.
  intros Hl. split.
  - etrans; [apply locked_frame|]. etrans; [apply d_ext_frame, d_ext_log|]. apply unlocked_frame.
  - cbn. apply leibniz_equiv. set_solver.
Qed.

(** The state after [submit]: queue memory and queue [p] replaced, the loop
    woken, the history longer. *)
Definition submitted (k : kstate) (p : Z) (d : dstate) (m : qmem) (q : io_req_queue) : kstate :=
  set_k_d d (set_k_waiting (<[Z.to_nat p := false]> (k_waiting k))
    (set_k_queues (<[Z.to_nat p := q]> (k_queues k)) (set_k_qmem m k))).

Lemma submitted_shape k p d m q : k_shape k → kept (k_d k) d → k_shape (submitted k p d m q).
Proof using.
  intros Hk Hd. apply (k_shape_set_d (set_k_waiting _ (set_k_queues _ (set_k_qmem m k)))); [|done].
  revert Hk. shape.
Qed.

Lemma submitted_queued k a p d m q r l : queues_rel k a → in_periph p → k_shape k →
  (∀ q, in_periph q → waiting_at k q = true → a_queue a q = []) →
  queues_rel (set_k_queues (<[Z.to_nat p := q]> (k_queues k)) (set_k_qmem m k)) (set_queue p l a) →
  (l = a_queue a p ∨ l = a_queue a p ++ [r]) →
  queues_rel (submitted k p d m q) (set_queue p l a)
  ∧ ∀ q', in_periph q' → waiting_at (submitted k p d m q) q' = true → a_queue (set_queue p l a) q' = [].
Proof using.
  intros Hq Hp Hk Hw Hq' Hl. split; [done|]. intros q' Hq0.
  change (waiting_at (submitted k p d m q) q')
    with (waiting_at (set_k_waiting (<[Z.to_nat p := false]> (k_waiting k)) k) q').
  rewrite waiting_insert by done. case_decide as E; [done|]. cbn. rewrite upd1_ne by done. by apply Hw.
Qed.

Lemma submit_spec t k a p r : rel k a → in_periph p →
  wp t (submit p r) (λ _ k', ∃ d m q ok, kept (k_d k) d ∧ k' = submitted k p d m q
    ∧ last_malloc (d_trace d) = Some ok
    ∧ if ok : bool then queues_rel (set_k_queues (<[Z.to_nat p := q]> (k_queues k)) (set_k_qmem m k))
                          (set_queue p (a_queue a p ++ [r]) a)
      else m = k_qmem k ∧ q = q_at k p) k.
Proof using.
  intros Hr Hp. pose proof (rl_shape _ _ Hr) as Hk. pose proof (rl_queues _ _ Hr) as Hq.
  pose proof Hk as (_&_&_&_&_&Hlq&Hlw&_&_&_&_&Hh). unfold submit. wp_steps. k_lock. wp_steps.
  unfold wp at 1, node_malloc. set (ok := env_malloc _ _). set (d1 := d_log _ _). wp_steps.
  change (set_k_d d1 (set_k_d (locked (L_queue p) (k_d k)) k)) with (set_k_d d1 k).
  apply wp_on_queue; [done|done|]. change (k_qmem (set_k_d d1 k)) with (k_qmem k).
  change (q_at (set_k_d d1 k) p) with (q_at k p). pose proof Hq as (Hpos&ql&Hql&_).
  destruct (Hql p Hp) as [Hrep _].
  assert (∀ m q (P : Prop), P →
    wp t (condvar_signal p;; kunlock L_queue p) (λ _ k', ∃ d, kept (k_d k) d
      ∧ k' = submitted k p d m q ∧ last_malloc (d_trace d) = Some ok ∧ P)
      (set_k_queues (<[Z.to_nat p := q]> (k_queues k)) (set_k_qmem m (set_k_d d1 k)))) as Hend.
  { intros m q P HP. wp_steps. eapply wp_mono; [by apply set_waiting_spec|]. intros ? ? ->.
    eapply wp_mono; [apply kunlock_spec; [done|cbn; set_solver]|]. intros ? ? ->.
    eexists. split_and!; [|reflexivity|done|done]. cbn. apply kept_logged_section. rewrite Hh. set_solver. }
  destruct ok.
  - eapply wp_mono; [by apply (enqueue_spec _ _ _ (ql p))|]. intros r0 [m q] (_&Hrep'&Hf&Hoth).
    assert (queues_rel (set_k_queues (<[Z.to_nat p := q]> (k_queues k)) (set_k_qmem m k))
              (set_queue p (a_queue a p ++ [r]) a)) as HP.
    { eapply queues_rel_enqueue; eauto. intros l0 Hl0.
      assert (l0 = ql p) as ->; [|done]. by eapply queue_rep_inj. }
    specialize (Hend m q _ HP). apply wp_bind_inv in Hend. wp_steps. cbn [fst snd].
    eapply wp_mono; [exact Hend|]. intros ? k2 Hk2. eapply wp_mono; [exact Hk2|].
    intros ? k3 (d&?&?&?&?). by exists d, m, q, true.
  - eapply wp_mono; [by apply enqueue_oom|]. intros r0 ? [_ ->].
    specialize (Hend (k_qmem k) (q_at k p) True I). apply wp_bind_inv in Hend. wp_steps. cbn [fst snd].
    eapply wp_mono; [exact Hend|]. intros ? k2 Hk2. eapply wp_mono; [exact Hk2|].
    intros ? k3 (d&?&?&?&_). by exists d, (k_qmem k), (q_at k p), false.
Qed.

(** The effect of [submit]: the request is queued if its node was allocated. *)
Definition queued_as (k' : kstate) (p : Z) (r : io_req_t) : option (Z * io_req_t) :=
  if bool_decide (last_malloc (d_trace (k_d k')) = Some true) then Some (p, as_sent r) else None.

Lemma rel_submit t k a p r : rel k a → in_periph p → in_sig (rq_signo r) →
  a_phase a p (rq_signo r) = PHeld → req_ok (k_heap k) r →
  (∀ id, id ∈ req_blocks r → id < k_fresh k ∧ ¬ owned k a id) →
  wp t (submit p r) (λ _ k', cmd_post a (queued_as k' p r) k') k.
Proof using.
  intros Hr Hp Hs Hph Hok Hfr. pose proof (rl_shape _ _ Hr) as Hk. pose proof (rl_queues _ _ Hr) as Hq.
  pose proof (rl_phase _ _ Hr p (rq_signo r) Hp Hs) as Hbusy. rewrite Hph in Hbusy. cbn in Hbusy.
  eapply wp_mono; [by apply submit_spec|]. intros _ k' (d&m&q&ok&Hd&->&Hlm&Hok').
  assert (queued_as (submitted k p d m q) p r = if ok then Some (p, as_sent r) else None) as Hqa.
  { unfold queued_as. change (k_d (submitted k p d m q)) with d. rewrite Hlm. by destruct ok. }
  pose proof (submitted_shape k p d m q Hk Hd) as Hsh. destruct ok.
  - set (s := rq_signo r) in *. set (l := a_queue a p ++ [r]) in *.
    assert (a_step a (set_queue p l (set_phase p s (PWait r) a))) as Hst by (eexists; by constructor).
    eexists. split_and!; [by apply rtc_once| |].
    { rewrite Hqa. split; [done|]. split; [|split; [|split]].
      - intros q0. cbn. unfold upd1. destruct (decide (q0 = p)) as [->|Hne]; [|by rewrite app_nil_r].
        unfold l. by rewrite fmap_app.
      - intros q0 j. cbn. unfold upd2. case_decide; [by right|by left].
      - intros q0 j r0. cbn. unfold upd2. case_decide as E; [intros [= <-]; destruct E as [-> _]; by right|by left].
      - intros q0 r0 [= <- <-]. exists r. split; [done|]. cbn. apply upd2_eq. }
    destruct (submitted_queued k a p d m q r l Hq Hp Hk) as [Hq' Hw']; [apply Hr|done|by right|].
    apply (rel_update k _ a _ p s (PWait r)); auto; try (by apply Hr).
    + eapply a_step_inv; [exact Hst|apply Hr].
    + done.
    + intros q0 j Hq0 Hj Hne. split_and!; [done|done|]. intros id Hid. split; [done|]. cbn.
      intros Hx. apply Hfr in Hx as [_ Hno]. apply Hno. by exists q0, j.
    + done.
    + intros id Hx. by apply Hfr in Hx as [? _].
  - destruct Hok' as [-> ->]. exists a. split_and!; [done|rewrite Hqa; by apply moves_refl|].
    assert (queues_rel (set_k_queues (<[Z.to_nat p := q_at k p]> (k_queues k))
              (set_k_qmem (k_qmem k) k)) (set_queue p (a_queue a p) a)) as Hq2.
    { destruct Hq as (?&ql&Hql&?). split; [done|]. exists ql. split; [|done]. intros q Hq.
      rewrite q_at_insert by done. cbn. unfold upd1. destruct (decide (p = q)) as [<-|Hne].
      - rewrite decide_True by done. by apply Hql.
      - rewrite decide_False by done. by apply Hql. }
    destruct (submitted_queued k a p d (k_qmem k) (q_at k p) r (a_queue a p) Hq Hp Hk) as [Hq' Hw'];
      [apply Hr|done|by left|].
    apply (rel_moved k _ a); auto; [apply Hr|by exists d| |].
    + destruct Hq' as (?&ql&Hql&?). split; [done|]. exists ql. split; [|done].
      intros q Hqq. specialize (Hql q Hqq). cbn in Hql. unfold upd1 in Hql. case_decide; naive_solver.
    + intros q Hqq Hwq. specialize (Hw' q Hqq Hwq). cbn in Hw'. unfold upd1 in Hw'.
      case_decide; naive_solver.
Qed.
End submission.
