(* ===== verification/IoReference.v ===== *)
(** * What a request comes to: a reference for the request handlers

    [operation] says for every kind of request which driver operation or
    system calls it stands for and what they deliver, without the signal
    table, the heap or the dispatch of the handlers.  [handle_req_records]:
    what a handler leaves in the table entry and the block of its signal is
    what the operation delivers, run at the same point of the history. *)

From Stdlib Require Import ZArith Lia Bool.
From stdpp Require Import base tactics option list numbers gmap relations.
From S2P Require Import Prelude Platform Gpio I2c Spi Sensors Tel0157 Dht IoReq.
From S2P Require Import IoState IoSignal IoSignalProofs IoSpec IoHandlers IoHandlersProofs.
From S2P Require Import IoHelper IoSystem Frames.

Open Scope Z_scope.

(** ** The reference *)

(** What an operation comes to: a status, or [n] bytes of data. *)
Inductive delivery := Status (res : Z) | Data (n : Z) (b : buf).

(** How the client sees it: the [int] of the entry and the bytes. *)
Definition result_of_delivery (x : delivery) : result :=
  match x with
  | Status res => Res (i32 res) []
  | Data n b => Res (i32 n) (if u32 n =? 0 then [] else b)
  end.

Section reference.
Context `{Env, Storage}.

(** The answer of the allocator, which the history records. *)
Definition ask_memory (n : Z) : D bool := λ d,
  let ok := env_malloc (d_trace d) n in Ok ok (d_log (E_malloc n ok) d).
Definition system_call (res : Z) : D Z := modify (d_log (E_storage res));; mret res.

(** An operation that fills a fresh block of [n] bytes, which it may leave as
    it is; without memory it is not run, and the answer is [oom]. *)
Definition filling (n oom : Z) (op : option buf → D (Z * option buf)) : D delivery :=
  ok ← ask_memory n;
  if negb ok then mret (Status oom) else
  '(res, ob) ← op (Some (uninit n));
  mret (if res =? TEE_SUCCESS then Data n (default (uninit n) ob) else Status res).

(** An operation of which only the status is of interest. *)
Definition status_only (m : D Z) : D delivery := res ← m; mret (Status res).

(** A section of the I2C bus of peripheral [p]. *)
Definition on_bus {A} (p : Z) (refused : Z → A) (m : D A) : D A :=
  res ← i2c_acquire (i2c_t (periph_no_to_i2c p));
  if negb (res =? TEE_SUCCESS) then mret (refused res) else
  r ← m;
  i2c_release (i2c_t (periph_no_to_i2c p));;
  mret r.

Definition store_object (id data : buf) : D Z :=
  h ← gets d_trace;
  res ← system_call (u32 (st_create h id).1);
  if negb (res =? TEE_SUCCESS) then mret res else
  h' ← gets d_trace;
  res ← system_call (u32 (st_write h' (st_create h id).2 data));
  system_call TEE_SUCCESS;;
  mret res.

Definition fetch_object (id : buf) : D delivery :=
  h ← gets d_trace;
  res ← system_call (u32 (st_open h id).1);
  if negb (res =? TEE_SUCCESS) then mret (Status res) else
  h' ← gets d_trace;
  let obj := (st_open h id).2 in
  res ← system_call (u32 (st_info h' obj).1);
  if negb (res =? TEE_SUCCESS) then mret (Status res) else
  let size := u32 (st_info h' obj).2 in
  ok ← ask_memory size;
  if negb ok then system_call TEE_SUCCESS;; mret (Status TEE_ERROR_OUT_OF_MEMORY) else
  h'' ← gets d_trace;
  let '(r, cnt, l) := st_read h'' obj size in
  res ← system_call (u32 r);
  if negb (res =? TEE_SUCCESS) then system_call TEE_SUCCESS;; mret (Status res) else
  if negb (size =? u32 cnt) then system_call TEE_SUCCESS;; mret (Status TEE_ERROR_BAD_STATE) else
  let l := take (Z.to_nat size) l in
  mret (Data size (bytes l ++ drop (length l) (uninit size))).

(** An SPI transfer: write [out], and read [rlen] bytes meanwhile if asked. *)
Definition spi_exchange (p cs cont mf rlen : Z) (out : buf) (wlen : Z) : D delivery :=
  let spi := spi_t (periph_no_to_spi p) in
  ok ← (if 0 <? rlen then ask_memory rlen else mret true);
  if negb ok then mret (Status TEE_ERROR_OUT_OF_MEMORY) else
  res ← spi_acquire spi (spi_cs_t cs) (Z.land (Z.shiftr mf 16) 0xFFFF) (spi_clk_of (Z.land mf 0xFFFF));
  if negb (res =? TEE_SUCCESS) then mret (Status res) else
  '(res, ob) ← spi_transfer_bytes spi (spi_cs_t cs) (truth cont) (Some out)
                 (if rlen =? 0 then None else Some (uninit rlen)) wlen;
  spi_release spi;;
  mret (if res =? TEE_SUCCESS then Data rlen (default (uninit rlen) ob) else Status res).

(** The operation of each kind of request; [h] is the memory that holds the
    client's buffers. *)
Definition operation (h : gmap Z buf) (p : Z) (req : io_req_t) : D delivery :=
  let mem (id : Z) : buf := default [] (h !! id) in
  match rq_type req, rq_params req with
  | DHT_READ, [Value ty _; _; _] => filling 4 TEE_ERROR_BAD_STATE (λ ob,
      '(res, _, v) ← dht_read (Some (Dht (DhtParams (periph_no_to_gpio p) (dht_type_of ty) GPIO_IN_PU) (DhtData 0 0)));
      mret (res, match v with Some (t, hum) => Some (bytes (le 2 t ++ le 2 hum)) | None => ob end))
  | BH1750FVI_SAMPLE, [Value a _; _; _] => filling 2 TEE_ERROR_BAD_STATE (λ ob,
      '(res, lux) ← Bh1750fvi.bh1750fvi_sample (i2c_dev_of p a);
      mret (res, match lux with Some v => Some (bytes (le 2 v)) | None => ob end))
  | MPU6050_SAMPLE, [Value a _; _; _] =>
      (* the handler hands a missing block to the driver *)
      ok ← ask_memory 14;
      '(res, ob) ← Mpu6050.mpu_sample (i2c_dev_of p a) (if ok : bool then Some (uninit 14) else None);
      mret (if res =? TEE_SUCCESS then Data 14 (default (uninit 14) ob) else Status res)
  | I2C_READ_BYTES, [Value addr n; Value flags _; _] => filling n TEE_ERROR_OUT_OF_MEMORY (λ ob,
      on_bus p (λ res, (res, ob)) (i2c_read_bytes (i2c_t (periph_no_to_i2c p)) (u16 addr) ob n (u8 flags)))
  | I2C_READ_REGS, [Value addr reg; Value n flags; _] => filling n TEE_ERROR_OUT_OF_MEMORY (λ ob,
      on_bus p (λ res, (res, ob)) (i2c_read_regs (i2c_t (periph_no_to_i2c p)) (u16 addr) (u16 reg) ob n (u8 flags)))
  | I2C_WRITE_BYTES, [Memref (Blk id) n; Value addr flags; _] => status_only
      (on_bus p (λ res, res) (i2c_write_bytes (i2c_t (periph_no_to_i2c p)) (u16 addr) (Some (mem id)) n (u8 flags)))
  | SPI_TRANSFER_BYTES, [Memref (Blk id) wlen; Value cs cont; Value mf rlen] =>
      spi_exchange p cs cont mf rlen (mem id) wlen
  | AT24CXX_READ, [Value a addr; Value n _; _] => filling n TEE_ERROR_OUT_OF_MEMORY (λ ob,
      At24cxx.at24cxx_read (i2c_dev_of p a) (u16 addr) ob n)
  | AT24CXX_WRITE, [Memref (Blk id) n; Value a addr; _] => status_only
      (At24cxx.at24cxx_write (i2c_dev_of p a) (u16 addr) (Some (mem id)) (u32 n))
  | WRITE_SECURE_OBJECT, [Memref (Blk id) _; Memref (Blk data) _; _] =>
      status_only (store_object (mem id) (mem data))
  | READ_SECURE_OBJECT, [Memref (Blk id) _; _; _] => fetch_object (mem id)
  | TEL0157_GET_GNSS_LEN, [Value a _; _; _] => filling 2 TEE_ERROR_OUT_OF_MEMORY (λ ob,
      '(res, l) ← tel0157_get_gnss_len (tel_of p a);
      mret (res, match l with Some v => Some (bytes (le 2 v)) | None => ob end))
  | TEL0157_GET_ALL_GNSS, [Value a n; _; _] => filling n TEE_ERROR_OUT_OF_MEMORY (λ ob,
      tel0157_get_all_gnss (tel_of p a) ob (u16 n))
  | TEL0157_GET_UTC_TIME, [Value a _; _; _] => filling sizeof_time TEE_ERROR_OUT_OF_MEMORY (λ _,
      '(res, t) ← tel0157_get_utc_time (tel_of p a) time_none; mret (res, Some (time_bytes t)))
  | TEL0157_GET_GNSS_MODE, [Value a _; _; _] => filling 1 TEE_ERROR_OUT_OF_MEMORY (tel0157_get_gnss_mode (tel_of p a))
  | TEL0157_GET_NUM_SAT_USED, [Value a _; _; _] => filling 1 TEE_ERROR_OUT_OF_MEMORY (tel0157_get_num_sat_used (tel_of p a))
  | TEL0157_GET_LON, [Value a _; _; _] => filling sizeof_lon_lat TEE_ERROR_OUT_OF_MEMORY (λ _,
      '(res, q) ← tel0157_get_lon (tel_of p a) lon_lat_none; mret (res, Some (lon_lat_bytes q)))
  | TEL0157_GET_LAT, [Value a _; _; _] => filling sizeof_lon_lat TEE_ERROR_OUT_OF_MEMORY (λ _,
      '(res, q) ← tel0157_get_lat (tel_of p a) lon_lat_none; mret (res, Some (lon_lat_bytes q)))
  | TEL0157_GET_ALT, [Value a _; _; _] => filling 3 TEE_ERROR_OUT_OF_MEMORY (tel0157_get_alt (tel_of p a))
  | TEL0157_GET_SOG, [Value a _; _; _] => filling 3 TEE_ERROR_OUT_OF_MEMORY (tel0157_get_sog (tel_of p a))
  | TEL0157_GET_COG, [Value a _; _; _] => filling 3 TEE_ERROR_OUT_OF_MEMORY (tel0157_get_cog (tel_of p a))
  | ATK301_GET_FINGERPRINT_IMAGE, [Value a _; _; _] => status_only (Atk301.atk301_get_fingerprint_image (i2c_dev_of p a))
  | ATK301_UPLOAD_FINGERPRINT_IMAGE, [Value a _; _; _] =>
      filling Atk301.ATK301_FINGERPRINT_IMAGE_DATA_LEN TEE_ERROR_OUT_OF_MEMORY (λ ob,
        '(res, b) ← Atk301.atk301_upload_fingerprint_image (i2c_dev_of p a) (default [] ob); mret (res, Some b))
  | _, _ => mret (Status TEE_ERROR_NOT_SUPPORTED)
  end.
End reference.

(** ** Running a handler to its end *)

Section ends.
Context {S : Type}.
Lemma ends_step {A B} (m : M S A) (f : A → M S B) (Q : B → S → Prop) s :
  ends (λ a s', ends Q (f a s')) (m s) → ends Q ((m ≫= f) s).
Proof. unfold mbind, M_bind, ends. by destruct (m s). Qed.
Lemma ends_wp {A} t (m : M S A) (P Q : A → S → Prop) s :
  wp t m P s → (∀ a s', P a s' → Q a s') → ends Q (m s).
Proof. unfold wp, ends. destruct (m s); naive_solver. Qed.
Lemma bind_run {A B} (m : M S A) (f : A → M S B) s a s' : m s = Ok a s' → (m ≫= f) s = f a s'.
Proof. intros E. unfold mbind, M_bind. by rewrite E. Qed.
Lemma ends_mono {A} (P Q : A → S → Prop) (o : outcome S A) :
  ends P o → (∀ a s', P a s' → Q a s') → ends Q o.
Proof. unfold ends. destruct o; naive_solver. Qed.
End ends.

(** Steps of the reference of which the result is known. *)
Ltac run E := etrans; [eapply bind_run; first [exact E | etrans; [eapply bind_run; exact E|cbn beta match]]|cbn beta match].

(** The memory after [free]. *)
Definition freed (q : ptr) (h : gmap Z buf) : gmap Z buf :=
  match q with Blk id => delete id h | _ => h end.

Section primitives.
Context `{Env, Storage}.

Lemma ends_lift {A} (m : D A) (Q : A → kstate → Prop) k :
  (∀ a d, m (k_d k) = Ok a d → Q a (set_k_d d k)) → ends Q (lift m k).
Proof. intros HQ. unfold lift, zoom. destruct (m (k_d k)) as [a d| |] eqn:E; [by apply HQ|done|done]. Qed.
Lemma ends_malloc n (Q : ptr → kstate → Prop) k :
  (∀ ok, ask_memory n (k_d k) = Ok ok (d_log (E_malloc n ok) (k_d k)) →
     Q (if ok : bool then Blk (k_fresh k) else Null) (after_malloc n ok k)) → ends Q (malloc n k).
Proof.
  intros HQ. unfold malloc, ask_memory in *. specialize (HQ (env_malloc (d_trace (k_d k)) n) eq_refl).
  by destruct (env_malloc _ _).
Qed.
Lemma ends_load id b (Q : option buf → kstate → Prop) k : k_heap k !! id = Some b → Q (Some b) k →
  ends Q (load (Blk id) k).
Proof. intros Hb HQ. unfold load. by rewrite Hb. Qed.
Lemma ends_store id b b0 (Q : unit → kstate → Prop) k : k_heap k !! id = Some b0 →
  Q () (set_k_heap (<[id := b]> (k_heap k)) k) → ends Q (store (Blk id) (Some b) k).
Proof. intros Hb HQ. unfold store. by rewrite Hb. Qed.
Lemma ends_free q (Q : unit → kstate → Prop) k : Q () (set_k_heap (freed q (k_heap k)) k) → ends Q (free q k).
Proof.
  intros HQ. unfold free. destruct q as [|id|]; [|by destruct (k_heap k !! id)|done].
  cbn in *. by destruct k.
Qed.
Lemma ends_hist (Q : history → kstate → Prop) k : Q (d_trace (k_d k)) k → ends Q (hist k).
Proof. done. Qed.
Lemma ends_system_call r (Q : Z → kstate → Prop) k :
  Q r (set_k_d (d_log (E_storage r) (k_d k)) k) → ends Q (syscall r k).
Proof. done. Qed.
End primitives.

(** ** What a handler leaves behind *)

(** The entry and the memory after a delivery, in [k'], for a request that
    was handled in a state with memory [h]. *)
Definition published (h : gmap Z buf) (k' : kstate) (p s : Z) (x : delivery) : Prop :=
  let e := entry_at k' p s in
  match x with
  | Status res => se_ret e = i32 res ∧ k_heap k' ⊆ h
  | Data n b => se_ret e = i32 n ∧ se_len e = u32 n
      ∧ ∀ id, se_buf e = Blk id → k_heap k' !! id = Some b ∧ h !! id = None
  end.

Definition records `{Env, Storage} (k : kstate) (p : Z) (req : io_req_t) (m : D delivery) (k' : kstate) : Prop :=
  ∃ x, m (k_d k) = Ok x (k_d k') ∧ published (k_heap k) k' p (rq_signo req) x.

(** Together with the contract of the handler, the entry is the result. *)
Lemma published_is k p req k' x : heap_ok k → handler_post k p req k' → in_periph p → in_sig (rq_signo req) →
  k_shape k → published (k_heap k) k' p (rq_signo req) x →
  entry_is (k_heap k') (entry_at k' p (rq_signo req)) (result_of_delivery x).
Proof.
  intros [_ Hh] (e&Heq&_&_&_&_&He&Hnew&_&_) Hp Hs Hk Hx.
  assert (entry_at k' p (rq_signo req) = e) as Hee.
  { destruct Hk as (_&_&_&_&Ht&_). rewrite Heq. by apply (entry_set_same k). }
  unfold published in Hx. rewrite Hee in *. destruct x as [res|n ob]; cbn.
  - destruct Hx as [Hret Hsub]. split; [done|]. cbn. destruct (Z.ltb_spec (se_ret e) 0); [by left|].
    destruct (Z.eqb_spec (se_len e) 0); [by right; left|].
    destruct He as [?|[?|(id&b&Hb&Hid&_)]]; [lia|done|]. exfalso.
    assert (k_fresh k <= id) as Hge.
    { apply Hnew. unfold entry_block. rewrite (proj2 (Z.ltb_ge _ _)), (proj2 (Z.eqb_neq _ _)) by done. by rewrite Hb. }
    pose proof (lookup_weaken _ _ _ _ Hid Hsub) as Hx%Hh. lia.
  - destruct Hx as (Hret&Hlen&Hblk). split; [done|]. cbn. rewrite <- Hlen.
    destruct (Z.ltb_spec (se_ret e) 0); [by left|].
    destruct (Z.eqb_spec (se_len e) 0); [by right; left|].
    destruct He as [?|[?|(id&b&Hb&Hid&Hl)]]; [lia|done|]. do 2 right. exists id.
    destruct (Hblk id Hb) as [Hid' _]. rewrite Hid in Hid'. injection Hid' as <-. done.
Qed.

(** Reads the parameters of a request given as a literal list. *)
Section reads.
Context (req : io_req_t) (i : Z) (k : kstate) (Hi : 0 <= i).
Lemma ends_value_a a b (Q : Z → kstate → Prop) :
  rq_params req !! Z.to_nat i = Some (Value a b) → Q a k → ends Q (value_a req i k).
Proof using Hi. intros Hl HQ. apply (ends_wp false _ Q); [by eapply wp_value_a|done]. Qed.
Lemma ends_value_b a b (Q : Z → kstate → Prop) :
  rq_params req !! Z.to_nat i = Some (Value a b) → Q b k → ends Q (value_b req i k).
Proof using Hi. intros Hl HQ. apply (ends_wp false _ Q); [by eapply wp_value_b|done]. Qed.
Lemma ends_buffer q n (Q : ptr → kstate → Prop) :
  rq_params req !! Z.to_nat i = Some (Memref q n) → Q q k → ends Q (memref_buffer req i k).
Proof using Hi. intros Hl HQ. apply (ends_wp false _ Q); [by eapply wp_memref_buffer|done]. Qed.
Lemma ends_size q n (Q : Z → kstate → Prop) :
  rq_params req !! Z.to_nat i = Some (Memref q n) → Q n k → ends Q (memref_size req i k).
Proof using Hi. intros Hl HQ. apply (ends_wp false _ Q); [by eapply wp_memref_size|done]. Qed.
End reads.

Ltac ends_param :=
  repeat (lazymatch goal with
    | |- ends _ ((_ ≫= _) _) => apply ends_step
    | |- ends _ (value_a _ _ _) => eapply ends_value_a; [lia|reflexivity|]
    | |- ends _ (value_b _ _ _) => eapply ends_value_b; [lia|reflexivity|]
    | |- ends _ (memref_buffer _ _ _) => eapply ends_buffer; [lia|reflexivity|]
    | |- ends _ (memref_size _ _ _) => eapply ends_size; [lia|reflexivity|]
    end).

Section parts.
Context `{Env, Storage} (k : kstate) (p : Z) (req : io_req_t).
Context (Hpre : handler_pre k p req).
Let s := rq_signo req.
Let Hp : in_periph p := proj1 (proj2 (proj2 Hpre)).
Let Hs : in_sig s := proj2 (proj2 (proj2 Hpre)).
Let Ht : table_ok k := match Hpre with conj (conj _ (conj _ (conj _ (conj _ (conj h _))))) _ => h end.
Let Hh : heap_ok k := proj1 (proj2 Hpre).

(** The ends of the handlers, in a state that has the table of [k]. *)
Lemma ends_fail k1 r (Q : Z → kstate → Prop) : k_table k1 = k_table k →
  (∀ k', k_d k' = k_d k1 → k_heap k' = k_heap k1 → se_ret (entry_at k' p s) = i32 r → Q r k') →
  ends Q (fail p req r k1).
Proof using Hpre.
  intros E HQ. assert (table_ok k1) as Ht1 by (unfold table_ok in *; by rewrite E).
  eapply (ends_wp false); [by apply fail_spec|]. intros v k' [-> ->]. apply HQ; [done|done|].
  by rewrite entry_set_same.
Qed.
Lemma ends_set_ret k1 r (Q : unit → kstate → Prop) : k_table k1 = k_table k →
  (∀ k', k_d k' = k_d k1 → k_heap k' = k_heap k1 → se_ret (entry_at k' p s) = i32 r → Q () k') →
  ends Q (set_ret p s r k1).
Proof using Hpre.
  intros E HQ. assert (table_ok k1) as Ht1 by (unfold table_ok in *; by rewrite E).
  eapply (ends_wp false); [by apply set_ret_spec|]. intros [] k' ->. apply HQ; [done|done|].
  by rewrite entry_set_same.
Qed.
Lemma ends_finish k1 r (Q : unit → kstate → Prop) : k_table k1 = k_table k →
  (∀ k', k_d k' = k_d k1 → k_heap k' = k_heap k1 → se_ret (entry_at k' p s) = i32 r → Q () k') →
  ends Q (finish p req r k1).
Proof using Hpre.
  intros E HQ. assert (table_ok k1) as Ht1 by (unfold table_ok in *; by rewrite E).
  eapply (ends_wp false); [by apply finish_spec|]. intros [] k' ->. apply HQ; [done|done|].
  by rewrite entry_set_same.
Qed.
Lemma ends_succeed k1 n b (Q : Z → kstate → Prop) : k_table k1 = k_table k →
  (∀ k', k_d k' = k_d k1 → k_heap k' = k_heap k1 → se_ret (entry_at k' p s) = i32 n →
     se_len (entry_at k' p s) = u32 n → se_buf (entry_at k' p s) = b → Q TEE_SUCCESS k') →
  ends Q (succeed p req n b k1).
Proof using Hpre.
  intros E HQ. assert (table_ok k1) as Ht1 by (unfold table_ok in *; by rewrite E).
  eapply (ends_wp false); [by apply succeed_spec|]. intros v k' [-> ->]. apply HQ; rewrite ?entry_set_same by done; done.
Qed.

Lemma freed_sub q h : freed q h ⊆ h.
Proof using. destruct q; [done|apply delete_subseteq|done]. Qed.

(** From the operation on a fresh block to the end of the handler. *)
Lemma block_end k1 n res ob b m : k_table k1 = k_table k → k_heap k1 = <[k_fresh k := b]> (k_heap k) →
  b = default (uninit n) ob →
  m (k_d k) = Ok (if res =? TEE_SUCCESS then Data n (default (uninit n) ob) else Status res) (k_d k1) →
  ends (λ _ k', records k p req m k')
    ((if negb (res =? TEE_SUCCESS) then free (Blk (k_fresh k));; fail p req res
      else succeed p req n (Blk (k_fresh k))) k1).
Proof using Hpre.
  intros E Ehp Hb Hm. destruct (Z.eqb_spec res TEE_SUCCESS) as [->|Hne]; cbn [negb].
  - apply ends_succeed; [done|]. intros k' Ed Eh Er El Eb. eexists. split; [rewrite Ed; exact Hm|].
    split_and!; [done|done|]. intros id. unfold s in Eb. rewrite Eb. intros [= <-].
    rewrite Eh, Ehp, <- Hb. split; [apply lookup_insert_eq|by apply heap_fresh].
  - apply ends_step, ends_free. apply ends_fail; [done|]. intros k' Ed Eh Er. eexists.
    split; [rewrite Ed; exact Hm|]. split; [done|]. rewrite Eh. cbn. rewrite Ehp, delete_insert_eq.
    apply delete_subseteq.
Qed.

(** A block, the driver operation on it, and its end. *)
Lemma alloc_records n oom op op' : (∀ ob d, op ob d = op' ob d) →
  ends (λ _ k', records k p req (filling n oom op') k') (handle_alloc p req n oom op k).
Proof using Hpre.
  intros Hop. unfold handle_alloc. apply ends_step, ends_malloc. intros ok Hok. destruct ok.
  2:{ apply ends_fail; [done|]. intros k' Ed Eh Er. exists (Status oom). split.
      - unfold filling, mbind, M_bind. by rewrite Hok, Ed.
      - split; [done|]. by rewrite Eh. }
  unfold run_into. apply ends_step. eapply ends_load; [cbn; by rewrite lookup_insert_eq|].
  apply ends_step, ends_lift. intros [res ob] d E. rewrite Hop in E.
  assert (filling n oom op' (k_d k) = Ok (if res =? TEE_SUCCESS then Data n (default (uninit n) ob) else Status res) d) as Hm.
  { unfold filling, mbind, M_bind. rewrite Hok. cbn [negb]. cbn in E. by rewrite E. }
  apply ends_step. destruct ob as [b|].
  - eapply ends_store; [cbn; by rewrite lookup_insert_eq|]. eapply block_end; [done| |done|exact Hm].
    cbn. by rewrite insert_insert_eq.
  - unfold store, ends at 1. eapply (block_end _ n res None); [done|done|done|exact Hm].
Qed.

(** The one handler that hands a missing block to the driver. *)
Lemma mpu_records a0 (op := Mpu6050.mpu_sample (i2c_dev_of p a0)) (m : D delivery := ok ← ask_memory 14;
      '(res, ob) ← op (if ok : bool then Some (uninit 14) else None);
      mret (if res =? TEE_SUCCESS then Data 14 (default (uninit 14) ob) else Status res)) :
  ends (λ _ k', records k p req m k') ((b ← malloc 14; run_into p req 14 b op) k).
Proof using Hpre.
  apply ends_step, ends_malloc. intros ok Hok. unfold run_into. apply ends_step.
  assert (∀ res ob d, op (if ok then Some (uninit 14) else None) (d_log (E_malloc 14 ok) (k_d k)) = Ok (res, ob) d →
    m (k_d k) = Ok (if res =? TEE_SUCCESS then Data 14 (default (uninit 14) ob) else Status res) d) as Hm.
  { intros res ob d E. unfold m, mbind at 1, M_bind at 1. rewrite Hok. unfold mbind, M_bind. by rewrite E. }
  destruct ok.
  - eapply ends_load; [cbn; by rewrite lookup_insert_eq|]. apply ends_step, ends_lift. intros [res ob] d E.
    apply ends_step. destruct ob as [b|].
    + eapply ends_store; [cbn; by rewrite lookup_insert_eq|]. eapply block_end; [done| |done|by apply Hm].
      cbn. by rewrite insert_insert_eq.
    + unfold store, ends at 1. eapply (block_end _ 14 res None); [done|done|done|by apply Hm].
  - unfold load, ends at 1. apply ends_step, ends_lift. intros [res ob] d E. apply ends_step.
    unfold store, ends at 1. apply Hm in E. destruct (Z.eqb_spec res TEE_SUCCESS) as [->|Hne]; cbn [negb].
    + apply ends_succeed; [done|]. intros k' Ed Eh Er El Eb. eexists. split; [rewrite Ed; exact E|].
      split_and!; [done|done|]. unfold s in Eb. by rewrite Eb.
    + apply ends_step, ends_free. apply ends_fail; [done|]. intros k' Ed Eh Er. eexists. split; [rewrite Ed; exact E|].
      split; [done|]. by rewrite Eh.
Qed.

(** Freeing one of the client's blocks keeps what was recorded. *)
Lemma records_free m k1 id : is_Some (k_heap k !! id) → records k p req m k1 →
  records k p req m (set_k_heap (delete id (k_heap k1)) k1).
Proof using.
  intros [b Hid] (x&Hm&Hx). exists x. split; [exact Hm|]. destruct x as [res|n c]; cbn in *.
  - destruct Hx. split; [done|]. etrans; [apply delete_subseteq|done].
  - destruct Hx as (?&?&Hblk). split_and!; [done|done|]. intros i Hi. destruct (Hblk i Hi) as [? Hno].
    split; [|done]. rewrite lookup_delete_ne; [done|]. intros ->. congruence.
Qed.

(** A status, recorded by [finish] in a state with the memory of [k]. *)
Lemma records_status k' k1 r m : k_d k' = k_d k1 → k_heap k' ⊆ k_heap k → se_ret (entry_at k' p s) = i32 r →
  m (k_d k) = Ok (Status r) (k_d k1) → records k p req m k'.
Proof using. intros Ed Eh Er Hm. exists (Status r). rewrite Ed. by split_and!. Qed.
End parts.

Section handlers.
Context `{Env, Storage} (k : kstate) (p : Z).

Lemma on_bus_refused {A} (f : Z → A) (m : D A) r d d' : i2c_acquire (i2c_t (periph_no_to_i2c p)) d = Ok r d' →
  r ≠ TEE_SUCCESS → on_bus p f m d = Ok (f r) d'.
Proof using. intros E Hne. unfold on_bus. run E. by rewrite (proj2 (Z.eqb_neq _ _)). Qed.
Lemma on_bus_run {A} (f : Z → A) (m : D A) r d d1 d2 d3 u :
  i2c_acquire (i2c_t (periph_no_to_i2c p)) d = Ok TEE_SUCCESS d1 → m d1 = Ok r d2 →
  i2c_release (i2c_t (periph_no_to_i2c p)) d2 = Ok u d3 → on_bus p f m d = Ok r d3.
Proof using. intros E1 E2 E3. unfold on_bus. run E1. rewrite Z.eqb_refl. cbn [negb]. run E2. by run E3. Qed.
Lemma status_run (m : D Z) d r d' : m d = Ok r d' → status_only m d = Ok (Status r) d'.
Proof using. intros E. unfold status_only. by run E. Qed.

Lemma i2c_write_records ty s id n addr fl q2 data : let req := IoReq ty s [Memref (Blk id) n; Value addr fl; q2] in
  handler_pre k p req → k_heap k !! id = Some data →
  ends (λ _ k', records k p req (status_only (on_bus p (λ res, res)
      (i2c_write_bytes (i2c_t (periph_no_to_i2c p)) (u16 addr) (Some data) n (u8 fl)))) k')
    (handle_i2c_write_bytes req p k).
Proof using.
  intros req Hpre Hid. unfold handle_i2c_write_bytes. apply ends_step, ends_lift. intros r d Ea.
  destruct (Z.eqb_spec r TEE_SUCCESS) as [->|Hne]; cbn [negb].
  2:{ apply (ends_fail k p req Hpre); [done|]. intros k' Ed Eh Er.
      eapply (records_status k p req k' (set_k_d d k) r); [done|by rewrite Eh|done|].
      by apply status_run, (on_bus_refused (λ res, res)). }
  ends_param. eapply ends_load; [exact Hid|]. apply ends_step, ends_lift. intros r d1 Ew.
  apply ends_step, ends_lift. intros u d2 Er. apply ends_step. apply (ends_finish k p req Hpre); [done|].
  intros k' Ed Eh Eret. apply ends_step, ends_free.
  eapply (records_status k p req _ (set_k_d d2 k) r); [done| |exact Eret|].
  - cbn. rewrite Eh. apply delete_subseteq.
  - by eapply status_run, on_bus_run.
Qed.

Lemma at24_write_records ty s id n addr a q2 data : let req := IoReq ty s [Memref (Blk id) n; Value a addr; q2] in
  handler_pre k p req → k_heap k !! id = Some data →
  ends (λ _ k', records k p req (status_only
      (At24cxx.at24cxx_write (i2c_dev_of p a) (u16 addr) (Some data) (u32 n))) k')
    (handle_at24cxx_write req p k).
Proof using.
  intros req Hpre Hid. unfold handle_at24cxx_write. ends_param. eapply ends_load; [exact Hid|].
  apply ends_step, ends_lift. intros r d Ew. apply ends_step, (ends_finish k p req Hpre); [done|].
  intros k' Ed Eh Eret. apply ends_step, ends_free.
  eapply (records_status k p req _ (set_k_d d k) r); [done| |exact Eret|].
  - cbn. rewrite Eh. apply delete_subseteq.
  - by apply status_run.
Qed.

Lemma atk301_get_records ty s a b q1 q2 : let req := IoReq ty s [Value a b; q1; q2] in
  handler_pre k p req →
  ends (λ _ k', records k p req (status_only (Atk301.atk301_get_fingerprint_image (i2c_dev_of p a))) k')
    (handle_atk301_get_fingerprint_image req p k).
Proof using.
  intros req Hpre. unfold handle_atk301_get_fingerprint_image. ends_param. apply ends_lift. intros r d Ew.
  apply ends_step, (ends_finish k p req Hpre); [done|]. intros k' Ed Eh Eret.
  eapply (records_status k p req _ (set_k_d d k) r); [done|by rewrite Eh|exact Eret|].
  by apply status_run.
Qed.

Lemma write_secure_records ty s id0 n0 id1 n1 q2 name data :
  let req := IoReq ty s [Memref (Blk id0) n0; Memref (Blk id1) n1; q2] in
  handler_pre k p req → k_heap k !! id0 = Some name → k_heap k !! id1 = Some data →
  ends (λ _ k', records k p req (status_only (store_object name data)) k') (handle_write_secure_object req p k).
Proof using.
  intros req Hpre Hid0 Hid1. unfold handle_write_secure_object. ends_param. eapply ends_load; [exact Hid0|].
  apply ends_step, ends_hist. destruct (st_create _ _) as [r obj] eqn:Ec.
  apply ends_step, ends_system_call.
  assert (∀ res k1, k_table k1 = k_table k → k_heap k1 = k_heap k → store_object name data (k_d k) = Ok res (k_d k1) →
    ends (λ _ k', records k p req (status_only (store_object name data)) k')
      ((finish p req res;; b0 ← memref_buffer req 0; free b0;; b1 ← memref_buffer req 1; free b1;; mret res) k1)) as Hend.
  { intros res k1 E1 E2 Hst. apply ends_step, (ends_finish k p req Hpre); [done|]. intros k' Ed Eh Eret.
    ends_param. apply ends_free. ends_param. apply ends_free.
    eapply (records_status k p req _ k1 res); [done| |exact Eret|by apply status_run].
    cbn. rewrite Eh, E2. etrans; [apply delete_subseteq|apply delete_subseteq]. }
  apply ends_step. destruct (Z.eqb_spec (u32 r) TEE_SUCCESS) as [Hr|Hne]; cbn [negb].
  - ends_param. eapply ends_load; [exact Hid1|]. apply ends_step, ends_step, ends_system_call. apply ends_step, ends_system_call.
    apply Hend; [done|done|]. unfold store_object, system_call, mbind, M_bind, gets, modify, mret, M_ret.
    cbn in Ec. rewrite Ec. cbn. by rewrite Hr.
  - apply Hend; [done|done|]. unfold store_object, system_call, mbind, M_bind, gets, modify, mret, M_ret.
    cbn in Ec. rewrite Ec. cbn. by rewrite (proj2 (Z.eqb_neq _ _)).
Qed.

(** The part of the read handler that has the object open. *)
Lemma read_object_records req obj size d m : handler_pre k p req → 
  (∀ x d', (ok ← ask_memory size;
     if negb ok then system_call TEE_SUCCESS;; mret (Status TEE_ERROR_OUT_OF_MEMORY) else
     h'' ← gets d_trace;
     let '(r, cnt, l) := st_read h'' obj size in
     res ← system_call (u32 r);
     if negb (res =? TEE_SUCCESS) then system_call TEE_SUCCESS;; mret (Status res) else
     if negb (size =? u32 cnt) then system_call TEE_SUCCESS;; mret (Status TEE_ERROR_BAD_STATE) else
     let l := take (Z.to_nat size) l in
     mret (Data size (bytes l ++ drop (length l) (uninit size)))) d = Ok x d' → m (k_d k) = Ok x d') →
  ends (λ _ k', records k p req m k')
   ((b ← malloc size;
    match b with
    | Null => set_ret p (rq_signo req) TEE_ERROR_OUT_OF_MEMORY;;
              syscall TEE_SUCCESS;; mret TEE_ERROR_OUT_OF_MEMORY
    | _ =>
      h ← hist;
      let '(r, cnt, l) := st_read h obj size in
      res ← syscall (u32 r);
      ob ← load b;
      let l := take (Z.to_nat size) l in
      store b ((λ blk, bytes l ++ drop (length l) blk) <$> ob);;
      if negb (res =? TEE_SUCCESS) then
        set_ret p (rq_signo req) res;; syscall TEE_SUCCESS;; free b;; mret res
      else if negb (size =? u32 cnt) then
        set_ret p (rq_signo req) TEE_ERROR_BAD_STATE;; syscall TEE_SUCCESS;; free b;;
        mret TEE_ERROR_BAD_STATE
      else succeed p req size b
    end) (set_k_d d k)).
Proof using.
  intros Hpre Hm. pose proof Hpre as (_&Hh&_). apply ends_step, ends_malloc. intros ok Hok. cbn in Hok.
  unfold mbind at 1, M_bind at 1 in Hm. rewrite Hok in Hm. destruct ok; cbn [negb] in Hm.
  2:{ apply ends_step, (ends_set_ret k p req Hpre); [done|]. intros k' Ed Eh Er. apply ends_step, ends_system_call.
      eapply (records_status k p req _ _ _); [reflexivity| |exact Er|].
      - cbn. by rewrite Eh.
      - apply Hm. cbn. by rewrite Ed. }
  apply ends_step, ends_hist. destruct (st_read _ _ _) as [[r cnt] l] eqn:Er.
  apply ends_step, ends_system_call, ends_step. eapply ends_load; [cbn; by rewrite lookup_insert_eq|].
  cbn zeta. cbn [fmap option_fmap option_map]. apply ends_step.
  set (l' := take (Z.to_nat size) l) in *. set (b1 := bytes l' ++ _).
  eapply ends_store; [cbn; by rewrite lookup_insert_eq|]. cbn in Er.
  unfold mbind, M_bind, gets, system_call, modify, mret, M_ret in Hm. cbn in Hm. rewrite Er in Hm.
  assert (∀ res k1, k_table k1 = k_table k → k_heap k1 = <[k_fresh k := b1]> (k_heap k) →
    m (k_d k) = Ok (Status res) (d_log (E_storage TEE_SUCCESS) (k_d k1)) →
    ends (λ _ k', records k p req m k')
      ((set_ret p (rq_signo req) res;; syscall TEE_SUCCESS;; free (Blk (k_fresh k));; mret res) k1)) as Hfail.
  { intros res k1 E1 E2 Hres. apply ends_step, (ends_set_ret k p req Hpre); [done|]. intros k' Ed Eh Eret.
    apply ends_step, ends_system_call, ends_step, ends_free.
    eapply (records_status k p req _ _ _); [reflexivity| |exact Eret|cbn; by rewrite Ed].
    cbn. rewrite Eh, E2, delete_insert_eq. apply delete_subseteq. }
  assert (∀ b0, k_heap (set_k_heap (<[k_fresh k := b1]> (<[k_fresh k := b0]> (k_heap k))) k) = <[k_fresh k := b1]> (k_heap k)) as Hins.
  { intros b0. cbn. by rewrite insert_insert_eq. }
  destruct (Z.eqb_spec (u32 r) TEE_SUCCESS) as [Hr|Hne]; cbn [negb] in Hm |- *.
  - rewrite Hr in Hm. cbn in Hm. destruct (Z.eqb_spec size (u32 cnt)) as [Hc|]; cbn [negb] in Hm |- *.
    + apply (ends_succeed k p req Hpre); [done|]. intros k' Ed Eh Eret El Eb. eexists. split; [rewrite Ed; cbn; by rewrite Hr; apply Hm|].
      split_and!; [done|done|]. intros id. rewrite Eb. intros [= <-]. rewrite Eh. split; [|by apply heap_fresh].
      etrans; [exact (f_equal (lookup (k_fresh k)) (Hins _))|]. apply lookup_insert_eq.
    + apply Hfail; [done|apply Hins|]. cbn. rewrite Hr. by apply Hm.
  - apply Hfail; [done|apply Hins|]. apply Hm. unfold mbind, M_bind. by rewrite (proj2 (Z.eqb_neq (u32 r) TEE_SUCCESS) Hne).
Qed.

Lemma read_secure_records ty s id n0 q1 q2 name : let req := IoReq ty s [Memref (Blk id) n0; q1; q2] in
  handler_pre k p req → k_heap k !! id = Some name →
  ends (λ _ k', records k p req (fetch_object name) k') (handle_read_secure_object req p k).
Proof using.
  intros req Hpre Hid. unfold handle_read_secure_object. ends_param. eapply ends_load; [exact Hid|].
  apply ends_step, ends_hist. destruct (st_open _ _) as [r obj] eqn:Eo. cbn in Eo.
  apply ends_step, ends_system_call, ends_step.
  set (d1 := d_log (E_storage (u32 r)) (k_d k)).
  assert (∀ (v : Z) (k1 : kstate), records k p req (fetch_object name) k1 → ends (λ _ k', records k p req (fetch_object name) k')
    ((b0 ← memref_buffer req 0; free b0;; mret v : K Z) k1)) as Hend.
  { intros v k1 Hk1. ends_param. apply ends_free. by apply records_free. }
  eapply ends_mono; [|intros v k1; exact (Hend v k1)]. fold d1.
  assert (fetch_object name (k_d k) = (if negb (u32 r =? TEE_SUCCESS) then mret (Status (u32 r)) else
    let '(r2, sz) := st_info (d_trace d1) obj in
    res ← system_call (u32 r2);
    if negb (res =? TEE_SUCCESS) then mret (Status res) else
    ok ← ask_memory (u32 sz);
    if negb ok then system_call TEE_SUCCESS;; mret (Status TEE_ERROR_OUT_OF_MEMORY) else
    h'' ← gets d_trace;
    let '(r, cnt, l) := st_read h'' obj (u32 sz) in
    res ← system_call (u32 r);
    if negb (res =? TEE_SUCCESS) then system_call TEE_SUCCESS;; mret (Status res) else
    if negb (u32 sz =? u32 cnt) then system_call TEE_SUCCESS;; mret (Status TEE_ERROR_BAD_STATE) else
    let l := take (Z.to_nat (u32 sz)) l in
    mret (Data (u32 sz) (bytes l ++ drop (length l) (uninit (u32 sz))))) d1) as Hf.
  { unfold fetch_object. run (eq_refl : gets d_trace (k_d k) = Ok (d_trace (k_d k)) (k_d k)). rewrite Eo. cbn [fst snd].
    run (eq_refl : system_call (u32 r) (k_d k) = Ok (u32 r) d1). destruct (u32 r =? TEE_SUCCESS); [|done]. cbn [negb].
    run (eq_refl : gets d_trace d1 = Ok (d_trace d1) d1). by destruct (st_info _ _). }
  destruct (Z.eqb_spec (u32 r) TEE_SUCCESS) as [Hr|Hne]; cbn [negb] in Hf |- *.
  2:{ apply (ends_fail k p req Hpre); [done|]. intros k' Ed Eh Er.
      eapply (records_status k p req _ k'); [done|by rewrite Eh|exact Er|]. by rewrite Hf, Ed. }
  apply ends_step, ends_hist. fold d1. change (k_d (set_k_d d1 k)) with d1.
  destruct (st_info _ _) as [r2 size] eqn:Ei. apply ends_step, ends_system_call.
  destruct (Z.eqb_spec (u32 r2) TEE_SUCCESS) as [Hr2|Hne]; cbn [negb].
  2:{ apply (ends_fail k p req Hpre); [done|]. intros k' Ed Eh Er.
      eapply (records_status k p req _ k'); [done|by rewrite Eh|exact Er|]. rewrite Hf, Ed.
      run (eq_refl : system_call (u32 r2) d1 = Ok (u32 r2) (d_log (E_storage (u32 r2)) d1)). by rewrite (proj2 (Z.eqb_neq _ _)). }
  apply read_object_records; [done|]. intros x d' Hx. rewrite Hf.
  run (eq_refl : system_call (u32 r2) d1 = Ok (u32 r2) (d_log (E_storage (u32 r2)) d1)).
  rewrite (proj2 (Z.eqb_eq _ _)) by done. exact Hx.
Qed.

(** The memory of an SPI handler: the read buffer [b] with content [x], if any. *)
Definition spi_memory (b : ptr) (x : buf) (h : gmap Z buf) : Prop :=
  (b = Null ∧ h = k_heap k) ∨ (b = Blk (k_fresh k) ∧ h = <[k_fresh k := x]> (k_heap k)).
Lemma spi_memory_sub b x h h' : spi_memory b x h → h' ⊆ freed b h → h' ⊆ k_heap k.
Proof using. intros [[-> ->]|[-> ->]] Hs; cbn in Hs; [done|]. rewrite delete_insert_eq in Hs. etrans; [exact Hs|apply delete_subseteq]. Qed.

Lemma spi_refused req m k1 b x res : handler_pre k p req → k_table k1 = k_table k → spi_memory b x (k_heap k1) →
  m (k_d k) = Ok (Status res) (k_d k1) →
  ends (λ _ k', records k p req m k') ((set_ret p (rq_signo req) res;; free b;; mret res) k1).
Proof using.
  intros Hpre Ht Hb Hm. apply ends_step, (ends_set_ret k p req Hpre); [done|]. intros k' Ed Eh Er.
  apply ends_step, ends_free. eapply (records_status k p req _ _ _); [reflexivity| |exact Er|cbn; by rewrite Ed].
  cbn. rewrite Eh. by eapply spi_memory_sub.
Qed.

Lemma spi_end req m k1 b x res rlen id : handler_pre k p req → k_table k1 = k_table k → spi_memory b x (k_heap k1) →
  is_Some (k_heap k !! id) →
  m (k_d k) = Ok (if res =? TEE_SUCCESS then Data rlen x else Status res) (k_d k1) →
  ends (λ _ k', records k p req m k')
    ((if negb (res =? TEE_SUCCESS) then free (Blk id);; free b;; fail p req res
      else succeed p req rlen b;; free (Blk id);; mret TEE_SUCCESS) k1).
Proof using.
  intros Hpre Ht Hb Hid Hm. destruct (Z.eqb_spec res TEE_SUCCESS) as [->|Hne]; cbn [negb].
  - apply ends_step, (ends_succeed k p req Hpre); [done|]. intros k' Ed Eh Er El Eb. apply ends_step, ends_free.
    change (freed (Blk id) (k_heap k')) with (delete id (k_heap k')).
    apply records_free; [done|]. eexists. split; [rewrite Ed; exact Hm|]. split_and!; [done|done|].
    intros i. rewrite Eb. intros ->. destruct Hb as [[? _]|[[= ->] E]]; [done|]. rewrite Eh, E.
    split; [apply lookup_insert_eq|]. by destruct Hpre as (_&Hh&_); apply heap_fresh.
  - apply ends_step, ends_free, ends_step, ends_free, (ends_fail k p req Hpre); [done|]. intros k' Ed Eh Er.
    eapply (records_status k p req _ _ _); [reflexivity| |exact Er|by rewrite Ed].
    rewrite Eh. cbn. eapply spi_memory_sub; [exact Hb|]. destruct b; cbn; [apply delete_subseteq| |apply delete_subseteq].
    rewrite delete_delete. apply delete_subseteq.
Qed.

Lemma spi_records ty s id wlen cs cont mf rlen out : 
  let req := IoReq ty s [Memref (Blk id) wlen; Value cs cont; Value mf rlen] in
  handler_pre k p req → k_heap k !! id = Some out → wlen ≠ 0 → 0 <= rlen →
  ends (λ _ k', records k p req (spi_exchange p cs cont mf rlen out wlen) k') (handle_spi_transfer_bytes req p k).
Proof using.
  intros req Hpre Hid Hw Hrl. pose proof Hpre as (_&Hh&_). pose proof Hh as [_ Hlt]. apply Hlt in Hid as Hidlt.
  unfold handle_spi_transfer_bytes. ends_param. set (spi := spi_t (periph_no_to_spi p)).
  destruct (Z.ltb_spec 0 rlen) as [Hpos|Hz]; cbn [andb].
  - apply ends_malloc. intros ok Hok. destruct ok.
    2:{ rewrite bool_decide_true by done. apply (ends_fail k p req Hpre); [done|]. intros k' Ed Eh Er.
        eapply (records_status k p req _ k'); [done|by rewrite Eh|exact Er|].
        unfold spi_exchange. rewrite (proj2 (Z.ltb_lt _ _)) by done. run Hok. by rewrite Ed. }
    rewrite bool_decide_false by done.
    apply ends_step, ends_lift. intros r d Ea. destruct (Z.eqb_spec r TEE_SUCCESS) as [->|Hne]; cbn [negb].
    2:{ eapply spi_refused; [done|done|by right|]. unfold spi_exchange. rewrite (proj2 (Z.ltb_lt _ _)) by done. run Hok.
        cbn [negb]. run Ea. by rewrite (proj2 (Z.eqb_neq _ _)). }
    ends_param. rewrite (proj2 (Z.eqb_neq rlen 0)), (proj2 (Z.eqb_neq wlen 0)) by lia. ends_param.
    eapply ends_load; [cbn; by rewrite lookup_insert_ne by lia|].
    apply ends_step. eapply ends_load; [cbn; by rewrite lookup_insert_eq|]. apply ends_step, ends_lift.
    intros [r ib] d1 Et. apply ends_step. 
    assert (∀ k1 u d2, k_table k1 = k_table k → k_d k1 = d2 → spi_memory (Blk (k_fresh k)) (default (uninit rlen) ib) (k_heap k1) →
      spi_release spi d1 = Ok u d2 → ends (λ _ k', records k p req (spi_exchange p cs cont mf rlen out wlen) k')
        ((if negb (r =? TEE_SUCCESS) then free (Blk id);; free (Blk (k_fresh k));; fail p req r
          else succeed p req rlen (Blk (k_fresh k));; free (Blk id);; mret TEE_SUCCESS) k1)) as Hend.
    { intros k1 u d2 E1 E2 E3 Er. eapply spi_end; [done|done|exact E3|by eexists|].
      unfold spi_exchange. rewrite (proj2 (Z.ltb_lt _ _)), (proj2 (Z.eqb_neq rlen 0)) by lia. run Hok. cbn [negb].
      run Ea. rewrite Z.eqb_refl. cbn [negb]. run Et. run Er. by rewrite E2. }
    destruct ib as [b|].
    + eapply ends_store; [cbn; by rewrite lookup_insert_eq|]. apply ends_step, ends_lift. intros u d2 Er.
      eapply Hend; [done|done| |exact Er]. right. cbn. by rewrite insert_insert_eq.
    + unfold store, ends at 1. apply ends_step, ends_lift. intros u d2 Er.
      eapply Hend; [done|done| |exact Er]. by right.
  - assert (rlen = 0) as -> by lia. cbn [Z.eqb].
    apply ends_step, ends_lift. intros r d Ea. destruct (Z.eqb_spec r TEE_SUCCESS) as [->|Hne]; cbn [negb].
    2:{ eapply (spi_refused _ _ _ _ []); [done|done|by left|]. unfold spi_exchange. run (eq_refl : (mret true : D bool) (k_d k) = Ok true (k_d k)).
        run Ea. by rewrite (proj2 (Z.eqb_neq _ _)). }
    ends_param. cbn [Z.eqb]. ends_param. eapply ends_load; [exact Hid|]. apply ends_step, ends_lift. intros [r ib] d1 Et.
    apply ends_step, ends_lift. intros u d2 Er. eapply (spi_end _ _ _ _ (default (uninit 0) ib)); [done|done|by left|by eexists|].
    unfold spi_exchange. run (eq_refl : (mret true : D bool) (k_d k) = Ok true (k_d k)). cbn [negb]. run Ea.
    rewrite Z.eqb_refl. cbn [negb]. run Et. by run Er.
Qed.
End handlers.

(** ** Every handler *)

Section dispatch.
Context `{Env, Storage} (k : kstate) (p : Z).

Ltac alloc := ends_param; apply alloc_records; [done|]; intros ob d; try done.

(** The operations of a bus section, with the pair of results taken apart. *)
Lemma on_bus_pair (m : D (Z * option buf)) (ob : option buf) d :
  (res ← i2c_acquire (i2c_t (periph_no_to_i2c p));
   if negb (res =? TEE_SUCCESS) then mret (res, ob) else
   '(res, ob) ← m;
   i2c_release (i2c_t (periph_no_to_i2c p));;
   mret (res, ob)) d = on_bus p (λ res, (res, ob)) m d.
Proof using.
  unfold on_bus, mbind, M_bind. destruct (i2c_acquire _ d) as [r d1| |]; [|done|done]. destruct (negb _); [done|].
  by destruct (m d1) as [[? ?] d2| |].
Qed.

(** A request of the right shape that was handled: what was recorded is what
    its operation delivers. *)
Lemma handle_req_records req : handler_pre k p req → req_ok (k_heap k) req →
  ends (λ _ k', records k p req (operation (k_heap k) p req) k') (handle_req req p k).
Proof using.
  destruct req as [ty s [|q0 [|q1 [|q2 []]]]]; try done. intros Hpre Hok. unfold req_ok in Hok.
  cbn [rq_params rq_type] in Hok. unfold handle_req, operation. cbn [rq_type rq_params].
  assert (ends (λ _ k', records k p (IoReq ty s [q0; q1; q2]) (mret (Status TEE_ERROR_NOT_SUPPORTED)) k')
    (fail p (IoReq ty s [q0; q1; q2]) TEE_ERROR_NOT_SUPPORTED k)) as Hdef.
  { apply (ends_fail k p _ Hpre); [done|]. intros k' Ed Eh Er. exists (Status TEE_ERROR_NOT_SUPPORTED).
    split; [by rewrite Ed|]. split; [done|]. by rewrite Eh. }
  destruct ty; try exact Hdef; clear Hdef;
    try (destruct Hok as (Hv0&Hv1&Hv2); destruct q0 as [a b|]; [|done]; destruct q1 as [a1 b1|]; [|done];
         destruct q2 as [a2 b2|]; [|done]; cbn in Hv0, Hv1, Hv2).
  - unfold handle_dht_read. alloc.
  - unfold handle_bh1750fvi_sample. alloc.
  - unfold handle_i2c_read_bytes. alloc. apply on_bus_pair.
  - destruct Hok as (Hm&Hv&_). destruct q0 as [|[| id |] n]; try done. destruct q1 as [a1 b1|]; [|done].
    destruct Hm as (data&Hid&_). rewrite Hid. by apply i2c_write_records.
  - destruct Hok as (Hv0&Hv1&_). destruct q0 as [a b|]; [|done]. destruct q1 as [a1 b1|]; [|done].
    unfold handle_i2c_read_regs. alloc. apply on_bus_pair.
  - destruct Hok as (Hm&Hv1&Hv2&Hw&_). destruct q0 as [|[| id |] n]; try done. destruct q1 as [a1 b1|]; [|done].
    destruct q2 as [a2 b2|]; [|done]. destruct Hm as (data&Hid&_). rewrite Hid. cbn in Hw, Hv2. apply spi_records; [done|done|lia|lia].
  - destruct Hok as (Hm0&Hm1&_). destruct q0 as [|[| id0 |] n0]; try done. destruct q1 as [|[| id1 |] n1]; try done.
    destruct Hm0 as (name&Hid0&_). destruct Hm1 as (data&Hid1&_). rewrite Hid0, Hid1. by apply write_secure_records.
  - destruct q0 as [|[| id |] n]; try done. destruct Hok as (name&Hid&_). rewrite Hid. by apply read_secure_records.
  - unfold handle_mpu6050_sample. apply ends_step. eapply ends_value_a; [lia|reflexivity|]. by apply mpu_records.
  - unfold handle_tel0157_get_gnss_len. alloc.
  - unfold handle_tel0157_get_all_gnss. alloc.
  - unfold handle_tel0157_get_utc_time. alloc.
  - unfold handle_tel0157_get_gnss_mode. alloc.
  - unfold handle_tel0157_get_num_sat_used. alloc.
  - unfold handle_tel0157_get_lon. alloc.
  - unfold handle_tel0157_get_lat. alloc.
  - unfold handle_tel0157_get_alt. alloc.
  - unfold handle_tel0157_get_sog. alloc.
  - unfold handle_tel0157_get_cog. alloc.
  - destruct Hok as (Hm&Hv&_). destruct q0 as [|[| id |] n]; try done. destruct q1 as [a1 b1|]; [|done].
    destruct Hm as (data&Hid&_). rewrite Hid. by apply at24_write_records.
  - unfold handle_at24cxx_read. alloc.
  - by apply atk301_get_records.
  - unfold handle_atk301_upload_fingerprint_image. alloc.
Qed.
End dispatch.
