(* ===== verification/IoRefinement.v ===== *)
(** * Refinement: commands and service loops of the I/O helper

    Every client command and every loop step, run in a state related to the
    specification, is free of undefined behaviour and moves along steps of
    the specification; [IoSystem] has the relation. *)

From Stdlib Require Import ZArith Lia Bool.
From stdpp Require Import base tactics option list numbers gmap relations.
From S2P Require Import Prelude Platform Params IoReq IoState IoSignal IoSignalProofs.
From S2P Require Import IoSpec IoHandlers IoHandlersProofs IoHelper IoSystem.

Open Scope Z_scope.

(** ** What a client must respect

    The request it submits has the parameters its kind needs, and it collects
    signals that exist. *)
Definition client_ok (cmd : Z) (ps : uparams) : Prop :=
  match cmd, ps with
  | 2, [UValue _ ty; UValue a1 b1; UValue a2 b2; UValue a3 b3] =>
      ∀ s, req_ok ∅ (IoReq (io_req_type_of ty) s [Value a1 b1; Value a2 b2; Value a3 b3])
  | 3, [UValue a s; _; _; _] => u16 a < N_PERIPH ∧ s ≠ N_SUB_SIG
  | 5, [UValue _ ty; UMemref b n; UValue a2 b2; UValue a3 b3] =>
      if n =? 0 then ∀ s, req_ok ∅ (IoReq (io_req_type_of ty) s [Memref Indet 0; Value a2 b2; Value a3 b3])
      else ∀ s id, req_ok {[id := b]}
             (IoReq (io_req_type_of ty) s [Memref (Blk id) n; Value a2 b2; Value a3 b3])
  | 6, [UValue _ ty; UMemref b n; UValue a2 b2; UValue a3 b3] =>
      ∀ s id, req_ok {[id := b]}
        (IoReq (io_req_type_of ty) s [Memref (Blk id) n; Value a2 b2; Value a3 b3])
  | 7, [UValue _ ty; UMemref b0 n0; UMemref b1 n1; UValue a3 b3] =>
      ∀ s id0 id1, id0 ≠ id1 → req_ok {[id0 := b0; id1 := b1]}
        (IoReq (io_req_type_of ty) s [Memref (Blk id0) n0; Memref (Blk id1) n1; Value a3 b3])
  | _, _ => True
  end.

(** ** What a client submits

    The request a submission asks for, read off its parameters and its answer:
    type and parameters as sent, the signal from the reply.  There is none
    when the reply is an error, and none when the allocation of the queue node
    failed, which the reply does not tell. *)
Definition is_submission (cmd : Z) : bool := (cmd =? 2) || (cmd =? 5) || (cmd =? 6) || (cmd =? 7).
Definition param_sent (u : uparam) : TEE_Param :=
  match u with UValue a b => Value a b | UMemref _ n => Memref Null n | UNone => Value 0 0 end.
Definition submission (cmd : Z) (ps : uparams) (v : Z * uparams) (k' : kstate) : option (Z * io_req_t) :=
  if (v.1 =? TEE_SUCCESS) && is_submission cmd then
    match ps, v.2 with
    | UValue p ty :: us, UValue s _ :: _ => queued_as k' p (IoReq (io_req_type_of ty) s (param_sent <$> us))
    | _, _ => None
    end
  else None.

Lemma submission_other cmd ps v k' : is_submission cmd = false → submission cmd ps v k' = None.
Proof. intros Hc. unfold submission. by rewrite Hc, andb_false_r. Qed.

Lemma wp_copy_value ps i t a b Q k : 0 <= i → ps !! Z.to_nat i = Some (UValue a b) → Q (Value a b) k →
  wp t (copy_value ps i) Q k.
Proof.
  intros Hi Hl HQ. unfold copy_value. wp_steps. eapply wp_uvalue_a; [done..|]. wp_steps.
  eapply wp_uvalue_b; [done..|]. by wp_steps.
Qed.

(** Reads and writes of parameters given as a literal list. *)
Ltac uget := repeat first [uget1 | eapply wp_copy_value; [lia|reflexivity|]].

Section timing.
Context `{Env, Storage}.

Lemma bench_store_rel t k a idx pt : rel k a → 0 <= idx < 50 → 0 <= pt < 4 →
  wp t (bench_store idx pt) (λ _ k', rel k' a ∧ k_req_idx k' = k_req_idx k
    ∧ k_get_idx k' = k_get_idx k ∧ k_heap k' = k_heap k ∧ k_fresh k' = k_fresh k
    ∧ k_pending k' = k_pending k ∧ k_table k' = k_table k
    ∧ last_malloc (d_trace (k_d k')) = last_malloc (d_trace (k_d k))) k.
Proof using.
  intros Hr Hi Hpt. pose proof (rl_shape _ _ Hr) as Hk. pose proof (rl_heap _ _ Hr).
  unfold bench_store. wp_steps. apply wp_zoom. eapply wp_mono; [apply tee_time_spec|].
  intros x d ->. wp_steps. pose proof Hk as (_&_&_&_&_&_&_&Hl&_).
  unfold IO_HELPER_SERVICE_OVERHEAD_BENCHMARK_POINTS. rewrite u32_id by lia.
  apply wp_arr_set; [cbn; lia|]. wp_steps. split_and!; try done.
  apply (rel_frame k); try done.
  assert (kept (k_d k) (d_log (E_time x.1 x.2) (k_d k))) as Hd by apply d_ext_kept, d_ext_log.
  revert Hk. intros (?&?&?&?&?&?&?&?&?&?&?&?). destruct Hd as [Hd1 Hd2].
  split_and!; cbn; rewrite ?length_insert; try (done || lia).
Qed.

Lemma bench_store_sig t k a idx pt : rel k a → 0 <= idx < 50 → 0 <= pt < 4 →
  wp t (bench_store idx pt) (λ _ k', rel k' a ∧ ∀ q j, sig_of k' q j = sig_of k q j) k.
Proof using.
  intros Hr Hi Hpt. eapply wp_mono; [apply wp_and; [by apply bench_store_rel|]|].
  2:{ intros ? k' [[Hr' _] Hu]. exact (conj Hr' Hu). }
  unfold bench_store. wp_steps. apply wp_zoom. eapply wp_mono; [apply tee_time_spec|].
  intros x d ->. wp_steps. pose proof (rl_shape _ _ Hr) as (_&_&_&_&_&_&_&Hl&_).
  unfold IO_HELPER_SERVICE_OVERHEAD_BENCHMARK_POINTS. rewrite u32_id by lia.
  apply wp_arr_set; [cbn; lia|]. by wp_steps.
Qed.

Lemma next_req_idx_rel t k a : rel k a → wp t next_req_idx (λ _ k', rel k' a ∧ k_d k' = k_d k) k.
Proof using.
  intros Hr. pose proof (rl_shape _ _ Hr) as Hk. pose proof (rl_heap _ _ Hr).
  unfold next_req_idx. wp_steps. destruct (Z.ltb_spec (k_req_idx k)
    (IO_HELPER_SERVICE_OVERHEAD_BENCHMARK_TIMES - 1)) as [Hlt|]; wp_steps; [|done].
  unfold IO_HELPER_SERVICE_OVERHEAD_BENCHMARK_TIMES in Hlt.
  split; [|done]. apply (rel_frame k); try done. revert Hk. shape.
Qed.
Lemma next_get_idx_rel t k a : rel k a → wp t next_get_idx (λ _ k', rel k' a) k.
Proof using.
  intros Hr. pose proof (rl_shape _ _ Hr) as Hk. pose proof (rl_heap _ _ Hr).
  unfold next_get_idx. wp_steps. destruct (Z.ltb_spec (k_get_idx k)
    (IO_HELPER_SERVICE_OVERHEAD_BENCHMARK_TIMES - 1)) as [Hlt|]; wp_steps; [|done].
  unfold IO_HELPER_SERVICE_OVERHEAD_BENCHMARK_TIMES in Hlt.
  apply (rel_frame k); try done. revert Hk. shape.
Qed.
Lemma rel_req_idx k a : rel k a → 0 <= k_req_idx k < 50.
Proof using. intros Hr. by destruct (rl_shape _ _ Hr) as (_&_&_&_&_&_&_&_&?&_). Qed.
Lemma rel_get_idx k a : rel k a → 0 <= k_get_idx k < 50.
Proof using. intros Hr. by destruct (rl_shape _ _ Hr) as (_&_&_&_&_&_&_&_&_&?&_). Qed.
End timing.

(** ** Blocks between their allocation and their submission *)

Definition loose (k : kstate) (a : astate) (id : Z) (b : buf) : Prop :=
  k_heap k !! id = Some b ∧ id < k_fresh k ∧ ¬ owned k a id.

Section loose.
Context `{Env, Storage}.

Lemma malloc_rel t k a n : rel k a → 
  wp t (malloc n) (λ p k', rel k' a ∧ (∀ id b, loose k a id b → loose k' a id b)
    ∧ (p = Null ∨ ∃ id, p = Blk id ∧ loose k' a id (uninit n) ∧ k_heap k !! id = None)) k.
Proof using.
  intros Hr. pose proof (rl_shape _ _ Hr) as Hk. pose proof (rl_heap _ _ Hr) as Hh.
  eapply wp_mono; [apply malloc_spec|]. intros p k' (ok&->&->).
  assert (∀ id, owned k a id → id < k_fresh k) as Hlv.
  { intros id (q&j&Hq&Hj&Hid). exact (rl_live _ _ Hr q j id Hq Hj Hid). }
  assert (k_shape (after_malloc n ok k)) as Hsh.
  { assert (kept (k_d k) (d_log (E_malloc n ok) (k_d k))) as Hd by apply d_ext_kept, d_ext_log.
    pose proof (k_shape_set_d _ _ Hk Hd) as Hs. by destruct ok. }
  assert (∀ id, owned (after_malloc n ok k) a id → owned k a id) as Hown by by destruct ok.
  destruct ok; split_and!.
  - apply (rel_frame k); try done.
    + destruct Hh as [? Hh]. split; cbn; [lia|].
      intros id b [[<- _]|[? Hx]]%lookup_insert_Some; [lia|]. apply Hh in Hx. lia.
    + cbn. lia.
    + intros id Hid%Hlv. cbn. rewrite lookup_insert_ne by lia. done.
  - intros id b (Hx&Hlt&Hno). split_and!; [cbn; rewrite lookup_insert_ne by lia; done|cbn; lia|].
    intros ?%Hown. done.
  - right. exists (k_fresh k). split_and!; [done| |by apply heap_fresh].
    split_and!; [cbn; by rewrite lookup_insert_eq|cbn; lia|]. intros ?%Hown%Hlv. lia.
  - by apply (rel_frame k).
  - done.
  - by left.
Qed.

Lemma memcpy_in_rel t k a id b src n : rel k a → loose k a id b → blen b = n → blen src = n →
  wp t (memcpy_in (Blk id) src n) (λ _ k', rel k' a ∧ loose k' a id src
    ∧ ∀ id' b', id' ≠ id → loose k a id' b' → loose k' a id' b') k.
Proof using.
  intros Hr (Hx&Hlt&Hno) Hb Hs. pose proof (rl_shape _ _ Hr) as Hk. pose proof (rl_heap _ _ Hr) as Hh.
  unfold memcpy_in. wp_steps. eapply wp_mono; [by eapply load_spec|]. intros ? ? [-> ->].
  unfold memcpy. rewrite Hb, Hs, Z.leb_refl. cbn [andb]. wp_steps.
  eapply wp_mono; [by eapply store_spec|]. intros ? ? ->.
  assert (take (Z.to_nat n) src ++ drop (Z.to_nat n) b = src) as ->.
  { unfold blen in *. rewrite take_ge, drop_ge, app_nil_r by lia. done. }
  split_and!.
  - apply (rel_frame k); try done.
    + destruct Hh as [? Hh]. split; [done|]. cbn. intros id' b' [[<- _]|[? Hx']]%lookup_insert_Some; eauto.
    + intros id' Hid'. cbn. rewrite lookup_insert_ne; [done|]. by intros ->.
  - split_and!; [cbn; by rewrite lookup_insert_eq|done|done].
  - intros id' b' Hne (Hx'&?&?). split_and!; [cbn; by rewrite lookup_insert_ne|done|done].
Qed.

Lemma loose_alloc k k' a a' id b : k_heap k' = k_heap k → k_fresh k' = k_fresh k →
  (∀ id, owned k' a' id → owned k a id) → loose k a id b → loose k' a' id b.
Proof using. intros E1 E2 Ho (?&?&?). split_and!; [by rewrite E1|by rewrite E2|]. by intros ?%Ho. Qed.
End loose.

Section commands.
Context `{Env, Storage}.

Lemma u16_small a : 0 <= a < N_PERIPH → u16 a = a.
Proof using. unfold N_PERIPH. intros. apply u16_id. lia. Qed.

(** What [read_req] answers: the least free signal, or that there is none. *)
Definition read_types : Z :=
  TEE_PARAM_TYPES TEE_PARAM_TYPE_VALUE_INOUT TEE_PARAM_TYPE_VALUE_INPUT TEE_PARAM_TYPE_VALUE_INPUT
    TEE_PARAM_TYPE_VALUE_INPUT.
Definition submit_answer (k : kstate) (ps : uparams) (r : Z) (ps' : uparams) : Prop :=
  ∃ x ty, ps = UValue x ty :: tail ps ∧
    if N_PERIPH <=? x then r = TEE_ERROR_BAD_PARAMETERS ∧ ps' = ps
    else ((∀ s, in_sig s → sig_of k x s ≠ SigFree) ∧ r = TEE_ERROR_BUSY ∧ ps' = ps)
      ∨ ∃ s, in_sig s ∧ sig_of k x s = SigFree ∧ (∀ j, 0 <= j < s → sig_of k x j ≠ SigFree)
           ∧ r = TEE_SUCCESS ∧ ps' = UValue s ty :: tail ps.

Lemma read_req_spec types ps k a : rel k a → params_ok types ps → client_ok 2 ps →
  wp true (read_req types ps) (λ v k', cmd_post a (submission 2 ps v k') k'
    ∧ if types =? read_types then submit_answer k ps v.1 v.2
      else v = (TEE_ERROR_BAD_PARAMETERS, ps)) k.
Proof using.
  intros Hr Hps Hcl. unfold read_req. wp_steps.
  eapply wp_mono; [apply bench_store_sig; [exact Hr|by eapply rel_req_idx|lia]|].
  intros _ k1 (Hr1&Hsig). fold read_types.
  destruct (Z.eqb_spec types read_types) as [Et|]; cbn [negb]; wp_steps;
    [|by split; [apply cmd_post_idle|]].
  param_shape Hps Et. uget. rename a0 into x, b into ty.
  destruct (Z.leb_spec N_PERIPH x) as [Hge|Hlt]; wp_steps.
  { split; [by apply cmd_post_idle|]. exists x, ty. split; [done|]. by rewrite (proj2 (Z.leb_le _ _)). }
  assert (in_periph x) as Hp by (split; lia). rewrite u16_small by done.
  eapply wp_mono; [by apply rel_alloc|]. intros s k2 (_&_&[(->&Hr2&Hnone)|(Hs&Hst&Hr2&_&Hfree&Hlow)]).
  { wp_steps. split; [by apply cmd_post_idle|]. exists x, ty. split; [done|].
    rewrite (proj2 (Z.leb_gt _ _)) by done. left. split_and!; try done. intros s Hs. rewrite <- Hsig. auto. }
  rewrite (proj2 (Z.ltb_ge s 0)) by (destruct Hs; lia). uget.
  eapply wp_mono; [eapply rel_submit; [exact Hr2|done|exact Hs|cbn; by rewrite upd2_eq|..]|].
  { eapply req_ok_frame; [|apply Hcl]. intros id Hid. by apply elem_of_nil in Hid. }
  { intros id Hid. by apply elem_of_nil in Hid. }
  intros _ k3 (a'&Hrtc&Hmv&Hr3). wp_steps.
  eapply wp_mono; [apply bench_store_rel; [exact Hr3|by eapply rel_req_idx|lia]|].
  intros _ k4 (Hr4&_&_&_&_&_&_&Hlm). wp_steps. eapply wp_mono; [by apply next_req_idx_rel|].
  intros ? k5 [Hr5 Hd5]. wp_steps. split.
  { eapply cmd_post_step; [exact Hst|by apply moves_phase; left|]. exists a'. split_and!; [done| |done].
    unfold submission. cbn. unfold queued_as. rewrite Hd5, Hlm. exact Hmv. }
  exists x, ty. split; [done|]. rewrite (proj2 (Z.leb_gt _ _)) by done. right. exists s.
  split_and!; try done; [by rewrite <- Hsig|]. intros j Hj. rewrite <- Hsig. auto.
Qed.

Lemma read_req_ok types ps k a : rel k a → params_ok types ps → client_ok 2 ps →
  wp true (read_req types ps) (λ v k', cmd_post a (submission 2 ps v k') k') k.
Proof using. intros. eapply wp_mono; [by apply read_req_spec|]. by intros ? ? [? _]. Qed.

(** A request whose memory is loose goes to the queue. *)
Lemma submit_loose k a a1 p r h :
  rel k a1 → a_step a a1 → client_moves a a1 None → in_periph p → in_sig (rq_signo r) →
  a_phase a1 p (rq_signo r) = PHeld → req_ok h r →
  (∀ id, id ∈ req_blocks r → ∃ b, h !! id = Some b ∧ loose k a1 id b) →
  wp true (submit p r) (λ _ k', cmd_post a (queued_as k' p r) k') k.
Proof using.
  intros Hr Hst Hpc Hp Hs Hph Hok Hl. eapply wp_mono; [eapply rel_submit; eauto|].
  - eapply req_ok_frame; [|exact Hok]. intros id (b&->&(?&_))%Hl. done.
  - intros id (b&_&(_&?&?))%Hl. done.
  - intros ? k' Hc. eapply cmd_post_step; eauto.
Qed.

Lemma block_pos (m : buf) n : blen m = n → 0 <= n.
Proof using. intros <-. apply blen_nonneg. Qed.

(** The allocation of a signal, and what follows when there is one. *)
Lemma alloc_then k a p (busy : K (Z * uparams)) (cont : Z → K (Z * uparams)) Q :
  rel k a → in_periph p → (∀ k', rel k' a → wp true busy Q k') →
  (∀ s k', in_sig s → let a1 := set_phase p s PHeld a in a_step a a1 → rel k' a1 →
     (∀ id b, loose k a id b → loose k' a1 id b) → wp true (cont s) Q k') →
  wp true (s ← allocate_signo p; if s <? 0 then busy else cont s) Q k.
Proof using.
  intros Hr Hp Hbusy Hcont. wp_steps. eapply wp_mono; [by apply rel_alloc|].
  intros s k2 (E1&E2&[(->&Hr2&_)|(Hs&Hst&Hr2&Ho&_)]); [by apply Hbusy|].
  rewrite (proj2 (Z.ltb_ge s 0)) by (destruct Hs; lia). apply Hcont; auto.
  intros id b. by apply loose_alloc.
Qed.

Lemma held_phase a p s : a_phase (set_phase p s PHeld a) p s = PHeld.
Proof using. cbn. by rewrite upd2_eq. Qed.

Lemma read_req_with_buffer_ok types ps k a : rel k a → params_ok types ps → client_ok 6 ps →
  wp true (read_req_with_buffer types ps) (λ v k', cmd_post a (submission 6 ps v k') k') k.
Proof using.
  intros Hr Hps Hcl. unfold read_req_with_buffer.
  case_match eqn:Et; wp_steps; [by apply cmd_post_idle|]. bool_props.
  param_shape Hps Et. uget. case_match eqn:Ep; wp_steps; [by apply cmd_post_idle|]. bool_props.
  assert (in_periph a0) as Hp by (split; lia). rewrite u16_small by done. uget.
  eapply wp_mono; [by apply malloc_rel|]. intros q k1 (Hr1&_&[->|(id&->&Hl&_)]).
  { wp_steps. by apply cmd_post_idle. }
  rewrite bool_decide_false by done. apply (alloc_then _ a); [done|done|intros; wp_steps; by apply cmd_post_idle|].
  intros s k2 Hs aa Hst Hr2 Hl2. uget.
  eapply wp_mono; [eapply memcpy_in_rel; [exact Hr2|by apply Hl2|apply blen_uninit; by eapply block_pos|done]|].
  intros ? k3 (Hr3&Hl3&_). uget.
  eapply wp_mono; [eapply (submit_loose k3 a aa); [done|exact Hst|by apply moves_phase; left|done|exact Hs|apply held_phase|apply Hcl|]|].
  { intros id' ->%list_elem_of_singleton. exists m. split; [apply lookup_singleton_eq|done]. }
  intros ? k4 Hc. by wp_steps.
Qed.

Lemma write_req_ok types ps k a : rel k a → params_ok types ps → client_ok 5 ps →
  wp true (write_req types ps) (λ v k', cmd_post a (submission 5 ps v k') k') k.
Proof using.
  intros Hr Hps Hcl. unfold write_req.
  case_match eqn:Et; wp_steps; [by apply cmd_post_idle|]. bool_props.
  param_shape Hps Et. uget. case_match eqn:Ep; wp_steps; [by apply cmd_post_idle|]. bool_props.
  assert (in_periph a0) as Hp by (split; lia). rewrite u16_small by done. uget. cbn [client_ok] in Hcl.
  revert Hcl. unfold truth. destruct (Z.eqb_spec n 0) as [Hz|Hnz]; intros Hcl; cbn [negb andb].
  - wp_steps. apply wp_bind_inv, (alloc_then _ a); [done|done|intros; wp_steps; by apply cmd_post_idle|].
    intros s k2 Hs aa Hst Hr2 Hl2. uget.
    eapply wp_mono; [eapply (submit_loose k2 a aa); [done|exact Hst|by apply moves_phase; left|done|exact Hs|apply held_phase|rewrite Hz; apply Hcl|]|].
    { intros id' Hid. by apply elem_of_nil in Hid. }
    intros ? k4 Hc. by wp_steps.
  - eapply wp_mono; [by apply malloc_rel|]. intros q k1 (Hr1&_&[->|(id&->&Hl&_)]).
    { wp_steps. by apply cmd_post_idle. }
    rewrite bool_decide_false by done. apply (alloc_then _ a); [done|done|intros; wp_steps; by apply cmd_post_idle|].
    intros s k2 Hs aa Hst Hr2 Hl2. uget.
    eapply wp_mono; [eapply memcpy_in_rel; [exact Hr2|by apply Hl2|apply blen_uninit; by eapply block_pos|done]|].
    intros ? k3 (Hr3&Hl3&_). uget.
    eapply wp_mono; [eapply (submit_loose k3 a aa); [done|exact Hst|by apply moves_phase; left|done|exact Hs|apply held_phase|apply Hcl|]|].
    { intros id' ->%list_elem_of_singleton. exists m. split; [apply lookup_singleton_eq|done]. }
    intros ? k4 Hc. by wp_steps.
Qed.

Lemma write_req_with_buffer_ok types ps k a : rel k a → params_ok types ps → client_ok 7 ps →
  wp true (write_req_with_buffer types ps) (λ v k', cmd_post a (submission 7 ps v k') k') k.
Proof using.
  intros Hr Hps Hcl. unfold write_req_with_buffer.
  case_match eqn:Et; wp_steps; [by apply cmd_post_idle|]. bool_props.
  param_shape Hps Et. uget. case_match eqn:Ep; wp_steps; [by apply cmd_post_idle|]. bool_props.
  assert (in_periph a0) as Hp by (split; lia). rewrite u16_small by done. uget.
  eapply wp_mono; [by apply malloc_rel|]. intros q k1 (Hr1&_&[->|(id0&->&Hl0&_)]).
  { wp_steps. by apply cmd_post_idle. }
  rewrite bool_decide_false by done. uget.
  eapply wp_mono; [by apply malloc_rel|]. intros q k2 (Hr2&Hk2&[->|(id1&->&Hl1&Hnew)]).
  { wp_steps. by apply cmd_post_idle. }
  rewrite bool_decide_false by done. apply Hk2 in Hl0 as Hl0'.
  assert (id0 ≠ id1) by (intros ->; destruct Hl0; congruence).
  apply (alloc_then _ a); [done|done|intros; wp_steps; by apply cmd_post_idle|].
  intros s k3 Hs aa Hst Hr3 Hl3. uget.
  eapply wp_mono; [eapply memcpy_in_rel; [exact Hr3|by apply Hl3|apply blen_uninit; by eapply block_pos|done]|].
  intros ? k4 (Hr4&Hl4&Hoth4). wp_steps.
  eapply wp_mono; [eapply memcpy_in_rel; [exact Hr4|by apply Hoth4; [|by apply Hl3]
    |apply blen_uninit; by eapply block_pos|done]|].
  intros ? k5 (Hr5&Hl5&Hoth5). uget.
  eapply wp_mono; [eapply (submit_loose k5 a aa); [done|exact Hst|by apply moves_phase; left|done|exact Hs|apply held_phase|by apply Hcl|]|].
  { intros id'. unfold req_blocks; cbn. intros [->|[->|Hx]%elem_of_cons]%elem_of_cons; [| |by apply elem_of_nil in Hx].
    - exists m. split; [by rewrite lookup_insert_eq|]. by apply Hoth5.
    - exists m0. split; [|done]. rewrite lookup_insert_ne by done. apply lookup_singleton_eq. }
  intros ? k6 Hc. by wp_steps.
Qed.

(** ** Polling *)

Lemma rel_polled k a p s : rel k a → in_periph p → in_sig s → rel (polled k p s) a.
Proof using.
  intros Hr Hp Hs. pose proof (rl_shape _ _ Hr) as Hk. pose proof (rl_heap _ _ Hr).
  pose proof Hk as (_&_&_&_&Ht&_).
  apply (rel_frame k); try done; [by apply polled_shape|]. intros q j Hq Hj.
  unfold polled. change (entry_at (set_k_polls ?x ?y) q j) with (entry_at y q j).
  destruct (decide ((q, j) = (p, s))) as [[= -> ->]|Hne].
  - by rewrite entry_set_same.
  - by rewrite entry_set_other.
Qed.
Lemma rel_polled_none k a p : rel k a → rel (polled_none k p) a.
Proof using.
  intros Hr. pose proof (rl_shape _ _ Hr). pose proof (rl_heap _ _ Hr).
  apply (rel_frame k); try done. by apply polled_none_shape.
Qed.

(** What [poll] answers: the least ready signal; otherwise whether any
    request is under way. *)
Definition poll_answer (k : kstate) (p b : Z) (u : uparam) : Prop :=
  (∃ s, in_sig s ∧ sig_of k p s = SigReady ∧ (∀ j, 0 <= j < s → sig_of k p j ≠ SigReady)
        ∧ u = UValue 1 s)
  ∨ ((∀ s, in_sig s → sig_of k p s ≠ SigReady) ∧ (∃ s, in_sig s ∧ sig_of k p s ≠ SigFree)
     ∧ u = UValue 1 0xFFFFFFFF)
  ∨ ((∀ s, in_sig s → sig_of k p s = SigFree) ∧ u = UValue 0 b).

Lemma using_zero k p : sig_inv k → in_periph p →
  (at_ (k_nums k) p = 0 ↔ ∀ s, in_sig s → sig_of k p s = SigFree).
Proof using.
  intros Hi Hp. destruct (Hi p Hp) as (_&Hu&->&_). rewrite popcount_zero by done. split.
  - intros Hz s Hs. apply sig_free_bit. by rewrite Hz, Z.bits_0.
  - intros Hall. apply Z.bits_inj'. intros i Hi'. rewrite Z.bits_0.
    destruct (Z.lt_ge_cases i 64).
    + apply sig_free_bit. apply Hall. split; [lia|done].
    + by apply (testbit_high _ 64).
Qed.

Lemma some_used k p : ¬ (∀ s, in_sig s → sig_of k p s = SigFree) →
  ∃ s, in_sig s ∧ sig_of k p s ≠ SigFree.
Proof using.
  intros Hn. destruct (decide (Exists (λ s, sig_of k p s ≠ SigFree) (seqZ 0 64))) as [He|He].
  - apply Exists_exists in He as (s&Hin&?). exists s. split; [|done]. apply elem_of_seqZ in Hin.
    unfold in_sig, N_SUB_SIG. lia.
  - destruct Hn. intros s Hs. destruct (decide (sig_of k p s = SigFree)) as [|Hf]; [done|].
    destruct He. apply Exists_exists. exists s. split; [|done]. apply elem_of_seqZ.
    unfold in_sig, N_SUB_SIG in Hs. lia.
Qed.

Lemma poll_ok types ps k a : rel k a → params_ok types ps →
  wp true (poll types ps) (λ '(r, ps') k', rel k' a ∧
    if (types =? only_value_inout) then ∃ x b, ps = UValue x b :: tail ps ∧
      if N_PERIPH <=? u16 x then r = TEE_ERROR_BAD_PARAMETERS ∧ ps' = ps
      else r = TEE_SUCCESS ∧ ∃ u, ps' = u :: tail ps ∧ poll_answer k (u16 x) b u
    else r = TEE_ERROR_BAD_PARAMETERS ∧ ps' = ps) k.
Proof using.
  intros Hr Hps. unfold poll. pose proof (rl_shape _ _ Hr) as Hk. pose proof (rl_sig _ _ Hr) as Hi.
  destruct (Z.eqb_spec types only_value_inout) as [Et|]; cbn [negb]; wp_steps; [|done].
  param_shape Hps Et. uget. rename a0 into x, b into y.
  destruct (Z.leb_spec N_PERIPH (u16 x)) as [Hge|Hlt]; wp_steps.
  { split; [done|]. exists x, y. split; [done|]. by rewrite (proj2 (Z.leb_le _ _)). }
  assert (in_periph (u16 x)) as Hp by (split; [apply u16_range|done]).
  assert (∀ u v k', rel k' a → poll_answer k (u16 x) y u → v = u →
    rel k' a ∧ ∃ x0 b0, [UValue x y; UNone; UNone; UNone] = UValue x0 b0 :: tail [UValue x y; UNone; UNone; UNone]
      ∧ (if N_PERIPH <=? u16 x0 then TEE_SUCCESS = TEE_ERROR_BAD_PARAMETERS
           ∧ [v; UNone; UNone; UNone] = [UValue x y; UNone; UNone; UNone]
         else TEE_SUCCESS = TEE_SUCCESS ∧ ∃ u, [v; UNone; UNone; UNone] = u :: tail [UValue x y; UNone; UNone; UNone]
           ∧ poll_answer k (u16 x0) b0 u)) as Hfin.
  { intros u v k' ?? ->. split; [done|]. exists x, y. split; [done|].
    rewrite (proj2 (Z.leb_gt _ _)) by done. split; [done|]. by exists u. }
  eapply wp_mono; [by apply get_ready_step|]. intros s k1 [(->&Hno&Hu)|(Hs&Hrdy&Hlow&Hu)].
  - assert (rel k1 a) as Hr1 by (eapply rel_upto; [exact Hu|]; by apply rel_polled_none).
    change (-1 <? 0) with true. cbv iota. wp_steps. eapply wp_mono; [apply get_req_num_spec; [apply Hr1|done]|].
    intros n k2 [-> Hu2]. assert (rel k2 a) as Hr2 by (by eapply rel_upto).
    assert (at_ (k_nums k1) (u16 x) = at_ (k_nums k) (u16 x)) as -> by (by destruct Hu as (d&_&->)).
    pose proof (using_zero k (u16 x) Hi Hp) as Hz.
    assert (0 <= at_ (k_nums k) (u16 x)) by (destruct (Hi _ Hp) as (_&_&->&_); apply popcount_range).
    destruct (Z.ltb_spec 0 (at_ (k_nums k) (u16 x))); uget.
    + eapply Hfin; [done| |reflexivity]. right. left. split_and!; [done| |done].
      apply some_used. rewrite <- Hz. lia.
    + eapply Hfin; [done| |reflexivity]. right. right. split; [apply Hz; lia|done].
  - assert (rel k1 a) as Hr1 by (eapply rel_upto; [exact Hu|]; by apply rel_polled).
    rewrite (proj2 (Z.ltb_ge s 0)) by (destruct Hs; lia). uget.
    eapply Hfin; [done| |]; [left; by exists s|].
    rewrite u32_id; [done|]. unfold in_sig, N_SUB_SIG in Hs. lia.
Qed.

Lemma rel_set_polls k a p s n : rel k a → in_periph p → in_sig s →
  rel (set_entry p s (SigEntry (se_ret (entry_at k p s)) (se_buf (entry_at k p s))
         (se_len (entry_at k p s)) n) k) a.
Proof using.
  intros Hr Hp Hs. pose proof (rl_shape _ _ Hr) as Hk. pose proof (rl_heap _ _ Hr).
  pose proof Hk as (_&_&_&_&Ht&_).
  apply (rel_frame k); try done; [by apply shape_set_entry|]. intros q j Hq Hj.
  destruct (decide ((q, j) = (p, s))) as [[= -> ->]|Hne].
  - by rewrite entry_set_same.
  - by rewrite entry_set_other.
Qed.

Lemma poll_subsignal_ok types ps k a : rel k a → params_ok types ps →
  wp true (poll_subsignal types ps) (λ '(r, ps') k', rel k' a ∧
    if (types =? only_value_inout) then ∃ x s, ps = UValue x s :: tail ps ∧
      if (N_PERIPH <=? u16 x) || (N_SUB_SIG <=? s) then r = TEE_ERROR_BAD_PARAMETERS ∧ ps' = ps
      else if bool_decide (sig_of k (u16 x) s = SigFree) then r = TEE_ERROR_BAD_STATE ∧ ps' = ps
      else r = TEE_SUCCESS
           ∧ ps' = UValue (if bool_decide (sig_of k (u16 x) s = SigReady) then 1 else 0) s :: tail ps
    else r = TEE_ERROR_BAD_PARAMETERS ∧ ps' = ps) k.
Proof using.
  intros Hr Hps. unfold poll_subsignal. pose proof (rl_shape _ _ Hr) as Hk.
  pose proof (rl_sig _ _ Hr) as Hi.
  destruct (Z.eqb_spec types only_value_inout) as [Et|]; cbn [negb]; wp_steps; [|done].
  param_shape Hps Et. uget. rename a0 into x, b into s.
  destruct ((N_PERIPH <=? u16 x) || (N_SUB_SIG <=? s)) eqn:E; wp_steps.
  { split; [done|]. exists x, s. split; [done|]. by rewrite E. }
  apply orb_false_iff in E as E'. destruct E' as [?%Z.leb_gt ?%Z.leb_gt].
  assert (in_periph (u16 x)) as Hp by (split; [apply u16_range|done]).
  assert (in_sig s) as Hs by (split; lia).
  eapply wp_mono; [by apply is_using_step|]. intros b k1 [-> Hu].
  assert (rel k1 a) as Hr1 by (by eapply rel_upto).
  assert (sig_of k1 (u16 x) s = sig_of k (u16 x) s) as Hs1 by (by destruct Hu as (d&_&->)).
  destruct (decide (sig_of k (u16 x) s = SigFree)) as [Hf|Hf].
  { rewrite bool_decide_false by tauto. cbn [negb]. wp_steps. split; [done|]. exists x, s.
    split; [done|]. rewrite E, bool_decide_true by done. done. }
  rewrite bool_decide_true by done. cbn [negb]. wp_steps.
  pose proof (rl_shape _ _ Hr1) as Hk1. pose proof Hk1 as (_&_&_&_&Ht1&_).
  eapply wp_mono; [by apply get_entry_spec|]. intros e ? [-> ->]. wp_steps.
  eapply wp_mono; [by apply set_polls_spec|]. intros ? k2 ->. wp_steps.
  set (k2 := set_entry _ _ _ k1). assert (rel k2 a) as Hr2 by (by apply rel_set_polls).
  eapply wp_mono; [apply is_ready_step; [apply Hr2|apply Hr2|done|done]|]. intros b k3 [-> Hu3].
  assert (rel k3 a) as Hr3 by (by eapply rel_upto).
  change (sig_of k2 (u16 x) s) with (sig_of k1 (u16 x) s). rewrite Hs1. wp_steps.
  destruct (bool_decide (sig_of k (u16 x) s = SigReady)) eqn:Erd; uget;
    (split; [done|]; exists x, s; split; [done|]; rewrite E, bool_decide_false by done;
     split; [done|]; by rewrite Erd).
Qed.

Lemma get_overhead_timestamp_ok types ps k a : rel k a → params_ok types ps →
  wp true (get_overhead_timestamp types ps) (λ _ k', rel k' a) k.
Proof using.
  intros Hr Hps. unfold get_overhead_timestamp. pose proof (rl_shape _ _ Hr) as Hk.
  pose proof (rl_heap _ _ Hr).
  case_match eqn:Et; wp_steps; [done|]. bool_props. param_shape Hps Et. uget.
  case_match eqn:En; wp_steps; [done|]. bool_props. unfold memcpy.
  assert (blen (bytes (mjoin (le 8 <$> k_bench k))) = sizeof_benchmark_time) as Hl.
  { rewrite blen_bytes. destruct Hk as (_&_&_&_&_&_&_&Hlb&_).
    assert (∀ l, length (mjoin (le 8 <$> l)) = (8 * length l)%nat) as Hj.
    { intros l. induction l as [|x l IH]; [done|]. change (mjoin (le 8 <$> x :: l)) with (le 8 x ++ mjoin (le 8 <$> l)).
      rewrite length_app, IH, le_length. cbn [length]. lia. }
    rewrite Hj, Hlb. done. }
  rewrite Hl, Z.leb_refl. rewrite (proj2 (Z.leb_le _ (blen _))) by lia. cbn [andb]. uget.
  apply (rel_frame k); try done. revert Hk. shape.
Qed.

(** ** Collecting *)

Lemma rel_collect k kx a p s res : rel k a → in_periph p → in_sig s → a_phase a p s = PReady res →
  k_shape kx → heap_ok kx → k_fresh k <= k_fresh kx →
  k_pending kx = k_pending k → k_using kx = k_using k → k_nums kx = k_nums k →
  k_qmem kx = k_qmem k → k_queues kx = k_queues k → k_waiting kx = k_waiting k →
  (∀ q j, in_periph q → in_sig j → (q, j) ≠ (p, s) → same_result (entry_at k q j) (entry_at kx q j)) →
  (∀ q j id, in_periph q → in_sig j → (q, j) ≠ (p, s) → id ∈ own k q j (a_phase a q j) →
     k_heap kx !! id = k_heap k !! id) →
  rel (released kx p s) (set_phase p s PFree a).
Proof using.
  intros Hr Hp Hs Hph Hk Hh Hf E1 E2 E3 E4 E5 E6 He Hoth.
  pose proof (rl_phase _ _ Hr p s Hp Hs) as Hrd. rewrite Hph in Hrd. destruct Hrd as [Hrd _].
  assert (∀ q j, sig_of kx q j = sig_of k q j) as Hso by (intros; unfold sig_of; by rewrite E1, E2).
  assert (sig_inv kx) as Hi.
  { intros q Hq. rewrite E1, E2, E3. by apply (rl_sig _ _ Hr). }
  destruct (released_sig kx p s Hk Hi Hp Hs) as [Hi' Hso']; [by rewrite Hso, Hrd|].
  apply (rel_update k _ a _ p s PFree); auto.
  - eapply a_step_inv; [eexists; by eapply A_collect|apply Hr].
  - by apply released_shape.
  - intros q j Hq Hj Hne. rewrite Hso' by done. unfold sig_upd. rewrite decide_False by naive_solver.
    split_and!; [by rewrite Hso|by apply He|]. intros id Hid. split; [exact (Hoth q j id Hq Hj Hne Hid)|].
    intros Hx. by apply elem_of_nil in Hx.
  - cbn. rewrite Hso' by done. unfold sig_upd. by rewrite decide_True.
  - intros id Hx. by apply elem_of_nil in Hx.
  - apply (queues_rel_phase k _ a); [done|done|done|apply Hr].
  - intros q Hq. unfold waiting_at. cbn. rewrite E6. by apply (rl_wait _ _ Hr).
Qed.

(** What [get_data] answers for a finished request: an error status; the
    size that is needed; or the status and the data. *)
Definition get_answer (res : result) (x s : Z) (m : buf) (n r : Z) (ps' : uparams) : Prop :=
  if r_ret res <? 0 then
    r = TEE_SUCCESS ∧ ps' = [UValue (u32 (r_ret res)) s; UMemref m n; UNone; UNone]
  else if n <? blen (r_data res) then
    r = TEE_ERROR_SHORT_BUFFER ∧ ps' = [UValue x s; UMemref m (blen (r_data res)); UNone; UNone]
  else
    r = TEE_SUCCESS ∧ ∃ b, ps' = [UValue (u32 (r_ret res)) b;
      UMemref (r_data res ++ drop (length (r_data res)) m) (blen (r_data res)); UNone; UNone].

Definition short (res : result) (n : Z) : bool :=
  negb (r_ret res <? 0) && (n <? blen (r_data res)).

Definition get_post (a : astate) (p x s : Z) (m : buf) (n : Z) (v : Z * uparams) (k' : kstate) : Prop :=
  ∃ a', a_pc a' = a_pc a ∧ rel k' a' ∧
  match a_phase a p s with
  | PReady res => get_answer res x s m n v.1 v.2
      ∧ if short res n then a' = a else a_step a a' ∧ a' = set_phase p s PFree a
  | _ => v = (TEE_ERROR_NO_DATA, [UValue x s; UMemref m n; UNone; UNone]) ∧ a' = a
  end.

Lemma entry_is_data h e res : entry_is h e res → 0 <= se_ret e → blen (r_data res) = se_len e.
Proof using. intros [_ [?|[[-> ->]|(id&_&_&?)]]] ?; [lia|done|done]. Qed.

(** The release at the end of a collection that leaves the heap alone. *)
Lemma collect_plain k a p s res (v : Z * uparams) Q : rel k a → in_periph p → in_sig s →
  a_phase a p s = PReady res → (∀ k', rel k' (set_phase p s PFree a) → Q v k') →
  wp true (release_signo p s;; mret v) Q k.
Proof using.
  intros Hr Hp Hs Hph HQ. pose proof (rl_shape _ _ Hr). pose proof (rl_heap _ _ Hr).
  wp_steps. eapply wp_mono; [apply release_step; [done|apply Hr|done|done]|].
  intros ? k' Hu. wp_steps. apply HQ. eapply rel_upto; [exact Hu|].
  by apply (rel_collect k k a p s res).
Qed.

Lemma own_ready k a p s q j res id : rel k a → in_periph p → in_sig s → in_periph q → in_sig j →
  (q, j) ≠ (p, s) → a_phase a p s = PReady res → entry_block (entry_at k p s) = Some id →
  id ∉ own k q j (a_phase a q j).
Proof using.
  intros Hr Hp Hs Hq Hj Hne Hph Hb Hid.
  destruct (rl_own _ _ Hr q j p s id) as [-> ->]; try done. rewrite Hph. cbn. rewrite Hb. by left.
Qed.

(** The successful end: the block is freed, the entry reset, the signal
    released and the time recorded. *)
Lemma collect_data k a p s res id data (v : Z * uparams) Q : rel k a → in_periph p → in_sig s →
  a_phase a p s = PReady res → entry_block (entry_at k p s) = Some id →
  se_buf (entry_at k p s) = Blk id → k_heap k !! id = Some data →
  (∀ k', rel k' (set_phase p s PFree a) → Q v k') →
  wp true (set_len p s 0;; set_ret p s 0;; set_polls p s 0;; release_signo p s;;
           idx ← gets k_get_idx; bench_store idx 3;; next_get_idx;; mret v) Q
    (set_k_heap (delete id (k_heap k)) k).
Proof using.
  intros Hr Hp Hs Hph Hb Hbuf Hx HQ. pose proof (rl_shape _ _ Hr) as Hk.
  pose proof (rl_heap _ _ Hr) as [Hf Hh]. pose proof Hk as (_&_&_&_&Ht&_). set (e := entry_at k p s).
  wp_steps. eapply wp_mono; [apply set_len_spec; done|]. intros ? ? ->. wp_steps.
  eapply wp_mono; [apply set_ret_spec; [by apply set_entry_table|done|done]|]. intros ? ? ->. wp_steps.
  rewrite entry_set_same, set_entry_twice by done.
  eapply wp_mono; [apply set_polls_spec; [by apply set_entry_table|done|done]|]. intros ? ? ->. wp_steps.
  rewrite entry_set_same, set_entry_twice by done. cbn [se_ret se_buf se_len se_polls].
  set (e' := SigEntry _ _ _ _).
  set (kx := set_entry p s e' (set_k_heap (delete id (k_heap k)) k)).
  assert (k_shape kx) as Hkx by by apply shape_set_entry.
  assert (sig_inv kx) as Hix by apply Hr.
  eapply wp_mono; [by apply release_step|]. intros ? k1 Hu. wp_steps.
  assert (rel k1 (set_phase p s PFree a)) as Hr1.
  { eapply rel_upto; [exact Hu|]. apply (rel_collect k kx a p s res); try done.
    - split; [done|]. cbn. intros id' b [_ ?]%lookup_delete_Some. eauto.
    - intros q j Hq Hj Hne. unfold kx. rewrite entry_set_other by done. done.
    - intros q j id' Hq Hj Hne Hid. cbn. rewrite lookup_delete_ne; [done|]. intros ->.
      by eapply (own_ready k a p s q j). }
  eapply wp_mono; [apply bench_store_rel; [exact Hr1|by eapply rel_get_idx|lia]|].
  intros ? k2 [Hr2 _]. wp_steps. eapply wp_mono; [by apply next_get_idx_rel|].
  intros ? k3 Hr3. wp_steps. by apply HQ.
Qed.

Definition get_types : Z :=
  TEE_PARAM_TYPES TEE_PARAM_TYPE_VALUE_INOUT TEE_PARAM_TYPE_MEMREF_OUTPUT TEE_PARAM_TYPE_NONE
    TEE_PARAM_TYPE_NONE.

(** From the test of the signal on. *)
Lemma get_data_tail k a p x s m n : rel k a → in_periph p → in_sig s → blen m = n →
  wp true
   (ready ← is_ready_signal p s;
    if negb ready then mret (TEE_ERROR_NO_DATA, [UValue x s; UMemref m n; UNone; UNone]) else
    e ← get_entry p s;
    if se_ret e <? 0 then
      params ← set_uvalue_a [UValue x s; UMemref m n; UNone; UNone] 0 (u32 (se_ret e));
      release_signo p s;;
      mret (TEE_SUCCESS, params)
    else
    '(dst, size) ← umemref [UValue x s; UMemref m n; UNone; UNone] 1;
    if size <? se_len e then
      params ← set_usize [UValue x s; UMemref m n; UNone; UNone] 1 (se_len e);
      mret (TEE_ERROR_SHORT_BUFFER, params)
    else
    if negb (se_len e =? 0) && bool_decide (se_buf e = Null) then
      release_signo p s;;
      mret (TEE_ERROR_NO_DATA, [UValue x s; UMemref m n; UNone; UNone])
    else if se_len e =? 0 then
      params ← set_uvalue_a [UValue x s; UMemref m n; UNone; UNone] 0 (u32 (se_ret e));
      params ← set_usize params 1 0;
      release_signo p s;;
      mret (TEE_SUCCESS, params)
    else
    ob ← load (se_buf e);
    dst ← memcpy dst (default [] ob) (se_len e);
    params ← set_umem [UValue x s; UMemref m n; UNone; UNone] 1 dst;
    free (se_buf e);;
    params ← set_uvalue_a params 0 (u32 (se_ret e));
    params ← set_uvalue_b params 0 (se_polls e);
    params ← set_usize params 1 (se_len e);
    set_len p s 0;; set_ret p s 0;; set_polls p s 0;; release_signo p s;;
    idx ← gets k_get_idx;
    bench_store idx 3;;
    next_get_idx;;
    mret (TEE_SUCCESS, params)) (get_post a p x s m n) k.
Proof using.
  intros Hr Hp Hs Hn. wp_steps. pose proof (rl_shape _ _ Hr) as Hk0.
  eapply wp_mono; [apply is_ready_step; [done|apply Hr|done|done]|]. intros b k1 [-> Hu].
  assert (rel k1 a) as Hr1 by (by eapply rel_upto).
  assert (sig_of k p s = sig_of k1 p s) as -> by (by destruct Hu as (d&_&->)). clear Hu Hr Hk0.
  destruct (decide (sig_of k1 p s = SigReady)) as [Hrd|Hno].
  2:{ rewrite bool_decide_false by done. cbn [negb]. wp_steps. exists a. split_and!; try done.
      pose proof (rl_phase _ _ Hr1 p s Hp Hs) as Hok. destruct (a_phase a p s); try done.
      by destruct Hok. }
  rewrite bool_decide_true by done. cbn [negb]. wp_steps.
  destruct (rel_ready _ _ _ _ Hr1 Hp Hs Hrd) as (res&Hph&He).
  pose proof (rl_shape _ _ Hr1) as Hk. pose proof Hk as (_&_&_&_&Ht&_).
  eapply wp_mono; [by apply get_entry_spec|]. intros e ? [-> ->].
  set (e := entry_at k1 p s) in *. pose proof He as [Hret Hdat]. unfold get_post. rewrite Hph.
  assert (a_step a (set_phase p s PFree a)) as Hst by (eexists; by eapply A_collect).
  assert (∀ v k', rel k' (set_phase p s PFree a) → get_answer res x s m n v.1 v.2 → short res n = false →
    ∃ a', a_pc a' = a_pc a ∧ rel k' a' ∧ get_answer res x s m n v.1 v.2
      ∧ if short res n then a' = a else a_step a a' ∧ a' = set_phase p s PFree a) as Hfin.
  { intros v k' ?? ->. by exists (set_phase p s PFree a). }
  unfold get_answer, short in *. rewrite Hret in *.
  destruct (Z.ltb_spec (se_ret e) 0) as [Hneg|Hpos].
  { uget. apply wp_bind_inv. eapply collect_plain; [done|done|done|exact Hph|].
    intros k' Hk'. by apply Hfin. }
  pose proof (entry_is_data _ _ _ He Hpos) as Hlen. uget. rewrite Hlen in *. cbn [negb andb] in *.
  destruct (Z.ltb_spec n (se_len e)) as [Hsh|Hle].
  { uget. by exists a. }
  destruct (Z.eqb_spec (se_len e) 0) as [Hz|Hnz]; cbn [negb andb].
  - uget. apply wp_bind_inv. eapply collect_plain; [done|done|done|exact Hph|].
    intros k' Hk'. apply Hfin; [done| |done]. split; [done|]. exists s. 
    assert (r_data res = []) as ->.
    { rewrite Hz in Hlen. unfold blen in Hlen. destruct (r_data res); [done|cbn in Hlen; lia]. }
    by rewrite Hz.
  - destruct Hdat as [?|[[? _]|(id&Hbuf&Hx&_)]]; [lia|done|]. rewrite Hbuf.
    rewrite bool_decide_false by done. wp_steps.
    eapply wp_mono; [by eapply load_spec|]. intros ? ? [-> ->]. wp_steps.
    change (default [] (Some (r_data res))) with (r_data res). unfold memcpy.
    rewrite Hlen, Hn, Z.leb_refl, (proj2 (Z.leb_le _ _)) by done. cbn [andb]. uget.
    eapply wp_mono; [by eapply free_spec|]. intros ? ? ->. uget. apply wp_bind_inv.
    eapply collect_data; [done|done|done|exact Hph| |exact Hbuf|exact Hx|].
    { unfold entry_block. fold e. rewrite (proj2 (Z.ltb_ge _ _)), (proj2 (Z.eqb_neq _ _)), Hbuf by lia. done. }
    intros k' Hk'. apply Hfin; [done| |done]. split; [done|]. exists (se_polls e). 
    assert (take (Z.to_nat (se_len e)) (r_data res) = r_data res) as ->.
    { apply take_ge. unfold blen in Hlen. lia. }
    assert (Z.to_nat (se_len e) = length (r_data res)) as -> by (unfold blen in Hlen; lia). done.
Qed.

Lemma get_data_ok types ps k a : rel k a → params_ok types ps → client_ok 3 ps →
  wp true (get_data types ps) (λ v k',
    if (types =? get_types) then ∃ x s m n, ps = [UValue x s; UMemref m n; UNone; UNone] ∧
      if N_SUB_SIG <? s then v = (TEE_ERROR_BAD_PARAMETERS, ps) ∧ rel k' a
      else get_post a (u16 x) x s m n v k'
    else v = (TEE_ERROR_BAD_PARAMETERS, ps) ∧ rel k' a) k.
Proof using.
  intros Hr Hps Hcl. unfold get_data. wp_steps.
  eapply wp_mono; [apply bench_store_rel; [exact Hr|by eapply rel_get_idx|lia]|].
  intros _ k1 (Hr1&_).
  destruct (Z.eqb_spec types get_types) as [Et|Hne].
  2:{ rewrite (proj2 (Z.eqb_neq _ _)) by done. cbn [negb]. by wp_steps. }
  rewrite Et, Z.eqb_refl. cbn [negb]. param_shape Hps Et. uget. rename a0 into x, b into s.
  destruct (Z.ltb_spec N_SUB_SIG s) as [Hgt|Hle].
  { wp_steps. exists x, s, m, n. split; [done|]. rewrite (proj2 (Z.ltb_lt _ _)) by done. done. }
  destruct Hcl as [Hp Hs]. assert (in_periph (u16 x)) as Hp' by (split; [apply u16_range|done]).
  assert (in_sig s) as Hs' by (split; unfold N_SUB_SIG in *; lia).
  eapply wp_mono; [by eapply get_data_tail|]. intros v k2 Hpost. exists x, s, m, n. split; [done|].
  by rewrite (proj2 (Z.ltb_ge _ _)).
Qed.
End commands.
