(* ===== verification/IoService.v ===== *)
(** * The running service: clients and service loops interleaved

    [c_step] is the concrete system and [reach_sim] its simulation of
    [IoSpec]: every reachable state is related to the end of a trace of the
    specification. *)

From Stdlib Require Import ZArith Lia Bool.
From stdpp Require Import base tactics option list numbers gmap relations.
From S2P Require Import Prelude Platform Params IoReq IoState IoSignal IoSignalProofs.
From S2P Require Import IoSpec IoHandlers IoHandlersProofs IoHelper IoSystem.
From S2P Require Import IoReference IoRefinement Frames.

Open Scope Z_scope.

(** ** The steps of a service loop *)

Section loop.
Context `{Env, Storage}.

Lemma start_loop_ok types ps k a : rel k a → params_ok types ps →
  wp true (start_loop types ps) (λ r k', rel k' a ∧ match r with
    | inl e => e = TEE_ERROR_BAD_PARAMETERS | inr p => in_periph p end) k.
Proof using.
  intros Hr Hps. unfold start_loop. pose proof (rl_shape _ _ Hr) as Hk.
  destruct (Z.eqb_spec (TEE_PARAM_TYPES TEE_PARAM_TYPE_VALUE_INPUT TEE_PARAM_TYPE_NONE
    TEE_PARAM_TYPE_NONE TEE_PARAM_TYPE_NONE) types) as [Et|]; cbn [negb]; wp_steps; [|done].
  symmetry in Et. param_shape Hps Et. uget.
  destruct (Z.leb_spec N_PERIPH (u16 a0)); wp_steps; [done|].
  split; [|split; [apply u16_range|done]].
  unfold mutex_init, lift, modify, zoom. cbn.
  eapply rel_upto; [|exact Hr]. eexists. split; [|reflexivity]. cbn.
  pose proof Hk as (_&_&_&_&_&_&_&_&_&_&_&Hh). split; [split_and!; try done; by exists []|]. cbn.
  rewrite Hh. apply leibniz_equiv. set_solver.
Qed.

(** Removing the head of one of the queues. *)
Lemma queues_rel_dequeue k a p m' q' r l : queues_rel k a → in_periph p → k_shape k →
  a_queue a p = r :: l →
  (∀ id l0, queue_rep (k_qmem k) (q_at k p) ((id, r) :: l0) →
     queue_rep m' q' l0 ∧ m' = QMem (delete id (qm_nodes (k_qmem k))) (qm_fresh (k_qmem k))) →
  queues_rel (set_k_queues (<[Z.to_nat p := q']> (k_queues k)) (set_k_qmem m' k)) (set_queue p l a).
Proof using.
  intros (Hpos&ql&Hql&Hdis) Hp Hk Hq Hdeq. destruct (Hql p Hp) as [Hrep Hl2]. rewrite Hq in Hl2.
  destruct (ql p) as [|[id r'] l0] eqn:Eq; [done|]. injection Hl2 as -> Hl2.
  destruct (Hdeq _ _ Hrep) as [Hrep' Hm]. assert (qm_fresh m' = qm_fresh (k_qmem k)) as Hf by by rewrite Hm.
  split; [cbn; lia|]. exists (upd1 ql p l0). split.
  - intros q Hqq. rewrite q_at_insert by done. cbn. destruct (decide (p = q)) as [<-|Hne].
    + by rewrite !upd1_eq.
    + rewrite !upd1_ne by done. destruct (Hql q Hqq) as [Hq1 Hq2]. split; [|done].
      eapply queue_rep_frame; [| |exact Hq1]; [|lia]. intros id' Hid'. rewrite Hm. cbn.
      rewrite lookup_delete_ne; [done|]. intros <-. apply (Hdis p q id); [done|done|done| |done].
      rewrite Eq. by left.
  - intros q1 q2 id' Hq1 Hq2 Hne. unfold upd1.
    assert (∀ x, x ∈ l0.*1 → x ∈ (ql p).*1) as Hsub by (intros; rewrite Eq; by right).
    destruct (decide (q1 = p)) as [->|], (decide (q2 = p)) as [->|]; try done.
    + intros ?%Hsub. by apply (Hdis p).
    + intros Hin ?%Hsub. by apply (Hdis q1 p id').
    + by apply Hdis.
Qed.

(** The state after the check: queue memory, queue [p] and waiting flag. *)
Definition checked (k : kstate) (p : Z) (d : dstate) (m : qmem) (q : io_req_queue) (w : list bool) :
    kstate :=
  set_k_d d (set_k_waiting w (set_k_queues (<[Z.to_nat p := q]> (k_queues k)) (set_k_qmem m k))).

Lemma checked_shape k p d m q w : k_shape k → kept (k_d k) d → length w = 64%nat →
  k_shape (checked k p d m q w).
Proof using.
  intros Hk Hd Hw. apply (k_shape_set_d (set_k_waiting _ (set_k_queues _ (set_k_qmem m k)))); [|done].
  revert Hk. shape.
Qed.

Definition taken_from (q p : Z) (o : option io_req_t) : list io_req_t :=
  match o with Some r => if decide (q = p) then [r] else [] | None => [] end.

Lemma loop_check_ok k a p : rel k a → in_periph p → a_pc a p = LCheck →
  wp true (loop_check p) (λ o k', ∃ a', a_step a a' ∧ rel k' a' ∧
    a_pc a' = upd1 (a_pc a) p (match o with Some r => LRun r | None => LBlocked end)
    ∧ match o with
      | Some r => a_queue a p = r :: a_queue a' p
      | None => a_queue a p = [] ∧ waiting_at k' p = true
      end
    ∧ a_phase a' = a_phase a ∧ ∀ q, a_queue a q = taken_from q p o ++ a_queue a' q) k.
Proof using.
  intros Hr Hp Hpc. pose proof (rl_shape _ _ Hr) as Hk. pose proof (rl_queues _ _ Hr) as Hq.
  pose proof Hk as (_&_&_&_&_&Hlq&Hlw&_&_&_&_&Hh). unfold loop_check. wp_steps. k_lock. wp_steps.
  apply wp_on_queue; [done|done|]. unfold is_empty. wp_steps. cbn [fst snd].
  pose proof Hq as (Hpos&ql&Hql&_). destruct (Hql p Hp) as [Hrep Hl2].
  pose proof Hrep as (Hch&_). apply chain_front in Hch.
  change (q_at (set_k_d (locked (L_queue p) (k_d k)) k) p) with (q_at k p).
  change (k_qmem (set_k_d (locked (L_queue p) (k_d k)) k)) with (k_qmem k).
  assert (<[Z.to_nat p := q_at k p]> (k_queues k) = k_queues k) as Hsame.
  { apply list_insert_id. unfold q_at. unfold in_periph, N_PERIPH in *.
    destruct (k_queues k !! Z.to_nat p) eqn:E; [done|]. apply lookup_ge_None in E. lia. }
  assert (kept (k_d k) (unlocked (L_queue p) (locked (L_queue p) (k_d k)))) as Hkept.
  { apply kept_section. rewrite Hh. set_solver. }
  destruct (Z.eqb_spec (q_front (q_at k p)) 0) as [Hz|Hnz].
  - apply Hch in Hz. rewrite Hz in Hl2. cbn in Hl2. wp_steps.
    eapply wp_mono; [apply set_waiting_spec; [done|exact Hlw]|]. intros ? ? ->. wp_steps.
    eapply wp_mono; [apply kunlock_spec; [done|cbn; set_solver]|]. intros ? ? ->. wp_steps.
    assert (a_step a (set_pc p LBlocked a)) as Hst by (eexists; by constructor).
    exists (set_pc p LBlocked a). split_and!; [done| |done|done| |done|done].
    + cbn. rewrite Hsame.
      apply (rel_moved k _ a); [done|eapply a_step_inv; [exact Hst|apply Hr]|done|by eexists| |exact Hq|].
      * apply (k_shape_set_d (set_k_waiting (<[Z.to_nat p := true]> (k_waiting k)) k)); [|done]. by apply waiting_shape.
      * intros q Hqq. change (waiting_at (set_k_d _ (set_k_waiting ?w _)) q)
          with (waiting_at (set_k_waiting w k) q). rewrite waiting_insert by done. cbn.
        case_decide as E; [by subst|]. by apply (rl_wait _ _ Hr).
    + unfold waiting_at. cbn. unfold in_periph, N_PERIPH in Hp.
      by rewrite list_lookup_insert_eq by lia.
  - assert (ql p ≠ []) as Hne by tauto. destruct (ql p) as [|[id r] l0] eqn:Eq; [done|]. cbn in Hl2.
    wp_steps. cbn. rewrite Hsame.
    change (set_k_queues (k_queues k) (set_k_qmem (k_qmem k) (set_k_d (locked (L_queue p) (k_d k)) k)))
      with (set_k_d (locked (L_queue p) (k_d k)) k).
    apply wp_on_queue; [done|done|].
    change (q_at (set_k_d (locked (L_queue p) (k_d k)) k) p) with (q_at k p).
    change (k_qmem (set_k_d (locked (L_queue p) (k_d k)) k)) with (k_qmem k).
    eapply wp_mono; [by apply dequeue_spec|]. intros r0 [m' q'] (->&Hrep'&Hm). wp_steps.
    eapply wp_mono; [apply kunlock_spec; [done|cbn; set_solver]|]. intros ? ? ->. wp_steps.
    assert (a_step a (set_pc p (LRun r) (set_queue p l0.*2 a))) as Hst by (eexists; by constructor).
    eexists. split_and!; [exact Hst| |done|by cbn; rewrite upd1_eq|done|].
    2:{ intros q. cbn. unfold upd1. destruct (decide (q = p)) as [->|]; [by rewrite <- Hl2|done]. }
    apply (rel_moved k _ a); [done|eapply a_step_inv; [exact Hst|apply Hr]|done|by eexists| | |].
    + apply (checked_shape k p _ m' q' (k_waiting k)); done.
    + apply (queues_rel_dequeue k a p m' q' r l0.*2); try done. intros id' l' Hl'.
      pose proof (queue_rep_inj _ _ _ _ Hrep Hl') as [= <- <-]. done.
    + intros q Hqq Hw. change (waiting_at (set_k_d _ (set_k_queues _ (set_k_qmem _ (set_k_d _ k)))) q)
        with (waiting_at k q) in Hw. pose proof (rl_wait _ _ Hr q Hqq Hw) as Hem. cbn. unfold upd1.
      case_decide as E; [subst q; congruence|done].
Qed.

Lemma ready_step_ok k a p r : rel k a → in_periph p → a_pc a p = LDone r →
  wp true (set_ready_signal p (rq_signo r)) (λ _ k', ∃ a', a_step a a' ∧ rel k' a'
    ∧ a_pc a' = upd1 (a_pc a) p LCheck
    ∧ ∃ res, a_phase a p (rq_signo r) = PDone res
        ∧ a' = set_pc p LCheck (set_phase p (rq_signo r) (PReady res) a)) k.
Proof using.
  intros Hr Hp Hpc. pose proof (rl_shape _ _ Hr) as Hk. pose proof (rl_sig _ _ Hr) as Hi.
  pose proof (rl_heap _ _ Hr).
  destruct (ai_done _ _ (rl_ainv _ _ Hr p Hp) r Hpc) as (Hs&res&Hph).
  pose proof (rl_phase _ _ Hr p (rq_signo r) Hp Hs) as Hok. rewrite Hph in Hok. destruct Hok as [Hb He].
  eapply wp_mono; [by apply set_ready_signal_spec|]. intros ? k' Hu.
  set (a' := set_pc p LCheck (set_phase p (rq_signo r) (PReady res) a)).
  assert (a_step a a') as Hst by (eexists; by eapply A_announce). exists a'. split_and!; [done| |done|by exists res].
  eapply rel_upto; [exact Hu|].
  destruct (ready_sig k p (rq_signo r) Hk Hi Hp Hs Hb) as [Hi' Hso].
  set (k1 := set_k_pending _ k) in *.
  assert (∀ q j, in_periph q → in_sig j → (q, j) ≠ (p, rq_signo r) → ∀ id,
    id ∈ own k q j (a_phase a q j) → id ∉ own k1 p (rq_signo r) (PReady res)) as Hdis.
  { intros q j Hq Hj Hne id Hid Hx. destruct (rl_own _ _ Hr q j p (rq_signo r) id) as [-> ->]; try done.
    rewrite Hph. exact Hx. }
  apply (rel_update k k1 a a' p (rq_signo r) (PReady res)); auto.
  - eapply a_step_inv; [exact Hst|apply Hr].
  - by apply pending_shape.
  - done.
  - intros q j Hq Hj Hne. rewrite Hso by done. unfold sig_upd. rewrite decide_False by naive_solver.
    split_and!; [done|done|]. intros id Hid. split; [done|]. exact (Hdis q j Hq Hj Hne id Hid).
  - split; [|done]. rewrite Hso by done. unfold sig_upd. by rewrite decide_True.
  - intros id Hid. apply (rl_live _ _ Hr p (rq_signo r)); try done. by rewrite Hph.
  - apply (queues_rel_phase k _ a); [done|done|done|apply Hr].
  - apply Hr.
Qed.

Context `{!StorageOk}.

(** A handler may be matched by any result that its entry holds. *)
Definition finished (a : astate) (p : Z) (r : io_req_t) (res : result) : astate :=
  set_pc p (LDone r) (set_phase p (rq_signo r) (PDone res) a).

Lemma handle_step_any t k a p r : rel k a → in_periph p → a_pc a p = LRun r →
  hw_live t p (k_d k) → req_live t r →
  wp t (handle_req r p) (λ _ k', entry_ok (k_heap k') (entry_at k' p (rq_signo r)) ∧ handler_post k p r k' ∧
    ∀ res, entry_is (k_heap k') (entry_at k' p (rq_signo r)) res →
      a_step a (finished a p r res) ∧ rel k' (finished a p r res)) k.
Proof.
  intros Hr Hp Hpc Hhw Hrl. pose proof (rl_shape _ _ Hr) as Hk. pose proof (rl_heap _ _ Hr) as Hh.
  destruct (ai_wait _ _ (rl_ainv _ _ Hr p Hp) r) as [Hs Hph].
  { unfold pending. rewrite Hpc. by left. }
  pose proof (rl_phase _ _ Hr p (rq_signo r) Hp Hs) as Hok. rewrite Hph in Hok. destruct Hok as [Hb Hok].
  eapply wp_mono; [apply handle_req_ok; [by split_and!|done|done|done]|].
  intros ? k' Hpost. pose proof Hpost as (e&Heq&Hd&Hh'&Hf&Hsame&He&Hnew&_&_).
  assert (entry_at k' p (rq_signo r) = e) as Hee.
  { destruct Hk as (_&_&_&_&Ht&_). rewrite Heq. by apply (entry_set_same k). }
  split; [by rewrite Hee|]. split; [done|]. rewrite Hee. intros res Hres.
  set (a' := finished a p r res). assert (a_step a a') as Hst by (eexists; by eapply A_done). split; [done|].
  pose proof Hk as (_&_&_&_&Ht&_).
  assert (∀ q j, sig_of k' q j = sig_of k q j) as Hso by (intros; by rewrite Heq).
  assert (k_shape k') as Hk'.
  { rewrite Heq. pose proof (shape_set_entry p (rq_signo r) e _ Hk) as Hx.
    exact (k_shape_set_d _ _ Hx Hd). }
  assert (∀ id, id ∈ own k' p (rq_signo r) (PDone res) → k_fresh k <= id < k_fresh k') as Hown.
  { intros id. cbn. rewrite Hee. destruct (entry_block e) as [id'|] eqn:E; cbn; [|by intros ?%elem_of_nil].
    intros ->%list_elem_of_singleton. split; [by apply Hnew|].
    unfold entry_block in E. destruct (_ || _) eqn:E2; [done|]. bool_props.
    destruct (se_buf e) as [|i|] eqn:E3; try done. injection E as ->.
    destruct He as [?|[?|(i&b&E4&Hx&_)]]; [lia|lia|]. rewrite E3 in E4. injection E4 as <-.
    destruct Hh' as [_ Hh']. apply Hh' in Hx. lia. }
  apply (rel_update k k' a a' p (rq_signo r) (PDone res)); auto.
  - eapply a_step_inv; [exact Hst|apply Hr].
  - intros q Hq. rewrite Heq. by apply (rl_sig _ _ Hr).
  - intros q j Hq Hj Hne. split_and!; [by rewrite Hso| |].
    + rewrite Heq. change (entry_at (set_k_d _ (set_k_heap _ (set_k_fresh _ ?x))) q j) with (entry_at x q j).
      by rewrite entry_set_other.
    + intros id Hid. pose proof (rl_live _ _ Hr q j id Hq Hj Hid). split.
      * apply Hsame; [done|]. intros Hx. destruct (rl_own _ _ Hr q j p (rq_signo r) id) as [-> ->]; try done.
        by rewrite Hph.
      * intros Hx%Hown. lia.
  - split; [by rewrite Hso|]. by rewrite Hee.
  - intros id Hx%Hown. lia.
  - apply (queues_rel_phase k _ a); [by rewrite Heq|by rewrite Heq|done|apply Hr].
  - intros q Hq. rewrite Heq. apply (rl_wait _ _ Hr q Hq).
Qed.

Lemma handle_step_ok t k a p r : rel k a → in_periph p → a_pc a p = LRun r →
  hw_live t p (k_d k) → req_live t r →
  wp t (handle_req r p) (λ _ k', ∃ a', a_step a a' ∧ rel k' a'
    ∧ a_pc a' = upd1 (a_pc a) p (LDone r)) k.
Proof.
  intros Hr Hp Hpc Hhw Hrl. eapply wp_mono; [by apply (handle_step_any t k a p r)|].
  intros ? k' (He&_&Hany). destruct (entry_ok_is _ _ He) as [res Hres]. destruct (Hany res Hres).
  by exists (finished a p r res).
Qed.

(** The result of a run of a handler is what the operation of its request
    delivers. *)
Lemma handle_step_result k a p r v k' : rel k a → in_periph p → a_pc a p = LRun r → handle_req r p k = Ok v k' →
  ∃ x, operation (k_heap k) p r (k_d k) = Ok x (k_d k')
    ∧ rel k' (finished a p r (result_of_delivery x)).
Proof.
  intros Hr Hp Hpc E. pose proof (rl_shape _ _ Hr) as Hk. pose proof (rl_heap _ _ Hr) as Hh.
  destruct (ai_wait _ _ (rl_ainv _ _ Hr p Hp) r) as [Hs Hph].
  { unfold pending. rewrite Hpc. by left. }
  pose proof (rl_phase _ _ Hr p (rq_signo r) Hp Hs) as Hok. rewrite Hph in Hok. destruct Hok as [_ Hok].
  pose proof (handle_step_any false k a p r Hr Hp Hpc (hw_live_false _ _) ltac:(intros Ht; discriminate)) as Hw.
  unfold wp in Hw. rewrite E in Hw. destruct Hw as (_&Hpost&Hany).
  pose proof (handle_req_records k p r ltac:(by split_and!) Hok) as Hrec. rewrite E in Hrec.
  destruct Hrec as (x&Hx&Hpub). exists x. split; [done|]. apply Hany. by eapply published_is.
Qed.
End loop.

(** ** The interleaved system *)

Section system.
Context `{Env, Storage, !StorageOk}.

Definition sys : Type := kstate * (Z → loop_pc).
Definition sys_init : sys := (k_init, λ _, LOff).

Inductive c_step : sys → sys → Prop :=
  | C_command cmd types ps r ps' k k' pc :
      params_ok types ps → client_ok cmd ps →
      invoke_command cmd types ps k = Ok (Reply r ps') k' → c_step (k, pc) (k', pc)
  | C_start types ps p k k' pc :
      params_ok types ps → invoke_command 0 types ps k = Ok (Serves p) k' → pc p = LOff →
      c_step (k, pc) (k', upd1 pc p LCheck)
  | C_check p o k k' pc : in_periph p → pc p = LCheck → loop_check p k = Ok o k' →
      c_step (k, pc) (k', upd1 pc p (match o with Some r => LRun r | None => LBlocked end))
  | C_wake p k pc : in_periph p → pc p = LBlocked → waiting_at k p = false →
      c_step (k, pc) (k, upd1 pc p LCheck)
  | C_handle p r v k k' pc : in_periph p → pc p = LRun r → handle_req r p k = Ok v k' →
      c_step (k, pc) (k', upd1 pc p (LDone r))
  | C_ready p r v k k' pc : in_periph p → pc p = LDone r →
      set_ready_signal p (rq_signo r) k = Ok v k' → c_step (k, pc) (k', upd1 pc p LCheck).

Definition sim (s : sys) (a : astate) : Prop := rel s.1 a ∧ a_pc a = s.2.

(** Every command but the one that starts a loop. *)
Lemma replies_ok (m : K (Z * uparams)) (Q : Z * uparams → kstate → Prop) k : wp true m Q k →
  wp true (replies m) (λ r k', ∃ v, r = Reply v.1 v.2 ∧ Q v k') k.
Proof using. intros Hm. unfold replies. wp_steps. eapply wp_mono; [exact Hm|]. intros [v ps] ? ?. wp_steps. by exists (v, ps). Qed.

Lemma get_data_cmd types ps k a : rel k a → params_ok types ps → client_ok 3 ps →
  wp true (get_data types ps) (λ _ k', cmd_post a None k') k.
Proof using.
  intros Hr Hps Hcl. eapply wp_mono; [by apply get_data_ok|]. intros v k' Hpost. case_match.
  - destruct Hpost as (x&s&m&n&->&Hpost). case_match; [destruct Hpost; by apply cmd_post_idle|].
    destruct Hpost as (a'&Hpc&Hr'&Hph).
    destruct (a_phase a (u16 x) s); try (destruct Hph as [_ ->]; by apply cmd_post_idle).
    destruct Hph as [_ Hph]. case_match; [subst; by apply cmd_post_idle|]. destruct Hph as [Hst ->].
    eapply cmd_post_step; [exact Hst|by apply moves_phase; right|]. by apply cmd_post_idle.
  - destruct Hpost. by apply cmd_post_idle.
Qed.

(** What a reply shows of the request it accepted. *)
Definition reply_submits (cmd : Z) (ps : uparams) (r : reply) (k' : kstate) : option (Z * io_req_t) :=
  match r with Reply v ps' => submission cmd ps (v, ps') k' | Serves _ => None end.
Definition reply_post (cmd : Z) (ps : uparams) (a : astate) (r : reply) (k' : kstate) : Prop :=
  match r with
  | Reply _ _ => cmd_post a (reply_submits cmd ps r k') k'
  | Serves p => cmd = 0 ∧ in_periph p ∧ rel k' a
  end.

Lemma reply_idle cmd ps a v k' : v.1 ≠ TEE_SUCCESS → rel k' a → reply_post cmd ps a (Reply v.1 v.2) k'.
Proof using.
  intros Hv Hr. cbn. unfold submission. cbn [fst]. rewrite (proj2 (Z.eqb_neq _ _)) by done. by apply cmd_post_idle.
Qed.

Lemma replies_post cmd m ps a k : wp true m (λ v k', cmd_post a (submission cmd ps v k') k') k →
  wp true (replies m) (reply_post cmd ps a) k.
Proof using. intros Hm. eapply wp_mono; [by eapply replies_ok|]. by intros r k' ([v ps']&->&?). Qed.
Lemma replies_other cmd m ps a k : is_submission cmd = false → wp true m (λ _ k', cmd_post a None k') k →
  wp true (replies m) (reply_post cmd ps a) k.
Proof using. intros Hc Hm. apply replies_post. eapply wp_mono; [exact Hm|]. intros v k' ?. by rewrite submission_other. Qed.

Lemma invoke_post cmd types ps k a : rel k a → params_ok types ps → client_ok cmd ps →
  wp true (invoke_command cmd types ps) (reply_post cmd ps a) k.
Proof using.
  intros Hr Hps Hcl.
  assert (wp true (r ← start_loop types ps;
      match r with inl e => mret (Reply e ps) | inr p => mret (Serves p) end) (reply_post 0 ps a) k) as Hstart.
  { wp_steps. eapply wp_mono; [by apply start_loop_ok|].
    intros [e|p] k' [? He]; wp_steps; [|done]. subst e. by apply (reply_idle 0 ps a (TEE_ERROR_BAD_PARAMETERS, ps)). }
  unfold invoke_command. repeat case_match; subst;
    try (by wp_steps; apply (reply_idle _ ps a (TEE_ERROR_NOT_SUPPORTED, ps))); try exact Hstart.
  all: lazymatch goal with
    | |- wp _ (replies (poll _ _)) _ _ => apply replies_other; [done|];
        eapply wp_mono; [by apply poll_ok|]; intros [] ? [? _]; by apply cmd_post_idle
    | |- wp _ (replies (poll_subsignal _ _)) _ _ => apply replies_other; [done|];
        eapply wp_mono; [by apply poll_subsignal_ok|]; intros [] ? [? _]; by apply cmd_post_idle
    | |- wp _ (replies (get_overhead_timestamp _ _)) _ _ => apply replies_other; [done|];
        eapply wp_mono; [by apply get_overhead_timestamp_ok|]; intros ? ? ?; by apply cmd_post_idle
    | |- wp _ (replies (get_data _ _)) _ _ => apply replies_other; [done|by apply get_data_cmd]
    | _ => apply replies_post; auto using read_req_ok, write_req_ok, read_req_with_buffer_ok, write_req_with_buffer_ok
    end.
Qed.

Lemma invoke_ok cmd types ps k a : rel k a → params_ok types ps → client_ok cmd ps →
  wp true (invoke_command cmd types ps) (λ r k', match r with
    | Reply _ _ => ∃ a', rtc a_step a a' ∧ a_pc a' = a_pc a ∧ rel k' a'
    | Serves p => cmd = 0 ∧ in_periph p ∧ rel k' a end) k.
Proof using.
  intros Hr Hps Hcl. eapply wp_mono; [by apply invoke_post|]. intros [v ps'|p] k'; [|done].
  intros (a'&?&[? _]&?). by exists a'.
Qed.

(** A loop that starts, or that wakes up. *)
Lemma loop_enters k a p : rel k a → in_periph p → a_pc a p = LOff ∨ a_pc a p = LBlocked →
  a_step a (set_pc p LCheck a) ∧ sim (k, upd1 (a_pc a) p LCheck) (set_pc p LCheck a).
Proof using.
  intros Hr Hp Hpc. assert (a_step a (set_pc p LCheck a)) as Hst by (destruct Hpc; eexists; by constructor).
  split; [done|]. split; [|done].
  apply (rel_moved k k a); [done|eapply a_step_inv; [exact Hst|apply Hr]|done| |apply Hr|apply Hr|apply Hr].
  exists (k_d k). split; [done|by destruct k].
Qed.

(** Every concrete step is matched by steps of the specification. *)
Lemma step_sim s s' a : sim s a → c_step s s' → ∃ a', rtc a_step a a' ∧ sim s' a'.
Proof.
  intros [Hr Hpc] Hst. destruct Hst as [cmd types ps r ps' k k' pc Hps Hcl E|types ps p k k' pc Hps E Hoff
    |p o k k' pc Hp Hc E|p k pc Hp Hb Hw|p r v k k' pc Hp Hc E|p r v k k' pc Hp Hc E]; cbn in Hr, Hpc; subst pc.
  - pose proof (invoke_ok cmd types ps k a Hr Hps Hcl) as Hwp. unfold wp in Hwp. rewrite E in Hwp.
    destruct Hwp as (a'&?&?&?). by exists a'.
  - pose proof (invoke_ok 0 types ps k a Hr Hps I) as Hwp. unfold wp in Hwp. rewrite E in Hwp.
    destruct Hwp as (_&Hp&Hr'). destruct (loop_enters k' a p Hr' Hp (or_introl Hoff)).
    exists (set_pc p LCheck a). split; [by apply rtc_once|done].
  - pose proof (loop_check_ok k a p Hr Hp Hc) as Hwp. unfold wp in Hwp. rewrite E in Hwp.
    destruct Hwp as (a'&?&?&?&_). exists a'. split; [by apply rtc_once|done].
  - destruct (loop_enters k a p Hr Hp (or_intror Hb)). exists (set_pc p LCheck a). split; [by apply rtc_once|done].
  - pose proof (handle_step_ok false k a p r Hr Hp Hc (hw_live_false _ _) ltac:(intros Ht; discriminate)) as Hwp. unfold wp in Hwp. rewrite E in Hwp.
    destruct Hwp as (a'&?&?&?). exists a'. split; [by apply rtc_once|done].
  - pose proof (ready_step_ok k a p r Hr Hp Hc) as Hwp. unfold wp in Hwp. rewrite E in Hwp.
    destruct Hwp as (a'&?&?&?&_). exists a'. split; [by apply rtc_once|done].
Qed.

Lemma sim_init : sim sys_init a_init.
Proof. split; [apply rel_init|done]. Qed.

(** Reachable states are related to the end of a trace of the specification. *)
Lemma reach_sim s : rtc c_step sys_init s → ∃ tr a, a_trace tr a ∧ sim s a.
Proof.
  intros Hr. remember sys_init as s0 eqn:E0.
  assert (∃ tr a, a_trace tr a ∧ sim s0 a) as Hs0.
  { exists [], a_init. subst s0. split; [constructor|apply sim_init]. }
  clear E0. induction Hr as [|s0 s1 s2 Hst _ IH]; [done|]. apply IH.
  destruct Hs0 as (tr&a&Ht&Hsim). destruct (step_sim _ _ _ Hsim Hst) as (a'&Hrt&Hsim').
  destruct (a_trace_steps _ _ _ Ht Hrt) as [tr' Ht']. by exists (tr' ++ tr), a'.
Qed.
End system.
