(* ===== verification/IoRun.v ===== *)
(** * Runs of the service, step by step

    [c_run evs s]: the service reached [s] by the steps [evs], newest first;
    each event records what the client or the loop saw.  What clients
    submitted, what loops took and which handling a result comes from are
    executable functions of the events.  [run_inv] ties them to the queues and
    the signal table. *)

From Stdlib Require Import ZArith Lia Bool.
From stdpp Require Import base tactics option list numbers gmap relations.
From S2P Require Import Prelude Platform Params IoReq IoState IoSignal IoSignalProofs.
From S2P Require Import IoSpec IoHandlers IoHandlersProofs IoHelper IoSystem.
From S2P Require Import IoReference IoRefinement IoService.

Open Scope Z_scope.

(** ** Labelled steps *)

(** The states of a command or of a handling are those before and after. *)
Inductive service_event :=
  | Called (cmd types : Z) (ps : uparams) (r : Z) (ps' : uparams) (k k' : kstate)
  | Started (p : Z)
  | Checked (p : Z) (o : option io_req_t)
  | Woken (p : Z)
  | Handled (p : Z) (r : io_req_t) (k k' : kstate)
  | Announced (p : Z) (r : io_req_t).

Section run.
Context `{Env, Storage}.

(** The steps of [c_step] with their events. *)
Inductive c_lstep : service_event → sys → sys → Prop :=
  | L_command cmd types ps r ps' k k' pc :
      params_ok types ps → client_ok cmd ps → invoke_command cmd types ps k = Ok (Reply r ps') k' →
      c_lstep (Called cmd types ps r ps' k k') (k, pc) (k', pc)
  | L_start types ps p k k' pc :
      params_ok types ps → invoke_command 0 types ps k = Ok (Serves p) k' → pc p = LOff →
      c_lstep (Started p) (k, pc) (k', upd1 pc p LCheck)
  | L_check p o k k' pc : in_periph p → pc p = LCheck → loop_check p k = Ok o k' →
      c_lstep (Checked p o) (k, pc) (k', upd1 pc p (match o with Some r => LRun r | None => LBlocked end))
  | L_wake p k pc : in_periph p → pc p = LBlocked → waiting_at k p = false →
      c_lstep (Woken p) (k, pc) (k, upd1 pc p LCheck)
  | L_handle p r v k k' pc : in_periph p → pc p = LRun r → handle_req r p k = Ok v k' →
      c_lstep (Handled p r k k') (k, pc) (k', upd1 pc p (LDone r))
  | L_ready p r v k k' pc : in_periph p → pc p = LDone r → set_ready_signal p (rq_signo r) k = Ok v k' →
      c_lstep (Announced p r) (k, pc) (k', upd1 pc p LCheck).

Inductive c_run : list service_event → sys → Prop :=
  | run_start : c_run [] sys_init
  | run_step evs ev s s' : c_run evs s → c_lstep ev s s' → c_run (ev :: evs) s'.

Lemma c_step_lstep s s' : c_step s s' ↔ ∃ ev, c_lstep ev s s'.
Proof using. split; [destruct 1; eexists; by econstructor|]. intros [ev Hst]. destruct Hst; by econstructor. Qed.

(** The labelled runs reach what the steps reach. *)
Lemma c_run_reach s : rtc c_step sys_init s ↔ ∃ evs, c_run evs s.
Proof using.
  split.
  - intros Hr. assert (∃ evs, c_run evs sys_init) as Hs by (exists []; constructor).
    revert Hs. generalize sys_init Hr. clear Hr. induction 1 as [|s1 s2 s3 Hst _ IH]; [done|]. intros [evs Hs].
    apply IH. apply c_step_lstep in Hst as [ev Hst]. exists (ev :: evs). by econstructor.
  - intros [evs Hr]. induction Hr as [|evs ev s1 s2 _ IH Hst]; [done|].
    eapply rtc_r; [exact IH|]. apply c_step_lstep. by exists ev.
Qed.
End run.

(** ** What a run shows *)

(** What each event contributes, oldest first. *)
Fixpoint in_order {A} (f : service_event → list A) (evs : list service_event) : list A :=
  match evs with [] => [] | ev :: evs' => in_order f evs' ++ f ev end.

(** The request a client was told to be accepted by peripheral [p]. *)
Definition sub_event (ev : service_event) : option (Z * io_req_t) :=
  match ev with Called cmd _ ps r ps' _ k' => submission cmd ps (r, ps') k' | _ => None end.
Definition submits_in (p : Z) (ev : service_event) : list io_req_t := sent_to p (sub_event ev).
(** The request the loop of [p] took from its queue. *)
Definition takes_in (p : Z) (ev : service_event) : list io_req_t :=
  match ev with Checked q o => as_sent <$> taken_from p q o | _ => [] end.

(** The latest request that was answered with signal [s]. *)
Fixpoint last_submitted (p s : Z) (evs : list service_event) : option io_req_t :=
  match evs with
  | [] => None
  | ev :: evs' =>
    match sub_event ev with
    | Some (q, r) => if decide (q = p ∧ rq_signo r = s) then Some r else last_submitted p s evs'
    | None => last_submitted p s evs'
    end
  end.

(** The latest handling of a request with signal [s], unless a command has
    freed the signal since, with the states before and after it. *)
Fixpoint last_handled (p s : Z) (evs : list service_event) : option (io_req_t * kstate * kstate) :=
  match evs with
  | [] => None
  | Handled q r k k' :: evs' =>
      if decide (q = p ∧ rq_signo r = s) then Some (r, k, k') else last_handled p s evs'
  | Called _ _ _ _ _ k k' :: evs' =>
      if bool_decide (sig_of k p s ≠ SigFree ∧ sig_of k' p s = SigFree) then None else last_handled p s evs'
  | _ :: evs' => last_handled p s evs'
  end.

(** The requests in a linked queue, from the front on; [n] bounds the nodes. *)
Fixpoint follow (n : nat) (m : gmap Z (io_req_node (A:=io_req_t))) (q : Z) : list io_req_t :=
  match n with
  | O => []
  | Datatypes.S n' =>
    if q =? 0 then [] else
    match m !! q with Some nd => nd_req nd :: follow n' m (nd_next nd) | None => [] end
  end.
Definition queue_content (k : kstate) (p : Z) : list io_req_t :=
  let m := qm_nodes (k_qmem k) in follow (size m) m (q_front (q_at k p)).

Lemma chain_follow m q (l : list (Z * io_req_t)) n : chain m q l → (length l <= n)%nat →
  follow n m q = l.*2.
Proof.
  intros Hc Hn. revert n q Hc Hn. induction l as [|[id r] l IH]; intros n q Hc Hn; cbn in *.
  - subst q. by destruct n.
  - destruct Hc as (->&Hne&nx&Hid&Hc). destruct n as [|n]; [lia|]. cbn. rewrite (proj2 (Z.eqb_neq _ _)), Hid by done. cbn. f_equal. apply IH; [done|lia].
Qed.

Lemma queue_content_rep k p l : queue_rep (k_qmem k) (q_at k p) l → queue_content k p = l.*2.
Proof.
  intros (Hc&_&Hnd&_). apply chain_follow; [done|].
  assert (list_to_set l.*1 ⊆ dom (qm_nodes (k_qmem k))) as Hsub.
  { intros id Hid%elem_of_list_to_set. revert Hc Hid. generalize (q_front (q_at k p)). clear Hnd.
    induction l as [|[i r] l IH]; intros q; cbn; [by intros _ ?%elem_of_nil|].
    intros (->&_&nx&Hi&Hc) [->|Hid]%elem_of_cons; [apply elem_of_dom; by eexists|by eapply IH]. }
  apply subseteq_size in Hsub. rewrite size_list_to_set, length_fmap, size_dom in Hsub by done. exact Hsub.
Qed.

(** ** The invariant of runs *)

Section inv.
Context `{Env, Storage, !StorageOk}.

(** [res] is what the operation of the latest request with this signal
    delivered, in the latest handling of the signal. *)
Definition delivered (p s : Z) (evs : list service_event) (res : result) : Prop :=
  ∃ r k0 k1 v x, last_submitted p s evs = Some (as_sent r) ∧ last_handled p s evs = Some (r, k0, k1)
    ∧ handle_req r p k0 = Ok v k1 ∧ operation (k_heap k0) p r (k_d k0) = Ok x (k_d k1)
    ∧ res = result_of_delivery x.

Record run_inv (evs : list service_event) (s : sys) (a : astate) : Prop := {
  ri_sim : sim s a;
  ri_queue p : in_periph p →
    in_order (submits_in p) evs = in_order (takes_in p) evs ++ (as_sent <$> a_queue a p);
  ri_wait p j r : in_periph p → in_sig j → a_phase a p j = PWait r → last_submitted p j evs = Some (as_sent r);
  ri_result p j res : in_periph p → in_sig j → result_of (a_phase a p j) = Some res → delivered p j evs res
}.

Lemma run_inv_init : run_inv [] sys_init a_init.
Proof. constructor; try done. apply sim_init. Qed.

(** An event that neither submits, takes nor handles. *)
Lemma run_inv_quiet ev evs s s' a a' : run_inv evs s a → sim s' a' → sub_event ev = None →
  (∀ p, takes_in p ev = []) → (∀ p j, last_handled p j (ev :: evs) = last_handled p j evs) →
  (∀ p, in_periph p → a_queue a' p = a_queue a p) →
  (∀ p j r, a_phase a' p j = PWait r → a_phase a p j = PWait r) →
  (∀ p j, in_periph p → result_of (a_phase a' p j) = result_of (a_phase a p j)) → run_inv (ev :: evs) s' a'.
Proof.
  intros Hi Hsim Hsub Htk Hlh Hq Hw Hr. constructor; [done|..].
  - intros p Hp. cbn. unfold submits_in at 2. rewrite Hsub, Htk, (Hq p Hp). cbn. rewrite !app_nil_r. by apply (ri_queue _ _ _ Hi).
  - intros p j r Hp Hj Hph%Hw. cbn. rewrite Hsub. by apply (ri_wait _ _ _ Hi).
  - intros p j res Hp Hj Hph. rewrite (Hr p j Hp) in Hph. destruct (ri_result _ _ _ Hi p j res Hp Hj Hph) as (r&k0&k1&v&x&?&?&?).
    exists r, k0, k1, v, x. rewrite Hlh. cbn [last_submitted]. by rewrite Hsub.
Qed.

Lemma run_inv_command evs cmd types ps r ps' k k' pc a : run_inv evs (k, pc) a → params_ok types ps → client_ok cmd ps →
  invoke_command cmd types ps k = Ok (Reply r ps') k' → ∃ a', run_inv (Called cmd types ps r ps' k k' :: evs) (k', pc) a'.
Proof.
  intros Hi Hps Hcl E. destruct (ri_sim _ _ _ Hi) as [Hrel Hpc]. cbn in Hrel, Hpc. subst pc.
  pose proof (invoke_post cmd types ps k a Hrel Hps Hcl) as Hw. unfold wp in Hw. rewrite E in Hw. cbn in Hw.
  destruct Hw as (a'&_&(Hpc&Hq&Hres&Hwait&Hsub)&Hrel'). exists a'. constructor; [by split|..].
  - intros p Hp. cbn. rewrite app_nil_r, Hq. unfold submits_in at 2. cbn [sub_event].
    by rewrite (ri_queue _ _ _ Hi p Hp), <- app_assoc.
  - intros p j r0 Hp Hj Hph. pose proof (ai_wait_inv _ _ (rl_ainv _ _ Hrel' p Hp) j r0 Hj Hph) as [Hsig _].
    cbn [last_submitted sub_event]. destruct (Hwait p j r0 Hph) as [Hold|Hnew].
    + destruct (submission _ _ _ _) as [[q r1]|] eqn:Es; [|by apply (ri_wait _ _ _ Hi)].
      case_decide as Hd; [|by apply (ri_wait _ _ _ Hi)]. destruct Hd as [-> <-].
      destruct (Hsub p r1 eq_refl) as (r2&<-&Hr2). rewrite Hph in Hr2. by injection Hr2 as <-.
    + rewrite Hnew. by rewrite decide_True.
  - intros p j res Hp Hj Hph. destruct (Hres p j) as [Hsame|Hno]; [|congruence].
    rewrite Hsame in Hph. destruct (ri_result _ _ _ Hi p j res Hp Hj Hph) as (r0&k0&k1&v&x&Hl&Hlh&Hrest).
    exists r0, k0, k1, v, x. split_and!; try apply Hrest.
    + cbn [last_submitted sub_event]. destruct (submission _ _ _ _) as [[q r1]|] eqn:Es; [|done].
      case_decide as Hd; [|done]. destruct Hd as [-> <-]. destruct (Hsub p r1 eq_refl) as (r2&_&Hr2).
      rewrite <- Hsame, Hr2 in Hph. done.
    + cbn [last_handled]. rewrite bool_decide_false; [done|]. intros [_ Hfree].
      pose proof (rel_free _ _ _ _ Hrel' Hp Hj Hfree) as Hx. rewrite <- Hsame, Hx in Hph. done.
Qed.

Lemma run_inv_handle evs p r v k k' pc a : run_inv evs (k, pc) a → in_periph p → pc p = LRun r →
  handle_req r p k = Ok v k' → ∃ a', run_inv (Handled p r k k' :: evs) (k', upd1 pc p (LDone r)) a'.
Proof.
  intros Hi Hp Hrun E. destruct (ri_sim _ _ _ Hi) as [Hrel Hpc]. cbn in Hrel, Hpc. subst pc.
  destruct (ai_wait _ _ (rl_ainv _ _ Hrel p Hp) r) as [Hs Hph].
  { unfold pending. rewrite Hrun. by left. }
  destruct (handle_step_result k a p r v k' Hrel Hp Hrun E) as (x&Hx&Hrel').
  exists (finished a p r (result_of_delivery x)). constructor; [by split|..].
  - intros q Hq. cbn. rewrite !app_nil_r. by apply (ri_queue _ _ _ Hi).
  - intros q j r0 Hq Hj. cbn [finished set_pc set_phase a_phase]. unfold upd2. case_decide; [done|]. by apply (ri_wait _ _ _ Hi).
  - intros q j res Hq Hj. cbn [finished set_pc set_phase a_phase]. unfold upd2. case_decide as Hd.
    + destruct Hd as [-> ->]. intros [= <-]. exists r, k, k', v, x. cbn [last_submitted last_handled sub_event].
      rewrite decide_True by done. by rewrite (ri_wait _ _ _ Hi p _ r).
    + intros Hres. destruct (ri_result _ _ _ Hi q j res Hq Hj Hres) as (r0&k0&k1&v0&x0&?&?&?).
      exists r0, k0, k1, v0, x0. cbn [last_submitted last_handled sub_event]. by rewrite decide_False by naive_solver.
Qed.

Lemma run_inv_check evs p o k k' pc a : run_inv evs (k, pc) a → in_periph p → pc p = LCheck →
  loop_check p k = Ok o k' →
  ∃ a', run_inv (Checked p o :: evs) (k', upd1 pc p (match o with Some r => LRun r | None => LBlocked end)) a'.
Proof.
  intros Hi Hp Hc E. destruct (ri_sim _ _ _ Hi) as [Hrel Hpc]. cbn in Hrel, Hpc. subst pc.
  pose proof (loop_check_ok k a p Hrel Hp Hc) as Hw. unfold wp in Hw. rewrite E in Hw.
  destruct Hw as (a'&_&Hrel'&Hpc&_&Hph&Hq). exists a'. constructor; [by split|..].
  - intros q Hqp. cbn. rewrite app_nil_r, <- app_assoc, (ri_queue _ _ _ Hi q Hqp), Hq, fmap_app. done.
  - intros q j r Hqp Hj. rewrite Hph. apply (ri_wait _ _ _ Hi q j r Hqp Hj).
  - intros q j res Hqp Hj. rewrite Hph. apply (ri_result _ _ _ Hi q j res Hqp Hj).
Qed.

Lemma run_inv_ready evs p r v k k' pc a : run_inv evs (k, pc) a → in_periph p → pc p = LDone r →
  set_ready_signal p (rq_signo r) k = Ok v k' → ∃ a', run_inv (Announced p r :: evs) (k', upd1 pc p LCheck) a'.
Proof.
  intros Hi Hp Hc E. destruct (ri_sim _ _ _ Hi) as [Hrel Hpc]. cbn in Hrel, Hpc. subst pc.
  pose proof (ready_step_ok k a p r Hrel Hp Hc) as Hw. unfold wp in Hw. rewrite E in Hw.
  destruct Hw as (a'&_&Hrel'&Hpc&res&Hph&->). eexists. eapply run_inv_quiet; [exact Hi|by split|done..| |].
  - intros q j r0. cbn. unfold upd2. by case_decide.
  - intros q j _. cbn. unfold upd2. case_decide as Hd; [|done]. destruct Hd as [-> ->]. by rewrite Hph.
Qed.

Lemma run_inv_step evs s a ev s' : run_inv evs s a → c_lstep ev s s' → ∃ a', run_inv (ev :: evs) s' a'.
Proof.
  intros Hi Hst. destruct Hst as [cmd types ps r ps' k k' pc Hps Hcl E|types ps p k k' pc Hps E Hoff
    |p o k k' pc Hp Hc E|p k pc Hp Hb Hw|p r v k k' pc Hp Hc E|p r v k k' pc Hp Hc E].
  - by eapply run_inv_command.
  - destruct (ri_sim _ _ _ Hi) as [Hrel Hpc]. cbn in Hrel, Hpc. subst pc.
    pose proof (invoke_ok 0 types ps k a Hrel Hps I) as Hw. unfold wp in Hw. rewrite E in Hw. destruct Hw as (_&Hp&Hrel').
    destruct (loop_enters k' a p Hrel' Hp (or_introl Hoff)). exists (set_pc p LCheck a). by eapply run_inv_quiet.
  - by eapply run_inv_check.
  - destruct (ri_sim _ _ _ Hi) as [Hrel Hpc]. cbn in Hrel, Hpc. subst pc.
    destruct (loop_enters k a p Hrel Hp (or_intror Hb)). exists (set_pc p LCheck a). by eapply run_inv_quiet.
  - by eapply run_inv_handle.
  - by eapply run_inv_ready.
Qed.

Lemma run_inv_of evs s : c_run evs s → ∃ a, run_inv evs s a.
Proof.
  induction 1 as [|evs ev s s' _ [a IH] Hst]; [exists a_init; apply run_inv_init|]. by eapply run_inv_step.
Qed.
End inv.
