(* ===== verification/ServiceTheorems.v ===== *)
(** * Main theorems on the I/O helper

    The results clients and the platform rely on, with witnesses at concrete
    inputs, and the inputs for which the code leaves defined behaviour. *)

From Stdlib Require Import ZArith Lia Bool.
From stdpp Require Import base tactics option list numbers gmap relations.
From S2P Require Import Prelude Platform Params Gpio I2c Spi Sensors Tel0157 Dht IoReq.
From S2P Require Import IoState IoSignal IoSignalProofs IoSpec IoHandlers.
From S2P Require Import IoHandlersProofs IoHelper IoSystem IoReference IoRefinement IoService IoRun Frames.

Open Scope Z_scope.

(** ** A concrete environment for the witnesses *)

(** Registers read as [v], allocations succeed, the clock stands still. *)
Definition demo_env (v : Z) (mem : bool) : Env :=
  {| env_read := λ _ _ _, v; env_time := λ _, (7, 5); env_malloc := λ _ _, mem;
     env_mmu := false; env_phys_to_virt := λ a, a; env_fuel := 50 |}.

(** Storage that knows one object of three bytes. *)
Definition demo_storage : Storage :=
  {| st_create := λ _ _, (TEE_SUCCESS, 1); st_write := λ _ _ _, TEE_SUCCESS;
     st_open := λ _ _, (TEE_SUCCESS, 1); st_info := λ _ _, (TEE_SUCCESS, 3);
     st_read := λ _ _ _, (TEE_SUCCESS, 3, [10; 20; 30]) |}.
Definition demo_storage_ok : @StorageOk demo_storage.
Proof. constructor; intros; cbn; auto. Defined.

Section theorems.
Context `{Env, Storage, !StorageOk}.

Lemma reach_ok k pc : rtc c_step sys_init (k, pc) → k_shape k ∧ heap_ok k.
Proof.
  intros Hr. destruct (reach_sim _ Hr) as (tr&a&_&Hrel&_). split; [apply (rl_shape _ _ Hrel)|apply (rl_heap _ _ Hrel)].
Qed.

(** Collecting a ready signal with a buffer [m]. *)
Lemma collect_ready k a p s res y m : rel k a → in_periph p → in_sig s → a_phase a p s = PReady res →
  u16 y = p → 0 <= y < 2 ^ 32 → blen m < 2 ^ 32 →
  ∃ r ps' k', get_data get_types [UValue y s; UMemref m (blen m); UNone; UNone] k = Ok (r, ps') k'
    ∧ get_answer res y s m (blen m) r ps'
    ∧ sig_of k' p s = (if short res (blen m) then SigReady else SigFree).
Proof.
  intros Hrel Hp Hs Hph Hy Hyr Hm. pose proof (blen_nonneg m). pose proof Hs as Hs'. unfold in_sig, N_SUB_SIG in Hs'.
  assert (params_ok get_types [UValue y s; UMemref m (blen m); UNone; UNone]) as Hps.
  { cbn. unfold param_ok; cbn. split_and!; try done; [exists y, s; split_and!; [done|lia..]|].
    exists m, (blen m). split_and!; done. }
  pose proof (get_data_ok get_types _ k a Hrel Hps) as Hw. unfold wp in Hw.
  specialize (Hw ltac:(cbn; rewrite Hy; unfold in_periph, N_SUB_SIG in *; lia)).
  destruct (get_data _ _ k) as [[r ps'] k'|w|]; [|done|done]. rewrite Z.eqb_refl in Hw.
  destruct Hw as (y'&s'&m'&n'&[= <- <- <- <-]&Hw). exists r, ps', k'. split; [done|].
  rewrite (proj2 (Z.ltb_ge _ _)) in Hw by (unfold N_SUB_SIG; lia).
  destruct Hw as (a'&_&Hrel'&Hw). rewrite Hy, Hph in Hw. destruct Hw as [Hans Ha']. split; [done|].
  pose proof (rl_phase _ _ Hrel' p s Hp Hs) as Hok. destruct (short res (blen m)).
  - subst a'. rewrite Hph in Hok. by destruct Hok.
  - destruct Ha' as [_ ->]. cbn in Hok. by rewrite upd2_eq in Hok.
Qed.

(** C1: Every state the I/O helper can reach, by any interleaving of client
    commands with the steps of the service loops of all 64 peripherals, is
    related to a state of the abstract request/response machine that is
    reached by a trace of abstract steps; the abstract state satisfies the
    invariant tying signals, queues and loops together, and the loops are at
    the same program points. The commands are those whose parameters have the
    declared types, whose request fits its entry point and whose signal
    numbers are in range; each loop is started once. *)
Theorem service_refines k pc : rtc c_step sys_init (k, pc) →
  ∃ tr a, a_trace tr a ∧ a_inv a ∧ a_pc a = pc ∧ rel k a.
Proof.
  intros Hr. destruct (reach_sim _ Hr) as (tr&a&Ht&Hrel&Hpc). exists tr, a.
  split_and!; auto. by eapply a_trace_inv.
Qed.

(** C5: In every reachable state, every client command with parameters of the
    declared types, whose request fits its entry point and whose signal
    numbers are in range, returns a result (no undefined behaviour, no endless
    loop), a loop that checks its queue returns, the handler of the request a
    loop holds never reaches undefined behaviour and returns when its device
    answers, and announcing the result returns. *)
Theorem service_safe k pc : rtc c_step sys_init (k, pc) →
  (∀ cmd types ps, params_ok types ps → client_ok cmd ps →
     ∃ r k', invoke_command cmd types ps k = Ok r k')
  ∧ ∀ p, in_periph p →
     (pc p = LCheck → ∃ o k', loop_check p k = Ok o k')
     ∧ (∀ r, pc p = LRun r → (∀ w, handle_req r p k ≠ Undef w)
          ∧ (hw_live true p (k_d k) → req_live true r → ∃ v k', handle_req r p k = Ok v k'))
     ∧ (∀ r, pc p = LDone r → ∃ k', set_ready_signal p (rq_signo r) k = Ok tt k').
Proof.
  intros Hr. destruct (reach_sim _ Hr) as (tr&a&Ht&Hrel&Hpc). cbn in Hrel, Hpc. subst pc. split.
  - intros cmd types ps Hps Hcl. pose proof (invoke_ok cmd types ps k a Hrel Hps Hcl) as Hw.
    unfold wp in Hw. destruct (invoke_command cmd types ps k) as [r k'|w|]; [by eauto|done|done].
  - intros p Hp. split_and!.
    + intros Hc. pose proof (loop_check_ok k a p Hrel Hp Hc) as Hw. unfold wp in Hw.
      destruct (loop_check p k) as [o k'|w|]; [by eauto|done|done].
    + intros r Hc. split.
      * intros w E. pose proof (handle_step_ok false k a p r Hrel Hp Hc (hw_live_false _ _)
          ltac:(intros Ht0; discriminate)) as Hw. unfold wp in Hw. by rewrite E in Hw.
      * intros Hhw Hlv. pose proof (handle_step_ok true k a p r Hrel Hp Hc Hhw Hlv) as Hw.
        unfold wp in Hw. destruct (handle_req r p k) as [v k'|w|]; [by eauto|done|done].
    + intros r Hc. pose proof (ready_step_ok k a p r Hrel Hp Hc) as Hw. unfold wp in Hw.
      destruct (set_ready_signal p (rq_signo r) k) as [[] k'|w|]; [by eauto|done|done].
Qed.

(** C8: For any run of the service, from its start, of client commands and
    loop steps in any interleaving, and any peripheral: the requests that
    clients were told to be accepted and for which there was memory for a
    queue node (type, signal, parameters and sizes, read off the commands'
    parameters and answers), in the order of the calls, are exactly the
    requests the peripheral's loop took, in the order it took them, followed
    by those still in the linked queue, from its front. *)
Theorem service_fifo evs k pc p : c_run evs (k, pc) → in_periph p →
  in_order (submits_in p) evs = in_order (takes_in p) evs ++ (as_sent <$> queue_content k p).
Proof.
  intros Hr Hp. destruct (run_inv_of _ _ Hr) as [a Hi]. pose proof (ri_sim _ _ _ Hi) as [Hrel _]. cbn in Hrel.
  destruct (rl_queues _ _ Hrel) as (_&ql&Hql&_). destruct (Hql p Hp) as [Hrep Hl].
  rewrite (ri_queue _ _ _ Hi p Hp), (queue_content_rep _ _ _ Hrep). by rewrite Hl.
Qed.

(** C6: For each of the kinds of request, with parameters of the shape of its
    type: if the handler returns, then what it has recorded in the table entry
    of its signal, and in the block the entry points to, is what the driver
    operation or system calls the request stands for deliver when run on the
    same driver state and input buffers (a status, or the bytes with their
    number); and the driver is left in the state that operation leaves it in. *)
Theorem handler_delivers k p req v k' : k_shape k → heap_ok k → in_periph p → in_sig (rq_signo req) →
  req_ok (k_heap k) req → handle_req req p k = Ok v k' →
  ∃ x, operation (k_heap k) p req (k_d k) = Ok x (k_d k')
    ∧ entry_is (k_heap k') (entry_at k' p (rq_signo req)) (result_of_delivery x).
Proof.
  intros Hk Hh Hp Hs Hreq E.
  pose proof (handle_req_ok false k p req ltac:(by split_and!) Hreq (hw_live_false _ _) ltac:(intros Ht; discriminate)) as Hw.
  unfold wp in Hw. rewrite E in Hw.
  pose proof (handle_req_records k p req ltac:(by split_and!) Hreq) as Hrec. rewrite E in Hrec.
  destruct Hrec as (x&Hx&Hpub). exists x. split; [done|]. by eapply published_is.
Qed.

(** C7: For any run of the service, from its start, of client commands and
    loop steps in any interleaving: if a signal is ready at the end, then the
    latest request that a client was told to be accepted with that signal was
    handled, no command has freed the signal since, and the signal's table
    entry and heap block are the status or the bytes that the driver operation
    or system calls that request stands for (operation, a reference with a
    case for each of the request kinds) delivered when run in the driver state
    and on the request's copied buffers at the point of the run where it was
    handled. get_data with a buffer of the client then returns exactly that
    result (copied, or SHORT_BUFFER with the needed length) and frees the
    signal unless the buffer was too short. *)
Theorem service_results evs k pc p s : c_run evs (k, pc) → in_periph p → in_sig s →
  sig_of k p s = SigReady →
  ∃ r k0 k1 v x, last_submitted p s evs = Some (as_sent r)
    ∧ last_handled p s evs = Some (r, k0, k1)
    ∧ handle_req r p k0 = Ok v k1 ∧ operation (k_heap k0) p r (k_d k0) = Ok x (k_d k1)
    ∧ let res := result_of_delivery x in
      entry_is (k_heap k) (entry_at k p s) res
      ∧ ∀ y m, u16 y = p → 0 <= y < 2 ^ 32 → blen m < 2 ^ 32 →
        ∃ r ps' k', get_data get_types [UValue y s; UMemref m (blen m); UNone; UNone] k = Ok (r, ps') k'
          ∧ get_answer res y s m (blen m) r ps'
          ∧ sig_of k' p s = (if short res (blen m) then SigReady else SigFree).
Proof.
  intros Hr Hp Hs Hrd. destruct (run_inv_of _ _ Hr) as [a Hi]. pose proof (ri_sim _ _ _ Hi) as [Hrel _].
  cbn in Hrel. destruct (rel_ready _ _ _ _ Hrel Hp Hs Hrd) as (res&Hph&He).
  destruct (ri_result _ _ _ Hi p s res Hp Hs ltac:(by rewrite Hph)) as (r&k0&k1&v&x&Hl&Hlh&Hrun&Hop&->).
  exists r, k0, k1, v, x. split_and!; [done..|]. cbn zeta. split; [done|]. intros y m Hy Hyr Hm.
  by eapply collect_ready.
Qed.

(** C10: A service loop that is blocked on its condition variable while its
    queue holds a request can always wake up: the signal sent by the
    submission is never lost. *)
Theorem no_lost_wakeup k pc p : rtc c_step sys_init (k, pc) → in_periph p →
  pc p = LBlocked → q_front (q_at k p) ≠ 0 → c_step (k, pc) (k, upd1 pc p LCheck).
Proof.
  intros Hr Hp Hb Hq. destruct (reach_sim _ Hr) as (tr&a&Ht&Hrel&Hpc). cbn in Hrel.
  apply C_wake; try done. destruct (waiting_at k p) eqn:E; [|done]. exfalso. apply Hq.
  pose proof (rl_wait _ _ Hrel p Hp E) as Hem. destruct (rl_queues _ _ Hrel) as (_&ql&Hql&_).
  destruct (Hql p Hp) as [(Hch&_) Hl]. apply chain_front in Hch. apply Hch.
  rewrite Hem in Hl. by destruct (ql p).
Qed.

(** C9: Every request handler, for parameters of the shape of its request
    type, changes only the table entry of its signal, the request's blocks and
    new heap blocks, publishes an entry whose length and buffer agree, leaves
    no new block that the entry does not own, and gives back every driver
    lock; with t = true it also terminates on live hardware. *)
Theorem handler_contract t k p req : k_shape k → heap_ok k → in_periph p → in_sig (rq_signo req) →
  req_ok (k_heap k) req → hw_live t p (k_d k) → req_live t req →
  wp t (handle_req req p) (λ _ k', handler_post k p req k') k.
Proof. intros. by apply handle_req_ok. Qed.

(** A read request is refused with BAD_PARAMETERS for a peripheral number
    of 64 or more, answered BUSY with its parameters untouched when no signal
    of the peripheral is free, and otherwise succeeds with the least free
    signal in its first value parameter. *)
Theorem read_req_answer k pc ps : rtc c_step sys_init (k, pc) →
  params_ok read_types ps → client_ok 2 ps →
  ∃ r ps' k', read_req read_types ps k = Ok (r, ps') k' ∧ submit_answer k ps r ps'.
Proof.
  intros Hr Hps Hcl. destruct (reach_sim _ Hr) as (tr&a&_&Hrel&_).
  pose proof (read_req_spec read_types ps k a Hrel Hps Hcl) as Hw. unfold wp in Hw.
  destruct (read_req read_types ps k) as [[r ps'] k'|w|]; [|done|done]. exists r, ps', k'. split; [done|].
  destruct Hw as [_ Hw]. by rewrite Z.eqb_refl in Hw.
Qed.

(** poll on a valid peripheral succeeds and reports the least ready
    signal if there is one, that requests are pending but none is ready
    (signal 0xFFFFFFFF) if some signal is in use, and that nothing is pending
    otherwise. *)
Theorem poll_reports k pc x b : rtc c_step sys_init (k, pc) → 0 <= x < N_PERIPH → 0 <= b < 2 ^ 32 →
  ∃ u k', poll only_value_inout [UValue x b; UNone; UNone; UNone] k
            = Ok (TEE_SUCCESS, [u; UNone; UNone; UNone]) k' ∧ poll_answer k x b u.
Proof.
  intros Hr Hx Hb. destruct (reach_sim _ Hr) as (tr&a&_&Hrel&_).
  assert (params_ok only_value_inout [UValue x b; UNone; UNone; UNone]) as Hps.
  { cbn. unfold param_ok; cbn. unfold N_PERIPH in Hx. split_and!; try done. exists x, b. split_and!; [done|lia..]. }
  pose proof (poll_ok only_value_inout _ k a Hrel Hps) as Hw. unfold wp in Hw.
  destruct (poll _ _ k) as [[r ps'] k'|w|]; [|done|done]. destruct Hw as [_ Hw].
  rewrite Z.eqb_refl in Hw. destruct Hw as (x'&b'&[= <- <-]&Hw). rewrite u16_small in Hw by done.
  rewrite (proj2 (Z.leb_gt _ _)) in Hw by lia. destruct Hw as (->&u&->&Ha). by exists u, k'.
Qed.

(** poll_subsignal on a signal in use reports 1 if the signal is ready
    and 0 otherwise. *)
Theorem poll_subsignal_reports k pc x s : rtc c_step sys_init (k, pc) → in_periph x → in_sig s →
  sig_of k x s ≠ SigFree →
  ∃ k', poll_subsignal only_value_inout [UValue x s; UNone; UNone; UNone] k
    = Ok (TEE_SUCCESS, [UValue (if bool_decide (sig_of k x s = SigReady) then 1 else 0) s;
                        UNone; UNone; UNone]) k'.
Proof.
  intros Hr Hx Hs Hu. destruct (reach_sim _ Hr) as (tr&a&_&Hrel&_). pose proof Hx as [Hx0 Hx1].
  pose proof Hs as [Hs0 Hs1]. unfold N_SUB_SIG in Hs1. pose proof Hx1 as Hx2. unfold N_PERIPH in Hx2.
  assert (params_ok only_value_inout [UValue x s; UNone; UNone; UNone]) as Hps.
  { cbn. unfold param_ok; cbn. split_and!; try done. exists x, s. split_and!; [done|lia..]. }
  pose proof (poll_subsignal_ok only_value_inout _ k a Hrel Hps) as Hw. unfold wp in Hw.
  destruct (poll_subsignal _ _ k) as [[r ps'] k'|w|]; [|done|done]. destruct Hw as [_ Hw].
  rewrite Z.eqb_refl in Hw. destruct Hw as (x'&s'&[= <- <-]&Hw). rewrite u16_small in Hw by done.
  rewrite (proj2 (Z.leb_gt N_PERIPH _)), (proj2 (Z.leb_gt N_SUB_SIG _)) in Hw by (unfold N_SUB_SIG; lia).
  cbn [orb] in Hw. rewrite bool_decide_false in Hw by done. destruct Hw as [-> ->]. by exists k'.
Qed.
End theorems.

(** C19: Any sequence of enqueue (with or without memory) and dequeue
    operations on the pointer-linked queue gives the answers of a FIFO list,
    never follows a dangling pointer and ends in a queue that represents that
    list. *)
Theorem queue_is_fifo (ops : list (qop (A:=io_req_t))) (m : qmem) (q : io_req_queue) l :
  queue_rep m q l → 0 < qm_fresh m →
  ∃ rs s l', run_ops ops (m, q) = Ok rs s ∧ queue_rep s.1 s.2 l' ∧ spec_ops ops l.*2 = (rs, l'.*2).
Proof.
  intros Hr Hf. pose proof (run_ops_spec ops m q l Hr Hf) as Hw. unfold wp in Hw.
  destruct (run_ops ops (m, q)) as [rs s|w|]; [|done|done]. destruct Hw as (l'&?&?). by exists rs, s, l'.
Qed.

(** C18: The bitmap operations implement a table of 64 signals per peripheral,
    each free, busy or ready: allocate_signo takes the least free signal or
    fails exactly when none is free, set_ready_signal and release_signo change
    that one signal only, and each preserves the invariant that the request
    counter is the number of signals in use. *)
Theorem signals_refine k p : k_shape k → sig_inv k → in_periph p →
  wp true (allocate_signo p) (λ r k', k_shape k' ∧ sig_inv k' ∧
    (r = -1 ∧ (∀ s, in_sig s → sig_of k p s ≠ SigFree) ∧ sig_same (sig_of k') (sig_of k)
     ∨ in_sig r ∧ sig_of k p r = SigFree ∧ (∀ j, 0 <= j < r → sig_of k p j ≠ SigFree)
       ∧ sig_same (sig_of k') (sig_upd (sig_of k) p r SigBusy))) k
  ∧ ∀ s, in_sig s →
    (sig_of k p s = SigBusy → wp true (set_ready_signal p s) (λ _ k', k_shape k' ∧ sig_inv k'
       ∧ sig_same (sig_of k') (sig_upd (sig_of k) p s SigReady)) k)
    ∧ (sig_of k p s ≠ SigFree → wp true (release_signo p s) (λ _ k', k_shape k' ∧ sig_inv k'
       ∧ sig_same (sig_of k') (sig_upd (sig_of k) p s SigFree)) k).
Proof.
  intros Hk Hi Hp. split_and!.
  - eapply wp_mono; [by apply allocate_step|]. intros r k' [(->&Hn&Hu)|(Hs&Hf&Hlow&Hu)].
    + destruct (upto_refl _ _ Hu Hk Hi) as (?&?&?). split_and!; auto.
    + destruct (allocated_sig k p r Hk Hi Hp Hs Hf) as [Hi' Hso].
      destruct (upto_refl _ _ Hu (allocated_shape k p r Hk) Hi') as (?&?&Hs'). split_and!; auto.
      right. split_and!; auto. by rewrite Hs'.
  - intros s Hs. split; intros Hb.
    + eapply wp_mono; [by apply set_ready_signal_spec|]. intros ? k' Hu.
      destruct (ready_sig k p s Hk Hi Hp Hs Hb) as [Hi' Hso].
      destruct (upto_refl _ _ Hu (pending_shape k _ _ Hk) Hi') as (?&?&Hs'). split_and!; auto. by rewrite Hs'.
    + eapply wp_mono; [by apply release_step|]. intros ? k' Hu.
      destruct (released_sig k p s Hk Hi Hp Hs Hb) as [Hi' Hso].
      destruct (upto_refl _ _ Hu (released_shape k p s Hk) Hi') as (?&?&Hs'). split_and!; auto. by rewrite Hs'.
Qed.


(** ** A run of the service, for the witnesses

    A loop is started for peripheral 40, a client asks for the stored object
    named by the bytes 1 and 2, the loop takes the request, handles it and
    announces the result. *)

Definition state_of {A} (o : outcome kstate A) : kstate :=
  match o with Ok _ k => k | _ => k_init end.

Definition buffer_types : Z :=
  TEE_PARAM_TYPES TEE_PARAM_TYPE_VALUE_INOUT TEE_PARAM_TYPE_MEMREF_INPUT TEE_PARAM_TYPE_VALUE_INPUT
    TEE_PARAM_TYPE_VALUE_INPUT.

Module Demo.
Definition E : Env := demo_env 0xFFFFFFFF true.
Definition S : Storage := demo_storage.
Definition O : StorageOk (H:=S) := demo_storage_ok.
#[local] Existing Instance E.
#[local] Existing Instance S.
#[local] Existing Instance O.

Definition start_types : Z :=
  TEE_PARAM_TYPES TEE_PARAM_TYPE_VALUE_INPUT TEE_PARAM_TYPE_NONE TEE_PARAM_TYPE_NONE
    TEE_PARAM_TYPE_NONE.
Definition demo_start : uparams := [UValue 40 0; UNone; UNone; UNone].
Definition demo_params : uparams :=
  [UValue 40 10; UMemref (bytes [1; 2]) 2; UValue 0 0; UValue 0 0].
Definition demo_req : io_req_t := IoReq READ_SECURE_OBJECT 0 [Memref (Blk 1) 2; Value 0 0; Value 0 0].

Definition demo_k1 : kstate := state_of (invoke_command 0 start_types demo_start k_init).
Definition demo_k1b : kstate := state_of (loop_check 40 demo_k1).
Definition demo_k2 : kstate := state_of (invoke_command 6 buffer_types demo_params demo_k1b).
Definition demo_k3 : kstate := state_of (loop_check 40 demo_k2).
Definition demo_k4 : kstate := state_of (handle_req demo_req 40 demo_k3).
Definition demo_k5 : kstate := state_of (set_ready_signal 40 0 demo_k4).

Definition demo_pc (c : loop_pc) : Z → loop_pc := λ q, if decide (q = 40) then c else LOff.

Lemma demo_params_ok : params_ok buffer_types demo_params ∧ client_ok 6 demo_params.
Proof.
  split.
  - cbn. unfold param_ok; cbn. split_and!; try (eexists _, _; split_and!; [done|lia..]).
    exists (bytes [1; 2]), 2. split_and!; try done. intros _. exists [1; 2]. split; [done|].
    repeat constructor; lia.
  - intros s id. cbn. exists [1; 2]. rewrite lookup_singleton_eq. split_and!; try done.
    repeat constructor; lia.
Qed.

Lemma demo_start_ok : params_ok start_types demo_start.
Proof. cbn. unfold param_ok; cbn. split_and!; try done. eexists _, _. split_and!; [done|lia..]. Qed.

(** The loop blocked, with the request in its queue. *)
Lemma demo_reach_queued : ∃ pc, rtc (c_step (H:=E) (H0:=S)) sys_init (demo_k2, pc) ∧ pc 40 = LBlocked.
Proof.
  eexists. split.
  - eapply rtc_l; [eapply C_start; [apply demo_start_ok|vm_compute; reflexivity|reflexivity]|].
    eapply rtc_l; [eapply (C_check 40 None _ demo_k1b); [done|reflexivity|vm_compute; reflexivity]|].
    eapply rtc_l; [eapply (C_command 6); [apply demo_params_ok|apply demo_params_ok|vm_compute; reflexivity]|].
    apply rtc_refl.
  - reflexivity.
Qed.

(** The loop about to handle the request. *)
Lemma demo_reach_taken : ∃ pc, rtc (c_step (H:=E) (H0:=S)) sys_init (demo_k3, pc) ∧ pc 40 = LRun demo_req.
Proof.
  destruct demo_reach_queued as (pc&Hr&Hb). eexists. split.
  - etrans; [exact Hr|].
    eapply rtc_l; [apply (C_wake 40); [done|exact Hb|vm_compute; reflexivity]|].
    eapply rtc_l; [eapply (C_check 40 (Some demo_req) _ demo_k3);
      [done|apply upd1_eq|vm_compute; reflexivity]|].
    apply rtc_refl.
  - apply upd1_eq.
Qed.

Lemma demo_taken : k_shape demo_k3 ∧ heap_ok demo_k3 ∧ req_ok (k_heap demo_k3) demo_req.
Proof.
  destruct demo_reach_taken as (pc&Hr&_). destruct (reach_ok (H1:=O) demo_k3 pc Hr) as [Hk Hh].
  split_and!; [exact Hk|exact Hh|]. exists [1; 2]. split_and!; [vm_compute; reflexivity|done|done|].
  repeat constructor; lia.
Qed.

Lemma demo_live : hw_live (H:=E) true 40 (k_d demo_k3).
Proof.
  split; [intros _ Hd; by apply Z.lt_nge in Hd; destruct Hd|].
  intros _ h b Hb. rewrite !elem_of_cons, elem_of_nil in Hb.
  destruct Hb as [->|[->|[->|[]]]]; reflexivity.
Qed.

Lemma demo_reach_ready : ∃ pc, rtc (c_step (H:=E) (H0:=S)) sys_init (demo_k5, pc) ∧ pc 40 = LCheck.
Proof.
  destruct demo_reach_taken as (pc&Hr&Hb). eexists. split.
  - etrans; [exact Hr|].
    eapply rtc_l; [eapply (C_handle 40 demo_req _ _ demo_k4); [done|exact Hb|vm_compute; reflexivity]|].
    eapply rtc_l; [eapply (C_ready 40 demo_req _ _ demo_k5); [done|apply upd1_eq|vm_compute; reflexivity]|].
    apply rtc_refl.
  - apply upd1_eq.
Qed.

(** The same run with its events, newest first. *)
Definition demo_queued : list service_event :=
  [Called 6 buffer_types demo_params TEE_SUCCESS [UValue 0 10; UMemref (bytes [1; 2]) 2; UValue 0 0; UValue 0 0]
     demo_k1b demo_k2; Checked 40 None; Started 40].
Definition demo_done : list service_event :=
  [Announced 40 demo_req; Handled 40 demo_req demo_k3 demo_k4; Checked 40 (Some demo_req); Woken 40] ++ demo_queued.

Lemma demo_run_queued : ∃ pc, c_run (H:=E) (H0:=S) demo_queued (demo_k2, pc) ∧ pc 40 = LBlocked.
Proof.
  eexists. split; [|shelve].
  eapply run_step; [eapply run_step; [eapply run_step; [apply run_start|]|]|].
  - eapply L_start; [apply demo_start_ok|vm_compute; reflexivity|reflexivity].
  - eapply (L_check 40 None _ demo_k1b); [done|apply upd1_eq|vm_compute; reflexivity].
  - eapply L_command; [apply demo_params_ok|apply demo_params_ok|vm_compute; reflexivity].
  Unshelve. reflexivity.
Qed.

Lemma demo_run_done : ∃ pc, c_run (H:=E) (H0:=S) demo_done (demo_k5, pc).
Proof.
  destruct demo_run_queued as (pc&Hr&Hb). eexists. unfold demo_done. cbn [app].
  eapply run_step; [eapply run_step; [eapply run_step; [eapply run_step; [exact Hr|]|]|]|].
  - apply (L_wake 40); [done|exact Hb|vm_compute; reflexivity].
  - eapply (L_check 40 (Some demo_req) _ demo_k3); [done|apply upd1_eq|vm_compute; reflexivity].
  - eapply (L_handle 40 demo_req _ _ demo_k4); [done|apply upd1_eq|vm_compute; reflexivity].
  - eapply (L_ready 40 demo_req _ _ demo_k5); [done|apply upd1_eq|vm_compute; reflexivity].
Qed.

Lemma demo_ready : sig_of demo_k5 40 0 = SigReady.
Proof. vm_compute. reflexivity. Qed.

Lemma service_refines_witness : ∃ pc tr a, rtc (c_step (H:=E) (H0:=S)) sys_init (demo_k5, pc)
  ∧ a_trace tr a ∧ a_inv a ∧ a_pc a = pc ∧ rel demo_k5 a.
Proof.
  destruct demo_reach_ready as (pc&Hr&_).
  destruct (service_refines (H1:=O) _ _ Hr) as (tr&a&Ht). exists pc, tr, a. split; [exact Hr|exact Ht].
Defined.

Lemma service_safe_witness : ∃ r k', invoke_command 6 buffer_types demo_params demo_k5 = Ok r k'.
Proof.
  destruct demo_reach_ready as (pc&Hr&_).
  destruct (service_safe (H1:=O) _ _ Hr) as [Hcmd _].
  apply Hcmd; apply demo_params_ok.
Defined.

(** The submitted request is still in the queue. *)
Lemma service_fifo_witness :
  in_order (submits_in 40) demo_queued = in_order (takes_in 40) demo_queued ++ (as_sent <$> queue_content demo_k2 40)
  ∧ as_sent <$> queue_content demo_k2 40 = [IoReq READ_SECURE_OBJECT 0 [Memref Null 2; Value 0 0; Value 0 0]].
Proof.
  destruct demo_run_queued as (pc&Hr&_). split; [apply (service_fifo (H1:=O) _ _ _ 40 Hr); done|].
  vm_compute. reflexivity.
Defined.

(** The bytes of the object are the result of the request. *)
Lemma service_results_witness : ∃ k0 k1 v x, last_handled 40 0 demo_done = Some (demo_req, k0, k1)
  ∧ handle_req (H:=E) (H0:=S) demo_req 40 k0 = Ok v k1
  ∧ operation (H:=E) (H0:=S) (k_heap k0) 40 demo_req (k_d k0) = Ok x (k_d k1)
  ∧ result_of_delivery x = Res 3 (bytes [10; 20; 30])
  ∧ ∃ r ps' k', get_data (H:=E) get_types [UValue 40 0; UMemref (uninit 8) 8; UNone; UNone] demo_k5 = Ok (r, ps') k'
    ∧ get_answer (result_of_delivery x) 40 0 (uninit 8) 8 r ps'.
Proof.
  destruct demo_run_done as (pc&Hr).
  destruct (service_results (H1:=O) _ _ _ 40 0 Hr) as (r&k0&k1&v&x&_&Hl&Hrun&Hop&_&Hget); [done|done|apply demo_ready|].
  assert (last_handled 40 0 demo_done = Some (demo_req, demo_k3, demo_k4)) as Hd by reflexivity.
  rewrite Hd in Hl. apply (inj Some) in Hl. apply pair_eq in Hl as [Hl <-]. apply pair_eq in Hl as [<- <-].
  exists demo_k3, demo_k4, v, x. split; [exact Hd|]. split; [exact Hrun|]. split; [exact Hop|]. split.
  - assert (operation (H:=E) (H0:=S) (k_heap demo_k3) 40 demo_req (k_d demo_k3)
      = Ok (Data 3 (bytes [10; 20; 30])) (k_d demo_k4)) as Hop' by (vm_compute; reflexivity).
    assert (x = Data 3 (bytes [10; 20; 30])) as Hx.
    { exact (f_equal (λ o, match o with Ok a _ => a | _ => Status 0 end) (eq_trans (eq_sym Hop) Hop')). }
    rewrite Hx. reflexivity.
  - destruct (Hget 40 (uninit 8)) as (r&ps'&k'&Hg&Ha&_); [done|lia|done|]. exists r, ps', k'. split; [exact Hg|exact Ha].
Defined.

Lemma handler_delivers_witness : ∃ x, operation (H:=E) (H0:=S) (k_heap demo_k3) 40 demo_req (k_d demo_k3) = Ok x (k_d demo_k4)
  ∧ entry_is (k_heap demo_k4) (entry_at demo_k4 40 0) (result_of_delivery x).
Proof.
  destruct demo_taken as (Hk&Hh&Hreq).
  apply (handler_delivers (H1:=O) demo_k3 40 demo_req TEE_SUCCESS demo_k4 Hk Hh); [done|done|exact Hreq|].
  vm_compute. reflexivity.
Defined.

Lemma no_lost_wakeup_witness : ∃ pc, c_step (H:=E) (H0:=S) (demo_k2, pc) (demo_k2, upd1 pc 40 LCheck).
Proof.
  destruct demo_reach_queued as (pc&Hr&Hb). exists pc.
  apply (no_lost_wakeup (H1:=O) _ _ 40 Hr); [done|exact Hb|]. vm_compute. discriminate.
Defined.

(** The bytes of the object come back to the client, and only once. *)
Example demo_collect :
  let ps := [UValue 40 0; UMemref (uninit 8) 8; UNone; UNone] in
  match get_data get_types ps demo_k5 with
  | Ok (r, ps') k' => r = TEE_SUCCESS
      ∧ ps' = [UValue 3 0; UMemref (bytes [10; 20; 30] ++ uninit 5) 3; UNone; UNone]
      ∧ match get_data get_types ps k' with Ok v _ => v.1 = TEE_ERROR_NO_DATA | _ => False end
  | _ => False
  end.
Proof. vm_compute. split_and!; reflexivity. Qed.

Lemma handler_contract_witness :
  wp true (handle_req demo_req 40) (λ _ k', handler_post demo_k3 40 demo_req k') demo_k3.
Proof.
  destruct demo_taken as (Hk&Hh&Hreq).
  apply (handler_contract (H1:=O) true demo_k3 40 demo_req Hk Hh); [done|done|exact Hreq|exact demo_live|done].
Defined.

Lemma read_req_answer_witness : ∃ r ps' k',
  read_req read_types [UValue 3 0; UValue 1 0; UValue 0 0; UValue 0 0] demo_k5 = Ok (r, ps') k'
  ∧ submit_answer demo_k5 [UValue 3 0; UValue 1 0; UValue 0 0; UValue 0 0] r ps'.
Proof.
  destruct demo_reach_ready as (pc&Hr&_). apply (read_req_answer (H1:=O) _ _ _ Hr).
  - cbn. unfold param_ok; cbn. split_and!; (eexists _, _; split_and!; [done|lia..]).
  - intros s. cbn. split_and!; lia.
Defined.

Lemma poll_reports_witness : ∃ u k', poll only_value_inout [UValue 40 0; UNone; UNone; UNone] demo_k5
  = Ok (TEE_SUCCESS, [u; UNone; UNone; UNone]) k' ∧ poll_answer demo_k5 40 0 u.
Proof. destruct demo_reach_ready as (pc&Hr&_). apply (poll_reports (H1:=O) _ _ _ _ Hr); [done|lia]. Defined.

Lemma poll_subsignal_reports_witness : ∃ k',
  poll_subsignal only_value_inout [UValue 40 0; UNone; UNone; UNone] demo_k5
    = Ok (TEE_SUCCESS, [UValue (if bool_decide (sig_of demo_k5 40 0 = SigReady) then 1 else 0) 0;
                        UNone; UNone; UNone]) k'.
Proof.
  destruct demo_reach_ready as (pc&Hr&_). apply (poll_subsignal_reports (H1:=O) _ _ _ _ Hr); [done|done|].
  rewrite demo_ready. discriminate.
Defined.

Lemma queue_is_fifo_witness : ∃ rs s l',
  run_ops [QEnqueue true demo_req; QEnqueue false demo_req; QDequeue; QDequeue] (QMem ∅ 1, Queue 0 0) = Ok rs s
  ∧ queue_rep s.1 s.2 l' ∧ spec_ops [QEnqueue true demo_req; QEnqueue false demo_req; QDequeue; QDequeue] [] = (rs, l'.*2).
Proof. apply (queue_is_fifo _ (QMem ∅ 1) (Queue 0 0) []); [|done]. by repeat constructor. Defined.

Lemma signals_refine_witness : wp true (allocate_signo 5) (λ r k', k_shape k' ∧ sig_inv k' ∧
  (r = -1 ∧ (∀ s, in_sig s → sig_of k_init 5 s ≠ SigFree) ∧ sig_same (sig_of k') (sig_of k_init)
   ∨ in_sig r ∧ sig_of k_init 5 r = SigFree ∧ (∀ j, 0 <= j < r → sig_of k_init 5 j ≠ SigFree)
     ∧ sig_same (sig_of k') (sig_upd (sig_of k_init) 5 r SigBusy))) k_init.
Proof.
  pose proof rel_init as Hrel.
  apply (signals_refine k_init 5); [apply (rl_shape _ _ Hrel)|apply (rl_sig _ _ Hrel)|done].
Defined.

End Demo.

(** ** Inputs that leave defined behaviour

    Each run starts from the initial state of the service. *)

Module Escapes.
#[local] Existing Instance demo_storage.

(** A submission for peripheral [p], taken by its loop and handled. *)
Definition serve (E : Env) (cmd types : Z) (ps : uparams) (p : Z) : K Z :=
  invoke_command cmd types ps;;
  r ← loop_check p;
  match r with Some req => handle_req req p | None => mret 0 end.

(** get_data accepts signal number 64, which is then used as a shift
    count of a 64-bit word, and does not test the peripheral number, which
    then indexes past the signal table: both are undefined behaviour. *)
Theorem get_data_escapes (E : Env) (m : buf) (n : Z) :
  get_data get_types [UValue 3 64; UMemref m n; UNone; UNone] k_init = Undef UB_shift
  ∧ get_data get_types [UValue 64 0; UMemref m n; UNone; UNone] k_init = Undef UB_oob.
Proof. split; vm_compute; reflexivity. Qed.

(** A request submitted with the wrong entry point for its type (values
    for a memory type, or a buffer for a value type) makes the handler read
    the other member of the parameter union. *)
Theorem kind_confusion (a b : Z) :
  serve (demo_env 0 true) 2 read_types [UValue 40 22; UValue a b; UValue a b; UValue a b] 40 k_init
    = Undef UB_union
  ∧ serve (demo_env 0 true) 5 buffer_types [UValue 40 0; UMemref (bytes [1]) 1; UValue a b; UValue a b] 40 k_init
    = Undef UB_union.
Proof. split; vm_compute; reflexivity. Qed.

(** A receive-only SPI request leaves the request's buffer pointer
    uninitialised and the handler frees it. *)
Theorem spi_read_only_escapes :
  serve (demo_env 0xFFFFFFFF true) 5 buffer_types [UValue 30 6; UMemref [] 0; UValue 0 0; UValue 0 4] 30 k_init
    = Undef UB_free.
Proof. vm_compute. reflexivity. Qed.

(** An SPI exchange whose output is longer than its input buffer writes
    past the heap block allocated for the input. *)
Theorem spi_exchange_overflow :
  serve (demo_env 0xFFFFFFFF true) 5 buffer_types
    [UValue 30 6; UMemref (bytes [1; 2]) 2; UValue 0 0; UValue 0 1] 30 k_init = Undef UB_oob.
Proof. vm_compute. reflexivity. Qed.

(** When the queue node cannot be allocated the submission still reports
    success: the signal stays busy for ever and no request is queued. *)
Theorem lost_request (v : Z) :
  match read_req (H:=demo_env v false) read_types [UValue 3 0; UValue 1 0; UValue 0 0; UValue 0 0] k_init with
  | Ok (r, ps) k => r = TEE_SUCCESS ∧ ps !! 0%nat = Some (UValue 0 0) ∧ sig_of k 3 0 = SigBusy
      ∧ q_front (q_at k 3) = 0
  | _ => False
  end.
Proof. vm_compute. split_and!; reflexivity. Qed.
End Escapes.
