(* ===== verification/Boards.v ===== *)
(** * Concrete boards

    Environments on which the drivers run, for the witnesses of the theorems:
    every register of a board reads as one constant. *)

From Stdlib Require Import ZArith Lia Bool.
From stdpp Require Import base tactics option list numbers gmap.
From S2P Require Import Prelude Platform I2c I2cProofs Spi Sensors SensorsProofs.
From S2P Require Import SpiProofs W25qxx W25qxxProofs.

Open Scope Z_scope.

(** Enough fuel for the longest write, sealed so that it is never unfolded. *)
Lemma big_fuel : {n : nat | Z.of_nat n = 700000000}.
Proof. exists (Z.to_nat 700000000). by rewrite Z2Nat.id. Qed.

(** Every register reads as [v]. *)
Definition still_env (v : Z) : Env :=
  {| env_read := λ _ _ _, v; env_time := λ _, (7, 5); env_malloc := λ _ _, true;
     env_mmu := false; env_phys_to_virt := λ a, a; env_fuel := proj1_sig big_fuel |}.
(** The same with little fuel, to run a driver. *)
Definition quick_env (v : Z) : Env :=
  {| env_read := λ _ _ _, v; env_time := λ _, (7, 5); env_malloc := λ _ _, true;
     env_mmu := false; env_phys_to_virt := λ a, a; env_fuel := 20 |}.

Lemma still_fuel v : Z.of_nat (@env_fuel (still_env v)) = 700000000.
Proof. apply (proj2_sig big_fuel). Qed.

Definition all_ones : Z := 0xFFFFFFFF.

Lemma still_live dev s : i2c_live (H:=still_env all_ones) true dev s.
Proof. intros _ _. rewrite still_fuel. split; [lia|]. exists 0. split; [lia|]. intros h _. reflexivity. Qed.

Lemma still_dev_ready d : dev_wf d → dev_ready (H:=still_env all_ones) true d d_init.
Proof.
  intros Hd. split; [apply d_init_wf|]. split; [exact Hd|]. split; [|apply still_live].
  split; [apply Hd|]. apply not_elem_of_empty.
Qed.

(** Ready, and a status without the busy bit. *)
Definition idle : Z := 0xFFFFFFFE.

Lemma demo_flash : flash_ready 0 d_init.
Proof. split_and!; try done. Qed.

Lemma idle_live len : len < 600000000 → flash_live (H:=still_env idle) true len d_init.
Proof.
  intros Hl _. split; [split|].
  - intros h b Hb. rewrite !elem_of_cons, elem_of_nil in Hb. destruct Hb as [->|[->|[->|[]]]]; reflexivity.
  - rewrite still_fuel. lia.
  - exists 0%nat. split; [|intros; reflexivity]. pose proof (still_fuel idle). lia.
Qed.
