(* ===== verification/DriverTheorems.v ===== *)
(** * Main theorems on the drivers

    The promises of the bus controllers and the sensor drivers, each with a
    witness at concrete inputs, and the inputs for which a driver does not do
    what it means to. *)

From Stdlib Require Import ZArith Lia Bool.
From stdpp Require Import base tactics option list numbers gmap.
From S2P Require Import Prelude Platform Gpio I2c I2cProofs Spi Sensors.
From S2P Require Import SensorsProofs Tel0157 Dht DhtProofs SpiProofs W25qxx.
From S2P Require Import W25qxxProofs Boards.

Open Scope Z_scope.

(** ** I2C *)
Section i2c.
Context `{Env} (t : bool) (dev : Z) (Hdev : 0 <= dev < I2C_NUM).

(** C20: A polled I2C write of 1 to 65535 bytes with a 7-bit address puts a
    prefix of exactly the caller's bytes, in order, into the BSC FIFO, returns
    a TEE status, and a success means all bytes were sent; it terminates
    within 10000 polls per byte whatever the device answers. *)
Theorem i2c_write_contract addr b len flags data s :
  d_wf s → flag flags I2C_ADDR10 = false → 0 < len < 2 ^ 16 →
  len = Z.of_nat (length data) → take (length data) b = bytes data →
  Forall (λ x, 0 <= x < 2 ^ 8) data → (t = true → len * 10000 < Z.of_nat env_fuel) →
  wp t (i2c_write_bytes dev addr (Some b) len flags) (λ r s', d_ext s s' ∧ tee_status r
    ∧ ∃ n, (n <= length data)%nat
      ∧ writes_to (bsc_addr s dev BSC_FIFO) (d_trace s')
        = writes_to (bsc_addr s dev BSC_FIFO) (d_trace s) ++ take n data
      ∧ (r = TEE_SUCCESS → n = length data)) s.
Proof using Hdev. apply i2c_write_bytes_spec. exact Hdev. Qed.

(** C21: A polled I2C read stores exactly the bytes taken from the BSC FIFO,
    in order, at the front of the buffer and leaves the rest untouched; a
    success means the requested number of bytes arrived; it terminates once
    the controller reports DONE. *)
Theorem i2c_read_contract addr b len flags s :
  d_wf s → 0 < len < 2 ^ 16 → len <= blen b →
  i2c_live t dev s → (t = true → flag flags I2C_ADDR10 = false) →
  wp t (i2c_read_bytes dev addr (Some b) len flags) (λ r s', d_ext s s' ∧ tee_status r.1
    ∧ ∃ got, r.2 = Some (bytes got ++ drop (length got) b)
      ∧ u8 <$> reads_from (bsc_addr s dev BSC_FIFO) (d_trace s')
        = (u8 <$> reads_from (bsc_addr s dev BSC_FIFO) (d_trace s)) ++ got
      ∧ Z.of_nat (length got) <= len ∧ (r.1 = TEE_SUCCESS → Z.of_nat (length got) = len)) s.
Proof using Hdev.
  intros. eapply wp_mono; [by apply i2c_read_bytes_spec|].
  intros r s' (?&?&got&b'&Hb'&(?&->&?&?)&?&?). split_and!; auto. by exists got.
Qed.

(** i2c_write_with_prefix sends a prefix of the register address bytes
    followed by the data bytes, as one transfer and in that order; a success
    means everything was sent. *)
Theorem i2c_prefix_contract addr p b plen len flags pdata data s :
  d_wf s → flag flags I2C_ADDR10 = false → 0 < len → 0 <= plen → plen + len < 2 ^ 16 →
  plen = Z.of_nat (length pdata) → p = bytes pdata →
  len = Z.of_nat (length data) → take (length data) b = bytes data →
  Forall (λ x, 0 <= x < 2 ^ 8) (pdata ++ data) →
  (t = true → (plen + len) * 10000 < Z.of_nat env_fuel) →
  wp t (i2c_write_with_prefix dev addr (Some p) plen (Some b) len flags)
    (λ r s', d_ext s s' ∧ tee_status r ∧ ∃ n, (n <= length (pdata ++ data))%nat
       ∧ writes_to (bsc_addr s dev BSC_FIFO) (d_trace s')
         = writes_to (bsc_addr s dev BSC_FIFO) (d_trace s) ++ take n (pdata ++ data)
       ∧ (r = TEE_SUCCESS → n = length (pdata ++ data))) s.
Proof using Hdev. apply i2c_write_with_prefix_spec. exact Hdev. Qed.

(** Acquiring and releasing an I2C bus succeeds, leaves the set of held
    locks and the driver tables as they were, and acquiring a bus twice
    without a release is a self-deadlock. *)
Theorem i2c_bracket s : d_wf s → L_bsc dev ∉ d_held s →
  wp t (r ← i2c_acquire dev; r' ← i2c_release dev; mret (r, r'))
    (λ v s', v = (TEE_SUCCESS, TEE_SUCCESS) ∧ kept s s') s
  ∧ wp t (i2c_acquire dev) (λ _ s', i2c_acquire dev s' = Undef UB_lock) s.
Proof using Hdev.
  intros Hwf Hl. assert (bus_free dev s) by (split; [lia|done]). split.
  - wp_steps. eapply wp_mono; [by apply i2c_acquire_owns|].
    intros ? s1 [(->&?&Ho)|(_&?&_)]; [|lia]. wp_steps.
    eapply wp_mono; [by eapply i2c_release_owns|]. intros ? s2 [-> ?]. by wp_steps.
  - eapply wp_mono; [by apply i2c_acquire_spec|]. intros ? s' (_&_&Hh). unfold i2c_acquire.
    rewrite (proj2 (Z.leb_gt _ _)) by lia. unfold mbind at 1, M_bind at 1, mutex_lock.
    rewrite decide_True by set_solver. done.
Qed.
End i2c.

Lemma i2c_write_contract_witness :
  wp (S:=dstate) true (i2c_write_bytes (H:=still_env 0) 1 0x50 (Some (bytes [1; 2; 3])) 3 0)
    (λ r s', d_ext d_init s' ∧ tee_status r ∧ ∃ n, (n <= 3)%nat
       ∧ writes_to (bsc_addr d_init 1 BSC_FIFO) (d_trace s') = take n [1; 2; 3]
       ∧ (r = TEE_SUCCESS → n = 3%nat)) d_init.
Proof.
  apply (i2c_write_contract (H:=still_env 0) true 1 ltac:(done) 0x50 (bytes [1; 2; 3]) 3 0 [1; 2; 3] d_init);
    [apply d_init_wf|reflexivity|lia|reflexivity|reflexivity|repeat constructor; lia|].
  intros _. rewrite still_fuel. lia.
Defined.

Lemma i2c_read_contract_witness :
  wp true (i2c_read_bytes (H:=still_env all_ones) 0 0x23 (Some (uninit 4)) 4 0)
    (λ r s', d_ext d_init s' ∧ tee_status r.1
      ∧ ∃ got, r.2 = Some (bytes got ++ drop (length got) (uninit 4))
        ∧ u8 <$> reads_from (bsc_addr d_init 0 BSC_FIFO) (d_trace s') = got
        ∧ Z.of_nat (length got) <= 4 ∧ (r.1 = TEE_SUCCESS → Z.of_nat (length got) = 4)) d_init.
Proof.
  apply (i2c_read_contract (H:=still_env all_ones) true 0 ltac:(done) 0x23 (uninit 4) 4 0 d_init);
    [apply d_init_wf|lia|vm_compute; discriminate|apply still_live|reflexivity].
Defined.

Lemma i2c_prefix_contract_witness :
  wp true (i2c_write_with_prefix (H:=still_env 0) 1 0x50 (Some (bytes [0; 16])) 2 (Some (bytes [7])) 1 0)
    (λ r s', d_ext d_init s' ∧ tee_status r ∧ ∃ n, (n <= 3)%nat
       ∧ writes_to (bsc_addr d_init 1 BSC_FIFO) (d_trace s') = take n [0; 16; 7]
       ∧ (r = TEE_SUCCESS → n = 3%nat)) d_init.
Proof.
  apply (i2c_prefix_contract (H:=still_env 0) true 1 ltac:(done) 0x50 (bytes [0; 16]) (bytes [7]) 2 1 0
    [0; 16] [7] d_init);
    [apply d_init_wf|reflexivity|lia|lia|lia|reflexivity|reflexivity|reflexivity|reflexivity
    |repeat constructor; lia|]. intros _. rewrite still_fuel. lia.
Defined.

Lemma i2c_bracket_witness :
  wp true (r ← i2c_acquire (H:=still_env 0) 1; r' ← i2c_release (H:=still_env 0) 1; mret (r, r'))
    (λ v s', v = (TEE_SUCCESS, TEE_SUCCESS) ∧ kept d_init s') d_init.
Proof.
  apply (i2c_bracket (H:=still_env 0) true 1 ltac:(done) d_init); [apply d_init_wf|].
  apply not_elem_of_empty.
Defined.

(** *** Where the I2C driver does not do what it means to *)
Section i2c_limits.
Context `{Env} (dev : Z) (Hdev : 0 <= dev < I2C_NUM).

(** C37: On a controller that never reports DONE the I2C read does not
    terminate: no amount of fuel makes it return, because its loop has no time
    limit. *)
Theorem i2c_read_can_spin addr b len flags s :
  d_wf s → flag flags I2C_ADDR10 = false → 0 < len < 2 ^ 16 → len <= blen b →
  (∀ h, flag (env_read h 16 (bsc_addr s dev BSC_S) mod 2 ^ 16) BSC_S_DONE = false) →
  i2c_read_bytes dev addr (Some b) len flags s = OutOfFuel.
Proof using Hdev.
  intros Hwf Hf Hlen Hb Hnd.
  assert (wp false (i2c_read_bytes dev addr (Some b) len flags) (λ _ _, False) s) as Hw.
  2:{ unfold wp in Hw. by destruct (i2c_read_bytes _ _ _ _ _ _). }
  unfold i2c_read_bytes. rewrite u16_id, Hf by lia. rewrite (proj2 (Z.leb_gt _ _)) by lia.
  rewrite (proj2 (Z.eqb_neq _ 0)) by lia. cbn [orb].
  wp_steps. eapply wp_mono; [by apply i2c_read_clear_spec|]. intros [] s1 Hq.
  assert (∀ e s', rx_quiet dev s s' → read_of (bsc_addr s dev BSC_FIFO) e = [] →
    rx_quiet dev s (d_log e s')) as Hlog by (intros; by apply rx_quiet_log).
  assert (∀ s', rx_quiet dev s s' → d_wf s') as Hw by (intros ? [? _]; eauto).
  wp_steps. eapply wp_mono; [by apply bsc_write32_spec; auto|]. intros _ ? ->.
  wp_steps. eapply wp_mono; [by apply bsc_write32_spec; auto|]. intros _ ? ->.
  wp_steps. eapply wp_mono; [by apply bsc_write32_spec; auto|]. intros _ ? ->. wp_steps.
  apply (wp_while _ _ _ (rx_inv dev b len s)); [|apply rx_inv_start; [lia|by auto]].
  intros v s2 HI. pose proof (rx_inv_ext _ _ _ _ _ _ HI) as He. wp_steps.
  unfold wp at 1, bsc_read16. unfold mbind at 1, M_bind at 1. rewrite BSC_spec by eauto.
  cbn [io_read16 io_read]. rewrite (bsc_addr_ext s s2) by done. rewrite Hnd. cbn [negb].
  apply (rx_inv_status dev b len s 16 (env_read (d_trace s2) 16 (bsc_addr s dev BSC_S) mod 2 ^ 16)) in HI.
  rewrite (bsc_addr_ext s s2) in HI by done. wp_steps.
  eapply wp_mono; [apply (bsc_drain_spec dev Hdev b len ltac:(lia) Hb s Hwf); exact HI|].
  by intros ? ? [? _].
Qed.
End i2c_limits.

Lemma i2c_read_can_spin_witness :
  i2c_read_bytes (H:=still_env 0) 1 0x23 (Some (uninit 2)) 2 0 d_init = OutOfFuel.
Proof.
  apply (i2c_read_can_spin (H:=still_env 0) 1 ltac:(done));
    [apply d_init_wf|reflexivity|lia|vm_compute; discriminate|reflexivity].
Defined.

(** With a 10-bit address the I2C write starts its data index at 1: it
    skips the first byte and reads one byte past the buffer. *)
Theorem i2c_addr10_skips (E : Env) (addr x : Z) :
  i2c_write_bytes 1 addr (Some (bytes [x])) 1 I2C_ADDR10 d_init = Undef UB_oob
  ∧ match i2c_write_bytes (H:=quick_env BSC_S_DONE) 1 0x2A5 (Some (bytes [11; 22])) 1 I2C_ADDR10 d_init with
    | Ok r s => r = TEE_SUCCESS ∧ writes_to (bsc_addr d_init 1 BSC_FIFO) (d_trace s) = [0xA5; 0x7A; 22]
    | _ => False
    end.
Proof. split; [reflexivity|]. vm_compute. split; reflexivity. Qed.

(** [C] *)
Theorem i2c_divider_clobbered (E : Env) :
  match i2c_set_divider 1 100000 d_init with
  | Ok r s => r = TEE_SUCCESS
      ∧ writes_to (bsc_addr d_init 1 BSC_DIV) (d_trace s) = [2500; 156 * 65536 + 625]
      ∧ writes_to (bsc_addr d_init 1 BSC_DEL) (d_trace s) = [625]
  | _ => False
  end.
Proof. vm_compute. split_and!; reflexivity. Qed.

(** ** GPIO *)

(** Selecting a pin's function is one load and one store of its function
    word; it sets the three bits of that pin and leaves those of every other
    pin of the word unchanged. *)
Theorem gpio_fsel_isolated `{Env} pin q f s : 0 <= pin <= RPI3_MAX_PIN_NUM → 0 <= q <= RPI3_MAX_PIN_NUM →
  ∃ a v v', gpio_fsel pin f s = Ok () (d_log (E_write 32 a v') (d_log (E_read 32 a v) s))
    ∧ a = d_gpio_base s + 4 * (pin / 10)
    ∧ fsel_field v' pin = fsel_code f
    ∧ (q / 10 = pin / 10 → q ≠ pin → fsel_field v' q = fsel_field v q).
Proof.
  intros Hp Hq. exists (d_gpio_base s + 4 * (pin / 10)).
  set (v := u32 (env_read (d_trace s) 32 (d_gpio_base s + 4 * (pin / 10)))).
  exists v, (fsel_update v pin f). split_and!; [by apply gpio_fsel_eq|done|apply fsel_update_same; lia|].
  intros Hb Hne. apply fsel_update_other; [lia|lia| |apply u32_range].
  pose proof (Z.div_mod q 10). pose proof (Z.div_mod pin 10). lia.
Qed.

Lemma gpio_fsel_isolated_witness : ∃ a v v',
  gpio_fsel (H:=still_env 0x12345678) 3 GPIO_FSEL_ALT0 d_init
    = Ok () (d_log (E_write 32 a v') (d_log (E_read 32 a v) d_init))
  ∧ fsel_field v' 3 = 4 ∧ fsel_field v' 2 = fsel_field v 2.
Proof.
  destruct (gpio_fsel_isolated (H:=still_env 0x12345678) 3 2 GPIO_FSEL_ALT0 d_init) as (a&v&v'&Hr&_&Hf&Ho);
    [done|done|].
  exists a, v, v'. split; [exact Hr|]. split; [exact Hf|apply Ho; done].
Defined.

(** ** SPI *)
Section spi.
Context `{Env} (t : bool).

(** C22: A full-duplex, send-only or receive-only SPI transfer puts a prefix
    of the output bytes (bit-reversed when the bus is LSB first) into the TX
    FIFO, stores what the RX FIFO answered at the front of the input buffer,
    leaves the transfer-active bit clear on every path, and a success means
    both directions are complete. *)
Theorem spi_transfer_contract cs cont out inb out_len in_len data n_in s :
  d_wf s → xfer_pre out inb out_len in_len data n_in →
  (t = true → spi_ready (spi_addr s SPI_CS) (Z.max (Z.of_nat (length data)) n_in)) →
  wp t (spi_transfer_diff_bytes 0 cs cont out inb out_len in_len) (xfer_post s [] data n_in inb) s
  ∧ (out_len = in_len →
     wp t (spi_transfer_bytes 0 cs cont out inb in_len) (xfer_post s [] data n_in inb) s).
Proof using.
  intros. split; [by apply spi_transfer_diff_bytes_spec|]. intros <-. by apply spi_transfer_bytes_spec.
Qed.

(** A register transfer sends the register byte before the data and
    stores only the bytes that follow it. *)
Theorem spi_regs_contract cs reg out inb len data n_in s :
  d_wf s → xfer_pre out inb len len data n_in →
  (t = true → spi_ready (spi_addr s SPI_CS) (Z.max (Z.of_nat (length data)) n_in)) →
  wp t (spi_transfer_regs 0 cs reg out inb len) (xfer_post s [u8 reg] data n_in inb) s.
Proof using. apply spi_transfer_regs_spec. Qed.

(** Acquiring and releasing the SPI bus for an existing chip select
    succeeds and leaves the set of held locks and the driver tables as they
    were. *)
Theorem spi_bracket cs mode clk s : 0 <= cs < SPI_CS_NUM → d_wf s → L_spi 0 ∉ d_held s →
  wp t (r ← spi_acquire 0 cs mode clk; r' ← spi_release 0; mret (r, r'))
    (λ v s', v = (TEE_SUCCESS, TEE_SUCCESS) ∧ kept s s') s.
Proof using.
  intros Hcs Hwf Hl. wp_steps. eapply wp_mono; [by apply spi_acquire_spec|].
  intros ? s1 [-> Ho]. wp_steps. eapply wp_mono; [by eapply spi_release_spec|].
  intros ? s2 [-> ?]. by wp_steps.
Qed.
End spi.

(** The 256-entry reversal table used for LSB-first transfers is the
    reversal of the eight bits of a byte and an involution; with MSB first the
    byte is unchanged. *)
Theorem spi_bit_order `{Env} x s : 0 <= x < 2 ^ 8 →
  (d_bit_order s = RPI3_SPI_BIT_ORDER_LSBFIRST →
     ∃ y, rpi3_correct_order x s = Ok y s ∧ 0 <= y < 2 ^ 8 ∧ rpi3_correct_order y s = Ok x s
       ∧ ∀ i, 0 <= i < 8 → Z.testbit y i = Z.testbit x (7 - i))
  ∧ (d_bit_order s ≠ RPI3_SPI_BIT_ORDER_LSBFIRST → rpi3_correct_order x s = Ok x s).
Proof.
  intros Hx. split; intros Ho.
  - pose proof (reverse8_range x Hx). exists (reverse8 x).
    rewrite !correct_order_eq by done. unfold ord. rewrite Ho, Z.eqb_refl.
    split_and!; try done; try lia; [by rewrite reverse8_involutive|]. intros. by apply reverse8_bits.
  - rewrite correct_order_eq by done. unfold ord. by rewrite (proj2 (Z.eqb_neq _ _)).
Qed.

Lemma still_spi_ready a n : n < 699999999 → spi_ready (H:=still_env all_ones) a n.
Proof.
  intros Hn. split; [|rewrite still_fuel; lia]. intros h b Hb.
  rewrite !elem_of_cons, elem_of_nil in Hb. destruct Hb as [->|[->|[->|[]]]]; reflexivity.
Qed.

Lemma spi_transfer_contract_witness :
  wp true (spi_transfer_diff_bytes (H:=still_env all_ones) 0 0 false (Some (bytes [1; 2])) (Some (uninit 3)) 2 3)
    (xfer_post (H:=still_env all_ones) d_init [] [1; 2] 3 (Some (uninit 3))) d_init.
Proof.
  refine (proj1 (spi_transfer_contract (H:=still_env all_ones) true 0 false (Some (bytes [1; 2]))
    (Some (uninit 3)) 2 3 [1; 2] 3 d_init _ _ _)); [apply d_init_wf| |].
  - split_and!; try done. repeat constructor; lia.
  - intros _. apply still_spi_ready. cbn. lia.
Defined.

Lemma spi_regs_contract_witness :
  wp true (spi_transfer_regs (H:=still_env all_ones) 0 0 0x9F None (Some (uninit 3)) 3)
    (xfer_post (H:=still_env all_ones) d_init [0x9F] [] 3 (Some (uninit 3))) d_init.
Proof.
  apply (spi_regs_contract (H:=still_env all_ones) true 0 0x9F None (Some (uninit 3)) 3 [] 3 d_init);
    [apply d_init_wf| |].
  - split_and!; done.
  - intros _. apply still_spi_ready. cbn. lia.
Defined.

Lemma spi_bracket_witness :
  wp true (r ← spi_acquire (H:=still_env 0) 0 1 SPI_MODE_0 SPI_CLK_40MHZ;
           r' ← spi_release (H:=still_env 0) 0; mret (r, r'))
    (λ v s', v = (TEE_SUCCESS, TEE_SUCCESS) ∧ kept d_init s') d_init.
Proof.
  apply (spi_bracket (H:=still_env 0) true 1); [done|apply d_init_wf|apply not_elem_of_empty].
Defined.

Lemma spi_bit_order_witness : ∃ y,
  rpi3_correct_order 0x35 (d_set_bit_order RPI3_SPI_BIT_ORDER_LSBFIRST d_init)
    = Ok y (d_set_bit_order RPI3_SPI_BIT_ORDER_LSBFIRST d_init)
  ∧ ∀ i, 0 <= i < 8 → Z.testbit y i = Z.testbit 0x35 (7 - i).
Proof.
  destruct (spi_bit_order (H:=still_env 0) 0x35 (d_set_bit_order RPI3_SPI_BIT_ORDER_LSBFIRST d_init))
    as [Hr _]; [lia|].
  destruct Hr as (y&Hy&_&_&Hb); [reflexivity|]. exists y. split; [exact Hy|exact Hb].
Defined.

(** ** DHT *)

(** C23: Reading a DHT sensor terminates whatever the pin does; a success
    returns the temperature and humidity decoded from exactly the last 40
    levels sampled from the pin, whose checksum is right; every failure is a
    TEE status other than success and returns no values. *)
Theorem dht_read_contract `{Env} dv s : wp true (dht_read (Some dv)) (dht_read_post dv s) s.
Proof. apply dht_read_spec. Qed.

(** C35: Encoding a signed temperature and a humidity in the DHT22 frame
    format gives a frame whose checksum is accepted and which the driver
    decodes to the same two values. *)
Theorem dht22_roundtrip `{Env} tmp hum v : - 2 ^ 15 < tmp < 2 ^ 15 → 0 <= hum < 2 ^ 15 →
  _validate_checksum (dht22_encode tmp hum) = TEE_SUCCESS
  ∧ ∃ v', _parse_raw_values DHT22 v (dht22_encode tmp hum) = (TEE_SUCCESS, v')
    ∧ i16 (temperature v') = tmp ∧ i16 (humidity v') = hum.
Proof.
  intros Ht Hh. destruct (dht22_encode_bytes tmp hum Ht Hh) as (d0&d1&d2&d3&->&Hb&Hd). split.
  - by apply checksum_spec.
  - pose proof (parse_spec DHT22 v d0 d1 d2 d3 (u8 (d0 + d1 + d2 + d3)) Hb) as Hp.
    rewrite Hd in Hp. destruct (_parse_raw_values _ _ _) as [r v']. destruct Hp as (->&?&?). by exists v'.
Qed.

Lemma dht22_roundtrip_witness : ∃ v',
  _parse_raw_values DHT22 (DhtData 0 0) (dht22_encode (-101) 652) = (TEE_SUCCESS, v')
  ∧ i16 (temperature v') = -101 ∧ i16 (humidity v') = 652.
Proof. apply (dht22_roundtrip (H:=still_env 0) (-101) 652 (DhtData 0 0)); lia. Defined.

(** dht_init terminates on every input; an unsupported sensor type is
    refused before the pin is touched, otherwise the descriptor is set up and
    the status says whether the sensor answered. *)
Theorem dht_init_contract `{Env} dev p s :
  wp true (dht_init (Some dev) (Some p)) (λ r s', d_ext s s' ∧
    if dht_type_ok (dht_type p) then
      r.2 = Some (Dht p (DhtData 0 0))
      ∧ (r.1 = TEE_SUCCESS ∨ r.1 = TEE_ERROR_BAD_STATE ∨ r.1 = TEE_ERROR_ITEM_NOT_FOUND)
    else r = (TEE_ERROR_BAD_PARAMETERS, Some dev) ∧ s' = s) s.
Proof. apply dht_init_spec. Qed.

(** ** Sensors on I2C *)
Section sensors.
Context `{Env} (t : bool) (d : i2c_dev).

(** Writing the EEPROM sends the 16-bit memory address, high byte first,
    followed by the caller's bytes, reports the bus status and gives the I2C
    bus back on every path. *)
Theorem at24cxx_write_contract addr b data s : dev_ready t d s → dev_i2c d < I2C_NUM →
  0 <= addr < 2 ^ 16 → Forall (λ x, 0 <= x < 2 ^ 8) data → take (length data) b = bytes data →
  0 < Z.of_nat (length data) < 2 ^ 16 - 2 →
  wp t (At24cxx.at24cxx_write d addr (Some b) (Z.of_nat (length data)))
    (λ r s', kept s s' ∧ ∃ hi lo s1 s2, hi * 256 + lo = addr ∧ owns (dev_i2c d) s s1
       ∧ owns (dev_i2c d) s s2 ∧ tx_post (dev_i2c d) (hi :: lo :: data) s1 r s2) s.
Proof using.
  intros Hr Hdev Haddr Hd Hb Hl. pose proof Hr as (?&[? _]&_&_). unfold At24cxx.at24cxx_write.
  pose proof (addr_buf_roundtrip addr Haddr) as Hrt.
  wp_steps. acquire_bus; [|lia].
  eapply wp_mono; [apply (i2c_write_with_prefix_spec (dev_i2c d)) with
    (pdata := At24cxx.addr_buf addr) (data := data); eauto with own; try lia|].
  { apply Forall_app. split; [apply addr_buf_bytes|done]. }
  { intros Ht. destruct (dev_ready_live t d s s' Hr ltac:(done) Ht Hdev). lia. }
  intros r s2 Hpost. pose proof Hpost as (He&Hst&_).
  assert (owns (dev_i2c d) s s2) by eauto with own. wp_steps. release_bus.
  rewrite u32_i32_status by done. split; [done|].
  exists (u8 (Z.shiftr addr 8)), (u8 (Z.land addr 0xFF)), s', s2. done.
Qed.

(** Reading the EEPROM gives the bus back on every path, keeps the
    buffer's size, and a success has filled exactly the requested bytes. *)
Theorem at24cxx_read_contract addr b len s : dev_ready t d s → 0 <= len < 2 ^ 16 → len <= blen b →
  wp t (At24cxx.at24cxx_read d addr (Some b) len) (λ r s', kept s s' ∧ tee_status r.1
    ∧ ∃ b1, r.2 = Some b1 ∧ blen b1 = blen b ∧ (r.1 = TEE_SUCCESS → filled len b b1)) s.
Proof using. apply at24cxx_read_ok. Qed.

(** A light sample returns a value exactly on success, that value is the
    two bytes of the sensor scaled by 65536/78642, at most 54613, and the bus
    is given back on every path. *)
Theorem bh1750fvi_sample_contract s : dev_ready t d s →
  wp t (Bh1750fvi.bh1750fvi_sample d) (λ r s', kept s s' ∧ tee_status r.1 ∧ match r.2 with
    | Some lux => r.1 = TEE_SUCCESS ∧ lux_reading lux
    | None => r.1 ≠ TEE_SUCCESS end) s.
Proof using. apply bh1750fvi_sample_ok. Qed.

(** A motion sample fills the 14 bytes of the result on success, never
    writes outside the buffer and gives the bus back on every path. *)
Theorem mpu_sample_contract b s : dev_ready t d s → 14 <= blen b →
  wp t (Mpu6050.mpu_sample d (Some b)) (λ r s', kept s s' ∧ tee_status r.1
    ∧ ∃ b1, r.2 = Some b1 ∧ blen b1 = blen b ∧ (r.1 = TEE_SUCCESS → filled 14 b b1)) s.
Proof using. apply mpu_sample_ok. Qed.

(** Uploading a fingerprint image in blocks fills the whole image on
    success, stays within the caller's buffer and gives the bus back on every
    path. *)
Theorem atk301_upload_contract data s :
  dev_ready t d s → Atk301.ATK301_FINGERPRINT_IMAGE_DATA_LEN <= blen data →
  wp t (Atk301.atk301_upload_fingerprint_image d data) (λ r s', kept s s' ∧ tee_status r.1
    ∧ blen r.2 = blen data
    ∧ (r.1 = TEE_SUCCESS → filled Atk301.ATK301_FINGERPRINT_IMAGE_DATA_LEN data r.2)) s.
Proof using. apply atk301_upload_ok. Qed.
End sensors.

(** ** The GNSS receiver *)
Section tel0157.
Context `{Env} (t : bool) (d : tel0157_t).

(** The block-wise download of the GNSS sentences fills exactly the
    requested bytes on success and none of them is NUL, whatever the receiver
    sent. *)
Theorem tel0157_all_gnss_contract b len s :
  dev_ready t (tel_dev d) s → 0 <= len < 2 ^ 16 → len <= blen b →
  wp t (tel0157_get_all_gnss d (Some b) len) (λ r s', kept s s' ∧ tee_status r.1
    ∧ ∃ b1, r.2 = Some b1 ∧ blen b1 = blen b
      ∧ (r.1 = TEE_SUCCESS → ∃ l, length l = Z.to_nat len ∧ Forall (λ x, 0 < x < 2 ^ 8) l
           ∧ b1 = bytes l ++ drop (Z.to_nat len) b)) s.
Proof using. apply tel0157_get_all_gnss_ok. Qed.

(** A longitude query sets all longitude fields on success and leaves the
    latitude fields of the record alone, and conversely. *)
Theorem tel0157_position_contract p s : dev_ready t (tel_dev d) s →
  wp t (tel0157_get_lon d p) (λ r s', kept s s' ∧ tee_status r.1
    ∧ latMMMMM r.2 = latMMMMM p ∧ latDD r.2 = latDD p ∧ latMM r.2 = latMM p
    ∧ latDirection r.2 = latDirection p
    ∧ (r.1 = TEE_SUCCESS → is_Some (lonMMMMM r.2) ∧ is_Some (lonDD r.2)
         ∧ is_Some (lonMM r.2) ∧ is_Some (lonDirection r.2))) s
  ∧ wp t (tel0157_get_lat d p) (λ r s', kept s s' ∧ tee_status r.1
    ∧ lonMMMMM r.2 = lonMMMMM p ∧ lonDD r.2 = lonDD p ∧ lonMM r.2 = lonMM p
    ∧ lonDirection r.2 = lonDirection p
    ∧ (r.1 = TEE_SUCCESS → is_Some (latMMMMM r.2) ∧ is_Some (latDD r.2)
         ∧ is_Some (latMM r.2) ∧ is_Some (latDirection r.2))) s.
Proof using.
  intros Hr. split.
  - eapply wp_mono; [by apply tel0157_get_lon_ok|]. intros r s' (?&?&(?&?&?&?)&?). by split_and!.
  - eapply wp_mono; [by apply tel0157_get_lat_ok|]. intros r s' (?&?&(?&?&?&?)&?). by split_and!.
Qed.
End tel0157.

(** ** The serial flash *)
Section w25qxx.
Context `{Env} (t : bool) (cs : Z).

(** C36: A successful page program has sent, in this order, write enable,
    status reads, the program command with the 24-bit address, the data and
    status reads, and nothing else (the numbers of status reads depend on the
    flash and may be zero); the bus is given back on every path, and the
    operation terminates when the flash stops being busy. *)
Theorem w25qxx_program_order b a data s : flash_ready cs s →
  flash_live t (Z.of_nat (length data)) s → 0 <= a →
  Forall (λ x, 0 <= x < 2 ^ 8) data → take (length data) b = bytes data →
  Z.of_nat (length data) < 2 ^ 32 →
  wp t (w25qxx_page_program 0 cs (Some b) a (Z.of_nat (length data)))
    (λ r s', kept s s' ∧ flash_status r ∧ (r = TEE_SUCCESS → ∃ n m, sent s s'
       (W25QXX_CMD_WRITE_ENABLE :: replicate n W25QXX_CMD_READ_STATUS
        ++ W25QXX_CMD_PAGE_PROGRAM :: addr24 a ++ data ++ replicate m W25QXX_CMD_READ_STATUS))) s.
Proof using. intros. by apply w25qxx_page_program_ok. Qed.

(** A flash read sends the read command and address, and the front of the
    buffer is exactly what the SPI FIFO delivered during the operation; the
    bus is given back on every path. *)
Theorem w25qxx_read_contract b a len s : flash_ready cs s → flash_live t len s →
  0 <= a → 0 <= len < 2 ^ 32 → len <= blen b →
  wp t (w25qxx_read_data 0 cs (Some b) a len) (λ r s', kept s s' ∧ flash_status r.1
    ∧ ∃ got, r.2 = Some (bytes got ++ drop (length got) b) ∧ Z.of_nat (length got) <= len
      ∧ received s s' got ∧ (r.1 = TEE_SUCCESS → sent s s' (W25QXX_CMD_READ_DATA :: addr24 a))
      ∧ (r.1 ≠ TEE_SUCCESS → got = [])) s.
Proof using. intros. by apply w25qxx_read_data_ok. Qed.

(** A successful sector or chip erase has sent write enable, status
    reads, the erase command (with the sector's address) and status reads, in
    this order and nothing else. *)
Theorem w25qxx_erase_order a s : flash_ready cs s → flash_live t 0 s → 0 <= a →
  wp t (w25qxx_sector_erase 0 cs a) (λ r s', kept s s' ∧ flash_status r
    ∧ (r = TEE_SUCCESS → ∃ n m, sent s s' (W25QXX_CMD_WRITE_ENABLE :: replicate n W25QXX_CMD_READ_STATUS
         ++ W25QXX_CMD_SECTOR_ERASE :: addr24 a ++ replicate m W25QXX_CMD_READ_STATUS))) s
  ∧ wp t (w25qxx_chip_erase 0 cs) (λ r s', kept s s' ∧ flash_status r
    ∧ (r = TEE_SUCCESS → ∃ n m, sent s s' (W25QXX_CMD_WRITE_ENABLE :: replicate n W25QXX_CMD_READ_STATUS
         ++ W25QXX_CMD_CHIP_ERASE :: replicate m W25QXX_CMD_READ_STATUS))) s.
Proof using. intros. split; [by apply w25qxx_sector_erase_ok|by apply w25qxx_chip_erase_ok]. Qed.

(** [C] *)
Theorem w25qxx_read_id_contract id s : flash_ready cs s → flash_live t 0 s →
  wp t (w25qxx_read_id 0 cs (Some id)) (λ r s', kept s s' ∧ flash_status r.1
    ∧ if r.1 =? TEE_SUCCESS then ∃ o0 o1 o2, received s s' [o0; o1; o2]
        ∧ sent s s' [W25QXX_CMD_READ_ID]
        ∧ r.2 = Some (u16 (Z.lor id (o1 * 256 + o2)))
      else r.2 = Some id) s.
Proof using. intros. by apply w25qxx_read_id_ok. Qed.
End w25qxx.

(** A failed acquire is ignored: on a bus that does not exist the driver
    indexes past its register table. *)
Theorem w25qxx_bad_bus `{Env} cs s : d_wf s → 0 <= cs → w25qxx_init 1 cs s = Undef UB_oob.
Proof. apply w25qxx_init_bad_bus. Qed.

(** ** Witnesses for the sensors and the flash *)
Module Witnesses.
Definition demo_dev : i2c_dev := I2cDev 1 0x50.
Lemma demo_dev_wf : dev_wf demo_dev.
Proof. split; cbn; lia. Qed.
Lemma demo_dev_ready : dev_ready (H:=still_env all_ones) true demo_dev d_init.
Proof. apply still_dev_ready, demo_dev_wf. Qed.
Definition demo_tel : tel0157_t := Tel demo_dev 0 0.

Lemma at24cxx_write_contract_witness :
  wp true (At24cxx.at24cxx_write (H:=still_env all_ones) demo_dev 0x1234 (Some (bytes [9; 8])) 2)
    (λ r s', kept d_init s' ∧ ∃ hi lo s1 s2, hi * 256 + lo = 0x1234 ∧ owns 1 d_init s1
       ∧ owns 1 d_init s2 ∧ tx_post 1 (hi :: lo :: [9; 8]) s1 r s2) d_init.
Proof.
  apply (at24cxx_write_contract (H:=still_env all_ones) true demo_dev 0x1234 (bytes [9; 8]) [9; 8] d_init);
    [exact demo_dev_ready|done|lia|repeat constructor; lia|reflexivity|cbn; lia].
Defined.

Lemma at24cxx_read_contract_witness :
  wp true (At24cxx.at24cxx_read (H:=still_env all_ones) demo_dev 7 (Some (uninit 5)) 5)
    (λ r s', kept d_init s' ∧ tee_status r.1
      ∧ ∃ b1, r.2 = Some b1 ∧ blen b1 = 5 ∧ (r.1 = TEE_SUCCESS → filled 5 (uninit 5) b1)) d_init.
Proof.
  apply (at24cxx_read_contract (H:=still_env all_ones) true demo_dev 7 (uninit 5) 5 d_init);
    [exact demo_dev_ready|lia|vm_compute; discriminate].
Defined.

Lemma bh1750fvi_sample_contract_witness :
  wp true (Bh1750fvi.bh1750fvi_sample (H:=still_env all_ones) demo_dev)
    (λ r s', kept d_init s' ∧ tee_status r.1 ∧ match r.2 with
       | Some lux => r.1 = TEE_SUCCESS ∧ lux_reading lux
       | None => r.1 ≠ TEE_SUCCESS end) d_init.
Proof. apply (bh1750fvi_sample_contract (H:=still_env all_ones) true demo_dev d_init); exact demo_dev_ready. Defined.

Lemma mpu_sample_contract_witness :
  wp true (Mpu6050.mpu_sample (H:=still_env all_ones) demo_dev (Some (uninit 14)))
    (λ r s', kept d_init s' ∧ tee_status r.1
      ∧ ∃ b1, r.2 = Some b1 ∧ blen b1 = blen (uninit 14) ∧ (r.1 = TEE_SUCCESS → filled 14 (uninit 14) b1)) d_init.
Proof.
  apply (mpu_sample_contract (H:=still_env all_ones) true demo_dev (uninit 14) d_init);
    [exact demo_dev_ready|vm_compute; discriminate].
Defined.

Lemma atk301_upload_contract_witness :
  wp true (Atk301.atk301_upload_fingerprint_image (H:=still_env all_ones) demo_dev (uninit 12800))
    (λ r s', kept d_init s' ∧ tee_status r.1 ∧ blen r.2 = blen (uninit 12800)
      ∧ (r.1 = TEE_SUCCESS → filled Atk301.ATK301_FINGERPRINT_IMAGE_DATA_LEN (uninit 12800) r.2)) d_init.
Proof.
  apply (atk301_upload_contract (H:=still_env all_ones) true demo_dev (uninit 12800) d_init);
    [exact demo_dev_ready|vm_compute; discriminate].
Defined.

Lemma tel0157_all_gnss_contract_witness :
  wp true (tel0157_get_all_gnss (H:=still_env all_ones) demo_tel (Some (uninit 40)) 40)
    (λ r s', kept d_init s' ∧ tee_status r.1
      ∧ ∃ b1, r.2 = Some b1 ∧ blen b1 = blen (uninit 40)
        ∧ (r.1 = TEE_SUCCESS → ∃ l, length l = Z.to_nat 40 ∧ Forall (λ x, 0 < x < 2 ^ 8) l
             ∧ b1 = bytes l ++ drop (Z.to_nat 40) (uninit 40))) d_init.
Proof.
  apply (tel0157_all_gnss_contract (H:=still_env all_ones) true demo_tel (uninit 40) 40 d_init);
    [exact demo_dev_ready|lia|vm_compute; discriminate].
Defined.

Definition no_position : tel0157_lon_lat_t := LonLat None None None None None None None None.
Lemma tel0157_position_contract_witness :
  wp true (tel0157_get_lon (H:=still_env all_ones) demo_tel no_position) (λ r _, latDD r.2 = None) d_init.
Proof.
  eapply wp_mono;
    [exact (proj1 (tel0157_position_contract (H:=still_env all_ones) true demo_tel no_position d_init demo_dev_ready))|].
  intros r s' (_&_&_&Hdd&_). exact Hdd.
Defined.

Lemma w25qxx_program_order_witness :
  (∃ s, w25qxx_page_program (H:=quick_env idle) 0 0 (Some (bytes [1; 2])) 0x010203 2 d_init = Ok TEE_SUCCESS s)
  ∧ wp true (w25qxx_page_program (H:=still_env idle) 0 0 (Some (bytes [1; 2])) 0x010203 2)
      (λ r s', kept d_init s' ∧ flash_status r ∧ (r = TEE_SUCCESS → ∃ n m, sent d_init s'
         (W25QXX_CMD_WRITE_ENABLE :: replicate n W25QXX_CMD_READ_STATUS
          ++ W25QXX_CMD_PAGE_PROGRAM :: [1; 2; 3] ++ [1; 2] ++ replicate m W25QXX_CMD_READ_STATUS))) d_init.
Proof.
  split; [eexists; vm_compute; reflexivity|].
  apply (w25qxx_program_order (H:=still_env idle) true 0 (bytes [1; 2]) 0x010203 [1; 2] d_init);
    [exact demo_flash|apply idle_live; cbn; lia|lia|repeat constructor; lia|reflexivity|cbn; lia].
Defined.

Lemma w25qxx_read_contract_witness :
  (∃ b s, w25qxx_read_data (H:=quick_env idle) 0 0 (Some (uninit 3)) 0x010203 3 d_init = Ok (TEE_SUCCESS, b) s)
  ∧ wp true (w25qxx_read_data (H:=still_env idle) 0 0 (Some (uninit 3)) 0x010203 3)
      (λ r s', kept d_init s' ∧ flash_status r.1
        ∧ ∃ got, r.2 = Some (bytes got ++ drop (length got) (uninit 3)) ∧ Z.of_nat (length got) <= 3
          ∧ received d_init s' got ∧ (r.1 = TEE_SUCCESS → sent d_init s' [W25QXX_CMD_READ_DATA; 1; 2; 3])
          ∧ (r.1 ≠ TEE_SUCCESS → got = [])) d_init.
Proof.
  split; [eexists _, _; vm_compute; reflexivity|].
  apply (w25qxx_read_contract (H:=still_env idle) true 0 (uninit 3) 0x010203 3 d_init);
    [exact demo_flash|apply idle_live; lia|lia|lia|vm_compute; discriminate].
Defined.

Lemma w25qxx_erase_order_witness :
  wp true (w25qxx_chip_erase (H:=still_env idle) 0 0) (λ r s', kept d_init s' ∧ flash_status r
    ∧ (r = TEE_SUCCESS → ∃ n m, sent d_init s' (W25QXX_CMD_WRITE_ENABLE :: replicate n W25QXX_CMD_READ_STATUS
         ++ W25QXX_CMD_CHIP_ERASE :: replicate m W25QXX_CMD_READ_STATUS))) d_init.
Proof.
  apply (w25qxx_erase_order (H:=still_env idle) true 0 0x1000 d_init);
    [exact demo_flash|apply idle_live; lia|lia].
Defined.

Lemma w25qxx_read_id_contract_witness :
  wp true (w25qxx_read_id (H:=still_env idle) 0 0 (Some 0)) (λ r s', kept d_init s' ∧ flash_status r.1
    ∧ if r.1 =? TEE_SUCCESS then ∃ o0 o1 o2, received d_init s' [o0; o1; o2]
        ∧ sent d_init s' [W25QXX_CMD_READ_ID]
        ∧ r.2 = Some (u16 (Z.lor 0 (o1 * 256 + o2)))
      else r.2 = Some 0) d_init.
Proof.
  apply (w25qxx_read_id_contract (H:=still_env idle) true 0 0 d_init);
    [exact demo_flash|apply idle_live; lia].
Defined.

Lemma w25qxx_bad_bus_witness : w25qxx_init (H:=quick_env idle) 1 0 d_init = Undef UB_oob.
Proof. apply (w25qxx_bad_bus (H:=quick_env idle) 0 d_init); [apply d_init_wf|lia]. Defined.
End Witnesses.
