(* ===== verification/SimI2cTheorems.v ===== *)
(** * The simulated I2C driver: what it guarantees

    A write and a read as the conditions a device on the bus sees, the effect
    of [i2c_start] on the byte that follows it, and the bus numbers that leave
    the driver's arrays. *)

From Stdlib Require Import ZArith Lia Bool.
From stdpp Require Import base tactics option list numbers gmap.
From S2P Require Import Prelude Platform Gpio I2c SimI2c SimI2cProofs.

Open Scope Z_scope.

Abbreviation devs := (snd rpi3_sim_i2c_init).

Lemma devs_pins dev d : devs !! Z.to_nat dev = Some d → pins_ok d.
Proof.
  cbn. destruct (Z.to_nat dev) as [|[|]]; cbn; intros [= <-]; unfold pins_ok; cbn; lia.
Qed.

Section theorems.
Context `{Env} (base : Z) (d : i2c_dev) (b0 : bus) (Hregs : gpio_registers base d b0) (t : bool) (dev : Z).
Context (Hdev : 0 <= dev < I2C_NUM) (Hd : devs !! Z.to_nat dev = Some d).
Abbreviation log_of s := (observe base d b0 (d_trace s)).2.

(** C24: A write of 1 to 65535 bytes to a 7-bit address (flags without
    I2C_ADDR10) on a simulated bus, on pins that behave as documented,
    whatever the device does and whatever state the bus was in: a start
    condition, the address byte as it goes out after one (without a clock edge
    for its first bit), then the caller's bytes, each with all its eight bits
    most significant first and one clock edge per bit and one for the
    acknowledge, up to the first byte that is not acknowledged, then a stop
    condition. The status says which: no device, a byte refused, or all sent.
    No lock or register base changes. *)
Theorem sim_i2c_write_contract addr b data len flags s : powered base d b0 s → flag flags I2C_ADDR10 = false → 0 < len < 2 ^ 16 →
  len = Z.of_nat (length data) → take (length data) b = bytes data →
  wp t (SimI2c.i2c_write_bytes devs dev addr (Some b) len flags) (λ r s', d_ext s s' ∧ powered base d b0 s'
    ∧ ∃ o a acks, write_result data a acks r
    ∧ log_of s' = log_of s ++ o ++ W_start :: first_wires (addr_byte addr 0) a ++ data_wires data acks ++ stop_wires) s.
Proof using Hregs Hdev Hd. intros. apply i2c_write_bytes_ok; try done. by apply (devs_pins dev). Qed.

(** C25: A read on a simulated bus: the address is sent twice, for writing and
    for reading; if both are acknowledged, each byte of the result is what was
    sampled from the data line, one sample per clock, most significant bit
    first, every byte acknowledged but the last; the bytes are stored at the
    front of the buffer and the rest of it is left alone. *)
Theorem sim_i2c_read_contract addr b len flags s : powered base d b0 s → 0 < len < 2 ^ 16 → len <= blen b →
  wp t (SimI2c.i2c_read_bytes devs dev addr (Some b) len flags) (λ r s', d_ext s s' ∧ powered base d b0 s'
    ∧ ∃ o w b', r.2 = Some b' ∧ read_result len b addr w r.1 b' ∧ log_of s' = log_of s ++ o ++ W_start :: w ++ stop_wires) s.
Proof using Hregs Hdev Hd. intros. apply i2c_read_bytes_ok; try done. by apply (devs_pins dev). Qed.

(** C40: i2c_start leaves the clock high. The first bit of the byte that
    follows therefore has no clock edge, and is a stop condition if it is 1:
    the device sees a byte of seven bits, or none. With the clock low the same
    byte has its eight edges. *)
Theorem start_swallows_first_bit byte s :
  (∀ log, on_line base d b0 s (Line true true true log) →
     wp t (SimI2c.i2c_start devs dev;; SimI2c._i2c_write_byte devs dev byte) (λ _ s', ∃ a,
       log_of s' = log ++ [W_start] ++ (if Z.testbit byte 7 then [W_stop] else []) ++ clocks (msb_first byte 7) ++ acknowledge a) s)
  ∧ ∀ o x log, on_line base d b0 s (Line o x false log) →
     wp t (SimI2c._i2c_write_byte devs dev byte) (λ _ s', ∃ a, log_of s' = log ++ clocks (msb_first byte 8) ++ acknowledge a) s.
Proof using Hregs Hdev Hd.
  pose proof (devs_pins dev d Hd) as Hp. split.
  - intros log Hl. wp_steps. eapply (runs_start base d b0 Hp Hregs devs dev (proj1 Hdev) Hd); [exact Hl|]. rewrite start_high. intros s1 Hl1 _. wp_steps.
    eapply (write_byte_ok base d b0 Hp Hregs devs dev (proj1 Hdev) Hd); [exact Hl1|]. intros a s2. rewrite write_high. intros Hl2 _.
    exists a. by rewrite (ol_log _ _ _ _ _ Hl2), <- app_assoc.
  - intros o x log Hl. eapply (write_byte_ok base d b0 Hp Hregs devs dev (proj1 Hdev) Hd); [exact Hl|]. intros a s2. rewrite write_low. intros Hl2 _.
    exists a. by rewrite (ol_log _ _ _ _ _ Hl2).
Qed.
End theorems.

(** The number of buses is 2, and bus number 2 is not refused everywhere:
    writing on it and releasing it leave the arrays of the driver, while
    acquiring and reading answer BAD_PARAMETERS. *)
Theorem sim_bus_2_escapes `{Env} addr b len flags s : 0 < len < 2 ^ 16 → flag flags I2C_ADDR10 = false →
  SimI2c.i2c_write_bytes devs 2 addr (Some b) len flags s = Undef UB_oob ∧ SimI2c.i2c_release 2 s = Undef UB_oob
  ∧ SimI2c.i2c_acquire 2 s = Ok TEE_ERROR_BAD_PARAMETERS s
  ∧ SimI2c.i2c_read_bytes devs 2 addr (Some b) len flags s = Ok (TEE_ERROR_BAD_PARAMETERS, Some b) s.
Proof.
  intros Hlen Hfl. split_and!; try done.
  - unfold SimI2c.i2c_write_bytes. assert (u16 len = len) as -> by (apply Z.mod_small; lia). cbv zeta.
    rewrite (proj2 (Z.eqb_neq len 0)) by lia. by rewrite Hfl.
Qed.

(** ** Witnesses

    Pins whose registers behave as documented, with a device that acknowledges
    everything and sends zeros. *)
Module SimWitnesses.
Definition dev0 : i2c_dev := I2cDev 0 1 I2C_NORMAL_SPEED_DELAY_US.
Definition quiet_bus : bus := Bus 0 false false.
Definition pins_env : Env := {|
  env_read := λ h w a, if a =? 0 then b_fsel (observe 0 dev0 quiet_bus h).1 else 0;
  env_time := λ _, (0, 0); env_malloc := λ _ _, true; env_mmu := false; env_phys_to_virt := λ a, a; env_fuel := 10
|}.
#[local] Existing Instance pins_env.

Lemma fsel_word h : 0 <= b_fsel (observe 0 dev0 quiet_bus h).1 < 2 ^ 32.
Proof.
  induction h as [|e h IH]; [cbn; lia|]. cbn [observe fst]. destruct e; cbn [bus_step]; try exact IH. repeat case_match; cbn; try exact IH. apply u32_range.
Qed.
Lemma pins_registers : gpio_registers 0 dev0 quiet_bus.
Proof. split; intros h; [|done|done]. apply u32_id, fsel_word. Qed.
Lemma pins_powered : powered 0 dev0 quiet_bus d_init.
Proof. by split. Qed.
Lemma bus_0 : 0 <= 0 < I2C_NUM.
Proof. done. Qed.

Lemma sim_i2c_write_contract_witness :
  wp true (SimI2c.i2c_write_bytes devs 0 0x50 (Some (bytes [1; 2])) 2 0) (λ r s', ∃ o a acks, write_result [1; 2] a acks r
    ∧ (observe 0 dev0 quiet_bus (d_trace s')).2 = o ++ W_start :: first_wires (addr_byte 0x50 0) a ++ data_wires [1; 2] acks ++ stop_wires) d_init.
Proof.
  eapply wp_mono; [apply (sim_i2c_write_contract 0 dev0 quiet_bus pins_registers true 0 bus_0 eq_refl 0x50 (bytes [1; 2]) [1; 2] 2 0 d_init);
    [apply pins_powered|reflexivity|lia|reflexivity|reflexivity]|].
  intros r s' (_&_&o&a&acks&Hr&El). exists o, a, acks. split; [exact Hr|exact El].
Defined.

Lemma sim_i2c_read_contract_witness :
  wp true (SimI2c.i2c_read_bytes devs 0 0x50 (Some (uninit 3)) 2 0) (λ r s', ∃ o w b', r.2 = Some b' ∧ read_result 2 (uninit 3) 0x50 w r.1 b'
    ∧ (observe 0 dev0 quiet_bus (d_trace s')).2 = o ++ W_start :: w ++ stop_wires) d_init.
Proof.
  eapply wp_mono; [apply (sim_i2c_read_contract 0 dev0 quiet_bus pins_registers true 0 bus_0 eq_refl 0x50 (uninit 3) 2 0 d_init);
    [apply pins_powered|lia|done]|].
  intros r s' (_&_&o&w&b'&Eb&Hr&El). exists o, w, b'. split; [exact Eb|]. split; [exact Hr|exact El].
Defined.

(** The bus after its initialisation. *)
Lemma wp_result {S A} (m : M S A) (Q : A → S → Prop) s : wp true m Q s → ∃ a s', Q a s'.
Proof. unfold wp. destruct (m s) as [a s'| |]; [|done|done]. intros. by exists a, s'. Qed.
Lemma idle_high : ∃ s log, on_line 0 dev0 quiet_bus s (Line true true true log).
Proof.
  destruct (wp_result (SimI2c.i2c_init devs 0) (λ _ s, ∃ log, on_line 0 dev0 quiet_bus s (Line true true true log)) d_init) as (u&s&log&Hs).
  - apply (bus_init_ok 0 dev0 quiet_bus (devs_pins 0 dev0 eq_refl) pins_registers devs 0 ltac:(lia) eq_refl); [apply pins_powered|].
    intros s' o Hl _. by eexists.
  - by exists s, log.
Qed.

Lemma start_swallows_first_bit_witness : ∃ s,
  wp true (SimI2c.i2c_start devs 0;; SimI2c._i2c_write_byte devs 0 0xA0) (λ _ s', ∃ log a,
    (observe 0 dev0 quiet_bus (d_trace s')).2 = log ++ [W_start] ++ [W_stop] ++ clocks (msb_first 0xA0 7) ++ acknowledge a) s.
Proof.
  destruct idle_high as (s&log&Hl). exists s.
  destruct (start_swallows_first_bit 0 dev0 quiet_bus pins_registers true 0 bus_0 eq_refl 0xA0 s) as [Hs _].
  eapply wp_mono; [apply (Hs log Hl)|]. intros r s' [a E]. exists log, a. exact E.
Defined.

Lemma sim_bus_2_escapes_witness : SimI2c.i2c_write_bytes devs 2 0x50 (Some (bytes [1])) 1 0 d_init = Undef UB_oob.
Proof. apply (sim_bus_2_escapes 0x50 (bytes [1]) 1 0 d_init); [lia|reflexivity]. Defined.
End SimWitnesses.
