(* ===== verification/PtaTheorems.v ===== *)
(** * Main theorems on the peripheral services

    What a client of the synchronous services can rely on, over all ten of
    them at once. *)

From Stdlib Require Import ZArith Lia Bool.
From stdpp Require Import base tactics option list numbers gmap.
From S2P Require Import Prelude Platform Params Gpio I2c I2cProofs Spi SpiProofs.
From S2P Require Import Sensors SensorsProofs Tel0157 Dht DhtProofs W25qxx W25qxxProofs.
From S2P Require Import Pta PtaProofs Boards.

Open Scope Z_scope.

(** ** Sessions *)

(** A call: service, command, type word, parameters. *)
Definition call : Type := service * Z * Z * uparams.

(** The calls of any number of clients, one after the other. *)
Fixpoint pta_session `{Env} (calls : list call) : M i2c_svc (list (Z * uparams)) :=
  match calls with
  | [] => mret []
  | (svc, cmd, types, ps) :: rest =>
      r ← pta_invoke svc cmd types ps;
      rs ← pta_session rest;
      mret (r :: rs)
  end.

(** The kernel's guarantees about the parameters, and the client's duties. *)
Definition call_ok (maxlen : Z) (c : call) : Prop :=
  let '(svc, cmd, types, ps) := c in params_ok types ps ∧ pta_client_ok maxlen svc cmd ps.
Definition answer_to (c : call) (r : Z * uparams) : Prop :=
  let '(_, _, types, ps) := c in tee_status r.1 ∧ reply_ok types ps r.2.

(** C11: Any sequence of commands to any of the ten peripheral services, with
    parameters of the types their type words declare and within the duties of
    a client (pta_client_ok), reaches no undefined behaviour, and with t =
    true every call returns when the devices answer; each call answers with a
    TEE status and writes only parameters declared as output, keeping their
    sizes; afterwards every bus lock is given back, the register bases are
    unchanged and the time stamps of the I2C service are within their array.
    The duties: READ_ID is not sent to the flash service; the other flash
    commands name SPI bus 0 and one of its chip selects, and reads and
    programs at most maxlen bytes; I2C transfers do not ask for 10-bit
    addresses; a transfer on SPI has at most maxlen bytes each way; an EEPROM
    write has fewer than 65534 bytes. *)
Theorem pta_session_safe `{Env} t maxlen calls v :
  0 <= maxlen → pta_ready t maxlen (is_d v) → bench_ok v → Forall (call_ok maxlen) calls →
  wp t (pta_session calls) (λ rs v', Forall2 answer_to calls rs
    ∧ kept (is_d v) (is_d v') ∧ bench_ok v') v.
Proof.
  intros Hm. revert v. induction calls as [|[[[svc cmd] types] ps] calls IH]; intros v Hrdy Hb Hc; cbn [pta_session].
  { wp_steps. by split_and!. }
  apply Forall_cons in Hc as [[Hps Hcl] Hc]. wp_steps.
  eapply wp_mono; [by eapply pta_invoke_ok|]. intros r v1 [(Hk&Hr&Hrep) Hb1]. wp_steps.
  eapply wp_mono; [apply IH; [by eapply pta_ready_kept|done|done]|].
  intros rs v2 (Hrs&Hk2&Hb2). wp_steps. split_and!; [|by etrans|done]. by constructor.
Qed.

(** ** Refusals *)

(** The type word each command expects. *)
Definition pta_types (svc : service) (cmd : Z) : option Z :=
  let vi := VALUE_IN in let vo := VALUE_OUT in let vio := VALUE_INOUT in
  let mi := MEM_IN in let mo := MEM_OUT in let no := NONE in
  let w := λ l, match l with [a; b; c; d] => TEE_PARAM_TYPES a b c d | _ => 0 end in
  w <$> match svc with
  | GPIO_SERVICE =>
      [[vi; no; no; no]; [vi; no; no; no]; [vi; vo; no; no]; [no; no; no; no]] !! Z.to_nat cmd
  | I2C_SERVICE =>
      [[vio; vi; no; no]; [vi; vi; mo; no]; [vi; vi; no; no]; [vi; vi; mi; no]; [vio; vi; no; no];
       [vi; vi; mo; no]; [vi; vi; vi; no]; [vi; vi; mi; no]; [vi; no; no; no]; [mo; no; no; no]] !! Z.to_nat cmd
  | SPI_SERVICE => [[vio; vi; vi; vi]; [vi; vi; mi; mo]; [vi; vi; mi; mo]] !! Z.to_nat cmd
  | DHT_SERVICE => [[vi; no; no; no]; [vi; vo; no; no]; [no; no; no; no]] !! Z.to_nat cmd
  | W25QXX_SERVICE =>
      [[vi; no; no; no]; [vio; no; no; no]; [vi; vi; mo; no]; [vi; vi; mi; no]; [vi; vi; no; no];
       [vi; no; no; no]] !! Z.to_nat cmd
  | AT24CXX_SERVICE => [[vi; vi; mo; no]; [vi; vi; mi; no]] !! Z.to_nat cmd
  | ATK301_SERVICE => [[vi; no; no; no]; [vi; no; no; no]; [vi; mo; no; no]] !! Z.to_nat cmd
  | BH1750FVI_SERVICE => [[vi; no; no; no]; [vio; no; no; no]] !! Z.to_nat cmd
  | MPU6050_SERVICE => [[vi; no; no; no]; [vi; no; no; no]; [vi; mo; no; no]] !! Z.to_nat cmd
  | TEL0157_SERVICE =>
      [[vi; vi; no; no]; [vi; no; no; no]; [vi; mo; no; no]; [vi; mo; no; no]; [vi; mo; no; no];
       [vi; mo; no; no]; [vi; mo; no; no]; [vi; mo; no; no]; [vio; no; no; no]; [vio; no; no; no];
       [vio; no; no; no]; [vi; mo; no; no]] !! Z.to_nat cmd
  end.

(** The answer to a command number that does not exist. *)
Definition pta_unknown (svc : service) : Z :=
  match svc with
  | AT24CXX_SERVICE | ATK301_SERVICE => TEE_ERROR_BAD_PARAMETERS
  | _ => TEE_ERROR_NOT_SUPPORTED
  end.

Lemma typed_refused {S} t0 t1 t2 t3 body types ps (s : S) : types ≠ TEE_PARAM_TYPES t0 t1 t2 t3 →
  typed t0 t1 t2 t3 body types ps s = Ok (TEE_ERROR_BAD_PARAMETERS, ps) s.
Proof. intros. unfold typed. by rewrite (proj2 (Z.eqb_neq _ _)). Qed.

Lemma on_driver_refused m r v : m (is_d v) = Ok r (is_d v) → on_driver (A:=Z * uparams) m v = Ok r v.
Proof. intros Hm. unfold on_driver, zoom. rewrite Hm. by destruct v. Qed.

Definition refused `{Env} (svc : service) (cmd types : Z) (ps : uparams) (v : i2c_svc) : Prop :=
  ∃ v', pta_invoke svc cmd types ps v = Ok (TEE_ERROR_BAD_PARAMETERS, ps) v'
    ∧ (v' = v ∨ svc = I2C_SERVICE ∧ cmd = PTA_I2C_READ_BYTES
         ∧ ∃ sec us, is_d v' = d_log (E_time sec us) (is_d v)).

(** The one command that takes a time stamp before it checks its types. *)
Lemma i2c_read_bytes_refused `{Env} types ps v : bench_ok v →
  types ≠ TEE_PARAM_TYPES VALUE_IN VALUE_IN MEM_OUT NONE →
  refused I2C_SERVICE PTA_I2C_READ_BYTES types ps v.
Proof.
  intros (Hl&Hi&_) Ht. unfold refused. cbn. unfold pta_i2c_read_bytes, i2c_bench, mbind, M_bind, gets.
  unfold on_driver at 1, zoom, tee_time_get_sys_time. cbn [benchmark_idx benchmark_time].
  unfold I2C_SERVICE_OVERHEAD_BENCHMARK_TIMES, I2C_SERVICE_OVERHEAD_BENCHMARK_SIZE in *.
  set (j := u32 _). assert (0 <= j < 100) as Hj.
  { subst j. unfold I2C_SERVICE_OVERHEAD_BENCHMARK_POINTS. rewrite u32_id by lia. lia. }
  unfold arr_set. rewrite Hl, (proj2 (Z.leb_le _ _)), (proj2 (Z.ltb_lt _ _)) by lia. cbn.
  rewrite typed_refused by done. eexists. split; [reflexivity|]. right. cbn. eauto.
Qed.

Ltac each_command cmd :=
  repeat match goal with
  | |- context [cmd =? ?c] => destruct (Z.eqb_spec cmd c) as [-> |]
  end.

Ltac past_commands cmd :=
  repeat match goal with Hne : cmd ≠ ?c |- _ => unfold c in Hne; revert Hne end;
  intros; cbn; lia.

Lemma cmd_none {A} (l : list A) cmd : 0 <= cmd → Z.of_nat (length l) <= cmd → l !! Z.to_nat cmd = None.
Proof. intros. apply lookup_ge_None_2. lia. Qed.

(** A command number that does not exist is answered with NOT_SUPPORTED
    (BAD_PARAMETERS by two services) and a type word other than the one the
    command declares with BAD_PARAMETERS; in both cases the parameters are
    returned unchanged and no device is touched, except that the I2C block
    read has read the clock. *)
Theorem pta_refuses `{Env} svc cmd types ps v : 0 <= cmd → bench_ok v →
  match pta_types svc cmd with
  | None => pta_invoke svc cmd types ps v = Ok (pta_unknown svc, ps) v
  | Some w => types ≠ w → refused svc cmd types ps v
  end.
Proof.
  intros Hc Hb. unfold refused. destruct svc; cbn [pta_invoke pta_unknown].
  all: unfold gpio_invoke_command, i2c_invoke_command, spi_invoke_command, dht_invoke_command,
    w25qxx_invoke_command, at24cxx_invoke_command, atk301_invoke_command, bh1750fvi_invoke_command,
    mpu6050_invoke_command, tel0157_invoke_command.
  all: each_command cmd.
  all: try (intros Ht; first [by apply i2c_read_bytes_refused
    | exists v; split; [|by left]; try apply on_driver_refused; by apply typed_refused ]).
  all: unfold pta_types; rewrite cmd_none; [|done|].
  all: try (cbn [fmap option_fmap option_map]; first [reflexivity | by apply on_driver_refused]).
  all: past_commands cmd.
Qed.

(** ** What a successful read leaves in the client's memory *)

(** The parameter a read command fills, and how much of it for a given size. *)
Definition fill_of (svc : service) (cmd : Z) : option (Z * (Z → Z)) :=
  match svc with
  | I2C_SERVICE => if (cmd =? PTA_I2C_READ_BYTES) || (cmd =? PTA_I2C_READ_REGS) then Some (2, u16) else None
  | AT24CXX_SERVICE => if cmd =? PTA_CMD_AT24CXX_READ then Some (2, u16) else None
  | ATK301_SERVICE => if cmd =? PTA_CMD_ATK301_UPLOAD_FINGERPRINT_IMAGE then Some (1, λ n, n) else None
  | MPU6050_SERVICE => if cmd =? PTA_CMD_MPU6050_SAMPLE then Some (1, λ n, n) else None
  | TEL0157_SERVICE =>
      if (cmd =? PTA_CMD_TEL0157_GET_ALT) || (cmd =? PTA_CMD_TEL0157_GET_SOG)
         || (cmd =? PTA_CMD_TEL0157_GET_COG) then Some (1, λ n, n) else None
  | _ => None
  end.

Section fills.
Context `{Env} (t : bool) (maxlen : Z) (types : Z) (ps : uparams) (s : dstate).
Context (Hps : params_ok types ps) (Hrdy : pta_ready t maxlen s).

Lemma back_fills {T} i b n (k : Z → Z) r s' Q : 0 <= i → at_ types ps i MEM_OUT (UMemref b n) →
  read_post (k n) b r → (∀ r, fills ps i k r → Q r s') →
  wp t (back (S:=T) ps i r.1 r.2) Q s'.
Proof using.
  intros Hi A (_&b'&->&_&Hf) HQ. cbn. wp_steps. eapply wp_set_umem; [done|exact (proj1 A)|]. wp_steps.
  apply HQ. intros Hs. exists b, n, b'. split_and!; [apply A|done|by apply Hf].
Qed.

(** Opens a command whose refusal is an error. *)
Ltac fill_open :=
  apply typed_wp; [assumption|reflexivity|reflexivity|reflexivity|reflexivity|by apply fills_error|];
  let u0 := fresh "u" in let u1 := fresh "u" in let u2 := fresh "u" in let u3 := fresh "u" in
  intros u0 u1 u2 u3 A0 A1 A2 A3;
  let a0 := fresh "a0" in let b0 := fresh "b0" in at_open A0 a0 b0;
  let a1 := fresh "a1" in let b1 := fresh "b1" in at_open A1 a1 b1;
  let a2 := fresh "a2" in let b2 := fresh "b2" in at_open A2 a2 b2;
  let a3 := fresh "a3" in let b3 := fresh "b3" in at_open A3 a3 b3;
  unfold tel_dev_of, dev_of; pget.

Lemma i2c_read_regs_fills : addr7 ps →
  wp t (pta_i2c_read_regs types ps) (λ r _, fills ps 2 u16 r) s.
Proof using Hps Hrdy.
  intros H7. fill_open. unfold i2c_section. pget.
  pose proof (ready_bus _ _ _ Hrdy (i2c_t a0) ltac:(apply u8_range)) as Hfree.
  pose proof (pr_wf _ _ _ Hrdy). eapply wp_mono; [by apply i2c_acquire_owns|].
  intros r s1 [(->&Hlt&Ho)|(->&_&->)]; status_red; pget; [|by apply fills_error].
  rewrite i2c_read_regs_trunc. pose proof (u16_le b2 (proj1 Hn)). pose proof (u16_range b2). pose proof Ho as [Hfr _].
  eapply wp_mono; [apply i2c_read_regs_client; [apply u8_range|by eapply d_frame_wf|
    by eapply i2c_live_frame; [|apply (pr_i2c _ _ _ Hrdy)]|by eapply H7, A1|done|lia]|].
  intros [res ob] s2 Hp. pget. eapply wp_mono; [eapply i2c_release_owns; [done|done|eapply owns_ext; [done|apply Hp]]|].
  intros ? s3 _. pget. eapply (back_fills _ _ _ _ (res, ob)); [done|exact A2|by eapply bus_read_post_own|done].
Qed.

Lemma at24cxx_read_fills : wp t (pta_at24cxx_read types ps) (λ r _, fills ps 2 u16 r) s.
Proof using Hps Hrdy.
  fill_open. pose proof (u16_le b2 (proj1 Hn)). pose proof (u16_range b2). rewrite at24cxx_read_trunc.
  eapply wp_mono; [apply at24cxx_read_ok; [by eapply dev_at|lia|lia]|]. intros [r ob] s' [_ Hp].
  eapply (back_fills _ _ _ _ (r, ob)); [done|exact A2|done|done].
Qed.
Lemma mpu6050_sample_fills : wp t (pta_mpu6050_sample types ps) (λ r _, fills ps 1 (λ n, n) r) s.
Proof using Hps Hrdy.
  fill_open. destruct (Z.eqb_spec b1 14) as [->|]; cbn [negb]; pget; [|by apply fills_error].
  eapply wp_mono; [apply mpu_sample_ok; [by eapply dev_at|lia]|]. intros [r ob] s' [_ Hp].
  eapply (back_fills _ _ _ (λ n, n) (r, ob)); [done|exact A1|done|done].
Qed.
Lemma atk301_upload_fills : wp t (pta_atk301_upload_fingerprint_image types ps) (λ r _, fills ps 1 (λ n, n) r) s.
Proof using Hps Hrdy.
  fill_open. destruct (Z.eqb_spec b1 Atk301.ATK301_FINGERPRINT_IMAGE_DATA_LEN) as [->|]; cbn [negb]; pget;
    [|by apply fills_error].
  eapply wp_mono; [apply atk301_upload_ok; [by eapply dev_at|lia]|]. intros [r b'] s' (_&Hr&Hl&Hf). pget.
  eapply (back_fills _ _ _ (λ n, n) (r, Some b')); [done|exact A1| |done]. split; [done|]. by exists b'.
Qed.
Lemma tel0157_get3_fills get :
  (∀ d b s0, dev_ready t (tel_dev d) s0 → 3 <= blen b →
     wp t (get d (Some b)) (λ r s', kept s0 s' ∧ read_post 3 b r) s0) →
  wp t (pta_tel0157_get3 get types ps) (λ r _, fills ps 1 (λ n, n) r) s.
Proof using Hps Hrdy.
  intros Hget. fill_open. destruct (Z.eqb_spec b1 3) as [->|]; cbn [negb]; pget; [|by apply fills_error].
  eapply wp_mono; [apply Hget; [by eapply dev_at|lia]|]. intros [r ob] s' [_ Hp].
  eapply (back_fills _ _ _ (λ n, n) (r, ob)); [done|exact A1|done|done].
Qed.
End fills.

Lemma on_driver_fills `{Env} t v ps i k m : wp t m (λ r _, fills ps i k r) (is_d v) →
  wp t (on_driver m) (λ r _, fills ps i k r) v.
Proof. intros. by apply wp_zoom. Qed.

(** A read command that succeeds (I2C block and register reads, EEPROM
    read, fingerprint image, motion sample, altitude, speed and course) has
    filled the front of its output buffer, as many bytes as the size says
    (modulo 2^16 for the plain I2C and EEPROM reads), left no indeterminate
    byte there and changed nothing else in the parameters. *)
Theorem pta_reads_fill `{Env} t maxlen svc cmd types ps v i k : fill_of svc cmd = Some (i, k) →
  0 <= maxlen → params_ok types ps → pta_ready t maxlen (is_d v) → bench_ok v →
  pta_client_ok maxlen svc cmd ps →
  wp t (pta_invoke svc cmd types ps) (λ r _, fills ps i k r) v.
Proof.
  intros Hfill Hm Hps Hrdy Hb Hc. destruct svc; try done; cbn [fill_of pta_client_ok] in Hfill, Hc;
    repeat match type of Hfill with context [cmd =? ?c] => destruct (Z.eqb_spec cmd c) as [-> |] end;
    try done; injection Hfill as <- <-; cbn [pta_invoke].
  - cbn. eapply wp_mono; [eapply pta_i2c_read_bytes_fills; eauto; by apply Hc|]. by intros ? ? [_ ?].
  - cbn. apply on_driver_fills. eapply i2c_read_regs_fills; eauto. by apply Hc.
  - apply on_driver_fills. by eapply at24cxx_read_fills.
  - apply on_driver_fills. by eapply atk301_upload_fills.
  - apply on_driver_fills. by eapply mpu6050_sample_fills.
  - apply on_driver_fills. eapply tel0157_get3_fills; eauto. intros. by apply reg_getter_ok.
  - apply on_driver_fills. eapply tel0157_get3_fills; eauto. intros. by apply reg_getter_ok.
  - apply on_driver_fills. eapply tel0157_get3_fills; eauto. intros. by apply reg_getter_ok.
Qed.

(** ** Single services *)
Section services.
Context `{Env}.

(** The GPIO service accesses exactly one word: reading a pin is one load
    of the level word of its bank and answers the pin's bit; setting or
    clearing it is a read-modify-write of the GPSET or GPCLR word that sets
    the pin's bit; a pin above 53 is refused without an access. *)
Theorem pta_gpio_access pin x a b s : 0 <= pin →
  let get := pta_gpio_get (TEE_PARAM_TYPES VALUE_IN VALUE_OUT NONE NONE)
               [UValue pin x; UValue a b; UNone; UNone] in
  let set_ := pta_gpio_set (TEE_PARAM_TYPES VALUE_IN NONE NONE NONE) [UValue pin x; UNone; UNone; UNone] in
  if pin <=? RPI3_MAX_PIN_NUM then
    let lev := bank_addr s GPLEV pin in
    let v := u32 (env_read (d_trace s) 32 lev) in
    let reg := bank_addr s (if x =? 0 then GPCLR else GPSET) pin in
    let w := u32 (env_read (d_trace s) 32 reg) in
    get s = Ok (TEE_SUCCESS, [UValue pin x; UValue (Z.b2z (Z.testbit v (pin mod 32))) b; UNone; UNone])
              (d_log (E_read 32 lev v) s)
    ∧ set_ s = Ok (TEE_SUCCESS, [UValue pin x; UNone; UNone; UNone])
                 (d_log (E_write 32 reg (Z.setbit w (pin mod 32))) (d_log (E_read 32 reg w) s))
  else
    get s = Ok (TEE_ERROR_BAD_PARAMETERS, [UValue pin x; UValue a b; UNone; UNone]) s
    ∧ set_ s = Ok (TEE_ERROR_BAD_PARAMETERS, [UValue pin x; UNone; UNone; UNone]) s.
Proof.
  intros Hp get set_.
  assert (get s = (l ← gpio_get pin;
      if l <? 0 then mret (TEE_ERROR_BAD_PARAMETERS, [UValue pin x; UValue a b; UNone; UNone])
      else mret (TEE_SUCCESS, [UValue pin x; UValue (u32 l) b; UNone; UNone])) s) as -> by reflexivity.
  assert (set_ s = (r ← gpio_set pin (if truth x then GPIO_HIGH_LEVEL else GPIO_LOW_LEVEL);
      mret (if r =? 0 then TEE_SUCCESS else TEE_ERROR_BAD_PARAMETERS, [UValue pin x; UNone; UNone; UNone])) s)
    as -> by reflexivity.
  unfold mbind, M_bind.
  destruct (Z.leb_spec pin RPI3_MAX_PIN_NUM); cbv zeta.
  - rewrite gpio_get_eq by done. split; [by destruct (Z.testbit _ _)|].
    unfold truth. destruct (x =? 0); cbn [negb]; by rewrite gpio_set_eq by done.
  - unfold gpio_get, gpio_set. by rewrite (proj2 (Z.ltb_lt _ _)) by done.
Qed.

(** A DHT reading that succeeds hands the client the temperature and the
    humidity decoded from 40 bits sampled from the pin, as 32-bit two's
    complement; a failed one stores zeros. The command terminates whatever the
    pin does. *)
Theorem pta_dht_reply pin ty a b s :
  wp true (pta_dht_read (TEE_PARAM_TYPES VALUE_IN VALUE_OUT NONE NONE)
             [UValue pin ty; UValue a b; UNone; UNone])
    (λ r s', d_ext s s' ∧ ∃ temp hum,
       r.2 = [UValue pin ty; UValue (u32 temp) (u32 hum); UNone; UNone]
       ∧ if r.1 =? TEE_SUCCESS then
           ∃ s1 bits d0 d1 d2 d3, d_ext s s1
             ∧ samples pin (d_trace s') = samples pin (d_trace s1) ++ bits ∧ length bits = 40%nat
             ∧ pack bits = [d0; d1; d2; d3; u8 (d0 + d1 + d2 + d3)]
             ∧ dht_decode (dht_type_of ty) d0 d1 d2 d3 = Some (temp, hum)
         else tee_status r.1 ∧ temp = 0 ∧ hum = 0) s.
Proof.
  unfold pta_dht_read, typed. rewrite Z.eqb_refl. cbn [negb]. repeat uget1.
  eapply wp_mono; [apply dht_read_spec|]. intros [[res dv] v] s' [He Hr]. wp_steps.
  destruct v as [[temp hum]|]; cbn [default from_option id]; unfold id; repeat uget1.
  - destruct Hr as (->&s1&bits&d0&d1&d2&d3&?&?&?&?&?). cbn [fst snd]. rewrite Z.eqb_refl.
    split; [done|]. exists temp, hum. split; [done|]. by exists s1, bits, d0, d1, d2, d3.
  - destruct Hr as [Hr Hne]. cbn [fst snd]. rewrite (proj2 (Z.eqb_neq _ _)) by done.
    split; [done|]. by exists 0, 0.
Qed.

(** What every result of a computation satisfies, if it gets to one. *)
Lemma ok_bind {S A B} (m : M S A) (k : A → M S B) (P : B → Prop) s :
  (∀ a s', match k a s' with Ok b _ => P b | _ => True end) →
  match (m ≫= k) s with Ok b _ => P b | _ => True end.
Proof. intros Hk. unfold mbind, M_bind. destruct (m s); [apply Hk|done|done]. Qed.

Lemma w25qxx_read_id_none bus cs s :
  match w25qxx_read_id bus cs None s with Ok r _ => r.1 ≠ TEE_SUCCESS | _ => True end.
Proof.
  unfold w25qxx_read_id. apply ok_bind. intros r s1.
  destruct (Z.eqb_spec r TEE_SUCCESS); cbn [negb]; [|done]. apply ok_bind. intros [r2 ob] s2.
  destruct (Z.eqb_spec r2 TEE_SUCCESS).
  - unfold mbind at 1, M_bind at 1. unfold mbind at 1, M_bind at 1.
    destruct (buf_get _ 1 s2); [|done|done]. unfold mbind at 1, M_bind at 1. by destruct (buf_get _ 2 _).
  - apply ok_bind. intros id s3. by apply ok_bind.
Qed.

(** The flash service never answers READ_ID with success: the driver ors
    the identifier into a variable of the service that is not initialised. *)
Theorem pta_w25qxx_read_id_undefined types ps s :
  match pta_w25qxx_read_id types ps s with Ok r _ => r.1 ≠ TEE_SUCCESS | _ => True end.
Proof.
  unfold pta_w25qxx_read_id, typed. destruct (negb _); [done|].
  apply ok_bind. intros bus s1. apply ok_bind. intros cs s2.
  pose proof (w25qxx_read_id_none (spi_t bus) (spi_cs_t cs) s2) as Hr.
  unfold mbind at 1, M_bind at 1. destruct (w25qxx_read_id _ _ _ s2) as [[r id] s3| |]; [|done..].
  cbn in Hr. rewrite (proj2 (Z.eqb_neq _ _)) by done. done.
Qed.
End services.

(** ** Witnesses *)
Module PtaWitnesses.

Definition board : i2c_svc := i2c_svc_init d_init.

Lemma board_ready : pta_ready (H:=still_env idle) true 100 (is_d board).
Proof.
  split; [apply d_init_wf|reflexivity| |by split|apply idle_live; lia].
  intros dev _ _. rewrite still_fuel. split; [lia|]. exists 0. split; [lia|]. intros h _. reflexivity.
Qed.
Lemma board_bench : bench_ok board.
Proof. split; [done|]. split; [done|]. apply Forall_replicate. lia. Qed.

Definition types3 (a b c : Z) : Z := TEE_PARAM_TYPES a b c NONE.
Definition demo_calls : list call :=
  [ (GPIO_SERVICE, PTA_GPIO_CMD_SET, types3 VALUE_IN NONE NONE, [UValue 23 1; UNone; UNone; UNone]);
    (I2C_SERVICE, PTA_I2C_WRITE_BYTES, types3 VALUE_IN VALUE_IN MEM_IN,
       [UValue 1 0x50; UValue 0 0; UMemref (bytes [1; 2; 3]) 3; UNone]);
    (W25QXX_SERVICE, PTA_CMD_W25QXX_PAGE_PROGRAM, types3 VALUE_IN VALUE_IN MEM_IN,
       [UValue 0 0; UValue 0x1000 0; UMemref (bytes [7; 8]) 2; UNone]);
    (BH1750FVI_SERVICE, PTA_CMD_BH1750FVI_SAMPLE, types3 VALUE_INOUT NONE NONE,
       [UValue 1 0x23; UNone; UNone; UNone]) ].

Ltac shapes := repeat match goal with
  | |- _ ∧ _ => split
  | |- param_ok _ (UMemref (bytes ?d) _) =>
      exists (bytes d), (Z.of_nat (length d)); split_and!; [reflexivity|reflexivity|vm_compute; reflexivity|];
      intros _; exists d; split; [reflexivity|repeat constructor; lia]
  | |- param_ok _ (UMemref ?b ?n) =>
      exists b, n; split_and!; [reflexivity|reflexivity|vm_compute; reflexivity|discriminate]
  | |- param_ok _ (UValue ?a ?b) => exists a, b; split_and!; [reflexivity|lia..]
  | |- param_ok _ UNone => reflexivity
  end.

Lemma demo_calls_ok : Forall (call_ok 100) demo_calls.
Proof.
  unfold demo_calls. repeat (apply Forall_cons; split); [..|by apply Forall_nil].
  all: split; [cbn [params_ok]; shapes|]; try done.
  - intros _ flags x [= <- <-]. reflexivity.
  - split; [done|]. split; [by intros ? ? [= <- <-]|].
    intros i ? ? Hl. destruct i as [|[|[|[|]]]]; try discriminate. injection Hl as ? ?. lia.
Qed.

Lemma pta_session_safe_witness :
  wp true (pta_session (H:=still_env idle) demo_calls) (λ rs v', Forall2 answer_to demo_calls rs
    ∧ kept (is_d board) (is_d v') ∧ bench_ok v') board.
Proof.
  apply (pta_session_safe (H:=still_env idle) true 100);
    [lia|apply board_ready|apply board_bench|apply demo_calls_ok].
Defined.

Lemma pta_refuses_witness :
  refused (H:=still_env idle) TEL0157_SERVICE PTA_CMD_TEL0157_GET_ALT 0 [] board
  ∧ pta_invoke (H:=still_env idle) ATK301_SERVICE 3 0 [] board = Ok (TEE_ERROR_BAD_PARAMETERS, []) board.
Proof.
  split.
  - apply (pta_refuses (H:=still_env idle) TEL0157_SERVICE PTA_CMD_TEL0157_GET_ALT 0 [] board);
      [unfold PTA_CMD_TEL0157_GET_ALT; lia|apply board_bench|discriminate].
  - apply (pta_refuses (H:=still_env idle) ATK301_SERVICE 3 0 [] board); [lia|apply board_bench].
Defined.

Lemma pta_reads_fill_witness :
  wp true (pta_invoke (H:=still_env idle) I2C_SERVICE PTA_I2C_READ_BYTES (types3 VALUE_IN VALUE_IN MEM_OUT)
             [UValue 1 0x50; UValue 0 0; UMemref (uninit 3) 3; UNone])
    (λ r _, fills [UValue 1 0x50; UValue 0 0; UMemref (uninit 3) 3; UNone] 2 u16 r) board.
Proof.
  apply (pta_reads_fill (H:=still_env idle) true 100);
    [reflexivity|lia| |apply board_ready|apply board_bench|].
  - cbn [params_ok]. shapes.
  - intros _ flags x [= <- <-]. reflexivity.
Defined.

Lemma pta_gpio_access_witness :
  let lev := bank_addr d_init GPLEV 40 in
  pta_gpio_get (H:=still_env idle) (TEE_PARAM_TYPES VALUE_IN VALUE_OUT NONE NONE)
    [UValue 40 0; UValue 0 0; UNone; UNone] d_init
  = Ok (TEE_SUCCESS, [UValue 40 0; UValue 1 0; UNone; UNone]) (d_log (E_read 32 lev idle) d_init).
Proof. exact (proj1 (pta_gpio_access (H:=still_env idle) 40 0 0 0 d_init ltac:(lia))). Defined.

Lemma pta_dht_reply_witness :
  (∃ s, pta_dht_read (H:=quick_env 0) (TEE_PARAM_TYPES VALUE_IN VALUE_OUT NONE NONE)
     [UValue 4 2; UValue 9 9; UNone; UNone] d_init = Ok (TEE_ERROR_ITEM_NOT_FOUND, [UValue 4 2; UValue 0 0; UNone; UNone]) s)
  ∧ wp true (pta_dht_read (H:=quick_env 0) (TEE_PARAM_TYPES VALUE_IN VALUE_OUT NONE NONE)
               [UValue 4 2; UValue 9 9; UNone; UNone]) (λ r s', d_ext d_init s') d_init.
Proof.
  split; [eexists; vm_compute; reflexivity|].
  eapply wp_mono; [apply (pta_dht_reply (H:=quick_env 0) 4 2 9 9 d_init)|]. by intros r s' [? _].
Defined.
End PtaWitnesses.
