(* ===== verification/Runtime.v ===== *)
(** * Signal table of the WebAssembly runtime (tz_io_sigtable.c)

    The user-side counterpart of the I/O helper: the runtime remembers which
    function of the application handles which sub-signal of which peripheral,
    polls the I/O helper for the peripherals it awaits, and calls handlers at
    the checkpoints of the compiled or interpreted application
    (aot_runtime.c, wasm_interp.h).  The runtime is single threaded.

    The system calls of the trusted application are the methods of
    [TeeClient]; [W] is the state of the system behind them.  The application
    is a parameter too: a [prog] for each of its functions. *)

From Stdlib Require Import ZArith Lia Bool.
From stdpp Require Import base tactics option list numbers gmap.
From S2P Require Import Prelude Platform Params IoState IoSignal.

Open Scope Z_scope.

(** ** Modules of the application

    What the table uses of a module instance: its first function table, and
    the arrays that describe its functions. *)

Definition NULL_REF : Z := 0xFFFFFFFF.
Definition N_SIG : Z := 64.

Inductive wasm_module_type := Wasm_Module_AoT | Wasm_Module_Bytecode.

Record module_inst := ModuleInst {
  module_type : wasm_module_type;
  table0 : option (list Z);         (* elements of table 0, if there is one *)
  func_type_indexes : list Z;
  func_types : list Z;
  func_ptrs : list Z;               (* the code of each function *)
  function_count : Z
}.

(** [AOTFunctionInstance], and a pointer to a function instance: into the
    array of an interpreted module, or to a block on the heap. *)
Record aot_func := AotFunc { af_index : Z; af_type : Z; af_ptr : Z }.
Inductive func_ref := FNull | FInst (i : Z) | FBlk (id : Z).
#[export] Instance func_ref_eq_dec : EqDecision func_ref.
Proof. solve_decision. Defined.

Record io_sigentry := SigRow { function : func_ref; func_table_idx : Z; func_idx : Z }.

(** ** State *)

(** History of the runtime, newest first. *)
Inductive r_event :=
  | R_register (signo sub_signo : Z) (f : func_ref)
  | R_call (f : func_ref) (signo sub_signo : Z)
  | R_return.

Record rstate (W : Type) := RState {
  io_sigtable : list (list io_sigentry);
  io_sigpending : Z;
  recover_io_sigpending : Z;
  in_handler : Z;
  io_helper_sess : bool;              (* a session is open *)
  r_funcs : gmap Z aot_func;          (* live function instances *)
  r_fresh : Z;
  poll_times : Z;
  profile_times : Z;
  r_log : list r_event;
  r_world : W
}.
Arguments RState {W}.
Arguments io_sigtable {W}.
Arguments io_sigpending {W}.
Arguments recover_io_sigpending {W}.
Arguments in_handler {W}.
Arguments io_helper_sess {W}.
Arguments r_funcs {W}.
Arguments r_fresh {W}.
Arguments poll_times {W}.
Arguments profile_times {W}.
Arguments r_log {W}.
Arguments r_world {W}.

Section setters.
Context {W : Type}.
Implicit Type s : rstate W.

Definition set_table x s := RState x (io_sigpending s) (recover_io_sigpending s) (in_handler s)
  (io_helper_sess s) (r_funcs s) (r_fresh s) (poll_times s) (profile_times s) (r_log s) (r_world s).
Definition set_pending x s := RState (io_sigtable s) x (recover_io_sigpending s) (in_handler s)
  (io_helper_sess s) (r_funcs s) (r_fresh s) (poll_times s) (profile_times s) (r_log s) (r_world s).
Definition set_recover x s := RState (io_sigtable s) (io_sigpending s) x (in_handler s)
  (io_helper_sess s) (r_funcs s) (r_fresh s) (poll_times s) (profile_times s) (r_log s) (r_world s).
Definition set_in_handler x s := RState (io_sigtable s) (io_sigpending s) (recover_io_sigpending s) x
  (io_helper_sess s) (r_funcs s) (r_fresh s) (poll_times s) (profile_times s) (r_log s) (r_world s).
Definition set_sess x s := RState (io_sigtable s) (io_sigpending s) (recover_io_sigpending s) (in_handler s)
  x (r_funcs s) (r_fresh s) (poll_times s) (profile_times s) (r_log s) (r_world s).
Definition set_funcs x n s := RState (io_sigtable s) (io_sigpending s) (recover_io_sigpending s) (in_handler s)
  (io_helper_sess s) x n (poll_times s) (profile_times s) (r_log s) (r_world s).
Definition set_poll_times x s := RState (io_sigtable s) (io_sigpending s) (recover_io_sigpending s) (in_handler s)
  (io_helper_sess s) (r_funcs s) (r_fresh s) x (profile_times s) (r_log s) (r_world s).
Definition set_profile_times x s := RState (io_sigtable s) (io_sigpending s) (recover_io_sigpending s) (in_handler s)
  (io_helper_sess s) (r_funcs s) (r_fresh s) (poll_times s) x (r_log s) (r_world s).
Definition r_event_log e s := RState (io_sigtable s) (io_sigpending s) (recover_io_sigpending s) (in_handler s)
  (io_helper_sess s) (r_funcs s) (r_fresh s) (poll_times s) (profile_times s) (e :: r_log s) (r_world s).
Definition set_world (x : W) s := RState (io_sigtable s) (io_sigpending s) (recover_io_sigpending s) (in_handler s)
  (io_helper_sess s) (r_funcs s) (r_fresh s) (poll_times s) (profile_times s) (r_log s) x.
End setters.

(** The variables as the runtime starts. *)
Definition r_init {W} (w : W) : rstate W :=
  RState (replicate 64 (replicate 64 (SigRow FNull 0 0))) 0 0 0 false ∅ 0 0 0 [] w.

(** ** The system below

    The client side of the TEE internal API for the session with the I/O
    helper, and whether the runtime's allocator has a block. *)
Class TeeClient (W : Type) := {
  tee_open : M W Z;
  tee_invoke : Z → Z → uparams → M W (Z * uparams);
  runtime_malloc : M W bool
}.

Section sigtable.
Context {W : Type} `{TeeClient W}.

Definition R (A : Type) : Type := M (rstate W) A.
Definition sys_call {A} (m : M W A) : R A := zoom r_world set_world m.

(** [(uint64_t)1 << n] *)
Definition one_shl (n : Z) : R Z := if n <? 64 then mret (BIT n) else undef UB_shift.

(** ** Function instances (wasm_runtime_common.c) *)

Definition func_load (id : Z) : R aot_func :=
  fs ← gets r_funcs; match fs !! id with Some f => mret f | None => undef UB_null end.
Definition func_store (id : Z) (f : aot_func) : R unit :=
  func_load id;; modify (λ s, set_funcs (<[id := f]> (r_funcs s)) (r_fresh s) s).

Definition wasm_runtime_get_function_idx (m : module_inst) (f : func_ref) : R Z :=
  match module_type m, f with
  | Wasm_Module_Bytecode, FInst i => mret (u32 i)
  | Wasm_Module_AoT, FBlk id => a ← func_load id; mret (af_index a)
  | _, _ => undef UB_null
  end.

(** The element of the table, or the way its look-up fails. *)
Definition wasm_get_indirect_function (m : module_inst) (elem_idx : Z) : option Z :=
  t ← table0 m;
  e ← t !! Z.to_nat elem_idx;
  if (e =? NULL_REF) || (function_count m <=? e) then None else Some e.

Definition aot_get_indirect_function (m : module_inst) (elem_idx : Z) : R (option aot_func) :=
  match table0 m with
  | None => undef UB_null
  | Some t =>
      match t !! Z.to_nat elem_idx with
      | None => mret None
      | Some e =>
          if e =? NULL_REF then mret None else
          ty ← arr_get (func_type_indexes m) e;
          t ← arr_get (func_types m) ty;
          p ← arr_get (func_ptrs m) e;
          mret (Some (AotFunc e t p))
      end
  end.

Definition wasm_runtime_get_indirect_function (m : module_inst) (elem_idx : Z) : R func_ref :=
  match module_type m with
  | Wasm_Module_Bytecode => mret (from_option FInst FNull (wasm_get_indirect_function m elem_idx))
  | Wasm_Module_AoT =>
      o ← aot_get_indirect_function m elem_idx;
      match o with
      | None => mret FNull
      | Some f =>
          ok ← sys_call runtime_malloc;
          if ok : bool then
            id ← gets r_fresh;
            modify (λ s, set_funcs (<[id := f]> (r_funcs s)) (id + 1) s);;
            mret (FBlk id)
          else mret FNull
      end
  end.

Definition wasm_runtime_free (f : func_ref) : R unit :=
  match f with
  | FBlk id => func_load id;; modify (λ s, set_funcs (delete id (r_funcs s)) (r_fresh s) s)
  | _ => undef UB_free
  end.

(** ** Talking to the I/O helper *)

Definition invoke_io_helper_pta (cmd_id param_types : Z) (params : uparams) : R (Z * uparams) :=
  sess ← gets io_helper_sess;
  res ← (if sess : bool then mret TEE_SUCCESS else
           res ← sys_call tee_open;
           if negb (res =? TEE_SUCCESS) then mret res else
           modify (set_sess true);; mret TEE_SUCCESS);
  if negb (res =? TEE_SUCCESS) then mret (res, params) else
  sys_call (tee_invoke cmd_id param_types params).

Definition PTA_IO_HELPER_CMD_POLL : Z := 1.
Definition poll_types : Z :=
  TEE_PARAM_TYPES TEE_PARAM_TYPE_VALUE_INOUT TEE_PARAM_TYPE_NONE TEE_PARAM_TYPE_NONE TEE_PARAM_TYPE_NONE.

(** The result and, on success, the sub-signal. *)
Definition poll_to_io_helper (sess_no : Z) : R (Z * option Z) :=
  '(res, params) ← invoke_io_helper_pta PTA_IO_HELPER_CMD_POLL poll_types
                     [UValue (u16 sess_no) 0; UNone; UNone; UNone];
  if negb (res =? TEE_SUCCESS) then mret (TEE_ERROR_COMMUNICATION, None) else
  a ← uvalue_a params 0;
  if a =? 0 then mret (TEE_ERROR_NO_DATA, None) else
  b ← uvalue_b params 0;
  if b =? 0xFFFFFFFF then mret (TEE_ERROR_BUSY, None)
  else if b <? N_SUB_SIG then mret (TEE_SUCCESS, Some b)
  else mret (TEE_ERROR_GENERIC, None).

(** ** Ready signals *)

(** One round of the loop over the awaited peripherals; [tmp] is
    [tmp_io_sigpending]. *)
Definition ready_round (tmp : Z) : R (Z + Z * option (Z * Z)) :=
  if negb (truth tmp) then mret (inr (0, None)) else
  let idx := ffsll tmp in
  m ← one_shl idx;
  let tmp := Z.land tmp (unot 64 (u64 (m - 1))) in
  '(res, sub) ← poll_to_io_helper (idx - 1);
  if res =? TEE_SUCCESS then mret (inr (1, pair (idx - 1) <$> sub))
  else if res =? TEE_ERROR_NO_DATA then
    b ← one_shl (idx - 1);
    modify (λ s, set_pending (Z.land (io_sigpending s) (unot 64 b)) s);;
    mret (inl tmp)
  else mret (inl tmp).

(** At most 64 peripherals are awaited, each is polled once. *)
Definition ready_fuel : nat := 65.

(** The C result and what [*ready_signo] and [*ready_sub_signo] were set to. *)
Definition get_ready_signal : R (Z * option (Z * Z)) :=
  pending ← gets io_sigpending;
  if truth pending then loop ready_fuel ready_round pending
  else mret (-1, None).

Definition all_signal_handled : R Z := pending ← gets io_sigpending; mret (Z.b2z (pending =? 0)).

Definition tzio_reset_poll_times : R unit := modify (set_poll_times 0).
Definition tzio_get_poll_times : R Z := gets poll_times.
Definition tzio_reset_profile_times : R unit := modify (set_profile_times 0).
Definition tzio_get_profile_times : R Z := gets profile_times.

Definition set_signal_pending (signo : Z) : R unit :=
  b ← one_shl signo;
  h ← gets in_handler;
  if 0 <? h then modify (λ s, set_recover (Z.lor (recover_io_sigpending s) b) s)
  else modify (λ s, set_pending (Z.lor (io_sigpending s) b) s).

Definition temp_unset_all_io_signal_pending : R unit :=
  modify (λ s, set_recover (io_sigpending s) s);;
  modify (set_pending 0);;
  modify (set_in_handler 1).

Definition temp_recover_all_io_signal_pending : R unit :=
  modify (set_in_handler 0);;
  modify (λ s, set_pending (recover_io_sigpending s) s).

(** ** Handlers *)

Definition sig_row (signo sub_signo : Z) : R io_sigentry :=
  t ← gets io_sigtable; row ← arr_get t signo; arr_get row sub_signo.
Definition set_sig_row (signo sub_signo : Z) (e : io_sigentry) : R unit :=
  t ← gets io_sigtable; row ← arr_get t signo;
  row ← arr_set row sub_signo e; t ← arr_set t signo row; modify (set_table t).

Definition tzio_register_handler (exec_env : option module_inst)
    (signo sub_signo handler_func_ptr : Z) : R Z :=
  if (N_SIG <? signo) || (N_SUB_SIG <? sub_signo) then mret (-1) else
  if handler_func_ptr =? 0 then mret (-1) else
  match exec_env with
  | None => mret (-1)
  | Some m =>
      target ← wasm_runtime_get_indirect_function m handler_func_ptr;
      idx ← (if decide (target = FNull) then mret 0 else wasm_runtime_get_function_idx m target);
      old ← sig_row signo sub_signo;
      (if decide (function old = FNull) then mret 0 else wasm_runtime_get_function_idx m (function old));;
      (match module_type m with
       | Wasm_Module_AoT => if decide (function old = FNull) then mret () else wasm_runtime_free (function old)
       | Wasm_Module_Bytecode => mret ()
       end);;
      set_sig_row signo sub_signo (SigRow target handler_func_ptr idx);;
      modify (r_event_log (R_register signo sub_signo target));;
      set_signal_pending signo;;
      mret 0
  end.

Inductive periph_type_t := PERIPH_GPIO | PERIPH_I2C | PERIPH_SPI | PERIPH_SECURE_STORAGE.
Definition periph_types : list periph_type_t := [PERIPH_GPIO; PERIPH_I2C; PERIPH_SPI; PERIPH_SECURE_STORAGE].

Definition tzio_periph_to_io_signal_no (periph_type periph_no : Z) : Z :=
  match periph_types !! Z.to_nat periph_type with
  | None => -1
  | Some PERIPH_GPIO => Z.land periph_no 0x3f
  | Some PERIPH_I2C => Z.land (u32 (periph_no + 28)) 0x3f
  | Some PERIPH_SPI => Z.land (u32 (periph_no + 30)) 0x3f
  | Some PERIPH_SECURE_STORAGE => Z.land (u32 (periph_no + 31)) 0x3f
  end.

(** ** Checkpoints

    [call_wasm] is [wasm_runtime_call_wasm] on a function instance and the two
    arguments of a handler. *)
Section checkpoints.
Context (m : module_inst) (call_wasm : func_ref → Z → Z → R unit).

(** The local array [signo[2]], unset before a signal is found. *)
Definition signo_array (sig : option (Z * Z)) : R (Z * Z) :=
  match sig with Some x => mret x | None => undef UB_uninit end.

(** Fields of the handler's instance, refreshed before the call. *)
Definition patch_type (f : func_ref) (t : Z) : R unit :=
  match f with
  | FBlk id => a ← func_load id; func_store id (AotFunc (af_index a) t (af_ptr a))
  | _ => undef UB_null
  end.
Definition patch_ptr (f : func_ref) (p : Z) : R unit :=
  match f with
  | FBlk id => a ← func_load id; func_store id (AotFunc (af_index a) (af_type a) p)
  | _ => undef UB_null
  end.

(** Calling the handler of a ready signal from compiled code; polling once more
    updates the awaited set. *)
Definition aot_call_handler (signo sub_signo : Z) : R unit :=
  e ← sig_row signo sub_signo;
  ty ← arr_get (func_type_indexes m) (func_idx e);
  t ← arr_get (func_types m) ty;
  patch_type (function e) t;;
  p ← arr_get (func_ptrs m) (func_idx e);
  patch_ptr (function e) p;;
  temp_unset_all_io_signal_pending;;
  call_wasm (function e) signo sub_signo;;
  temp_recover_all_io_signal_pending;;
  get_ready_signal;;
  mret ().

Definition aot_poll_ready_signal : R unit :=
  '(r, sig) ← get_ready_signal;
  if negb (r =? 1) then mret () else
  '(signo, sub_signo) ← signo_array sig;
  aot_call_handler signo sub_signo.

(** The code the compiler emits at a checkpoint (aot_emit_sigpoll.c). *)
Definition sigpoll : R unit :=
  v ← gets io_sigpending; if v =? 0 then mret () else aot_poll_ready_signal.

(** The same from interpreted code. *)
Definition interp_call_handler (signo sub_signo : Z) : R unit :=
  e ← sig_row signo sub_signo;
  temp_unset_all_io_signal_pending;;
  call_wasm (FInst (func_idx e)) signo sub_signo;;
  temp_recover_all_io_signal_pending.

Definition HANDLE_IO_SIGNAL : R unit :=
  '(r, sig) ← get_ready_signal;
  if negb (r =? 1) then mret () else
  '(signo, sub_signo) ← signo_array sig;
  interp_call_handler signo sub_signo.

Definition checkpoint : R unit :=
  match module_type m with
  | Wasm_Module_AoT => sigpoll
  | Wasm_Module_Bytecode => HANDLE_IO_SIGNAL
  end.
End checkpoints.

(** ** Running an application *)

(** What an application's function does, as the runtime sees it: it calls
    native functions and passes checkpoints. *)
Inductive prog :=
  | Halt
  | Native (f : R Z) (k : Z → prog)
  | Checkpoint (k : prog).

(** [body c signo sub] is the behaviour of the code [c] called as a handler;
    [depth] bounds the nesting of handlers. *)
Section run.
Context (m : module_inst) (body : Z → Z → Z → prog).

Definition code_of (f : func_ref) : R Z :=
  match f with
  | FBlk id => a ← func_load id; mret (af_ptr a)
  | FInst i => mret i
  | FNull => undef UB_null
  end.

Definition call_with (run : prog → R unit) (f : func_ref) (signo sub_signo : Z) : R unit :=
  c ← code_of f;
  modify (r_event_log (R_call f signo sub_signo));;
  run (body c signo sub_signo);;
  modify (r_event_log R_return).

Fixpoint exec (call : func_ref → Z → Z → R unit) (p : prog) : R unit :=
  match p with
  | Halt => mret ()
  | Native f k => r ← f; exec call (k r)
  | Checkpoint k => checkpoint m call;; exec call k
  end.

Fixpoint run (depth : nat) : prog → R unit :=
  exec (match depth with
        | O => λ _ _ _, out_of_fuel
        | S d => call_with (run d)
        end).
End run.
End sigtable.

Arguments R : clear implicits.
Arguments prog : clear implicits.
