(* ===== verification/RuntimeScan.v ===== *)
(** * Polling: what the runtime learns from the I/O helper

    [get_ready_signal] of the runtime against a reference that polls the
    awaited peripherals in order, and its meaning for an I/O helper that keeps
    the promises of the interface [IoHelper]. *)

From Stdlib Require Import ZArith Lia Bool Sorted.
From stdpp Require Import base tactics option list sorting numbers gmap.
From S2P Require Import Prelude Platform Params IoState IoSignal IoSignalProofs Runtime.

Open Scope Z_scope.

(** ** The awaited peripherals of a word *)

Definition awaited (x : Z) : list Z := filter (λ i, Z.testbit x i = true) (seqZ 0 64).

Lemma elem_of_awaited x p : p ∈ awaited x ↔ in_periph p ∧ Z.testbit x p = true.
Proof.
  unfold awaited, in_periph, N_PERIPH. rewrite list_elem_of_filter, elem_of_seqZ. intuition lia.
Qed.

Lemma filter_elem_iff {A} (P Q : A → Prop) `{!∀ x, Decision (P x), !∀ x, Decision (Q x)} (l : list A) :
  (∀ x, x ∈ l → P x ↔ Q x) → filter P l = filter Q l.
Proof.
  induction l as [|x l IH]; intros Hl; [done|]. rewrite !filter_cons.
  rewrite IH by (intros; apply Hl; by right). pose proof (Hl x ltac:(by left)).
  repeat case_decide; tauto.
Qed.
Lemma filter_all {A} (P : A → Prop) `{!∀ x, Decision (P x)} (l : list A) : Forall P l → filter P l = l.
Proof. induction 1; [done|]. rewrite filter_cons_True by done. by f_equal. Qed.

Lemma filter_seqZ_sorted (P : Z → Prop) `{!∀ i, Decision (P i)} lo (n : nat) :
  StronglySorted Z.lt (filter P (seqZ lo (Z.of_nat n))).
Proof.
  revert lo; induction n as [|n IH]; intros lo; [constructor|].
  rewrite seqZ_cons by lia. replace (Z.pred (Z.of_nat (S n))) with (Z.of_nat n) by lia.
  rewrite filter_cons. case_decide; [|apply IH]. constructor; [apply IH|].
  apply Forall_forall. intros j [_ Hj]%list_elem_of_filter. apply elem_of_seqZ in Hj. lia.
Qed.

Lemma awaited_sorted x : StronglySorted Z.lt (awaited x).
Proof. apply (filter_seqZ_sorted _ 0 64). Qed.

Lemma awaited_length x : (length (awaited x) <= 64)%nat.
Proof. unfold awaited. rewrite length_filter, length_seqZ. done. Qed.

(** The mask the loop uses drops the bits up to the one just seen. *)
Lemma drop_low x i j : 0 <= i < 63 → 0 <= j →
  Z.testbit (Z.land x (unot 64 (u64 (BIT (i + 1) - 1)))) j = Z.testbit x j && (i <? j) && (j <? 64).
Proof.
  intros Hi Hj. rewrite Z.land_spec, unot_spec by lia.
  assert (u64 (BIT (i + 1) - 1) = Z.ones (i + 1)) as ->.
  { unfold BIT. rewrite Z.ones_equiv, Z.shiftl_1_l. apply Z.mod_small.
    pose proof (Z.pow_pos_nonneg 2 (i + 1)). pose proof (Z.pow_lt_mono_r 2 (i + 1) 64). lia. }
  rewrite ones_spec by lia. rewrite (proj2 (Z.leb_le 0 j)) by done.
  destruct (Z.ltb_spec j (i + 1)), (Z.ltb_spec i j); try lia; cbn; by rewrite ?andb_false_r, ?andb_true_r.
Qed.

Lemma awaited_next x i l : awaited x = i :: l → 0 <= i < 63 →
  awaited (Z.land x (unot 64 (u64 (BIT (i + 1) - 1)))) = l.
Proof.
  intros Hx Hi. pose proof (awaited_sorted x) as Hs. rewrite Hx in Hs.
  apply StronglySorted_inv in Hs as [_ Hs].
  transitivity (filter (λ j, i < j) (awaited x)).
  - unfold awaited. rewrite list_filter_filter. apply filter_elem_iff. intros j Hj%elem_of_seqZ.
    rewrite drop_low by lia. rewrite (proj2 (Z.ltb_lt j 64)) by lia. rewrite andb_true_r, andb_true_iff, Z.ltb_lt. tauto.
  - rewrite Hx, filter_cons_False by lia. by apply filter_all.
Qed.

Lemma awaited_nil x : 0 <= x < 2 ^ 64 → awaited x = [] ↔ x = 0.
Proof.
  intros Hx. split; [|by intros ->]. intros Hn. apply Z.bits_inj'. intros j Hj. rewrite Z.bits_0.
  destruct (Z.lt_ge_cases j 64); [|by apply (testbit_high x 64)]. apply not_true_is_false. intros Hb.
  assert (j ∈ awaited x) as Hin by (apply elem_of_awaited; by split).
  rewrite Hn in Hin. by apply elem_of_nil in Hin.
Qed.

Lemma awaited_ffsll x i l : awaited x = i :: l → ffsll x = i + 1.
Proof. unfold awaited, ffsll. by intros ->. Qed.

(** Words without the bit of signal 63, the ones whose mask the loop can
    compute. *)
Definition shiftable (x : Z) : Prop := 0 <= x < 2 ^ 63.

Lemma shiftable_64 x : shiftable x → 0 <= x < 2 ^ 64.
Proof. unfold shiftable. lia. Qed.

Lemma shiftable_bits x : 0 <= x → (∀ j, 63 <= j → Z.testbit x j = false) → shiftable x.
Proof. intros. split; [done|]. by apply bits_bound. Qed.

Lemma shiftable_land x y : shiftable x → 0 <= y → shiftable (Z.land x y).
Proof.
  intros Hx Hy. apply shiftable_bits; [apply Z.land_nonneg; lia|]. intros j Hj.
  rewrite Z.land_spec, (testbit_high x 63) by (unfold shiftable in *; lia). done.
Qed.

Lemma awaited_low x i : shiftable x → i ∈ awaited x → 0 <= i < 63.
Proof.
  intros Hx [[Hi _] Hb]%elem_of_awaited. split; [done|]. destruct (Z.lt_ge_cases i 63); [done|].
  rewrite (testbit_high x 63) in Hb by (unfold shiftable in *; lia). done.
Qed.

(** ** The reference *)
Section scan.
Context {W : Type} `{TeeClient W}.

Definition clear_pending (p : Z) : R W unit :=
  modify (λ s, set_pending (Z.land (io_sigpending s) (unot 64 (BIT p))) s).

(** Poll each peripheral of the list in turn until one has a ready signal;
    those without requests are no longer awaited. *)
Fixpoint scan (l : list Z) : R W (Z * option (Z * Z)) :=
  match l with
  | [] => mret (0, None)
  | p :: l =>
      '(res, sub) ← poll_to_io_helper p;
      if res =? TEE_SUCCESS then mret (1, pair p <$> sub)
      else if res =? TEE_ERROR_NO_DATA then clear_pending p;; scan l
      else scan l
  end.

Lemma loop_scan fuel tmp (s : rstate W) : shiftable tmp → (length (awaited tmp) < fuel)%nat →
  loop fuel ready_round tmp s = scan (awaited tmp) s.
Proof.
  revert tmp s; induction fuel as [|fuel IH]; intros tmp s Ht Hf; [lia|]. cbn [loop]. unfold ready_round, truth.
  destruct (awaited tmp) as [|i l] eqn:E.
  { apply awaited_nil in E as ->; [done|by apply shiftable_64]. }
  assert (0 <= i < 63) as Hi. { apply (awaited_low tmp); [done|]. rewrite E. by left. }
  destruct (Z.eqb_spec tmp 0) as [->|_]; [done|]. cbn [negb]. rewrite (awaited_ffsll _ _ _ E).
  unfold one_shl. rewrite !(proj2 (Z.ltb_lt _ _)) by lia. replace (i + 1 - 1) with i by lia.
  assert (∀ s, loop fuel ready_round (Z.land tmp (unot 64 (u64 (BIT (i + 1) - 1)))) s = scan l s) as Hrest.
  { pose proof (awaited_next _ _ _ E Hi) as En. intros s'. rewrite <- En. apply IH.
    - apply shiftable_land; [done|apply unot_range; lia].
    - rewrite En. cbn in Hf. lia. }
  cbn [scan]. unfold mbind, M_bind, mret, M_ret.
  destruct (poll_to_io_helper i s) as [[res sub] s'| |]; [|done|done].
  destruct (res =? TEE_SUCCESS); [done|]. destruct (res =? TEE_ERROR_NO_DATA); apply Hrest.
Qed.

Lemma get_ready_signal_scan (s : rstate W) : shiftable (io_sigpending s) →
  get_ready_signal s = if io_sigpending s =? 0 then Ok (-1, None) s else scan (awaited (io_sigpending s)) s.
Proof.
  intros Hs. unfold get_ready_signal, truth, mbind, M_bind, gets.
  destruct (io_sigpending s =? 0); [done|]. cbn [negb]. apply loop_scan; [done|].
  pose proof (awaited_length (io_sigpending s)). unfold ready_fuel. lia.
Qed.
End scan.

(** ** The interface of the I/O helper

    What the runtime may rely on: the signals of each peripheral are free,
    busy or ready, only the service loops make a busy signal ready, and a poll
    reports the least ready signal, that some signal is in use, or that none
    is.  Service loops may run at any time, so a call may find signals that
    have become ready since. *)

Definition no_ready (f : Z → sig_state) : Prop := ∀ s, in_sig s → f s ≠ SigReady.
Definition unused (f : Z → sig_state) : Prop := ∀ s, in_sig s → f s = SigFree.
Definition least_ready (f : Z → sig_state) (s : Z) : Prop :=
  in_sig s ∧ f s = SigReady ∧ ∀ j, 0 <= j < s → f j ≠ SigReady.

Definition polled_as (f : Z → sig_state) (u : uparam) : Prop :=
  (∃ s, least_ready f s ∧ u = UValue 1 s)
  ∨ (no_ready f ∧ ¬ unused f ∧ u = UValue 1 0xFFFFFFFF)
  ∨ (unused f ∧ ∃ b, u = UValue 0 b).

Definition progress (f g : Z → Z → sig_state) : Prop :=
  ∀ p s, in_periph p → in_sig s → g p s = f p s ∨ f p s = SigBusy ∧ g p s = SigReady.

#[export] Instance progress_preorder : PreOrder progress.
Proof.
  split.
  - intros f p s _ _. by left.
  - intros f g h Hfg Hgh p s Hp Hs. destruct (Hfg p s Hp Hs) as [<-|[? Hg]]; [by apply Hgh|].
    right. split; [done|]. destruct (Hgh p s Hp Hs) as [->|[? ?]]; [done|congruence].
Qed.

Lemma progress_no_ready f g p : progress f g → in_periph p → no_ready (g p) → no_ready (f p).
Proof. intros Hfg Hp Hn s Hs Hf. apply (Hn s Hs). destruct (Hfg p s Hp Hs) as [->|[_ ?]]; done. Qed.
Lemma progress_unused f g p : progress f g → in_periph p → unused (g p) ↔ unused (f p).
Proof.
  intros Hfg Hp. split; intros Hu s Hs; destruct (Hfg p s Hp Hs) as [E|[E E']].
  - rewrite <- E. auto.
  - by rewrite (Hu s Hs) in E'.
  - rewrite E. auto.
  - by rewrite (Hu s Hs) in E.
Qed.

Class IoHelper (W : Type) `{TeeClient W} := {
  io_ok : W → Prop;
  io_sig : W → Z → Z → sig_state;
  io_open_ok w : io_ok w →
    ∃ w', tee_open w = Ok TEE_SUCCESS w' ∧ io_ok w' ∧ progress (io_sig w) (io_sig w');
  io_poll_ok w p : io_ok w → in_periph p →
    ∃ u w', tee_invoke PTA_IO_HELPER_CMD_POLL poll_types [UValue p 0; UNone; UNone; UNone] w
              = Ok (TEE_SUCCESS, [u; UNone; UNone; UNone]) w'
      ∧ io_ok w' ∧ progress (io_sig w) (io_sig w') ∧ polled_as (io_sig w' p) u;
  io_malloc_ok w : io_ok w →
    ∃ b w', runtime_malloc w = Ok b w' ∧ io_ok w' ∧ progress (io_sig w) (io_sig w')
}.

Section helper.
Context `{IoHelper W}.
Implicit Type s : rstate W.

Definition sig_now s : Z → Z → sig_state := io_sig (r_world s).
Definition awaits s (p : Z) : Prop := Z.testbit (io_sigpending s) p = true.

(** Only the session, the system and the awaited set may have changed. *)
Definition polls s s' : Prop :=
  ∃ b w x, s' = set_pending x (set_world w (set_sess b s)) ∧ io_ok w ∧ progress (sig_now s) (io_sig w).

#[export] Instance polls_trans : Transitive polls.
Proof.
  intros s1 s2 s3 (b&w&x&->&Hw&Hp) (b'&w'&x'&->&Hw'&Hp'). exists b', w', x'. split_and!; [done|done|by etrans].
Qed.
Lemma polls_refl s : io_ok (r_world s) → polls s s.
Proof. intros. exists (io_helper_sess s), (r_world s), (io_sigpending s). split_and!; [by destruct s|done|reflexivity]. Qed.

Lemma invoke_poll_ok s p : io_ok (r_world s) → in_periph p →
  ∃ u w, invoke_io_helper_pta PTA_IO_HELPER_CMD_POLL poll_types [UValue p 0; UNone; UNone; UNone] s
           = Ok (TEE_SUCCESS, [u; UNone; UNone; UNone]) (set_world w (set_sess true s))
    ∧ io_ok w ∧ progress (sig_now s) (io_sig w) ∧ polled_as (io_sig w p) u.
Proof.
  intros Hok Hp. unfold invoke_io_helper_pta, mbind, M_bind, gets.
  destruct (io_helper_sess s) eqn:Hsess; cbn.
  - destruct (io_poll_ok (r_world s) p Hok Hp) as (u&w&E&Hw&Hpr&Hu).
    exists u, w. unfold sys_call, zoom. rewrite E. split_and!; try done. by destruct s; cbn in Hsess |- *; subst.
  - destruct (io_open_ok (r_world s) Hok) as (w1&E1&Hw1&Hpr1). unfold sys_call, zoom. rewrite E1. cbn.
    destruct (io_poll_ok w1 p Hw1 Hp) as (u&w&E&Hw&Hpr&Hu). exists u, w. rewrite E. split_and!; try done. by etrans.
Qed.

(** What a poll says about the peripheral, as it then is. *)
Definition poll_says (f : Z → sig_state) (r : Z * option Z) : Prop :=
  (∃ q, least_ready f q ∧ r = (TEE_SUCCESS, Some q))
  ∨ (no_ready f ∧ ¬ unused f ∧ r = (TEE_ERROR_BUSY, None))
  ∨ (unused f ∧ r = (TEE_ERROR_NO_DATA, None)).

Lemma poll_to_io_helper_ok s p : io_ok (r_world s) → in_periph p →
  wp true (poll_to_io_helper p) (λ r s', polls s s' ∧ io_sigpending s' = io_sigpending s
    ∧ poll_says (sig_now s' p) r) s.
Proof.
  intros Hok Hp. unfold poll_to_io_helper. assert (u16 p = p) as ->.
  { unfold u16, in_periph, N_PERIPH in *. apply Z.mod_small. lia. }
  destruct (invoke_poll_ok s p Hok Hp) as (u&w&E&Hw&Hpr&Hu). wp_steps. unfold wp at 1. rewrite E. change (negb (TEE_SUCCESS =? TEE_SUCCESS)) with false. cbv iota beta.
  assert (polls s (set_world w (set_sess true s))) as Hpolls.
  { exists true, w, (io_sigpending s). split_and!; [by destruct s|done|done]. }
  destruct Hu as [(q&Hq&->)|[(Hn&Hu&->)|(Hu&b&->)]]; wp_steps; repeat uget1; first [change (1 =? 0) with false|change (0 =? 0) with true]; cbv iota; repeat uget1.
  - assert (0 <= q < 64) by apply Hq. rewrite (proj2 (Z.eqb_neq q _)) by lia.
    unfold N_SUB_SIG. rewrite (proj2 (Z.ltb_lt q 64)) by lia. wp_steps. split_and!; [done..|]. left. by exists q.
  - split_and!; [done..|]. right. by left.
  - split_and!; [done..|]. by right; right.
Qed.
(** ** The meaning of a scan *)

Definition before (sig : option (Z * Z)) (q : Z) : Prop :=
  match sig with Some (p, _) => q < p | None => True end.

(** The first peripheral of the list that has a ready signal when it is
    polled; those before it had none at the start, and those without requests
    are no longer awaited. *)
Record found (l : list Z) s (sig : option (Z * Z)) s' : Prop := {
  fd_polls : polls s s';
  fd_sig : match sig with Some (p, q) => p ∈ l ∧ least_ready (sig_now s' p) q | None => True end;
  fd_low q : q ∈ l → before sig q → no_ready (sig_now s q);
  fd_awaits q : 0 <= q → awaits s' q ↔ awaits s q ∧ ¬ (q ∈ l ∧ before sig q ∧ unused (sig_now s q))
}.

Lemma sig_now_polls s s' : polls s s' → progress (sig_now s) (sig_now s') ∧ io_ok (r_world s').
Proof. by intros (b&w&x&->&?&?). Qed.

Lemma found_later p l s s1 sig s' : in_periph p → Forall in_periph l → Forall (Z.lt p) l →
  polls s s1 → no_ready (sig_now s1 p) →
  (∀ q, 0 <= q → awaits s1 q ↔ awaits s q ∧ ¬ (q = p ∧ unused (sig_now s1 p))) →
  found l s1 sig s' → found (p :: l) s sig s'.
Proof.
  intros Hp Hl Hlt Hs1 Hno Haw [Hpolls Hsig Hlow Hrest]. destruct (sig_now_polls _ _ Hs1) as [Hpr _].
  rewrite Forall_forall in Hl, Hlt.
  assert (before sig p) as Hbp.
  { destruct sig as [[p' q']|]; [|done]. apply Hlt, Hsig. }
  split.
  - by etrans.
  - destruct sig as [[p' q']|]; [|done]. destruct Hsig. split; [by right|done].
  - intros q [->|Hq]%elem_of_cons Hb; eapply progress_no_ready; eauto.
  - intros q Hq. rewrite Hrest, Haw by done. rewrite elem_of_cons. split.
    + intros [[Ha Hn] Hn']. split; [done|]. intros [[->|Hin] [Hb Hu]].
      * apply Hn. split; [done|]. by apply (progress_unused _ _ _ Hpr Hp).
      * apply Hn'. split_and!; [done|done|]. by apply (progress_unused _ _ _ Hpr (Hl _ Hin)).
    + intros [Ha Hn]. split; [split; [done|]|].
      * intros [-> Hu]. apply Hn. split_and!; [by left|done|]. by apply (progress_unused _ _ _ Hpr Hp).
      * intros (Hin&Hb&Hu). apply Hn. split_and!; [by right|done|]. by apply (progress_unused _ _ _ Hpr (Hl _ Hin)).
Qed.

Lemma clear_awaits s p q : in_periph p → 0 <= q →
  Z.testbit (Z.land (io_sigpending s) (unot 64 (BIT p))) q = true ↔ awaits s q ∧ q ≠ p ∧ q < 64.
Proof.
  intros [Hp _] Hq. unfold awaits. rewrite Z.land_spec, unot_spec, BIT_spec by lia.
  rewrite !andb_true_iff, negb_true_iff, Z.eqb_neq, Z.ltb_lt. tauto.
Qed.

Lemma scan_found l s : io_ok (r_world s) → shiftable (io_sigpending s) → Forall in_periph l →
  StronglySorted Z.lt l → wp true (scan l) (λ '(r, sig) s', found l s sig s'
    ∧ r = match sig with Some _ => 1 | None => 0 end ∧ shiftable (io_sigpending s')) s.
Proof.
  revert s; induction l as [|p l IH]; intros s Hok Hsh Hl Hs; cbn [scan].
  { wp_steps. split_and!; [|done|done]. split; [by apply polls_refl|done|by intros q ?%elem_of_nil|].
    intros q _. split; [|tauto]. intros Ha. split; [done|]. by intros [?%elem_of_nil _]. }
  apply Forall_cons in Hl as [Hp Hl]. apply StronglySorted_inv in Hs as [Hs Hlt]. wp_steps.
  eapply wp_mono; [by apply (poll_to_io_helper_ok s p)|]. intros r s1 (Hpolls&Hpend&Hsay).
  destruct (sig_now_polls _ _ Hpolls) as [Hpr Hok1].
  destruct Hsay as [(q&Hq&->)|[(Hno&Hu&->)|(Hu&->)]]; cbn [fst snd Z.eqb TEE_SUCCESS TEE_ERROR_BUSY TEE_ERROR_NO_DATA Pos.eqb].
  - wp_steps. split_and!; [|done|by rewrite Hpend]. split; cbn [fmap option_fmap option_map before].
    + done.
    + split; [by left|done].
    + intros j [->|Hj]%elem_of_cons ?; [lia|]. rewrite Forall_forall in Hlt. apply Hlt in Hj. lia.
    + intros j Hj. unfold awaits. rewrite Hpend. split; [|tauto]. intros Ha. split; [done|].
      intros [[->|Hj']%elem_of_cons [? _]]; [lia|]. rewrite Forall_forall in Hlt. apply Hlt in Hj'. lia.
  - eapply wp_mono; [apply IH; [done|by rewrite Hpend|done|done]|]. intros [r sig] s' (Hf&Hr&Hs'). split_and!; [|done|done].
    eapply found_later; eauto. intros j Hj. unfold awaits. rewrite Hpend. intuition congruence.
  - unfold clear_pending. wp_steps. set (s2 := set_pending _ s1).
    assert (polls s s2) as Hp2.
    { etrans; [exact Hpolls|]. exists (io_helper_sess s1), (r_world s1), (io_sigpending s2).
      split_and!; [by destruct s1|done|reflexivity]. }
    assert (shiftable (io_sigpending s2)) as Hs2.
    { cbn. apply shiftable_land; [by rewrite Hpend|apply unot_range; lia]. }
    eapply wp_mono; [apply IH; done|]. intros [r sig] s' (Hf&Hr&Hs'). split_and!; [|done|done].
    eapply found_later; eauto.
    + intros j Hj Hrdy. change (sig_now s1 p j = SigReady) in Hrdy. by rewrite (Hu j Hj) in Hrdy.
    + intros j Hj. unfold awaits at 1. cbn [io_sigpending s2 set_pending]. rewrite clear_awaits by done.
      unfold awaits. rewrite Hpend. split; [intros (Ha&Hne&_); split; [done|tauto]|intros [Ha Hn]].
        split_and!; [done|intros ->; apply Hn; by split|].
        destruct (Z.lt_ge_cases j 64); [done|]. by rewrite (testbit_high _ 64) in Ha by (apply shiftable_64 in Hsh; lia).
Qed.

(** [get_ready_signal] finds the least awaited peripheral that has a ready
    signal. *)
Lemma get_ready_signal_ok s : io_ok (r_world s) → shiftable (io_sigpending s) →
  wp true get_ready_signal (λ '(r, sig) s', found (awaited (io_sigpending s)) s sig s'
    ∧ r = match sig with Some _ => 1 | None => if io_sigpending s =? 0 then -1 else 0 end
    ∧ shiftable (io_sigpending s')) s.
Proof.
  intros Hok Hsh. unfold wp. rewrite get_ready_signal_scan by done.
  assert (Forall in_periph (awaited (io_sigpending s))) as Hl.
  { apply Forall_forall. by intros q [? _]%elem_of_awaited. }
  destruct (Z.eqb_spec (io_sigpending s) 0) as [E|E].
  - rewrite E. split_and!; [|done|done]. split; [by apply polls_refl|done|by intros q ?%elem_of_nil|].
    intros q _. split; [|tauto]. intros Ha. split; [done|]. by intros [?%elem_of_nil _].
  - pose proof (scan_found _ s Hok Hsh Hl (awaited_sorted _)) as Hw. unfold wp in Hw.
    destruct (scan _ s) as [[r sig] s'| |]; [|done|done]. by destruct Hw as (?&->&?), sig.
Qed.
End helper.
