(* ===== verification/RuntimeProofs.v ===== *)
(** * Handlers: registration, dispatch, whole runs

    The invariant of the signal table ([rt_wf]): table and function instances
    agree (none leaks, none dangles), awaited signals are masked while a
    handler runs, and each entry holds the handler registered last.  Every
    operation keeps it, and so does every application whose native functions
    keep it. *)

From Stdlib Require Import ZArith Lia Bool.
From stdpp Require Import base tactics option list numbers gmap.
From S2P Require Import Prelude Platform Params IoState IoSignal IoSignalProofs Runtime RuntimeScan.

Open Scope Z_scope.

(** ** The table *)

Definition no_row : io_sigentry := SigRow FNull 0 0.
Definition row_of (t : list (list io_sigentry)) (p q : Z) : io_sigentry :=
  default no_row (default [] (t !! Z.to_nat p) !! Z.to_nat q).
Definition rows_ok (t : list (list io_sigentry)) : Prop :=
  length t = 64%nat ∧ Forall (λ r, length r = 64%nat) t.
Definition put_row (t : list (list io_sigentry)) (p q : Z) (e : io_sigentry) : list (list io_sigentry) :=
  alter (insert (Z.to_nat q) e) (Z.to_nat p) t.

Lemma rows_lookup t p q : rows_ok t → in_periph p → in_sig q →
  ∃ r, t !! Z.to_nat p = Some r ∧ length r = 64%nat ∧ r !! Z.to_nat q = Some (row_of t p q).
Proof.
  intros [Hl Hr] Hp Hq. unfold in_periph, in_sig, N_PERIPH, N_SUB_SIG in *.
  destruct (t !! Z.to_nat p) as [r|] eqn:E; [|apply lookup_ge_None in E; lia].
  assert (length r = 64%nat) as Hlr by (rewrite Forall_lookup in Hr; by eapply Hr).
  exists r. split_and!; [done|done|]. unfold row_of. rewrite E. cbn.
  destruct (r !! Z.to_nat q) eqn:E'; [done|]. apply lookup_ge_None in E'. lia.
Qed.

Lemma put_row_ok t p q e : rows_ok t → rows_ok (put_row t p q e).
Proof.
  intros [Hl Hr]. split; [unfold put_row; by rewrite length_alter|]. unfold put_row.
  apply Forall_alter; [done|]. intros r Hin Hlen. by rewrite length_insert.
Qed.

Lemma row_of_put t p q e p' q' : rows_ok t → in_periph p → in_sig q → in_periph p' → in_sig q' →
  row_of (put_row t p q e) p' q' = if decide (p' = p ∧ q' = q) then e else row_of t p' q'.
Proof.
  intros Ht Hp Hq Hp' Hq'. destruct (rows_lookup t p q Ht Hp Hq) as (r&Hr&Hlr&_).
  unfold row_of, put_row, in_periph, in_sig, N_PERIPH, N_SUB_SIG in *. destruct (decide (p' = p)) as [->|Hne].
  - rewrite list_lookup_alter_eq, Hr. cbn. destruct (decide (q' = q)) as [->|Hne].
    + rewrite list_lookup_insert_eq by lia. by rewrite decide_True.
    + rewrite list_lookup_insert_ne by lia. by rewrite decide_False by tauto.
  - rewrite list_lookup_alter_ne by lia. by rewrite decide_False by tauto.
Qed.

Section rows.
Context {W : Type} `{TeeClient W} (s : rstate W) (Ht : rows_ok (io_sigtable s)).
Context (p q : Z) (Hp : in_periph p) (Hq : in_sig q).

Lemma wp_sig_row t (Q : io_sigentry → rstate W → Prop) :
  Q (row_of (io_sigtable s) p q) s → wp t (sig_row p q) Q s.
Proof using All.
  intros HQ. destruct (rows_lookup _ p q Ht Hp Hq) as (r&Hr&Hl&Hx). unfold sig_row. wp_steps.
  eapply wp_arr_get; [apply Hp|exact Hr|]. eapply wp_arr_get; [apply Hq|exact Hx|done].
Qed.

Lemma wp_set_sig_row t e (Q : () → rstate W → Prop) :
  Q tt (set_table (put_row (io_sigtable s) p q e) s) → wp t (set_sig_row p q e) Q s.
Proof using All.
  intros HQ. destruct (rows_lookup _ p q Ht Hp Hq) as (r&Hr&Hl&_). unfold set_sig_row. wp_steps.
  unfold in_periph, in_sig, N_PERIPH, N_SUB_SIG in *.
  eapply wp_arr_get; [lia|exact Hr|]. wp_steps. apply wp_arr_set; [rewrite Hl; lia|]. wp_steps.
  apply wp_arr_set; [destruct Ht as [-> _]; lia|]. wp_steps.
  rewrite (list_insert_alter (io_sigtable s)). unfold put_row in HQ.
  erewrite list_alter_ext; [exact HQ| |done]. intros x Hx. congruence.
Qed.
End rows.

(** ** Modules *)

(** A function whose type and code the module has. *)
Definition valid_func (m : module_inst) (e : Z) : Prop :=
  0 <= e ∧ ∃ ty t c, 0 <= ty ∧ func_type_indexes m !! Z.to_nat e = Some ty
    ∧ func_types m !! Z.to_nat ty = Some t ∧ func_ptrs m !! Z.to_nat e = Some c.

(** What the loader guarantees: the elements of the table are functions. *)
Definition module_ok (m : module_inst) : Prop :=
  match module_type m with
  | Wasm_Module_AoT => ∃ t, table0 m = Some t ∧ ∀ e, e ∈ t → e ≠ NULL_REF → valid_func m e
  | Wasm_Module_Bytecode => ∀ t e, table0 m = Some t → e ∈ t → 0 <= e < 2 ^ 32
  end.

(** The function element [i] of the table stands for. *)
Definition element (m : module_inst) (i e : Z) : Prop :=
  ∃ t, table0 m = Some t ∧ t !! Z.to_nat i = Some e ∧ e ≠ NULL_REF.

(** An instance that belongs to function [e] of the module. *)
Definition instance_of (m : module_inst) (funcs : gmap Z aot_func) (f : func_ref) (e : Z) : Prop :=
  match f with
  | FNull => True
  | FInst i => module_type m = Wasm_Module_Bytecode ∧ i = e ∧ 0 <= e < 2 ^ 32
  | FBlk id => module_type m = Wasm_Module_AoT ∧ valid_func m e
      ∧ ∃ a, funcs !! id = Some a ∧ af_index a = e ∧ func_ptrs m !! Z.to_nat e = Some (af_ptr a)
  end.

(** ** History *)

Fixpoint latest (log : list r_event) (p q : Z) : func_ref :=
  match log with
  | [] => FNull
  | R_register p' q' f :: l => if decide (p = p' ∧ q = q') then f else latest l p q
  | _ :: l => latest l p q
  end.

(** Handlers called and not yet returned. *)
Fixpoint call_depth (log : list r_event) : Z :=
  match log with
  | [] => 0
  | R_call _ _ _ :: l => call_depth l + 1
  | R_return :: l => call_depth l - 1
  | R_register _ _ _ :: l => call_depth l
  end.

(** Each call is to the handler registered last for its signal, and no
    handler is called while another one runs. *)
Fixpoint calls_ok (log : list r_event) : Prop :=
  match log with
  | [] => True
  | R_call f p q :: l => f = latest l p q ∧ f ≠ FNull ∧ call_depth l = 0 ∧ calls_ok l
  | _ :: l => calls_ok l
  end.

Definition registers (l : list r_event) : Prop :=
  Forall (λ e, match e with R_register _ _ _ => True | _ => False end) l.

Lemma registers_app l log : registers l →
  call_depth (l ++ log) = call_depth log ∧ (calls_ok log → calls_ok (l ++ log)).
Proof. induction 1 as [|[] l He Hl IH]; try done; cbn; tauto. Qed.

(** ** The invariant *)
Section invariant.
Context `{IoHelper W} (m : module_inst).
Implicit Type s : rstate W.

(** The signals whose handlers are due, wherever they are kept. *)
Definition awaiting s : Z := if in_handler s =? 0 then io_sigpending s else recover_io_sigpending s.
Definition row s (p q : Z) : io_sigentry := row_of (io_sigtable s) p q.
Definition handler s (p q : Z) : func_ref := function (row s p q).

Record rt_wf s : Prop := {
  rw_rows : rows_ok (io_sigtable s);
  rw_mask : in_handler s = 0 ∨ in_handler s = 1 ∧ io_sigpending s = 0;
  rw_await : shiftable (awaiting s);
  rw_io : io_ok (r_world s);
  rw_inst p q : in_periph p → in_sig q → instance_of m (r_funcs s) (handler s p q) (func_idx (row s p q));
  rw_inj p q p' q' id : in_periph p → in_sig q → in_periph p' → in_sig q' →
    handler s p q = FBlk id → handler s p' q' = FBlk id → p = p' ∧ q = q';
  rw_live id a : r_funcs s !! id = Some a →
    id < r_fresh s ∧ ∃ p q, in_periph p ∧ in_sig q ∧ handler s p q = FBlk id;
  rw_log p q : in_periph p → in_sig q → latest (r_log s) p q = handler s p q
}.

(** ** Registration *)

(** The instances after the entry's old one was freed and [f] stored. *)
Record swapped s (p q : Z) (f : func_ref) (G : gmap Z aot_func) (n : Z) : Prop := {
  sw_new id : f = FBlk id → id = r_fresh s ∧ id < n;
  sw_live id a : G !! id = Some a →
    f = FBlk id ∨ r_funcs s !! id = Some a ∧ handler s p q ≠ FBlk id;
  sw_kept id : handler s p q ≠ FBlk id → id ≠ r_fresh s → G !! id = r_funcs s !! id;
  sw_fresh : r_fresh s <= n
}.

Lemma rt_wf_put s s' p q f i e G n : rt_wf s → in_periph p → in_sig q →
  swapped s p q f G n → instance_of m G f e →
  io_sigtable s' = put_row (io_sigtable s) p q (SigRow f i e) →
  r_funcs s' = G → r_fresh s' = n → r_log s' = R_register p q f :: r_log s →
  (in_handler s' = 0 ∨ in_handler s' = 1 ∧ io_sigpending s' = 0) →
  shiftable (awaiting s') → io_ok (r_world s') → rt_wf s'.
Proof.
  intros [Hrows _ _ _ Hinst Hinj Hlive Hlog] Hp Hq [Hnew Hsl Hkept Hfr] Hf Et EG En El Hmask Haw Hio.
  assert (∀ p' q', in_periph p' → in_sig q' →
    row s' p' q' = if decide (p' = p ∧ q' = q) then SigRow f i e else row s p' q') as Hrow.
  { intros. unfold row. rewrite Et. by apply row_of_put. }
  assert (∀ p' q' id, in_periph p' → in_sig q' → handler s p' q' = FBlk id → id < r_fresh s) as Hlt.
  { intros p' q' id Hp' Hq' Hh. specialize (Hinst p' q' Hp' Hq'). rewrite Hh in Hinst.
    destruct Hinst as (_&_&a&Ha&_). by destruct (Hlive _ _ Ha). }
  split; try done; [by rewrite Et; apply put_row_ok|..].
  - intros p' q' Hp' Hq'. unfold handler. rewrite Hrow, EG by done. case_decide as Hc; [done|].
    specialize (Hinst p' q' Hp' Hq'). unfold handler in *.
    destruct (function (row s p' q')) as [|j|id] eqn:E; [done|done|].
    destruct Hinst as (?&?&a&Ha&?&?). split_and!; [done|done|]. exists a. split_and!; try done.
    rewrite Hkept; [done| |].
    + intros Hpq. destruct (Hinj p q p' q' id) as [-> ->]; try done. by apply Hc.
    + pose proof (Hlt p' q' id Hp' Hq' E). lia.
  - intros p1 q1 p2 q2 id Hp1 Hq1 Hp2 Hq2. unfold handler. rewrite !Hrow by done.
    destruct (decide (p1 = p ∧ q1 = q)) as [[-> ->]|]; destruct (decide (p2 = p ∧ q2 = q)) as [[-> ->]|]; cbn [function].
    + done.
    + intros Hid E. apply Hnew in Hid. pose proof (Hlt _ _ _ Hp2 Hq2 E). lia.
    + intros E Hid. apply Hnew in Hid. pose proof (Hlt _ _ _ Hp1 Hq1 E). lia.
    + by apply Hinj.
  - intros id a. rewrite EG, En. intros [Hid|[Ha Hold]]%Hsl.
    + split; [by apply Hnew|]. exists p, q. split_and!; [done|done|]. unfold handler. by rewrite Hrow, decide_True by done.
    + destruct (Hlive _ _ Ha) as [? (p'&q'&Hp'&Hq'&Hh)]. split; [lia|]. exists p', q'. split_and!; [done|done|].
      unfold handler. rewrite Hrow by done. case_decide as Hc; [|done]. destruct Hc as [-> ->]. done.
  - intros p' q' Hp' Hq'. rewrite El. cbn [latest]. unfold handler. rewrite Hrow by done.
    case_decide; [done|]. by apply Hlog.
Qed.

(** An index that is found: for a compiled module, as long as there is memory
    for the instance. *)
Definition findable (i : Z) : Prop :=
  match module_type m with
  | Wasm_Module_Bytecode => wasm_get_indirect_function m i ≠ None
  | Wasm_Module_AoT => (∃ e, element m i e) ∧ ∀ w, io_ok w → ∃ w', runtime_malloc w = Ok true w'
  end.

(** What the look-up of a handler gives. *)
Definition looked_up s (i : Z) (f : func_ref) (s1 : rstate W) : Prop :=
  ∃ w G n, s1 = set_funcs G n (set_world w s) ∧ io_ok w ∧ progress (sig_now s) (io_sig w)
    ∧ match f with
      | FNull => G = r_funcs s ∧ n = r_fresh s ∧ ¬ findable i
      | FInst e => G = r_funcs s ∧ n = r_fresh s ∧ module_type m = Wasm_Module_Bytecode
                   ∧ element m i e ∧ 0 <= e < 2 ^ 32
      | FBlk id => id = r_fresh s ∧ n = r_fresh s + 1 ∧ module_type m = Wasm_Module_AoT
          ∧ ∃ a, G = <[id := a]> (r_funcs s) ∧ element m i (af_index a) ∧ valid_func m (af_index a)
            ∧ func_ptrs m !! Z.to_nat (af_index a) = Some (af_ptr a)
      end.

Lemma looked_up_none s i : io_ok (r_world s) → ¬ findable i → looked_up s i FNull s.
Proof.
  intros. exists (r_world s), (r_funcs s), (r_fresh s). split_and!; try done. by destruct s.
Qed.

Lemma lookup_handler_ok s i : module_ok m → io_ok (r_world s) →
  wp true (wasm_runtime_get_indirect_function m i) (looked_up s i) s.
Proof.
  intros Hm Hio. unfold wasm_runtime_get_indirect_function. unfold module_ok in Hm.
  pose proof (looked_up_none s i Hio) as Hnone. unfold findable in Hnone. destruct (module_type m) eqn:Em.
  - destruct Hm as (t&Et&Hel). unfold aot_get_indirect_function. rewrite Et. wp_steps.
    destruct (t !! Z.to_nat i) as [e|] eqn:Ee; wp_steps; [|apply Hnone; intros [(e&t'&Et'&Ee'&_) _]; congruence].
    destruct (Z.eqb_spec e NULL_REF) as [|Hne]; wp_steps; [apply Hnone; intros [(e'&t'&Et'&Ee'&?) _]; congruence|].
    pose proof (Hel e (list_elem_of_lookup_2 _ _ _ Ee) Hne) as Hv. destruct Hv as (He&ty&ft&c&Hty&E1&E2&E3).
    eapply wp_arr_get; [done|exact E1|]. wp_steps. eapply wp_arr_get; [done|exact E2|]. wp_steps.
    eapply wp_arr_get; [done|exact E3|]. wp_steps.
    destruct (io_malloc_ok (r_world s) Hio) as (b&w&E&Hw&Hpr). unfold sys_call, wp at 1, zoom. rewrite E.
    destruct b; wp_steps.
    + exists w, (<[r_fresh s := AotFunc e ft c]> (r_funcs s)), (r_fresh s + 1). cbn. split_and!; try done.
      exists (AotFunc e ft c). cbn. split_and!; try done; [by exists t|]. split; [done|]. by exists ty, ft, c.
    + exists w, (r_funcs s), (r_fresh s). split_and!; try done. unfold findable. rewrite Em. intros [_ Hplenty].
      destruct (Hplenty _ Hio). congruence.
  - wp_steps. destruct (wasm_get_indirect_function m i) as [e|] eqn:El; [|apply Hnone; congruence].
    clear Hnone. unfold wasm_get_indirect_function in El. destruct (table0 m) as [t|] eqn:Et; [|done]. cbn in El.
    destruct (t !! Z.to_nat i) as [e'|] eqn:Ee; [|done]. cbn in El.
    destruct (Z.eqb_spec e' NULL_REF) as [|Hne]; [done|]. destruct (_ <=? _); [done|]. cbn in El.
    injection El as ->. cbn [from_option]. exists (r_world s), (r_funcs s), (r_fresh s). split_and!; try done; [by destruct s|by exists t|..];
      by apply (Hm t e eq_refl (list_elem_of_lookup_2 _ _ _ Ee)).
Qed.

(** The effect of a registration. *)
Record registered s (p q i : Z) (s' : rstate W) : Prop := {
  rg_wf : rt_wf s';
  rg_other p' q' : in_periph p' → in_sig q' → ¬ (p' = p ∧ q' = q) → row s' p' q' = row s p' q';
  rg_fun : handler s' p q ≠ FNull → element m i (func_idx (row s' p q));
  rg_null : handler s' p q = FNull → ¬ findable i;
  rg_await : awaiting s' = Z.setbit (awaiting s) p;
  rg_in : in_handler s' = in_handler s;
  rg_prog : progress (sig_now s) (sig_now s');
  rg_log : r_log s' = R_register p q (handler s' p q) :: r_log s
}.

Lemma lookup_swapped s i f s1 p q : rt_wf s → in_periph p → in_sig q → looked_up s i f s1 →
  swapped s p q f (match handler s p q with FBlk id => delete id (r_funcs s1) | _ => r_funcs s1 end) (r_fresh s1)
  ∧ (f = FNull ∨ ∃ e, instance_of m (match handler s p q with FBlk id => delete id (r_funcs s1) | _ => r_funcs s1 end) f e
       ∧ element m i e ∧ wp true (wasm_runtime_get_function_idx m f) (λ x s2, x = e ∧ s2 = s1) s1).
Proof.
  intros Hwf Hp Hq (w&G&n&->&Hw&Hpr&Hf). cbn [r_funcs r_fresh set_funcs].
  assert (∀ id, handler s p q = FBlk id → id < r_fresh s) as Hlt.
  { intros id Hh. pose proof (rw_inst _ Hwf p q Hp Hq) as Hi. rewrite Hh in Hi.
    destruct Hi as (_&_&a&Ha&_). by destruct (rw_live _ Hwf _ _ Ha). }
  assert (∀ id, handler s p q ≠ FBlk id →
    match handler s p q with FBlk id => delete id G | _ => G end !! id = G !! id) as Hget.
  { intros id Hne. destruct (handler s p q) as [| |o]; [done|done|]. apply lookup_delete_ne. congruence. }
  assert (∀ id a, match handler s p q with FBlk id => delete id G | _ => G end !! id = Some a →
    handler s p q ≠ FBlk id ∧ G !! id = Some a) as Hget'.
  { intros id a Ha. destruct (handler s p q) as [| |o]; [done|done|].
    apply lookup_delete_Some in Ha as [? ?]. split; [congruence|done]. }
  destruct f as [|e|id].
  - destruct Hf as (->&->&_). split; [|by left]. split; [done| |by auto|lia]. intros id a [? ?]%Hget'. by right.
  - destruct Hf as (->&->&Hm&He&Hr). split; [|right].
    + split; [done| |by auto|lia]. intros id a [? ?]%Hget'. by right.
    + exists e. split_and!; [done|done|]. unfold wasm_runtime_get_function_idx. rewrite Hm.
      wp_steps. split; [|done]. apply Z.mod_small. lia.
  - destruct Hf as (->&->&Hm&a&->&He&Hv&Hc). assert (handler s p q ≠ FBlk (r_fresh s)) as Hne.
    { intros Hh%Hlt. lia. }
    split; [|right].
    + split; [intros id [= <-]; split; lia| | |lia].
      * intros id a' [Ho Ha]%Hget'. destruct (decide (id = r_fresh s)) as [->|]; [by left|].
        right. by rewrite lookup_insert_ne in Ha by done.
      * intros id Ho Hid. rewrite Hget by done. by rewrite lookup_insert_ne by done.
    + exists (af_index a). split_and!; [|done|].
      * split_and!; [done|done|]. exists a. split_and!; [|done|done]. rewrite Hget by done. apply lookup_insert_eq.
      * unfold wasm_runtime_get_function_idx, func_load. rewrite Hm. wp_steps. cbn [r_funcs set_funcs].
        rewrite lookup_insert_eq. wp_steps. done.
Qed.

(** The old entry's instance is still there when it is replaced. *)
Lemma old_instance s i f s1 p q : rt_wf s → in_periph p → in_sig q → looked_up s i f s1 →
  instance_of m (r_funcs s1) (handler s p q) (func_idx (row s p q)).
Proof.
  intros Hwf Hp Hq (w&G&n&->&_&_&Hf). cbn [r_funcs set_funcs].
  pose proof (rw_inst _ Hwf p q Hp Hq) as Hi. destruct (handler s p q) as [|j|o]; [done|done|].
  destruct Hi as (?&?&a&Ha&?). split_and!; [done|done|]. exists a. split; [|done].
  destruct f as [|e|id]; [by destruct Hf as [-> _]|by destruct Hf as [-> _]|].
  destruct Hf as (->&_&_&a'&->&_). rewrite lookup_insert_ne; [done|].
  destruct (rw_live _ Hwf _ _ Ha). lia.
Qed.

Definition drop_old (f : func_ref) s : rstate W :=
  match f with FBlk id => set_funcs (delete id (r_funcs s)) (r_fresh s) s | _ => s end.

Lemma free_old_ok s f e (Q : unit → rstate W → Prop) : instance_of m (r_funcs s) f e → Q tt (drop_old f s) →
  wp true (match module_type m with
           | Wasm_Module_AoT => if decide (f = FNull) then mret () else wasm_runtime_free f
           | Wasm_Module_Bytecode => mret () end) Q s.
Proof.
  intros Hi HQ. destruct f as [|j|o]; cbn [instance_of drop_old] in Hi, HQ.
  - by destruct (module_type m).
  - by destruct Hi as [-> _].
  - destruct Hi as (->&_&a&Ha&_). rewrite decide_False by done. unfold wasm_runtime_free, func_load.
    wp_steps. rewrite Ha. by wp_steps.
Qed.

Lemma function_idx_ok s f e (Q : Z → rstate W → Prop) : instance_of m (r_funcs s) f e →
  (∀ x, Q x s) → wp true (if decide (f = FNull) then mret 0 else wasm_runtime_get_function_idx m f) Q s.
Proof.
  intros Hi HQ. destruct f as [|j|o]; cbn [instance_of] in Hi; [apply HQ| |]; rewrite decide_False by done;
    unfold wasm_runtime_get_function_idx.
  - destruct Hi as [-> _]. apply HQ.
  - destruct Hi as (->&_&a&Ha&_). unfold func_load. wp_steps. rewrite Ha. wp_steps. apply HQ.
Qed.

Lemma set_pending_ok s p (Q : unit → rstate W → Prop) : 0 <= p < 63 →
  Q tt (if 0 <? in_handler s then set_recover (Z.setbit (recover_io_sigpending s) p) s
        else set_pending (Z.setbit (io_sigpending s) p) s) →
  wp true (set_signal_pending p) Q s.
Proof.
  intros Hp HQ. unfold set_signal_pending, one_shl. rewrite (proj2 (Z.ltb_lt p 64)) by lia. wp_steps.
  destruct (0 <? in_handler s); wp_steps; by rewrite lor_bit.
Qed.

Lemma shiftable_setbit x p : shiftable x → 0 <= p < 63 → shiftable (Z.setbit x p).
Proof.
  intros Hx Hp. apply shiftable_bits.
  - apply Z.bits_iff_nonneg_ex. exists 63. intros j Hj. rewrite Z.setbit_eqb, (testbit_high x 63) by (unfold shiftable in *; lia).
    rewrite orb_false_r. apply Z.eqb_neq. lia.
  - intros j Hj. rewrite Z.setbit_eqb, (testbit_high x 63) by (unfold shiftable in *; lia).
    rewrite orb_false_r. apply Z.eqb_neq. lia.
Qed.

Lemma register_ok s p q i : module_ok m → rt_wf s → 0 <= p < 63 → in_sig q → 0 < i →
  wp true (tzio_register_handler (Some m) p q i) (λ r s', r = 0 ∧ registered s p q i s') s.
Proof.
  intros Hm Hwf Hp63 Hq Hi. assert (in_periph p) as Hp by (unfold in_periph, N_PERIPH; lia).
  unfold tzio_register_handler. unfold in_sig, N_SUB_SIG in Hq.
  rewrite (proj2 (Z.ltb_ge N_SIG p)), (proj2 (Z.ltb_ge N_SUB_SIG q)), (proj2 (Z.eqb_neq i 0))
    by (unfold N_SIG, N_SUB_SIG; lia). cbn [orb]. wp_steps.
  eapply wp_mono; [apply lookup_handler_ok; [done|apply Hwf]|]. intros f s1 Hf. wp_steps.
  destruct (lookup_swapped s i f s1 p q Hwf Hp Hq Hf) as [Hsw Hnew].
  pose proof (old_instance s i f s1 p q Hwf Hp Hq Hf) as Hold.
  set (F := match handler s p q with FBlk id => delete id (r_funcs s1) | _ => r_funcs s1 end) in *.
  assert (wp true (if decide (f = FNull) then mret 0 else wasm_runtime_get_function_idx m f)
    (λ e s2, s2 = s1 ∧ instance_of m F f e ∧ (f = FNull ∨ element m i e)) s1) as Hidx.
  { destruct Hnew as [->|(e&He&Hel&Hg)]; [by split_and!; auto|].
    destruct (decide (f = FNull)) as [->|]; [by split_and!; auto|]. eapply wp_mono; [exact Hg|]. intros x s2 [-> ->]. auto. }
  eapply wp_mono; [exact Hidx|]. intros e s2 (->&He&Hel). wp_steps.
  assert (io_sigtable s1 = io_sigtable s) as Et by (by destruct Hf as (w&G&n&->&_)).
  apply wp_sig_row; [rewrite Et; apply Hwf|done|done|]. rewrite Et. fold (row s p q). fold (handler s p q). wp_steps.
  eapply function_idx_ok; [exact Hold|]. intros _. wp_steps. eapply free_old_ok; [exact Hold|]. wp_steps.
  set (s3 := drop_old (handler s p q) s1).
  assert (s3 = set_funcs F (r_fresh s1) s1) as Hs3.
  { unfold s3, drop_old, F. destruct (handler s p q); [by destruct s1|by destruct s1|done]. }
  assert (io_sigtable s3 = io_sigtable s) as Et3 by (by rewrite Hs3).
  apply wp_set_sig_row; [rewrite Et3; apply Hwf|done|done|]. wp_steps. apply set_pending_ok; [done|].
  rewrite Hs3. clear Hs3 Et3 s3. wp_steps.
  match goal with |- _ ∧ registered _ _ _ _ ?x => set (s4 := x) end. split; [done|]. destruct Hf as (w&G&n&->&Hw&Hpr&Hnull).
  assert (awaiting s4 = Z.setbit (awaiting s) p ∧ in_handler s4 = in_handler s
    ∧ (in_handler s4 = 0 ∨ in_handler s4 = 1 ∧ io_sigpending s4 = 0)
    ∧ io_sigtable s4 = put_row (io_sigtable s) p q (SigRow f i e) ∧ r_funcs s4 = F ∧ r_fresh s4 = n
    ∧ r_log s4 = R_register p q f :: r_log s ∧ r_world s4 = w) as (Ea&Eh&Emask&E1&E2&E3&E4&E5).
  { unfold s4, awaiting. cbn. destruct (rw_mask _ Hwf) as [Hh|[Hh Hz]]; rewrite Hh; cbn;
      rewrite ?Hh; cbn; split_and!; auto. }
  assert (rt_wf s4) as Hwf4.
  { eapply (rt_wf_put s s4 p q f i e F n); try done; [|by rewrite E5]. rewrite Ea.
    apply shiftable_setbit; [apply Hwf|done]. }
  assert (∀ p' q', in_periph p' → in_sig q' →
    row s4 p' q' = if decide (p' = p ∧ q' = q) then SigRow f i e else row s p' q') as Hrow.
  { intros. unfold row. rewrite E1. apply row_of_put; try done. apply Hwf. }
  split; try done.
  - intros p' q' Hp' Hq' Hne. rewrite Hrow by done. by rewrite decide_False.
  - unfold handler. rewrite Hrow, decide_True by done. cbn. naive_solver.
  - unfold handler. rewrite Hrow, decide_True by done. cbn. intros ->. apply Hnull.
  - unfold sig_now. by rewrite E5.
  - unfold handler. rewrite Hrow, decide_True by done. done.
Qed.

(** ** Coverage *)

(** The peripherals the application uses with handlers only. *)
Context (managed : Z → Prop).

(** Only managed peripherals are awaited, and every request under way on one
    of them has a handler. *)
Record covered s : Prop := {
  cv_await p : in_periph p → Z.testbit (awaiting s) p = true → managed p;
  cv_handler p q : in_periph p → in_sig q → managed p → sig_now s p q ≠ SigFree → handler s p q ≠ FNull
}.

Lemma rt_wf_init w : io_ok w → (∀ p, in_periph p → managed p → unused (io_sig w p)) →
  rt_wf (r_init w) ∧ covered (r_init w).
Proof.
  intros Hw Hun. assert (∀ p q, row (r_init w) p q = no_row) as Hrow.
  { intros p q. unfold row, row_of, r_init. cbn [io_sigtable]. fold no_row.
    generalize 64%nat as n. intros n. destruct (replicate n (replicate n no_row) !! Z.to_nat p) as [r|] eqn:E; [|done].
    apply lookup_replicate in E as [-> _]. cbn [from_option].
    destruct (replicate n no_row !! Z.to_nat q) as [e|] eqn:E; unfold id; rewrite E; [|done].
    by apply lookup_replicate in E as [-> _]. }
  split; [|split]; cycle 1.
  { intros p _. unfold awaiting. cbn. by rewrite Z.bits_0. }
  { intros p q Hp Hq Hm Hs. destruct Hs. by apply Hun. }
  split; unfold handler; try setoid_rewrite Hrow; try done; [|by left].
  split; [done|]. apply Forall_replicate. by rewrite length_replicate.
Qed.

(** ** Checkpoints *)

(** The invariant with the mode of the runtime: 1 while a handler runs. *)
Record good (h : Z) s : Prop := { gd_wf : rt_wf s; gd_covered : covered s; gd_mode : in_handler s = h }.

(** Steps that only register handlers. *)
Definition log_ext s s' : Prop := ∃ l, registers l ∧ r_log s' = l ++ r_log s.
#[export] Instance log_ext_preorder : PreOrder log_ext.
Proof.
  split; [by exists []; split; [constructor|]|]. intros s1 s2 s3 (l&Hl&E) (l'&Hl'&E').
  exists (l' ++ l). split; [by apply Forall_app|]. by rewrite E', E, app_assoc.
Qed.

(** Changes outside the table and the instances. *)
Lemma rt_wf_frame s s' : rt_wf s → io_sigtable s' = io_sigtable s → r_funcs s' = r_funcs s →
  r_fresh s' = r_fresh s → (∀ p q, latest (r_log s') p q = latest (r_log s) p q) →
  (in_handler s' = 0 ∨ in_handler s' = 1 ∧ io_sigpending s' = 0) → shiftable (awaiting s') →
  io_ok (r_world s') → rt_wf s'.
Proof.
  intros [? _ _ _ Hi Hj Hl Hg] E1 E2 E3 E4 Hm Ha Hw. split; unfold handler, row in *; rewrite ?E1, ?E2, ?E3; try done.
  intros p q. rewrite E4. apply Hg.
Qed.

Lemma covered_frame s s' : covered s → io_sigtable s' = io_sigtable s →
  (∀ p, in_periph p → Z.testbit (awaiting s') p = true → Z.testbit (awaiting s) p = true) →
  progress (sig_now s) (sig_now s') → covered s'.
Proof.
  intros [Hm Hc] E Ha Hpr. split; [auto|]. intros p q Hp Hq Hb Hs. unfold handler, row. rewrite E.
  apply (Hc p q Hp Hq Hb). intros Hf. apply Hs. by destruct (Hpr p q Hp Hq) as [->|[? _]]; [|congruence].
Qed.

Lemma awaiting_out s : in_handler s = 0 → awaiting s = io_sigpending s.
Proof. unfold awaiting. by intros ->. Qed.
Lemma awaiting_in s : in_handler s = 1 → awaiting s = recover_io_sigpending s.
Proof. unfold awaiting. by intros ->. Qed.

(** None of the awaited peripherals up to a bound has a ready signal. *)
Definition quiet_below s (b : Z) : Prop := ∀ p, in_periph p → awaits s p → p < b → no_ready (sig_now s p).

(** Looking for a ready signal outside handlers. *)
Lemma ready_good s : good 0 s → wp true get_ready_signal (λ '(r, sig) s', good 0 s' ∧ r_log s' = r_log s
  ∧ io_sigtable s' = io_sigtable s
  ∧ match sig with
    | Some (p, q) => r = 1 ∧ in_periph p ∧ in_sig q ∧ handler s' p q ≠ FNull ∧ awaits s p ∧ quiet_below s p ∧ sig_now s p q ≠ SigFree
        ∧ polls s s' ∧ least_ready (sig_now s' p) q
    | None => r ≠ 1 ∧ quiet_below s N_PERIPH end) s.
Proof.
  intros [Hwf Hcov Hh]. pose proof (rw_await _ Hwf) as Ha. rewrite awaiting_out in Ha by done.
  eapply wp_mono; [apply get_ready_signal_ok; [apply Hwf|done]|].
  intros [r sig] s' ([Hpolls Hsig Hlow Haw]&Hr&Hsh). pose proof (sig_now_polls _ _ Hpolls) as [Hpr Hio].
  pose proof Hpolls as (b&w&x&Es&_).
  assert (in_handler s' = 0 ∧ io_sigtable s' = io_sigtable s ∧ r_log s' = r_log s) as (Hh'&Et&El) by (by rewrite Es).
  assert (good 0 s') as Hg.
  { split; [| |done].
    - apply (rt_wf_frame s); try done; try (by rewrite Es); [by left|by rewrite awaiting_out].
    - apply (covered_frame s); try done. intros p [Hp _]. rewrite !awaiting_out by done.
      intros Hb. apply (Haw p Hp) in Hb. apply Hb. }
  assert (∀ b, (∀ q, q < b → before sig q) → quiet_below s b) as Hquiet.
  { intros n Hb p Hp Hap Hlt. apply Hlow; [by apply elem_of_awaited|by apply Hb]. }
  split_and!; [done|done|done|]. destruct sig as [[p q]|].
  - destruct Hsig as [[Hp Hb]%elem_of_awaited Hleast]. pose proof Hleast as (Hq&Hrdy&_).
    assert (sig_now s p q ≠ SigFree) as Hused by (intros Hf; destruct (Hpr p q Hp Hq) as [E|[E _]]; congruence).
    split; [done|]. split; [done|]. split; [done|]. split; [|by split_and!; auto].
    unfold handler, row. rewrite Et. apply (cv_handler _ Hcov p q Hp Hq).
    { apply (cv_await _ Hcov p Hp). by rewrite awaiting_out. }
    exact Hused.
  - split; [rewrite Hr; by destruct (_ =? _)|by apply Hquiet].
Qed.

(** ... and inside: nothing is awaited. *)
Lemma ready_masked s : good 1 s → get_ready_signal s = Ok (-1, None) s.
Proof.
  intros [Hwf _ Hh]. destruct (rw_mask _ Hwf) as [E|[_ Hz]]; [congruence|].
  unfold get_ready_signal, mbind, M_bind, gets. by rewrite Hz.
Qed.

Lemma temp_unset_good t s (Q : unit → rstate W → Prop) : good 0 s →
  (∀ s', good 1 s' → io_sigtable s' = io_sigtable s → r_log s' = r_log s → r_funcs s' = r_funcs s → Q tt s') →
  wp t temp_unset_all_io_signal_pending Q s.
Proof.
  intros [Hwf Hcov Hh] HQ. unfold temp_unset_all_io_signal_pending. wp_steps.
  match goal with |- Q _ ?x => set (s' := x) end.
  assert (awaiting s' = awaiting s) as Ea by (by rewrite (awaiting_out s)).
  apply HQ; try done. split; [| |done].
  - apply (rt_wf_frame s); try done; [by right|rewrite Ea; apply Hwf|apply Hwf].
  - apply (covered_frame s); try done. intros p _. by rewrite Ea.
Qed.

Lemma temp_recover_good t s (Q : unit → rstate W → Prop) : good 1 s →
  (∀ s', good 0 s' → r_log s' = r_log s → Q tt s') → wp t temp_recover_all_io_signal_pending Q s.
Proof.
  intros [Hwf Hcov Hh] HQ. unfold temp_recover_all_io_signal_pending. wp_steps.
  match goal with |- Q _ ?x => set (s' := x) end.
  assert (awaiting s' = awaiting s) as Ea by (by rewrite (awaiting_in s)).
  apply HQ; try done. split; [| |done].
  - apply (rt_wf_frame s); try done; [by left|rewrite Ea; apply Hwf|apply Hwf].
  - apply (covered_frame s); try done. intros p _. by rewrite Ea.
Qed.

(** Refreshing an instance: only its type may change. *)
Lemma good_patch h s p q id a t : good h s → in_periph p → in_sig q → handler s p q = FBlk id →
  r_funcs s !! id = Some a →
  good h (set_funcs (<[id := AotFunc (af_index a) t (af_ptr a)]> (r_funcs s)) (r_fresh s) s).
Proof.
  intros [[Hr Hm Ha Hw Hi Hj Hl Hg] Hcov Hh] Hp Hq Hpq Hid. split; [|by apply (covered_frame s)|done]. split; try done.
  - intros p' q' Hp' Hq'. specialize (Hi p' q' Hp' Hq').
    change (handler (set_funcs _ _ s) p' q') with (handler s p' q') in *.
    change (row (set_funcs _ _ s) p' q') with (row s p' q') in *. cbn [r_funcs set_funcs].
    destruct (handler s p' q') as [|j|o] eqn:E; [done|done|]. destruct Hi as (?&?&a'&Ha'&Hx&Hc).
    split_and!; [done|done|]. destruct (decide (o = id)) as [->|].
    + exists (AotFunc (af_index a) t (af_ptr a)). rewrite lookup_insert_eq. cbn. split_and!; [done|congruence|congruence].
    + exists a'. by rewrite lookup_insert_ne.
  - intros o a'. cbn [r_funcs set_funcs r_fresh]. destruct (decide (o = id)) as [->|].
    + intros _. destruct (Hl id a Hid) as [? _]. split; [done|]. by exists p, q.
    + rewrite lookup_insert_ne by done. apply Hl.
Qed.

Section dispatch.
Context (t : bool) (call : func_ref → Z → Z → R W unit).

(** What the history records of one call; the handler may register others. *)
Definition called s (p q : Z) s' : Prop :=
  ∃ l, registers l ∧ r_log s' = R_return :: l ++ R_call (handler s p q) p q :: r_log s.

(** A call of a handler keeps the invariant and is recorded. *)
Definition call_ok : Prop := ∀ s p q, good 1 s → in_periph p → in_sig q → handler s p q ≠ FNull →
  wp t (call (handler s p q) p q) (λ _ s', good 1 s' ∧ called s p q s') s.

(** The effect of a checkpoint outside handlers.  No handler is called, and no
    awaited peripheral had a ready signal when it began; or the search for a
    ready signal ends in a state [s1] in which the least ready signal of [p] is
    [q], no awaited peripheral before [p] had one when the checkpoint began,
    and the handler of ([p], [q]) is called. *)
Inductive dispatched s : rstate W → Prop :=
  | D_none s' : quiet_below s N_PERIPH → r_log s' = r_log s → dispatched s s'
  | D_call p q s1 s' : in_periph p → in_sig q → awaits s p → quiet_below s p →
      get_ready_signal s = Ok (1, Some (p, q)) s1 → polls s s1 → least_ready (sig_now s1 p) q →
      handler s p q ≠ FNull → called s p q s' → dispatched s s'.

(** From the chosen signal to the end of its handler. *)
Lemma handle_ok s p q (Q : unit → rstate W → Prop) : call_ok → good 0 s → in_periph p → in_sig q →
  handler s p q ≠ FNull → (∀ s', good 0 s' → called s p q s' → Q tt s') →
  wp t temp_unset_all_io_signal_pending (λ _ s1, wp t (call (handler s p q) p q)
    (λ _ s2, wp t temp_recover_all_io_signal_pending Q s2) s1) s.
Proof.
  intros Hcall Hg Hp Hq Hne HQ. apply temp_unset_good; [done|]. intros s1 Hg1 Et El _.
  assert (handler s p q = handler s1 p q) as Hh by (unfold handler, row; by rewrite Et).
  unfold called in HQ. rewrite Hh, <- El in *. eapply wp_mono; [by apply Hcall|]. intros _ s2 [Hg2 Hc2].
  apply temp_recover_good; [done|]. intros s3 Hg3 El3. apply HQ; [done|]. by rewrite El3.
Qed.

Lemma called_frame s s1 p q s' : io_sigtable s1 = io_sigtable s → r_log s1 = r_log s →
  called s1 p q s' → called s p q s'.
Proof. unfold called, handler, row. by intros -> ->. Qed.

(** Calling the handler of a chosen signal. *)
Lemma aot_call_ok s p q : module_type m = Wasm_Module_AoT → call_ok → good 0 s → in_periph p → in_sig q →
  handler s p q ≠ FNull → wp t (aot_call_handler m call p q) (λ _ s', good 0 s' ∧ called s p q s') s.
Proof.
  intros Hm Hcall Hg Hp Hq Hne. unfold aot_call_handler. wp_steps.
  apply wp_sig_row; [apply Hg|done|done|]. wp_steps. fold (row s p q). fold (handler s p q).
  pose proof (rw_inst _ (gd_wf _ _ Hg) p q Hp Hq) as Hi.
  destruct (handler s p q) as [|j|id] eqn:E; [done|destruct Hi; congruence|].
  destruct Hi as (_&(He&ty&ft&c&Hty&E1&E2&E3)&a&Ha&Hx&Hptr).
  eapply wp_arr_get; [done|exact E1|]. wp_steps. eapply wp_arr_get; [done|exact E2|]. wp_steps.
  unfold patch_type, func_store, func_load. wp_steps. rewrite Ha. wp_steps. rewrite Ha. wp_steps.
  pose proof (good_patch _ _ p q id a ft Hg Hp Hq E Ha) as Hg2.
  set (s2 := set_funcs _ _ s) in *. eapply wp_arr_get; [done|exact E3|]. wp_steps.
  assert (c = af_ptr a) as -> by congruence.
  assert (r_funcs s2 !! id = Some (AotFunc (af_index a) ft (af_ptr a))) as Ha2 by apply lookup_insert_eq.
  unfold patch_ptr, func_store, func_load. wp_steps. rewrite Ha2. wp_steps. rewrite Ha2. wp_steps.
  pose proof (good_patch _ _ p q id _ ft Hg2 Hp Hq E Ha2) as Hg3. cbn [af_index af_type af_ptr] in *.
  set (s3 := set_funcs _ _ s2) in *. assert (handler s3 p q = FBlk id) as Eh by exact E. rewrite <- Eh.
  eapply wp_mono; [apply (handle_ok s3 p q (λ _ s', wp t (get_ready_signal;; mret ())
    (λ _ s', good 0 s' ∧ called s p q s') s')); try done; [by rewrite Eh|]|].
  { intros s4 Hg4 Hc4. wp_steps. apply wp_total. eapply wp_mono; [by apply ready_good|].
    intros [r sig] s5 (Hg5&El5&_). wp_steps. split; [done|]. unfold called. rewrite El5. by apply (called_frame s s3). }
  intros u s4 Hw. wp_steps. eapply wp_mono; [exact Hw|]. intros u' s5 Hw5. by wp_steps.
Qed.

Lemma interp_call_ok s p q : module_type m = Wasm_Module_Bytecode → call_ok → good 0 s → in_periph p → in_sig q →
  handler s p q ≠ FNull → wp t (interp_call_handler call p q) (λ _ s', good 0 s' ∧ called s p q s') s.
Proof.
  intros Hm Hcall Hg Hp Hq Hne. unfold interp_call_handler. wp_steps.
  apply wp_sig_row; [apply Hg|done|done|]. wp_steps. fold (row s p q).
  pose proof (rw_inst _ (gd_wf _ _ Hg) p q Hp Hq) as Hi.
  assert (FInst (func_idx (row s p q)) = handler s p q) as ->.
  { destruct (handler s p q) as [|j|id]; [done| |]; destruct Hi as [? Hi]; [by destruct Hi as [-> _]|congruence]. }
  eapply wp_mono; [apply (handle_ok s p q (λ _ s', good 0 s' ∧ called s p q s')); try done|].
  intros u s4 Hw. wp_steps. eapply wp_mono; [exact Hw|]. intros u' s5 Hw5. by wp_steps.
Qed.

(** Polling and calling the handler of the signal found. *)
Definition poll_then (f : Z → Z → R W unit) : R W unit :=
  '(r, sig) ← get_ready_signal;
  if negb (r =? 1) then mret () else
  '(signo, sub_signo) ← signo_array sig;
  f signo sub_signo.

Lemma poll_then_ok f s : good 0 s →
  (∀ s1 p q, get_ready_signal s = Ok (1, Some (p, q)) s1 → good 0 s1 → in_periph p → in_sig q → awaits s p →
     sig_now s p q ≠ SigFree → handler s1 p q ≠ FNull → wp t (f p q) (λ _ s', good 0 s' ∧ called s1 p q s') s1) →
  wp t (poll_then f) (λ _ s', good 0 s' ∧ dispatched s s') s.
Proof.
  intros Hg Hf. unfold poll_then. wp_steps. pose proof (ready_good s Hg) as Hr. unfold wp at 1. unfold wp at 1 in Hr.
  destruct (get_ready_signal s) as [[r [[p q]|]] s1| |] eqn:Er; [| |done|done]; destruct Hr as (Hg1&El&Et&Hr); cycle 1.
  { destruct Hr as [Hr ?]. rewrite (proj2 (Z.eqb_neq r 1)) by done. wp_steps. split; [done|by apply D_none]. }
  destruct Hr as (->&Hp&Hq&Hne&Hap&Hlow&Hused&Hpolls&Hrdy). change (negb (1 =? 1)) with false. cbv iota. unfold signo_array. wp_steps.
  eapply wp_mono; [by apply Hf|]. intros u s' [Hg' Hc]. split; [done|].
  apply (D_call s p q s1); try done; [unfold handler, row in *; by rewrite <- Et|by apply (called_frame s s1)].
Qed.

Lemma aot_poll_ok s : module_type m = Wasm_Module_AoT → call_ok → good 0 s →
  wp t (aot_poll_ready_signal m call) (λ _ s', good 0 s' ∧ dispatched s s') s.
Proof. intros Hm Hcall Hg. apply poll_then_ok; [done|]. intros. by apply aot_call_ok. Qed.

Lemma interp_poll_ok s : module_type m = Wasm_Module_Bytecode → call_ok → good 0 s →
  wp t (HANDLE_IO_SIGNAL call) (λ _ s', good 0 s' ∧ dispatched s s') s.
Proof. intros Hm Hcall Hg. apply poll_then_ok; [done|]. intros. by apply interp_call_ok. Qed.

Lemma checkpoint_ok s : call_ok → good 0 s →
  wp t (checkpoint m call) (λ _ s', good 0 s' ∧ dispatched s s') s.
Proof.
  intros Hcall Hs. unfold checkpoint. destruct (module_type m) eqn:Em; [|by apply interp_poll_ok].
  unfold sigpoll. wp_steps. destruct (Z.eqb_spec (io_sigpending s) 0) as [E|]; [|by apply aot_poll_ok].
  wp_steps. split; [done|]. apply D_none; [|done]. intros p Hp Hap. unfold awaits in Hap. by rewrite E, Z.bits_0 in Hap.
Qed.

(** A checkpoint inside a handler does nothing. *)
Lemma checkpoint_masked s : good 1 s → checkpoint m call s = Ok tt s.
Proof.
  intros Hg. unfold checkpoint, sigpoll, HANDLE_IO_SIGNAL, mbind, M_bind, gets.
  destruct (rw_mask _ (gd_wf _ _ Hg)) as [E|[_ Hz]]; [by rewrite (gd_mode _ _ Hg) in E|].
  destruct (module_type m); [by rewrite Hz|]. by rewrite ready_masked.
Qed.
End dispatch.

(** ** Applications *)

(** Native functions that keep the invariant in either mode. *)
Definition native_ok (t : bool) (f : R W Z) : Prop := ∀ h s, good h s →
  wp t f (λ _ s', good h s' ∧ log_ext s s') s.

Fixpoint prog_ok (t : bool) (p : prog W) : Prop :=
  match p with
  | Halt => True
  | Native f k => native_ok t f ∧ ∀ r, prog_ok t (k r)
  | Checkpoint k => prog_ok t k
  end.

Lemma log_ext_calls s s' : log_ext s s' → call_depth (r_log s') = call_depth (r_log s)
  ∧ (calls_ok (r_log s) → calls_ok (r_log s')).
Proof. intros (l&Hl&->). by apply registers_app. Qed.

(** No handler is running and all calls so far were as they should. *)
Definition calm s : Prop := good 0 s ∧ call_depth (r_log s) = 0 ∧ calls_ok (r_log s).

Lemma calm_log_ext s s' : calm s → good 0 s' → log_ext s s' → calm s'.
Proof. intros (_&Hd&Hc) Hg [Hd' Hc']%log_ext_calls. split_and!; [done|lia|auto]. Qed.

Lemma calm_dispatched s s' : calm s → good 0 s' → dispatched s s' → calm s'.
Proof.
  intros (Hg0&Hd&Hc) Hg Hs. revert Hg. destruct Hs as [s1 _ El|p q s0 s1 Hp Hq _ _ _ _ _ Hne (l&Hl&El)]; intros Hg;
    (split; [done|]); [by rewrite El|]. rewrite El.
  destruct (registers_app l (R_call (handler s p q) p q :: r_log s) Hl) as [Hd' Hc'].
  cbn [call_depth calls_ok] in *. split; [lia|]. apply Hc'. split_and!; [|done|lia|done].
  symmetry. by apply (rw_log _ (gd_wf _ _ Hg0)).
Qed.

Section runs.
Context (t : bool) (body : Z → Z → Z → prog W) (Happ : ∀ c p q, prog_ok t (body c p q)).

(** The body of a handler: no other handler is called. *)
Lemma exec_handler call p s : prog_ok t p → good 1 s →
  wp t (exec m call p) (λ _ s', good 1 s' ∧ log_ext s s') s.
Proof using.
  revert s; induction p as [|f k IH|k IH]; intros s Hp Hg; cbn [exec].
  - wp_steps. by split.
  - destruct Hp as [Hf Hk]. wp_steps. eapply wp_mono; [by apply Hf|]. intros r s1 [Hg1 He1].
    eapply wp_mono; [by apply IH|]. intros ? s2 [Hg2 He2]. split; [done|by etrans].
  - wp_steps. unfold wp at 1. rewrite checkpoint_masked by done. by apply IH.
Qed.

Lemma good_log h s e : good h s → (∀ p q f, e ≠ R_register p q f) → good h (r_event_log e s).
Proof.
  intros [Hwf Hc Hh] He. split; [|by apply (covered_frame s)|done]. apply (rt_wf_frame s); try done; try apply Hwf.
  intros p q. cbn [r_log r_event_log latest]. by destruct e as [p' q' f| |]; [destruct (He p' q' f)|..].
Qed.

Lemma call_with_ok d : call_ok t (call_with body (run m body d)).
Proof using Happ.
  intros s p q Hg Hp Hq Hne. unfold call_with. wp_steps.
  assert (wp t (code_of (handler s p q)) (λ _ s', s' = s) s) as Hcode.
  { pose proof (rw_inst _ (gd_wf _ _ Hg) p q Hp Hq) as Hi.
    unfold code_of. destruct (handler s p q) as [|i|id]; [done|by wp_steps|].
    destruct Hi as (_&_&a&Ha&_). unfold func_load. wp_steps. rewrite Ha. by wp_steps. }
  eapply wp_mono; [exact Hcode|]. intros c ? ->. wp_steps.
  set (s1 := r_event_log _ s). assert (good 1 s1) as Hg1 by (by apply good_log).
  destruct d; cbn [run]; (eapply wp_mono; [apply exec_handler; [apply Happ|done]|]);
    intros u s2 [Hg2 (l&Hl&El)]; wp_steps; (split; [by apply good_log|]);
    exists l; (split; [done|]); cbn [r_log r_event_log]; by rewrite El.
Qed.

(** A whole run: one level of nesting is enough. *)
Lemma exec_ok call p s : call_ok t call → prog_ok t p → calm s → wp t (exec m call p) (λ _ s', calm s') s.
Proof using.
  intros Hcall. revert s; induction p as [|f k IH|k IH]; intros s Hp Hs; cbn [exec].
  - by wp_steps.
  - destruct Hp as [Hf Hk]. wp_steps. eapply wp_mono; [apply Hf, Hs|].
    intros r s1 [Hg1 He1]. apply IH; [done|]. by eapply calm_log_ext.
  - wp_steps. eapply wp_mono; [apply checkpoint_ok; [done|apply Hs]|]. intros u s1 [Hg1 Hd1].
    apply IH; [done|]. by eapply calm_dispatched.
Qed.

Lemma run_ok d p s : prog_ok t p → calm s → wp t (run m body (S d) p) (λ _ s', calm s') s.
Proof using Happ. intros. apply exec_ok; [apply call_with_ok|done|done]. Qed.
End runs.

(** The coverage of all signals but one. *)
Record covered_but (p0 q0 : Z) s : Prop := {
  cb_await p : in_periph p → Z.testbit (awaiting s) p = true → managed p;
  cb_handler p q : in_periph p → in_sig q → managed p → ¬ (p = p0 ∧ q = q0) → sig_now s p q ≠ SigFree → handler s p q ≠ FNull
}.

(** Registering a handler on a managed peripheral covers its signal when the
    function is found. *)
Lemma register_covers s p q i : module_ok m → rt_wf s → covered_but p q s → 0 <= p < 63 → managed p → in_sig q → 0 < i →
  findable i → wp true (tzio_register_handler (Some m) p q i) (λ r s', r = 0 ∧ good (in_handler s) s' ∧ log_ext s s') s.
Proof.
  intros Hm Hwf [Hman Hcov] Hp Hmp Hq Hi Hf. eapply wp_mono; [by apply register_ok|]. intros r s' [-> Hreg].
  pose proof Hreg as [Hwf' Hoth _ Hnull Haw Hin Hpr Hlog]. split_and!; [done| |].
  - split; [done| |done]. split.
    + intros p' Hp'. rewrite Haw, Z.setbit_eqb by lia. intros [<-%Z.eqb_eq|]%orb_prop; auto.
    + intros p' q' Hp' Hq' Hb Hs. destruct (decide (p' = p ∧ q' = q)) as [[-> ->]|Hne]; [by intros ?%Hnull|].
      assert (handler s' p' q' = handler s p' q') as -> by (unfold handler; by rewrite Hoth).
      apply (Hcov p' q' Hp' Hq' Hb Hne). intros Hfree. apply Hs.
      by destruct (Hpr p' q' Hp' Hq') as [->|[? _]]; [|congruence].
  - exists [R_register p q (handler s' p q)]. split; [by repeat constructor|done].
Qed.

Lemma register_native_ok t p q i : module_ok m → findable i → 0 <= p < 63 → managed p → in_sig q → 0 < i →
  native_ok t (tzio_register_handler (Some m) p q i).
Proof.
  intros Hm Hf Hp Hmp Hq Hi h s [Hwf [Hman Hcov] <-]. apply wp_total.
  eapply wp_mono; [apply register_covers; try done; split; auto|]. by intros r s' (_&?&?).
Qed.
End invariant.
