(* ===== verification/RuntimeKernel.v ===== *)
(** * The runtime on top of the I/O helper

    The model of the I/O helper keeps the promises the runtime relies on
    ([IoHelper]): the theorems on the runtime hold for the two together, with
    the service loops running between any two system calls as a scheduler
    chooses. *)

From Stdlib Require Import ZArith Lia Bool.
From stdpp Require Import base tactics option list numbers gmap relations.
From S2P Require Import Prelude Platform Params IoReq IoState IoSignal IoSignalProofs.
From S2P Require Import IoSpec IoHandlers IoHandlersProofs IoHelper IoSystem IoRefinement IoService.
From S2P Require Import Runtime RuntimeScan RuntimeProofs.

Open Scope Z_scope.

(** ** Signals in the specification *)

Definition phase_sig (ph : phase) : sig_state :=
  match ph with PFree => SigFree | PReady _ => SigReady | _ => SigBusy end.

Lemma rel_sig k a p s : rel k a → in_periph p → in_sig s → sig_of k p s = phase_sig (a_phase a p s).
Proof.
  intros Hr Hp Hs. pose proof (rl_phase _ _ Hr p s Hp Hs) as Hph.
  destruct (a_phase a p s); cbn in Hph |- *; tauto.
Qed.

(** A step of a service loop takes no signal and frees none. *)
Lemma serve_progress a a' p : a_inv a → a_step a a' → in_periph p → a_pc a' p ≠ a_pc a p →
  progress (λ p s, phase_sig (a_phase a p s)) (λ p s, phase_sig (a_phase a' p s)).
Proof.
  intros Hi [l Hst] Hp Hpc p' s' Hp' Hs'. destruct Hst as [| | | | | |q r res Hq Hrun|q r res Hq Hdone Hph|]; try (by left); try done.
  - cbn. unfold upd2. case_decide as Hc; [|by left]. destruct Hc as [-> ->]. left.
    destruct (ai_wait _ _ (Hi q Hq) r) as [_ ->]; [|done]. unfold pending. rewrite Hrun. by left.
  - cbn. unfold upd2. case_decide as Hc; [|by left]. destruct Hc as [-> ->]. right. by rewrite Hph.
Qed.

Section kernel.
Context `{Env, Storage, !StorageOk}.

(** The steps of [c_step] that belong to the service loops. *)
Inductive serve_step : sys → sys → Prop :=
  | S_check p o k k' pc : in_periph p → pc p = LCheck → loop_check p k = Ok o k' →
      serve_step (k, pc) (k', upd1 pc p (match o with Some r => LRun r | None => LBlocked end))
  | S_wake p k pc : in_periph p → pc p = LBlocked → waiting_at k p = false →
      serve_step (k, pc) (k, upd1 pc p LCheck)
  | S_handle p r v k k' pc : in_periph p → pc p = LRun r → handle_req r p k = Ok v k' →
      serve_step (k, pc) (k', upd1 pc p (LDone r))
  | S_ready p r v k k' pc : in_periph p → pc p = LDone r →
      set_ready_signal p (rq_signo r) k = Ok v k' → serve_step (k, pc) (k', upd1 pc p LCheck).

Lemma serve_c_step w w' : serve_step w w' → c_step w w'.
Proof using. destruct 1; by econstructor. Qed.

Definition reachable (w : sys) : Prop := rtc c_step sys_init w.

Lemma serve_step_sim w w' a : sim w a → serve_step w w' →
  ∃ a' p, a_step a a' ∧ in_periph p ∧ a_pc a' p ≠ a_pc a p ∧ sim w' a'.
Proof.
  intros [Hr Hpc] Hst. destruct Hst as [p o k k' pc Hp Hc E|p k pc Hp Hb Hw|p r v k k' pc Hp Hc E|p r v k k' pc Hp Hc E];
    cbn in Hr, Hpc; subst pc.
  - pose proof (loop_check_ok k a p Hr Hp Hc) as Hwp. unfold wp in Hwp. rewrite E in Hwp.
    destruct Hwp as (a'&?&?&Hpc&_). exists a', p. split_and!; [done|done| |done].
    rewrite Hpc, upd1_eq, Hc. by destruct o.
  - destruct (loop_enters k a p Hr Hp (or_intror Hb)). exists (set_pc p LCheck a), p.
    split_and!; [done|done|cbn; by rewrite upd1_eq, Hb|done].
  - pose proof (handle_step_ok false k a p r Hr Hp Hc (hw_live_false _ _) ltac:(intros Ht; discriminate)) as Hwp.
    unfold wp in Hwp. rewrite E in Hwp. destruct Hwp as (a'&?&?&Hpc). exists a', p. split_and!; [done|done| |done].
    by rewrite Hpc, upd1_eq, Hc.
  - pose proof (ready_step_ok k a p r Hr Hp Hc) as Hwp. unfold wp in Hwp. rewrite E in Hwp.
    destruct Hwp as (a'&?&?&Hpc&_). exists a', p. split_and!; [done|done| |done]. by rewrite Hpc, upd1_eq, Hc.
Qed.

Lemma serve_sim w w' a : sim w a → rtc serve_step w w' →
  ∃ a', sim w' a' ∧ progress (sig_of w.1) (sig_of w'.1).
Proof.
  intros Hsim Hs. revert a Hsim. induction Hs as [w|w w1 w2 Hst _ IH]; intros a Hsim; [by exists a|].
  destruct (serve_step_sim _ _ _ Hsim Hst) as (a1&p&Hst'&Hp&Hpc&Hsim1). destruct (IH a1 Hsim1) as (a2&Hsim2&Hp2).
  exists a2. split; [done|]. etrans; [|exact Hp2].
  pose proof (serve_progress a a1 p (rl_ainv _ _ (proj1 Hsim)) Hst' Hp Hpc) as Hpr.
  intros q s Hq Hss. rewrite (rel_sig w.1 a), (rel_sig w1.1 a1) by (done || apply Hsim || apply Hsim1). by apply Hpr.
Qed.

Lemma serve_reachable w w' : reachable w → rtc serve_step w w' → reachable w'.
Proof using. intros Hr Hs. induction Hs as [w|w w1 w2 Hst _ IH]; [done|]. apply IH. eapply rtc_r; [exact Hr|by apply serve_c_step]. Qed.

Lemma serve_ok w w' : reachable w → rtc serve_step w w' →
  reachable w' ∧ progress (sig_of w.1) (sig_of w'.1).
Proof.
  intros Hr Hs. split; [by eapply serve_reachable|]. destruct (reach_sim _ Hr) as (tr&a&_&Hsim).
  by destruct (serve_sim _ _ _ Hsim Hs) as (a'&_&?).
Qed.

(** A poll of the I/O helper changes no signal and says how they are. *)
Lemma poll_params p : in_periph p → params_ok poll_types [UValue p 0; UNone; UNone; UNone].
Proof using. intros [? ?]. unfold N_PERIPH in *. cbn. unfold param_ok; cbn. split_and!; try done. exists p, 0. split_and!; [done|lia..]. Qed.

Lemma poll_sim k a p : rel k a → in_periph p →
  ∃ u k', invoke_command PTA_IO_HELPER_CMD_POLL poll_types [UValue p 0; UNone; UNone; UNone] k
            = Ok (Reply TEE_SUCCESS [u; UNone; UNone; UNone]) k'
    ∧ rel k' a ∧ (∀ q s, in_periph q → in_sig s → sig_of k' q s = sig_of k q s) ∧ polled_as (sig_of k' p) u.
Proof using.
  intros Hrel Hp. assert (0 <= p < 64) as Hp' by exact Hp.
  pose proof (poll_ok poll_types _ k a Hrel (poll_params p Hp)) as Hw. unfold wp in Hw.
  assert (∀ r ps' k', poll poll_types [UValue p 0; UNone; UNone; UNone] k = Ok (r, ps') k' →
    invoke_command PTA_IO_HELPER_CMD_POLL poll_types [UValue p 0; UNone; UNone; UNone] k = Ok (Reply r ps') k') as Hinv.
  { intros r ps' k' E. cbn. unfold replies, mbind, M_bind. by rewrite E. }
  destruct (poll _ _ k) as [[r ps'] k'|u|]; [|done|done]. rewrite (Hinv r ps' k' eq_refl). destruct Hw as [Hr' Hw].
  change (poll_types =? only_value_inout) with true in Hw. cbv iota in Hw.
  destruct Hw as (x&b&[= <- <-]&Hw). assert (u16 p = p) as Eu by (unfold u16; apply Z.mod_small; lia).
  rewrite Eu, (proj2 (Z.leb_gt _ _)) in Hw by (unfold N_PERIPH; lia). destruct Hw as (->&u&->&Ha).
  assert (∀ q s, in_periph q → in_sig s → sig_of k' q s = sig_of k q s) as Hsame.
  { intros q s Hq Hs. by rewrite (rel_sig k a), (rel_sig k' a). }
  exists u, k'. split_and!; [done|done|done|].
  destruct Ha as [(s&Hs&Hrdy&Hlow&->)|[(Hno&(s&Hs&Hu)&->)|(Hfree&->)]].
  - left. exists s. split; [|done]. split_and!; [done|cbn; by rewrite Hsame|]. intros j Hj. cbn.
    rewrite Hsame; [by apply Hlow|done|]. unfold in_sig in *. lia.
  - right. left. split_and!; [|intros Hall|done].
    + intros j Hj. cbn. rewrite Hsame by done. by apply Hno.
    + specialize (Hall s Hs). cbn in Hall. rewrite Hsame in Hall by done. done.
  - right. right. split; [|by exists 0]. intros j Hj. cbn. rewrite Hsame by done. by apply Hfree.
Qed.

(** ** The I/O helper as the system below the runtime *)

(** [sched] lets service loops run before each system call; [mem] is the
    runtime's allocator. *)
Context (sched : sys → sys) (Hsched : ∀ w, rtc serve_step w (sched w)) (mem : sys → bool).

Definition pta_invoke_io_helper (cmd types : Z) (ps : uparams) : M sys (Z * uparams) := λ w,
  let '(k, pc) := sched w in
  match invoke_command cmd types ps k with
  | Ok (Reply r ps') k' => Ok (r, ps') (k', pc)
  | Ok (Serves _) _ => OutOfFuel
  | Undef u => Undef u
  | OutOfFuel => OutOfFuel
  end.

Definition kernel_client : TeeClient sys := {|
  tee_open := λ w, Ok TEE_SUCCESS (sched w);
  tee_invoke := pta_invoke_io_helper;
  runtime_malloc := λ w, Ok (mem w) (sched w)
|}.
#[local] Existing Instance kernel_client.

Lemma kernel_poll_ok w p : reachable w → in_periph p →
  ∃ u w', pta_invoke_io_helper PTA_IO_HELPER_CMD_POLL poll_types [UValue p 0; UNone; UNone; UNone] w
            = Ok (TEE_SUCCESS, [u; UNone; UNone; UNone]) w'
    ∧ reachable w' ∧ progress (sig_of w.1) (sig_of w'.1) ∧ polled_as (sig_of w'.1 p) u.
Proof using All.
  intros Hr Hp. destruct (serve_ok _ _ Hr (Hsched w)) as [Hr1 Hp1]. unfold pta_invoke_io_helper.
  destruct (sched w) as [k pc]. destruct (reach_sim _ Hr1) as (tr&a&_&[Hrel _]).
  destruct (poll_sim k a p Hrel Hp) as (u&k'&E&_&Hsame&Hu). rewrite E. exists u, (k', pc). split_and!; [done| | |done].
  - eapply rtc_r; [exact Hr1|]. eapply C_command; [by apply poll_params| |exact E]. done.
  - etrans; [exact Hp1|]. intros q s Hq Hs. left. by apply Hsame.
Qed.

Definition kernel_helper : IoHelper sys.
Proof using All.
  refine {| io_ok := reachable; io_sig := λ w, sig_of w.1 |}.
  - intros w Hw. exists (sched w). split; [done|]. by apply serve_ok.
  - intros w p Hw Hp. by apply kernel_poll_ok.
  - intros w Hw. exists (mem w), (sched w). split; [done|]. by apply serve_ok.
Defined.
End kernel.
