(* ===== verification/RuntimeTheorems.v ===== *)
(** * Main theorems on the runtime

    Polling and dispatching of asynchronous results by the WebAssembly
    runtime, alone (for any I/O helper with the interface [IoHelper]) and on
    top of the model of the I/O helper. *)

From Stdlib Require Import ZArith Lia Bool.
From stdpp Require Import base tactics option list numbers gmap relations.
From S2P Require Import Prelude Platform Params IoReq IoState IoSignal IoSignalProofs.
From S2P Require Import IoSpec IoHandlers IoHandlersProofs IoHelper IoSystem IoService ServiceTheorems.
From S2P Require Import Runtime RuntimeScan RuntimeProofs RuntimeKernel.

Open Scope Z_scope.

(** ** Polling *)

(** C32: With peripheral 63 not awaited (pending below 2^63), the bit
    operations of the runtime's get_ready_signal amount to polling the awaited
    peripherals one after the other in increasing order until one has a ready
    signal, for every behaviour of the system calls. *)
Theorem ready_signal_reference `{TeeClient W} (s : rstate W) : 0 <= io_sigpending s < 2 ^ 63 →
  get_ready_signal s = if io_sigpending s =? 0 then Ok (-1, None) s else scan (awaited (io_sigpending s)) s.
Proof. apply get_ready_signal_scan. Qed.

(** C13: On top of the I/O helper, with service loops running between any two
    system calls, and with peripheral 63 not awaited (pending below 2^63), the
    runtime's get_ready_signal terminates and reports the first awaited
    peripheral that has a ready signal when it is polled, with its least ready
    signal; the awaited peripherals before it had none when the search began;
    it stops awaiting exactly those searched peripherals that have no request. *)
Theorem runtime_finds_ready `{Env, Storage, !StorageOk} sched (Hsched : ∀ w, rtc serve_step w (sched w)) mem
    (s : rstate sys) :
  reachable (r_world s) → 0 <= io_sigpending s < 2 ^ 63 →
  wp true (get_ready_signal (H:=kernel_client sched mem)) (λ '(r, sig) s',
    let before_ := sig_of (r_world s).1 in let after := sig_of (r_world s').1 in
    reachable (r_world s') ∧ progress before_ after
    ∧ match sig with
      | Some (p, q) => r = 1 ∧ awaits s p ∧ in_periph p ∧ least_ready (after p) q
      | None => r = if io_sigpending s =? 0 then -1 else 0
      end
    ∧ (∀ p, in_periph p → awaits s p → before sig p → no_ready (before_ p))
    ∧ (∀ p, in_periph p → awaits s' p ↔ awaits s p ∧ ¬ (before sig p ∧ unused (before_ p)))) s.
Proof.
  intros Hr Hs. eapply wp_mono.
  { apply (get_ready_signal_ok (H0:=kernel_helper sched Hsched mem) s Hr Hs). }
  intros [r sig] s' ([Hpolls Hsig Hlow Haw]&->&_). destruct (sig_now_polls _ _ Hpolls) as [Hpr Hok].
  split_and!; [done|done| | |].
  - destruct sig as [[p q]|]; [|done]. destruct Hsig as [[Hp Ha]%elem_of_awaited Hl]. by split_and!.
  - intros p Hp Ha Hb. by apply (Hlow p); [apply elem_of_awaited|].
  - intros p Hp. rewrite Haw by apply Hp. split; intros [Ha Hn]; (split; [done|]).
    + intros [Hb Hu]. apply Hn. split_and!; [by apply elem_of_awaited|done|done].
    + intros (_&Hb&Hu). by apply Hn.
Qed.

(** A signal of peripheral 63 cannot be polled for. *)
Theorem signal_63_undefined `{TeeClient W} (s : rstate W) : io_sigpending s = 2 ^ 63 →
  get_ready_signal s = Undef UB_shift.
Proof. intros E. unfold get_ready_signal, mbind, M_bind, gets. by rewrite E. Qed.

(** ** Registration *)

(** C31: Registering a handler with a peripheral or signal number above 64 or
    a null function is refused and changes nothing; with a peripheral below 63
    and a signal below 64 it succeeds, replaces that one entry by an instance
    of the function at the given table index (or by NULL if there is none),
    frees the old instance, awaits the peripheral (after the running handler,
    if one runs) and keeps the table and the instances consistent. *)
Theorem register_handler_contract `{IoHelper W} m (s : rstate W) p q i :
  module_ok m → rt_wf m s → 0 <= p → 0 <= q → 0 <= i →
  if (N_SIG <? p) || (N_SUB_SIG <? q) || (i =? 0) then tzio_register_handler (Some m) p q i s = Ok (-1) s
  else p < 63 → q < N_SUB_SIG →
    wp true (tzio_register_handler (Some m) p q i) (λ r s', r = 0 ∧ registered m s p q i s') s.
Proof.
  intros Hm Hwf Hp Hq Hi. destruct (_ || (i =? 0)) eqn:E.
  - unfold tzio_register_handler. destruct ((N_SIG <? p) || (N_SUB_SIG <? q)); [done|]. cbn in E. by rewrite E.
  - apply orb_false_elim in E as [_ Hi0%Z.eqb_neq]. intros ??. apply register_ok; [done|done|lia|by split|lia].
Qed.

(** ** Dispatch *)

(** C30: A checkpoint outside handlers keeps the invariant and either calls no
    handler, and then no awaited peripheral had a ready signal when it began;
    or calls exactly one, of the peripheral p and signal q its search for a
    ready signal reports: p is awaited, q is the least ready signal of p when
    p is polled, no awaited peripheral before p had a ready signal when the
    checkpoint began (the service loops may finish requests meanwhile), and
    the handler is the one registered for (p, q). During the call nothing else
    is dispatched. *)
Theorem checkpoint_dispatches `{IoHelper W} m managed t body d (s : rstate W) :
  (∀ c p q, prog_ok m managed t (body c p q)) → calm m managed s →
  wp t (checkpoint m (call_with body (run m body d))) (λ _ s', calm m managed s' ∧ dispatched s s') s.
Proof.
  intros Happ Hs. eapply wp_mono; [apply checkpoint_ok; [by apply call_with_ok|apply Hs]|].
  intros u s' [Hg Hd]. split; [|done]. by eapply calm_dispatched.
Qed.

(** C12: Any application whose native functions keep the invariant of the
    signal table, run by the runtime from its start with handlers that may
    register further handlers, reaches no undefined behaviour and never nests
    handlers (one level of nesting fuel is enough); at the end table and
    function instances agree (none leaked, none dangling), nothing is masked,
    every request on a peripheral it manages has a handler, and every call in
    the history went to the handler registered last for that signal. *)
Theorem runtime_safe `{IoHelper W} m managed t body d p (w : W) :
  io_ok w → (∀ p, in_periph p → managed p → unused (io_sig w p)) →
  prog_ok m managed t p → (∀ c p q, prog_ok m managed t (body c p q)) →
  wp t (run m body (S d) p) (λ _ s', rt_wf m s' ∧ covered managed s' ∧ in_handler s' = 0
    ∧ call_depth (r_log s') = 0 ∧ calls_ok (r_log s')) (r_init w).
Proof.
  intros Hw Hun Hp Happ. destruct (rt_wf_init m managed w Hw Hun) as [Hwf Hcov].
  eapply wp_mono; [by apply (run_ok m managed t body Happ d p (r_init w)); [done|]|].
  intros u s' ([? ? ?]&?&?). by split_and!.
Qed.

(** ** Signal numbers *)

(** The signal numbers the runtime gives to GPIO pins, I2C buses, the SPI
    bus and secure storage do not overlap, are mapped back to the same device
    by the I/O helper, and are the sum of the number and the type's base
    modulo 64; unknown types are refused. *)
Theorem signal_numbers :
  (∀ pin, 0 <= pin < 28 → tzio_periph_to_io_signal_no 0 pin = pin
     ∧ periph_no_to_gpio (tzio_periph_to_io_signal_no 0 pin) = pin)
  ∧ (∀ bus, 0 <= bus < 2 → 28 <= tzio_periph_to_io_signal_no 1 bus < 30
     ∧ periph_no_to_i2c (tzio_periph_to_io_signal_no 1 bus) = bus)
  ∧ tzio_periph_to_io_signal_no 2 0 = 30 ∧ periph_no_to_spi (tzio_periph_to_io_signal_no 2 0) = 0
  ∧ tzio_periph_to_io_signal_no 3 0 = 31
  ∧ (∀ ty no, 0 <= ty → 0 <= no → tzio_periph_to_io_signal_no ty no =
       if ty <? 4 then (no + nth (Z.to_nat ty) [0; 28; 30; 31] 0) mod 64 else -1).
Proof.
  assert (∀ x, Z.land (u32 x) 0x3f = x mod 64) as Hland.
  { intros x. unfold u32. rewrite <- Z.land_ones, <- Z.land_assoc by lia. change (Z.land (Z.ones 32) 0x3f) with (Z.ones 6).
    by rewrite Z.land_ones by lia. }
  assert (∀ x, 0 <= x → Z.land x 0x3f = x mod 64) as Hland0.
  { intros x Hx. change 0x3f with (Z.ones 6). by rewrite Z.land_ones by lia. }
  split_and!; try done.
  - intros pin Hpin. unfold periph_no_to_gpio, tzio_periph_to_io_signal_no. cbn [periph_types lookup].
    change (periph_types !! Z.to_nat 0) with (Some PERIPH_GPIO). cbv iota. rewrite Hland0, Z.mod_small by lia. done.
  - intros bus Hbus. assert (bus = 0 ∨ bus = 1) as [->| ->] by lia; done.
  - intros ty no Hty Hno. unfold tzio_periph_to_io_signal_no. destruct (Z.ltb_spec ty 4).
    + assert (ty = 0 ∨ ty = 1 ∨ ty = 2 ∨ ty = 3) as [->|[->|[->| ->]]] by lia; cbn -[Z.land Z.modulo u32];
        rewrite ?Hland; try done. rewrite Hland0 by done. by rewrite Z.add_0_r.
    + rewrite lookup_ge_None_2; [done|]. change (length periph_types) with 4%nat. lia.
Qed.

(** ** Witnesses

    The I/O helper with one finished request, on signal 0 of peripheral 40,
    and small modules. *)
Module RuntimeWitnesses.
#[local] Existing Instance Demo.E.
#[local] Existing Instance Demo.S.
#[local] Existing Instance Demo.O.

Definition idle_sched (w : sys) : sys := w.
Lemma idle_sched_ok w : rtc serve_step w (idle_sched w).
Proof. done. Qed.
Definition plenty (w : sys) : bool := true.
Definition client : TeeClient sys := kernel_client idle_sched plenty.
#[local] Existing Instance client.
Definition helper : IoHelper sys := kernel_helper idle_sched idle_sched_ok plenty.
#[local] Existing Instance helper.

Definition aot_module : module_inst :=
  ModuleInst Wasm_Module_AoT (Some [NULL_REF; 1]) [0; 0] [7] [100; 101] 0.
Definition interp_module : module_inst :=
  ModuleInst Wasm_Module_Bytecode (Some [NULL_REF; 2]) [] [] [] 3.

Lemma aot_module_ok : module_ok aot_module.
Proof.
  eexists. split; [reflexivity|]. intros e [->|[->|[]%elem_of_nil]%elem_of_cons]%elem_of_cons Hne; [done|].
  split; [done|]. by exists 0, 7, 101.
Qed.
Lemma interp_module_ok : module_ok interp_module.
Proof.
  intros t e [= <-]. intros [->|[->|[]%elem_of_nil]%elem_of_cons]%elem_of_cons; by unfold NULL_REF.
Qed.

(** A state of the I/O helper in which one request of peripheral 40 is
    finished and there is no other. *)
Lemma demo_used q : in_sig q → sig_of Demo.demo_k5 40 q ≠ SigFree → q = 0.
Proof.
  intros Hq Hs. assert (forallb (λ j, bool_decide (sig_of Demo.demo_k5 40 j = SigFree)) (seqZ 1 63) = true) as Hall
    by (vm_compute; reflexivity).
  rewrite forallb_forall in Hall. destruct (decide (q = 0)); [done|]. destruct Hs.
  apply (bool_decide_unpack _). apply Is_true_true_2, Hall. apply list_elem_of_In, elem_of_seqZ.
  unfold in_sig, N_SUB_SIG in Hq. lia.
Qed.

Lemma demo_world : ∃ w : sys, reachable w ∧ sig_of w.1 40 0 = SigReady
  ∧ ∀ q, in_sig q → sig_of w.1 40 q ≠ SigFree → q = 0.
Proof.
  destruct Demo.demo_reach_ready as (pc&Hr&_). exists (Demo.demo_k5, pc).
  split_and!; [done|apply Demo.demo_ready|apply demo_used].
Qed.

Definition waiting_state (w : sys) : rstate sys := set_pending (2 ^ 40) (r_init w).
Lemma waiting_pending w : 0 <= io_sigpending (waiting_state w) < 2 ^ 63.
Proof. cbn [io_sigpending waiting_state set_pending]. lia. Qed.
Lemma waiting_awaits w p : in_periph p → awaits (waiting_state w) p → p = 40.
Proof. unfold awaits, in_periph. cbn [io_sigpending waiting_state set_pending]. intros. by rewrite Z.pow2_bits_eqb, Z.eqb_eq in * by lia. Qed.

Lemma ready_signal_reference_witness : ∃ w, let s := waiting_state w in
  get_ready_signal s = if io_sigpending s =? 0 then Ok (-1, None) s else scan (awaited (io_sigpending s)) s.
Proof.
  destruct demo_world as (w&_). exists w. exact (ready_signal_reference (waiting_state w) (waiting_pending w)).
Defined.

Lemma runtime_finds_ready_witness : ∃ w q s',
  reachable w ∧ get_ready_signal (waiting_state w) = Ok (1, Some (40, q)) s' ∧ reachable (r_world s').
Proof.
  destruct demo_world as (w&Hr&Hrdy&_). exists w.
  pose proof (runtime_finds_ready idle_sched idle_sched_ok plenty (waiting_state w) Hr (waiting_pending w)) as Hw.
  unfold wp in Hw. destruct (get_ready_signal _) as [[r sig] s'| |]; [|done|done].
  destruct Hw as (Hr'&_&Hsig&Hlow&_). destruct sig as [[p q]|].
  - destruct Hsig as (->&Ha&Hp&_). exists q, s'. by rewrite (waiting_awaits w p Hp Ha).
  - by destruct (Hlow 40 ltac:(done) ltac:(done) I 0).
Defined.

Lemma signal_63_undefined_witness : ∃ w,
  get_ready_signal (set_pending (2 ^ 63) (r_init w)) = Undef UB_shift.
Proof.
  destruct demo_world as (w&_). exists w. apply (signal_63_undefined (set_pending (2 ^ 63) (r_init w))). reflexivity.
Defined.

Lemma demo_wf w : reachable w → rt_wf aot_module (r_init w).
Proof. intros Hr. by apply (rt_wf_init aot_module (λ _, False)). Qed.

Lemma register_handler_contract_witness : ∃ w s', reachable w
  ∧ tzio_register_handler (Some aot_module) 40 0 1 (r_init w) = Ok 0 s'
  ∧ registered aot_module (r_init w) 40 0 1 s'.
Proof.
  destruct demo_world as (w&Hr&_). exists w.
  pose proof (register_handler_contract aot_module _ 40 0 1 aot_module_ok (demo_wf w Hr)
    ltac:(done) ltac:(done) ltac:(done) ltac:(done) ltac:(done)) as Hw.
  unfold wp in Hw. destruct (tzio_register_handler _ _ _ _ _) as [r s'| |]; [|done|done].
  destruct Hw as [-> ?]. by exists s'.
Defined.

Definition quiet_body (c p q : Z) : prog sys := Halt.
Definition only (p p' : Z) : Prop := p' = p.

(** A handler registered for the finished request. *)
Lemma demo_calm : ∃ s : rstate sys, calm aot_module (only 40) s ∧ awaits s 40 ∧ ¬ no_ready (sig_now s 40).
Proof.
  destruct demo_world as (w&Hr&Hrdy&Hused).
  assert (match tzio_register_handler (Some aot_module) 40 0 1 (r_init w) with
          | Ok _ s => handler s 40 0 ≠ FNull ∧ awaits s 40 ∧ in_handler s = 0 ∧ r_world s = w
          | _ => False end) as Hx by (vm_compute; split_and!; [discriminate|reflexivity..]).
  pose proof (register_ok aot_module (r_init w) 40 0 1 aot_module_ok (demo_wf w Hr)
    ltac:(lia) ltac:(done) ltac:(lia)) as Hw. unfold wp in Hw.
  destruct (tzio_register_handler _ _ _ _ _) as [r s| |]; [|done|done].
  destruct Hx as (Hh&Ha&Hin&Hww), Hw as [_ Hreg]. exists s. unfold sig_now. rewrite Hww.
  split_and!; [|done|by intros Hno; destruct (Hno 0)]. split_and!; [split; [apply Hreg| |done]|by rewrite (rg_log _ _ _ _ _ _ Hreg)..].
  split.
  - intros p Hp. rewrite (rg_await _ _ _ _ _ _ Hreg), Z.setbit_eqb by lia.
    change (awaiting (r_init w)) with 0. rewrite Z.bits_0, orb_false_r. by intros <-%Z.eqb_eq.
  - intros p q Hp Hq ->. unfold sig_now. rewrite Hww. intros Hs. by rewrite (Hused q Hq Hs).
Qed.

Lemma checkpoint_dispatches_witness : ∃ s s' : rstate sys, awaits s 40 ∧ ¬ no_ready (sig_now s 40)
  ∧ checkpoint aot_module (call_with quiet_body (run aot_module quiet_body 0)) s = Ok tt s' ∧ dispatched s s'.
Proof.
  destruct demo_calm as (s&Hs&Ha&Hrdy). exists s.
  pose proof (checkpoint_dispatches aot_module (only 40) true quiet_body 0 s (λ _ _ _, I) Hs) as Hw.
  unfold wp in Hw. destruct (checkpoint _ _ s) as [[] s'| |]; [|done|done]. destruct Hw as [_ Hd]. by exists s'.
Defined.

(** An application that registers a handler and passes a checkpoint. *)
Definition demo_app : prog sys :=
  Native (tzio_register_handler (Some interp_module) 3 0 1) (λ _, Checkpoint Halt).

Lemma runtime_safe_witness :
  wp true (run interp_module quiet_body 1 demo_app) (λ _ s', rt_wf interp_module s' ∧ covered (only 3) s'
    ∧ in_handler s' = 0 ∧ call_depth (r_log s') = 0 ∧ calls_ok (r_log s')) (r_init sys_init).
Proof.
  apply (runtime_safe interp_module (only 3) true quiet_body 0 demo_app sys_init).
  - apply rtc_refl.
  - intros p Hp _ q Hq. pose proof (rel_sig _ _ p q (proj1 sim_init) Hp Hq) as Hs. exact Hs.
  - split; [|exact (λ _, I)]. by apply (register_native_ok interp_module (only 3) true 3 0 1 interp_module_ok).
  - exact (λ _ _ _, I).
Defined.
End RuntimeWitnesses.
