(* ===== verification/AppMemory.v ===== *)
(** * The application's memory and fat pointers

    The linear memory of a WebAssembly application as the native library
    (native_tzio/tzio_lib.c) sees it: the checks of the runtime
    (wasm_runtime.c, aot_runtime.c), loads and stores of little-endian words,
    and the fat pointers the library asks for: 17 bits of address below 7 bits
    of tag and 8 bits of signature. *)

From Stdlib Require Import ZArith Lia Bool.
From stdpp Require Import base tactics option list numbers.
From S2P Require Import Prelude.

Open Scope Z_scope.

(** ** Fat pointers (tzio_lib.c) *)

Definition FAT_PTR_ADDRESS_MASK : Z := 0x0001FFFF.
Definition FAT_PTR_SIGNATURE_MASK : Z := 0xFF000000.
Definition FAT_PTR_TAG_MASK : Z := 0x00FE0000.
Definition global_signature : list Z := [0xE5; 0x12].

Definition get_signature (fat_ptr : Z) : Z := u8 (Z.shiftr (Z.land fat_ptr FAT_PTR_SIGNATURE_MASK) 24).
Definition get_tag (fat_ptr : Z) : Z := u8 (Z.shiftr (Z.land fat_ptr FAT_PTR_TAG_MASK) 17).
Definition clear_signature_and_tag (fat_ptr : Z) : Z := Z.land fat_ptr FAT_PTR_ADDRESS_MASK.

Definition check_ptr_signed (original_buf : Z) : bool :=
  let signature := get_signature original_buf in
  let tag := get_tag original_buf in
  if negb (signature =? nth 0 global_signature 0) || negb (tag =? nth 1 global_signature 0)
  then false else true.

Definition sign_ptr_wrapper (original_ptr signature tag : Z) : Z :=
  let fat_ptr := Z.land original_ptr FAT_PTR_ADDRESS_MASK in
  Z.lor fat_ptr (Z.lor (Z.shiftl (Z.land signature 0xFF) 24) (Z.shiftl (Z.land tag 0x7F) 17)).

(** The pointer the library accepts for an address. *)
Definition signed_ptr (addr : Z) : Z := sign_ptr_wrapper addr 0xE5 0x12.

(** ** Linear memory

    The bytes of the default memory; a module may have none. *)

Abbreviation linear := (list Z).

(** The size the checks compare with is a 32-bit product. *)
Definition memory_data_size (m : linear) : Z := u32 (Z.of_nat (length m)).

Definition validate_app_addr (mem : option linear) (app_offset size : Z) : bool :=
  match mem with
  | None => false
  | Some m =>
      if u32 (app_offset + size) <? app_offset then false
      else u32 (app_offset + size) <=? memory_data_size m
  end.

(** An address in the memory, or NULL. *)
Definition addr_app_to_native (mem : option linear) (app_offset : Z) : option Z :=
  match mem with
  | None => None
  | Some m => if app_offset <? Z.of_nat (length m) then Some app_offset else None
  end.

Definition slice (m : linear) (a n : Z) : list Z := take (Z.to_nat n) (drop (Z.to_nat a) m).
Definition splice (m : linear) (a : Z) (l : list Z) : linear :=
  take (Z.to_nat a) m ++ l ++ drop (Z.to_nat a + length l) m.

(** The word stored in little-endian bytes. *)
Fixpoint unle (l : list Z) : Z := match l with [] => 0 | b :: l => b + 256 * unle l end.

(** ** Facts *)

Definition byte (b : Z) : Prop := 0 <= b < 256.

Lemma le_byte n x : Forall byte (le n x).
Proof. revert x; induction n as [|n IH]; intros x; cbn; constructor; [apply Z.mod_pos_bound; lia|apply IH]. Qed.

Lemma unle_le n x : unle (le n x) = x mod 2 ^ (8 * Z.of_nat n).
Proof.
  revert x; induction n as [|n IH]; intros x; [by rewrite Z.mod_1_r|].
  cbn [le unle]. rewrite IH. replace (8 * Z.of_nat (S n)) with (8 + 8 * Z.of_nat n) by lia.
  rewrite Z.pow_add_r by lia. change (2 ^ 8) with 256.
  rewrite Z.rem_mul_r; [done|lia|apply Z.pow_pos_nonneg; lia].
Qed.

Lemma unle_range l : Forall byte l → 0 <= unle l < 2 ^ (8 * Z.of_nat (length l)).
Proof.
  induction 1 as [|b l Hb _ IH]; [cbn; lia|]. cbn [unle length].
  replace (8 * Z.of_nat (S (length l))) with (8 + 8 * Z.of_nat (length l)) by lia.
  rewrite Z.pow_add_r by lia. unfold byte in Hb. lia.
Qed.

Section memory.
Implicit Types (m : linear) (l : list Z).

(** An accepted range lies in the memory. *)
Lemma validate_bounds m a n : 0 <= a < 2 ^ 32 → 0 <= n < 2 ^ 32 →
  validate_app_addr (Some m) a n = true → a + n <= Z.of_nat (length m).
Proof.
  intros Ha Hn. unfold validate_app_addr, memory_data_size. destruct (Z.ltb_spec (u32 (a + n)) a); [done|].
  intros Hle%Z.leb_le. assert (u32 (a + n) = a + n) as E.
  { unfold u32 in *. destruct (Z.lt_ge_cases (a + n) (2 ^ 32)); [by apply Z.mod_small; lia|].
    replace (a + n) with ((a + n - 2 ^ 32) + 1 * 2 ^ 32) in * by lia.
    rewrite Z.mod_add, Z.mod_small in * by lia. lia. }
  rewrite E in Hle. unfold u32 in Hle. pose proof (Z.mod_le (Z.of_nat (length m)) (2 ^ 32)). lia.
Qed.

(** Memories below 4 GiB accept every range inside them. *)
Lemma validate_inside m a n : 0 <= a → 0 <= n → a + n <= Z.of_nat (length m) < 2 ^ 32 →
  validate_app_addr (Some m) a n = true.
Proof.
  intros Ha Hn Hle. unfold validate_app_addr, memory_data_size. rewrite !u32_id by lia.
  rewrite (proj2 (Z.ltb_ge _ _)) by lia. apply Z.leb_le. lia.
Qed.

Lemma slice_length m a n : 0 <= a → 0 <= n → a + n <= Z.of_nat (length m) → length (slice m a n) = Z.to_nat n.
Proof. intros. unfold slice. rewrite length_take, length_drop. lia. Qed.

Lemma slice_byte m a n : Forall byte m → Forall byte (slice m a n).
Proof. intros. by apply Forall_take, Forall_drop. Qed.

Lemma splice_length m a l : 0 <= a → a + Z.of_nat (length l) <= Z.of_nat (length m) → length (splice m a l) = length m.
Proof. intros. unfold splice. rewrite !length_app, length_take, length_drop. lia. Qed.

Lemma splice_byte m a l : Forall byte m → Forall byte l → Forall byte (splice m a l).
Proof. intros. unfold splice. apply Forall_app. split; [by apply Forall_take|]. apply Forall_app. split; [done|by apply Forall_drop]. Qed.

Lemma splice_nil m a : splice m a [] = m.
Proof. unfold splice. cbn. by rewrite Nat.add_0_r, take_drop. Qed.

Lemma slice_splice m a l : 0 <= a → a + Z.of_nat (length l) <= Z.of_nat (length m) →
  slice (splice m a l) a (Z.of_nat (length l)) = l.
Proof.
  intros. unfold slice, splice. rewrite drop_app_ge by (rewrite length_take; lia). rewrite length_take.
  replace (Z.to_nat a - _)%nat with 0%nat by lia. by rewrite Nat2Z.id, drop_0, take_app_length.
Qed.

Lemma lookup_splice_other m a l (i : nat) : 0 <= a → a + Z.of_nat (length l) <= Z.of_nat (length m) →
  ¬ (a <= Z.of_nat i < a + Z.of_nat (length l)) → splice m a l !! i = m !! i.
Proof.
  intros Ha Hl Hi. unfold splice. destruct (decide (i < Z.to_nat a)%nat).
  - rewrite lookup_app_l by (rewrite length_take; lia). by rewrite lookup_take_lt.
  - rewrite lookup_app_r by (rewrite length_take; lia). rewrite length_take.
    rewrite lookup_app_r by lia. rewrite lookup_drop. f_equal. lia.
Qed.
End memory.

(** Two memories of the same size that agree outside some windows. *)
Definition outside (ws : list (Z * Z)) (i : nat) : Prop :=
  ∀ a n, (a, n) ∈ ws → ¬ (a <= Z.of_nat i < a + n).
Record same_outside (ws : list (Z * Z)) (m m' : linear) : Prop := {
  so_length : length m' = length m;
  so_same i : outside ws i → m' !! i = m !! i
}.
#[export] Instance same_outside_preorder ws : PreOrder (same_outside ws).
Proof.
  split; [done|]. intros m1 m2 m3 [L1 S1] [L2 S2]. split; [congruence|]. intros i Hi. by rewrite S2, S1.
Qed.

Lemma splice_same ws m a n l : (a, n) ∈ ws → 0 <= a → Z.of_nat (length l) <= n → a + n <= Z.of_nat (length m) →
  same_outside ws m (splice m a l).
Proof.
  intros Hw Ha Hl Hb. split; [apply splice_length; lia|]. intros i Hi. apply lookup_splice_other; [lia|lia|].
  specialize (Hi a n Hw). lia.
Qed.

(** ** Fat pointers: signing and checking are inverse *)

Lemma clear_range p : 0 <= clear_signature_and_tag p < 2 ^ 17.
Proof.
  unfold clear_signature_and_tag, FAT_PTR_ADDRESS_MASK. change 0x1FFFF with (Z.ones 17).
  rewrite Z.land_ones by lia. by apply Z.mod_pos_bound.
Qed.

(** A pointer as the sum of its three fields. *)
Lemma fat_fields p : 0 <= p < 2 ^ 32 →
  p = clear_signature_and_tag p + get_tag p * 2 ^ 17 + get_signature p * 2 ^ 24
  ∧ get_tag p < 2 ^ 7.
Proof.
  intros Hp. unfold clear_signature_and_tag, get_tag, get_signature, FAT_PTR_ADDRESS_MASK, FAT_PTR_TAG_MASK, FAT_PTR_SIGNATURE_MASK.
  assert (Z.shiftr (Z.land p 0xFE0000) 17 = (p / 2 ^ 17) mod 2 ^ 7) as ->.
  { rewrite Z.shiftr_land. change (Z.shiftr 0xFE0000 17) with (Z.ones 7).
    by rewrite Z.land_ones, Z.shiftr_div_pow2 by lia. }
  assert (Z.shiftr (Z.land p 0xFF000000) 24 = (p / 2 ^ 24) mod 2 ^ 8) as ->.
  { rewrite Z.shiftr_land. change (Z.shiftr 0xFF000000 24) with (Z.ones 8).
    by rewrite Z.land_ones, Z.shiftr_div_pow2 by lia. }
  change 0x1FFFF with (Z.ones 17). rewrite Z.land_ones by lia. unfold u8.
  pose proof (Z.mod_pos_bound (p / 2 ^ 17) (2 ^ 7)). rewrite (Z.mod_small _ (2 ^ 8)) by lia. rewrite Z.mod_mod by lia.
  assert (0 <= p / 2 ^ 24 < 2 ^ 8) as H24.
  { split; [apply Z.div_pos; lia|apply Z.div_lt_upper_bound; lia]. }
  rewrite (Z.mod_small (p / 2 ^ 24)) by lia.
  assert (p / 2 ^ 24 = p / 2 ^ 17 / 2 ^ 7) as E24 by by rewrite Z.div_div by lia.
  rewrite E24. pose proof (Z.div_mod p (2 ^ 17)). pose proof (Z.div_mod (p / 2 ^ 17) (2 ^ 7)). lia.
Qed.

Lemma sign_fields addr sg tag : 0 <= addr → 0 <= sg → 0 <= tag →
  sign_ptr_wrapper addr sg tag = addr mod 2 ^ 17 + (tag mod 2 ^ 7) * 2 ^ 17 + (sg mod 2 ^ 8) * 2 ^ 24.
Proof.
  intros. unfold sign_ptr_wrapper, FAT_PTR_ADDRESS_MASK.
  change 0x1FFFF with (Z.ones 17). change 0xFF with (Z.ones 8). change 0x7F with (Z.ones 7). rewrite !Z.land_ones by lia.
  pose proof (Z.mod_pos_bound addr (2 ^ 17)). pose proof (Z.mod_pos_bound tag (2 ^ 7)).
  rewrite (lor_shiftl_add (sg mod 2 ^ 8) (Z.shiftl _ 17) 24); [|lia|rewrite Z.shiftl_mul_pow2; lia].
  rewrite Z.shiftl_mul_pow2, Z.lor_comm by lia.
  replace (sg mod 2 ^ 8 * 2 ^ 24 + tag mod 2 ^ 7 * 2 ^ 17) with (Z.shiftl (sg mod 2 ^ 8 * 2 ^ 7 + tag mod 2 ^ 7) 17)
    by (rewrite Z.shiftl_mul_pow2; lia).
  rewrite lor_shiftl_add by lia. lia.
Qed.

Lemma check_fields p : check_ptr_signed p = true ↔ get_signature p = 0xE5 ∧ get_tag p = 0x12.
Proof.
  unfold check_ptr_signed. cbn [nth global_signature].
  destruct (Z.eqb_spec (get_signature p) 0xE5), (Z.eqb_spec (get_tag p) 0x12); cbn; intuition congruence.
Qed.

Lemma check_signed p : 0 <= p < 2 ^ 32 → check_ptr_signed p = true → p = signed_ptr (clear_signature_and_tag p).
Proof.
  intros Hp [Es Et]%check_fields. destruct (fat_fields p Hp) as [E _]. unfold signed_ptr.
  pose proof (clear_range p). rewrite sign_fields by lia. rewrite (Z.mod_small (clear_signature_and_tag p)) by lia.
  rewrite Es, Et in E. change (0x12 mod 2 ^ 7) with 0x12. change (0xE5 mod 2 ^ 8) with 0xE5. exact E.
Qed.

Lemma signed_ok addr : 0 <= addr < 2 ^ 17 →
  check_ptr_signed (signed_ptr addr) = true ∧ clear_signature_and_tag (signed_ptr addr) = addr
  ∧ 0 <= signed_ptr addr < 2 ^ 32.
Proof.
  intros Ha. unfold signed_ptr. rewrite sign_fields by lia. rewrite Z.mod_small by lia.
  change (0x12 mod 2 ^ 7) with 0x12. change (0xE5 mod 2 ^ 8) with 0xE5.
  set (p := addr + _ + _). assert (0 <= p < 2 ^ 32) as Hp by lia.
  destruct (fat_fields p Hp) as [E Ht]. pose proof (clear_range p) as Hc.
  assert (0 <= get_tag p) by (unfold get_tag; apply u8_range). pose proof (u8_range (Z.shiftr (Z.land p FAT_PTR_SIGNATURE_MASK) 24)).
  fold (get_signature p) in *. split_and!; [|lia..]. apply check_fields. lia.
Qed.
