(* ===== verification/TeeApi.v ===== *)
(** * The trusted application under the native library

    The state of the native library (static variables of tzio_lib.c) beside
    the application's memory, the system it calls, and the client side of an
    invocation: TEE_InvokeTACommand (libutee/tee_api.c) copies memory
    parameters into fresh zeroed memory, calls the kernel and copies output
    back, so the kernel and the other trusted applications never see the
    application's memory itself. *)

From Stdlib Require Import ZArith Lia Bool.
From stdpp Require Import base tactics option list numbers gmap.
From S2P Require Import Prelude Platform Params Pta Runtime AppMemory.

Open Scope Z_scope.

(** ** The system below

    Kernel and library calls, as functions of the state [W] of the system.
    Storage objects have handles; [obj_read] takes the handle, the size of the
    buffer and the old count, and gives the result, the bytes delivered and
    the new count.  [indeterminate] is what an indeterminate byte of the
    kernel holds when it reaches the application. *)

#[export] Instance service_eq_dec : EqDecision service.
Proof. solve_decision. Defined.

Class TeeServices (W : Type) := {
  svc_open : service → M W Z;
  svc_invoke : service → Z → Z → uparams → M W (Z * uparams);
  tee_map_zi : Z → M W bool;
  tee_system_time : M W (Z * Z);
  ta_malloc : Z → M W bool;
  indeterminate : W → nat → Z;
  obj_create : list Z → Z → M W (Z * Z);
  obj_open : list Z → Z → M W (Z * Z);
  obj_write : Z → list Z → M W Z;
  obj_info : Z → M W (Z * Z);
  obj_read : Z → Z → Z → M W (Z * list Z * Z);
  obj_close : Z → M W unit;
  obj_delete : Z → M W unit
}.

(** ** State *)

Definition N_TIMES : Z := 10.

Record app (W : Type) := App {
  app_sys : W;
  app_mem : option linear;            (* the default memory of the module *)
  app_exception : bool;               (* the runtime has an exception pending *)
  app_sess : service → bool;          (* i2c_sess, spi_sess, ... are open *)
  app_io_helper_sess : bool;
  app_times : list (Z * Z);
  global_poll_times : Z
}.
Arguments App {W}.
Arguments app_sys {W}.
Arguments app_mem {W}.
Arguments app_exception {W}.
Arguments app_sess {W}.
Arguments app_io_helper_sess {W}.
Arguments app_times {W}.
Arguments global_poll_times {W}.

Section setters.
Context {W : Type}.
Implicit Type s : app W.
Definition set_app_sys (x : W) s := App x (app_mem s) (app_exception s) (app_sess s) (app_io_helper_sess s) (app_times s) (global_poll_times s).
Definition set_app_mem x s := App (app_sys s) x (app_exception s) (app_sess s) (app_io_helper_sess s) (app_times s) (global_poll_times s).
Definition set_app_exception x s := App (app_sys s) (app_mem s) x (app_sess s) (app_io_helper_sess s) (app_times s) (global_poll_times s).
Definition set_app_sess (svc : service) s := App (app_sys s) (app_mem s) (app_exception s)
  (λ svc', bool_decide (svc' = svc) || app_sess s svc') (app_io_helper_sess s) (app_times s) (global_poll_times s).
Definition set_app_io_helper_sess x s := App (app_sys s) (app_mem s) (app_exception s) (app_sess s) x (app_times s) (global_poll_times s).
Definition set_app_times x s := App (app_sys s) (app_mem s) (app_exception s) (app_sess s) (app_io_helper_sess s) x (global_poll_times s).
Definition set_global_poll_times x s := App (app_sys s) (app_mem s) (app_exception s) (app_sess s) (app_io_helper_sess s) (app_times s) x.
End setters.

(** The library as it is loaded. *)
Definition app_init {W} (w : W) (mem : option linear) : app W :=
  App w mem false (λ _, false) false (replicate (Z.to_nat N_TIMES) (0, 0)) 0.

Section api.
Context {W : Type} `{!TeeClient W, !TeeServices W}.

Definition L (A : Type) : Type := M (app W) A.
Definition on_sys {A} (m : M W A) : L A := zoom app_sys set_app_sys m.

(** The calls the runtime makes for itself, from the same system. *)
#[export] Instance app_client : TeeClient (app W) := {|
  tee_open := on_sys tee_open;
  tee_invoke := λ cmd types ps, on_sys (tee_invoke cmd types ps);
  runtime_malloc := on_sys runtime_malloc
|}.

(** ** Memory *)

(** A range that is refused also leaves an exception in the module. *)
Definition wasm_runtime_validate_app_addr (app_offset size : Z) : L bool :=
  mem ← gets app_mem;
  if validate_app_addr mem app_offset size then mret true
  else modify (set_app_exception true);; mret false.

Definition wasm_runtime_addr_app_to_native (app_offset : Z) : L (option Z) :=
  mem ← gets app_mem; mret (addr_app_to_native mem app_offset).

(** Loads and stores through a native pointer. *)
Definition mem_load (p : option Z) (n : Z) : L (list Z) :=
  mem ← gets app_mem;
  match mem, p with
  | Some m, Some a => if a + n <=? Z.of_nat (length m) then mret (slice m a n) else undef UB_oob
  | _, _ => undef UB_null
  end.
Definition mem_store (p : option Z) (l : list Z) : L unit :=
  mem ← gets app_mem;
  match mem, p with
  | Some m, Some a =>
      if a + Z.of_nat (length l) <=? Z.of_nat (length m) then modify (set_app_mem (Some (splice m a l)))
      else undef UB_oob
  | _, _ => undef UB_null
  end.
Definition load_u32 (p : option Z) : L Z := l ← mem_load p 4; mret (unle l).
Definition store_u8 (p : option Z) (x : Z) : L unit := mem_store p (le 1 x).
Definition store_u16 (p : option Z) (x : Z) : L unit := mem_store p (le 2 x).
Definition store_u32 (p : option Z) (x : Z) : L unit := mem_store p (le 4 x).
Definition store_u64 (p : option Z) (x : Z) : L unit := mem_store p (le 8 x).

(** ** Invocations (tee_api.c)

    A parameter on the client's side: memory is a pointer into the
    application's memory, or NULL. *)
Inductive tparam := TNone | TValue (a b : Z) | TMemref (buffer : option Z) (size : Z).
Definition tparams : Type := list tparam.

Definition tvalue_a (ps : tparams) (i : Z) : L Z :=
  p ← arr_get ps i; match p with TValue a _ => mret a | _ => undef UB_union end.
Definition tvalue_b (ps : tparams) (i : Z) : L Z :=
  p ← arr_get ps i; match p with TValue _ b => mret b | _ => undef UB_union end.
Definition tsize (ps : tparams) (i : Z) : L Z :=
  p ← arr_get ps i; match p with TMemref _ n => mret n | _ => undef UB_union end.

Definition type_is_value (ty : Z) : bool := (1 <=? ty) && (ty <=? 3).
Definition type_is_memref (ty : Z) : bool := (5 <=? ty) && (ty <=? 7).

(** What the kernel is given for a parameter: values that are only output are
    zero, memory is a copy, zeroed if it is only output. *)
Definition copy_param (ty : Z) (p : tparam) : L uparam :=
  if type_is_value ty then
    if ty =? TEE_PARAM_TYPE_VALUE_OUTPUT then mret (UValue 0 0)
    else match p with TValue a b => mret (UValue a b) | _ => undef UB_union end
  else if type_is_memref ty then
    match p with
    | TMemref b n =>
        if n =? 0 then mret (UMemref [] 0)
        else l ← mem_load b n;
             mret (UMemref (if ty =? TEE_PARAM_TYPE_MEMREF_OUTPUT then bytes (replicate (length l) 0) else bytes l) n)
    | _ => undef UB_union
    end
  else mret UNone.

Fixpoint copy_params (types i : Z) (ps : tparams) : L uparams :=
  match ps with
  | [] => mret []
  | p :: ps => u ← copy_param (nib types i) p; us ← copy_params types (i + 1) ps; mret (u :: us)
  end.

(** The temporary memory [map_tmp_param] asks for. *)
Definition tmp_align : Z := 16.
Definition tmp_len (us : uparams) : Z :=
  foldr (λ u n, match u with UMemref _ s => (s + tmp_align - 1) / tmp_align * tmp_align + n | _ => n end) 0 us.

(** The bytes the application gets for a buffer of the kernel. *)
Definition settle (w : W) (b : buf) : list Z := imap (λ i o, u8 (default (indeterminate w i) o)) b.

Definition update_out_param (ty : Z) (p : tparam) (u : uparam) : L tparam :=
  if (ty =? TEE_PARAM_TYPE_VALUE_OUTPUT) || (ty =? TEE_PARAM_TYPE_VALUE_INOUT) then
    match u with UValue a b => mret (TValue (u32 a) (u32 b)) | _ => undef UB_union end
  else if (ty =? TEE_PARAM_TYPE_MEMREF_OUTPUT) || (ty =? TEE_PARAM_TYPE_MEMREF_INOUT) then
    match p, u with
    | TMemref b n, UMemref tmp n' =>
        w ← gets app_sys;
        (if n =? 0 then mret () else mem_store b (settle w (take (Z.to_nat (Z.min n' n)) tmp)));;
        mret (TMemref b n')
    | _, _ => undef UB_union
    end
  else mret p.

Fixpoint update_out_params (types i : Z) (ps : tparams) (us : uparams) : L tparams :=
  match ps, us with
  | p :: ps, u :: us =>
      p ← update_out_param (nib types i) p u; ps ← update_out_params types (i + 1) ps us; mret (p :: ps)
  | _, _ => mret ps
  end.

(** [invoke] is the system call on an open session. *)
Definition TEE_InvokeTACommand (invoke : Z → Z → uparams → M W (Z * uparams))
    (commandID paramTypes : Z) (params : tparams) : L (Z * tparams) :=
  up ← copy_params paramTypes 0 params;
  mapped ← (if 0 <? tmp_len up then on_sys (tee_map_zi (tmp_len up)) else mret true);
  if negb mapped then mret (TEE_ERROR_OUT_OF_MEMORY, params) else
  '(res, up) ← on_sys (invoke commandID paramTypes up);
  params ← update_out_params paramTypes 0 params up;
  mret (res, params).

(** ** Sessions (tzio_lib.c)

    The functions invoke_..._pta are the same up to the service. *)
Definition invoke_pta (svc : service) (cmd_id param_types : Z) (params : tparams) : L (Z * tparams) :=
  sess ← gets (λ s, app_sess s svc);
  res ← (if sess : bool then mret TEE_SUCCESS else
           res ← on_sys (svc_open svc);
           if negb (res =? TEE_SUCCESS) then mret res else
           modify (set_app_sess svc);; mret TEE_SUCCESS);
  if negb (res =? TEE_SUCCESS) then mret (res, params) else
  TEE_InvokeTACommand (svc_invoke svc) cmd_id param_types params.

Definition invoke_i2c_pta := invoke_pta I2C_SERVICE.
Definition invoke_spi_pta := invoke_pta SPI_SERVICE.
Definition invoke_dht_pta := invoke_pta DHT_SERVICE.
Definition invoke_bh1750fvi_pta := invoke_pta BH1750FVI_SERVICE.
Definition invoke_mpu6050_pta := invoke_pta MPU6050_SERVICE.
Definition invoke_w25qxx_pta := invoke_pta W25QXX_SERVICE.
Definition invoke_tel0157_pta := invoke_pta TEL0157_SERVICE.
Definition invoke_at24cxx_pta := invoke_pta AT24CXX_SERVICE.
Definition invoke_atk301_pta := invoke_pta ATK301_SERVICE.

(** The library's own session with the I/O helper. *)
Definition invoke_io_helper_pta (cmd_id param_types : Z) (params : tparams) : L (Z * tparams) :=
  sess ← gets app_io_helper_sess;
  res ← (if sess : bool then mret TEE_SUCCESS else
           res ← on_sys tee_open;
           if negb (res =? TEE_SUCCESS) then mret res else
           modify (set_app_io_helper_sess true);; mret TEE_SUCCESS);
  if negb (res =? TEE_SUCCESS) then mret (res, params) else
  TEE_InvokeTACommand tee_invoke cmd_id param_types params.
End api.
Arguments L : clear implicits.
