(* ===== verification/Tzio.v ===== *)
(** * The native library, synchronous part (native_tzio/tzio_lib.c)

    Functions of the application that call a peripheral service and wait for
    its answer, secure storage, and the benchmark counters.  Each checks the
    fat pointers it gets, lets the runtime validate the ranges, marshals its
    arguments and invokes the service.

    Arguments are 32-bit words; a result is the 32-bit word the application
    gets, so an error code is its [TEE_Result].  The configuration is that of
    the Makefile: USE_PTA_IO_HELPER and USE_FAT_PTR_CHECK are defined,
    OVERHEAD_BENCHMARK is not. *)

From Stdlib Require Import ZArith Lia Bool.
From stdpp Require Import base tactics option list numbers gmap.
From S2P Require Import Prelude Platform Params Sensors Tel0157 Pta IoState Runtime AppMemory TeeApi.

Open Scope Z_scope.

Section wrappers.
Context {W : Type} `{!TeeClient W, !TeeServices W}.
Abbreviation L := (L W).

(** ** Checks of arguments *)

(** The code under USE_FAT_PTR_CHECK: the rest runs with the plain address. *)
Definition fat (addr : Z) (k : Z → L Z) : L Z :=
  if negb (check_ptr_signed addr) then mret TEE_ERROR_ACCESS_DENIED
  else k (clear_signature_and_tag addr).
(** The same where a null pointer is let through. *)
Definition fat0 (addr : Z) (k : Z → L Z) : L Z :=
  if negb (addr =? 0) then fat addr k else k addr.
(** Validation of a range, and its native address. *)
Definition valid (addr size : Z) (k : option Z → L Z) : L Z :=
  ok ← wasm_runtime_validate_app_addr addr size;
  if negb ok then mret TEE_ERROR_ACCESS_DENIED else
  p ← wasm_runtime_addr_app_to_native addr; k p.

(** The result of an invocation whose parameters are not looked at. *)
Definition result (m : L (Z * tparams)) : L Z := '(res, _) ← m; mret res.

(** ** Time *)

Definition record_benchmark_time_wrapper (idx : Z) : L Z :=
  if N_TIMES <=? idx then mret TEE_ERROR_BAD_PARAMETERS else
  t ← on_sys tee_system_time;
  ts ← gets app_times;
  ts ← arr_set ts idx t;
  modify (set_app_times ts);;
  mret TEE_SUCCESS.

Definition get_benchmark_time_wrapper (idx out_time_addr : Z) : L Z :=
  if N_TIMES <=? idx then mret TEE_ERROR_BAD_PARAMETERS else
  valid out_time_addr 8 (λ out_time,
  ts ← gets app_times;
  t ← arr_get ts idx;
  store_u64 out_time (teetime_to_micro t);;
  mret TEE_SUCCESS).

Definition test_ta_get_sys_time_overhead_wrapper : L Z :=
  t0 ← on_sys tee_system_time;
  t1 ← on_sys tee_system_time;
  mret (u32 (teetime_to_micro t1 - teetime_to_micro t0)).

Definition test_tee_get_sys_time_overhead_wrapper : L Z :=
  result (invoke_dht_pta PTA_CMD_TEST_GET_SYS_TIME_OVERHEAD (TEE_PARAM_TYPES NONE NONE NONE NONE)
            [TNone; TNone; TNone; TNone]).

(** ** I2C *)

Definition i2c_read_bytes_wrapper (i2c_dev addr flags dst_buf_addr buf_len : Z) : L Z :=
  fat dst_buf_addr (λ dst_buf_addr,
  valid dst_buf_addr buf_len (λ buf,
  result (invoke_i2c_pta PTA_I2C_READ_BYTES (TEE_PARAM_TYPES VALUE_IN VALUE_IN MEM_OUT NONE)
            [TValue i2c_dev addr; TValue flags 0; TMemref buf buf_len; TNone]))).

Definition i2c_write_bytes_wrapper (i2c_dev addr flags src_buf_addr buf_len : Z) : L Z :=
  fat src_buf_addr (λ src_buf_addr,
  valid src_buf_addr buf_len (λ buf,
  result (invoke_i2c_pta PTA_I2C_WRITE_BYTES (TEE_PARAM_TYPES VALUE_IN VALUE_IN MEM_IN NONE)
            [TValue i2c_dev addr; TValue flags 0; TMemref buf buf_len; TNone]))).

Definition i2c_set_freq_wrapper (i2c_dev i2c_freq_opt : Z) : L Z :=
  result (invoke_i2c_pta PTA_I2C_SET_FREQ (TEE_PARAM_TYPES VALUE_IN NONE NONE NONE)
            [TValue i2c_dev i2c_freq_opt; TNone; TNone; TNone]).

Definition i2c_read_regs_wrapper (i2c_dev addr flags reg dst_buf_addr buf_len : Z) : L Z :=
  fat dst_buf_addr (λ dst_buf_addr,
  valid dst_buf_addr buf_len (λ buf,
  result (invoke_i2c_pta PTA_I2C_READ_REGS (TEE_PARAM_TYPES VALUE_IN VALUE_IN MEM_OUT NONE)
            [TValue i2c_dev addr; TValue flags reg; TMemref buf buf_len; TNone]))).

(** The command is the one of [i2c_write_bytes_wrapper]. *)
Definition i2c_write_regs_wrapper (i2c_dev addr flags reg src_buf_addr buf_len : Z) : L Z :=
  fat src_buf_addr (λ src_buf_addr,
  valid src_buf_addr buf_len (λ buf,
  result (invoke_i2c_pta PTA_I2C_WRITE_BYTES (TEE_PARAM_TYPES VALUE_IN VALUE_IN MEM_IN NONE)
            [TValue i2c_dev addr; TValue flags reg; TMemref buf buf_len; TNone]))).

Definition i2c_get_overhead_timestamp_wrapper (buf_addr : Z) : L Z :=
  valid buf_addr (100 * 8) (λ buf,
  result (invoke_i2c_pta PTA_I2C_GET_OVERHEAD_TIMESTAMP (TEE_PARAM_TYPES MEM_OUT NONE NONE NONE)
            [TMemref buf (100 * 8); TNone; TNone; TNone])).

(** ** SPI *)

(** [spi_no<<16 | (spi_cs_no&0xffff)] *)
Definition spi_dev_word (spi_no spi_cs_no : Z) : Z :=
  Z.lor (u32 (Z.shiftl spi_no 16)) (Z.land spi_cs_no 0xffff).

Definition spi_transfer_byte_wrapper (spi_no spi_cs_no cont mode freq need_byte_out need_byte_in
    byte_out dst_byte_addr : Z) : L Z :=
  let transfer (byte_in : option Z) : L Z :=
    '(res, params) ← invoke_spi_pta PTA_CMD_SPI_TRANSFER_BYTE
       (TEE_PARAM_TYPES VALUE_INOUT VALUE_IN VALUE_IN VALUE_IN)
       [TValue (spi_dev_word spi_no spi_cs_no) cont; TValue mode freq;
        TValue need_byte_out need_byte_in; TValue byte_out 0];
    if negb (res =? TEE_SUCCESS) then mret res else
    (if 0 <? need_byte_in then a ← tvalue_a params 0; store_u8 byte_in a else mret ());;
    mret TEE_SUCCESS in
  fat dst_byte_addr (λ dst_byte_addr,
  if 0 <? need_byte_in then valid dst_byte_addr 1 transfer else transfer None).

(** Source and destination as both block transfers check them: an empty one
    is a null pointer. *)
Definition spi_bufs (src_len dst_len src_buf_addr dst_buf_addr : Z) (k : option Z → option Z → L Z) : L Z :=
  fat0 dst_buf_addr (λ dst_buf_addr,
  fat0 src_buf_addr (λ src_buf_addr,
  let dst src := if 0 <? dst_len then valid dst_buf_addr dst_len (k src) else k src None in
  if 0 <? src_len then valid src_buf_addr src_len dst else dst None)).

Definition spi_transfer_bytes_wrapper (spi_no spi_cs_no cont mode freq src_len dst_len
    src_buf_addr dst_buf_addr : Z) : L Z :=
  spi_bufs src_len dst_len src_buf_addr dst_buf_addr (λ src_buf dst_buf,
  result (invoke_spi_pta PTA_CMD_SPI_TRANSFER_BYTES (TEE_PARAM_TYPES VALUE_IN VALUE_IN MEM_IN MEM_OUT)
            [TValue (spi_dev_word spi_no spi_cs_no) cont; TValue mode freq;
             TMemref src_buf src_len; TMemref dst_buf dst_len])).

Definition spi_transfer_diff_bytes_wrapper (spi_no spi_cs_no cont mode freq src_len dst_len
    src_buf_addr dst_buf_addr : Z) : L Z :=
  spi_bufs src_len dst_len src_buf_addr dst_buf_addr (λ src_buf dst_buf,
  result (invoke_spi_pta PTA_CMD_SPI_TRANSFER_DIFF_BYTES (TEE_PARAM_TYPES VALUE_IN VALUE_IN MEM_IN MEM_OUT)
            [TValue (spi_dev_word spi_no spi_cs_no) cont; TValue mode freq;
             TMemref src_buf src_len; TMemref dst_buf dst_len])).

(** ** DHT *)

Definition dht_init_wrapper (pin dht_type : Z) : L Z :=
  result (invoke_dht_pta PTA_CMD_DHT_INIT (TEE_PARAM_TYPES VALUE_IN NONE NONE NONE)
            [TValue pin dht_type; TNone; TNone; TNone]).

Definition dht_read_wrapper (pin dht_type dst_temp_addr dst_hum_addr : Z) : L Z :=
  fat dst_temp_addr (λ dst_temp_addr,
  fat dst_hum_addr (λ dst_hum_addr,
  valid dst_temp_addr 2 (λ temp,
  valid dst_hum_addr 2 (λ hum,
  '(res, params) ← invoke_dht_pta PTA_CMD_DHT_READ (TEE_PARAM_TYPES VALUE_IN VALUE_OUT NONE NONE)
                     [TValue pin dht_type; TNone; TNone; TNone];
  if negb (res =? TEE_SUCCESS) then mret res else
  a ← tvalue_a params 1; store_u16 temp a;;
  b ← tvalue_b params 1; store_u16 hum b;;
  mret TEE_SUCCESS)))).

(** ** Serial flash *)

Definition w25qxx_init_wrapper (spi_no spi_cs_no : Z) : L Z :=
  result (invoke_w25qxx_pta PTA_CMD_W25QXX_INIT (TEE_PARAM_TYPES VALUE_IN NONE NONE NONE)
            [TValue spi_no spi_cs_no; TNone; TNone; TNone]).

Definition w25qxx_read_data_wrapper (spi_no spi_cs_no read_addr dst_buf_addr len : Z) : L Z :=
  fat dst_buf_addr (λ dst_buf_addr,
  valid dst_buf_addr len (λ buf,
  result (invoke_w25qxx_pta PTA_CMD_W25QXX_READ_DATA (TEE_PARAM_TYPES VALUE_IN VALUE_IN MEM_OUT NONE)
            [TValue spi_no spi_cs_no; TValue read_addr 0; TMemref buf len; TNone]))).

Definition w25qxx_page_program_wrapper (spi_no spi_cs_no write_addr dst_buf_addr len : Z) : L Z :=
  fat dst_buf_addr (λ dst_buf_addr,
  valid dst_buf_addr len (λ buf,
  result (invoke_w25qxx_pta PTA_CMD_W25QXX_PAGE_PROGRAM (TEE_PARAM_TYPES VALUE_IN VALUE_IN MEM_IN NONE)
            [TValue spi_no spi_cs_no; TValue write_addr 0; TMemref buf len; TNone]))).

Definition w25qxx_sector_erase_wrapper (spi_no spi_cs_no sector_addr : Z) : L Z :=
  result (invoke_w25qxx_pta PTA_CMD_W25QXX_SECTOR_ERASE (TEE_PARAM_TYPES VALUE_IN VALUE_IN NONE NONE)
            [TValue spi_no spi_cs_no; TValue sector_addr 0; TNone; TNone]).

Definition w25qxx_chip_erase_wrapper (spi_no spi_cs_no : Z) : L Z :=
  result (invoke_w25qxx_pta PTA_CMD_W25QXX_CHIP_ERASE (TEE_PARAM_TYPES VALUE_IN NONE NONE NONE)
            [TValue spi_no spi_cs_no; TNone; TNone; TNone]).

(** ** A word or byte answered in [params[0].value.a] *)

Definition answer (size addr : Z) (store : option Z → Z → L unit) (m : L (Z * tparams)) : L Z :=
  fat addr (λ addr,
  valid addr size (λ dst,
  '(res, params) ← m;
  if negb (res =? TEE_SUCCESS) then mret res else
  a ← tvalue_a params 0; store dst a;;
  mret TEE_SUCCESS)).

Definition w25qxx_read_id_wrapper (spi_no spi_cs_no id_dst_addr : Z) : L Z :=
  answer 2 id_dst_addr store_u16
    (invoke_w25qxx_pta PTA_CMD_W25QXX_READ_ID (TEE_PARAM_TYPES VALUE_INOUT NONE NONE NONE)
       [TValue spi_no spi_cs_no; TNone; TNone; TNone]).

Definition bh1750fvi_init_wrapper (i2c_no addr : Z) : L Z :=
  result (invoke_bh1750fvi_pta PTA_CMD_BH1750FVI_INIT (TEE_PARAM_TYPES VALUE_IN NONE NONE NONE)
            [TValue i2c_no addr; TNone; TNone; TNone]).

Definition bh1750fvi_sample_wrapper (i2c_no addr dst_lux_addr : Z) : L Z :=
  answer 2 dst_lux_addr store_u16
    (invoke_bh1750fvi_pta PTA_CMD_BH1750FVI_SAMPLE (TEE_PARAM_TYPES VALUE_INOUT NONE NONE NONE)
       [TValue i2c_no addr; TNone; TNone; TNone]).

(** ** MPU6050 *)

Definition mpu6050_init_wrapper (i2c_no i2c_addr : Z) : L Z :=
  result (invoke_mpu6050_pta PTA_CMD_MPU6050_INIT (TEE_PARAM_TYPES VALUE_IN NONE NONE NONE)
            [TValue i2c_no i2c_addr; TNone; TNone; TNone]).
Definition mpu6050_deinit_wrapper (i2c_no i2c_addr : Z) : L Z :=
  result (invoke_mpu6050_pta PTA_CMD_MPU6050_DEINIT (TEE_PARAM_TYPES VALUE_IN NONE NONE NONE)
            [TValue i2c_no i2c_addr; TNone; TNone; TNone]).

(** A record of the device stored straight into the application's memory. *)
Definition fetch (size addr : Z) (invoke : tparams → L (Z * tparams)) (i2c_no i2c_addr : Z) : L Z :=
  fat addr (λ addr,
  valid addr size (λ buf,
  result (invoke [TValue i2c_no i2c_addr; TMemref buf size; TNone; TNone]))).

Definition mpu6050_sample_wrapper (i2c_no i2c_addr dst_addr : Z) : L Z :=
  fetch 14 dst_addr (invoke_mpu6050_pta PTA_CMD_MPU6050_SAMPLE (TEE_PARAM_TYPES VALUE_IN MEM_OUT NONE NONE))
    i2c_no i2c_addr.

(** ** GNSS receiver *)

Definition tel0157_init_wrapper (i2c_no i2c_addr gnss_mode rgb : Z) : L Z :=
  result (invoke_tel0157_pta PTA_CMD_TEL0157_INIT (TEE_PARAM_TYPES VALUE_IN VALUE_IN NONE NONE)
            [TValue i2c_no i2c_addr; TValue gnss_mode rgb; TNone; TNone]).
Definition tel0157_deinit_wrapper (i2c_no i2c_addr : Z) : L Z :=
  result (invoke_tel0157_pta PTA_CMD_TEL0157_DEINIT (TEE_PARAM_TYPES VALUE_IN NONE NONE NONE)
            [TValue i2c_no i2c_addr; TNone; TNone; TNone]).

Definition tel0157_get_gnss_len_wrapper (i2c_no i2c_addr len_dst_addr : Z) : L Z :=
  answer 2 len_dst_addr store_u16
    (invoke_tel0157_pta PTA_CMD_TEL0157_GET_GNSS_LEN (TEE_PARAM_TYPES VALUE_INOUT NONE NONE NONE)
       [TValue i2c_no i2c_addr; TNone; TNone; TNone]).
Definition tel0157_get_gnss_mode_wrapper (i2c_no i2c_addr mode_dst_addr : Z) : L Z :=
  answer 1 mode_dst_addr store_u8
    (invoke_tel0157_pta PTA_CMD_TEL0157_GET_GNSS_MODE (TEE_PARAM_TYPES VALUE_INOUT NONE NONE NONE)
       [TValue i2c_no i2c_addr; TNone; TNone; TNone]).
Definition tel0157_get_num_sat_used_wrapper (i2c_no i2c_addr num_dst_addr : Z) : L Z :=
  answer 1 num_dst_addr store_u8
    (invoke_tel0157_pta PTA_CMD_TEL0157_GET_NUM_SAT_USED (TEE_PARAM_TYPES VALUE_INOUT NONE NONE NONE)
       [TValue i2c_no i2c_addr; TNone; TNone; TNone]).

Definition tel0157_fetch (cmd size addr i2c_no i2c_addr : Z) : L Z :=
  fetch size addr (invoke_tel0157_pta cmd (TEE_PARAM_TYPES VALUE_IN MEM_OUT NONE NONE)) i2c_no i2c_addr.
Definition tel0157_get_all_gnss_wrapper (i2c_no i2c_addr dst_buf_addr len : Z) : L Z :=
  tel0157_fetch PTA_CMD_TEL0157_GET_ALL_GNSS len dst_buf_addr i2c_no i2c_addr.
Definition tel0157_get_utc_time_wrapper (i2c_no i2c_addr utc_dst_addr : Z) : L Z :=
  tel0157_fetch PTA_CMD_TEL0157_GET_UTC_TIME sizeof_time utc_dst_addr i2c_no i2c_addr.
Definition tel0157_get_lon_wrapper (i2c_no i2c_addr lon_dst_addr : Z) : L Z :=
  tel0157_fetch PTA_CMD_TEL0157_GET_LON sizeof_lon_lat lon_dst_addr i2c_no i2c_addr.
Definition tel0157_get_lat_wrapper (i2c_no i2c_addr lat_dst_addr : Z) : L Z :=
  tel0157_fetch PTA_CMD_TEL0157_GET_LAT sizeof_lon_lat lat_dst_addr i2c_no i2c_addr.
Definition tel0157_get_alt_wrapper (i2c_no i2c_addr alt_dst_addr : Z) : L Z :=
  tel0157_fetch PTA_CMD_TEL0157_GET_ALT 3 alt_dst_addr i2c_no i2c_addr.
Definition tel0157_get_sog_wrapper (i2c_no i2c_addr sog_dst_addr : Z) : L Z :=
  tel0157_fetch PTA_CMD_TEL0157_GET_SOG 3 sog_dst_addr i2c_no i2c_addr.
Definition tel0157_get_cog_wrapper (i2c_no i2c_addr cog_dst_addr : Z) : L Z :=
  tel0157_fetch PTA_CMD_TEL0157_GET_COG 3 cog_dst_addr i2c_no i2c_addr.

(** ** EEPROM and fingerprint reader *)

Definition at24cxx_read_wrapper (i2c_no i2c_addr read_addr dst_buf_addr len : Z) : L Z :=
  fat dst_buf_addr (λ dst_buf_addr,
  valid dst_buf_addr len (λ buf,
  result (invoke_at24cxx_pta PTA_CMD_AT24CXX_READ (TEE_PARAM_TYPES VALUE_IN VALUE_IN MEM_OUT NONE)
            [TValue i2c_no i2c_addr; TValue read_addr 0; TMemref buf len; TNone]))).

Definition at24cxx_write_wrapper (i2c_no i2c_addr write_addr src_buf_addr len : Z) : L Z :=
  fat src_buf_addr (λ src_buf_addr,
  valid src_buf_addr len (λ buf,
  result (invoke_at24cxx_pta PTA_CMD_AT24CXX_WRITE (TEE_PARAM_TYPES VALUE_IN VALUE_IN MEM_IN NONE)
            [TValue i2c_no i2c_addr; TValue write_addr 0; TMemref buf len; TNone]))).

Definition atk301_init_wrapper (i2c_no i2c_addr : Z) : L Z :=
  result (invoke_atk301_pta PTA_CMD_ATK301_INIT (TEE_PARAM_TYPES VALUE_IN NONE NONE NONE)
            [TValue i2c_no i2c_addr; TNone; TNone; TNone]).
Definition atk301_get_fingerprint_image_wrapper (i2c_no i2c_addr : Z) : L Z :=
  result (invoke_atk301_pta PTA_CMD_ATK301_GET_FINGERPRINT_IMAGE (TEE_PARAM_TYPES VALUE_IN NONE NONE NONE)
            [TValue i2c_no i2c_addr; TNone; TNone; TNone]).
Definition atk301_upload_fingerprint_image_wrapper (i2c_no i2c_addr dst_buf_addr : Z) : L Z :=
  fetch Atk301.ATK301_FINGERPRINT_IMAGE_DATA_LEN dst_buf_addr
    (invoke_atk301_pta PTA_CMD_ATK301_UPLOAD_FINGERPRINT_IMAGE (TEE_PARAM_TYPES VALUE_IN MEM_OUT NONE NONE))
    i2c_no i2c_addr.

(** ** Secure storage *)

Definition TEE_DATA_FLAG_ACCESS_READ : Z := 0x1.
Definition TEE_DATA_FLAG_ACCESS_WRITE : Z := 0x2.
Definition TEE_DATA_FLAG_ACCESS_WRITE_META : Z := 0x4.
Definition TEE_DATA_FLAG_SHARE_READ : Z := 0x10.
Definition TEE_DATA_FLAG_OVERWRITE : Z := 0x400.

(** The bytes behind a pointer and a length. *)
Definition load_bytes (p : option Z) (n : Z) : L (list Z) := if n =? 0 then mret [] else mem_load p n.

Definition write_secure_object_wrapper (id_addr id_len data_addr data_len : Z) : L Z :=
  fat id_addr (λ id_addr,
  fat data_addr (λ data_addr,
  valid data_addr data_len (λ data,
  valid id_addr id_len (λ id,
  let obj_data_flag := Z.lor (Z.lor (Z.lor TEE_DATA_FLAG_ACCESS_READ TEE_DATA_FLAG_ACCESS_WRITE)
                         TEE_DATA_FLAG_ACCESS_WRITE_META) TEE_DATA_FLAG_OVERWRITE in
  idb ← load_bytes id id_len;
  '(res, object) ← on_sys (obj_create idb obj_data_flag);
  if negb (res =? TEE_SUCCESS) then mret res else
  l ← load_bytes data data_len;
  res ← on_sys (obj_write object l);
  (if negb (res =? TEE_SUCCESS) then on_sys (obj_delete object) else on_sys (obj_close object));;
  mret res)))).

(** [TEE_ReadObjectData(object, buf, size, count)] (tee_api_objects.c): the
    count is a [size_t], eight bytes wide. *)
Definition TEE_ReadObjectData (object size : Z) (count : option Z) : L (Z * list Z) :=
  l ← mem_load count 8;
  '(res, data, cnt) ← on_sys (obj_read object size (unle l));
  store_u64 count cnt;;
  mret (res, data).

(** [TEE_MemMove(dst, buf, n)] from the heap block of [size] bytes that starts
    with [data]. *)
Definition move_out (dst : option Z) (data : list Z) (size n : Z) : L unit :=
  if n =? 0 then mret () else
  if size <? n then undef UB_oob else
  w ← gets app_sys;
  mem_store dst (take (Z.to_nat n) (settle w (bytes data ++ uninit (size - Z.of_nat (length data))))).

Definition read_secure_object_wrapper (id_addr id_len data_addr data_len_addr : Z) : L Z :=
  fat data_addr (λ data_addr,
  fat data_len_addr (λ data_len_addr,
  fat id_addr (λ id_addr,
  valid data_len_addr 4 (λ data_len,
  n ← load_u32 data_len;
  valid data_addr n (λ data,
  valid id_addr id_len (λ id,
  n ← load_u32 data_len;
  buf ← on_sys (ta_malloc n);
  if negb buf then mret TEE_ERROR_OUT_OF_MEMORY else
  idb ← load_bytes id id_len;
  '(res, object) ← on_sys (obj_open idb (Z.lor TEE_DATA_FLAG_ACCESS_READ TEE_DATA_FLAG_SHARE_READ));
  if negb (res =? TEE_SUCCESS) then mret res else
  '(res, dataSize) ← on_sys (obj_info object);
  if negb (res =? TEE_SUCCESS) then mret res else
  len ← load_u32 data_len;
  if len <? dataSize then
    store_u32 data_len dataSize;;
    on_sys (obj_close object);;
    mret TEE_ERROR_SHORT_BUFFER
  else
  '(res, bs) ← TEE_ReadObjectData object dataSize data_len;
  (if res =? TEE_SUCCESS then len ← load_u32 data_len; move_out data bs n len else mret ());;
  on_sys (obj_close object);;
  mret res)))))).

Definition delete_secure_object_wrapper (id_addr id_len : Z) : L Z :=
  fat id_addr (λ id_addr,
  valid id_addr id_len (λ id,
  idb ← load_bytes id id_len;
  '(res, object) ← on_sys (obj_open idb (Z.lor TEE_DATA_FLAG_ACCESS_READ TEE_DATA_FLAG_ACCESS_WRITE_META));
  if negb (res =? TEE_SUCCESS) then mret res else
  on_sys (obj_delete object);;
  mret res)).

(** ** Counters *)

Definition record_poll_times_wrapper (times : Z) : L Z :=
  modify (λ s, set_global_poll_times (u64 (global_poll_times s + times)) s);; mret 0.

Definition get_poll_times_wrapper (dst_poll_times_addr : Z) : L Z :=
  valid dst_poll_times_addr 8 (λ poll_times,
  n ← gets global_poll_times;
  store_u64 poll_times n;;
  modify (set_global_poll_times 0);;
  mret 0).
End wrappers.
