(* ===== verification/TzioAsync.v ===== *)
(** * The native library, asynchronous part (native_tzio/tzio_lib.c)

    Requests to the I/O helper: with a handler the runtime calls at a
    checkpoint, as a future (the sub-signal, polled later) or as a promise
    (peripheral and sub-signal in one word); collecting their results; and the
    table of native functions the runtime links into the application. *)

From Stdlib Require Import ZArith Lia Bool.
From stdpp Require Import base tactics option list strings numbers gmap.
From S2P Require Import Prelude Platform Params Sensors Tel0157 Pta IoState Runtime AppMemory TeeApi Tzio.

Open Scope Z_scope.

Definition MAX_GPIO_PIN_NUM : Z := 27.
Definition MAX_I2C_NUM : Z := 1.
Definition MAX_SPI_NUM : Z := 0.
Definition N_SESS : Z := 64.

Definition PTA_IO_HELPER_CMD_READ_REQ : Z := 2.
Definition PTA_IO_HELPER_CMD_GET_DATA : Z := 3.
Definition PTA_IO_HELPER_CMD_POLL_SUBSIGNAL : Z := 4.
Definition PTA_IO_HELPER_CMD_WRITE_REQ : Z := 5.
Definition PTA_IO_HELPER_CMD_READ_REQ_WITH_BUFFER : Z := 6.
Definition PTA_IO_HELPER_CMD_WRITE_REQ_WITH_BUFFER : Z := 7.
Definition PTA_IO_HELPER_CMD_GET_OVERHEAD_TIMESTAMP : Z := 8.

(** The value of an enumerator of [io_req_type_t]. *)
Definition req_code (ty : io_req_type_t) : Z :=
  match ty with
  | DHT_READ => 0 | BH1750FVI_SAMPLE => 1 | I2C_READ_BYTES => 2 | I2C_WRITE_BYTES => 3
  | I2C_READ_REGS => 4 | I2C_WRITE_REGS => 5 | SPI_TRANSFER_BYTES => 6 | SPI_TRANSFER_BYTE => 7
  | SPI_TRANSFER_DIFF_BYTES => 8 | WRITE_SECURE_OBJECT => 9 | READ_SECURE_OBJECT => 10
  | MPU6050_SAMPLE => 11 | TEL0157_GET_GNSS_LEN => 12 | TEL0157_GET_ALL_GNSS => 13
  | TEL0157_GET_UTC_TIME => 14 | TEL0157_GET_GNSS_MODE => 15 | TEL0157_GET_NUM_SAT_USED => 16
  | TEL0157_GET_LON => 17 | TEL0157_GET_LAT => 18 | TEL0157_GET_ALT => 19 | TEL0157_GET_SOG => 20
  | TEL0157_GET_COG => 21 | AT24CXX_WRITE => 22 | AT24CXX_READ => 23
  | ATK301_GET_FINGERPRINT_IMAGE => 24 | ATK301_UPLOAD_FINGERPRINT_IMAGE => 25 | BME280_SAMPLE => 26
  | BME280_GET_CALIBRATION => 27 | REQ_TYPE_NONE => 28 | REQ_other v => v
  end.

(** [(uint16_t)periph_to_pta_periph_no(type, no)] *)
Definition gpio_periph (pin : Z) : Z := u16 (tzio_periph_to_io_signal_no 0 pin).
Definition i2c_periph (i2c_no : Z) : Z := u16 (tzio_periph_to_io_signal_no 1 i2c_no).
Definition spi_periph (spi_no : Z) : Z := u16 (tzio_periph_to_io_signal_no 2 spi_no).
Definition storage_periph : Z := u16 (tzio_periph_to_io_signal_no 3 0).

(** A promise: the peripheral in the high half, the sub-signal in the low. *)
Definition promise_of (periph_no sub_signo : Z) : Z :=
  Z.lor (Z.shiftl periph_no 16) (Z.land sub_signo 0xFFFF).
Definition promise_periph (promise : Z) : Z := u16 (Z.shiftr (i32 promise) 16).
Definition promise_sub (promise : Z) : Z := u16 (Z.land (i32 promise) 0xFFFF).

(** A native function as the runtime links it. *)
Inductive native (A : Type) := N0 (f : A) | NS (f : Z → native A).
Arguments N0 {A}.
Arguments NS {A}.

Section async.
Context {W : Type} `{!TeeClient W, !TeeServices W}.
Abbreviation L := (L W).
(** [exec_env], and a bound for the loops that poll a future. *)
Context (exec_env : option module_inst) (future_fuel : nat).
Definition T (A : Type) : Type := R (app W) A.
Definition lib {A} (m : L A) : T A := sys_call m.

(** ** Requests

    The checks of arguments before a request, refused with a code. *)
Definition request : Type := L (Z * tparams).
Definition refuse (res : Z) : request := mret (res, []).
Definition fat_req (addr : Z) (k : Z → request) : request :=
  if negb (check_ptr_signed addr) then refuse TEE_ERROR_ACCESS_DENIED
  else k (clear_signature_and_tag addr).
Definition valid_req (addr size : Z) (k : option Z → request) : request :=
  ok ← wasm_runtime_validate_app_addr addr size;
  if negb ok then refuse TEE_ERROR_ACCESS_DENIED else
  p ← wasm_runtime_addr_app_to_native addr; k p.
Definition limit (no max : Z) (m : request) : request :=
  if max <? no then refuse TEE_ERROR_BAD_PARAMETERS else m.

Definition read_types : Z := TEE_PARAM_TYPES VALUE_INOUT VALUE_IN VALUE_IN VALUE_IN.
Definition write_types : Z := TEE_PARAM_TYPES VALUE_INOUT MEM_IN VALUE_IN VALUE_IN.

(** A request without memory, with its first two value parameters. *)
Definition read_request (periph_no : Z) (ty : io_req_type_t) (a1 b1 a2 b2 : Z) : request :=
  invoke_io_helper_pta PTA_IO_HELPER_CMD_READ_REQ read_types
    [TValue periph_no (req_code ty); TValue a1 b1; TValue a2 b2; TValue 0 0].
(** A request with a source buffer. *)
Definition write_request (cmd periph_no : Z) (ty : io_req_type_t) (buf : option Z) (size a2 b2 a3 b3 : Z) : request :=
  invoke_io_helper_pta cmd write_types
    [TValue periph_no (req_code ty); TMemref buf size; TValue a2 b2; TValue a3 b3].

(** What follows a request: the handler is registered for the sub-signal, or
    the sub-signal is handed to the application. *)
Definition handled (periph_no : Z) (m : request) (handler_func_ptr : Z) : T Z :=
  '(res, params) ← lib m;
  if negb (res =? TEE_SUCCESS) then mret res else
  sub ← lib (tvalue_a params 0);
  r ← tzio_register_handler exec_env periph_no sub handler_func_ptr;
  if r <? 0 then mret TEE_ERROR_GENERIC else mret TEE_SUCCESS.
Definition future (m : request) : L Z :=
  '(res, params) ← m;
  if negb (res =? TEE_SUCCESS) then mret res else tvalue_a params 0.

(** ** With a handler *)

Definition dht_read_async_wrapper (pin dht_type handler_func_ptr : Z) : T Z :=
  handled (gpio_periph pin) (limit pin MAX_GPIO_PIN_NUM
    (read_request (gpio_periph pin) DHT_READ dht_type 0 0 0)) handler_func_ptr.
Definition at24cxx_read_async_wrapper (i2c_no i2c_addr read_addr read_len handler_func_ptr : Z) : T Z :=
  handled (i2c_periph i2c_no) (limit i2c_no MAX_I2C_NUM
    (read_request (i2c_periph i2c_no) AT24CXX_READ i2c_addr read_addr read_len 0)) handler_func_ptr.
Definition at24cxx_write_async_wrapper (i2c_no i2c_addr write_addr src_buf_addr src_len handler_func_ptr : Z) : T Z :=
  handled (i2c_periph i2c_no) (fat_req src_buf_addr (λ src_buf_addr,
    limit i2c_no MAX_I2C_NUM (valid_req src_buf_addr src_len (λ buf,
    write_request PTA_IO_HELPER_CMD_WRITE_REQ (i2c_periph i2c_no) AT24CXX_WRITE buf src_len
      i2c_addr write_addr 0 0)))) handler_func_ptr.
Definition i2c_read_bytes_async_wrapper (i2c_no i2c_addr flags read_len handler_func_ptr : Z) : T Z :=
  handled (i2c_periph i2c_no) (limit i2c_no MAX_I2C_NUM
    (read_request (i2c_periph i2c_no) I2C_READ_BYTES i2c_addr read_len flags 0)) handler_func_ptr.
Definition i2c_read_regs_async_wrapper (i2c_no i2c_addr flags reg read_len handler_func_ptr : Z) : T Z :=
  handled (i2c_periph i2c_no) (limit i2c_no MAX_I2C_NUM
    (read_request (i2c_periph i2c_no) I2C_READ_REGS i2c_addr reg read_len flags)) handler_func_ptr.
Definition bh1750fvi_sample_async_wrapper (i2c_no i2c_addr handler_func_ptr : Z) : T Z :=
  handled (i2c_periph i2c_no) (limit i2c_no MAX_I2C_NUM
    (read_request (i2c_periph i2c_no) BH1750FVI_SAMPLE i2c_addr 0 0 0)) handler_func_ptr.
Definition mpu6050_sample_async_wrapper (i2c_no i2c_addr handler_func_ptr : Z) : T Z :=
  handled (i2c_periph i2c_no) (limit i2c_no MAX_I2C_NUM
    (read_request (i2c_periph i2c_no) MPU6050_SAMPLE i2c_addr 0 0 0)) handler_func_ptr.
Definition atk301_get_fingerprint_image_async_wrapper (i2c_no i2c_addr handler_func_ptr : Z) : T Z :=
  handled (i2c_periph i2c_no) (limit i2c_no MAX_I2C_NUM
    (read_request (i2c_periph i2c_no) ATK301_GET_FINGERPRINT_IMAGE i2c_addr 0 0 0)) handler_func_ptr.
Definition atk301_upload_fingerprint_image_async_wrapper (i2c_no i2c_addr handler_func_ptr : Z) : T Z :=
  handled (i2c_periph i2c_no) (limit i2c_no MAX_I2C_NUM
    (read_request (i2c_periph i2c_no) ATK301_UPLOAD_FINGERPRINT_IMAGE i2c_addr 0 0 0)) handler_func_ptr.

(** The functions of the GNSS receiver do not check the bus number. *)
Definition tel0157_get_utc_time_async_wrapper (i2c_no i2c_addr handler_func_ptr : Z) : T Z :=
  handled (i2c_periph i2c_no) (read_request (i2c_periph i2c_no) TEL0157_GET_UTC_TIME i2c_addr 0 0 0) handler_func_ptr.
Definition tel0157_get_lon_async_wrapper (i2c_no i2c_addr handler_func_ptr : Z) : T Z :=
  handled (i2c_periph i2c_no) (read_request (i2c_periph i2c_no) TEL0157_GET_LON i2c_addr 0 0 0) handler_func_ptr.
Definition tel0157_get_lat_async_wrapper (i2c_no i2c_addr handler_func_ptr : Z) : T Z :=
  handled (i2c_periph i2c_no) (read_request (i2c_periph i2c_no) TEL0157_GET_LAT i2c_addr 0 0 0) handler_func_ptr.
Definition tel0157_get_alt_async_wrapper (i2c_no i2c_addr handler_func_ptr : Z) : T Z :=
  handled (i2c_periph i2c_no) (read_request (i2c_periph i2c_no) TEL0157_GET_ALT i2c_addr 0 0 0) handler_func_ptr.

(** ** As a future *)

Definition dht_read_async_future_wrapper (pin dht_type : Z) : L Z :=
  future (limit pin MAX_GPIO_PIN_NUM (read_request (gpio_periph pin) DHT_READ dht_type 0 0 0)).

Definition dht_read_async_promise_wrapper (pin dht_type : Z) : L Z :=
  '(res, params) ← limit pin MAX_GPIO_PIN_NUM (read_request (gpio_periph pin) DHT_READ dht_type 0 0 0);
  if negb (res =? TEE_SUCCESS) then mret res else
  sub ← tvalue_a params 0;
  mret (promise_of (gpio_periph pin) sub).

Definition bh1750fvi_sample_async_future_wrapper (i2c_no i2c_addr : Z) : L Z :=
  future (limit i2c_no MAX_I2C_NUM
    (read_request (i2c_periph i2c_no) BH1750FVI_SAMPLE i2c_addr 0 0 0)).
Definition mpu6050_sample_async_future_wrapper (i2c_no i2c_addr : Z) : L Z :=
  future (limit i2c_no MAX_I2C_NUM
    (read_request (i2c_periph i2c_no) MPU6050_SAMPLE i2c_addr 0 0 0)).
Definition atk301_get_fingerprint_image_async_future_wrapper (i2c_no i2c_addr : Z) : L Z :=
  future (limit i2c_no MAX_I2C_NUM
    (read_request (i2c_periph i2c_no) ATK301_GET_FINGERPRINT_IMAGE i2c_addr 0 0 0)).
Definition atk301_upload_fingerprint_image_async_future_wrapper (i2c_no i2c_addr : Z) : L Z :=
  future (limit i2c_no MAX_I2C_NUM
    (read_request (i2c_periph i2c_no) ATK301_UPLOAD_FINGERPRINT_IMAGE i2c_addr 0 0 0)).
Definition i2c_read_bytes_async_future_wrapper (i2c_no i2c_addr flags read_len : Z) : L Z :=
  future (limit i2c_no MAX_I2C_NUM
    (read_request (i2c_periph i2c_no) I2C_READ_BYTES i2c_addr read_len flags 0)).
Definition i2c_write_bytes_async_future_wrapper (i2c_no i2c_addr flags src_buf_addr buf_len : Z) : L Z :=
  future (fat_req src_buf_addr (λ src_buf_addr,
    limit i2c_no MAX_I2C_NUM (valid_req src_buf_addr buf_len (λ buf,
    write_request PTA_IO_HELPER_CMD_WRITE_REQ (i2c_periph i2c_no) I2C_WRITE_BYTES buf buf_len
      i2c_addr flags 0 0)))).
Definition i2c_read_regs_async_future_wrapper (i2c_no i2c_addr flags reg read_len : Z) : L Z :=
  future (limit i2c_no MAX_I2C_NUM
    (read_request (i2c_periph i2c_no) I2C_READ_REGS i2c_addr reg read_len flags)).
Definition spi_transfer_bytes_async_future_wrapper (spi_no spi_cs_no cont mode freq src_len dst_len
    src_buf_addr : Z) : L Z :=
  future (fat_req src_buf_addr (λ src_buf_addr,
    limit spi_no MAX_SPI_NUM (valid_req src_buf_addr src_len (λ buf,
    write_request PTA_IO_HELPER_CMD_WRITE_REQ (spi_periph spi_no) SPI_TRANSFER_BYTES buf src_len
      spi_cs_no cont (Z.lor (u32 (Z.shiftl mode 16)) (Z.land freq 0xFFFF)) dst_len)))).
Definition write_secure_object_async_future_wrapper (id_addr id_len data_addr data_len : Z) : L Z :=
  future (fat_req id_addr (λ id_addr, fat_req data_addr (λ data_addr,
    valid_req data_addr data_len (λ data, valid_req id_addr id_len (λ id,
    invoke_io_helper_pta PTA_IO_HELPER_CMD_WRITE_REQ_WITH_BUFFER
      (TEE_PARAM_TYPES VALUE_INOUT MEM_IN MEM_IN VALUE_IN)
      [TValue storage_periph (req_code WRITE_SECURE_OBJECT); TMemref id id_len;
       TMemref data data_len; TValue 0 0]))))).
Definition read_secure_object_async_future_wrapper (id_addr id_len : Z) : L Z :=
  future (fat_req id_addr (λ id_addr, valid_req id_addr id_len (λ id,
    write_request PTA_IO_HELPER_CMD_READ_REQ_WITH_BUFFER storage_periph READ_SECURE_OBJECT id id_len
      0 0 0 0))).
Definition at24cxx_read_async_future_wrapper (i2c_no i2c_addr read_addr read_len : Z) : L Z :=
  future (limit i2c_no MAX_I2C_NUM
    (read_request (i2c_periph i2c_no) AT24CXX_READ i2c_addr read_addr read_len 0)).
Definition at24cxx_write_async_future_wrapper (i2c_no i2c_addr write_addr src_buf_addr src_len : Z) : L Z :=
  future (fat_req src_buf_addr (λ src_buf_addr,
    limit i2c_no MAX_I2C_NUM (valid_req src_buf_addr src_len (λ buf,
    write_request PTA_IO_HELPER_CMD_WRITE_REQ (i2c_periph i2c_no) AT24CXX_WRITE buf src_len
      i2c_addr write_addr 0 0)))).
Definition tel0157_get_all_gnss_async_future_wrapper (i2c_no i2c_addr gnss_len : Z) : L Z :=
  future (read_request (i2c_periph i2c_no) TEL0157_GET_ALL_GNSS i2c_addr gnss_len 0 0).
Definition tel0157_get_gnss_len_async_future_wrapper (i2c_no i2c_addr : Z) : L Z :=
  future (read_request (i2c_periph i2c_no) TEL0157_GET_GNSS_LEN i2c_addr 0 0 0).
Definition tel0157_get_utc_time_async_future_wrapper (i2c_no i2c_addr : Z) : L Z :=
  future (read_request (i2c_periph i2c_no) TEL0157_GET_UTC_TIME i2c_addr 0 0 0).
Definition tel0157_get_gnss_mode_async_future_wrapper (i2c_no i2c_addr : Z) : L Z :=
  future (read_request (i2c_periph i2c_no) TEL0157_GET_GNSS_MODE i2c_addr 0 0 0).
Definition tel0157_get_num_sat_used_async_future_wrapper (i2c_no i2c_addr : Z) : L Z :=
  future (read_request (i2c_periph i2c_no) TEL0157_GET_NUM_SAT_USED i2c_addr 0 0 0).
Definition tel0157_get_lon_async_future_wrapper (i2c_no i2c_addr : Z) : L Z :=
  future (read_request (i2c_periph i2c_no) TEL0157_GET_LON i2c_addr 0 0 0).
Definition tel0157_get_lat_async_future_wrapper (i2c_no i2c_addr : Z) : L Z :=
  future (read_request (i2c_periph i2c_no) TEL0157_GET_LAT i2c_addr 0 0 0).
Definition tel0157_get_alt_async_future_wrapper (i2c_no i2c_addr : Z) : L Z :=
  future (read_request (i2c_periph i2c_no) TEL0157_GET_ALT i2c_addr 0 0 0).
Definition tel0157_get_sog_async_future_wrapper (i2c_no i2c_addr : Z) : L Z :=
  future (read_request (i2c_periph i2c_no) TEL0157_GET_SOG i2c_addr 0 0 0).
Definition tel0157_get_cog_async_future_wrapper (i2c_no i2c_addr : Z) : L Z :=
  future (read_request (i2c_periph i2c_no) TEL0157_GET_COG i2c_addr 0 0 0).

(** ** Collecting results *)

(** The end of a collection: [*buf_len] is set when the buffer was too short;
    a request that failed gives its (negative) code. *)
Definition collected (buf_len : option Z) (res : Z) (params : tparams) (value : tparams → L Z) : L Z :=
  if res =? TEE_ERROR_SHORT_BUFFER then
    n ← tsize params 1; store_u32 buf_len n;; mret TEE_ERROR_SHORT_BUFFER
  else if negb (res =? TEE_SUCCESS) then mret TEE_ERROR_NO_DATA
  else a ← tvalue_a params 0; if i32 a <? 0 then mret a else value params.

Definition get_data_request (signo sub_signo : Z) (buf : option Z) (n : Z) : request :=
  invoke_io_helper_pta PTA_IO_HELPER_CMD_GET_DATA (TEE_PARAM_TYPES VALUE_INOUT MEM_OUT NONE NONE)
    [TValue signo sub_signo; TMemref buf n; TNone; TNone].

Definition get_async_data_wrapper (signo sub_signo dst_buf_addr dst_buf_len_addr : Z) : L Z :=
  fat0 dst_buf_addr (λ dst_buf_addr,
  fat0 dst_buf_len_addr (λ dst_buf_len_addr,
  if N_SESS <=? signo then mret TEE_ERROR_BAD_PARAMETERS else
  if N_SESS <=? sub_signo then mret TEE_ERROR_BAD_PARAMETERS else
  valid dst_buf_len_addr 4 (λ buf_len,
  n ← load_u32 buf_len;
  valid dst_buf_addr n (λ buf,
  n ← load_u32 buf_len;
  '(res, params) ← get_data_request signo sub_signo buf n;
  collected buf_len res params (λ params, tvalue_b params 0))))).

(** Poll until the sub-signal is ready or the poll fails. *)
Definition poll_subsignal_request (signo sub_signo : Z) : request :=
  invoke_io_helper_pta PTA_IO_HELPER_CMD_POLL_SUBSIGNAL (TEE_PARAM_TYPES VALUE_INOUT NONE NONE NONE)
    [TValue signo sub_signo; TNone; TNone; TNone].
Definition poll_stage (signo sub_signo : Z) : L Z :=
  first ← poll_subsignal_request signo sub_signo;
  loop future_fuel (λ '(res, params),
    if negb (res =? TEE_SUCCESS) then mret (inr res) else
    a ← tvalue_a params 0;
    if 0 <? a then mret (inr res) else
    next ← poll_subsignal_request signo sub_signo;
    mret (inl next)) first.

(** Both ways to wait for a result, from the validation of the pointers on. *)
Definition await_data (signo sub_signo dst_buf_addr dst_buf_len_addr : Z) (value : tparams → L Z) : L Z :=
  valid dst_buf_len_addr 4 (λ buf_len,
  n ← load_u32 buf_len;
  valid dst_buf_addr n (λ buf,
  res ← poll_stage signo sub_signo;
  if negb (res =? TEE_SUCCESS) then mret res else
  n ← load_u32 buf_len;
  '(res, params) ← get_data_request signo sub_signo buf n;
  collected buf_len res params value)).

Definition get_async_data_future_wrapper (signo sub_signo dst_buf_addr dst_buf_len_addr : Z) : L Z :=
  fat0 dst_buf_addr (λ dst_buf_addr,
  fat0 dst_buf_len_addr (λ dst_buf_len_addr,
  if N_SESS <=? signo then mret TEE_ERROR_BAD_PARAMETERS else
  if N_SESS <=? sub_signo then mret TEE_ERROR_BAD_PARAMETERS else
  await_data signo sub_signo dst_buf_addr dst_buf_len_addr (λ params, tvalue_b params 0))).

(** ** Promises *)

Definition promise_set_callback_wrapper (promise handler_func_ptr : Z) : T Z :=
  let periph_no := promise_periph promise in
  let sub_signo := promise_sub promise in
  if N_SESS <=? periph_no then mret TEE_ERROR_BAD_PARAMETERS else
  if N_SESS <=? sub_signo then mret TEE_ERROR_BAD_PARAMETERS else
  '(res, _) ← lib (poll_subsignal_request periph_no sub_signo);
  if negb (res =? TEE_SUCCESS) then mret TEE_ERROR_ACCESS_DENIED else
  r ← tzio_register_handler exec_env periph_no sub_signo handler_func_ptr;
  if r <? 0 then mret TEE_ERROR_GENERIC else mret TEE_SUCCESS.

Definition get_async_data_promise_wrapper (promise dst_buf_addr dst_buf_len_addr : Z) : L Z :=
  let periph_no := promise_periph promise in
  let sub_signo := promise_sub promise in
  if N_SESS <=? periph_no then mret TEE_ERROR_BAD_PARAMETERS else
  if N_SESS <=? sub_signo then mret TEE_ERROR_BAD_PARAMETERS else
  fat0 dst_buf_addr (λ dst_buf_addr,
  fat0 dst_buf_len_addr (λ dst_buf_len_addr,
  await_data periph_no sub_signo dst_buf_addr dst_buf_len_addr (λ params, tvalue_a params 0))).

(** ** Counters of the runtime and the I/O helper *)

(** Stores a counter of the runtime and resets it. *)
Definition take_counter (addr : Z) (get : T Z) (reset : T unit) : T Z :=
  ok ← lib (wasm_runtime_validate_app_addr addr 8);
  if negb ok then mret TEE_ERROR_ACCESS_DENIED else
  p ← lib (wasm_runtime_addr_app_to_native addr);
  n ← get;
  lib (store_u64 p n);;
  reset;;
  mret 0.
Definition get_runtime_poll_times_wrapper (dst_poll_times_addr : Z) : T Z :=
  take_counter dst_poll_times_addr tzio_get_poll_times tzio_reset_poll_times.
Definition get_runtime_profile_times_wrapper (dst_profile_times_addr : Z) : T Z :=
  take_counter dst_profile_times_addr tzio_get_profile_times tzio_reset_profile_times.

Definition all_async_req_handled_wrapper : T Z := all_signal_handled.

Definition io_helper_get_overhead_timestamp_wrapper (buf_addr : Z) : L Z :=
  valid buf_addr (200 * 8) (λ buf,
  result (invoke_io_helper_pta PTA_IO_HELPER_CMD_GET_OVERHEAD_TIMESTAMP (TEE_PARAM_TYPES MEM_OUT NONE NONE NONE)
            [TMemref buf (200 * 8); TNone; TNone; TNone])).

(** ** The table of native functions *)

(** Turns a function of any number of arguments into an entry. *)
Class ToNative (A : Type) := to_native : A → native (T Z).
#[export] Instance to_native_T : ToNative (T Z) := λ f, N0 f.
#[export] Instance to_native_L : ToNative (L Z) := λ f, N0 (lib f).
#[export] Instance to_native_Z : ToNative Z := λ f, N0 (mret f).
#[export] Instance to_native_fun `{ToNative A} : ToNative (Z → A) := λ f, NS (λ x, to_native (f x)).

Record NativeSymbol := Symbol { symbol : string; func_ptr : native (T Z); signature : string }.
Definition REG_NATIVE_FUNC `{ToNative A} (name : string) (f : A) (sig : string) : NativeSymbol :=
  Symbol name (to_native f) sig.

Definition native_symbols : list NativeSymbol := [
  REG_NATIVE_FUNC "io_helper_get_overhead_timestamp" io_helper_get_overhead_timestamp_wrapper "(i)i";
  REG_NATIVE_FUNC "all_async_req_handled" all_async_req_handled_wrapper "()i";
  REG_NATIVE_FUNC "get_runtime_profile_times" get_runtime_profile_times_wrapper "(i)i";
  REG_NATIVE_FUNC "get_runtime_poll_times" get_runtime_poll_times_wrapper "(i)i";
  REG_NATIVE_FUNC "record_poll_times" record_poll_times_wrapper "(i)i";
  REG_NATIVE_FUNC "get_poll_times" get_poll_times_wrapper "(i)i";
  REG_NATIVE_FUNC "test_ta_get_sys_time_overhead" test_ta_get_sys_time_overhead_wrapper "()i";
  REG_NATIVE_FUNC "test_tee_get_sys_time_overhead" test_tee_get_sys_time_overhead_wrapper "()i";
  REG_NATIVE_FUNC "record_benchmark_time" record_benchmark_time_wrapper "(i)i";
  REG_NATIVE_FUNC "get_benchmark_time" get_benchmark_time_wrapper "(ii)i";
  REG_NATIVE_FUNC "sign_ptr" sign_ptr_wrapper "(iii)i";
  REG_NATIVE_FUNC "i2c_read_bytes" i2c_read_bytes_wrapper "(iiiii)i";
  REG_NATIVE_FUNC "i2c_write_bytes" i2c_write_bytes_wrapper "(iiiii)i";
  REG_NATIVE_FUNC "i2c_read_bytes_async" i2c_read_bytes_async_wrapper "(iiiii)i";
  REG_NATIVE_FUNC "i2c_read_bytes_async_future" i2c_read_bytes_async_future_wrapper "(iiii)i";
  REG_NATIVE_FUNC "i2c_write_bytes_async_future" i2c_write_bytes_async_future_wrapper "(iiiii)i";
  REG_NATIVE_FUNC "i2c_read_regs" i2c_read_regs_wrapper "(iiiiii)i";
  REG_NATIVE_FUNC "i2c_write_regs" i2c_write_regs_wrapper "(iiiiii)i";
  REG_NATIVE_FUNC "i2c_read_regs_async" i2c_read_regs_async_wrapper "(iiiiii)i";
  REG_NATIVE_FUNC "i2c_read_regs_async_future" i2c_read_regs_async_future_wrapper "(iiiii)i";
  REG_NATIVE_FUNC "i2c_set_freq" i2c_set_freq_wrapper "(ii)i";
  REG_NATIVE_FUNC "i2c_get_overhead_timestamp" i2c_get_overhead_timestamp_wrapper "(i)i";
  REG_NATIVE_FUNC "spi_transfer_bytes" spi_transfer_bytes_wrapper "(iiiiiiiii)i";
  REG_NATIVE_FUNC "spi_transfer_byte" spi_transfer_byte_wrapper "(iiiiiiiii)i";
  REG_NATIVE_FUNC "spi_transfer_diff_bytes" spi_transfer_diff_bytes_wrapper "(iiiiiiiii)i";
  REG_NATIVE_FUNC "spi_transfer_bytes_async_future" spi_transfer_bytes_async_future_wrapper "(iiiiiiii)i";
  REG_NATIVE_FUNC "write_secure_object" write_secure_object_wrapper "(iiii)i";
  REG_NATIVE_FUNC "read_secure_object" read_secure_object_wrapper "(iiii)i";
  REG_NATIVE_FUNC "delete_secure_object" delete_secure_object_wrapper "(ii)i";
  REG_NATIVE_FUNC "write_secure_object_async_future" write_secure_object_async_future_wrapper "(iiii)i";
  REG_NATIVE_FUNC "read_secure_object_async_future" read_secure_object_async_future_wrapper "(ii)i";
  REG_NATIVE_FUNC "dht_init" dht_init_wrapper "(ii)i";
  REG_NATIVE_FUNC "dht_read" dht_read_wrapper "(iiii)i";
  REG_NATIVE_FUNC "dht_read_async" dht_read_async_wrapper "(iii)i";
  REG_NATIVE_FUNC "dht_read_async_future" dht_read_async_future_wrapper "(ii)i";
  REG_NATIVE_FUNC "dht_read_async_promise" dht_read_async_promise_wrapper "(ii)i";
  REG_NATIVE_FUNC "bh1750fvi_init" bh1750fvi_init_wrapper "(ii)i";
  REG_NATIVE_FUNC "bh1750fvi_sample" bh1750fvi_sample_wrapper "(iii)i";
  REG_NATIVE_FUNC "bh1750fvi_sample_async" bh1750fvi_sample_async_wrapper "(iii)i";
  REG_NATIVE_FUNC "bh1750fvi_sample_async_future" bh1750fvi_sample_async_future_wrapper "(ii)i";
  REG_NATIVE_FUNC "mpu6050_init" mpu6050_init_wrapper "(ii)i";
  REG_NATIVE_FUNC "mpu6050_deinit" mpu6050_deinit_wrapper "(ii)i";
  REG_NATIVE_FUNC "mpu6050_sample" mpu6050_sample_wrapper "(iii)i";
  REG_NATIVE_FUNC "mpu6050_sample_async" mpu6050_sample_async_wrapper "(iii)i";
  REG_NATIVE_FUNC "mpu6050_sample_async_future" mpu6050_sample_async_future_wrapper "(ii)i";
  REG_NATIVE_FUNC "w25qxx_init" w25qxx_init_wrapper "(ii)i";
  REG_NATIVE_FUNC "w25qxx_read_id" w25qxx_read_id_wrapper "(iii)i";
  REG_NATIVE_FUNC "w25qxx_read_data" w25qxx_read_data_wrapper "(iiiii)i";
  REG_NATIVE_FUNC "w25qxx_page_program" w25qxx_page_program_wrapper "(iiiii)i";
  REG_NATIVE_FUNC "w25qxx_sector_erase" w25qxx_sector_erase_wrapper "(iii)i";
  REG_NATIVE_FUNC "w25qxx_chip_erase" w25qxx_chip_erase_wrapper "(ii)i";
  REG_NATIVE_FUNC "at24cxx_read" at24cxx_read_wrapper "(iiiii)i";
  REG_NATIVE_FUNC "at24cxx_write" at24cxx_write_wrapper "(iiiii)i";
  REG_NATIVE_FUNC "at24cxx_read_async" at24cxx_read_async_wrapper "(iiiii)i";
  REG_NATIVE_FUNC "at24cxx_read_async_future" at24cxx_read_async_future_wrapper "(iiii)i";
  REG_NATIVE_FUNC "at24cxx_write_async" at24cxx_write_async_wrapper "(iiiiii)i";
  REG_NATIVE_FUNC "at24cxx_write_async_future" at24cxx_write_async_future_wrapper "(iiiii)i";
  REG_NATIVE_FUNC "tel0157_init" tel0157_init_wrapper "(iiii)i";
  REG_NATIVE_FUNC "tel0157_deinit" tel0157_deinit_wrapper "(ii)i";
  REG_NATIVE_FUNC "tel0157_get_gnss_len" tel0157_get_gnss_len_wrapper "(iii)i";
  REG_NATIVE_FUNC "tel0157_get_all_gnss" tel0157_get_all_gnss_wrapper "(iiii)i";
  REG_NATIVE_FUNC "tel0157_get_utc_time" tel0157_get_utc_time_wrapper "(iii)i";
  REG_NATIVE_FUNC "tel0157_get_gnss_mode" tel0157_get_gnss_mode_wrapper "(iii)i";
  REG_NATIVE_FUNC "tel0157_get_num_sat_used" tel0157_get_num_sat_used_wrapper "(iii)i";
  REG_NATIVE_FUNC "tel0157_get_lon" tel0157_get_lon_wrapper "(iii)i";
  REG_NATIVE_FUNC "tel0157_get_lat" tel0157_get_lat_wrapper "(iii)i";
  REG_NATIVE_FUNC "tel0157_get_alt" tel0157_get_alt_wrapper "(iii)i";
  REG_NATIVE_FUNC "tel0157_get_sog" tel0157_get_sog_wrapper "(iii)i";
  REG_NATIVE_FUNC "tel0157_get_cog" tel0157_get_cog_wrapper "(iii)i";
  REG_NATIVE_FUNC "tel0157_get_utc_time_async" tel0157_get_utc_time_async_wrapper "(iii)i";
  REG_NATIVE_FUNC "tel0157_get_lon_async" tel0157_get_lon_async_wrapper "(iii)i";
  REG_NATIVE_FUNC "tel0157_get_lat_async" tel0157_get_lat_async_wrapper "(iii)i";
  REG_NATIVE_FUNC "tel0157_get_alt_async" tel0157_get_alt_async_wrapper "(iii)i";
  REG_NATIVE_FUNC "tel0157_get_gnss_len_async_future" tel0157_get_gnss_len_async_future_wrapper "(ii)i";
  REG_NATIVE_FUNC "tel0157_get_all_gnss_async_future" tel0157_get_all_gnss_async_future_wrapper "(iii)i";
  REG_NATIVE_FUNC "tel0157_get_utc_time_async_future" tel0157_get_utc_time_async_future_wrapper "(ii)i";
  REG_NATIVE_FUNC "tel0157_get_gnss_mode_async_future" tel0157_get_gnss_mode_async_future_wrapper "(ii)i";
  REG_NATIVE_FUNC "tel0157_get_num_sat_used_async_future" tel0157_get_num_sat_used_async_future_wrapper "(ii)i";
  REG_NATIVE_FUNC "tel0157_get_lon_async_future" tel0157_get_lon_async_future_wrapper "(ii)i";
  REG_NATIVE_FUNC "tel0157_get_lat_async_future" tel0157_get_lat_async_future_wrapper "(ii)i";
  REG_NATIVE_FUNC "tel0157_get_alt_async_future" tel0157_get_alt_async_future_wrapper "(ii)i";
  REG_NATIVE_FUNC "tel0157_get_sog_async_future" tel0157_get_sog_async_future_wrapper "(ii)i";
  REG_NATIVE_FUNC "tel0157_get_cog_async_future" tel0157_get_cog_async_future_wrapper "(ii)i";
  REG_NATIVE_FUNC "atk301_init" atk301_init_wrapper "(ii)i";
  REG_NATIVE_FUNC "atk301_get_fingerprint_image" atk301_get_fingerprint_image_wrapper "(ii)i";
  REG_NATIVE_FUNC "atk301_upload_fingerprint_image" atk301_upload_fingerprint_image_wrapper "(iii)i";
  REG_NATIVE_FUNC "atk301_get_fingerprint_image_async" atk301_get_fingerprint_image_async_wrapper "(iii)i";
  REG_NATIVE_FUNC "atk301_upload_fingerprint_image_async" atk301_upload_fingerprint_image_async_wrapper "(iii)i";
  REG_NATIVE_FUNC "atk301_get_fingerprint_image_async_future" atk301_get_fingerprint_image_async_future_wrapper "(ii)i";
  REG_NATIVE_FUNC "atk301_upload_fingerprint_image_async_future" atk301_upload_fingerprint_image_async_future_wrapper "(ii)i";
  REG_NATIVE_FUNC "get_async_data" get_async_data_wrapper "(iiii)i";
  REG_NATIVE_FUNC "get_async_data_future" get_async_data_future_wrapper "(iiii)i";
  REG_NATIVE_FUNC "promise_set_callback" promise_set_callback_wrapper "(ii)i";
  REG_NATIVE_FUNC "get_async_data_promise" get_async_data_promise_wrapper "(iii)i"
].
End async.
