(* ===== verification/TzioProofs.v ===== *)
(** * Native library: memory safety

    What every native function keeps: the bytes of the application's memory
    outside the ranges its arguments designate, the size of the memory, and
    the state of library and system.  The system enters through the interface
    [TeeOk]. *)

From Stdlib Require Import ZArith Lia Bool.
From stdpp Require Import base tactics option list strings numbers gmap.
From S2P Require Import Prelude Platform Params Sensors Tel0157 Pta PtaProofs IoState IoSignal IoSignalProofs IoRefinement.
From S2P Require Import Runtime RuntimeScan AppMemory TeeApi Tzio TzioAsync.

Open Scope Z_scope.

(** ** The interface of the system

    Every call returns (with [t = true]; or may never return), keeps the
    system's invariant and answers with parameters of the kinds it was given;
    a request that is accepted has one of the 64 sub-signals and takes no
    other, no other call takes a signal; reading an
    object delivers at most the bytes asked for and counts them.  The services
    and the I/O helper leave some duties to their clients ([pta_client_ok] for
    transfers of up to [maxlen] bytes, [client_ok]); requests are submitted
    only to the peripherals of [may]. *)

Definition word (x : Z) : Prop := 0 <= x < 2 ^ 32.

Definition same_kind (u u' : uparam) : Prop :=
  match u, u' with
  | UNone, UNone => True
  | UValue _ _, UValue _ _ => True
  | UMemref _ _, UMemref _ _ => True
  | _, _ => False
  end.

Definition submits (cmd : Z) : bool :=
  (cmd =? PTA_IO_HELPER_CMD_READ_REQ) || (cmd =? PTA_IO_HELPER_CMD_WRITE_REQ)
  || (cmd =? PTA_IO_HELPER_CMD_READ_REQ_WITH_BUFFER) || (cmd =? PTA_IO_HELPER_CMD_WRITE_REQ_WITH_BUFFER).

Definition to_allowed (may : Z → Prop) (cmd : Z) (ps : uparams) : Prop :=
  submits cmd = true → match ps with UValue p _ :: _ => may p | _ => True end.
Definition anywhere : Z → Prop := λ _, True.

(** Signals that are in use in [g] and were not in [f] are among [N]. *)
Definition new_only (N : Z → Z → Prop) (f g : Z → Z → sig_state) : Prop :=
  ∀ p q, in_periph p → in_sig q → g p q ≠ SigFree → f p q ≠ SigFree ∨ N p q.
Definition calmer : (Z → Z → sig_state) → (Z → Z → sig_state) → Prop := new_only (λ _ _, False).

Lemma progress_calmer f g : progress f g → calmer f g.
Proof. intros Hp p q Hp' Hq Hg. left. intros Hf. by destruct (Hp p q Hp' Hq) as [E|[E _]]; congruence. Qed.
Lemma new_only_mono (N N' : Z → Z → Prop) f g : (∀ p q, in_sig q → N p q → N' p q) → new_only N f g → new_only N' f g.
Proof. intros HN Hg p q Hp Hq Hs. destruct (Hg p q Hp Hq Hs) as [?|?]; [by left|right; by apply HN]. Qed.
Lemma new_only_before N f g h : calmer f g → new_only N g h → new_only N f h.
Proof. intros Hfg Hgh p q Hp Hq Hs. destruct (Hgh p q Hp Hq Hs) as [Hg|?]; [|by right]. by destruct (Hfg p q Hp Hq Hg) as [?|[]]; left. Qed.
#[export] Instance calmer_preorder : PreOrder calmer.
Proof. split; [by intros f p q _ _ ?; left|]. intros f g h ??. by eapply new_only_before. Qed.

(** The signal a request that was accepted has taken. *)
Definition takes_signal (cmd : Z) (ps : uparams) (r : Z * uparams) (p q : Z) : Prop :=
  submits cmd = true ∧ r.1 = TEE_SUCCESS ∧ (∃ b us, ps = UValue p b :: us) ∧ ∃ b us, r.2 = UValue q b :: us.

(** A call that leaves the system in order and takes no signal. *)
Definition stays {W} `{IoHelper W} (w w' : W) : Prop := io_ok w' ∧ calmer (io_sig w) (io_sig w').

Class TeeOk (t : bool) (maxlen : Z) (may : Z → Prop) (W : Type) `{!TeeClient W, !TeeServices W, !IoHelper W} := {
  ok_svc_open svc w : io_ok w → wp t (svc_open svc) (λ _ w', stays w w') w;
  ok_svc_invoke svc cmd types ps w : io_ok w → params_ok types ps → pta_client_ok maxlen svc cmd ps →
    wp t (svc_invoke svc cmd types ps) (λ r w', stays w w' ∧ Forall2 same_kind ps r.2) w;
  ok_tee_invoke cmd types ps w : io_ok w → params_ok types ps → cmd ≠ 0 → client_ok cmd ps →
    to_allowed may cmd ps → wp t (tee_invoke cmd types ps) (λ r w', io_ok w'
      ∧ new_only (takes_signal cmd ps r) (io_sig w) (io_sig w') ∧ Forall2 same_kind ps r.2
      ∧ (submits cmd = true → r.1 = TEE_SUCCESS → ∃ q b us, r.2 = UValue q b :: us ∧ in_sig q)) w;
  ok_map n w : io_ok w → wp t (tee_map_zi n) (λ _ w', stays w w') w;
  ok_time w : io_ok w → wp t tee_system_time (λ _ w', stays w w') w;
  ok_ta_malloc n w : io_ok w → wp t (ta_malloc n) (λ _ w', stays w w') w;
  ok_obj_create id fl w : io_ok w → wp t (obj_create id fl) (λ _ w', stays w w') w;
  ok_obj_open id fl w : io_ok w → wp t (obj_open id fl) (λ _ w', stays w w') w;
  ok_obj_write h l w : io_ok w → wp t (obj_write h l) (λ _ w', stays w w') w;
  ok_obj_info h w : io_ok w → wp t (obj_info h) (λ r w', stays w w' ∧ 0 <= r.2) w;
  ok_obj_read h n c w : io_ok w → 0 <= n → wp t (obj_read h n c) (λ r w', stays w w'
    ∧ Z.of_nat (length r.1.2) <= n ∧ (r.1.1 = TEE_SUCCESS → r.2 = Z.of_nat (length r.1.2))) w;
  ok_obj_close h w : io_ok w → wp t (obj_close h) (λ _ w', stays w w') w;
  ok_obj_delete h w : io_ok w → wp t (obj_delete h) (λ _ w', stays w w') w
}.

(** ** Parameters of an invocation by their types *)

Definition small_types (t0 t1 t2 t3 : Z) : bool :=
  forallb (λ x, (0 <=? x) && (x <? 8)) [t0; t1; t2; t3].

Lemma nib_types t0 t1 t2 t3 : small_types t0 t1 t2 t3 = true →
  nib (TEE_PARAM_TYPES t0 t1 t2 t3) 0 = t0 ∧ nib (TEE_PARAM_TYPES t0 t1 t2 t3) 1 = t1
  ∧ nib (TEE_PARAM_TYPES t0 t1 t2 t3) 2 = t2 ∧ nib (TEE_PARAM_TYPES t0 t1 t2 t3) 3 = t3.
Proof.
  intros Hs. cbn in Hs. rewrite andb_true_r in Hs. bool_props. unfold nib, TEE_PARAM_TYPES. change 0xF with (Z.ones 4).
  rewrite !Z.land_ones, !Z.shiftr_div_pow2 by lia. rewrite !(Z.lor_comm _ (Z.shiftl _ _)).
  rewrite (lor_shiftl_add t1), (lor_shiftl_add t2), (lor_shiftl_add t3) by lia.
  change (2 ^ (4 * 0)) with 1. change (2 ^ (4 * 1)) with 16. change (2 ^ (4 * 2)) with 256. change (2 ^ (4 * 3)) with 4096.
  change (2 ^ 4) with 16. change (2 ^ 8) with 256. change (2 ^ 12) with 4096. repeat split; Z.div_mod_to_equations; lia.
Qed.

Section rules.
Context {t : bool} {maxlen : Z} {may : Z → Prop} {W : Type} `{!TeeClient W, !TeeServices W, !IoHelper W, !TeeOk t maxlen may W}.
Implicit Type s : app W.

(** ** The invariant of the library, and what a function may touch *)

Record app_ok s : Prop := {
  ao_sys : io_ok (app_sys s);
  ao_bytes m : app_mem s = Some m → Forall byte m;
  ao_times : Z.of_nat (length (app_times s)) = N_TIMES
}.

Definition mem_rel (ws : list (Z * Z)) (o o' : option linear) : Prop :=
  match o, o' with
  | Some m, Some m' => same_outside ws m m'
  | None, None => True
  | _, _ => False
  end.
#[export] Instance mem_rel_preorder ws : PreOrder (mem_rel ws).
Proof.
  split; [by intros [m|]; [cbn; reflexivity|]|]. intros [m1|] [m2|] [m3|]; cbn; try done.
  intros ??; by etrans.
Qed.

Definition touches (ws : list (Z * Z)) s s' : Prop := app_ok s' ∧ mem_rel ws (app_mem s) (app_mem s').

Lemma touches_refl ws s : app_ok s → touches ws s s.
Proof. by split. Qed.
Lemma touches_trans ws s1 s2 s3 : touches ws s1 s2 → touches ws s2 s3 → touches ws s1 s3.
Proof. intros [_ H1] [? H2]. split; [done|by etrans]. Qed.

(** A pointer to [n] bytes at [a]; an empty range may be NULL. *)
Record points s (p : option Z) (a n : Z) : Prop := {
  pt_addr : 0 <= a;
  pt_size : word n;
  pt_mem : ∃ m, app_mem s = Some m ∧ a + n <= Z.of_nat (length m);
  pt_ptr : p = Some a ∨ p = None ∧ n = 0
}.

Lemma touches_mono ws ws' s s' : (∀ x, x ∈ ws → x ∈ ws') → touches ws s s' → touches ws' s s'.
Proof.
  intros Hws [? Hm]. split; [done|]. destruct (app_mem s), (app_mem s'); cbn in *; try done.
  destruct Hm as [Hl Hs]. split; [done|]. intros i Hi. apply Hs. intros a n Hin. by apply Hi, Hws.
Qed.

Lemma touches_nil s s' : touches [] s s' → app_mem s' = app_mem s.
Proof.
  intros [_ Hm]. destruct (app_mem s) as [m|], (app_mem s') as [m'|]; cbn in Hm; try done. f_equal.
  destruct Hm as [Hl Hs]. apply list_eq. intros i. apply Hs. by intros a n ?%elem_of_nil.
Qed.

Lemma points_touches ws s s' p a n : touches ws s s' → points s p a n → points s' p a n.
Proof.
  intros [_ Hm] [Ha Hn (m&Em&Hle) Hp]. split; [done|done| |done]. rewrite Em in Hm. cbn in Hm.
  destruct (app_mem s') as [m'|]; [|done]. exists m'. split; [done|]. by rewrite (so_length _ _ _ Hm).
Qed.

(** ** Rules

    [s0] is the state in which the function was called. *)
Context (ws : list (Z * Z)) (s0 : app W).
Abbreviation safe m := (wp t m (λ _ s', touches ws s0 s')).

Lemma safe_ret {A} (a : A) s : touches ws s0 s → safe (mret a) s.
Proof using. done. Qed.

Lemma safe_if {A} (b : bool) (m m' : L W A) s : safe m s → safe m' s → safe (if b then m else m') s.
Proof using. by destruct b. Qed.

Lemma touches_sys s w : touches ws s0 s → io_ok w → touches ws s0 (set_app_sys w s).
Proof using. intros [[? ? ?] ?] ?. by split; [split|]. Qed.

Lemma safe_fat p k s : touches ws s0 s →
  (word (clear_signature_and_tag p) → safe (k (clear_signature_and_tag p)) s) → safe (fat p k) s.
Proof using.
  intros Ht Hk. unfold fat. destruct (check_ptr_signed p); cbn [negb]; [|by wp_steps].
  apply Hk. pose proof (clear_range p). unfold word. lia.
Qed.

Lemma safe_fat0 p k s : touches ws s0 s → word p →
  (∀ a, word a → a = (if p =? 0 then 0 else clear_signature_and_tag p) → safe (k a) s) → safe (fat0 p k) s.
Proof using.
  intros Ht Hp Hk. unfold fat0. destruct (Z.eqb_spec p 0) as [->|]; cbn [negb]; [by apply Hk|].
  apply safe_fat; [done|]. intros ?. by apply Hk.
Qed.

Lemma validate_points s a n : app_ok s → word a → word n →
  wp t (wasm_runtime_validate_app_addr a n) (λ b s', if b : bool
     then s' = s ∧ points s (addr_app_to_native (app_mem s) a) a n else s' = set_app_exception true s) s.
Proof using.
  intros Hs Ha Hn. unfold wasm_runtime_validate_app_addr. wp_steps.
  destruct (validate_app_addr (app_mem s) a n) eqn:E; wp_steps; [|done]. split; [done|].
  destruct (app_mem s) as [m|] eqn:Em; [|done]. pose proof (validate_bounds m a n Ha Hn E).
  split; [apply Ha|done|by exists m|]. cbn. destruct (Z.ltb_spec a (Z.of_nat (length m))); [by left|]. right.
  unfold word in *. split; [done|lia].
Qed.

Lemma exc_touches s : touches ws s0 s → touches ws s0 (set_app_exception true s).
Proof using. intros [[? ? ?] ?]. by split; [split|]. Qed.

Lemma safe_valid a n k s : touches ws s0 s → word a → word n →
  (∀ p, points s p a n → safe (k p) s) → safe (valid a n k) s.
Proof using.
  intros Ht Ha Hn Hk. unfold valid. wp_steps. eapply wp_mono; [apply validate_points; [apply Ht|done|done]|].
  intros [] s'; cbn [negb]; [intros [-> Hp]|intros ->]; wp_steps; [|by apply exc_touches].
  unfold wasm_runtime_addr_app_to_native. wp_steps. by apply Hk.
Qed.

(** ** Loads and stores *)

Lemma wp_mem_load s p a n (Q : list Z → app W → Prop) : points s p a n → 0 < n →
  (∀ m, app_mem s = Some m → a + n <= Z.of_nat (length m) → Q (slice m a n) s) → wp t (mem_load p n) Q s.
Proof using.
  intros [Ha Hn (m&Em&Hle) Hp] Hpos HQ. unfold mem_load. wp_steps. rewrite Em.
  destruct Hp as [->|[_ ?]]; [|lia]. rewrite (proj2 (Z.leb_le _ _)) by lia. wp_steps. by apply HQ.
Qed.

(** The word in memory at an address. *)
Definition peek s (a : Z) : Z := match app_mem s with Some m => unle (slice m a 4) | None => 0 end.

Lemma peek_word s p a : app_ok s → points s p a 4 → word (peek s a).
Proof using.
  intros Hs [Ha _ (m&Em&Hle) _]. unfold peek. rewrite Em.
  assert (Forall byte (slice m a 4)) as Hb by (eapply slice_byte, ao_bytes; done).
  pose proof (unle_range _ Hb) as Hr. rewrite slice_length in Hr; [done|done|lia|lia].
Qed.

Lemma wp_load_u32 s p a (Q : Z → app W → Prop) : points s p a 4 → Q (peek s a) s → wp t (load_u32 p) Q s.
Proof using.
  intros Hp HQ. unfold load_u32. wp_steps. eapply wp_mem_load; [done|lia|]. intros m Em Hle. wp_steps.
  unfold peek in HQ. by rewrite Em in HQ.
Qed.

Lemma mem_store_ok s p a n l : app_ok s → points s p a n → (a, n) ∈ ws →
  Z.of_nat (length l) <= n → 0 < n → Forall byte l → wp t (mem_store p l) (λ _ s', touches ws s s') s.
Proof using.
  intros Hs [Ha Hn (m&Em&Hle) Hp] Hin Hl Hpos Hb. unfold mem_store. wp_steps. rewrite Em.
  destruct Hp as [->|[_ ?]]; [|lia]. rewrite (proj2 (Z.leb_le _ _)) by lia. wp_steps.
  split; [|cbn; rewrite Em; by eapply (splice_same _ _ _ n)]. destruct Hs as [? Hby ?]. split; [done| |done].
  intros m' [= <-]. apply splice_byte; [by apply Hby|done].
Qed.

(** ** Invocations *)

Definition param_fits s (ty : Z) (p : tparam) : Prop :=
  if ty =? TEE_PARAM_TYPE_NONE then True
  else if type_is_value ty then ty = TEE_PARAM_TYPE_VALUE_OUTPUT ∨ ∃ a b, p = TValue a b ∧ word a ∧ word b
  else if type_is_memref ty then ∃ b n, p = TMemref b n
    ∧ (n = 0 ∨ ∃ a, points s b a n ∧ (ty = TEE_PARAM_TYPE_MEMREF_INPUT ∨ (a, n) ∈ ws))
  else False.

(** What the kernel is given for a parameter. *)
Definition copied (ty : Z) (p : tparam) (u : uparam) : Prop :=
  if type_is_value ty then
    if ty =? TEE_PARAM_TYPE_VALUE_OUTPUT then u = UValue 0 0 else ∃ a b, p = TValue a b ∧ u = UValue a b
  else if type_is_memref ty then
    ∃ b n l, p = TMemref b n ∧ u = UMemref (bytes l) n ∧ n = Z.of_nat (length l) ∧ n < 2 ^ 32 ∧ Forall byte l
  else u = UNone.
Definition copies (types : Z) (ps : tparams) (us : uparams) : Prop :=
  match ps, us with
  | [p0; p1; p2; p3], [u0; u1; u2; u3] => copied (nib types 0) p0 u0 ∧ copied (nib types 1) p1 u1
                        ∧ copied (nib types 2) p2 u2 ∧ copied (nib types 3) p3 u3
  | _, _ => False
  end.

Lemma copy_param_copied s ty p : app_ok s → param_fits s ty p →
  wp t (copy_param ty p) (λ u s', s' = s ∧ copied ty p u) s.
Proof using.
  intros Hs Hf. unfold copy_param, param_fits, copied in *.
  destruct (Z.eqb_spec ty TEE_PARAM_TYPE_NONE) as [->|_]; [by wp_steps|].
  destruct (type_is_value ty) eqn:Ev.
  { destruct (Z.eqb_spec ty TEE_PARAM_TYPE_VALUE_OUTPUT); [by wp_steps|].
    destruct Hf as [|(a&b&->&?&?)]; [done|]. wp_steps. split; [done|]. by exists a, b. }
  destruct (type_is_memref ty) eqn:Em; [|done]. destruct Hf as (b&n&->&Hn).
  destruct (Z.eqb_spec n 0) as [->|Hne]; [by wp_steps; split; [|exists b, 0, []; split_and!]|].
  destruct Hn as [|(a&Hp&_)]; [done|]. pose proof Hp as [? [? ?] _ _]. wp_steps. eapply wp_mem_load; [done|lia|].
  intros m Emm Hle. wp_steps. split; [done|]. assert (length (slice m a n) = Z.to_nat n) as Hl by (apply slice_length; lia).
  exists b, n, (if ty =? TEE_PARAM_TYPE_MEMREF_OUTPUT then replicate (length (slice m a n)) 0 else slice m a n).
  split; [done|]. case_match.
  - split_and!; [done|rewrite length_replicate; lia|done|]. by apply Forall_replicate.
  - split_and!; [done|lia|done|]. eapply slice_byte, ao_bytes; done.
Qed.

Lemma copied_ok s ty p u : param_fits s ty p → copied ty p u → param_ok ty u.
Proof using.
  unfold param_fits, copied, param_ok. fold (type_is_value ty) (type_is_memref ty).
  destruct (Z.eqb_spec ty TEE_PARAM_TYPE_NONE) as [->|_]; [done|]. destruct (type_is_value ty).
  { destruct (Z.eqb_spec ty TEE_PARAM_TYPE_VALUE_OUTPUT); [by intros _ ->; exists 0, 0|].
    intros [|(a&b&->&?&?)]; [done|]. intros (?&?&[= <- <-]&->). by exists a, b. }
  destruct (type_is_memref ty); [|done]. intros _ (b&n&l&->&->&Hn&?&Hb). exists (bytes l), n.
  split_and!; [done|by rewrite blen_bytes|lia|]. intros _. by exists l.
Qed.

Lemma copy_param_ok s ty p : app_ok s → param_fits s ty p →
  wp t (copy_param ty p) (λ u s', s' = s ∧ param_ok ty u ∧ copied ty p u) s.
Proof using.
  intros Hs Hf. eapply wp_mono; [by apply copy_param_copied|]. intros u s' [-> Hc].
  split_and!; [done|by eapply copied_ok|done].
Qed.

Definition fits s (types : Z) (ps : tparams) : Prop :=
  match ps with
  | [p0; p1; p2; p3] => param_fits s (nib types 0) p0 ∧ param_fits s (nib types 1) p1
                        ∧ param_fits s (nib types 2) p2 ∧ param_fits s (nib types 3) p3
  | _ => False
  end.

Lemma copy_params_ok s types ps : app_ok s → fits s types ps →
  wp t (copy_params types 0 ps) (λ us s', s' = s ∧ params_ok types us ∧ copies types ps us) s.
Proof using.
  intros Hs Hf. destruct ps as [|p0 [|p1 [|p2 [|p3 []]]]]; try done. destruct Hf as (H0&H1&H2&H3).
  cbn [copy_params]. do 4 (wp_steps; eapply wp_mono; [by apply copy_param_ok|]; intros ? ? (->&?&?)). wp_steps.
  split; [done|]. repeat split; assumption.
Qed.

(** What an invocation leaves in the client's parameters. *)
Definition updated (res ty : Z) (p p' : tparam) : Prop :=
  if (ty =? TEE_PARAM_TYPE_VALUE_OUTPUT) || (ty =? TEE_PARAM_TYPE_VALUE_INOUT) then
    (res ≠ TEE_SUCCESS ∧ p' = p) ∨ ∃ a b, p' = TValue a b ∧ word a ∧ word b
  else if (ty =? TEE_PARAM_TYPE_MEMREF_OUTPUT) || (ty =? TEE_PARAM_TYPE_MEMREF_INOUT) then
    ∃ b n n', p = TMemref b n ∧ p' = TMemref b n'
  else p' = p.
Definition updates (res types : Z) (ps ps' : tparams) : Prop :=
  match ps, ps' with
  | [p0; p1; p2; p3], [q0; q1; q2; q3] => updated res (nib types 0) p0 q0 ∧ updated res (nib types 1) p1 q1
                        ∧ updated res (nib types 2) p2 q2 ∧ updated res (nib types 3) p3 q3
  | _, _ => False
  end.

Lemma settle_length (w : W) b : length (settle w b) = length b.
Proof using. apply length_imap. Qed.
Lemma settle_byte (w : W) b : Forall byte (settle w b).
Proof using.
  apply Forall_lookup. intros i x. unfold settle. rewrite list_lookup_imap.
  destruct (b !! i); cbn; [|done]. intros [= <-]. apply u8_range.
Qed.

Definition reply_fits (ty : Z) (u : uparam) : Prop :=
  if ty =? TEE_PARAM_TYPE_NONE then True
  else if type_is_value ty then ∃ a b, u = UValue a b
  else if type_is_memref ty then ∃ b n, u = UMemref b n
  else False.

Lemma reply_fits_kind ty u u' : param_ok ty u → same_kind u u' → reply_fits ty u'.
Proof using.
  unfold param_ok, reply_fits. fold (type_is_value ty) (type_is_memref ty). repeat case_match; try done.
  - intros (a&b&->&_). destruct u'; cbn; try done. eauto.
  - intros (b&n&->&_). destruct u'; cbn; try done. eauto.
Qed.

(** The value of an output parameter is the one the kernel left. *)
Definition takes (ty : Z) (u : uparam) (p' : tparam) : Prop :=
  if (ty =? TEE_PARAM_TYPE_VALUE_OUTPUT) || (ty =? TEE_PARAM_TYPE_VALUE_INOUT)
  then ∀ a b, u = UValue a b → p' = TValue (u32 a) (u32 b) else True.

Lemma update_out_param_ok res s ty p u : app_ok s → param_fits s ty p → reply_fits ty u →
  wp t (update_out_param ty p u) (λ p' s', touches ws s s' ∧ updated res ty p p' ∧ takes ty u p') s.
Proof using.
  intros Hs Hf Hu. unfold update_out_param, param_fits, reply_fits, updated, takes in *.
  assert (∀ p' : tparam, touches ws s s ∧ p' = p' ∧ True) as Hid by (intros; split_and!; [by apply touches_refl|done|done]).
  destruct (Z.eqb_spec ty TEE_PARAM_TYPE_NONE) as [->|_]; [by wp_steps|].
  destruct (type_is_value ty) eqn:Ev.
  { destruct (_ || _) eqn:Eo.
    - destruct Hu as (a&b&->). wp_steps. split_and!; [by apply touches_refl| |by intros ?? [= <- <-]].
      right. exists (u32 a), (u32 b). split_and!; [done|apply u32_range..].
    - destruct ((ty =? TEE_PARAM_TYPE_MEMREF_OUTPUT) || _) eqn:Em.
      + unfold type_is_value, TEE_PARAM_TYPE_MEMREF_OUTPUT, TEE_PARAM_TYPE_MEMREF_INOUT in *.
        apply orb_prop in Em as [?|?]; bool_props; subst; lia.
      + wp_steps. apply Hid. }
  destruct (type_is_memref ty) eqn:Emr; [|done]. destruct Hf as (b&n&->&Hn). destruct Hu as (tmp&n'&->).
  assert ((ty =? TEE_PARAM_TYPE_VALUE_OUTPUT) || (ty =? TEE_PARAM_TYPE_VALUE_INOUT) = false) as ->.
  { unfold type_is_memref, TEE_PARAM_TYPE_VALUE_OUTPUT, TEE_PARAM_TYPE_VALUE_INOUT in *. bool_props. apply orb_false_iff; split; apply Z.eqb_neq; lia. }
  destruct (_ || _) eqn:Eo; [|by wp_steps; apply Hid]. wp_steps. destruct (Z.eqb_spec n 0) as [->|Hne]; wp_steps.
  { split_and!; [by apply touches_refl|by eexists b, 0, n'|done]. }
  destruct Hn as [|(a&Hp&[->|Hin])]; [done|done|]. pose proof (pt_size _ _ _ _ Hp) as Hw. unfold word in Hw.
  assert (0 < n) as Hpos by lia.
  eapply wp_mono; [eapply (mem_store_ok s b a n); [done|done|done| |done|apply settle_byte]|].
  { rewrite settle_length, length_take. lia. }
  intros [] s' Ht. wp_steps. split_and!; [done|by eexists b, n, n'|done].
Qed.

Lemma param_fits_touches s s' ty p : touches ws s s' → param_fits s ty p → param_fits s' ty p.
Proof using.
  intros Ht. unfold param_fits. repeat case_match; try done. intros (b&n&->&Hn). exists b, n. split; [done|].
  destruct Hn as [|(a&Hp&?)]; [by left|]. right. exists a. split; [by eapply points_touches|done].
Qed.

Lemma fits_touches s s' types ps : touches ws s s' → fits s types ps → fits s' types ps.
Proof using.
  intros Ht. destruct ps as [|p0 [|p1 [|p2 [|p3 []]]]]; try done. intros (?&?&?&?).
  repeat split; by apply (param_fits_touches s).
Qed.

Lemma update_out_params_ok res s types ps us us' : app_ok s → fits s types ps → params_ok types us →
  Forall2 same_kind us us' →
  wp t (update_out_params types 0 ps us') (λ ps' s', touches ws s s' ∧ updates res types ps ps'
    ∧ ∃ u us1 p ps1, us' = u :: us1 ∧ ps' = p :: ps1 ∧ takes (nib types 0) u p) s.
Proof using.
  intros Hs Hf Hu Hk. destruct ps as [|p0 [|p1 [|p2 [|p3 []]]]]; try done. destruct Hf as (H0&H1&H2&H3).
  destruct us as [|u0 [|u1 [|u2 [|u3 []]]]]; try done. destruct Hu as (U0&U1&U2&U3).
  apply Forall2_cons_inv_l in Hk as (v0&?&K0&Hk&->). apply Forall2_cons_inv_l in Hk as (v1&?&K1&Hk&->).
  apply Forall2_cons_inv_l in Hk as (v2&?&K2&Hk&->). apply Forall2_cons_inv_l in Hk as (v3&?&K3&Hk&->).
  apply Forall2_nil_inv_l in Hk as ->. cbn [update_out_params].
  wp_steps. eapply wp_mono; [apply (update_out_param_ok res); [done|done|by eapply reply_fits_kind]|]. intros q0 s1 (T1&R0&V0).
  wp_steps. eapply wp_mono; [apply (update_out_param_ok res); [apply T1|by eapply param_fits_touches|by eapply reply_fits_kind]|].
  intros q1 s2 (T2&R1&_). assert (touches ws s s2) as T02 by by eapply touches_trans.
  wp_steps. eapply wp_mono; [apply (update_out_param_ok res); [apply T2|by eapply param_fits_touches|by eapply reply_fits_kind]|].
  intros q2 s3 (T3&R2&_). assert (touches ws s s3) as T03 by by eapply touches_trans.
  wp_steps. eapply wp_mono; [apply (update_out_param_ok res); [apply T3|by eapply param_fits_touches|by eapply reply_fits_kind]|].
  intros q3 s4 (T4&R3&_). wp_steps. split; [exact (touches_trans _ _ _ _ T03 T4)|].
  split; [exact (conj R0 (conj R1 (conj R2 R3)))|]. exact (ex_intro _ _ (ex_intro _ _ (ex_intro _ _ (ex_intro _ _ (conj eq_refl (conj eq_refl V0)))))).
Qed.

Lemma updates_refl res types s ps : res ≠ TEE_SUCCESS → fits s types ps → updates res types ps ps.
Proof using.
  intros Hr. destruct ps as [|p0 [|p1 [|p2 [|p3 []]]]]; try done.
  assert (∀ ty p, param_fits s ty p → updated res ty p p) as Hu.
  { intros ty p. unfold param_fits, updated. destruct (_ || _) eqn:E; [by left|].
    destruct ((ty =? TEE_PARAM_TYPE_MEMREF_OUTPUT) || _) eqn:E'; [|done].
    assert (ty = 6 ∨ ty = 7) as [->| ->] by (apply orb_prop in E' as [?|?]; bool_props; tauto); cbn;
      intros (b&n&->&_); by eexists b, _, _. }
  intros (?&?&?&?). cbn. auto.
Qed.

(** The first parameter as the kernel left it. *)
Definition first_taken (types : Z) (up : uparams) (ps' : tparams) : Prop :=
  ∃ u us p ps, up = u :: us ∧ ps' = p :: ps ∧ takes (nib types 0) u p.

(** The signals the library sees. *)
Definition signals s : Z → Z → sig_state := io_sig (app_sys s).

Lemma update_out_params_sys types i ps us s : match update_out_params types i ps us s with
  | Ok _ s' => app_sys s' = app_sys s | _ => True end.
Proof using.
  revert i us s. induction ps as [|p ps IH]; intros i [|u us] s; try done. cbn [update_out_params]. unfold mbind, M_bind.
  assert (match update_out_param (nib types i) p u s with Ok _ s' => app_sys s' = app_sys s | _ => True end) as Hu.
  { unfold update_out_param, mem_store, mbind, M_bind, gets, mret, M_ret, modify. by repeat (case_match; simplify_eq/=). }
  destruct (update_out_param _ p u s) as [p' s1| |]; [|done|done]. specialize (IH (i + 1) us s1).
  destruct (update_out_params _ _ _ _ s1) as [ps' s2| |]; [|done|done]. cbn. congruence.
Qed.

(** What an invocation answered, and the signals it took: [P] and [N] say it
    of the parameters in the kernel. *)
Definition invoked (types : Z) (ps : tparams) s (P : Z → uparams → Prop) (N : uparams → Z * uparams → Z → Z → Prop)
    (r : Z * tparams) s' : Prop :=
  touches ws s s' ∧ updates r.1 types ps r.2
  ∧ (r.1 = TEE_SUCCESS → ∃ up, P TEE_SUCCESS up ∧ first_taken types up r.2)
  ∧ new_only (λ p q, ∃ up r', copies types ps up ∧ r.1 = r'.1 ∧ first_taken types r'.2 r.2 ∧ N up r' p q) (signals s) (signals s').

Lemma TEE_InvokeTACommand_ok invoke cmd types ps s (P : Z → uparams → Prop) N : app_ok s → fits s types ps →
  (∀ up w, io_ok w → params_ok types up → copies types ps up → wp t (invoke cmd types up) (λ r w', io_ok w'
     ∧ new_only (N up r) (io_sig w) (io_sig w') ∧ Forall2 same_kind up r.2 ∧ P r.1 r.2) w) →
  wp t (TEE_InvokeTACommand invoke cmd types ps) (invoked types ps s P N) s.
Proof using TeeOk0.
  intros Hs Hf Hinv. unfold TEE_InvokeTACommand. wp_steps. eapply wp_mono; [by apply copy_params_ok|].
  intros up ? (->&Hup&Hcp). wp_steps.
  assert (wp t (if 0 <? tmp_len up then on_sys (tee_map_zi (tmp_len up)) else mret true)
    (λ _ s', touches ws s s' ∧ calmer (signals s) (signals s')) s) as Hmap.
  { case_match; wp_steps; [|by split; [apply touches_refl|]]. apply wp_zoom. eapply wp_mono; [apply ok_map, Hs|].
    intros ? w' [Hw Hc]. destruct Hs. split; [|done]. split; [by split|]. cbn. reflexivity. }
  eapply wp_mono; [exact Hmap|]. intros [] s1 [Ht1 Hc1]; cbn [negb]; wp_steps.
  2:{ split_and!; [done|by eapply updates_refl|done|]. eapply new_only_mono; [|exact Hc1]. done. }
  apply wp_zoom. eapply wp_mono; [apply Hinv; [apply Ht1|done|done]|]. intros [res up'] w' (Hw&HN&Hk&HP).
  set (s2 := set_app_sys w' s1). assert (touches ws s s2) as Ht2.
  { destruct Ht1 as [[? ? ?] ?]. by split; [split|]. }
  assert (fits s2 types ps) as Hf2 by by apply (fits_touches s).
  wp_steps. pose proof (update_out_params_sys types 0 ps up' s2) as Hsys.
  pose proof (update_out_params_ok res s2 types ps up up' (proj1 Ht2) Hf2 Hup Hk) as Hupd. unfold wp in Hupd |- *.
  destruct (update_out_params types 0 ps up' s2) as [ps' s3| |]; [|done|done].
  destruct Hupd as (Ht3&Hu&Hfst). change (invoked types ps s P N (res, ps') s3). unfold invoked. cbn [fst snd] in *.
  split; [exact (touches_trans _ _ _ _ Ht2 Ht3)|]. split; [exact Hu|]. split; [intros ->; exists up'; exact (conj HP Hfst)|].
  eapply new_only_before; [exact Hc1|]. unfold signals at 2. rewrite Hsys. eapply new_only_mono; [|exact HN].
  intros p q _ HNpq. exists up, (res, up'). split_and!; [done|done|exact Hfst|done].
Qed.

(** A session that is opened when it is first needed. *)
Lemma session_ok (sess : bool) (m : M W Z) (upd : app W → app W) s :
  (∀ w, io_ok w → wp t m (λ _ w', stays w w') w) → (∀ s, app_ok s → touches ws s (upd s) ∧ app_sys (upd s) = app_sys s) → app_ok s →
  wp t (if sess then mret TEE_SUCCESS else
          res ← on_sys m; if negb (res =? TEE_SUCCESS) then mret res else modify upd;; mret TEE_SUCCESS)
    (λ _ s', touches ws s s' ∧ calmer (signals s) (signals s')) s.
Proof using.
  intros Hm Hupd Hs. destruct sess; wp_steps; [by split; [apply touches_refl|]|]. apply wp_zoom.
  eapply wp_mono; [apply Hm, Hs|]. intros res w' [Hw Hc]. assert (touches ws s (set_app_sys w' s)) as Ht.
  { destruct Hs. split; [by split|]. cbn. reflexivity. }
  case_match; wp_steps; [by split|]. destruct (Hupd _ (proj1 Ht)) as [Ht2 E]. split; [eapply touches_trans; [exact Ht|exact Ht2]|].
  unfold signals at 2. by rewrite E.
Qed.

Lemma invoke_pta_ok svc cmd types ps s : app_ok s → fits s types ps →
  (∀ up, copies types ps up → pta_client_ok maxlen svc cmd up) →
  wp t (invoke_pta svc cmd types ps) (invoked types ps s (λ _ _, True) (λ _ _ _ _, False)) s.
Proof using TeeOk0.
  intros Hs Hf Hduty. unfold invoke_pta. wp_steps. eapply wp_mono.
  { apply session_ok; [by intros; apply ok_svc_open| |done]. intros s' [? ? ?]. split; [|done]. split; [by split|]. cbn. reflexivity. }
  intros res s1 [Ht1 Hc1]. case_match eqn:E; wp_steps.
  { bool_props. split_and!; [done|by eapply updates_refl|by intros ?|]. eapply new_only_mono; [|exact Hc1]. done. }
  assert (fits s1 types ps) as Hf1 by by apply (fits_touches s).
  eapply wp_mono; [eapply (TEE_InvokeTACommand_ok _ _ _ _ _ (λ _ _, True) (λ _ _ _ _, False)); [apply Ht1|done|]|].
  { intros up w Hw Hup Hcp. eapply wp_mono; [by apply ok_svc_invoke; auto|]. by intros r w' [[? ?] ?]. }
  intros r s2 (Ht2&Hu&Hk&HN). split; [exact (touches_trans _ _ _ _ Ht1 Ht2)|]. split; [exact Hu|]. split; [exact Hk|].
  by eapply new_only_before.
Qed.

Definition accepted (cmd res : Z) (up : uparams) : Prop :=
  submits cmd = true → res = TEE_SUCCESS → ∃ q b us, up = UValue q b :: us ∧ in_sig q.

Lemma invoke_io_helper_ok cmd types ps s : app_ok s → fits s types ps → cmd ≠ 0 →
  (∀ up, copies types ps up → client_ok cmd up ∧ to_allowed may cmd up) →
  wp t (invoke_io_helper_pta cmd types ps) (invoked types ps s (accepted cmd) (takes_signal cmd)) s.
Proof using TeeOk0.
  intros Hs Hf Hc Hduty. unfold invoke_io_helper_pta. wp_steps. eapply wp_mono.
  { apply session_ok; [| |done].
    - intros w Hw. destruct (io_open_ok w Hw) as (w'&E&?&?). unfold wp. rewrite E. split; [done|by apply progress_calmer].
    - intros s' [? ? ?]. split; [|done]. split; [by split|]. cbn. reflexivity. }
  intros res s1 [Ht1 Hc1]. case_match eqn:E; wp_steps.
  { bool_props. split_and!; [done|by eapply updates_refl|by intros ?|]. eapply new_only_mono; [|exact Hc1]. done. }
  assert (fits s1 types ps) as Hf1 by by apply (fits_touches s).
  eapply wp_mono; [eapply (TEE_InvokeTACommand_ok _ _ _ _ _ (accepted cmd) (takes_signal cmd)); [apply Ht1|done|]|].
  { intros up w Hw Hup Hcp. destruct (Hduty up Hcp). eapply wp_mono; [by apply ok_tee_invoke|]. by intros r w' (?&?&?&?). }
  intros r s2 (Ht2&Hu&Hk&HN). split; [exact (touches_trans _ _ _ _ Ht1 Ht2)|]. split; [exact Hu|]. split; [exact Hk|].
  by eapply new_only_before.
Qed.
End rules.
