(* ===== verification/TzioSafe.v ===== *)
(** * Native library: every function stays within its arguments

    The ranges each native function may write, and the proof that it writes
    nothing else: for every entry of [native_symbols] and all arguments. *)

From Stdlib Require Import ZArith Lia Bool.
From stdpp Require Import base tactics option list strings numbers gmap.
From S2P Require Import Prelude Platform Params I2c Spi Sensors Tel0157 Pta PtaProofs IoReq IoState IoSignal IoSignalProofs.
From S2P Require Import IoHandlers IoHandlersProofs IoRefinement.
From S2P Require Import Runtime RuntimeScan RuntimeProofs AppMemory TeeApi Tzio TzioAsync TzioProofs.

Open Scope Z_scope.

Section safe.
Context {t : bool} {maxlen : Z} {may : Z → Prop} {W : Type} `{!TeeClient W, !TeeServices W, !IoHelper W, !TeeOk t maxlen may W}.
Context (ws : list (Z * Z)).
Implicit Type s : app W.
Abbreviation param_fits := (param_fits ws).
Abbreviation fits := (fits ws).

(** ** Parameters *)

Lemma fits_none s p : param_fits s NONE p.
Proof using. done. Qed.
Lemma fits_in s a b : word a → word b → param_fits s VALUE_IN (TValue a b).
Proof using. right. by exists a, b. Qed.
Lemma fits_inout s a b : word a → word b → param_fits s VALUE_INOUT (TValue a b).
Proof using. right. by exists a, b. Qed.
Lemma fits_out s p : param_fits s VALUE_OUT p.
Proof using. by left. Qed.
Lemma fits_mem_in s p a n : points s p a n → param_fits s MEM_IN (TMemref p n).
Proof using. intros. exists p, n. split; [done|]. right. exists a. split; [done|by left]. Qed.
Lemma fits_mem_out s p a n : points s p a n → (a, n) ∈ ws → param_fits s MEM_OUT (TMemref p n).
Proof using. intros. exists p, n. split; [done|]. right. exists a. split; [done|by right]. Qed.
Lemma fits_null_in s p n : n = 0 → param_fits s MEM_IN (TMemref p n).
Proof using. intros ->. exists p, 0. split; [done|]. by left. Qed.
Lemma fits_null_out s p n : n = 0 → param_fits s MEM_OUT (TMemref p n).
Proof using. intros ->. exists p, 0. split; [done|]. by left. Qed.

Lemma fits_types s t0 t1 t2 t3 p0 p1 p2 p3 : small_types t0 t1 t2 t3 = true →
  param_fits s t0 p0 → param_fits s t1 p1 → param_fits s t2 p2 → param_fits s t3 p3 →
  fits s (TEE_PARAM_TYPES t0 t1 t2 t3) [p0; p1; p2; p3].
Proof using. intros Hs. destruct (nib_types _ _ _ _ Hs) as (E0&E1&E2&E3). unfold TzioProofs.fits. by rewrite E0, E1, E2, E3. Qed.

Lemma updates_types res t0 t1 t2 t3 p0 p1 p2 p3 ps' : small_types t0 t1 t2 t3 = true →
  updates res (TEE_PARAM_TYPES t0 t1 t2 t3) [p0; p1; p2; p3] ps' →
  ∃ q0 q1 q2 q3, ps' = [q0; q1; q2; q3] ∧ updated res t0 p0 q0 ∧ updated res t1 p1 q1
    ∧ updated res t2 p2 q2 ∧ updated res t3 p3 q3.
Proof using.
  intros Hs. destruct (nib_types _ _ _ _ Hs) as (E0&E1&E2&E3). unfold updates.
  destruct ps' as [|q0 [|q1 [|q2 [|q3 []]]]]; try done. rewrite E0, E1, E2, E3. intros (?&?&?&?). by exists q0, q1, q2, q3.
Qed.

Lemma updated_value res ty p p' : ty = VALUE_OUT ∨ ty = VALUE_INOUT → res = TEE_SUCCESS →
  updated res ty p p' → ∃ a b, p' = TValue a b ∧ word a ∧ word b.
Proof using. intros [->| ->] ->; by intros [[? _]|?]. Qed.
Lemma updated_memref res p p' : updated res MEM_OUT p p' → ∃ b n n', p = TMemref b n ∧ p' = TMemref b n'.
Proof using. done. Qed.

Lemma word_spi a b : word (spi_dev_word a b).
Proof using.
  unfold spi_dev_word, word, u32. change 0xffff with (Z.ones 16). rewrite Z.land_ones by lia. rewrite Z.shiftl_mul_pow2 by lia.
  pose proof (Z.mod_pos_bound b (2 ^ 16)). assert (a * 2 ^ 16 mod 2 ^ 32 = Z.shiftl (a mod 2 ^ 16) 16) as ->.
  { rewrite Z.shiftl_mul_pow2 by lia. change (2 ^ 32) with (2 ^ 16 * 2 ^ 16). rewrite Z.mul_mod_distr_r; lia. }
  rewrite lor_shiftl_add by lia. pose proof (Z.mod_pos_bound a (2 ^ 16)). lia.
Qed.

(** The first value of an accepted request. *)
Lemma taken_sig cmd t1 t2 t3 ps' : small_types VALUE_INOUT t1 t2 t3 = true → submits cmd = true →
  (∃ up, accepted cmd TEE_SUCCESS up ∧ first_taken (TEE_PARAM_TYPES VALUE_INOUT t1 t2 t3) up ps') →
  ∃ q b ps, ps' = TValue q b :: ps ∧ in_sig q.
Proof using.
  intros Hs Hc (up&Hacc&(u&us&p&ps&->&->&Htk)). destruct (Hacc Hc eq_refl) as (q&b&us'&[= -> ->]&Hq).
  destruct (nib_types _ _ _ _ Hs) as (E0&_). rewrite E0 in Htk. rewrite (Htk q b eq_refl). assert (0 <= q < 64) by exact Hq.
  rewrite u32_id by lia. by exists q, (u32 b), ps.
Qed.
End safe.

(** ** Duties of a client

    The duties are about the parameters as the kernel receives them. *)

Lemma copies_types t0 t1 t2 t3 p0 p1 p2 p3 us : small_types t0 t1 t2 t3 = true →
  copies (TEE_PARAM_TYPES t0 t1 t2 t3) [p0; p1; p2; p3] us →
  ∃ u0 u1 u2 u3, us = [u0; u1; u2; u3] ∧ copied t0 p0 u0 ∧ copied t1 p1 u1 ∧ copied t2 p2 u2 ∧ copied t3 p3 u3.
Proof.
  intros Hs. destruct (nib_types _ _ _ _ Hs) as (E0&E1&E2&E3). unfold copies.
  destruct us as [|u0 [|u1 [|u2 [|u3 []]]]]; try done. rewrite E0, E1, E2, E3. intros (?&?&?&?). by exists u0, u1, u2, u3.
Qed.
Lemma copied_none p u : copied NONE p u → u = UNone.
Proof. done. Qed.
Lemma copied_in a b u : copied VALUE_IN (TValue a b) u → u = UValue a b.
Proof. by intros (?&?&[= <- <-]&->). Qed.
Lemma copied_inout a b u : copied VALUE_INOUT (TValue a b) u → u = UValue a b.
Proof. by intros (?&?&[= <- <-]&->). Qed.
Lemma copied_out p u : copied VALUE_OUT p u → u = UValue 0 0.
Proof. done. Qed.
Lemma copied_mem_in b n u : copied MEM_IN (TMemref b n) u →
  ∃ l, u = UMemref (bytes l) n ∧ n = Z.of_nat (length l) ∧ n < 2 ^ 32 ∧ Forall byte l.
Proof. intros (?&?&l&[= <- <-]&?). by exists l. Qed.
Lemma copied_mem_out b n u : copied MEM_OUT (TMemref b n) u →
  ∃ l, u = UMemref (bytes l) n ∧ n = Z.of_nat (length l) ∧ n < 2 ^ 32 ∧ Forall byte l.
Proof. intros (?&?&l&[= <- <-]&?). by exists l. Qed.

Ltac copied_inv :=
  repeat match goal with
  | C : copied NONE _ _ |- _ => apply copied_none in C; subst
  | C : copied VALUE_IN (TValue _ _) _ |- _ => apply copied_in in C; subst
  | C : copied VALUE_INOUT (TValue _ _) _ |- _ => apply copied_inout in C; subst
  | C : copied VALUE_OUT _ _ |- _ => apply copied_out in C; subst
  | C : copied MEM_IN (TMemref _ _) _ |- _ => apply copied_mem_in in C as (?&->&?&?&?)
  | C : copied MEM_OUT (TMemref _ _) _ |- _ => apply copied_mem_out in C as (?&->&?&?&?)
  end.
Ltac solve_lens := intros [|[|[|[|?]]]] ? ? [=]; subst; lia.
Ltac solve_duty :=
  let up := fresh "up" in let Hcp := fresh "Hcp" in
  intros up Hcp; apply copies_types in Hcp as (?&?&?&?&->&?&?&?&?); [|reflexivity]; copied_inv; cbn [pta_client_ok client_ok];
  first [ exact I | done
        | (let H := fresh in intros [_ H]; by destruct H)
        | (intros _ ? ? [= <- <-]; assumption)
        | solve_lens
        | (split_and!; [done|(intros ? ? [= <- <-]; split; assumption)|solve_lens])
        | (intros _ ? ? [= <- <-]; lia)
        | (intros ?; done)
        | (split; unfold N_PERIPH, N_SUB_SIG, N_SESS in *; [rewrite u16_id by lia|]; lia) ].

Ltac revert_copied := lazymatch goal with H : copies _ _ ?up |- _ => revert up H end.

(** ** Proof steps *)

Ltac solve_word := first [assumption | done | apply word_spi | apply u32_range | (unfold word; lia)].
Ltac solve_words := repeat (apply Forall_cons_2; [solve_word|]); apply Forall_nil_2.
Ltac solve_mem := repeat first [apply list_elem_of_here | apply list_elem_of_further].
Ltac solve_fits :=
  apply fits_types; [reflexivity|..];
  first [ apply fits_none | apply fits_out | (apply fits_in; solve_word) | (apply fits_inout; solve_word)
        | (eapply fits_mem_in; eassumption) | (eapply fits_mem_out; [eassumption|solve [assumption|solve_mem]])
        | (apply fits_null_in; lia) | (apply fits_null_out; lia) ].

(** After an invocation: the state and the parameters it left. *)
Ltac invoked_intro :=
  let res := fresh "res" in let ps := fresh "ps" in let s1 := fresh "s" in
  let Ht := fresh "Ht" in let Hu := fresh "Hu" in let Ha := fresh "Hacc" in
  intros [res ps] s1 (Ht&Hu&Ha&_); cbn [fst snd] in Hu, Ha;
  try (apply updates_types in Hu as (?q0&?q1&?q2&?q3&->&?U0&?U1&?U2&?U3); [|reflexivity]).

Ltac ok_state := first [assumption | match goal with H : touches _ _ ?s |- app_ok ?s => exact (proj1 H) end].
Ltac prior := first [ assumption | (apply touches_refl; ok_state)
  | match goal with H : touches _ ?s0 ?s1, H' : touches _ ?s1 ?s2 |- touches _ ?s0 ?s2 => exact (touches_trans _ _ _ _ H H') end
  | (eapply touches_trans; [eassumption|]; prior) ].

(** Names the windows a proof is about. *)
Definition writing (ws : list (Z * Z)) : Prop := True.
Ltac with_windows tac := lazymatch goal with _ : writing ?ws |- _ => tac ws end.

Ltac lib_step :=
  lazymatch goal with
  | |- wp _ (fat _ _) _ _ => apply safe_fat; [prior|intros ?]
  | |- wp _ (fat0 _ _) _ _ => apply safe_fat0; [prior|solve_word|intros ? ? ?]
  | |- wp _ (valid _ _ _) _ _ => apply safe_valid; [prior|solve_word|solve_word|intros ?p ?Hp]
  | |- wp _ (result _) _ _ => unfold result
  | |- wp _ (invoke_pta _ _ _ _) _ _ => with_windows ltac:(fun ws => eapply wp_mono; [apply (invoke_pta_ok ws); [ok_state|solve_fits|solve_duty]|invoked_intro])
  | |- wp _ (TeeApi.invoke_io_helper_pta _ _ _) _ _ => with_windows ltac:(fun ws => eapply wp_mono; [apply (invoke_io_helper_ok ws); [ok_state|solve_fits|done|intros ? ?; split; [revert_copied; solve_duty|by intros ?]]|invoked_intro])
  | |- wp _ (if ?b then _ else _) _ _ => let E := fresh "E" in destruct b eqn:E; bool_props
  | |- wp _ (mret _) _ _ => apply wp_ret
  | |- wp _ (_ ≫= _) _ _ => apply wp_bind
  end; cbn beta iota.

(** Reading a parameter of a literal list. *)
Ltac tget := unfold tvalue_a, tvalue_b, tsize; wp_steps; eapply wp_arr_get; [lia|reflexivity|]; cbn beta iota; wp_steps.

(** ** Functions that store what they were answered *)
Section stores.
Context {t : bool} {maxlen : Z} {may : Z → Prop} {W : Type} `{!TeeClient W, !TeeServices W, !IoHelper W, !TeeOk t maxlen may W}.
Context (ws : list (Z * Z)).
Implicit Type s : app W.

Lemma store_le_ok (k : nat) s p a x : app_ok s → points s p a (Z.of_nat k) → (a, Z.of_nat k) ∈ ws → (0 < k)%nat →
  wp t (mem_store p (le k x)) (λ _ s', touches ws s s') s.
Proof using. intros. eapply mem_store_ok; [done|done|done|rewrite le_length; lia|lia|apply le_byte]. Qed.

(** A service that answers in the first parameter. *)
Definition answers (m : L W (Z * tparams)) : Prop := ∀ s, app_ok s →
  wp t m (λ r s', touches ws s s' ∧ (r.1 = TEE_SUCCESS → ∃ a b tl, r.2 = TValue a b :: tl)) s.

Lemma invoke_answers svc cmd a b p1 p2 p3 : word a → word b → pta_client_ok maxlen svc cmd [UValue a b; UNone; UNone; UNone] →
  answers (invoke_pta svc cmd (TEE_PARAM_TYPES VALUE_INOUT NONE NONE NONE) [TValue a b; p1; p2; p3]).
Proof using TeeOk0.
  intros Ha Hb Hduty s Hs. eapply wp_mono; [apply invoke_pta_ok; [done|solve_fits|]|invoked_intro].
  { intros up Hcp. apply copies_types in Hcp as (?&?&?&?&->&?&?&?&?); [|reflexivity]. by copied_inv. }
  split; [done|]. cbn [fst snd]. intros ->. apply updated_value in U0 as (x&y&->&_); [|by right|done]. by exists x, y, [q1; q2; q3].
Qed.

Lemma answer_ok k addr (store : option Z → Z → L W unit) m s : (0 < k)%nat → Z.of_nat k < 2 ^ 32 →
  (∀ p x, store p x = mem_store p (le k x)) →
  answers m → (clear_signature_and_tag addr, Z.of_nat k) ∈ ws → app_ok s →
  wp t (answer (Z.of_nat k) addr store m) (λ _ s', touches ws s s') s.
Proof using.
  intros Hk Hk' Hstore Hm Hin Hs. unfold answer. lib_step. lib_step. lib_step.
  eapply wp_mono; [by apply Hm|]. intros [res ps] s1 [Ht Hv]. lib_step; [by lib_step|].
  cbn in Hv. destruct Hv as (a&b&tl&->); [done|]. wp_steps. tget. rewrite Hstore.
  eapply wp_mono; [eapply store_le_ok; [ok_state|by eapply points_touches|done|done]|]. cbn beta. intros [] s2 Ht2. wp_steps. prior.
Qed.
End stores.

(** ** Calls of the system *)

Abbreviation adr := clear_signature_and_tag.
Definition adr0 (p : Z) : Z := if p =? 0 then 0 else adr p.

Lemma touches_any {W} `{!TeeClient W, !TeeServices W, !IoHelper W} ws (s s' : app W) : touches [] s s' → touches ws s s'.
Proof. apply touches_mono. by intros x ?%elem_of_nil. Qed.

Ltac prior ::= first [ assumption | (apply touches_refl; ok_state) | (apply touches_any; assumption)
  | (eapply touches_trans; [|eassumption]; prior)
  | (eapply touches_trans; [|apply touches_any; eassumption]; prior) ].

(** Storing a word of [k] bytes through a pointer that was validated. *)
Ltac store ws k :=
  lazymatch goal with |- wp _ (?st ?p _) _ ?s =>
    eapply wp_mono; [eapply (store_le_ok ws k s p);
      [ok_state|solve [eauto using points_touches]|first [assumption|solve_mem]|lia]|];
    cbn beta; intros [] ?s ?Ht
  end.

Section natives.
Context {t : bool} {maxlen : Z} {may : Z → Prop} {W : Type} `{!TeeClient W, !TeeServices W, !IoHelper W, !TeeOk t maxlen may W}.
Implicit Type s : app W.

Lemma on_sys_ok {A} (m : M W A) (P : A → Prop) s : app_ok s → wp t m (λ a w', stays (app_sys s) w' ∧ P a) (app_sys s) →
  wp t (on_sys m) (λ a s', touches [] s s' ∧ P a) s.
Proof using.
  intros [? ? ?] Hm. apply wp_zoom. eapply wp_mono; [exact Hm|]. intros a w' [[Hw _] Ha]. split; [|done].
  split; [by split|]. cbn. reflexivity.
Qed.
Lemma on_sys_plain {A} (m : M W A) s : app_ok s → (io_ok (app_sys s) → wp t m (λ _ w', stays (app_sys s) w') (app_sys s)) →
  wp t (on_sys m) (λ _ s', touches [] s s') s.
Proof using.
  intros Hs Hm. eapply wp_mono; [apply (on_sys_ok m (λ _, True)); [done|]|by intros ? ? [? _]].
  eapply wp_mono; [apply Hm, Hs|]. by intros.
Qed.

Lemma same_points s s' p a n : touches [] s s' → points s p a n → points s' p a n.
Proof using. apply points_touches. Qed.

Ltac sys law := eapply wp_mono; [apply on_sys_plain; [ok_state|intros ?; by apply law]|]; cbn beta.

Lemma times_touches ws s (l : list (Z * Z)) : app_ok s → length l = length (app_times s) → touches ws s (set_app_times l s).
Proof using. intros [? ? ?] Hl. split; [split; [done|done|cbn; lia]|]. cbn. reflexivity. Qed.

Lemma record_benchmark_time_ok ws s idx : app_ok s → word idx →
  wp t (record_benchmark_time_wrapper idx) (λ _ s', touches ws s s') s.
Proof using TeeOk0.
  intros Hs Hi. unfold record_benchmark_time_wrapper. lib_step; lib_step; [prior|].
  sys ok_time. intros tm s1 Ht. wp_steps. pose proof (ao_times _ (proj1 Ht)) as Hl. unfold word, N_TIMES in *.
  apply wp_arr_set; [lia|]. wp_steps. eapply touches_trans; [apply touches_any, Ht|].
  apply times_touches; [apply Ht|by rewrite length_insert].
Qed.

Lemma get_benchmark_time_ok ws s idx addr : app_ok s → word idx → word addr → (addr, 8) ∈ ws →
  wp t (get_benchmark_time_wrapper idx addr) (λ _ s', touches ws s s') s.
Proof using TeeOk0.
  intros Hs Hi Ha Hin. unfold get_benchmark_time_wrapper. lib_step; lib_step; [prior|].
  wp_steps. pose proof (ao_times _ Hs) as Hl. unfold word, N_TIMES in *.
  destruct (lookup_lt_is_Some_2 (app_times s) (Z.to_nat idx)) as [x Hx]; [lia|]. eapply wp_arr_get; [lia|done|].
  wp_steps. store ws 8%nat. by wp_steps.
Qed.

Lemma time_overhead_ok ws s : app_ok s → wp t test_ta_get_sys_time_overhead_wrapper (λ _ s', touches ws s s') s.
Proof using TeeOk0.
  intros Hs. unfold test_ta_get_sys_time_overhead_wrapper. wp_steps. sys ok_time. intros t0 s1 H1. wp_steps.
  sys ok_time. intros t1 s2 H2. wp_steps. prior.
Qed.

Lemma dht_read_ok ws s pin ty ta ha : app_ok s → word pin → word ty → word ta → word ha →
  (adr ta, 2) ∈ ws → (adr ha, 2) ∈ ws → wp t (dht_read_wrapper pin ty ta ha) (λ _ s', touches ws s s') s.
Proof using TeeOk0.
  intros. assert (writing ws) by done. unfold dht_read_wrapper, invoke_dht_pta. repeat lib_step; [prior|].
  apply updated_value in U1 as (a&b&->&_); [|by left|done]. tget. store ws 2%nat. wp_steps. tget. store ws 2%nat. wp_steps. prior.
Qed.

Lemma spi_transfer_byte_ok ws s a0 a1 a2 a3 a4 a5 a6 a7 dst : app_ok s → Forall word [a0; a1; a2; a3; a4; a5; a6; a7; dst] →
  (adr dst, 1) ∈ ws → wp t (spi_transfer_byte_wrapper a0 a1 a2 a3 a4 a5 a6 a7 dst) (λ _ s', touches ws s s') s.
Proof using TeeOk0.
  rewrite !Forall_cons. intros Hs (?&?&?&?&?&?&?&?&?&_) Hin. assert (writing ws) by done. unfold spi_transfer_byte_wrapper, invoke_spi_pta. lib_step.
  lib_step; repeat lib_step; try lia; try prior.
  apply updated_value in U0 as (x&y&->&_); [|by right|done]. tget. store ws 1%nat. wp_steps. prior.
Qed.

Lemma spi_block_ok ws s cmd w0 w1 w2 w3 src_len dst_len src dst : app_ok s →
  Forall word [w0; w1; w2; w3; src_len; dst_len; src; dst] → src_len <= maxlen → dst_len <= maxlen → (adr0 dst, dst_len) ∈ ws →
  wp t (spi_bufs src_len dst_len src dst (λ src_buf dst_buf,
    result (invoke_pta SPI_SERVICE cmd (TEE_PARAM_TYPES VALUE_IN VALUE_IN MEM_IN MEM_OUT)
      [TValue w0 w1; TValue w2 w3; TMemref src_buf src_len; TMemref dst_buf dst_len])))
    (λ _ s', touches ws s s') s.
Proof using TeeOk0.
  rewrite !Forall_cons. intros Hs (?&?&?&?&?&?&?&?&_) ? ? Hin. assert (writing ws) by done. unfold spi_bufs. lib_step. lib_step.
  change (if dst =? 0 then 0 else adr dst) with (adr0 dst) in *. subst.
  assert (src_len = 0 ∨ 0 < src_len) as [Hz1|] by (unfold word in *; lia);
    assert (dst_len = 0 ∨ 0 < dst_len) as [Hz2|] by (unfold word in *; lia); repeat lib_step; try lia; prior.
Qed.

Lemma record_poll_times_ok ws s x : app_ok s → wp t (record_poll_times_wrapper x) (λ _ s', touches ws s s') s.
Proof using. intros [? ? ?]. unfold record_poll_times_wrapper. wp_steps. split; [by split|]. cbn. reflexivity. Qed.

Lemma get_poll_times_ok ws s addr : app_ok s → word addr → (addr, 8) ∈ ws →
  wp t (get_poll_times_wrapper addr) (λ _ s', touches ws s s') s.
Proof using.
  intros. unfold get_poll_times_wrapper. repeat lib_step. wp_steps. store ws 8%nat. wp_steps.
  eapply touches_trans; [exact Ht|]. destruct Ht as [[? ? ?] _]. split; [by split|]. cbn. reflexivity.
Qed.

(** ** Secure storage *)

Lemma wp_load_bytes s p a n (Q : list Z → app W → Prop) : points s p a n → (∀ l, Q l s) → wp t (load_bytes p n) Q s.
Proof using.
  intros Hp HQ. unfold load_bytes. destruct (Z.eqb_spec n 0); wp_steps; [apply HQ|].
  eapply wp_mem_load; [done|pose proof (pt_size _ _ _ _ Hp); unfold word in *; lia|]. intros. apply HQ.
Qed.

Ltac load_bytes := eapply wp_load_bytes; [solve [eauto using points_touches, same_points]|intros ?l].

Lemma write_secure_object_ok ws s a0 a1 a2 a3 : app_ok s → Forall word [a0; a1; a2; a3] →
  wp t (write_secure_object_wrapper a0 a1 a2 a3) (λ _ s', touches ws s s') s.
Proof using TeeOk0.
  rewrite !Forall_cons. intros Hs (?&?&?&?&_). unfold write_secure_object_wrapper. do 4 lib_step. lib_step.
  load_bytes. lib_step. sys ok_obj_create. intros [res h] s1 Hs1. lib_step; lib_step; [prior|]. load_bytes. lib_step.
  sys ok_obj_write. intros r s2 Hs2. lib_step. lib_step.
  - sys ok_obj_delete. intros [] s3 Hs3. wp_steps. prior.
  - sys ok_obj_close. intros [] s3 Hs3. wp_steps. prior.
Qed.

Lemma delete_secure_object_ok ws s a0 a1 : app_ok s → word a0 → word a1 →
  wp t (delete_secure_object_wrapper a0 a1) (λ _ s', touches ws s s') s.
Proof using TeeOk0.
  intros. unfold delete_secure_object_wrapper. do 2 lib_step. lib_step. load_bytes. lib_step.
  sys ok_obj_open. intros [res h] s1 Hs1. lib_step; lib_step; [prior|]. sys ok_obj_delete. intros [] s2 Hs2. wp_steps. prior.
Qed.

Lemma take_le (j k : nat) x : (j <= k)%nat → take j (le k x) = le j x.
Proof using. revert k x; induction j as [|j IH]; intros [|k] x Hj; cbn; [done..|lia|]. by rewrite IH by lia. Qed.

Lemma peek_same s s' a : touches [] s s' → peek s' a = peek s a.
Proof using. intros Ht. unfold peek. by rewrite (touches_nil _ _ Ht). Qed.

Lemma points_wider s p a n k : points s p a n → 0 < n → word k → (∀ m, app_mem s = Some m → a + k <= Z.of_nat (length m)) →
  points s p a k.
Proof using. intros [? ? (m&Em&?) [->|[_ ?]]] Hn Hk Hm; [|lia]. split; [done|done|by exists m; auto|by left]. Qed.

(** The count is eight bytes wide; the low half is what is read back. *)
Lemma read_object_data_ok ws s h n p a : app_ok s → points s p a 8 → (a, 8) ∈ ws → 0 <= n →
  wp t (TEE_ReadObjectData h n p) (λ r s', touches ws s s'
    ∧ (r.1 = TEE_SUCCESS → Z.of_nat (length r.2) <= n ∧ peek s' a = u32 (Z.of_nat (length r.2)))) s.
Proof using TeeOk0.
  intros Hs Hp Hin Hn. unfold TEE_ReadObjectData. wp_steps. eapply wp_mem_load; [done|lia|]. intros m Em Hle. wp_steps.
  eapply wp_mono; [eapply (on_sys_ok _ (λ r, Z.of_nat (length r.1.2) <= n ∧ (r.1.1 = TEE_SUCCESS → r.2 = Z.of_nat (length r.1.2)))); [done|apply ok_obj_read; [apply Hs|done]]|].
  intros [[res data] cnt] s1 (H1&Hl&Hc). cbn [fst snd] in *. wp_steps. unfold store_u64, mem_store. wp_steps.
  rewrite (touches_nil _ _ H1), Em. pose proof (pt_addr _ _ _ _ Hp) as Ha. destruct (pt_ptr _ _ _ _ Hp) as [->|[_ ?]]; [|done].
  rewrite le_length. change (Z.of_nat 8) with 8. rewrite (proj2 (Z.leb_le _ _)) by done. wp_steps. split.
  - eapply touches_trans; [apply touches_any, H1|]. destruct (proj1 H1) as [? Hby ?]. split; [split; [done| |done]|].
    + intros m' Em'. cbn [app_mem set_app_mem] in Em'. replace m' with (splice m a (le 8 cnt)) by congruence.
      apply splice_byte; [apply Hby; by rewrite (touches_nil _ _ H1)|apply le_byte].
    + cbn [app_mem set_app_mem]. rewrite (touches_nil _ _ H1), Em. eapply splice_same; [exact Hin|done|by rewrite le_length|done].
  - cbn [fst snd]. intros ->. split; [done|]. rewrite Hc by done. unfold peek. cbn [app_mem set_app_mem]. unfold slice, splice.
    rewrite drop_app_ge by (rewrite length_take; lia). rewrite length_take.
    replace (Z.to_nat a - _)%nat with 0%nat by lia. rewrite drop_0, take_app_le by (rewrite le_length; lia).
    rewrite take_le by lia. by rewrite unle_le.
Qed.

Lemma move_out_ok ws s p a data size n : app_ok s → points s p a size → (a, size) ∈ ws → 0 <= n <= size →
  Z.of_nat (length data) <= size → wp t (move_out p data size n) (λ _ s', touches ws s s') s.
Proof using.
  intros Hs Hp Hin Hn Hd. unfold move_out. lib_step; [wp_steps; prior|]. rewrite (proj2 (Z.ltb_ge _ _)) by lia. wp_steps.
  eapply mem_store_ok; [done|done|done| |lia|apply Forall_take, settle_byte].
  rewrite length_take. lia.
Qed.

Lemma read_secure_object_ok ws s a0 a1 a2 a3 : app_ok s → Forall word [a0; a1; a2; a3] →
  (∀ m, app_mem s = Some m → adr a3 + 8 <= Z.of_nat (length m)) →
  (adr a3, 8) ∈ ws → (adr a3, 4) ∈ ws → (adr a2, peek s (adr a3)) ∈ ws →
  wp t (read_secure_object_wrapper a0 a1 a2 a3) (λ _ s', touches ws s s') s.
Proof using TeeOk0.
  rewrite !Forall_cons. intros Hs (?&?&?&?&_) H8 Hw8 Hw4 Hwd. unfold read_secure_object_wrapper. do 4 lib_step.
  rename p into lp, Hp into Hlp. pose proof (peek_word _ _ _ Hs Hlp) as Hn. set (n := peek s (adr a3)) in *.
  lib_step. eapply wp_load_u32; [done|]. fold n. lib_step. rename p into dp, Hp into Hdp. lib_step. rename p into ip, Hp into Hip.
  lib_step. eapply wp_load_u32; [done|]. fold n. lib_step. sys ok_ta_malloc. intros ok s1 Hs1. lib_step; lib_step; [prior|].
  load_bytes. lib_step. sys ok_obj_open. intros [res h] s2 Hs2. lib_step; lib_step; [prior|].
  eapply wp_mono; [eapply (on_sys_ok _ (λ r, 0 <= r.2)); [ok_state|apply ok_obj_info, Hs2]|].
  intros [res' sz] s3 [Hs3 Hsz]. cbn [snd] in Hsz. lib_step; lib_step; [prior|].
  assert (touches [] s s3) as Ht3 by prior.
  eapply wp_load_u32; [eapply same_points; [exact Ht3|done]|]. rewrite (peek_same _ _ _ Ht3). fold n. lib_step.
  { unfold store_u32. assert (points s3 lp (adr a3) (Z.of_nat 4)) by by eapply same_points. lib_step. store ws 4%nat.
    wp_steps. sys ok_obj_close. intros [] s5 Hs5. wp_steps. prior. }
  lib_step. eapply wp_mono; [apply (read_object_data_ok ws s3 h sz lp (adr a3)); [apply Ht3| |done|done]|].
  { eapply same_points; [exact Ht3|]. eapply points_wider; [exact Hlp|lia|done|done]. }
  intros [res2 bs] s4 [Ht4 Hrd]. cbn [fst snd] in Hrd. cbn beta iota.
  assert (touches ws s s4) as Ht04 by prior. lib_step.
  assert (wp t (if res2 =? TEE_SUCCESS then len ← load_u32 lp; move_out dp bs n len else mret ())
    (λ _ s', touches ws s s') s4) as Hmv.
  { lib_step; [|wp_steps; prior]. destruct (Hrd E3) as [Hl Hpk]. lib_step.
    eapply wp_load_u32; [eapply points_touches; [exact Ht04|done]|]. rewrite Hpk. unfold word in Hn. rewrite u32_id by lia.
    eapply wp_mono; [eapply (move_out_ok ws s4 dp (adr a2) bs n); [apply Ht04|by eapply points_touches|done|lia|lia]|].
    cbn beta. intros ? s5 Hs5. prior. }
  eapply wp_mono; [exact Hmv|]. cbn beta. intros [] s5 Hs5. wp_steps. sys ok_obj_close. intros [] s6 Hs6. wp_steps. prior.
Qed.
End natives.

(** ** Requests to the I/O helper *)
Section requests.
Context {t : bool} {maxlen : Z} {may : Z → Prop} {W : Type} `{!TeeClient W, !TeeServices W, !IoHelper W, !TeeOk t maxlen may W}.
Implicit Type s : app W.
Context (ws : list (Z * Z)).

(** A request to a peripheral that is accepted has a sub-signal, and takes no
    other signal. *)
Definition request_ok p s (m : request (W:=W)) : Prop :=
  wp t m (λ r s', touches ws s s' ∧ (r.1 = TEE_SUCCESS → ∃ q b ps, r.2 = TValue q b :: ps ∧ in_sig q)
    ∧ new_only (λ p' q', p' = p ∧ r.1 = TEE_SUCCESS ∧ ∃ b ps, r.2 = TValue q' b :: ps) (signals s) (signals s')) s.

Lemma request_refuse p s res : app_ok s → res ≠ TEE_SUCCESS → request_ok p s (refuse res).
Proof using. intros. split_and!; [by apply touches_refl|done|]. intros p' q' _ _. by left. Qed.
Lemma request_limit p s no max m : app_ok s → request_ok p s m → request_ok p s (limit no max m).
Proof using. intros. unfold limit. case_match; [by apply request_refuse|done]. Qed.
Lemma request_fat p s a k : app_ok s → (word (adr a) → request_ok p s (k (adr a))) → request_ok p s (fat_req a k).
Proof using.
  intros Hs Hk. unfold fat_req. case_match; [by apply request_refuse|]. apply Hk.
  pose proof (clear_range a). unfold word. lia.
Qed.
Lemma request_valid p s a n k : app_ok s → word a → word n → (∀ b, points s b a n → request_ok p s (k b)) →
  request_ok p s (valid_req a n k).
Proof using.
  intros Hs Ha Hn Hk. unfold request_ok, valid_req. wp_steps. eapply wp_mono; [by apply validate_points|].
  intros [] s'; cbn [negb]; [intros [-> Hp]|intros ->]; wp_steps.
  - unfold wasm_runtime_addr_app_to_native. wp_steps. by apply Hk.
  - split_and!; [|done|]; [apply exc_touches; by apply touches_refl|]. intros p' q' _ _. by left.
Qed.

Lemma request_invoke s cmd p y t1 t2 t3 p1 p2 p3 : app_ok s → submits cmd = true → small_types VALUE_INOUT t1 t2 t3 = true →
  fits ws s (TEE_PARAM_TYPES VALUE_INOUT t1 t2 t3) [TValue p y; p1; p2; p3] →
  (∀ up, copies (TEE_PARAM_TYPES VALUE_INOUT t1 t2 t3) [TValue p y; p1; p2; p3] up → client_ok cmd up ∧ to_allowed may cmd up) →
  request_ok p s (TeeApi.invoke_io_helper_pta cmd (TEE_PARAM_TYPES VALUE_INOUT t1 t2 t3) [TValue p y; p1; p2; p3]).
Proof using TeeOk0.
  intros Hs Hc Hty Hf Hduty. unfold request_ok. assert (cmd ≠ 0) by by intros ->.
  eapply wp_mono; [by apply (invoke_io_helper_ok ws)|].
  intros [res ps] s1 (Ht&_&Hacc&HN). cbn [fst snd] in *. split_and!; [done| |].
  - intros ->. eapply taken_sig; [exact Hty|exact Hc|by apply Hacc].
  - eapply new_only_mono; [|exact HN]. intros p' q' Hq (up&[res' up']&Hcp&Er&Hfst&(_&Hres&(b&us&->)&(b'&us'&E'))). cbn [fst snd] in *.
    split_and!; [|congruence|].
    + apply copies_types in Hcp as (u0&u1&u2&u3&[= <- _]&Hc0&_); [|done]. apply copied_inout in Hc0. congruence.
    + destruct Hfst as (u&us1&p0&ps1&E1&->&Htk). rewrite (proj1 (nib_types _ _ _ _ Hty)) in Htk.
      rewrite E1 in E'. injection E' as -> ->. rewrite (Htk q' b' eq_refl).
      exists (u32 b'), ps1. unfold in_sig, N_SUB_SIG in Hq. by rewrite u32_id by lia.
Qed.

(** The requests the I/O helper can serve. *)
Definition read_served (ty : io_req_type_t) (a1 b1 a2 b2 : Z) : Prop :=
  io_req_type_of (req_code ty) = ty ∧ ∀ q, req_ok ∅ (IoReq ty q [Value a1 b1; Value a2 b2; Value 0 0]).
Definition write_served (ty : io_req_type_t) (n a2 b2 a3 b3 : Z) : Prop :=
  io_req_type_of (req_code ty) = ty ∧ ∀ q id h, is_memref h (Memref (Blk id) n) →
    req_ok h (IoReq ty q [Memref (Blk id) n; Value a2 b2; Value a3 b3]).

Lemma request_read s p ty a1 b1 a2 b2 : app_ok s → word p → word (req_code ty) → word a1 → word b1 → word a2 → word b2 →
  read_served ty a1 b1 a2 b2 → may p → request_ok p s (read_request p ty a1 b1 a2 b2).
Proof using TeeOk0.
  intros ? ? ? ? ? ? ? [Ety Hok] Hmay. apply request_invoke; [done|done|done|solve_fits|].
  intros up Hcp. apply copies_types in Hcp as (?&?&?&?&->&?&?&?&?); [|reflexivity]. copied_inv.
  cbn [client_ok PTA_IO_HELPER_CMD_READ_REQ]. split; [by rewrite Ety|by intros _].
Qed.

Lemma memref_copy n l (h : gmap Z buf) id : n = Z.of_nat (length l) → n < 2 ^ 32 → Forall byte l → h !! id = Some (bytes l) →
  is_memref h (Memref (Blk id) n).
Proof using. intros. by exists l. Qed.

Lemma request_write s cmd p ty buf a n a2 b2 a3 b3 : app_ok s →
  cmd = PTA_IO_HELPER_CMD_READ_REQ_WITH_BUFFER ∨ cmd = PTA_IO_HELPER_CMD_WRITE_REQ ∧ n ≠ 0 → word p → word (req_code ty) →
  points s buf a n → word a2 → word b2 → word a3 → word b3 → write_served ty n a2 b2 a3 b3 → may p →
  request_ok p s (write_request cmd p ty buf n a2 b2 a3 b3).
Proof using TeeOk0.
  intros ? Hcmd ? ? ? ? ? ? ? [Ety Hok] Hmay. apply request_invoke; [done|by destruct Hcmd as [->|[-> _]]|done|solve_fits|].
  intros up Hcp. apply copies_types in Hcp as (?&?&?&?&->&?&?&?&?); [|reflexivity]. copied_inv.
  assert (∀ q id, req_ok {[id := bytes x]} (IoReq ty q [Memref (Blk id) n; Value a2 b2; Value a3 b3])) as Hreq.
  { intros q id. apply Hok. by eapply memref_copy; [..|apply lookup_singleton_eq]. }
  split; [|by intros _]. destruct Hcmd as [->|[-> Hn]]; cbn [client_ok PTA_IO_HELPER_CMD_READ_REQ_WITH_BUFFER PTA_IO_HELPER_CMD_WRITE_REQ]; rewrite Ety; [done|]. by rewrite (proj2 (Z.eqb_neq _ _)).
Qed.

(** Two sources: the name of an object and its data. *)
Lemma request_write_object s p id1 a1 n1 id2 a2 n2 : app_ok s → word p → points s id1 a1 n1 → points s id2 a2 n2 → may p →
  request_ok p s (TeeApi.invoke_io_helper_pta PTA_IO_HELPER_CMD_WRITE_REQ_WITH_BUFFER
    (TEE_PARAM_TYPES VALUE_INOUT MEM_IN MEM_IN VALUE_IN)
    [TValue p (req_code WRITE_SECURE_OBJECT); TMemref id1 n1; TMemref id2 n2; TValue 0 0]).
Proof using TeeOk0.
  intros. apply request_invoke; [done|done|done|solve_fits|].
  intros up Hcp. apply copies_types in Hcp as (?&?&?&?&->&?&?&?&?); [|reflexivity]. copied_inv. cbn [client_ok].
  split; [|by intros _]. intros q i j Hij. cbn. split_and!; [eapply memref_copy; [done..|apply lookup_insert_eq]| |].
  - eapply memref_copy; [done..|]. rewrite lookup_insert_ne by done. apply lookup_singleton_eq.
  - repeat constructor; set_solver.
Qed.

Lemma future_ok p s m : request_ok p s m → wp t (future m) (λ _ s', touches ws s s') s.
Proof using.
  intros Hm. unfold future. wp_steps. eapply wp_mono; [exact Hm|]. intros [res ps] s1 (Ht&Hq&_). cbn [fst snd] in *.
  case_match; wp_steps; [done|]. bool_props. destruct Hq as (q&b&tl&->&_); [done|]. by tget.
Qed.

Lemma promise_ok p s pin m : request_ok p s m → wp t ('(res, params) ← m; if negb (res =? TEE_SUCCESS) then mret res else
  sub ← tvalue_a params 0; mret (promise_of pin sub)) (λ _ s', touches ws s s') s.
Proof using.
  intros Hm. wp_steps. eapply wp_mono; [exact Hm|]. intros [res ps] s1 (Ht&Hq&_). cbn [fst snd] in *.
  case_match; wp_steps; [done|]. bool_props. destruct Hq as (q&b&tl&->&_); [done|]. by tget.
Qed.

(** ** Collecting *)

Lemma collected_ok s p a res ps value b1 n1 tl : app_ok s → points s p a 4 → (a, 4) ∈ ws →
  (∃ p0, ps = p0 :: TMemref b1 n1 :: tl ∧ (res = TEE_SUCCESS → ∃ x y, p0 = TValue x y)) →
  (∀ x y tl, value (TValue x y :: tl) = mret x ∨ value (TValue x y :: tl) = mret y) →
  wp t (collected p res ps value) (λ _ s', touches ws s s') s.
Proof using.
  intros Hs Hp Hin (p0&->&Hv) Hval. unfold collected. lib_step.
  - tget. unfold store_u32. assert (points s p a (Z.of_nat 4)) by done. store ws 4%nat. wp_steps. prior.
  - lib_step; [wp_steps; prior|]. destruct (Hv E0) as (x&y&->). tget. lib_step; [wp_steps; prior|].
    destruct (Hval x y (TMemref b1 n1 :: tl)) as [->| ->]; wp_steps; prior.
Qed.

Lemma value_a_first (x y : Z) tl : tvalue_a (W:=W) (TValue x y :: tl) 0 = mret x.
Proof using. done. Qed.
Lemma value_b_first (x y : Z) tl : tvalue_b (W:=W) (TValue x y :: tl) 0 = mret y.
Proof using. done. Qed.

Lemma get_data_request_ok s signo sub p a n : app_ok s → word signo → word sub → signo < N_SESS → sub < N_SESS → points s p a n → (a, n) ∈ ws →
  wp t (get_data_request signo sub p n) (λ r s', touches ws s s' ∧ ∃ p0 n1 tl, r.2 = p0 :: TMemref p n1 :: tl
     ∧ (r.1 = TEE_SUCCESS → ∃ x y, p0 = TValue x y)) s.
Proof using TeeOk0.
  intros ? [? ?] [? ?] ? ?. intros. unfold get_data_request. assert (writing ws) by done. lib_step. split; [done|]. cbn [fst snd].
  apply updated_memref in U1 as (b&k&k'&[= <- <-]&->). eexists q0, k', _. split; [done|]. intros ->.
  apply updated_value in U0 as (x&y&->&_); [by exists x, y|by right|done].
Qed.

Lemma get_async_data_ok s signo sub dst len : app_ok s → Forall word [signo; sub; dst; len] →
  (adr0 len, 4) ∈ ws → (adr0 dst, peek s (adr0 len)) ∈ ws →
  wp t (get_async_data_wrapper signo sub dst len) (λ _ s', touches ws s s') s.
Proof using TeeOk0.
  rewrite !Forall_cons. intros Hs (?&?&?&?&_) Hw4 Hwd. unfold get_async_data_wrapper. do 2 lib_step.
  change (if len =? 0 then 0 else adr len) with (adr0 len) in *. change (if dst =? 0 then 0 else adr dst) with (adr0 dst) in *. subst.
  lib_step; [wp_steps; prior|]. lib_step; [wp_steps; prior|]. lib_step. rename p into lp, Hp into Hlp.
  pose proof (peek_word _ _ _ Hs Hlp) as Hn. set (n := peek s (adr0 len)) in *.
  lib_step. eapply wp_load_u32; [done|]. fold n. lib_step. lib_step. eapply wp_load_u32; [done|]. fold n. lib_step.
  eapply wp_mono; [by apply (get_data_request_ok s signo sub p (adr0 dst) n)|].
  intros [res ps] s1 (Ht&p0&n1&tl&E1&Hv). cbn [fst snd] in *. subst ps. cbn beta iota.
  eapply wp_mono; [eapply (collected_ok s1 lp (adr0 len)); [apply Ht|by eapply points_touches|done|by eexists|]|].
  - intros x y tl'. right. apply value_b_first.
  - cbn beta. intros ? s2 Ht2. prior.
Qed.

(** Polling does not touch the memory. *)
Lemma poll_subsignal_request_ok s signo sub : app_ok s → word signo → word sub →
  wp t (poll_subsignal_request signo sub) (λ r s', touches [] s s'
    ∧ (r.1 = TEE_SUCCESS → ∃ x y tl, r.2 = TValue x y :: tl)) s.
Proof using TeeOk0.
  intros. unfold poll_subsignal_request. assert (writing []) by done. lib_step. split; [done|]. cbn [fst snd]. intros ->.
  apply updated_value in U0 as (x&y&->&_); [|by right|done]. by eexists x, y, _.
Qed.

Lemma poll_stage_ok fuel s signo sub : t = false → app_ok s → word signo → word sub →
  wp t (poll_stage fuel signo sub) (λ _ s', touches [] s s') s.
Proof using TeeOk0.
  intros Ht0 Hs Hg Hb. unfold poll_stage. wp_steps. eapply wp_mono; [by apply poll_subsignal_request_ok|]. intros r0 s1 H1.
  apply (wp_loop_if _ _ _ (λ r s', touches [] s s' ∧ (r.1 = TEE_SUCCESS → ∃ x y tl, r.2 = TValue x y :: tl)) (λ _ _, 0));
    [|done|intros; congruence].
  clear r0 s1 H1. intros [res ps] s1 [Ht Hv]. split; [done|]. cbn [fst snd] in Hv. case_match; wp_steps; [done|]. bool_props.
  destruct Hv as (x&y&tl&->); [done|]. tget. case_match; wp_steps; [done|].
  eapply wp_mono; [apply poll_subsignal_request_ok; [apply Ht|done|done]|]. intros r s2 [Ht2 Hv2]. wp_steps.
  split; [|intros; congruence]. split; [|done]. by eapply touches_trans.
Qed.

Lemma await_data_ok fuel s signo sub dst len value : t = false → app_ok s → Forall word [signo; sub; dst; len] →
  signo < N_SESS → sub < N_SESS →
  (len, 4) ∈ ws → (dst, peek s len) ∈ ws →
  (∀ x y tl, value (TValue x y :: tl) = mret x ∨ value (TValue x y :: tl) = mret y) →
  wp t (await_data fuel signo sub dst len value) (λ _ s', touches ws s s') s.
Proof using TeeOk0.
  rewrite !Forall_cons. intros Ht0 Hs (?&?&?&?&_) ? ? Hw4 Hwd Hval. unfold await_data. lib_step. rename p into lp, Hp into Hlp.
  pose proof (peek_word _ _ _ Hs Hlp) as Hn. set (n := peek s len) in *.
  lib_step. eapply wp_load_u32; [done|]. fold n. lib_step. lib_step. eapply wp_mono; [by apply poll_stage_ok|].
  cbn beta. intros r s1 Ht1. lib_step; [wp_steps; prior|]. lib_step.
  eapply wp_load_u32; [eapply same_points; [exact Ht1|done]|]. rewrite (peek_same _ _ _ Ht1). fold n. lib_step.
  eapply wp_mono; [apply (get_data_request_ok s1 signo sub p dst n); [apply Ht1|done|done|done|done|eapply same_points; [exact Ht1|done]|done]|].
  intros [res ps] s2 (Ht&p0&n1&tl&E1&Hv). cbn [fst snd] in *. subst ps. cbn beta iota.
  eapply wp_mono; [eapply (collected_ok s2 lp len); [apply Ht| |done|by eexists|done]|].
  - eapply points_touches; [exact Ht|]. eapply same_points; [exact Ht1|done].
  - cbn beta. intros ? s3 Ht3. prior.
Qed.

Lemma get_async_data_future_ok fuel s signo sub dst len : t = false → app_ok s → Forall word [signo; sub; dst; len] →
  (adr0 len, 4) ∈ ws → (adr0 dst, peek s (adr0 len)) ∈ ws →
  wp t (get_async_data_future_wrapper fuel signo sub dst len) (λ _ s', touches ws s s') s.
Proof using TeeOk0.
  rewrite !Forall_cons. intros Ht0 Hs (?&?&?&?&_) Hw4 Hwd. unfold get_async_data_future_wrapper. do 2 lib_step.
  change (if len =? 0 then 0 else adr len) with (adr0 len) in *. change (if dst =? 0 then 0 else adr dst) with (adr0 dst) in *. subst a a0.
  lib_step; [wp_steps; prior|]. lib_step; [wp_steps; prior|]. apply await_data_ok; [done|done|solve_words|done|done|done|done|].
  intros x y tl. right. apply value_b_first.
Qed.

Lemma get_async_data_promise_ok fuel s promise dst len : t = false → app_ok s → Forall word [promise; dst; len] →
  (adr0 len, 4) ∈ ws → (adr0 dst, peek s (adr0 len)) ∈ ws →
  wp t (get_async_data_promise_wrapper fuel promise dst len) (λ _ s', touches ws s s') s.
Proof using TeeOk0.
  rewrite !Forall_cons. intros Ht0 Hs (?&?&?&_) Hw4 Hwd. unfold get_async_data_promise_wrapper.
  assert (word (promise_periph promise) ∧ word (promise_sub promise)) as [? ?].
  { unfold promise_periph, promise_sub, word. pose proof u16_range. split; split; try apply u16_range;
      eapply Z.lt_trans; try apply u16_range; lia. }
  lib_step; [wp_steps; prior|]. lib_step; [wp_steps; prior|]. do 2 lib_step.
  change (if len =? 0 then 0 else adr len) with (adr0 len) in *. change (if dst =? 0 then 0 else adr dst) with (adr0 dst) in *. subst a a0.
  apply await_data_ok; [done|done|solve_words|done|done|done|done|]. intros x y tl. left. apply value_a_first.
Qed.
End requests.

(** ** The ranges a function may write

    By name and arguments; two of them also depend on a length in memory. *)

Definition len_at (mem : option linear) (a : Z) : Z :=
  match mem with Some m => unle (slice m a 4) | None => 0 end.
Definition arg (i : nat) (args : list Z) : Z := nth i args 0.

Definition window : Type := option linear → list Z → list (Z * Z).
Definition at_ptr (i : nat) (n : Z) : window := λ _ args, [(adr (arg i args), n)].
Definition at_ptr_len (i j : nat) : window := λ _ args, [(adr (arg i args), arg j args)].
Definition at_addr (i : nat) (n : Z) : window := λ _ args, [(arg i args, n)].
Definition result_windows (i j : nat) : window := λ mem args,
  [(adr0 (arg j args), 4); (adr0 (arg i args), len_at mem (adr0 (arg j args)))].

Definition write_windows : list (string * window) := [
  ("io_helper_get_overhead_timestamp", at_addr 0 1600); ("get_runtime_profile_times", at_addr 0 8);
  ("get_runtime_poll_times", at_addr 0 8); ("get_poll_times", at_addr 0 8); ("get_benchmark_time", at_addr 1 8);
  ("i2c_read_bytes", at_ptr_len 3 4); ("i2c_read_regs", at_ptr_len 4 5); ("i2c_get_overhead_timestamp", at_addr 0 800);
  ("spi_transfer_bytes", λ _ args, [(adr0 (arg 8 args), arg 6 args)]); ("spi_transfer_byte", at_ptr 8 1);
  ("spi_transfer_diff_bytes", λ _ args, [(adr0 (arg 8 args), arg 6 args)]);
  ("read_secure_object", λ mem args, [(adr (arg 3 args), 8); (adr (arg 3 args), 4);
                                      (adr (arg 2 args), len_at mem (adr (arg 3 args)))]);
  ("dht_read", λ _ args, [(adr (arg 2 args), 2); (adr (arg 3 args), 2)]);
  ("bh1750fvi_sample", at_ptr 2 2); ("mpu6050_sample", at_ptr 2 14); ("w25qxx_read_id", at_ptr 2 2);
  ("w25qxx_read_data", at_ptr_len 3 4); ("at24cxx_read", at_ptr_len 3 4);
  ("tel0157_get_gnss_len", at_ptr 2 2); ("tel0157_get_all_gnss", at_ptr_len 2 3);
  ("tel0157_get_utc_time", at_ptr 2 sizeof_time); ("tel0157_get_gnss_mode", at_ptr 2 1);
  ("tel0157_get_num_sat_used", at_ptr 2 1); ("tel0157_get_lon", at_ptr 2 sizeof_lon_lat);
  ("tel0157_get_lat", at_ptr 2 sizeof_lon_lat); ("tel0157_get_alt", at_ptr 2 3); ("tel0157_get_sog", at_ptr 2 3);
  ("tel0157_get_cog", at_ptr 2 3); ("atk301_upload_fingerprint_image", at_ptr 2 Atk301.ATK301_FINGERPRINT_IMAGE_DATA_LEN);
  ("get_async_data", result_windows 2 3); ("get_async_data_future", result_windows 2 3);
  ("get_async_data_promise", result_windows 1 2) ].

Fixpoint assoc {A} (d : A) (name : string) (l : list (string * A)) : A :=
  match l with [] => d | (n, x) :: l => if String.eqb n name then x else assoc d name l end.
Definition windows (name : string) : window := assoc (λ _ _, []) name write_windows.

(** The peripheral a function registers a handler for. *)
Definition handler_periphs : list (string * (list Z → Z)) := [
  ("dht_read_async", λ args, gpio_periph (arg 0 args)); ("promise_set_callback", λ args, promise_periph (arg 0 args));
  ("i2c_read_bytes_async", λ args, i2c_periph (arg 0 args)); ("i2c_read_regs_async", λ args, i2c_periph (arg 0 args));
  ("bh1750fvi_sample_async", λ args, i2c_periph (arg 0 args)); ("mpu6050_sample_async", λ args, i2c_periph (arg 0 args));
  ("at24cxx_read_async", λ args, i2c_periph (arg 0 args)); ("at24cxx_write_async", λ args, i2c_periph (arg 0 args));
  ("tel0157_get_utc_time_async", λ args, i2c_periph (arg 0 args)); ("tel0157_get_lon_async", λ args, i2c_periph (arg 0 args));
  ("tel0157_get_lat_async", λ args, i2c_periph (arg 0 args)); ("tel0157_get_alt_async", λ args, i2c_periph (arg 0 args));
  ("atk301_get_fingerprint_image_async", λ args, i2c_periph (arg 0 args));
  ("atk301_upload_fingerprint_image_async", λ args, i2c_periph (arg 0 args)) ].

(** What a caller has to ensure beyond the checks of the code: the count of
    [read_secure_object] is written with eight bytes, peripheral 63 cannot be
    polled by the runtime, and the duties the services leave to their clients
    are the application's. *)
Definition count_fits (mem : option linear) (args : list Z) : Prop :=
  match mem with Some m => adr (arg 3 args) + 8 <= Z.of_nat (length m) | None => True end.

Definition seven_bit (i : nat) (args : list Z) : Prop := flag (u8 (arg i args)) I2C_ADDR10 = false.
Definition flash_at (args : list Z) : Prop := spi_t (arg 0 args) = 0 ∧ spi_cs_t (arg 1 args) < SPI_CS_NUM.
Definition eeprom_len (i : nat) (args : list Z) : Prop := 0 < arg i args < 2 ^ 16 - 2.
Definition duties (maxlen : Z) : list (string * (list Z → Prop)) := [
  ("i2c_read_bytes", seven_bit 2); ("i2c_write_bytes", seven_bit 2); ("i2c_read_regs", seven_bit 2);
  ("i2c_write_regs", seven_bit 2); ("i2c_read_regs_async", seven_bit 2); ("i2c_read_regs_async_future", seven_bit 2);
  ("i2c_write_bytes_async_future", λ args, seven_bit 2 args ∧ 0 < arg 4 args);
  ("spi_transfer_bytes", λ args, arg 5 args <= maxlen ∧ arg 6 args <= maxlen);
  ("spi_transfer_diff_bytes", λ args, arg 5 args <= maxlen ∧ arg 6 args <= maxlen);
  ("spi_transfer_bytes_async_future", λ args, 0 < arg 5 args ∧ (arg 6 args = 0 ∨ arg 5 args <= arg 6 args));
  ("w25qxx_init", flash_at); ("w25qxx_read_id", λ _, False); ("w25qxx_sector_erase", flash_at); ("w25qxx_chip_erase", flash_at);
  ("w25qxx_read_data", λ args, flash_at args ∧ arg 4 args <= maxlen);
  ("w25qxx_page_program", λ args, flash_at args ∧ arg 4 args <= maxlen);
  ("at24cxx_write", λ args, arg 4 args < 2 ^ 16 - 2); ("at24cxx_write_async", eeprom_len 4);
  ("at24cxx_write_async_future", eeprom_len 4) ].

Record native_pre (maxlen : Z) (mem : option linear) (name : string) (args : list Z) : Prop := {
  np_periph : assoc (λ _, 0) name handler_periphs args ≠ 63;
  np_count : assoc (λ _ _, True) name [("read_secure_object", count_fits)] mem args;
  np_duty : assoc (λ _, True) name (duties maxlen) args
}.

(** The functions that poll until a result is there. *)
Definition waits (name : string) : bool :=
  assoc false name [("get_async_data_future", true); ("get_async_data_promise", true)].

(** The functions that submit a request, with the peripheral it goes to. *)
Definition on_gpio (may : Z → Prop) (args : list Z) : Prop := may (gpio_periph (arg 0 args)).
Definition on_i2c (may : Z → Prop) (args : list Z) : Prop := may (i2c_periph (arg 0 args)).
Definition request_duties (may : Z → Prop) : list (string * (list Z → Prop)) := [
  ("dht_read_async", on_gpio may); ("dht_read_async_future", on_gpio may); ("dht_read_async_promise", on_gpio may);
  ("spi_transfer_bytes_async_future", λ args, may (spi_periph (arg 0 args)));
  ("write_secure_object_async_future", λ _, may storage_periph);
  ("read_secure_object_async_future", λ _, may storage_periph); ("i2c_read_bytes_async", on_i2c may);
  ("i2c_read_bytes_async_future", on_i2c may); ("i2c_write_bytes_async_future", on_i2c may);
  ("i2c_read_regs_async", on_i2c may); ("i2c_read_regs_async_future", on_i2c may);
  ("bh1750fvi_sample_async", on_i2c may); ("bh1750fvi_sample_async_future", on_i2c may);
  ("mpu6050_sample_async", on_i2c may); ("mpu6050_sample_async_future", on_i2c may);
  ("at24cxx_read_async", on_i2c may); ("at24cxx_read_async_future", on_i2c may); ("at24cxx_write_async", on_i2c may);
  ("at24cxx_write_async_future", on_i2c may); ("tel0157_get_utc_time_async", on_i2c may);
  ("tel0157_get_lon_async", on_i2c may); ("tel0157_get_lat_async", on_i2c may); ("tel0157_get_alt_async", on_i2c may);
  ("tel0157_get_gnss_len_async_future", on_i2c may); ("tel0157_get_all_gnss_async_future", on_i2c may);
  ("tel0157_get_utc_time_async_future", on_i2c may); ("tel0157_get_gnss_mode_async_future", on_i2c may);
  ("tel0157_get_num_sat_used_async_future", on_i2c may); ("tel0157_get_lon_async_future", on_i2c may);
  ("tel0157_get_lat_async_future", on_i2c may); ("tel0157_get_alt_async_future", on_i2c may);
  ("tel0157_get_sog_async_future", on_i2c may); ("tel0157_get_cog_async_future", on_i2c may);
  ("atk301_get_fingerprint_image_async", on_i2c may); ("atk301_upload_fingerprint_image_async", on_i2c may);
  ("atk301_get_fingerprint_image_async_future", on_i2c may);
  ("atk301_upload_fingerprint_image_async_future", on_i2c may) ].
Definition may_request (may : Z → Prop) (name : string) (args : list Z) : Prop :=
  assoc (λ _, True) name (request_duties may) args.
