(* ===== verification/TzioNative.v ===== *)
(** * Native library and runtime together

    The library's functions as the application calls them, in the state of
    the runtime: the signal table of the runtime and the memory of the
    application stay consistent whatever the arguments are. *)

From Stdlib Require Import ZArith Lia Bool.
From stdpp Require Import base tactics option list strings numbers gmap.
From S2P Require Import Prelude Platform Params I2c Spi Sensors Tel0157 Pta PtaProofs IoReq IoState IoSignal IoSignalProofs.
From S2P Require Import IoHandlers IoHandlersProofs IoRefinement.
From S2P Require Import Runtime RuntimeScan RuntimeProofs AppMemory TeeApi Tzio TzioAsync TzioProofs TzioSafe Frames.

Open Scope Z_scope.

(** ** The interface of the I/O helper through the library's state *)

#[export] Instance app_helper {W} `{!TeeClient W, !IoHelper W} : IoHelper (app W).
Proof.
  refine {| io_ok := app_ok; io_sig := λ s, io_sig (app_sys s) |}.
  - intros s [Hs ? ?]. destruct (io_open_ok _ Hs) as (w'&E&?&?). exists (set_app_sys w' s). cbn. unfold on_sys, zoom.
    rewrite E. by split_and!.
  - intros s p [Hs ? ?] Hp. destruct (io_poll_ok _ p Hs Hp) as (u&w'&E&?&?&?). exists u, (set_app_sys w' s). cbn.
    unfold on_sys, zoom. rewrite E. by split_and!.
  - intros s [Hs ? ?]. destruct (io_malloc_ok _ Hs) as (b&w'&E&?&?). exists b, (set_app_sys w' s). cbn. unfold on_sys, zoom.
    rewrite E. by split_and!.
Defined.

(** ** Tactics for requests *)

Lemma periph_range x y : 0 <= u16 (tzio_periph_to_io_signal_no (Z.of_nat x) y) < 64 ∨ (3 < x)%nat.
Proof.
  assert (∀ z, 0 <= u16 (Z.land z 0x3f) < 64) as Hz.
  { intros z. change 0x3f with (Z.ones 6). rewrite Z.land_ones by lia. pose proof (Z.mod_pos_bound z 64). unfold u16.
    change (2 ^ 6) with 64. rewrite Z.mod_small; lia. }
  destruct x as [|[|[|[|x]]]]; [left; apply Hz..|right; lia].
Qed.
Lemma gpio_periph_range x : 0 <= gpio_periph x < 64.
Proof. destruct (periph_range 0 x); [done|lia]. Qed.
Lemma i2c_periph_range x : 0 <= i2c_periph x < 64.
Proof. destruct (periph_range 1 x); [done|lia]. Qed.
Lemma spi_periph_range x : 0 <= spi_periph x < 64.
Proof. destruct (periph_range 2 x); [done|lia]. Qed.

Ltac periph_word :=
  first [ solve_word
        | match goal with |- word (gpio_periph ?x) => pose proof (gpio_periph_range x); unfold word; lia
                        | |- word (i2c_periph ?x) => pose proof (i2c_periph_range x); unfold word; lia
                        | |- word (spi_periph ?x) => pose proof (spi_periph_range x); unfold word; lia end ].
Ltac solve_served :=
  split; [done|]; intros; cbn;
  repeat lazymatch goal with
  | |- 0 <= ?x < 2 ^ 32 => change (word x); solve_word
  | |- _ ∧ _ => split
  end; first [assumption | lia].
Ltac solve_request :=
  lazymatch goal with
  | |- request_ok _ _ _ (limit _ _ _) => apply request_limit; [ok_state|solve_request]
  | |- request_ok _ _ _ (fat_req _ _) => apply request_fat; [ok_state|intros ?; solve_request]
  | |- request_ok _ _ _ (valid_req _ _ _) => apply request_valid; [ok_state|solve_word|solve_word|intros ? ?; solve_request]
  | |- request_ok _ _ _ (read_request _ _ _ _ _ _) => apply request_read; first [ok_state|periph_word|solve_served|assumption]
  | |- request_ok _ _ _ (write_request _ _ _ _ _ _ _ _ _) =>
      eapply request_write; [ok_state|first [by left|by right; split; [|lia]]|periph_word|periph_word|eassumption|periph_word|periph_word|periph_word|periph_word|solve_served|assumption]
  | |- _ => eapply request_write_object; [ok_state|periph_word|eassumption|eassumption|assumption]
  end.

Ltac unfold_head := lazymatch goal with |- wp _ ?f _ _ => let h := head_of f in unfold h end.

(** The function applied to its arguments, if their number is right. *)
Fixpoint apply_native {A} (f : native A) (args : list Z) : option A :=
  match f, args with
  | N0 a, [] => Some a
  | NS f, x :: args => apply_native (f x) args
  | _, _ => None
  end.

Section native.
Context {t : bool} {maxlen : Z} {may : Z → Prop} {W : Type} `{!TeeClient W, !TeeServices W, !IoHelper W, !TeeOk t maxlen may W}.
Context (m : module_inst) (Hm : module_ok m).
Implicit Type s : rstate (app W).

(** Registering a handler leaves the application's memory alone. *)
Definition world_mem s : option linear := app_mem (r_world s).
Lemma malloc_frames : frames world_mem (λ _, True) (sys_call runtime_malloc).
Proof using. intros s. unfold sys_call, zoom. cbn. unfold on_sys, zoom. by destruct (runtime_malloc (app_sys (r_world s))). Qed.

Lemma register_frames e p q i : frames world_mem (λ _, True) (tzio_register_handler e p q i).
Proof using.
  unfold tzio_register_handler, wasm_runtime_get_indirect_function, aot_get_indirect_function, wasm_runtime_get_function_idx,
    sig_row, set_sig_row, wasm_runtime_free, func_load, set_signal_pending, one_shl.
  repeat first [apply malloc_frames | frames_step]; done.
Qed.

(** ** What every native function keeps *)

Definition keeps (ws : list (Z * Z)) s s' : Prop := rt_wf m s' ∧ touches ws (r_world s) (r_world s').

Lemma rt_wf_world s w : rt_wf m s → app_ok w → rt_wf m (set_world w s).
Proof using. intros Hwf Hw. apply (rt_wf_frame m s); try done; try apply Hwf. Qed.

Lemma lib_ok {A} ws (f : L W A) (P : A → Prop) s : rt_wf m s →
  wp t f (λ a w, touches ws (r_world s) w ∧ P a) (r_world s) → wp t (lib f) (λ a s', keeps ws s s' ∧ P a) s.
Proof using.
  intros Hwf Hf. apply wp_zoom. eapply wp_mono; [exact Hf|]. intros a w' [Ht Ha]. split; [|done].
  split; [apply rt_wf_world; [done|apply Ht]|done].
Qed.
Lemma lib_plain {A} ws (f : L W A) s : rt_wf m s →
  wp t f (λ a w, touches ws (r_world s) w) (r_world s) → wp t (lib f) (λ a s', keeps ws s s') s.
Proof using.
  intros Hwf Hf. eapply wp_mono; [apply (lib_ok ws f (λ _, True)); [done|]|by intros ? ? [? _]].
  eapply wp_mono; [exact Hf|]. by intros.
Qed.

Lemma keeps_trans ws s1 s2 s3 : keeps ws s1 s2 → keeps ws s2 s3 → keeps ws s1 s3.
Proof using. intros [_ ?] [? ?]. split; [done|by eapply touches_trans]. Qed.
Lemma keeps_refl ws s : rt_wf m s → keeps ws s s.
Proof using. intros Hwf. split; [done|]. apply touches_refl, Hwf. Qed.

Lemma register_keeps ws s p q i : rt_wf m s → 0 <= p < 63 → in_sig q → 0 <= i →
  wp t (tzio_register_handler (Some m) p q i) (λ _ s', keeps ws s s') s.
Proof using Hm.
  intros Hwf Hp Hq Hi. apply wp_total. destruct (decide (i = 0)) as [->|].
  { unfold tzio_register_handler. rewrite orb_false_intro; [by apply keeps_refl|apply Z.ltb_ge..]; unfold in_sig, N_SIG, N_SUB_SIG in *; lia. }
  eapply wp_mono; [apply (wp_frames world_mem); [apply register_frames|by apply register_ok; [done|done|done|done|lia]]|].
  intros r s' ([_ Hreg]&Em&_). pose proof (rg_wf _ _ _ _ _ _ Hreg) as Hwf'. split; [done|]. split; [apply Hwf'|].
  unfold world_mem in Em. by rewrite Em.
Qed.

Lemma handled_ok ws s p req h : rt_wf m s → 0 <= p < 63 → 0 <= h → request_ok (t:=t) ws p (r_world s) req →
  wp t (handled (Some m) p req h) (λ _ s', keeps ws s s') s.
Proof using Hm.
  intros Hwf Hp Hh Hreq. unfold handled. wp_steps. eapply wp_mono; [apply (lib_ok ws _ (λ r, r.1 = TEE_SUCCESS → ∃ q b ps, r.2 = TValue q b :: ps ∧ in_sig q) _ Hwf)|].
  { eapply wp_mono; [exact Hreq|]. by intros r w (?&?&_). }
  intros [res ps] s1 [Hk Hq]. cbn [fst snd] in Hq. case_match; wp_steps; [done|]. bool_props.
  destruct Hq as (q&b&tl&->&Hq); [done|]. eapply wp_mono; [apply (lib_ok ws _ (λ x, x = q)); [apply Hk|]|].
  { tget. split; [|done]. apply touches_refl, Hk. }
  intros ? s2 [Hk2 ->]. wp_steps. eapply wp_mono; [apply (register_keeps ws); [apply Hk2|done|done|done]|]. cbn beta.
  intros r s3 Hk3. case_match; wp_steps; (eapply keeps_trans; [|exact Hk3]; eapply keeps_trans; done).
Qed.

Lemma set_callback_ok ws s promise h : rt_wf m s → promise_periph promise ≠ 63 → 0 <= h →
  wp t (promise_set_callback_wrapper (Some m) promise h) (λ _ s', keeps ws s s') s.
Proof using TeeOk0 Hm.
  intros Hwf Hp Hh. unfold promise_set_callback_wrapper.
  pose proof (u16_range (Z.shiftr (i32 promise) 16)) as H1. fold (promise_periph promise) in H1.
  pose proof (u16_range (Z.land (i32 promise) 0xFFFF)) as H2. fold (promise_sub promise) in H2.
  case_match; wp_steps; [by apply keeps_refl|]. case_match; wp_steps; [by apply keeps_refl|]. bool_props. unfold N_SESS in *.
  eapply wp_mono; [apply (lib_plain ws); [done|]|].
  { eapply wp_mono; [apply poll_subsignal_request_ok; [apply Hwf|unfold word; lia|unfold word; lia]|].
    intros r s' [Ht _]. by apply touches_any. }
  cbn beta. intros [res ps] s1 Hk. case_match; wp_steps; [done|].
  eapply wp_mono; [apply (register_keeps ws); [apply Hk|lia|unfold in_sig, N_SUB_SIG; lia|done]|]. cbn beta.
  intros r s3 Hk3. case_match; wp_steps; by eapply keeps_trans.
Qed.

(** Changes of the runtime's counters. *)
Lemma wp_eq {A} t' (f : T (W:=W) A) s a s' : f s = Ok a s' → wp t' f (λ a1 s1, a1 = a ∧ s1 = s') s.
Proof using. intros E. unfold wp. by rewrite E. Qed.
Lemma take_counter_ok ws s addr (get : T (W:=W) Z) (reset : T (W:=W) unit) : rt_wf m s → word addr → (addr, 8) ∈ ws →
  (∀ s, rt_wf m s → ∃ n, get s = Ok n s) → (∀ s, rt_wf m s → ∃ s', reset s = Ok tt s' ∧ keeps ws s s') →
  wp t (take_counter addr get reset) (λ _ s', keeps ws s s') s.
Proof using.
  intros Hwf Ha Hin Hget Hreset. unfold take_counter. wp_steps.
  eapply (wp_mono _ _ (λ b s', keeps ws s s' ∧ (b = true → s' = s ∧ points (r_world s) (addr_app_to_native (app_mem (r_world s)) addr) addr 8))).
  { apply wp_zoom. eapply wp_mono; [apply validate_points; [apply Hwf|done|done]|]. intros [] s'.
    - intros [-> Hp]. split; [|by destruct s]. split; [by destruct s|]. apply touches_refl, Hwf.
    - intros ->. split; [|done]. assert (touches ws (r_world s) (set_app_exception true (r_world s))) as Ht.
      { apply exc_touches, touches_refl, Hwf. }
      split; [apply rt_wf_world; [done|apply Ht]|exact Ht]. }
  intros [] s1 [Hk Hb]; cbn [negb]; wp_steps; [|done]. destruct (Hb eq_refl) as [-> Hp]. clear Hb Hk.
  apply wp_zoom. unfold wasm_runtime_addr_app_to_native. wp_steps.
  replace (set_world (r_world s) s) with s by by destruct s. destruct (Hget s Hwf) as [n En].
  eapply wp_mono; [exact (wp_eq t _ _ _ _ En)|]. intros ? ? [-> ->]. wp_steps. eapply wp_mono; [apply (lib_plain ws); [done|]|].
  { unfold store_u64. eapply (store_le_ok ws 8); [apply Hwf|exact Hp|exact Hin|lia]. }
  cbn beta. intros [] s1 Hk. wp_steps. destruct (Hreset s1 (proj1 Hk)) as (s2&E2&Hk2).
  eapply wp_mono; [exact (wp_eq t _ _ _ _ E2)|]. intros ? ? [-> ->]. wp_steps. by eapply keeps_trans.
Qed.

(** ** Every native function *)

Definition native_safe (sym : NativeSymbol (W:=W)) : Prop :=
  ∀ args f s, apply_native (func_ptr sym) args = Some f → Forall word args → rt_wf m s →
    native_pre maxlen (app_mem (r_world s)) (symbol sym) args → may_request may (symbol sym) args → (t = true → waits (symbol sym) = false) →
    wp t f (λ _ s', keeps (windows (symbol sym) (app_mem (r_world s)) args) s s') s.

Ltac native_intro :=
  let args := fresh "args" in let f := fresh "f" in let s := fresh "s" in
  intros args f s Ef Hargs Hwf [Hperiph Hcount Hduty] Hmay Hwait;
  repeat (destruct args as [|? args];
    cbv beta iota delta [apply_native func_ptr REG_NATIVE_FUNC to_native to_native_fun to_native_L to_native_T to_native_Z] in Ef;
    first [discriminate Ef | injection Ef as <- | idtac]);
  repeat rewrite Forall_cons in Hargs; destruct_and? Hargs;
  cbv beta iota delta [windows write_windows assoc String.eqb Ascii.eqb Bool.eqb symbol REG_NATIVE_FUNC at_ptr at_ptr_len
     at_addr result_windows arg nth handler_periphs waits duties seven_bit flash_at eeprom_len count_fits may_request request_duties on_gpio on_i2c] in Hperiph, Hcount, Hduty, Hmay, Hwait |- *; destruct_and? Hduty.

(** The functions that only talk to the system. *)
Ltac native_known :=
  lazymatch goal with
  | |- wp _ (record_benchmark_time_wrapper _) _ _ => apply record_benchmark_time_ok
  | |- wp _ (get_benchmark_time_wrapper _ _) _ _ => apply get_benchmark_time_ok
  | |- wp _ test_ta_get_sys_time_overhead_wrapper _ _ => apply time_overhead_ok
  | |- wp _ (dht_read_wrapper _ _ _ _) _ _ => apply dht_read_ok
  | |- wp _ (spi_transfer_byte_wrapper _ _ _ _ _ _ _ _ _) _ _ => apply spi_transfer_byte_ok
  | |- wp _ (record_poll_times_wrapper _) _ _ => apply record_poll_times_ok
  | |- wp _ (get_poll_times_wrapper _) _ _ => apply get_poll_times_ok
  | |- wp _ (write_secure_object_wrapper _ _ _ _) _ _ => apply write_secure_object_ok
  | |- wp _ (delete_secure_object_wrapper _ _) _ _ => apply delete_secure_object_ok
  | |- wp _ (get_async_data_wrapper _ _ _ _) _ _ => apply get_async_data_ok
  | |- wp _ (get_async_data_future_wrapper _ _ _ _ _) _ _ => apply get_async_data_future_ok
  | |- wp _ (get_async_data_promise_wrapper _ _ _ _) _ _ => apply get_async_data_promise_ok
  | |- wp _ (read_secure_object_wrapper _ _ _ _) _ _ => apply read_secure_object_ok
  end; first [ok_state | solve_word | solve_words | solve_mem | idtac].
Ltac native_lib :=
  apply lib_plain; [done|];
  lazymatch goal with
  | Hwf : rt_wf _ ?s |- wp _ _ (λ _ w, touches ?ws _ w) _ =>
      assert (app_ok (r_world s)) by apply Hwf; assert (writing ws) by done
  end;
  first [ native_known
        | unfold_head;
          lazymatch goal with
          | |- wp _ (future _) _ _ => eapply future_ok; solve_request
          | |- wp _ (answer ?k _ _ _) (λ _ w, touches ?ws _ w) _ => apply (answer_ok ws (Z.to_nat k));
              [lia|lia|done|apply invoke_answers; [solve_word|solve_word|exact I]|solve_mem|ok_state]
          | |- wp _ (spi_bufs _ _ _ _ _) _ _ => apply spi_block_ok; [ok_state|solve_words|assumption|assumption|solve_mem]
          | |- wp _ (limit _ _ _ ≫= _) _ _ => eapply promise_ok; solve_request
          | |- _ => unfold tel0157_fetch, fetch, result, invoke_i2c_pta, invoke_dht_pta, invoke_w25qxx_pta, invoke_bh1750fvi_pta,
                 invoke_mpu6050_pta, invoke_tel0157_pta, invoke_at24cxx_pta, invoke_atk301_pta; repeat lib_step; prior
          end ].
Ltac native_handled :=
  unfold_head; apply handled_ok;
  [ done
  | first [match goal with |- 0 <= gpio_periph ?x < _ => pose proof (gpio_periph_range x) end
          |match goal with |- 0 <= i2c_periph ?x < _ => pose proof (i2c_periph_range x) end]; match goal with H : _ ≠ 63 |- _ => revert H; lia end
  | match goal with H : word ?x |- 0 <= ?x => apply H end
  | match goal with Hwf : rt_wf _ ?s |- _ => assert (app_ok (r_world s)) by apply Hwf end; solve_request ].
Ltac native_solve :=
  native_intro;
  lazymatch goal with
  | |- wp _ (lib _) _ _ => native_lib
  | |- wp _ (mret _) _ _ => apply wp_ret; by apply keeps_refl
  | |- _ => native_handled
  end.

Lemma reset_poll_keeps ws s n : rt_wf m s → keeps ws s (set_poll_times n s).
Proof using. intros Hwf. split; [apply (rt_wf_frame m s); try done; apply Hwf|apply touches_refl, Hwf]. Qed.
Lemma reset_profile_keeps ws s n : rt_wf m s → keeps ws s (set_profile_times n s).
Proof using. intros Hwf. split; [apply (rt_wf_frame m s); try done; apply Hwf|apply touches_refl, Hwf]. Qed.

(** With [t = true] the functions that wait are left out. *)
Lemma not_waiting (b : bool) : (b = true → true = false) → b = false.
Proof using. destruct b; [|done]. intros Ht. by discriminate (Ht eq_refl). Qed.

Lemma natives_safe fuel : Forall native_safe (native_symbols (Some m) fuel).
Proof using Hm TeeOk0.
  unfold native_symbols. repeat (apply Forall_cons_2; [try solve [native_solve]|]); [..|apply Forall_nil_2].
  all: native_intro.
  - unfold all_async_req_handled_wrapper, all_signal_handled. wp_steps. by apply keeps_refl.
  - apply take_counter_ok; [done|done|solve_mem|by eexists|]. intros. eexists. split; [done|by apply reset_profile_keeps].
  - apply take_counter_ok; [done|done|solve_mem|by eexists|]. intros. eexists. split; [done|by apply reset_poll_keeps].
  - native_lib. intros m' Em. by rewrite Em in Hcount.
  - destruct Hduty.
  - native_lib. by apply not_waiting.
  - apply set_callback_ok; [done|done|]. match goal with H : word z0 |- _ => apply H end.
  - native_lib. by apply not_waiting.
Qed.
End native.
