(* ===== verification/TzioPointers.v ===== *)
(** * Native library: the pointers of its functions

    Which arguments of a native function are pointers, how each is checked
    and which range it stands for; what the functions do with a pointer that
    is not signed and with a range outside of the application's memory; and
    that the functions without a pointer never touch that memory. *)

From Stdlib Require Import ZArith Lia Bool Ascii String.
From stdpp Require Import base tactics option list strings numbers gmap.
From S2P Require Import Prelude Platform Params Sensors Tel0157 Pta IoState Runtime AppMemory TeeApi Tzio TzioAsync TzioProofs TzioSafe Frames TzioNative.

Open Scope string_scope.
Open Scope Z_scope.

(** ** The pointers

    How a function checks a pointer: for the signature, for the signature if
    it is not null, or not at all. *)
Inductive pointer_check := Signed | SignedOrNull | Plain.
#[export] Instance pointer_check_eq_dec : EqDecision pointer_check.
Proof. solve_decision. Defined.

(** The pointers among the arguments of each function that has one. *)
Definition pointers : list (string * list (nat * pointer_check)) := [
  ("io_helper_get_overhead_timestamp", [(0%nat, Plain)]); ("i2c_get_overhead_timestamp", [(0%nat, Plain)]);
  ("get_runtime_profile_times", [(0%nat, Plain)]); ("get_runtime_poll_times", [(0%nat, Plain)]);
  ("get_poll_times", [(0%nat, Plain)]); ("get_benchmark_time", [(1%nat, Plain)]);
  ("i2c_read_bytes", [(3%nat, Signed)]); ("i2c_write_bytes", [(3%nat, Signed)]); ("i2c_read_regs", [(4%nat, Signed)]);
  ("i2c_write_regs", [(4%nat, Signed)]); ("i2c_write_bytes_async_future", [(3%nat, Signed)]);
  ("spi_transfer_byte", [(8%nat, Signed)]); ("spi_transfer_bytes", [(8%nat, SignedOrNull); (7%nat, SignedOrNull)]);
  ("spi_transfer_diff_bytes", [(8%nat, SignedOrNull); (7%nat, SignedOrNull)]); ("spi_transfer_bytes_async_future", [(7%nat, Signed)]);
  ("dht_read", [(2%nat, Signed); (3%nat, Signed)]); ("bh1750fvi_sample", [(2%nat, Signed)]); ("mpu6050_sample", [(2%nat, Signed)]);
  ("w25qxx_read_id", [(2%nat, Signed)]); ("w25qxx_read_data", [(3%nat, Signed)]); ("w25qxx_page_program", [(3%nat, Signed)]);
  ("at24cxx_read", [(3%nat, Signed)]); ("at24cxx_write", [(3%nat, Signed)]); ("at24cxx_write_async", [(3%nat, Signed)]);
  ("at24cxx_write_async_future", [(3%nat, Signed)]); ("atk301_upload_fingerprint_image", [(2%nat, Signed)]);
  ("tel0157_get_gnss_len", [(2%nat, Signed)]); ("tel0157_get_all_gnss", [(2%nat, Signed)]);
  ("tel0157_get_utc_time", [(2%nat, Signed)]); ("tel0157_get_gnss_mode", [(2%nat, Signed)]);
  ("tel0157_get_num_sat_used", [(2%nat, Signed)]); ("tel0157_get_lon", [(2%nat, Signed)]); ("tel0157_get_lat", [(2%nat, Signed)]);
  ("tel0157_get_alt", [(2%nat, Signed)]); ("tel0157_get_sog", [(2%nat, Signed)]); ("tel0157_get_cog", [(2%nat, Signed)]);
  ("write_secure_object", [(0%nat, Signed); (2%nat, Signed)]);
  ("read_secure_object", [(2%nat, Signed); (3%nat, Signed); (0%nat, Signed)]);
  ("delete_secure_object", [(0%nat, Signed)]); ("write_secure_object_async_future", [(0%nat, Signed); (2%nat, Signed)]);
  ("read_secure_object_async_future", [(0%nat, Signed)]); ("get_async_data", [(2%nat, SignedOrNull); (3%nat, SignedOrNull)]);
  ("get_async_data_future", [(2%nat, SignedOrNull); (3%nat, SignedOrNull)]);
  ("get_async_data_promise", [(1%nat, SignedOrNull); (2%nat, SignedOrNull)]) ].
Definition pointers_of (name : string) : list (nat * pointer_check) := assoc [] name pointers.

(** A pointer that its check does not let through. *)
Definition bad_pointer (args : list Z) (p : nat * pointer_check) : bool :=
  match p.2 with
  | Signed => negb (check_ptr_signed (arg p.1 args))
  | SignedOrNull => negb (arg p.1 args =? 0) && negb (check_ptr_signed (arg p.1 args))
  | Plain => false
  end.
Definition unsigned (name : string) (args : list Z) : bool := existsb (bad_pointer args) (pointers_of name).

(** ** The ranges

    The memory a function reads or writes for its caller, every range it
    validates before it calls the system. *)
Definition ranges (mem : option linear) (name : string) (args : list Z) : list (Z * Z) :=
  let at_ i (n : Z) := (adr (arg i args), n) in
  let spi := ((if 0 <? arg 5 args then [(adr0 (arg 7 args), arg 5 args)] else [])
             ++ (if 0 <? arg 6 args then [(adr0 (arg 8 args), arg 6 args)] else []))%list in
  let data i j := [(adr0 (arg j args), 4); (adr0 (arg i args), len_at mem (adr0 (arg j args)))] in
  assoc [] name [
    ("io_helper_get_overhead_timestamp", [(arg 0 args, 1600)]); ("i2c_get_overhead_timestamp", [(arg 0 args, 800)]);
    ("get_runtime_profile_times", [(arg 0 args, 8)]); ("get_runtime_poll_times", [(arg 0 args, 8)]);
    ("get_poll_times", [(arg 0 args, 8)]); ("get_benchmark_time", [(arg 1 args, 8)]);
    ("i2c_read_bytes", [at_ 3%nat (arg 4 args)]); ("i2c_write_bytes", [at_ 3%nat (arg 4 args)]);
    ("i2c_read_regs", [at_ 4%nat (arg 5 args)]); ("i2c_write_regs", [at_ 4%nat (arg 5 args)]);
    ("i2c_write_bytes_async_future", [at_ 3%nat (arg 4 args)]);
    ("spi_transfer_byte", if 0 <? arg 6 args then [at_ 8%nat 1] else []);
    ("spi_transfer_bytes", spi); ("spi_transfer_diff_bytes", spi); ("spi_transfer_bytes_async_future", [at_ 7%nat (arg 5 args)]);
    ("dht_read", [at_ 2%nat 2; at_ 3%nat 2]); ("bh1750fvi_sample", [at_ 2%nat 2]); ("mpu6050_sample", [at_ 2%nat 14]);
    ("w25qxx_read_id", [at_ 2%nat 2]); ("w25qxx_read_data", [at_ 3%nat (arg 4 args)]);
    ("w25qxx_page_program", [at_ 3%nat (arg 4 args)]); ("at24cxx_read", [at_ 3%nat (arg 4 args)]);
    ("at24cxx_write", [at_ 3%nat (arg 4 args)]); ("at24cxx_write_async", [at_ 3%nat (arg 4 args)]);
    ("at24cxx_write_async_future", [at_ 3%nat (arg 4 args)]);
    ("atk301_upload_fingerprint_image", [at_ 2%nat Atk301.ATK301_FINGERPRINT_IMAGE_DATA_LEN]);
    ("tel0157_get_gnss_len", [at_ 2%nat 2]); ("tel0157_get_all_gnss", [at_ 2%nat (arg 3 args)]);
    ("tel0157_get_utc_time", [at_ 2%nat sizeof_time]); ("tel0157_get_gnss_mode", [at_ 2%nat 1]);
    ("tel0157_get_num_sat_used", [at_ 2%nat 1]); ("tel0157_get_lon", [at_ 2%nat sizeof_lon_lat]);
    ("tel0157_get_lat", [at_ 2%nat sizeof_lon_lat]); ("tel0157_get_alt", [at_ 2%nat 3]); ("tel0157_get_sog", [at_ 2%nat 3]);
    ("tel0157_get_cog", [at_ 2%nat 3]);
    ("write_secure_object", [at_ 2%nat (arg 3 args); at_ 0%nat (arg 1 args)]);
    ("read_secure_object", [at_ 3%nat 4; at_ 2%nat (len_at mem (adr (arg 3 args))); at_ 0%nat (arg 1 args)]);
    ("delete_secure_object", [at_ 0%nat (arg 1 args)]);
    ("write_secure_object_async_future", [at_ 2%nat (arg 3 args); at_ 0%nat (arg 1 args)]);
    ("read_secure_object_async_future", [at_ 0%nat (arg 1 args)]);
    ("get_async_data", data 2%nat 3%nat); ("get_async_data_future", data 2%nat 3%nat); ("get_async_data_promise", data 1%nat 2%nat) ].
Definition outside (mem : option linear) (name : string) (args : list Z) : bool :=
  existsb (λ '(a, n), negb (validate_app_addr mem a n)) (ranges mem name args).

(** A number beyond the limit the function checks before it looks at ranges:
    the bus, the session, or the index of a time. *)
Definition beyond_limit (name : string) (args : list Z) : bool :=
  let sessions a b := (N_SESS <=? a) || (N_SESS <=? b) in
  assoc false name [
    ("get_benchmark_time", N_TIMES <=? arg 0 args);
    ("i2c_write_bytes_async_future", MAX_I2C_NUM <? arg 0 args); ("at24cxx_write_async", MAX_I2C_NUM <? arg 0 args);
    ("at24cxx_write_async_future", MAX_I2C_NUM <? arg 0 args); ("spi_transfer_bytes_async_future", MAX_SPI_NUM <? arg 0 args);
    ("get_async_data", sessions (arg 0 args) (arg 1 args)); ("get_async_data_future", sessions (arg 0 args) (arg 1 args));
    ("get_async_data_promise", sessions (promise_periph (arg 0 args)) (promise_sub (arg 0 args))) ].
(** The one function that checks its numbers before its pointers. *)
Definition limits_first (name : string) : bool := assoc false name [("get_async_data_promise", true)].

Section refusal.
Context {W : Type} `{!TeeClient W, !TeeServices W} (m : option module_inst) (fuel : nat).

Definition refuses_unsigned (sym : NativeSymbol (W:=W)) : Prop := ∀ args f s,
  apply_native (func_ptr sym) args = Some f → unsigned (symbol sym) args = true →
  f s = Ok (if limits_first (symbol sym) && beyond_limit (symbol sym) args then TEE_ERROR_BAD_PARAMETERS else TEE_ERROR_ACCESS_DENIED) s.

Lemma fat_check p (k : Z → L W Z) : fat p k = if check_ptr_signed p then k (clear_signature_and_tag p) else mret TEE_ERROR_ACCESS_DENIED.
Proof using. unfold fat. by destruct (check_ptr_signed p). Qed.
Lemma fat_req_check p (k : Z → request (W:=W)) :
  fat_req p k = if check_ptr_signed p then k (clear_signature_and_tag p) else refuse TEE_ERROR_ACCESS_DENIED.
Proof using. unfold fat_req. by destruct (check_ptr_signed p). Qed.
Lemma fat0_check p (k : Z → L W Z) : fat0 p k = if p =? 0 then k p else fat p k.
Proof using. unfold fat0. by destruct (p =? 0). Qed.

Lemma lib_mret (s : rstate (app W)) (x : Z) : lib (mret x) s = Ok x s.
Proof using. by destruct s. Qed.
Lemma lib_future_refused (s : rstate (app W)) : lib (future (refuse TEE_ERROR_ACCESS_DENIED)) s = Ok TEE_ERROR_ACCESS_DENIED s.
Proof using. by destruct s. Qed.
Lemma handled_refused e p h (s : rstate (app W)) : handled e p (refuse TEE_ERROR_ACCESS_DENIED) h s = Ok TEE_ERROR_ACCESS_DENIED s.
Proof using. by destruct s. Qed.

(** The arguments of a function, taken apart; its entries in the tables. *)
Ltac take_args Ef := lazymatch type of Ef with apply_native _ ?args = _ =>
  repeat (destruct args as [|? args]; cbv beta iota delta [apply_native func_ptr REG_NATIVE_FUNC to_native to_native_fun to_native_L to_native_T to_native_Z] in Ef;
    first [discriminate Ef | injection Ef as <- | idtac]) end.
Ltac look_up_pointers H :=
  cbv beta iota delta [unsigned pointers_of pointers assoc String.eqb Ascii.eqb Bool.eqb symbol REG_NATIVE_FUNC existsb bad_pointer arg nth fst snd] in H;
  cbn [orb] in H.
Ltac look_up_limits :=
  cbv beta iota zeta delta [limits_first beyond_limit assoc String.eqb Ascii.eqb Bool.eqb symbol REG_NATIVE_FUNC arg nth]; cbn [andb].

Ltac check_step Hu := let E := fresh "E" in lazymatch goal with
  | |- context [fat0 ?p ?k] => rewrite (fat0_check p k); destruct (p =? 0) eqn:E
  | |- context [fat_req ?p ?k] => rewrite (fat_req_check p k); destruct (check_ptr_signed p) eqn:E
  | |- context [fat ?p ?k] => rewrite (fat_check p k); destruct (check_ptr_signed p) eqn:E
  end; rewrite ?E in Hu; cbn [negb andb orb] in Hu; cbv beta.
Ltac refused_by Hu :=
  first [ discriminate Hu | apply lib_mret | apply lib_future_refused | apply handled_refused | (check_step Hu; refused_by Hu) ].
Lemma all_refuse_unsigned : Forall refuses_unsigned (native_symbols m fuel).
Proof using.
  unfold native_symbols. repeat (apply Forall_cons_2; [|]); [..|apply Forall_nil_2].
  all: let args := fresh "args" in let Hu := fresh "Hu" in intros args f s Ef Hu; look_up_pointers Hu; try discriminate Hu; take_args Ef; look_up_limits.
  all: match goal with |- lib ?f _ = _ => let h := head_of f in unfold h | |- ?f _ = _ => let h := head_of f in unfold h end.
  all: cbv zeta; repeat match goal with |- context [N_SESS <=? ?x] => destruct (N_SESS <=? x); cbn [orb]; [apply lib_mret|] end.
  all: unfold answer, tel0157_fetch, fetch, spi_bufs; refused_by Hu.
Qed.

(** Ranges outside the memory. *)
Lemma valid_run a n k (w : app W) : valid a n k w =
  if validate_app_addr (app_mem w) a n then k (addr_app_to_native (app_mem w) a) w
  else Ok TEE_ERROR_ACCESS_DENIED (set_app_exception true w).
Proof using.
  unfold valid, wasm_runtime_validate_app_addr, wasm_runtime_addr_app_to_native, mbind, M_bind, gets. by destruct (validate_app_addr _ a n).
Qed.
Lemma valid_req_run a n (k : option Z → request) (w : app W) : valid_req a n k w =
  if validate_app_addr (app_mem w) a n then k (addr_app_to_native (app_mem w) a) w
  else Ok (TEE_ERROR_ACCESS_DENIED, []) (set_app_exception true w).
Proof using.
  unfold valid_req, wasm_runtime_validate_app_addr, wasm_runtime_addr_app_to_native, mbind, M_bind, gets. by destruct (validate_app_addr _ a n).
Qed.
Lemma lib_run {A} (f : L W A) s : lib f s = match f (r_world s) with
  | Ok a w => Ok a (set_world w s) | Undef u => Undef u | OutOfFuel => OutOfFuel end.
Proof using. done. Qed.
(** A count in a range that was validated. *)
Lemma load_count a (k : Z → L W Z) (w : app W) : word a → validate_app_addr (app_mem w) a 4 = true →
  (n ← load_u32 (addr_app_to_native (app_mem w) a); k n) w = k (len_at (app_mem w) a) w.
Proof using.
  intros Ha Hv. unfold load_u32, mem_load, mbind, M_bind, gets. destruct (app_mem w) as [mem|] eqn:Em; [|done].
  unfold word in Ha. pose proof (validate_bounds mem a 4 ltac:(lia) ltac:(lia) Hv). unfold addr_app_to_native.
  rewrite (proj2 (Z.ltb_lt _ _)), (proj2 (Z.leb_le _ _)) by lia. done.
Qed.

(** A refused request ends its function. *)
Lemma refused_future res (req : request) (s : rstate (app W)) w : res ≠ TEE_SUCCESS → req (r_world s) = Ok (res, []) w →
  lib (future req) s = Ok res (set_world w s).
Proof using. intros Hr E. rewrite lib_run. unfold future, mbind, M_bind. rewrite E. by rewrite (proj2 (Z.eqb_neq _ _) Hr). Qed.
Lemma refused_handled res e p (req : request) h (s : rstate (app W)) w : res ≠ TEE_SUCCESS → req (r_world s) = Ok (res, []) w →
  handled e p req h s = Ok res (set_world w s).
Proof using. intros Hr E. unfold handled, mbind, M_bind. rewrite lib_run, E. by rewrite (proj2 (Z.eqb_neq _ _) Hr). Qed.

Definition refuses_outside (sym : NativeSymbol (W:=W)) : Prop := ∀ args f s,
  apply_native (func_ptr sym) args = Some f → unsigned (symbol sym) args = false →
  outside (app_mem (r_world s)) (symbol sym) args = true →
  f s = if beyond_limit (symbol sym) args then Ok TEE_ERROR_BAD_PARAMETERS s
        else Ok TEE_ERROR_ACCESS_DENIED (set_world (set_app_exception true (r_world s)) s).
Definition answers (b : bool) (w : app W) : outcome (app W) Z :=
  if b then Ok TEE_ERROR_BAD_PARAMETERS w else Ok TEE_ERROR_ACCESS_DENIED (set_app_exception true w).
Definition declines (b : bool) (w : app W) : outcome (app W) (Z * tparams) :=
  if b then Ok (TEE_ERROR_BAD_PARAMETERS, []) w else Ok (TEE_ERROR_ACCESS_DENIED, []) (set_app_exception true w).
Lemma lib_answers f b (s : rstate (app W)) : f (r_world s) = answers b (r_world s) →
  lib f s = if b then Ok TEE_ERROR_BAD_PARAMETERS s else Ok TEE_ERROR_ACCESS_DENIED (set_world (set_app_exception true (r_world s)) s).
Proof using. intros E. rewrite lib_run, E. destruct b; [by destruct s|done]. Qed.
Lemma future_declines req b (s : rstate (app W)) : req (r_world s) = declines b (r_world s) →
  lib (future req) s = if b then Ok TEE_ERROR_BAD_PARAMETERS s else Ok TEE_ERROR_ACCESS_DENIED (set_world (set_app_exception true (r_world s)) s).
Proof using.
  intros E. destruct b; unfold declines in E; [rewrite (refused_future TEE_ERROR_BAD_PARAMETERS _ _ _ ltac:(done) E); by destruct s|].
  by rewrite (refused_future TEE_ERROR_ACCESS_DENIED _ _ _ ltac:(done) E).
Qed.
Lemma handled_declines e p h req b (s : rstate (app W)) : req (r_world s) = declines b (r_world s) →
  handled e p req h s = if b then Ok TEE_ERROR_BAD_PARAMETERS s else Ok TEE_ERROR_ACCESS_DENIED (set_world (set_app_exception true (r_world s)) s).
Proof using.
  intros E. destruct b; unfold declines in E; [rewrite (refused_handled TEE_ERROR_BAD_PARAMETERS _ _ _ _ _ _ ltac:(done) E); by destruct s|].
  by rewrite (refused_handled TEE_ERROR_ACCESS_DENIED _ _ _ _ _ _ ltac:(done) E).
Qed.

Lemma adr_word p : word (adr p).
Proof using. pose proof (clear_range p) as H. unfold word. split; [apply H|]. transitivity (2 ^ 17)%Z; [apply H|done]. Qed.

Ltac look_up_ranges H :=
  cbv beta iota zeta delta [outside ranges assoc String.eqb Ascii.eqb Bool.eqb symbol REG_NATIVE_FUNC arg nth adr0] in H; cbn [existsb orb] in H.
(** One check of the code, and what remains of the ranges. *)
Ltac range_step Hu Hr := let E := fresh "E" in
  lazymatch goal with
  | |- context [fat0 ?p ?k] => rewrite (fat0_check p k); destruct (p =? 0) eqn:E
  | |- context [fat_req ?p ?k] => rewrite (fat_req_check p k); destruct (check_ptr_signed p) eqn:E
  | |- context [fat ?p ?k] => rewrite (fat_check p k); destruct (check_ptr_signed p) eqn:E
  | |- valid ?a ?n ?k _ = _ => rewrite valid_run; lazymatch goal with |- context [validate_app_addr ?m a n] => destruct (validate_app_addr m a n) eqn:E end
  | |- valid_req ?a ?n ?k _ = _ => rewrite valid_req_run; lazymatch goal with |- context [validate_app_addr ?m a n] => destruct (validate_app_addr m a n) eqn:E end
  | |- (load_u32 (addr_app_to_native _ ?a) ≫= _) _ = _ => rewrite load_count; [|first [apply adr_word|done]|assumption]
  | |- (if ?c then _ else _) _ = _ => destruct c eqn:E
  | |- limit ?n ?max _ _ = _ => unfold limit; destruct (max <? n) eqn:E
  end;
  try rewrite E in Hu; try rewrite E in Hr; try (apply Z.eqb_eq in E; subst);
  cbn [negb andb orb] in Hu; cbn [Datatypes.app existsb negb orb] in Hr; cbv beta zeta iota; cbn [orb].
Ltac outside_by Hu Hr := first [ discriminate Hu | discriminate Hr | reflexivity | (range_step Hu Hr; outside_by Hu Hr) ].

Lemma take_counter_refused addr get reset (s : rstate (app W)) : validate_app_addr (app_mem (r_world s)) addr 8 = false →
  take_counter addr get reset s = Ok TEE_ERROR_ACCESS_DENIED (set_world (set_app_exception true (r_world s)) s).
Proof using.
  intros E. unfold take_counter, mbind, M_bind. rewrite lib_run. unfold wasm_runtime_validate_app_addr, mbind, M_bind, gets. by rewrite E.
Qed.
Lemma all_refuse_outside : Forall refuses_outside (native_symbols m fuel).
Proof using.
  unfold native_symbols. repeat (apply Forall_cons_2; [|]); [..|apply Forall_nil_2].
  all: let args := fresh "args" in let Hu := fresh "Hu" in let Hr := fresh "Hr" in intros args f s Ef Hu Hr;
    look_up_ranges Hr; try discriminate Hr; look_up_pointers Hu; take_args Ef.
  all: lazymatch goal with
    | |- lib ?f _ = _ => let h := head_of f in unfold h; first [apply future_declines | apply lib_answers]
    | |- ?f _ = _ => let h := head_of f in unfold h; first [apply handled_declines | apply take_counter_refused; rewrite orb_false_r in Hr; by apply negb_true_iff]
    end.
  all: look_up_limits; unfold answer, tel0157_fetch, fetch, spi_bufs, await_data; change (200 * 8) with 1600; change (100 * 8) with 800; cbv beta zeta; outside_by Hu Hr.
Qed.
End refusal.

(** ** Functions without a pointer *)

(** A computation that runs alike in the states [s] and [g s]. *)
Section alike.
Context {S : Type} (g : S → S).
Definition alike {A} (f : M S A) : Prop :=
  ∀ s, f (g s) = match f s with Ok a s' => Ok a (g s') | Undef u => Undef u | OutOfFuel => OutOfFuel end.

Lemma alike_ret {A} (a : A) : alike (mret a).
Proof using. by intros s. Qed.
Lemma alike_undef {A} u : alike (undef u : M S A).
Proof using. by intros s. Qed.
Lemma alike_bind {A B} (f : M S A) (k : A → M S B) : alike f → (∀ a, alike (k a)) → alike (f ≫= k).
Proof using. intros Hf Hk s. unfold mbind, M_bind. rewrite Hf. destruct (f s); [apply Hk|done|done]. Qed.
Lemma alike_gets {A} (h : S → A) : (∀ s, h (g s) = h s) → alike (gets h).
Proof using. intros Hh s. unfold gets. by rewrite Hh. Qed.
Lemma alike_modify k : (∀ s, k (g s) = g (k s)) → alike (modify k).
Proof using. intros Hk s. unfold modify. by rewrite Hk. Qed.
Lemma alike_arr_get {A} (l : list A) i : alike (arr_get l i).
Proof using. intros s. unfold arr_get, undef, mret, M_ret. by repeat case_match. Qed.
Lemma alike_arr_set {A} (l : list A) i x : alike (arr_set l i x).
Proof using. intros s. unfold arr_set, undef, mret, M_ret. by repeat case_match. Qed.
End alike.

Section blind.
Context {W : Type} `{!TeeClient W, !TeeServices W} (mem : option linear).
(** The application's memory exchanged. *)
Definition swap : app W → app W := set_app_mem mem.
Definition swap_memory (s : rstate (app W)) : rstate (app W) := set_world (swap (r_world s)) s.

Lemma alike_system {A} (f : M W A) : alike swap (on_sys f).
Proof using. intros s. unfold on_sys, zoom. change (app_sys (swap s)) with (app_sys s). by destruct (f (app_sys s)). Qed.
Lemma alike_lib {A} (f : L W A) : alike swap f → alike swap_memory (lib f).
Proof using. intros Hf s. rewrite !lib_run. change (r_world (swap_memory s)) with (swap (r_world s)). rewrite Hf. by destruct (f (r_world s)). Qed.

(** Only memory parameters are looked up in the memory. *)
Definition plain_param (p : tparam) : Prop := match p with TMemref _ _ => False | _ => True end.
Ltac alike_step := first
  [ apply alike_system | apply alike_ret | apply alike_undef | apply alike_arr_get | apply alike_arr_set
  | (apply alike_lib) | (apply alike_gets; by intros []) | (apply alike_modify; by intros []) | (apply alike_bind; [|intros ?]) | progress cbv zeta | case_match ].
Lemma alike_copy types i ps : Forall plain_param ps → alike swap (copy_params types i ps).
Proof using.
  intros Hps. revert i. induction Hps as [|p ps Hp _ IH]; intros i; cbn [copy_params]; [apply alike_ret|].
  apply alike_bind; [|intros u; apply alike_bind; [apply IH|intros us; apply alike_ret]].
  unfold copy_param. destruct p; cbn in Hp; repeat alike_step; done.
Qed.
Lemma alike_update types i ps us : Forall plain_param ps → alike swap (update_out_params types i ps us).
Proof using.
  intros Hps. revert i us. induction Hps as [|p ps Hp _ IH]; intros i us; cbn [update_out_params]; [apply alike_ret|].
  destruct us as [|u us]; [apply alike_ret|]. apply alike_bind; [|intros q; apply alike_bind; [apply IH|intros qs; apply alike_ret]].
  unfold update_out_param. destruct p; cbn in Hp; repeat alike_step; done.
Qed.
Lemma alike_invoke_command invoke cmd types ps : Forall plain_param ps → alike swap (TEE_InvokeTACommand (W:=W) invoke cmd types ps).
Proof using.
  intros Hps. unfold TEE_InvokeTACommand. apply alike_bind; [by apply alike_copy|intros up]. apply alike_bind; [repeat alike_step|intros mapped].
  case_match; [apply alike_ret|]. apply alike_bind; [apply alike_system|intros [res up']].
  apply alike_bind; [by apply alike_update|intros ?; apply alike_ret].
Qed.
Lemma alike_service svc cmd types ps : Forall plain_param ps → alike swap (invoke_pta svc cmd types ps).
Proof using. intros Hps. unfold invoke_pta. repeat first [by apply alike_invoke_command | alike_step]. Qed.
Lemma alike_helper cmd types ps : Forall plain_param ps → alike swap (invoke_io_helper_pta cmd types ps).
Proof using. intros Hps. unfold invoke_io_helper_pta. repeat first [by apply alike_invoke_command | alike_step]. Qed.

Ltac plain_params := repeat (apply Forall_cons_2; [exact I|]); apply Forall_nil_2.
Ltac alike_code := repeat first [ (apply alike_helper; plain_params) | (apply alike_service; plain_params) | alike_step ].

Lemma alike_malloc : alike swap_memory (sys_call runtime_malloc).
Proof using. apply alike_lib, alike_system. Qed.
Lemma alike_register e p q h : alike swap_memory (tzio_register_handler e p q h).
Proof using.
  unfold tzio_register_handler, wasm_runtime_get_indirect_function, aot_get_indirect_function, wasm_runtime_get_function_idx,
    sig_row, set_sig_row, wasm_runtime_free, func_load, set_signal_pending, one_shl. repeat first [apply alike_malloc | alike_step].
Qed.
Lemma alike_handled e p req h : alike swap req → alike swap_memory (handled e p req h).
Proof using.
  intros Hr. unfold handled, tvalue_a. apply alike_bind; [by apply alike_lib|]. intros [res ps]. repeat first [apply alike_register | alike_step].
Qed.

(** Each native function without an entry among the pointers. *)
Definition blind (sym : NativeSymbol (W:=W)) : Prop := ∀ args f,
  pointers_of (symbol sym) = [] → apply_native (func_ptr sym) args = Some f → alike swap_memory f.
Lemma all_blind m fuel : Forall blind (native_symbols m fuel).
Proof using.
  unfold native_symbols. repeat (apply Forall_cons_2; [|]); [..|apply Forall_nil_2].
  all: let args := fresh "args" in let H := fresh "H" in let Ef := fresh "Ef" in intros args f H Ef;
    cbv beta iota delta [pointers_of pointers assoc String.eqb Ascii.eqb Bool.eqb symbol REG_NATIVE_FUNC] in H; try discriminate H; clear H;
    repeat (destruct args as [|? args]; cbv beta iota delta [apply_native func_ptr REG_NATIVE_FUNC to_native to_native_fun to_native_L to_native_T to_native_Z] in Ef;
    first [discriminate Ef | injection Ef as <- | idtac]).
  all: lazymatch goal with
    | |- alike _ (lib ?f) => apply alike_lib; let h := head_of f in unfold h
    | |- alike _ (mret _) => apply alike_ret
    | |- alike _ ?f => let h := head_of f in unfold h; first [apply alike_handled | idtac]
    end.
  all: unfold future, limit, refuse, read_request, result, invoke_i2c_pta, invoke_dht_pta, invoke_w25qxx_pta, invoke_bh1750fvi_pta,
         invoke_mpu6050_pta, invoke_tel0157_pta, invoke_atk301_pta, tvalue_a, all_signal_handled, poll_subsignal_request;
    repeat first [apply alike_register | (apply alike_helper; plain_params) | (apply alike_service; plain_params) | alike_step].
Qed.
End blind.
