(* ===== verification/IoEffects.v ===== *)
(** * What the commands of the I/O helper leave alone

    Each command keeps the register bases of the drivers and the kinds of its
    parameters; the only signal that comes into use is the one an accepted
    request is answered with. *)

From Stdlib Require Import ZArith Lia Bool.
From stdpp Require Import base tactics option list strings numbers gmap relations.
From S2P Require Import Prelude Platform Params I2c I2cProofs Spi SpiProofs W25qxx W25qxxProofs Sensors Tel0157 Pta PtaProofs.
From S2P Require Import IoReq IoState IoSignal IoSignalProofs IoSpec IoHandlers IoHandlersProofs IoHelper IoSystem IoRefinement IoService.
From S2P Require Import Runtime RuntimeScan RuntimeProofs RuntimeKernel AppMemory TeeApi Tzio TzioAsync TzioProofs Frames.

Open Scope Z_scope.

(** ** Answers of the I/O helper

    No command moves the register bases; parameters keep their kinds; an
    accepted request has a sub-signal. *)

Definition bases (k : kstate) : Z * list Z * list Z * Z :=
  (d_gpio_base (k_d k), d_bsc_base (k_d k), d_spi_base (k_d k), d_bit_order (k_d k)).
(** The signals in use, and what a computation leaves of both. *)
Definition kproj (k : kstate) : (Z * list Z * list Z * Z) * list Z := (bases k, k_using k).
Abbreviation kframes := (frames kproj).
Definition uses (k : kstate) (p q : Z) : Prop := Z.testbit (at_ (k_using k) p) q = true.

(** The bases stay, and the signals that come into use are among [N]. *)
Record grown (N : Z → Z → Prop) (k k' : kstate) : Prop := {
  gw_bases : bases k' = bases k;
  gw_uses p q : in_periph p → in_sig q → uses k' p q → uses k p q ∨ N p q
}.
Lemma grown_refl N k : grown N k k.
Proof. split; [done|]. by left. Qed.
Lemma grown_kept N k k1 k2 : grown N k k1 → kproj k2 = kproj k1 → grown N k k2.
Proof. intros [Hb Hu] [= E1 E2 E3 E4 E5]. split; [unfold bases in *; congruence|]. intros p q. unfold uses. rewrite E5. apply Hu. Qed.
Lemma grown_weaken (N N' : Z → Z → Prop) k k' : grown N k k' → (∀ p q, in_sig q → N p q → N' p q) → grown N' k k'.
Proof. intros [Hb Hu] HN. split; [done|]. intros p q Hp Hq Ht. destruct (Hu p q Hp Hq Ht); [by left|right; by apply HN]. Qed.
Lemma grown_signals N k k' : grown N k k' → new_only N (sig_of k) (sig_of k').
Proof.
  intros [_ Hu] p q Hp Hq Hs. unfold uses in Hu. rewrite sig_free_bit in Hs |- *.
  apply not_false_iff_true in Hs. rewrite not_false_iff_true. by apply Hu.
Qed.

Definition same_kinds : relation uparams := Forall2 same_kind.

#[export] Instance same_kind_preorder : PreOrder same_kind.
Proof. split; [by intros []|]. by intros [] [] []. Qed.
#[export] Instance same_kinds_preorder : PreOrder same_kinds.
Proof. unfold same_kinds. split; apply _. Qed.

Lemma same_kinds_insert (ps : list uparam) i u u' : ps !! i = Some u → same_kind u u' → same_kinds ps (<[i := u']> ps).
Proof.
  intros Hi Hu. apply Forall2_same_length_lookup. split; [by rewrite length_insert|]. intros j x y Hx Hy.
  destruct (decide (i = j)) as [<-|].
  - rewrite list_lookup_insert_eq in Hy by by eapply lookup_lt_Some. congruence.
  - rewrite list_lookup_insert_ne in Hy by done. assert (x = y) as -> by congruence. reflexivity.
Qed.

Section commands.
Context `{Env, Storage}.

(** Primitives. *)
Ltac set_param := intros k; unfold set_uvalue_a, set_uvalue_b, set_usize, set_umem, mbind, M_bind, arr_get;
  destruct (0 <=? _) eqn:E0; [|done];
  lazymatch goal with |- context [?ps !! ?i] => destruct (ps !! i) as [[]|] eqn:E; try done end;
  unfold mret, M_ret, arr_set; destruct (_ && _); [|done]; split; [done|].
Lemma frames_set_a (ps : list uparam) i x : kframes (λ ps', same_kinds ps ps' ∧ (i = 0 → ∃ b tl, ps' = UValue x b :: tl)) (set_uvalue_a ps i x).
Proof using.
  set_param. split; [by eapply same_kinds_insert|]. intros ->. change (Z.to_nat 0) with 0%nat in *.
  destruct ps as [|p ps]; [done|]. by eexists _, ps.
Qed.
Lemma frames_set_b (ps : list uparam) i x : kframes (same_kinds ps) (set_uvalue_b ps i x).
Proof using. set_param. by eapply same_kinds_insert. Qed.
Lemma frames_set_size (ps : list uparam) i n : kframes (same_kinds ps) (set_usize ps i n).
Proof using. set_param. by eapply same_kinds_insert. Qed.
Lemma frames_set_mem (ps : list uparam) i b : kframes (same_kinds ps) (set_umem ps i b).
Proof using. set_param. by eapply same_kinds_insert. Qed.

Lemma frames_lift {A} (m : D A) : (∀ d, match m d with Ok _ d' => d_gpio_base d' = d_gpio_base d ∧ d_bsc_base d' = d_bsc_base d
    ∧ d_spi_base d' = d_spi_base d ∧ d_bit_order d' = d_bit_order d | _ => True end) → kframes (λ _, True) (lift m).
Proof using.
  intros Hm. apply frames_zoom. intros k. specialize (Hm (k_d k)). destruct (m (k_d k)); [|done|done].
  destruct Hm as (E1&E2&E3&E4). unfold kproj, bases. cbn. congruence.
Qed.
Lemma frames_lock l p : kframes (λ _, True) (klock l p).
Proof using. unfold klock. case_match; [|done]. apply frames_lift. intros d. unfold mutex_lock. by case_decide. Qed.
Lemma frames_unlock l p : kframes (λ _, True) (kunlock l p).
Proof using. unfold kunlock. case_match; [|done]. apply frames_lift. intros d. unfold mutex_unlock. by case_decide. Qed.
Lemma frames_time : kframes (λ _, True) (lift tee_time_get_sys_time).
Proof using. by apply frames_lift. Qed.
Lemma frames_malloc n : kframes (λ _, True) (malloc n).
Proof using. intros k. unfold malloc. by destruct (env_malloc _ _). Qed.
Lemma frames_node_malloc : kframes (λ _, True) node_malloc.
Proof using. by intros k. Qed.
Lemma frames_load p : kframes (λ _, True) (load p).
Proof using. intros k. unfold load. destruct p as [|id|]; try done. by destruct (k_heap k !! id). Qed.
Lemma frames_store p b : kframes (λ _, True) (store p b).
Proof using. intros k. unfold store. destruct p as [|id|]; try done. destruct b; [|done]. by destruct (k_heap k !! id). Qed.
Lemma frames_free p : kframes (λ _, True) (free p).
Proof using. intros k. unfold free. destruct p as [|id|]; try done. by destruct (k_heap k !! id). Qed.
Lemma frames_on_queue {A} p (m : QM (A:=io_req_t) A) : kframes (λ _, True) (on_queue p m).
Proof using.
  unfold on_queue. repeat (eapply frames_bind; [auto with frames nocore|intros ? _]). apply frames_zoom. intros k.
  by case_match.
Qed.
End commands.

#[export] Hint Resolve frames_set_a frames_set_b frames_set_size frames_set_mem frames_lock frames_unlock frames_time
  frames_malloc frames_node_malloc frames_load frames_store frames_free frames_on_queue : frames.

Section helpers.
Context `{Env, Storage}.
Ltac frame := repeat frames_step; try done.

Lemma frames_uvalue_a ps i : kframes (λ _, True) (uvalue_a ps i).
Proof using. unfold uvalue_a. frame. Qed.
Lemma frames_uvalue_b ps i : kframes (λ _, True) (uvalue_b ps i).
Proof using. unfold uvalue_b. frame. Qed.
Lemma frames_umemref ps i : kframes (λ _, True) (umemref ps i).
Proof using. unfold umemref. frame. Qed.
Lemma frames_memcpy d s n : kframes (λ _, True) (memcpy d s n).
Proof using. unfold memcpy. frame. Qed.
#[local] Hint Resolve frames_uvalue_a frames_uvalue_b frames_umemref frames_memcpy : frames.
Lemma frames_copy_value ps i : kframes (λ _, True) (copy_value ps i).
Proof using. unfold copy_value. frame. Qed.
Lemma frames_memcpy_in p s n : kframes (λ _, True) (memcpy_in p s n).
Proof using. unfold memcpy_in. frame. Qed.
Lemma frames_get_entry p q : kframes (λ _, True) (get_entry p q).
Proof using. unfold get_entry. frame. Qed.
Lemma frames_put_entry p q e : kframes (λ _, True) (put_entry p q e).
Proof using. unfold put_entry. frame. Qed.
#[local] Hint Resolve frames_copy_value frames_memcpy_in frames_get_entry frames_put_entry : frames.
Lemma frames_set_ret p q x : kframes (λ _, True) (set_ret p q x).
Proof using. unfold set_ret. frame. Qed.
Lemma frames_set_len p q x : kframes (λ _, True) (set_len p q x).
Proof using. unfold set_len. frame. Qed.
Lemma frames_set_polls p q x : kframes (λ _, True) (set_polls p q x).
Proof using. unfold set_polls. frame. Qed.
Lemma frames_bit64 q : kframes (λ _, True) (bit64 q).
Proof using. unfold bit64. frame. Qed.
#[local] Hint Resolve frames_set_ret frames_set_len frames_set_polls frames_bit64 : frames.
Lemma frames_get_ready p : kframes (λ _, True) (IoSignal.get_ready_signal p).
Proof using. unfold IoSignal.get_ready_signal. frame. Qed.
Lemma frames_set_ready p q : kframes (λ _, True) (set_ready_signal p q).
Proof using. unfold set_ready_signal. frame. Qed.
Lemma frames_is_ready p q : kframes (λ _, True) (is_ready_signal p q).
Proof using. unfold is_ready_signal. frame. Qed.
Lemma frames_is_using p q : kframes (λ _, True) (is_using_signo p q).
Proof using. unfold is_using_signo. frame. Qed.
Lemma frames_req_num p : kframes (λ _, True) (get_req_num p).
Proof using. unfold get_req_num. frame. Qed.
Lemma ffsll_64 x : ffsll x <= 64.
Proof using.
  unfold ffsll. destruct (filter _ _) as [|i l] eqn:E; [lia|]. assert (i ∈ i :: l) as Hi by left. rewrite <- E in Hi.
  apply list_elem_of_filter in Hi as [_ Hi%elem_of_seqZ]. lia.
Qed.
Lemma frames_bench i j : kframes (λ _, True) (bench_store i j).
Proof using. unfold bench_store. frame. Qed.
Lemma frames_next_req : kframes (λ _, True) next_req_idx.
Proof using. unfold next_req_idx. frame. Qed.
Lemma frames_next_get : kframes (λ _, True) next_get_idx.
Proof using. unfold next_get_idx. frame. Qed.
Lemma frames_waiting p b : kframes (λ _, True) (set_waiting p b).
Proof using. unfold set_waiting. frame. Qed.
#[local] Hint Resolve frames_waiting : frames.
Lemma frames_submit p r : kframes (λ _, True) (submit p r).
Proof using. unfold submit, condvar_signal. frame. Qed.
Lemma frames_loop_check p : kframes (λ _, True) (loop_check p).
Proof using. unfold loop_check. frame. Qed.
End helpers.

#[export] Hint Resolve frames_uvalue_a frames_uvalue_b frames_umemref frames_memcpy frames_copy_value frames_memcpy_in
  frames_get_entry frames_put_entry frames_set_ret frames_set_len frames_set_polls frames_get_ready frames_is_ready
  frames_is_using frames_req_num frames_bench frames_next_req frames_next_get frames_submit : frames.

Section commands.
Context `{Env, Storage}.

(** ** Taking and releasing a signal *)

Lemma at_other (l : list Z) p q x : 0 <= p → 0 <= q → q ≠ p → at_ (<[Z.to_nat p := x]> l) q = at_ l q.
Proof using. intros. unfold at_. by rewrite list_lookup_insert_ne by lia. Qed.
Lemma at_same (l : list Z) p x y : l !! Z.to_nat p = Some y → at_ (<[Z.to_nat p := x]> l) p = x ∧ at_ l p = y.
Proof using. intros Hl. unfold at_. rewrite Hl, list_lookup_insert_eq by by eapply lookup_lt_Some. done. Qed.

(** The bit [allocate_signo] sets is the one it returns. *)
Lemma least_free x q : 0 <= q < 64 → let idx := ffsll (unot 64 x) in
  Z.testbit (if idx =? 64 then UINT64_MAX else Z.lor x (BIT idx - 1)) q = true → Z.testbit x q = true ∨ q = idx - 1.
Proof using.
  intros Hq idx Ht. destruct (Z.eq_dec (unot 64 x) 0) as [Hz|Hnz].
  { left. assert (Z.testbit (unot 64 x) q = false) as Hf by by rewrite Hz, Z.bits_0.
    rewrite unot_spec in Hf by lia. rewrite (proj2 (Z.ltb_lt q 64)), andb_true_r in Hf by lia. by destruct (Z.testbit x q). }
  destruct (ffsll_spec (unot 64 x) (unot_range 64 x ltac:(lia)) Hnz) as (Hi&_&Hlow). fold idx in Hi, Hlow.
  assert (∀ j, 0 <= j < idx - 1 → Z.testbit x j = true) as Hset.
  { intros j Hj. specialize (Hlow j Hj). rewrite unot_spec in Hlow by lia.
    rewrite (proj2 (Z.ltb_lt j 64)), andb_true_r in Hlow by lia. by destruct (Z.testbit x j). }
  destruct (Z.lt_trichotomy q (idx - 1)) as [?|[?|?]]; [left; apply Hset; lia|by right|left].
  destruct (Z.eqb_spec idx 64); [lia|]. revert Ht. rewrite Z.lor_spec.
  replace (BIT idx - 1) with (Z.ones idx) by (unfold BIT; rewrite Z.ones_equiv, Z.shiftl_1_l; lia).
  rewrite ones_spec by lia. intros [?|?]%orb_prop; [done|bool_props; lia].
Qed.

(** Walking through a command that began in [k]. *)
Section walk.
Context {B : Type} (Q : B → kstate → Prop) (k : kstate).
Lemma walk_step {A} N P (m : K A) kont s : grown N k s → kframes P m →
  (∀ a s', P a → grown N k s' → ends Q (kont a s')) → ends Q ((m ≫= kont) s).
Proof using.
  intros Hg Hm Hk. eapply (ends_bind kproj P); [exact Hm|]. intros a s' E Ha. apply Hk; [done|by eapply grown_kept].
Qed.
Lemma walk_end N P (m : K B) s : grown N k s → kframes P m → (∀ b s', P b → grown N k s' → Q b s') → ends Q (m s).
Proof using.
  intros Hg Hm HQ. specialize (Hm s). unfold ends. destruct (m s); [|done|done]. destruct Hm. apply HQ; [done|by eapply grown_kept].
Qed.
Lemma walk_ret N (b : B) s : grown N k s → (∀ s', grown N k s' → Q b s') → ends Q ((mret b : K B) s).
Proof using. intros Hg HQ. by apply HQ. Qed.

(** A change of one word of [k_using]. *)
Lemma walk_using N N' p x y s (kont : unit → K B) : grown N k s → 0 <= p → k_using s !! Z.to_nat p = Some x →
  (∀ q, in_sig q → Z.testbit y q = true → Z.testbit x q = true ∨ N' p q) → (∀ p' q, N p' q → N' p' q) →
  (∀ s', grown N' k s' → ends Q (kont tt s')) →
  ends Q ((modify (set_k_using (<[Z.to_nat p := y]> (k_using s))) ≫= kont) s).
Proof using.
  intros [Hb Hu] Hp Hx Hy HN Hk. apply Hk. split; [done|]. intros p' q Hp' Hq. unfold uses. cbn [k_using set_k_using].
  destruct (decide (p' = p)) as [->|Hne].
  - destruct (at_same _ p y x Hx) as [-> Ex]. intros Ht. destruct (Hy q Hq Ht) as [?|?]; [|by right].
    destruct (Hu p q Hp' Hq) as [?|?]; [unfold uses; by rewrite Ex|by left|right; by apply HN].
  - destruct Hp'. rewrite at_other by (lia || done). intros Ht. destruct (Hu p' q) as [?|?]; [done|done|exact Ht|by left|right; by apply HN].
Qed.
Lemma walk_seq {A} (P : A → kstate → Prop) (m : K A) kont s : ends P (m s) →
  (∀ a s', P a s' → ends Q (kont a s')) → ends Q ((m ≫= kont) s).
Proof using. unfold mbind, M_bind, ends. intros Hm Hk. destruct (m s); [by apply Hk|done|done]. Qed.
Lemma walk_gets {A} (g : kstate → A) kont s : ends Q (kont (g s) s) → ends Q ((gets g ≫= kont) s).
Proof using. done. Qed.
Lemma walk_get {A} (l : list A) i kont s : (∀ x, 0 <= i → l !! Z.to_nat i = Some x → ends Q (kont x s)) → ends Q ((arr_get l i ≫= kont) s).
Proof using.
  intros Hk. unfold mbind, M_bind, arr_get. destruct (Z.leb_spec 0 i); [|done]. destruct (l !! Z.to_nat i); [by apply Hk|done].
Qed.
Lemma walk_set {A} (l : list A) i x kont s : ends Q (kont (<[Z.to_nat i := x]> l) s) → ends Q ((arr_set l i x ≫= kont) s).
Proof using. intros Hk. unfold mbind, M_bind, arr_set. by destruct (_ && _). Qed.
End walk.

Definition nothing : Z → Z → Prop := λ _ _, False.
Definition only_signal (p q : Z) : Z → Z → Prop := λ p' q', p' = p ∧ q' = q.

Lemma allocate_effect k p s : grown nothing k s →
  ends (λ q s', q < 64 ∧ grown (only_signal p q) k s') (allocate_signo p s).
Proof using.
  intros Hg. unfold allocate_signo. eapply (walk_step _ k nothing (λ _, True)); [done|auto with frames nocore|]. intros _ s1 _ Hg1.
  apply walk_gets, walk_get. intros x Hp Hx. eapply (walk_seq _ (λ q s', q < 64 ∧ grown (only_signal p q) k s')).
  - case_match.
    { cbn. split; [lia|]. destruct Hg1 as [? Hu]. split; [done|]. intros p' q ???. by destruct (Hu p' q) as [?|[]]; [..|left]. }
    set (idx := ffsll (unot 64 x)). apply walk_set. eapply (walk_using _ k nothing (only_signal p (idx - 1))); [done|done|exact Hx| |done|].
    { intros q Hq Ht. destruct (least_free x q Hq Ht) as [?|?]; [by left|by right]. }
    intros s2 Hg2. assert (kframes (λ q, q = idx - 1) (nums ← gets k_nums; n ← arr_get nums p; nums ← arr_set nums p (u32 (n + 1));
      modify (set_k_nums nums);; set_polls p (idx - 1) 0;; mret (idx - 1))) as Hf by (by repeat frames_step).
    eapply (walk_end _ k); [exact Hg2|exact Hf|]. intros q s3 -> Hg3. split; [pose proof (ffsll_64 (unot 64 x)); lia|done].
  - intros q s2 [Hq Hg2]. eapply (walk_step _ k _ (λ _, True)); [exact Hg2|auto with frames nocore|]. by intros _ s3 _ ?.
Qed.

Lemma release_effect k N p q s : grown N k s → ends (λ _ s', grown N k s') (release_signo p q s).
Proof using.
  intros Hg. unfold release_signo. do 2 (eapply (walk_step _ k N (λ _, True)); [done|auto with frames nocore|]; clear s Hg; intros _ s _ Hg).
  eapply (walk_step _ k N (λ b, True)); [done|unfold bit64; by repeat frames_step|]. clear s Hg. intros b s _ Hg.
  apply walk_gets, walk_get. intros x Hp _. apply walk_set.
  eapply (walk_step _ k N (λ _, True)); [done|by apply frames_modify; intros []|]. clear s Hg. intros _ s _ Hg.
  apply walk_gets, walk_get. intros y _ Hy. apply walk_set. eapply (walk_using _ k N N); [done|done|exact Hy| |done|].
  { intros j Hj Ht. rewrite Z.land_spec in Ht. apply andb_prop in Ht as [? _]. by left. }
  intros s2 Hg2. assert (kframes (λ _, True) (nums ← gets k_nums; n ← arr_get nums p; nums ← arr_set nums p (u32 (n - 1));
    modify (set_k_nums nums);; kunlock L_sigusing p;; kunlock L_sigpending p)) as Hf by (by repeat frames_step).
  eapply (walk_end _ k); [exact Hg2|exact Hf|]. by intros.
Qed.

(** ** Commands *)

(** The answer of a command with parameters [ps] that began in [k]. *)
Record effect (cmd : Z) (ps : uparams) (k : kstate) (v : Z * uparams) (k' : kstate) : Prop := {
  ef_kinds : same_kinds ps v.2;
  ef_signal : submits cmd = true → v.1 = TEE_SUCCESS → ∃ q b us, v.2 = UValue q b :: us ∧ in_sig q;
  ef_grown : grown (takes_signal cmd ps v) k k'
}.
Definition answered (ps : uparams) (r : Z * uparams) : Prop := same_kinds ps r.2.

Ltac kinds := first [done | reflexivity | (etrans; [eassumption|]; kinds)].
(** Parameters set in one of two ways. *)
Lemma frames_a_kinds (ps ps' : list uparam) i x : same_kinds ps ps' → kframes (same_kinds ps) (set_uvalue_a ps' i x).
Proof using. intros Hk. eapply frames_mono; [apply frames_set_a|]. intros l [? _]. by etrans. Qed.
Lemma frames_b_kinds (ps ps' : list uparam) i x : same_kinds ps ps' → kframes (same_kinds ps) (set_uvalue_b ps' i x).
Proof using. intros Hk. eapply frames_mono; [apply frames_set_b|]. intros l ?. by etrans. Qed.
Lemma frames_value0 (ps : list uparam) : kframes (λ a, ∃ b us, ps = UValue a b :: us) (uvalue_a ps 0).
Proof using. intros k. unfold uvalue_a, mbind, M_bind, arr_get. destruct ps as [|[|a b|] us]; try done. cbn. split; [done|]. by exists b, us. Qed.

(** Commands that take and release no signal. *)
Ltac branch := lazymatch goal with
  | ps : uparams |- frames _ _ (@mbind _ _ uparams _ _ (if _ then _ else _)) =>
      eapply (frames_bind _ (same_kinds ps)); [|cbn beta; intros ? ?]
  | |- frames _ (same_kinds _) (set_uvalue_a _ _ _) => apply frames_a_kinds
  | |- frames _ (same_kinds _) (set_uvalue_b _ _ _) => apply frames_b_kinds
  end.
Ltac command := repeat first [branch | frames_step]; unfold answered; cbn [fst snd]; destruct_and?; kinds.
Lemma poll_subsignal_frames types ps : kframes (answered ps) (poll_subsignal types ps).
Proof using. unfold poll_subsignal. command. Qed.
Lemma overhead_frames types ps : kframes (answered ps) (get_overhead_timestamp types ps).
Proof using. unfold get_overhead_timestamp. command. Qed.
Lemma poll_frames types ps : kframes (answered ps) (poll types ps).
Proof using. unfold poll. command. Qed.
Lemma answered_effect cmd ps k m : submits cmd = false → kframes (answered ps) m → ends (effect cmd ps k) (m k).
Proof using.
  intros Hc Hm. eapply (walk_end _ k nothing); [apply grown_refl|exact Hm|]. intros v k' Hk Hg.
  split; [done|by rewrite Hc|]. eapply grown_weaken; [exact Hg|by intros ? ? ? []].
Qed.

(** The others, step by step. *)
Ltac walk_through finish := repeat lazymatch goal with
  | |- ends _ ((if _ then _ else _) _) => case_match
  | |- ends _ ((match ?x with (_, _) => _ end) _) => destruct x
  | |- ends _ (mret _ _) => finish
  | |- ends _ ((uvalue_a _ 0 ≫= _) _) =>
      eapply walk_step; [eassumption|apply frames_value0|]; intros ?a ? (?b&?us&->) ?
  | |- ends _ ((allocate_signo _ ≫= _) _) => eapply walk_seq; [by apply allocate_effect|]; cbn beta; intros ?q ? [? ?]
  | |- ends _ ((release_signo _ _ ≫= _) _) => eapply walk_seq; [by apply release_effect|]; cbn beta; intros [] ? ?
  | |- ends _ ((_ ≫= _) _) => first
      [ eapply walk_step; [eassumption|solve [auto with frames nocore]|]; cbn beta; intros
      | eapply (walk_step _ _ _ (λ _, True)); [eassumption|solve [repeat frames_step; done]|]; intros ? ? _ ? ]
  end.

Lemma get_data_effect types ps k : ends (effect PTA_IO_HELPER_CMD_GET_DATA ps k) (get_data types ps k).
Proof using.
  pose proof (grown_refl nothing k). unfold get_data.
  walk_through ltac:(split; [cbn; destruct_and?; kinds|done|]; eapply grown_weaken; [eassumption|by intros ? ? ? []]).
Qed.

(** Peripheral numbers are not negative. *)
Definition head_pos (ps : uparams) : Prop := ∀ a b us, ps = UValue a b :: us → 0 <= a.
Lemma params_head types ps : params_ok types ps → head_pos ps.
Proof using.
  destruct ps as [|u0 [|u1 [|u2 [|u3 []]]]]; try done. intros (Hu&_) a b us [= -> _]. revert Hu. unfold param_ok.
  repeat case_match; try done; [by intros (x&y&[= -> ->]&?&_); lia|by intros (?&?&?&_)].
Qed.

Lemma submitted_effect cmd ps k s a b us q b' tl res : submits cmd = true → head_pos ps → ps = UValue a b :: us →
  (N_PERIPH <=? a) = false → same_kinds ps (UValue q b' :: tl) → q < 64 → (q <? 0) = false → res = TEE_SUCCESS →
  grown (only_signal (u16 a) q) k s → effect cmd ps k (res, UValue q b' :: tl) s.
Proof using.
  intros Hc Hpos Eps Ha Hk Hq Hq0 Hres Hg. bool_props. pose proof (Hpos _ _ _ Eps). unfold N_PERIPH in *.
  rewrite u16_id in Hg by lia. split; cbn [fst snd]; [done| |].
  - intros _ _. exists q, b', tl. split; [done|]. split; unfold N_SUB_SIG; lia.
  - eapply grown_weaken; [exact Hg|]. intros p' q' _ [-> ->]. split_and!; cbn [fst snd]; [done|done|by exists b, us|by exists b', tl].
Qed.
Lemma refused_effect cmd ps k s N res : res ≠ TEE_SUCCESS → grown N k s → (∀ p q, in_sig q → ¬ N p q) → effect cmd ps k (res, ps) s.
Proof using.
  intros Hres Hg HN. split; cbn [fst snd]; [reflexivity|by intros _ ?|]. eapply grown_weaken; [exact Hg|]. intros p q Hq Hpq.
  by destruct (HN p q Hq).
Qed.

Ltac refused := eapply refused_effect; [done|eassumption|].
Ltac request_end := lazymatch goal with
  | |- ends _ (mret (TEE_SUCCESS, _) _) => destruct_and?; match goal with E : 0 = 0 → _ |- _ => destruct (E eq_refl) as (?&?&->) end;
      eapply submitted_effect; [done|done|reflexivity|eassumption|eassumption|eassumption|eassumption|done|eassumption]
  | |- _ => first [ (refused; by intros ? ? _ [])
                  | (refused; bool_props; intros ? ? [? ?] [_ ->]; unfold in_sig in *; lia) ]
  end.
Ltac request_walk k := pose proof (grown_refl nothing k); walk_through ltac:(idtac; request_end).

Lemma read_req_effect types ps k : head_pos ps → ends (effect PTA_IO_HELPER_CMD_READ_REQ ps k) (read_req types ps k).
Proof using. intros Hpos. unfold read_req. request_walk k. Qed.
Lemma read_req_with_buffer_effect types ps k : head_pos ps →
  ends (effect PTA_IO_HELPER_CMD_READ_REQ_WITH_BUFFER ps k) (read_req_with_buffer types ps k).
Proof using. intros Hpos. unfold read_req_with_buffer. request_walk k. Qed.
Lemma write_req_effect types ps k : head_pos ps → ends (effect PTA_IO_HELPER_CMD_WRITE_REQ ps k) (write_req types ps k).
Proof using. intros Hpos. unfold write_req. request_walk k. Qed.
Lemma write_req_with_buffer_effect types ps k : head_pos ps →
  ends (effect PTA_IO_HELPER_CMD_WRITE_REQ_WITH_BUFFER ps k) (write_req_with_buffer types ps k).
Proof using. intros Hpos. unfold write_req_with_buffer. request_walk k. Qed.

(** Every command that is answered. *)
Lemma invoke_effect cmd types ps k : cmd ≠ 0 → head_pos ps →
  ends (λ r k', ∃ v ps', r = Reply v ps' ∧ effect cmd ps k (v, ps') k') (invoke_command cmd types ps k).
Proof using.
  intros Hc Hpos.
  assert (∀ m, ends (effect cmd ps k) (m k) → ends (λ r k', ∃ v ps', r = Reply v ps' ∧ effect cmd ps k (v, ps') k') (replies m k)) as Hrep.
  { intros m Hm. unfold replies. eapply walk_seq; [exact Hm|]. intros [v ps'] k' He. by exists v, ps'. }
  assert (ends (λ r k', ∃ v ps', r = Reply v ps' ∧ effect cmd ps k (v, ps') k') ((mret (Reply TEE_ERROR_NOT_SUPPORTED ps) : K reply) k)) as Hno.
  { eexists _, _. split; [done|]. eapply (refused_effect _ _ _ _ nothing); [done|apply grown_refl|by intros ? ? ? []]. }
  unfold invoke_command. destruct cmd as [|c|c]; [done| |done].
  do 4 (try destruct c as [c|c|]); try done; apply Hrep;
    first [ by apply read_req_effect | by apply read_req_with_buffer_effect | by apply write_req_effect
          | by apply write_req_with_buffer_effect | apply get_data_effect
          | apply answered_effect; [done|]; auto using poll_frames, poll_subsignal_frames, overhead_frames ].
Qed.

(** The service loops leave the bases too. *)
Lemma serve_bases `{!StorageOk} w w' a : sim w a → rtc serve_step w w' → bases w'.1 = bases w.1.
Proof.
  intros Hsim Hs. revert a Hsim. induction Hs as [w|w w1 w2 Hst _ IH]; intros a Hsim; [done|].
  destruct (serve_step_sim _ _ _ Hsim Hst) as (a1&p&_&_&_&Hsim1). rewrite (IH a1 Hsim1). clear IH.
  destruct Hst as [p' o k k' pc Hp Hc E|p' k pc Hp Hb Hw|p' r v k k' pc Hp Hc E|p' r v k k' pc Hp Hc E]; cbn [fst].
  - destruct (frames_run _ _ _ _ _ _ (frames_loop_check p') E) as [[=] _]. unfold bases. congruence.
  - done.
  - pose proof (proj1 Hsim) as Hr. pose proof (rl_shape _ _ Hr) as Hk. pose proof (rl_heap _ _ Hr) as Hh. cbn [fst] in *.
    assert (a_pc a p' = LRun r) as Hpc by (by rewrite (proj2 Hsim)).
    destruct (ai_wait _ _ (rl_ainv _ _ Hr p' Hp) r) as [Hs Hph]; [unfold pending; rewrite Hpc; by left|].
    pose proof (rl_phase _ _ Hr p' (rq_signo r) Hp Hs) as Hok. rewrite Hph in Hok. destruct Hok as [Hb Hok].
    pose proof (handle_req_ok false k p' r ltac:(by split_and!) Hok (hw_live_false _ _) ltac:(discriminate)) as Hwp.
    unfold wp in Hwp. rewrite E in Hwp. destruct Hwp as (e&Heq&[Hf _]&_). destruct Hf as (E1&E2&E3&E4&_).
    unfold bases. congruence.
  - destruct (frames_run _ _ _ _ _ _ (frames_set_ready p' (rq_signo r)) E) as [[=] _]. unfold bases. congruence.
Qed.
End commands.

