(* ===== verification/TzioApp.v ===== *)
(** * Applications on the native library

    The native functions keep the invariant of the runtime's dispatch: every
    signal in use on a peripheral the application serves with handlers has a
    handler.  Functions that submit no request to such a peripheral keep it
    because they take no signal there; functions that do register the handler
    before they return. *)

From Stdlib Require Import ZArith Lia Bool Ascii String.
From stdpp Require Import base tactics option list strings numbers gmap.
From S2P Require Import Prelude Platform Params I2c Spi Sensors Tel0157 Pta PtaProofs IoReq IoState IoSignal IoSignalProofs.
From S2P Require Import IoHandlers IoHandlersProofs IoRefinement.
From S2P Require Import Runtime RuntimeScan RuntimeProofs AppMemory TeeApi Tzio TzioAsync TzioProofs TzioSafe Frames TzioNative.

Open Scope string_scope.
Open Scope Z_scope.

(** ** Systems with a bound on the signals in use

    [managed] are the peripherals the application uses with handlers; on them
    only the signals of [U] may be in use.  A system keeps this as long as no
    request is submitted there. *)
Section sealed.
Context {t : bool} {maxlen : Z} {W : Type} `{!TeeClient W, !TeeServices W, !IoHelper W, !TeeOk t maxlen anywhere W}.
Context (managed : Z → Prop) (U : Z → Z → Prop).

Definition within (w : W) : Prop := ∀ p q, in_periph p → in_sig q → managed p → io_sig w p q ≠ SigFree → U p q.
Lemma within_calmer w w' : calmer (io_sig w) (io_sig w') → within w → within w'.
Proof using. intros Hc Hw p q Hp Hq Hm Hs. destruct (Hc p q Hp Hq Hs) as [?|[]]. by apply Hw. Qed.

Definition sealed : IoHelper W.
Proof using All.
  refine {| io_ok := λ w, io_ok w ∧ within w; io_sig := io_sig |}.
  - intros w [Hw Hu]. destruct (io_open_ok w Hw) as (w'&E&Hw'&Hp). exists w'.
    split_and!; [done|done|by eapply within_calmer; [apply progress_calmer|]|done].
  - intros w p [Hw Hu] Hp. destruct (io_poll_ok w p Hw Hp) as (u&w'&E&Hw'&Hpr&Ha). exists u, w'.
    split_and!; [done|done|by eapply within_calmer; [apply progress_calmer|]|done|done].
  - intros w [Hw Hu]. destruct (io_malloc_ok w Hw) as (b&w'&E&Hw'&Hp). exists b, w'.
    split_and!; [done|done|by eapply within_calmer; [apply progress_calmer|]|done].
Defined.

Lemma stays_sealed w w' : within w → stays w w' → @stays W _ sealed w w'.
Proof using. intros Hu [Hw Hc]. split; [|done]. split; [done|by eapply within_calmer]. Qed.
Lemma law_plain {A} (f : M W A) w : within w → wp t f (λ _ w', stays w w') w → wp t f (λ _ w', @stays W _ sealed w w') w.
Proof using. intros Hu Hf. eapply wp_mono; [exact Hf|]. intros a w'. by apply stays_sealed. Qed.
Lemma law_fact {A} (f : M W A) (P : A → Prop) w : within w → wp t f (λ a w', stays w w' ∧ P a) w →
  wp t f (λ a w', @stays W _ sealed w w' ∧ P a) w.
Proof using. intros Hu Hf. eapply wp_mono; [exact Hf|]. intros a w' [? ?]. split; [by apply stays_sealed|done]. Qed.

Lemma sealed_ok : @TeeOk t maxlen (λ p, ¬ managed p) W _ _ sealed.
Proof using All.
  split; intros; match goal with H : @io_ok _ _ _ _ |- _ => destruct H as [Hw Hu] end.
  - by apply law_plain, ok_svc_open.
  - by apply law_fact, ok_svc_invoke.
  - eapply wp_mono; [apply (ok_tee_invoke (may:=anywhere)); [done|done|done|done|by intros ?; repeat case_match]|]. intros r w' (Hw'&Hn&Hk&Hs).
    split; [split; [done|]|by split_and!]. intros p q Hp Hq Hm Hg. destruct (Hn p q Hp Hq Hg) as [?|(Hc&_&(b&us&->)&_)]; [by apply Hu|].
    match goal with H : to_allowed _ _ _ |- _ => by destruct (H Hc) end.
  - by apply law_plain, ok_map.
  - by apply law_plain, ok_time.
  - by apply law_plain, ok_ta_malloc.
  - by apply law_plain, ok_obj_create.
  - by apply law_plain, ok_obj_open.
  - by apply law_plain, ok_obj_write.
  - by apply law_fact, ok_obj_info.
  - by apply law_fact, ok_obj_read.
  - by apply law_plain, ok_obj_close.
  - by apply law_plain, ok_obj_delete.
Qed.
End sealed.

(** ** The functions of the table by what they do with the runtime *)

(** The functions that register a handler. *)
Definition handles (name : string) : bool := existsb (λ e, String.eqb (fst e) name) handler_periphs.

(** What the runtime keeps of its own. *)
Definition rt_part {W} (s : rstate W) : list (list io_sigentry) * Z * Z * Z * list r_event :=
  (io_sigtable s, io_sigpending s, recover_io_sigpending s, in_handler s, r_log s).

Section frames.
Context {W : Type} `{!TeeClient W, !TeeServices W} (m : option module_inst) (fuel : nat).
Lemma lib_frames {A} (f : L W A) : frames rt_part (λ _, True) (lib f).
Proof using. intros s. unfold lib, sys_call, zoom. by destruct (f (r_world s)). Qed.

Definition plain_native (sym : NativeSymbol (W:=W)) : Prop := ∀ args f,
  handles (symbol sym) = false → apply_native (func_ptr sym) args = Some f → frames rt_part (λ _, True) f.
Lemma counter_frames addr get reset : frames rt_part (λ _, True) get → frames rt_part (λ _, True) reset →
  frames rt_part (λ _, True) (take_counter (W:=W) addr get reset).
Proof using. intros ? ?. unfold take_counter. repeat first [apply lib_frames | assumption | frames_step]; done. Qed.

Lemma plain_natives : Forall plain_native (native_symbols m fuel).
Proof using.
  unfold native_symbols. repeat (apply Forall_cons_2; [|]); [..|apply Forall_nil_2].
  all: let args := fresh "args" in let Hh := fresh "Hh" in intros args f Hh Ef.
  all: cbv beta iota delta [handles handler_periphs existsb fst String.eqb Ascii.eqb Bool.eqb symbol REG_NATIVE_FUNC orb] in Hh; try discriminate Hh.
  all: repeat (destruct args as [|? args]; cbv beta iota delta [apply_native func_ptr REG_NATIVE_FUNC to_native to_native_fun to_native_L to_native_T to_native_Z] in Ef;
    first [discriminate Ef | injection Ef as <- | idtac]).
  all: lazymatch goal with
    | |- frames _ _ (lib _) => apply lib_frames
    | |- frames _ _ (mret _) => by apply frames_ret
    | |- frames _ _ all_async_req_handled_wrapper => unfold all_async_req_handled_wrapper, all_signal_handled; repeat frames_step; done
    | |- frames _ _ ?g => let h := head_of g in unfold h; apply counter_frames; [done|by apply frames_modify; intros []]
    end.
Qed.
End frames.

(** ** The library's state with a memory of a given size *)

Definition app_sized {W} `{!TeeClient W, !IoHelper W} (n : nat) : IoHelper (app W).
Proof.
  refine {| io_ok := λ s, app_ok s ∧ (length <$> app_mem s) = Some n; io_sig := λ s, io_sig (app_sys s) |}.
  - intros s [Hs ?]. destruct (io_open_ok (H:=app_client) (IoHelper:=app_helper) s Hs) as (s'&E&?&?). exists s'. revert E. cbn. unfold on_sys, zoom.
    destruct (tee_open (app_sys s)); intros [= E1 E2]; subst. by split_and!.
  - intros s p [Hs ?] Hp. destruct (io_poll_ok (IoHelper:=app_helper) s p Hs Hp) as (u&s'&E&?&?&?). exists u, s'. revert E. cbn. unfold on_sys, zoom.
    destruct (tee_invoke _ _ _ (app_sys s)); intros [= E1 E2]; subst. by split_and!.
  - intros s [Hs ?]. destruct (io_malloc_ok (IoHelper:=app_helper) s Hs) as (b&s'&E&?&?). exists b, s'. revert E. cbn. unfold on_sys, zoom.
    destruct (runtime_malloc (app_sys s)); intros [= E1 E2]; subst. by split_and!.
Defined.

Section app.
Context {t : bool} {maxlen : Z} {W : Type} `{!TeeClient W, !TeeServices W, !IoHelper W, !TeeOk t maxlen anywhere W}.
Context (m : module_inst) (Hm : module_ok m) (n : nat) (managed : Z → Prop).
Implicit Type s : rstate (app W).
Abbreviation size_n := (app_sized (IoHelper0:=IoHelper0) n).
Abbreviation good_n := (good (H0:=size_n) m managed).
Abbreviation native_ok_n := (native_ok (H0:=size_n) m managed t).

(** The invariant of table and instances for another invariant of the system. *)
Lemma rt_switch (X Y : IoHelper (app W)) s : rt_wf (H0:=X) m s → io_ok (IoHelper:=Y) (r_world s) → rt_wf (H0:=Y) m s.
Proof using. intros [? ? ? ? ? ? ? ?] Hw. by split. Qed.

Lemma sized_mem s : good_n (in_handler s) s → app_ok (r_world s) ∧ ∃ mem, app_mem (r_world s) = Some mem ∧ length mem = n.
Proof using.
  intros [Hwf _ _]. destruct (rw_io _ _ Hwf) as [? Hl]. split; [done|]. destruct (app_mem (r_world s)) as [mem|]; [|done].
  exists mem. split; [done|]. by injection Hl.
Qed.
Lemma sized_touches (X : IoHelper W) ws (w w' : app W) : @touches W _ X ws w w' → (length <$> app_mem w) = Some n → (length <$> app_mem w') = Some n.
Proof using.
  intros [_ Hr]. destruct (app_mem w) as [mem|], (app_mem w') as [mem'|]; try done. cbn in *. by rewrite (so_length _ _ _ Hr).
Qed.

(** Functions that register no handler. *)
Lemma plain_ok fuel sym args f : sym ∈ native_symbols (Some m) fuel → handles (symbol sym) = false →
  apply_native (func_ptr sym) args = Some f → Forall word args →
  (∀ mem, length mem = n → native_pre maxlen (Some mem) (symbol sym) args) →
  may_request (λ p, ¬ managed p) (symbol sym) args → (t = true → waits (symbol sym) = false) → native_ok_n f.
Proof using Hm TeeOk0.
  intros Hsym Hh Ef Hargs Hpre Hmay Hwait h s Hg. pose proof Hg as [Hwf [Haw Hcov] <-].
  destruct (sized_mem s Hg) as (Hok&mem&Em&Hl). pose proof (rw_io _ _ Hwf) as [_ Hsize].
  set (U := λ p q, sig_now (H0:=size_n) s p q ≠ SigFree). set (S := sealed (t:=t) managed U).
  assert (app_ok (IoHelper0:=S) (r_world s)) as Hok'.
  { destruct Hok. split; [|done|done]. split; [done|]. by intros p q. }
  assert (rt_wf (H0:=app_helper (IoHelper0:=S)) m s) as Hwf' by (apply (rt_switch size_n); [exact Hwf|exact Hok']).
  pose proof (natives_safe (IoHelper0:=S) (TeeOk0:=sealed_ok managed U) m Hm fuel) as Hall. rewrite Forall_forall in Hall.
  pose proof (plain_natives (W:=W) (Some m) fuel) as Hpl. rewrite Forall_forall in Hpl.
  eapply wp_mono; [eapply (wp_frames rt_part); [by apply (Hpl sym Hsym args f)|apply (Hall sym Hsym args f s); try done]|].
  { rewrite Em. by apply Hpre. }
  cbn beta. intros r s' ([Hwf2 Ht]&E&_). injection E as E1 E2 E3 E4 E5. split; [|exists []; split; [constructor|done]].
  assert (awaiting s' = awaiting s) as Ea by (unfold awaiting; by rewrite E4, E2, E3).
  pose proof (proj1 Ht) as [[Hio Hin] Hby Hti]. split; [|split|done].
  - apply (rt_switch (app_helper (IoHelper0:=S))); [exact Hwf2|]. split; [by split|]. eapply sized_touches; [exact Ht|done].
  - intros p Hp. rewrite Ea. by apply Haw.
  - intros p q Hp Hq Hmp Hs. unfold handler, row. rewrite E1. apply (Hcov p q Hp Hq Hmp). by apply Hin.
Qed.

(** A request followed by the registration of its handler. *)
Lemma handled_native_ok p req h : 0 <= p < 63 → managed p → 0 < h → findable (H0:=size_n) m h →
  (∀ w mem, app_ok w → app_mem w = Some mem → length mem = n → request_ok (t:=t) [] p w req) →
  native_ok_n (handled (Some m) p req h).
Proof using Hm.
  intros Hp Hmp Hh Hf Hreq md s Hg. pose proof Hg as [Hwf [Haw Hcov] <-]. destruct (sized_mem s Hg) as (Hok&mem&Em&Hl).
  unfold handled. wp_steps. apply wp_zoom. eapply wp_mono; [by eapply Hreq|]. intros [res ps] w (Ht&Hq&Hnew). cbn [fst snd] in *.
  set (s1 := set_world w s). assert (rt_wf (H0:=size_n) m s1) as Hwf1.
  { apply (rt_wf_frame m s); try done; try apply Hwf. split; [apply Ht|]. eapply sized_touches; [exact Ht|]. by rewrite Em, <- Hl. }
  assert (∀ p' q', in_periph p' → in_sig q' → managed p' → sig_now (H0:=size_n) s1 p' q' ≠ SigFree →
    handler s1 p' q' ≠ FNull ∨ (p' = p ∧ res = TEE_SUCCESS ∧ ∃ b tl, ps = TValue q' b :: tl)) as Hcov1.
  { intros p' q' Hp' Hq' Hb Hs. destruct (Hnew p' q' Hp' Hq' Hs) as [?|?]; [left; by apply (Hcov p' q')|by right]. }
  case_match; wp_steps.
  { bool_props. split; [|by exists []; split; [constructor|]]. split; [done| |done]. split; [done|]. intros p' q' ????.
    by destruct (Hcov1 p' q') as [?|(_&?&_)]. }
  bool_props. destruct Hq as (q&b&tl&->&Hq); [done|]. apply wp_zoom. tget. change (set_world _ s1) with s1.
  eapply wp_mono; [apply wp_total, (register_covers (H0:=size_n) m managed s1 p q h); try done|].
  { split; [done|]. intros p' q' Hp' Hq' Hb Hne Hs. destruct (Hcov1 p' q' Hp' Hq' Hb Hs) as [?|(->&_&b'&tl'&[= ->])]; [done|].
    by destruct Hne. }
  intros r s2 (->&Hg2&Hlog). wp_steps. by split.
Qed.
(** The functions that submit a request and register its handler, which is
    their last argument. *)
Definition handled_periph (name : string) (args : list Z) : Z := assoc (λ _, 0) name handler_periphs args.

Definition handled_safe (sym : NativeSymbol (W:=W)) : Prop := ∀ args f,
  handles (symbol sym) = true → symbol sym ≠ "promise_set_callback" → apply_native (func_ptr sym) args = Some f → Forall word args →
  (∀ mem, length mem = n → native_pre maxlen (Some mem) (symbol sym) args) →
  managed (handled_periph (symbol sym) args) → 0 < List.last args 0 → findable (H0:=size_n) m (List.last args 0) → native_ok_n f.

Ltac handled_intro :=
  let args := fresh "args" in intros args f Hh Hname Ef Hargs Hpre Hmanaged Hlast Hfind;
  cbv beta iota delta [handles handler_periphs existsb fst String.eqb Ascii.eqb Bool.eqb symbol REG_NATIVE_FUNC orb] in Hh; try discriminate Hh;
  try (by destruct Hname);
  destruct (Hpre (replicate n 0) (length_replicate n 0)) as [Hperiph _ Hduty];
  repeat (destruct args as [|? args];
    cbv beta iota delta [apply_native func_ptr REG_NATIVE_FUNC to_native to_native_fun to_native_L to_native_T to_native_Z] in Ef;
    first [discriminate Ef | injection Ef as <- | idtac]);
  repeat rewrite Forall_cons in Hargs; destruct_and? Hargs;
  cbv beta iota delta [handled_periph assoc String.eqb Ascii.eqb Bool.eqb symbol REG_NATIVE_FUNC arg nth handler_periphs duties
    seven_bit flash_at eeprom_len List.last] in Hperiph, Hduty, Hmanaged, Hlast, Hfind; destruct_and? Hduty.
Ltac handled_solve :=
  lazymatch goal with |- native_ok _ _ _ ?f => let h := head_of f in unfold h end;
  apply handled_native_ok;
  [ first [match goal with |- 0 <= gpio_periph ?x < _ => pose proof (gpio_periph_range x) end
          |match goal with |- 0 <= i2c_periph ?x < _ => pose proof (i2c_periph_range x) end]; match goal with H : _ ≠ 63 |- _ => revert H; lia end
  | assumption | assumption | assumption
  | intros w mem ? ? ?; lazymatch goal with |- request_ok _ ?p _ _ => assert (anywhere p) by exact I end; solve_request ].
Lemma handled_natives fuel : Forall handled_safe (native_symbols (Some m) fuel).
Proof using Hm TeeOk0.
  unfold native_symbols. repeat (apply Forall_cons_2; [|]); [..|apply Forall_nil_2].
  all: handled_intro. all: handled_solve.
Qed.
End app.
