(* ===== verification/TeeKernel.v ===== *)
(** * The whole system below the application

    The kernel that runs the ten peripheral services and the I/O helper on
    the same devices, with its service loops, as the system the native library
    calls: it keeps the interface [TeeOk] the safety of the library was proved
    against.  Secure storage and the libraries of the trusted application stay
    a parameter ([TeeLibrary]). *)

From Stdlib Require Import ZArith Lia Bool.
From stdpp Require Import base tactics option list strings numbers gmap relations.
From S2P Require Import Prelude Platform Params I2c I2cProofs Spi SpiProofs W25qxx W25qxxProofs Sensors Tel0157 Pta PtaProofs.
From S2P Require Import IoReq IoState IoSignal IoSignalProofs IoSpec IoHandlers IoHandlersProofs IoHelper IoSystem IoRefinement IoService.
From S2P Require Import Runtime RuntimeScan RuntimeProofs RuntimeKernel AppMemory TeeApi Tzio TzioAsync TzioProofs Frames IoEffects.

Open Scope Z_scope.

(** ** The system *)

(** What the trusted application gets from its libraries: sessions, temporary
    memory, time, its heap and secure storage. *)
Class TeeLibrary (O : Type) := {
  ta_open : service → M O Z;
  ta_map_zi : Z → M O bool;
  ta_system_time : M O (Z * Z);
  ta_heap : Z → M O bool;
  ta_indeterminate : O → nat → Z;
  ta_create : list Z → Z → M O (Z * Z);
  ta_open_object : list Z → Z → M O (Z * Z);
  ta_write : Z → list Z → M O Z;
  ta_info : Z → M O (Z * Z);
  ta_read : Z → Z → Z → M O (Z * list Z * Z);
  ta_close : Z → M O unit;
  ta_delete : Z → M O unit
}.

Class TeeLibraryOk (t : bool) (O : Type) `{!TeeLibrary O} := {
  ta_ok : O → Prop;
  tl_open svc o : ta_ok o → wp t (ta_open svc) (λ _ o', ta_ok o') o;
  tl_map n o : ta_ok o → wp t (ta_map_zi n) (λ _ o', ta_ok o') o;
  tl_time o : ta_ok o → wp t ta_system_time (λ _ o', ta_ok o') o;
  tl_heap n o : ta_ok o → wp t (ta_heap n) (λ _ o', ta_ok o') o;
  tl_create id fl o : ta_ok o → wp t (ta_create id fl) (λ _ o', ta_ok o') o;
  tl_open_object id fl o : ta_ok o → wp t (ta_open_object id fl) (λ _ o', ta_ok o') o;
  tl_write h l o : ta_ok o → wp t (ta_write h l) (λ _ o', ta_ok o') o;
  tl_info h o : ta_ok o → wp t (ta_info h) (λ r o', ta_ok o' ∧ 0 <= r.2) o;
  tl_read h n c o : ta_ok o → 0 <= n → wp t (ta_read h n c) (λ r o', ta_ok o'
    ∧ Z.of_nat (length r.1.2) <= n ∧ (r.1.1 = TEE_SUCCESS → r.2 = Z.of_nat (length r.1.2))) o;
  tl_close h o : ta_ok o → wp t (ta_close h) (λ _ o', ta_ok o') o;
  tl_delete h o : ta_ok o → wp t (ta_delete h) (λ _ o', ta_ok o') o
}.

(** The kernel, the time stamps of the I2C service, and the libraries. *)
Record tee (O : Type) := Tee { te_sys : sys; te_idx : Z; te_time : list Z; te_lib : O }.
Arguments Tee {O}.
Arguments te_sys {O}.
Arguments te_idx {O}.
Arguments te_time {O}.
Arguments te_lib {O}.

Section system.
Context `{Env, Storage} {O : Type} `{!TeeLibrary O}.
Context (sched : sys → sys) (mem : sys → bool).

Definition set_te_sys (x : sys) (w : tee O) : tee O := Tee x (te_idx w) (te_time w) (te_lib w).
Definition set_te_lib (x : O) (w : tee O) : tee O := Tee (te_sys w) (te_idx w) (te_time w) x.
Definition on_lib {A} (m : M O A) : M (tee O) A := zoom te_lib set_te_lib m.

(** The services work on the devices the service loops use. *)
Definition te_svc (w : tee O) : i2c_svc := I2cSvc (k_d (te_sys w).1) (te_idx w) (te_time w).
Definition set_te_svc (v : i2c_svc) (w : tee O) : tee O :=
  Tee (set_k_d (is_d v) (te_sys w).1, (te_sys w).2) (benchmark_idx v) (benchmark_time v) (te_lib w).
Definition run_loops : M (tee O) unit := modify (λ w, set_te_sys (sched (te_sys w)) w).

Definition tee_client : TeeClient (tee O) := {|
  tee_open := run_loops;; mret TEE_SUCCESS;
  tee_invoke := λ cmd types ps, zoom te_sys set_te_sys (pta_invoke_io_helper sched cmd types ps);
  runtime_malloc := run_loops;; gets (λ w, mem (te_sys w))
|}.
Definition tee_services : TeeServices (tee O) := {|
  svc_open := λ svc, on_lib (ta_open svc);
  svc_invoke := λ svc cmd types ps, run_loops;; zoom te_svc set_te_svc (pta_invoke svc cmd types ps);
  tee_map_zi := λ n, on_lib (ta_map_zi n);
  tee_system_time := on_lib ta_system_time;
  ta_malloc := λ n, on_lib (ta_heap n);
  indeterminate := λ w, ta_indeterminate (te_lib w);
  obj_create := λ id fl, on_lib (ta_create id fl);
  obj_open := λ id fl, on_lib (ta_open_object id fl);
  obj_write := λ h l, on_lib (ta_write h l);
  obj_info := λ h, on_lib (ta_info h);
  obj_read := λ h n c, on_lib (ta_read h n c);
  obj_close := λ h, on_lib (ta_close h);
  obj_delete := λ h, on_lib (ta_delete h)
|}.

(** ** Its invariant *)
Context (t : bool) (maxlen : Z) (Hmax : 0 <= maxlen) `{!StorageOk, !TeeLibraryOk t O}.
Context (Hsched : ∀ w, rtc serve_step w (sched w)).

Record tee_ok (w : tee O) : Prop := {
  tk_sim : ∃ a, sim (te_sys w) a;
  tk_devices : pta_ready t maxlen (k_d (te_sys w).1);
  tk_bench : bench_ok (te_svc w);
  tk_lib : ta_ok (te_lib w)
}.

Lemma ready_bases (k k' : kstate) : k_shape k' → bases k' = bases k →
  pta_ready t maxlen (k_d k) → pta_ready t maxlen (k_d k').
Proof using.
  intros (_&_&_&_&_&_&_&_&_&_&Hwf&Hh) E [_ _ Hi Hp Hs]. unfold bases in E. injection E as E1 E2 E3 E4.
  assert (∀ r, spi_addr (k_d k') r = spi_addr (k_d k) r) as Es by (intros; unfold spi_addr; by rewrite E3).
  split; [done|done| |by rewrite E1, !Es|].
  - intros dev. unfold i2c_live, bsc_addr in *. rewrite E2. apply Hi.
  - unfold flash_live in *. rewrite !Es, E4. exact Hs.
Qed.

Lemma loops_ok w : tee_ok w → wp t run_loops (λ _ w', tee_ok w' ∧ progress (sig_of (te_sys w).1) (sig_of (te_sys w').1)
  ∧ te_lib w' = te_lib w) w.
Proof using All.
  intros [[a Hsim] Hd Hb Hl]. unfold run_loops. wp_steps. cbn [te_sys set_te_sys].
  destruct (serve_sim _ _ a Hsim (Hsched (te_sys w))) as (a'&Hsim'&Hp). split_and!; [|done|done].
  split; [by exists a'| |done|done]. cbn [te_sys set_te_sys]. eapply ready_bases; [apply (rl_shape _ _ (proj1 Hsim'))| |exact Hd].
  by eapply serve_bases.
Qed.

(** A command of the I/O helper after the loops ran. *)
Lemma command_tee_ok w k' pc a' : tee_ok w → (∀ k pc, sched (te_sys w) = (k, pc) → bases k' = bases k) →
  sim (k', pc) a' → tee_ok (set_te_sys (k', pc) w).
Proof using All.
  intros Hw Hb Hsim. destruct Hw as [[a Hs] Hd Hbe Hl]. split; [by exists a'| |done|done]. cbn [te_sys set_te_sys fst].
  destruct (sched (te_sys w)) as [k0 pc0] eqn:E. destruct (serve_sim _ _ a Hs (Hsched (te_sys w))) as (a0&Hsim0&_).
  assert (pta_ready t maxlen (k_d k0)) as Hd0.
  { eapply ready_bases; [| |exact Hd]; [|transitivity (bases (sched (te_sys w)).1); [by rewrite E|by eapply serve_bases]].
    rewrite E in Hsim0. apply (rl_shape _ _ (proj1 Hsim0)). }
  eapply ready_bases; [apply (rl_shape _ _ (proj1 Hsim))|by eapply Hb|done].
Qed.

Lemma poll_tee w p : tee_ok w → in_periph p →
  ∃ u w', zoom te_sys set_te_sys (pta_invoke_io_helper sched PTA_IO_HELPER_CMD_POLL poll_types [UValue p 0; UNone; UNone; UNone]) w
            = Ok (TEE_SUCCESS, [u; UNone; UNone; UNone]) w'
    ∧ tee_ok w' ∧ progress (sig_of (te_sys w).1) (sig_of (te_sys w').1) ∧ polled_as (sig_of (te_sys w').1 p) u.
Proof using All.
  intros Hw Hp. pose proof Hw as [[a Hs] _ _ _]. destruct (serve_sim _ _ a Hs (Hsched (te_sys w))) as (a0&Hsim0&Hpr).
  unfold zoom, pta_invoke_io_helper. destruct (sched (te_sys w)) as [k pc] eqn:E.
  destruct (poll_sim k a0 p (proj1 Hsim0) Hp) as (u&k'&Ei&Hr'&Hsame&Hu). rewrite Ei. exists u, (set_te_sys (k', pc) w).
  split_and!; [done| | |exact Hu].
  - apply (command_tee_ok w k' pc a0); [done| |by split; [|apply Hsim0]]. intros k0 pc0 E0. rewrite E in E0. injection E0 as <- <-.
    pose proof (invoke_effect PTA_IO_HELPER_CMD_POLL poll_types _ k ltac:(done) (params_head _ _ (poll_params p Hp))) as He.
    rewrite Ei in He. destruct He as (?&?&_&He). apply (gw_bases _ _ _ (ef_grown _ _ _ _ _ He)).
  - etrans; [exact Hpr|]. intros q s Hq Hss. left. by apply Hsame.
Qed.

Definition tee_helper : IoHelper (tee O) (H:=tee_client).
Proof using All.
  refine {| io_ok := tee_ok; io_sig := λ w, sig_of (te_sys w).1 |}.
  - intros w Hw. destruct (loops_ok w Hw) as (Hw'&Hp&_). by eexists.
  - intros w p Hw Hp. by apply poll_tee.
  - intros w Hw. destruct (loops_ok w Hw) as (Hw'&Hp&_). by eexists _, _.
Defined.

Lemma invoke_tee_ok cmd types ps w : tee_ok w → params_ok types ps → cmd ≠ 0 → client_ok cmd ps →
  wp t (zoom te_sys set_te_sys (pta_invoke_io_helper sched cmd types ps)) (λ r w', tee_ok w'
    ∧ new_only (takes_signal cmd ps r) (sig_of (te_sys w).1) (sig_of (te_sys w').1) ∧ same_kinds ps r.2
    ∧ (submits cmd = true → r.1 = TEE_SUCCESS → ∃ q b us, r.2 = UValue q b :: us ∧ in_sig q)) w.
Proof using All.
  intros Hw Hps Hc Hcl. apply wp_zoom. pose proof Hw as [[a Hs] _ _ _].
  destruct (serve_sim _ _ a Hs (Hsched (te_sys w))) as (a0&Hsim0&Hpr).
  unfold wp, pta_invoke_io_helper. destruct (sched (te_sys w)) as [k pc] eqn:E.
  pose proof (invoke_ok cmd types ps k a0 (proj1 Hsim0) Hps Hcl) as Hi. unfold wp in Hi.
  pose proof (invoke_effect cmd types ps k Hc (params_head _ _ Hps)) as He.
  destruct (invoke_command cmd types ps k) as [r k'|u|]; [|done|done].
  destruct He as (res&ps'&->&[Hk Hsub Hg]). split_and!; [|by eapply new_only_before; [apply progress_calmer|apply grown_signals]|done|done].
  destruct Hi as (a'&Hst&Hpc&Hr'). apply (command_tee_ok w k' pc a'); [done| |].
  - intros k0 pc0 E0. rewrite E in E0. injection E0 as <- <-. apply Hg.
  - split; [done|]. rewrite Hpc. apply Hsim0.
Qed.

Lemma reply_kinds types ps ps' : params_ok types ps → reply_ok types ps ps' → same_kinds ps ps'.
Proof using.
  assert (∀ ty u u', param_ok ty u → answer_ok ty u u' → same_kind u u') as Hone.
  { intros ty u u' Hu. unfold answer_ok. case_match; [|intros ->; reflexivity]. intros [Hu' _]. revert Hu Hu'. unfold param_ok.
    repeat case_match; try done; first [by intros -> ->|by intros (?&?&->&_) (?&?&->&_)]. }
  destruct ps as [|u0 [|u1 [|u2 [|u3 []]]]]; try done. destruct ps' as [|v0 [|v1 [|v2 [|v3 []]]]]; try done.
  intros (?&?&?&?) (?&?&?&?). repeat constructor; by eapply Hone.
Qed.

Lemma svc_tee_ok svc cmd types ps w : tee_ok w → params_ok types ps → pta_client_ok maxlen svc cmd ps →
  wp t (run_loops;; zoom te_svc set_te_svc (pta_invoke svc cmd types ps)) (λ r w', (tee_ok w'
    ∧ calmer (sig_of (te_sys w).1) (sig_of (te_sys w').1)) ∧ same_kinds ps r.2) w.
Proof using All.
  intros Hw Hps Hcl. wp_steps. eapply wp_mono; [by apply loops_ok|]. intros [] w1 (Hw1&Hpr&_). apply wp_zoom.
  pose proof Hw1 as [[a Hs] Hd Hb Hl]. eapply wp_mono; [by apply (pta_invoke_ok t maxlen)|].
  intros r v [(Hk&_&Hrep) Hb']. split; [|by eapply reply_kinds]. split; [|by apply progress_calmer]. clear Hpr.
  destruct (te_sys w1) as [k pc] eqn:Ew.
  split; unfold set_te_svc; cbn [te_sys te_lib fst snd]; rewrite ?Ew; cbn [fst snd].
  - exists a. split; [|apply Hs]. eapply rel_upto; [|exact (proj1 Hs)]. exists (is_d v). split; [|done].
    unfold te_svc in Hk. by rewrite Ew in Hk.
  - eapply pta_ready_kept; [|exact Hd]. unfold te_svc in Hk. rewrite Ew in Hk. exact Hk.
  - exact Hb'.
  - exact Hl.
Qed.

Lemma lib_tee_ok {A} (m : M O A) (P : A → Prop) w : tee_ok w → (ta_ok (te_lib w) → wp t m (λ a o', ta_ok o' ∧ P a) (te_lib w)) →
  wp t (on_lib m) (λ a w', (tee_ok w' ∧ calmer (sig_of (te_sys w).1) (sig_of (te_sys w').1)) ∧ P a) w.
Proof using.
  intros [? ? ? Hl] Hm. apply wp_zoom. eapply wp_mono; [by apply Hm|]. intros a o' [? ?]. by split; [split; [split|]|].
Qed.
Lemma lib_tee_plain {A} (m : M O A) w : tee_ok w → (ta_ok (te_lib w) → wp t m (λ _ o', ta_ok o') (te_lib w)) →
  wp t (on_lib m) (λ _ w', tee_ok w' ∧ calmer (sig_of (te_sys w).1) (sig_of (te_sys w').1)) w.
Proof using.
  intros Hw Hm. eapply wp_mono; [apply (lib_tee_ok m (λ _, True)); [done|]|by intros ? ? [? _]].
  intros Hl. eapply wp_mono; [by apply Hm|]. by intros.
Qed.

(** The system keeps the interface. *)
Lemma tee_services_ok : @TeeOk t maxlen anywhere (tee O) tee_client tee_services tee_helper.
Proof using All.
  split; intros; unfold stays; cbn in *; try (apply lib_tee_plain; [done|intros ?]).
  - by apply tl_open.
  - by apply svc_tee_ok.
  - by apply invoke_tee_ok.
  - by apply tl_map.
  - by apply tl_time.
  - by apply tl_heap.
  - by apply tl_create.
  - by apply tl_open_object.
  - by apply tl_write.
  - apply lib_tee_ok; [done|]. by apply tl_info.
  - apply lib_tee_ok; [done|]. intros. by apply tl_read.
  - by apply tl_close.
  - by apply tl_delete.
Qed.
End system.
