(* ===== verification/TzioTheorems.v ===== *)
(** * Main theorems on the native library

    What an application can do through its native functions: all of them at
    once, for any system with the interface [TeeOk] and for the kernel with
    its services and I/O helper. *)

From Stdlib Require Import ZArith Lia Bool Ascii String.
From stdpp Require Import base tactics option list strings numbers gmap relations.
From S2P Require Import Prelude Platform Params I2c I2cProofs Spi Sensors Tel0157 Pta PtaProofs PtaTheorems.
From S2P Require Import IoReq IoState IoSignal IoSignalProofs IoSpec IoHandlers IoHandlersProofs IoHelper IoSystem IoRefinement IoService ServiceTheorems.
From S2P Require Import Runtime RuntimeScan RuntimeProofs RuntimeKernel RuntimeTheorems.
From S2P Require Import AppMemory TeeApi Tzio TzioAsync TzioProofs TzioSafe Frames TzioNative TzioPointers TeeKernel.

Open Scope string_scope.
Open Scope Z_scope.

(** ** Fat pointers *)

Lemma sign_get addr sg tag : word addr → word sg → word tag → let p := sign_ptr_wrapper addr sg tag in
  word p ∧ clear_signature_and_tag p = addr mod 2 ^ 17 ∧ get_tag p = tag mod 2 ^ 7 ∧ get_signature p = sg mod 2 ^ 8.
Proof.
  intros Ha Hs Ht p. unfold word in *. assert (p = addr mod 2 ^ 17 + (tag mod 2 ^ 7) * 2 ^ 17 + (sg mod 2 ^ 8) * 2 ^ 24) as Ep
    by (apply sign_fields; lia).
  pose proof (Z.mod_pos_bound addr (2 ^ 17)). pose proof (Z.mod_pos_bound tag (2 ^ 7)). pose proof (Z.mod_pos_bound sg (2 ^ 8)).
  assert (0 <= p < 2 ^ 32) as Hp by lia. destruct (fat_fields p Hp) as [E Hlt]. pose proof (clear_range p) as Hc.
  pose proof (u8_range (Z.shiftr (Z.land p FAT_PTR_TAG_MASK) 17)). fold (get_tag p) in *.
  pose proof (u8_range (Z.shiftr (Z.land p FAT_PTR_SIGNATURE_MASK) 24)). fold (get_signature p) in *. split; [done|]. lia.
Qed.

(** C34: Signing keeps the low 17 bits of an address, seven bits of the tag
    and eight of the signature, each of which can be read back; a word passes
    the check exactly when it is the signed pointer of its address, so an
    address has one accepted pointer, which sign_ptr gives to every caller
    that knows the two constants. *)
Theorem fat_pointer_roundtrip :
  (∀ addr sg tag, word addr → word sg → word tag → let p := sign_ptr_wrapper addr sg tag in
     word p ∧ clear_signature_and_tag p = addr mod 2 ^ 17 ∧ get_tag p = tag mod 2 ^ 7 ∧ get_signature p = sg mod 2 ^ 8)
  ∧ (∀ p, word p → check_ptr_signed p = true ↔ p = signed_ptr (clear_signature_and_tag p))
  ∧ (∀ addr, 0 <= addr < 2 ^ 17 → check_ptr_signed (signed_ptr addr) = true
       ∧ clear_signature_and_tag (signed_ptr addr) = addr ∧ signed_ptr addr ≠ 0).
Proof.
  split; [apply sign_get|]. split.
  - intros p Hp. split; [by apply check_signed|]. intros ->. apply signed_ok, clear_range.
  - intros addr Ha. destruct (signed_ok addr Ha) as (Hc&Hcl&_). split_and!; [done|done|]. intros E. by rewrite E in Hc.
Qed.

(** ** Promises *)

(** A promise gives back its peripheral and its sub-signal, is not
    negative, and no TEE error code (a word from 0x80000000 on) is taken for
    the promise of a peripheral: peripherals are below 64. *)
Theorem promise_roundtrip :
  (∀ p q, in_periph p → in_sig q → let w := promise_of p q in
     word w ∧ 0 <= i32 w ∧ promise_periph w = p ∧ promise_sub w = q)
  ∧ (∀ e, 2 ^ 31 <= e < 2 ^ 32 → N_SESS <= promise_periph e).
Proof.
  assert (∀ x y, 0 <= y < 2 ^ 16 → - 2 ^ 15 <= x < 2 ^ 15 →
    u16 (Z.shiftr (x * 2 ^ 16 + y) 16) = x mod 2 ^ 16 ∧ u16 (Z.land (x * 2 ^ 16 + y) 0xFFFF) = y) as Hsplit.
  { intros x y Hy Hx. change 0xFFFF with (Z.ones 16). rewrite Z.land_ones, Z.shiftr_div_pow2 by lia. unfold u16.
    rewrite Z.div_add_l, Z.div_small, Z.add_0_r by lia. split; [done|].
    rewrite Z.mod_mod, Z.add_comm, Z.mod_add, Z.mod_small by lia. done. }
  split.
  - intros p q Hp Hq w. unfold in_periph, N_PERIPH, in_sig, N_SUB_SIG in *.
    assert (w = p * 2 ^ 16 + q) as Ew.
    { unfold w, promise_of. change 0xFFFF with (Z.ones 16). rewrite Z.land_ones, (Z.mod_small q) by lia.
      rewrite lor_shiftl_add by lia. lia. }
    assert (i32 w = w) as Ei by (unfold i32, signed; rewrite Z.mod_small; lia).
    unfold promise_periph, promise_sub, word. rewrite Ei, Ew. destruct (Hsplit p q) as [-> ->]; [lia|lia|].
    rewrite Z.mod_small by lia. split_and!; lia.
  - intros e He. unfold promise_periph. assert (i32 e = e - 2 ^ 32) as ->.
    { unfold i32, signed. replace (e + 2 ^ (32 - 1)) with ((e - 2 ^ 31) + 1 * 2 ^ 32) by lia. rewrite Z.mod_add, Z.mod_small by lia. lia. }
    rewrite Z.shiftr_div_pow2 by lia. pose proof (Z.div_mod (e - 2 ^ 32) (2 ^ 16)). pose proof (Z.mod_pos_bound (e - 2 ^ 32) (2 ^ 16)).
    set (d := (e - 2 ^ 32) / 2 ^ 16) in *. unfold u16. replace d with ((d + 2 ^ 16) + (-1) * 2 ^ 16) by lia.
    rewrite Z.mod_add, Z.mod_small by lia. unfold N_SESS. lia.
Qed.

(** ** Every native function stays within its arguments *)

Lemma may_anywhere name args : may_request anywhere name args.
Proof.
  unfold may_request. assert (Forall (λ e, ∀ args, e.2 args) (request_duties anywhere)) as Hall by (by repeat constructor).
  induction Hall as [|[n f] l Hf _ IH]; cbn [assoc]; [done|]. case_match; [apply Hf|done].
Qed.

Lemma native_call_ok {t maxlen may W} `{TeeOk t maxlen may W} m fuel sym args f (s : rstate (app W)) mem :
  module_ok m → rt_wf m s → app_mem (r_world s) = Some mem →
  sym ∈ native_symbols (Some m) fuel → apply_native (func_ptr sym) args = Some f → Forall word args →
  native_pre maxlen (Some mem) (symbol sym) args → may_request may (symbol sym) args → (t = true → waits (symbol sym) = false) →
  wp t f (λ _ s', rt_wf m s' ∧ ∃ mem', app_mem (r_world s') = Some mem' ∧ Forall byte mem'
    ∧ same_outside (windows (symbol sym) (Some mem) args) mem mem') s.
Proof.
  intros Hm Hwf Em Hsym Ef Hargs Hpre Hmay Hwait. pose proof (natives_safe m Hm fuel) as Hall.
  rewrite Forall_forall in Hall. rewrite <- Em in Hpre. eapply wp_mono; [by apply (Hall sym Hsym args f s)|].
  intros r s' [Hwf' [Hok Hrel]]. split; [done|]. rewrite Em in Hrel. destruct (app_mem (r_world s')) as [mem'|] eqn:Em'; [|done].
  exists mem'. split_and!; [done|by apply (ao_bytes _ Hok)|done].
Qed.

(** C4: A native function called with any words that meet its duties
    (native_pre): no undefined behaviour; the signal table of the runtime and
    the state of the system stay consistent; the application's memory keeps
    its size, and no byte of it changes outside the ranges the function's
    arguments designate, whatever the devices, the services and secure storage
    answer. With t = true it also returns, unless it is one of the two
    functions that wait for a result. The duties, all of which the code leaves
    to its caller: w25qxx_read_id is not called at all; the flash functions
    name SPI bus 0 and one of its chip selects, and read or program at most
    maxlen bytes; a block transfer on SPI is of at most maxlen bytes each way,
    and an asynchronous one sends at least one byte and receives none or no
    fewer than it sends; I2C reads and writes other than the asynchronous
    plain reads use 7-bit addresses; an asynchronous I2C write is not empty;
    an EEPROM write has fewer than 65534 bytes, and at least one if it is
    asynchronous; no handler is set for peripheral 63; and read_secure_object
    has eight bytes of room at its count, which the code validates as four. *)
Theorem natives_sandboxed {t maxlen W} `{TeeOk t maxlen anywhere W} m fuel sym args f (s : rstate (app W)) mem :
  module_ok m → rt_wf m s → app_mem (r_world s) = Some mem →
  sym ∈ native_symbols (Some m) fuel → apply_native (func_ptr sym) args = Some f → Forall word args →
  native_pre maxlen (Some mem) (symbol sym) args → (t = true → waits (symbol sym) = false) →
  wp t f (λ _ s', rt_wf m s' ∧ ∃ mem', app_mem (r_world s') = Some mem' ∧ Forall byte mem'
    ∧ same_outside (windows (symbol sym) (Some mem) args) mem mem') s.
Proof. intros. by apply (native_call_ok (may:=anywhere) m fuel sym); [..|apply may_anywhere|]. Qed.

(** ** Calls one after the other *)

Section session.
Context {W : Type} `{!TeeClient W, !TeeServices W} (m : option module_inst) (fuel : nat).

(** The function an import of the module is linked to. *)
Definition linked (name : string) (args : list Z) : option (T (W:=W) Z) :=
  sym ← find (λ sym, String.eqb (symbol sym) name) (native_symbols m fuel); apply_native (func_ptr sym) args.

(** The results of the calls, in order; what is not linked is not called. *)
Fixpoint call_natives (calls : list (string * list Z)) : T (W:=W) (list Z) :=
  match calls with
  | [] => mret []
  | (name, args) :: calls =>
      match linked name args with
      | Some f => r ← f; rs ← call_natives calls; mret (r :: rs)
      | None => call_natives calls
      end
  end.
End session.

Definition call_pre (t : bool) (maxlen : Z) (mem : linear) (c : string * list Z) : Prop :=
  Forall word c.2 ∧ native_pre maxlen (Some mem) c.1 c.2 ∧ (t = true → waits c.1 = false).

(** The duties depend on the size of the memory only. *)
Lemma native_pre_length maxlen mem mem' name args : length mem' = length mem →
  native_pre maxlen (Some mem) name args → native_pre maxlen (Some mem') name args.
Proof.
  intros Hl [Hp Hc Hd]. split; [done| |done]. revert Hc. cbn [assoc]. case_match; [|done]. unfold count_fits. by rewrite Hl.
Qed.

Lemma call_natives_ok {t maxlen W} `{TeeOk t maxlen anywhere W} m fuel calls (s : rstate (app W)) mem :
  module_ok m → rt_wf m s → app_mem (r_world s) = Some mem → Forall (call_pre t maxlen mem) calls →
  wp t (call_natives (Some m) fuel calls) (λ _ s', rt_wf m s' ∧ ∃ mem', app_mem (r_world s') = Some mem'
    ∧ Forall byte mem' ∧ length mem' = length mem) s.
Proof.
  intros Hm. revert s mem. induction calls as [|[name args] calls IH]; intros s mem Hwf Em Hc; cbn [call_natives].
  { wp_steps. split; [done|]. exists mem. split_and!; [done| |done]. apply (ao_bytes (r_world s)); [|done]. apply Hwf. }
  apply Forall_cons in Hc as [(Hw&Hpre&Hwait) Hc]. cbn [fst snd] in *. unfold linked.
  destruct (find _ _) as [sym|] eqn:Ef; cbn [mbind option_bind]; [|by apply IH].
  apply find_some in Ef as [Hin%list_elem_of_In En%String.eqb_eq]. subst name.
  destruct (apply_native _ _) as [f|] eqn:Ea; [|by apply IH]. wp_steps.
  eapply wp_mono; [eapply (native_call_ok (may:=anywhere) m fuel sym args f s mem); try done; apply may_anywhere|]. cbn beta.
  intros r s1 (Hwf1&mem1&Em1&_&[Hl _]). wp_steps. eapply wp_mono; [apply (IH s1 mem1); [done|done|]|].
  - eapply Forall_impl; [exact Hc|]. intros c (?&?&?). split_and!; [done| |done]. by eapply native_pre_length.
  - intros rs s2 (Hwf2&mem2&Em2&Hb&Hl2). wp_steps. split; [done|]. exists mem2. split_and!; [done|done|congruence].
Qed.

(** ** Application, runtime, library, services and I/O helper together *)

Section stack.
Context `{Env, Storage, !StorageOk} {O : Type} `{!TeeLibrary O} (t : bool) `{!TeeLibraryOk t O}.
Context (maxlen : Z) (Hmax : 0 <= maxlen) (sched : sys → sys) (Hsched : ∀ w, rtc serve_step w (sched w)) (alloc : sys → bool).

(** C3: From a start with any memory, any sequence of native calls with any
    32-bit arguments (within the duties the services leave to their clients),
    on the kernel with all peripheral services, the I/O helper and its service
    loops, which run between any two system calls: no undefined behaviour
    anywhere; at the end the signals, queues and results of the I/O helper
    agree with its specification, every bus and queue lock is given back, the
    runtime's signal table and function instances agree, and the application's
    memory has its size. *)
Theorem full_stack_safe m fuel calls (w : tee O) mem : module_ok m → tee_ok t maxlen w → Forall byte mem →
  Forall (call_pre t maxlen mem) calls →
  wp t (call_natives (TeeClient0:=tee_client sched alloc) (TeeServices0:=tee_services sched) (Some m) fuel calls)
    (λ _ s', let w' := app_sys (r_world s') in
       rt_wf (H0:=app_helper (IoHelper0:=tee_helper sched alloc t maxlen Hmax Hsched)) m s'
       ∧ (∃ a, sim (te_sys w') a) ∧ d_held (k_d (te_sys w').1) = ∅
       ∧ ∃ mem', app_mem (r_world s') = Some mem' ∧ Forall byte mem' ∧ length mem' = length mem)
    (r_init (app_init w (Some mem))).
Proof.
  intros Hm Hw Hb Hc. set (s0 := r_init _).
  assert (app_ok (IoHelper0:=tee_helper sched alloc t maxlen Hmax Hsched) (r_world s0)) as Hok.
  { split; [exact Hw|by intros ? [= <-]|done]. }
  destruct (rt_wf_init (H0:=app_helper (IoHelper0:=tee_helper sched alloc t maxlen Hmax Hsched)) m (λ _, False) (r_world s0) Hok
    ltac:(done)) as [Hwf _].
  eapply wp_mono; [apply (call_natives_ok (H:=tee_services_ok sched alloc t maxlen Hmax Hsched) m fuel calls s0 mem); done|].
  intros rs s' (Hwf'&Hmem). split; [done|]. pose proof (rw_io _ _ Hwf') as [[[a Hsim] _ _ _] _ _]. split_and!; [by exists a| |done].
  apply (rl_shape _ _ (proj1 Hsim)).
Qed.
End stack.

(** ** Calls that are refused *)

(** C28: The table pointers gives for each native function its pointer
    arguments and how each is checked: for the library's signature, for the
    signature unless it is null, or (the two overhead functions,
    get_benchmark_time and the three counters) not at all. A function without
    an entry there works the same whatever the application's memory holds and
    leaves it alone. A function given a pointer that its check does not let
    through answers ACCESS_DENIED (BAD_PARAMETERS if get_async_data_promise
    finds the promise out of range first) and changes nothing at all: no
    system call, no memory, no exception. *)
Theorem unsigned_pointers_refused `{!TeeClient W, !TeeServices W} m fuel sym args f (s : rstate (app W)) :
  sym ∈ native_symbols m fuel → apply_native (func_ptr sym) args = Some f →
  (pointers_of (symbol sym) = [] → ∀ mem, alike (swap_memory mem) f)
  ∧ (unsigned (symbol sym) args = true →
     f s = Ok (if limits_first (symbol sym) && beyond_limit (symbol sym) args then TEE_ERROR_BAD_PARAMETERS else TEE_ERROR_ACCESS_DENIED) s).
Proof.
  intros Hsym Ef. split.
  - intros Hp mem. pose proof (all_blind (W:=W) mem m fuel) as Hall. rewrite Forall_forall in Hall. by eapply Hall.
  - intros Hu. pose proof (all_refuse_unsigned (W:=W) m fuel) as Hall. rewrite Forall_forall in Hall. by eapply Hall.
Qed.

(** C29: The table ranges gives for each native function all memory it reads
    or writes for its caller, with the lengths the code validates (four bytes
    for a count, and as many as the count says for the data behind it). A
    function whose pointers passed their checks and one of whose ranges is not
    within the application's memory (or wraps around) refuses: with
    BAD_PARAMETERS and no effect if its bus, session or index number is beyond
    the limit it checks first, otherwise with ACCESS_DENIED and the out-of-
    bounds exception left in the module. Nothing else changes: no system call
    is made and no memory is written. *)
Theorem outside_ranges_refused `{!TeeClient W, !TeeServices W} m fuel sym args f (s : rstate (app W)) :
  sym ∈ native_symbols m fuel → apply_native (func_ptr sym) args = Some f → unsigned (symbol sym) args = false →
  outside (app_mem (r_world s)) (symbol sym) args = true →
  f s = if beyond_limit (symbol sym) args then Ok TEE_ERROR_BAD_PARAMETERS s
        else Ok TEE_ERROR_ACCESS_DENIED (set_world (set_app_exception true (r_world s)) s).
Proof. intros Hsym Ef Hu Hr. pose proof (all_refuse_outside (W:=W) m fuel) as Hall. rewrite Forall_forall in Hall. by eapply Hall. Qed.

(** ** The register that is not written *)
Section write_regs.
Context `{Env}.
Definition with_params {S} (ps : uparams) (o : outcome S (Z * uparams)) : outcome S (Z * uparams) :=
  match o with Ok (r, _) s => Ok (r, ps) s | Undef u => Undef u | OutOfFuel => OutOfFuel end.

Lemma write_bytes_ignores a b flags x buf n (v : i2c_svc) :
  let ps y := [UValue a b; UValue flags y; UMemref buf n; UNone] in
  let types := TEE_PARAM_TYPES VALUE_IN VALUE_IN MEM_IN NONE in
  pta_invoke I2C_SERVICE PTA_I2C_WRITE_BYTES types (ps x) v = with_params (ps x) (pta_invoke I2C_SERVICE PTA_I2C_WRITE_BYTES types (ps 0) v).
Proof.
  intros ps types.
  assert (∀ y, pta_invoke I2C_SERVICE PTA_I2C_WRITE_BYTES types (ps y) v = on_driver (i2c_section (ps y) (i2c_t a)
    (i2c_write_bytes (i2c_t a) (u16 b) (Some buf) n (u8 flags)) (λ res, mret (res, ps y))) v) as E by done.
  rewrite !E. unfold on_driver, zoom, i2c_section, mbind, M_bind.
  destruct (i2c_acquire (i2c_t a) (is_d v)) as [r d1| |]; [|done|done]. destruct (negb _); [done|].
  destruct (i2c_write_bytes _ _ _ _ _ d1) as [res d2| |]; [|done|done]. by destruct (i2c_release _ d2).
Qed.

Context `{Storage} {O : Type} `{!TeeLibrary O} (sched : sys → sys) (alloc : sys → bool).
#[local] Instance stack_client : TeeClient (tee O) := tee_client sched alloc.
#[local] Instance stack_services : TeeServices (tee O) := tee_services sched.

Lemma invoke_result svc cmd types ps ps' (s : app (tee O)) :
  (∀ s, result (TEE_InvokeTACommand (svc_invoke svc) cmd types ps) s = result (TEE_InvokeTACommand (svc_invoke svc) cmd types ps') s) →
  result (invoke_pta svc cmd types ps) s = result (invoke_pta svc cmd types ps') s.
Proof.
  unfold result, invoke_pta, mbind, M_bind, gets. intros Hr. destruct (app_sess s svc).
  - unfold mret, M_ret. rewrite Z.eqb_refl. apply Hr.
  - destruct (on_sys (svc_open svc) s) as [r s1| |]; [|done|done]. destruct (Z.eqb_spec r TEE_SUCCESS) as [->|Hne]; cbn [negb].
    + unfold modify, mret, M_ret. rewrite Z.eqb_refl. apply Hr.
    + unfold mret, M_ret. by rewrite (proj2 (Z.eqb_neq r TEE_SUCCESS)).
Qed.

Lemma copy_write a b flags y p n (s : app (tee O)) :
  copy_params (TEE_PARAM_TYPES VALUE_IN VALUE_IN MEM_IN NONE) 0 [TValue a b; TValue flags y; TMemref p n; TNone] s
  = match copy_param MEM_IN (TMemref p n) s with
    | Ok u s1 => Ok [UValue a b; UValue flags y; u; UNone] s1 | Undef u => Undef u | OutOfFuel => OutOfFuel end.
Proof.
  cbn [copy_params]. unfold mbind, M_bind. set (types := TEE_PARAM_TYPES _ _ _ _).
  assert (∀ i a b (s : app (tee O)), nib types i = VALUE_IN → copy_param (nib types i) (TValue a b) s = Ok (UValue a b) s) as Hv
    by (by intros i ? ? ? ->).
  rewrite (Hv 0) by done. rewrite (Hv (0 + 1)) by done. change (nib types (0 + 1 + 1)) with MEM_IN.
  by destruct (copy_param MEM_IN (TMemref p n) s).
Qed.
Lemma copied_is_memref p n (s : app (tee O)) u s1 : copy_param MEM_IN (TMemref p n) s = Ok u s1 → ∃ b, u = UMemref b n.
Proof.
  change (copy_param MEM_IN (TMemref p n) s) with ((if n =? 0 then mret (UMemref [] 0) else l ← mem_load p n; mret (UMemref (bytes l) n)) s).
  destruct (Z.eqb_spec n 0) as [->|]; [intros [= <- <-]; by exists []|].
  unfold mbind, M_bind. destruct (mem_load p n s); [|done|done]. intros [= <- <-]. by eexists.
Qed.

Lemma invoke_write_ignores i2c_dev addr flags reg p n (s : app (tee O)) :
  let types := TEE_PARAM_TYPES VALUE_IN VALUE_IN MEM_IN NONE in
  let run y := result (TEE_InvokeTACommand (svc_invoke I2C_SERVICE) PTA_I2C_WRITE_BYTES types
                 [TValue i2c_dev addr; TValue flags y; TMemref p n; TNone]) s in
  run reg = run 0.
Proof.
  intros types run. unfold run, result, TEE_InvokeTACommand, mbind, M_bind. rewrite !copy_write.
  destruct (copy_param MEM_IN (TMemref p n) s) as [u s1| |] eqn:Ec; [|done|done]. apply copied_is_memref in Ec as [b ->].
  change (tmp_len [UValue i2c_dev addr; UValue flags reg; UMemref b n; UNone]) with (tmp_len [UValue i2c_dev addr; UValue flags 0; UMemref b n; UNone]).
  match goal with |- context [(if 0 <? ?x then ?f else ?g) s1] => destruct ((if 0 <? x then f else g) s1) as [ok s2| |] end; [|done|done]. destruct ok; [|done]. cbn [negb].
  unfold on_sys, zoom. cbn [svc_invoke stack_services tee_services]. unfold zoom, mbind, M_bind, run_loops, modify.
  rewrite write_bytes_ignores. fold types. destruct (pta_invoke _ _ _ _ _) as [[r up] v| |]; [|done|done]. cbn [with_params].
  by destruct up as [|u0 [|u1 [|u2 [|u3 ups]]]].
Qed.

(** i2c_write_regs does not write the register its caller names: on the
    system it does exactly what i2c_write_bytes does, whatever the register. *)
Theorem i2c_write_regs_ignores_register i2c_dev addr flags reg src_buf_addr buf_len (s : app (tee O)) :
  i2c_write_regs_wrapper i2c_dev addr flags reg src_buf_addr buf_len s
  = i2c_write_bytes_wrapper i2c_dev addr flags src_buf_addr buf_len s.
Proof.
  unfold i2c_write_regs_wrapper, i2c_write_bytes_wrapper. rewrite !fat_check. destruct (check_ptr_signed _); [|done].
  rewrite !valid_run. destruct (validate_app_addr _ _ _); [|done]. set (p := addr_app_to_native _ _). clearbody p.
  apply invoke_result. intros s'. apply invoke_write_ignores.
Qed.
End write_regs.

(** ** Where the checks are not enough *)

Section overflow.
Context {W : Type} `{!TeeClient W, !TeeServices W}.

Lemma load_here (s : app W) mem a n : app_mem s = Some mem → 0 <= a → a + n <= Z.of_nat (length mem) →
  mem_load (addr_app_to_native (app_mem s) a) n s = if (a <? Z.of_nat (length mem)) then Ok (slice mem a n) s else Undef UB_null.
Proof.
  intros Em Ha Hn. unfold mem_load, mbind, M_bind, gets, addr_app_to_native. rewrite Em.
  destruct (a <? _); [|done]. by rewrite (proj2 (Z.leb_le _ _)).
Qed.

(** C38: The count that TEE_ReadObjectData stores is eight bytes wide, the
    variable of the application four: with the length word in the last bytes
    of the memory, read_secure_object accesses memory behind it although every
    check has passed. *)
Theorem read_secure_object_overflow (s : app W) mem id_addr id_len data_addr data_len_addr w1 w2 w3 h sz :
  app_mem s = Some mem → Forall word [id_len] → 0 < id_len →
  unsigned "read_secure_object" [id_addr; id_len; data_addr; data_len_addr] = false →
  validate_app_addr (Some mem) (adr data_len_addr) 4 = true →
  let n := unle (slice mem (adr data_len_addr) 4) in
  validate_app_addr (Some mem) (adr data_addr) n = true → validate_app_addr (Some mem) (adr id_addr) id_len = true →
  ta_malloc n (app_sys s) = Ok true w1 →
  obj_open (slice mem (adr id_addr) id_len) (Z.lor TEE_DATA_FLAG_ACCESS_READ TEE_DATA_FLAG_SHARE_READ) w1 = Ok (TEE_SUCCESS, h) w2 →
  obj_info h w2 = Ok (TEE_SUCCESS, sz) w3 → sz <= n →
  Z.of_nat (length mem) < adr data_len_addr + 8 →
  read_secure_object_wrapper id_addr id_len data_addr data_len_addr s = Undef UB_oob.
Proof.
  intros Em Hid Hpos Hu Hv4 n Hvd Hvi Hmal Hopen Hinfo Hsz Hend.
  apply Forall_cons in Hid as [Hid _]. unfold word in Hid.
  pose proof (clear_range data_len_addr) as Hcl. pose proof (clear_range id_addr) as Hci.
  pose proof (validate_bounds mem (adr data_len_addr) 4 ltac:(lia) ltac:(lia) Hv4) as Hb4.
  pose proof (validate_bounds mem (adr id_addr) id_len ltac:(lia) ltac:(lia) Hvi) as Hbi.
  cbn in Hu. destruct (check_ptr_signed data_addr) eqn:E1, (check_ptr_signed data_len_addr) eqn:E2, (check_ptr_signed id_addr) eqn:E3; try done.
  unfold read_secure_object_wrapper. rewrite fat_check, E1, fat_check, E2, fat_check, E3, valid_run, Em, Hv4.
  assert (∀ s' : app W, app_mem s' = Some mem → load_u32 (addr_app_to_native (Some mem) (adr data_len_addr)) s' = Ok n s') as Hload.
  { intros s' Em'. unfold load_u32, mbind, M_bind. rewrite <- Em', load_here with (mem := mem) by (done || lia).
    by rewrite (proj2 (Z.ltb_lt _ _)) by lia. }
  unfold mbind at 1, M_bind at 1. rewrite (Hload s Em), valid_run, Em, Hvd, valid_run, Em, Hvi.
  unfold mbind at 1, M_bind at 1. rewrite (Hload s Em). unfold mbind at 1, M_bind at 1. unfold on_sys at 1, zoom at 1. rewrite Hmal.
  cbn [negb]. set (s1 := set_app_sys w1 s). assert (app_mem s1 = Some mem) as Em1 by done.
  assert (load_bytes (addr_app_to_native (Some mem) (adr id_addr)) id_len s1 = Ok (slice mem (adr id_addr) id_len) s1) as Hidb.
  { unfold load_bytes. rewrite (proj2 (Z.eqb_neq _ _)) by lia. rewrite <- Em1, load_here with (mem := mem) by (done || lia).
    by rewrite (proj2 (Z.ltb_lt _ _)) by lia. }
  unfold mbind at 1, M_bind at 1. rewrite Hidb. unfold mbind at 1, M_bind at 1. unfold on_sys at 1, zoom at 1.
  change (app_sys s1) with w1. rewrite Hopen. change (negb (TEE_SUCCESS =? TEE_SUCCESS)) with false. cbv iota.
  unfold mbind at 1, M_bind at 1. unfold on_sys at 1, zoom at 1. change (app_sys (set_app_sys w2 s1)) with w2. rewrite Hinfo.
  change (negb (TEE_SUCCESS =? TEE_SUCCESS)) with false. cbv iota. set (s3 := set_app_sys w3 _).
  unfold mbind at 1, M_bind at 1. rewrite (Hload s3 Em1), (proj2 (Z.ltb_ge _ _)) by done.
  unfold mbind at 1, M_bind at 1. unfold TEE_ReadObjectData, mbind at 1, M_bind at 1. unfold mem_load, mbind at 1, M_bind at 1, gets.
  change (app_mem s3) with (app_mem s1). rewrite Em1. unfold addr_app_to_native.
  rewrite (proj2 (Z.ltb_lt _ _)), (proj2 (Z.leb_gt _ _)) by lia. done.
Qed.
End overflow.

Lemma get_ready_63 `{TeeClient W} (s : rstate W) : io_sigpending s = 2 ^ 63 → Runtime.get_ready_signal s = Undef UB_shift.
Proof. intros E. unfold Runtime.get_ready_signal, mbind, M_bind, gets. by rewrite E. Qed.

Section bus.
Context {W : Type} `{!TeeClient W, !TeeServices W}.
Definition waiting (s : rstate (app W)) : Z * Z := (io_sigpending s, in_handler s).

Lemma frames_lib {A} (f : L W A) : frames waiting (λ _, True) (lib f).
Proof. intros s. rewrite lib_run. by destruct (f (r_world s)). Qed.
Lemma frames_sys {A} (f : M (app W) A) : frames waiting (λ _, True) (sys_call f).
Proof. apply frames_lib. Qed.

Lemma register_pending e p q i (s : rstate (app W)) : in_handler s = 0 →
  ends (λ r s', r < 0 ∨ io_sigpending s' = Z.lor (io_sigpending s) (BIT p)) (tzio_register_handler e p q i s).
Proof.
  intros Hh. unfold tzio_register_handler. do 2 (case_match; [by left|]). destruct e as [m|]; [|by left].
  unfold wasm_runtime_get_indirect_function, aot_get_indirect_function, wasm_runtime_get_function_idx, sig_row, set_sig_row,
    wasm_runtime_free, func_load.
  do 7 (eapply (ends_bind waiting (λ _, True)); [repeat first [apply frames_sys | frames_step]; done|intros ? ? ? _]).
  match goal with |- ends _ (_ ?s1) => assert (waiting s1 = waiting s) as E by congruence end.
  unfold waiting in E. injection E as Ep Eh. unfold set_signal_pending, one_shl, mbind, M_bind, gets. destruct (p <? 64); [|done].
  cbn -[Z.ltb BIT]. rewrite Eh, Hh. cbn -[BIT]. rewrite Ep. by right.
Qed.

Lemma handled_pending e p req h (s : rstate (app W)) : in_handler s = 0 →
  ends (λ r s', r = TEE_SUCCESS → io_sigpending s' = Z.lor (io_sigpending s) (BIT p)) (handled e p req h s).
Proof.
  intros Hh. unfold handled. eapply (ends_bind waiting (λ _, True)); [apply frames_lib|]. intros [res ps] s1 E1 _.
  destruct (Z.eqb_spec res TEE_SUCCESS) as [->|Hne]; cbn [negb]; [|by intros ?].
  eapply (ends_bind waiting (λ _, True)); [apply frames_lib|]. intros q s2 E2 _.
  assert (waiting s2 = waiting s) as E by congruence. unfold waiting in E. injection E as Ep Eh.
  pose proof (register_pending e p q h s2 ltac:(congruence)) as Hr. unfold mbind, M_bind.
  destruct (tzio_register_handler e p q h s2) as [r s3| |]; [|done|done]. cbn in Hr. rewrite Ep in Hr.
  destruct (Z.ltb_spec r 0); [done|]. destruct Hr as [?|E]; [lia|intros _; exact E].
Qed.

(** The functions of the GNSS receiver that take a handler do not check
    the bus number: with bus 35 the request goes to peripheral 63, and once it
    is accepted the runtime's next search for a ready signal shifts by the
    width of the type. *)
Theorem unchecked_bus_number e i2c_no i2c_addr h (s s' : rstate (app W)) :
  i2c_periph i2c_no = 63 → io_sigpending s = 0 → in_handler s = 0 →
  tel0157_get_lon_async_wrapper e i2c_no i2c_addr h s = Ok TEE_SUCCESS s' → Runtime.get_ready_signal s' = Undef UB_shift.
Proof.
  intros Ep Hz Hh E. pose proof (handled_pending e (i2c_periph i2c_no)
    (read_request (i2c_periph i2c_no) TEL0157_GET_LON i2c_addr 0 0 0) h s Hh) as Hr.
  unfold tel0157_get_lon_async_wrapper in E. rewrite E in Hr. cbn in Hr. rewrite Hz, Ep in Hr.
  apply get_ready_63. by apply Hr.
Qed.
End bus.

(** ** Witnesses

    A small secure storage, the kernel as it starts, and an application with
    128 bytes of memory. *)
Module TzioWitnesses.
#[local] Existing Instance Demo.E.
#[local] Existing Instance Demo.S.
#[local] Existing Instance Demo.O.

(** Objects by name; a handle is a place in the list of opened names. The
    clock moves when it is read. *)
Record storage := StorageState { objects : list (list Z * list Z); opened : list (list Z); clock : Z }.
Definition object_of (id : list Z) (o : storage) : option (list Z) :=
  snd <$> find (λ e, bool_decide (e.1 = id)) (objects o).
Definition handle_data (h : Z) (o : storage) : option (list Z) :=
  id ← opened o !! Z.to_nat h; object_of id o.
Definition put_object (id data : list Z) (o : storage) : storage :=
  StorageState ((id, data) :: filter (λ e, e.1 ≠ id) (objects o)) (opened o) (clock o).
Definition open_name (id : list Z) (o : storage) : storage := StorageState (objects o) (opened o ++ [id])%list (clock o).

Definition library (room : bool) : TeeLibrary storage := {|
  ta_open := λ _, mret TEE_SUCCESS;
  ta_map_zi := λ _, mret true;
  ta_system_time := λ o, Ok (clock o, 0) (StorageState (objects o) (opened o) (clock o + 1));
  ta_heap := λ _, mret room;
  ta_indeterminate := λ _ _, 0;
  ta_create := λ id _ o, Ok (TEE_SUCCESS, Z.of_nat (length (opened o))) (open_name id (put_object id [] o));
  ta_open_object := λ id _ o, match object_of id o with
    | Some _ => Ok (TEE_SUCCESS, Z.of_nat (length (opened o))) (open_name id o)
    | None => Ok (TEE_ERROR_NO_DATA, 0) o end;
  ta_write := λ h l o, match opened o !! Z.to_nat h with
    | Some id => Ok TEE_SUCCESS (put_object id l o) | None => Ok TEE_ERROR_BAD_PARAMETERS o end;
  ta_info := λ h o, match handle_data h o with
    | Some l => Ok (TEE_SUCCESS, Z.of_nat (length l)) o | None => Ok (TEE_ERROR_BAD_PARAMETERS, 0) o end;
  ta_read := λ h n c o, match handle_data h o with
    | Some l => let l := take (Z.to_nat n) l in Ok (TEE_SUCCESS, l, Z.of_nat (length l)) o
    | None => Ok (TEE_ERROR_BAD_PARAMETERS, [], c) o end;
  ta_close := λ _, mret ();
  ta_delete := λ h o, match opened o !! Z.to_nat h with
    | Some id => Ok tt (StorageState (filter (λ e, e.1 ≠ id) (objects o)) (opened o) (clock o)) | None => Ok tt o end
|}.
Definition library_ok (room t : bool) : TeeLibraryOk t storage (TeeLibrary0:=library room).
Proof.
  refine {| ta_ok := λ _, True |}; intros; unfold wp; cbn; repeat case_match; simplify_eq/=; try done.
  - split; [done|]. lia.
  - split_and!; [done|rewrite length_take; lia|done].
Defined.

#[local] Instance demo_library : TeeLibrary storage := library true.
#[local] Instance demo_library_ok (t : bool) : TeeLibraryOk t storage := library_ok true t.

(** The kernel with nothing requested, its loops asleep. *)
#[local] Instance client : TeeClient (tee storage) := tee_client RuntimeWitnesses.idle_sched RuntimeWitnesses.plenty.
#[local] Instance services : TeeServices (tee storage) := tee_services RuntimeWitnesses.idle_sched.
Definition maxlen : Z := 4096.
Lemma maxlen_ok : 0 <= maxlen.
Proof. done. Qed.
#[local] Instance helper : IoHelper (tee storage) :=
  tee_helper RuntimeWitnesses.idle_sched RuntimeWitnesses.plenty false maxlen maxlen_ok RuntimeWitnesses.idle_sched_ok.
#[local] Instance system_ok : TeeOk false maxlen anywhere (tee storage) :=
  tee_services_ok RuntimeWitnesses.idle_sched RuntimeWitnesses.plenty false maxlen maxlen_ok RuntimeWitnesses.idle_sched_ok.

Definition boot (objs : list (list Z * list Z)) : tee storage :=
  Tee sys_init 0 (replicate (Z.to_nat I2C_SERVICE_OVERHEAD_BENCHMARK_SIZE) 0) (StorageState objs [] 100).
Lemma boot_ok objs : tee_ok false maxlen (boot objs).
Proof.
  split; cbn [te_sys boot sys_init fst].
  - eexists. apply sim_init.
  - split; [done|done|by intros|done|by intros].
  - split; [done|]. split; [done|]. by apply Forall_replicate.
  - done.
Qed.

Definition memory : linear := replicate 128 0.
Definition start (mem : linear) : rstate (app (tee storage)) := r_init (app_init (boot []) (Some mem)).
Lemma memory_bytes : Forall byte memory.
Proof. by apply Forall_replicate. Qed.
Lemma start_wf mem : Forall byte mem → rt_wf RuntimeWitnesses.aot_module (start mem).
Proof. intros Hb. apply (rt_wf_init _ (λ _, False)); [|done]. split; [apply boot_ok|by intros ? [= <-]|done]. Qed.

Abbreviation table := (native_symbols (W:=tee storage) (Some RuntimeWitnesses.aot_module) 10).
Definition read_call : list Z := [1; 0x1e; 0; signed_ptr 64; 4].
Lemma read_call_words : Forall word read_call.
Proof. repeat constructor; by vm_compute. Qed.
Lemma read_call_pre : native_pre maxlen (Some memory) "i2c_read_bytes" read_call.
Proof. by split. Qed.

Lemma natives_sandboxed_witness :
  wp false (lib (i2c_read_bytes_wrapper (W:=tee storage) 1 0x1e 0 (signed_ptr 64) 4))
    (λ _ s', rt_wf RuntimeWitnesses.aot_module s' ∧ ∃ mem', app_mem (r_world s') = Some mem' ∧ Forall byte mem'
      ∧ same_outside [(64, 4)] memory mem') (start memory).
Proof.
  apply (natives_sandboxed RuntimeWitnesses.aot_module 10
    (REG_NATIVE_FUNC "i2c_read_bytes" (i2c_read_bytes_wrapper (W:=tee storage)) "(iiiii)i") read_call).
  - apply RuntimeWitnesses.aot_module_ok.
  - apply start_wf, memory_bytes.
  - reflexivity.
  - apply (list_elem_of_lookup_2 _ 11). reflexivity.
  - reflexivity.
  - apply read_call_words.
  - apply read_call_pre.
  - intros [=].
Defined.

Definition demo_calls : list (string * list Z) :=
  [("i2c_read_bytes", read_call); ("tel0157_get_lon_async", [1; 0x20; 1]); ("get_async_data", [29; 0; signed_ptr 16; signed_ptr 96])].
Lemma demo_calls_pre : Forall (call_pre false maxlen memory) demo_calls.
Proof.
  do 3 (apply Forall_cons_2; [split; [repeat (apply Forall_cons_2; [by vm_compute|]); apply Forall_nil_2|split; [by split|by intros [=]]]|]).
  apply Forall_nil_2.
Qed.

Lemma full_stack_safe_witness :
  wp false (call_natives (W:=tee storage) (Some RuntimeWitnesses.aot_module) 10 demo_calls)
    (λ _ s', let w' := app_sys (r_world s') in
       rt_wf RuntimeWitnesses.aot_module s' ∧ (∃ a, sim (te_sys w') a) ∧ d_held (k_d (te_sys w').1) = ∅
       ∧ ∃ mem', app_mem (r_world s') = Some mem' ∧ Forall byte mem' ∧ length mem' = length memory) (start memory).
Proof.
  apply (full_stack_safe false maxlen maxlen_ok RuntimeWitnesses.idle_sched RuntimeWitnesses.idle_sched_ok RuntimeWitnesses.plenty).
  - apply RuntimeWitnesses.aot_module_ok.
  - apply boot_ok.
  - apply memory_bytes.
  - apply demo_calls_pre.
Defined.

Lemma unsigned_pointers_refused_witness :
  lib (i2c_read_bytes_wrapper (W:=tee storage) 1 0x1e 0 64 4) (start memory) = Ok TEE_ERROR_ACCESS_DENIED (start memory).
Proof.
  apply (unsigned_pointers_refused (Some RuntimeWitnesses.aot_module) 10
    (REG_NATIVE_FUNC "i2c_read_bytes" (i2c_read_bytes_wrapper (W:=tee storage)) "(iiiii)i") [1; 0x1e; 0; 64; 4]).
  - apply (list_elem_of_lookup_2 _ 11). reflexivity.
  - reflexivity.
  - reflexivity.
Defined.

Lemma outside_ranges_refused_witness :
  lib (i2c_read_bytes_wrapper (W:=tee storage) 1 0x1e 0 (signed_ptr 126) 4) (start memory)
  = Ok TEE_ERROR_ACCESS_DENIED (set_world (set_app_exception true (r_world (start memory))) (start memory)).
Proof.
  apply (outside_ranges_refused (Some RuntimeWitnesses.aot_module) 10
    (REG_NATIVE_FUNC "i2c_read_bytes" (i2c_read_bytes_wrapper (W:=tee storage)) "(iiiii)i") [1; 0x1e; 0; signed_ptr 126; 4]).
  - apply (list_elem_of_lookup_2 _ 11). reflexivity.
  - reflexivity.
  - reflexivity.
  - vm_compute. reflexivity.
Defined.

(** An object [7; 7; 7] named [5; 6]; its name at 8, the length at 28 of 32
    bytes. *)
Definition small_memory : linear := ([0; 0; 0; 0; 0; 0; 0; 0; 5; 6] ++ replicate 18 0 ++ [8; 0; 0; 0])%list.
Definition holding : app (tee storage) := app_init (boot [([5; 6], [7; 7; 7])]) (Some small_memory).
Lemma read_secure_object_overflow_witness :
  read_secure_object_wrapper (signed_ptr 8) 2 (signed_ptr 0) (signed_ptr 28) holding = Undef UB_oob.
Proof.
  set (w := Tee sys_init 0 (replicate (Z.to_nat I2C_SERVICE_OVERHEAD_BENCHMARK_SIZE) 0) (StorageState [([5; 6], [7; 7; 7])] [[5; 6]] 100)).
  apply (read_secure_object_overflow holding small_memory (signed_ptr 8) 2 (signed_ptr 0) (signed_ptr 28)
    (app_sys holding) w w 0 3).
  1, 4, 5, 6, 7, 8, 9, 10: reflexivity.
  - repeat constructor; lia.
  - lia.
  - by vm_compute.
  - by vm_compute.
Defined.

(** An accepted request on bus 35. *)
Definition bus_35 : outcome (rstate (app (tee storage))) Z :=
  tel0157_get_lon_async_wrapper (Some RuntimeWitnesses.interp_module) 35 0x20 1 (start memory).
Lemma unchecked_bus_number_witness : ∃ s', bus_35 = Ok TEE_SUCCESS s' ∧ Runtime.get_ready_signal s' = Undef UB_shift.
Proof.
  assert (match bus_35 with Ok r _ => r =? TEE_SUCCESS | _ => false end = true) as Hb by (vm_compute; reflexivity).
  destruct bus_35 as [r s'| |] eqn:E; [|discriminate Hb|discriminate Hb]. apply Z.eqb_eq in Hb. subst r.
  exists s'. split; [reflexivity|].
  apply (unchecked_bus_number (Some RuntimeWitnesses.interp_module) 35 0x20 1 (start memory) s'); [reflexivity|reflexivity|reflexivity|exact E].
Defined.
End TzioWitnesses.
