(* ===== verification/AppTheorems.v ===== *)
(** * Whole applications

    An application with handlers on the whole stack: its own code works on its
    linear memory, calls native functions of the library through the import
    table and passes checkpoints, where the runtime calls its handlers, which
    are applications again. *)

From Stdlib Require Import ZArith Lia Bool Ascii String.
From stdpp Require Import base tactics option list strings numbers gmap relations.
From S2P Require Import Prelude Platform Params I2c Spi Sensors Tel0157 Boards Pta PtaProofs PtaTheorems.
From S2P Require Import IoReq IoState IoSignal IoSignalProofs IoSpec IoHandlers IoHandlersProofs IoHelper IoSystem IoRefinement IoService ServiceTheorems.
From S2P Require Import Runtime RuntimeScan RuntimeProofs RuntimeKernel RuntimeTheorems.
From S2P Require Import AppMemory TeeApi Tzio TzioAsync TzioProofs TzioSafe Frames TzioNative TzioApp TeeKernel TzioTheorems.

Open Scope string_scope.
Open Scope Z_scope.

(** ** Applications *)

Inductive application :=
  | AppEnd
  | AppCompute (f : linear → Z * linear) (k : Z → application)
  | AppCall (name : string) (args : list Z) (k : Z → application)
  | AppCheckpoint (k : application).

Section translate.
Context {W : Type} `{!TeeClient W, !TeeServices W} (m : option module_inst) (fuel : nat).

(** Code of the application between two calls. *)
Definition compute (f : linear → Z * linear) : L W Z :=
  mem ← gets app_mem;
  match mem with
  | Some l => modify (set_app_mem (Some (f l).2));; mret (f l).1
  | None => mret 0
  end.

(** As the runtime sees it; calling an import that is not linked is the end. *)
Fixpoint translate (a : application) : prog (app W) :=
  match a with
  | AppEnd => Halt
  | AppCompute f k => Native (lib (compute f)) (λ r, translate (k r))
  | AppCall name args k =>
      match linked m fuel name args with
      | Some f => Native f (λ r, translate (k r))
      | None => Halt
      end
  | AppCheckpoint k => Checkpoint (translate k)
  end.
End translate.

(** What an application has to respect, with [n] bytes of memory and handlers
    on the peripherals [managed]: a request to such a peripheral is made with
    one of the functions that register its handler, which is in the table of
    the module, and requests without a handler go to other peripherals. *)
Section respects.
Context {t : bool} {maxlen : Z} {W : Type} `{!TeeClient W, !TeeServices W, !IoHelper W}.
Context (m : module_inst) (n : nat) (managed : Z → Prop).

Record call_respects (name : string) (args : list Z) : Prop := {
  cr_words : Forall word args;
  cr_pre mem : length mem = n → native_pre maxlen (Some mem) name args;
  cr_waits : t = true → waits name = false;
  cr_plain : handles name = false → may_request (λ p, ¬ managed p) name args;
  cr_handled : handles name = true → name ≠ "promise_set_callback" ∧ managed (handled_periph name args)
    ∧ 0 < List.last args 0 ∧ findable (H0:=app_sized n) m (List.last args 0)
}.

Definition computes (f : linear → Z * linear) : Prop :=
  ∀ l, Forall byte l → length l = n → Forall byte (f l).2 ∧ length (f l).2 = n.

Fixpoint respects (a : application) : Prop :=
  match a with
  | AppEnd => True
  | AppCompute f k => computes f ∧ ∀ r, respects (k r)
  | AppCall name args k => call_respects name args ∧ ∀ r, respects (k r)
  | AppCheckpoint k => respects k
  end.
End respects.

Section application.
Context {t : bool} {maxlen : Z} {W : Type} `{!TeeClient W, !TeeServices W, !IoHelper W, !TeeOk t maxlen anywhere W}.
Context (m : module_inst) (Hm : module_ok m) (n : nat) (managed : Z → Prop).
Implicit Type s : rstate (app W).

Lemma compute_ok f : computes n f → native_ok (H0:=app_sized n) m managed t (lib (compute (W:=W) f)).
Proof using.
  intros Hf h s Hg. pose proof Hg as [Hwf Hcov <-]. destruct (sized_mem m n managed s Hg) as (Hok&mem&Em&Hl).
  destruct (Hf mem) as [Hb Hl']; [by apply (ao_bytes _ Hok)|done|]. apply wp_zoom. unfold compute. wp_steps. rewrite Em. wp_steps.
  split; [|by exists []; split; [constructor|]]. split; [|by apply (covered_frame managed s)|done].
  apply (rt_wf_frame m s); try done; try apply Hwf. destruct Hok as [Hio _ Htimes]. split; [|by cbn; rewrite Hl'].
  split; [done| |done]. by intros ? [= <-].
Qed.

Lemma call_respects_ok fuel name args f : call_respects (t:=t) (maxlen:=maxlen) (W:=W) m n managed name args →
  linked (Some m) fuel name args = Some f → native_ok (H0:=app_sized n) m managed t f.
Proof using Hm TeeOk0.
  intros [Hw Hpre Hwait Hplain Hhandled] E. unfold linked in E. destruct (find _ _) as [sym|] eqn:Ef; [|done].
  apply find_some in Ef as [Hin%list_elem_of_In En%String.eqb_eq]. subst name. cbn in E. destruct (handles (symbol sym)) eqn:Eh.
  - destruct Hhandled as (?&?&?&?); [done|]. pose proof (handled_natives m Hm n managed fuel) as Hall.
    rewrite Forall_forall in Hall. by eapply (Hall sym Hin args f).
  - eapply (plain_ok m Hm n managed fuel sym args f); try done. by apply Hplain.
Qed.

Lemma translate_ok fuel a : respects (t:=t) (maxlen:=maxlen) (W:=W) m n managed a →
  prog_ok (H0:=app_sized n) m managed t (translate (Some m) fuel a).
Proof using Hm TeeOk0.
  induction a as [|f k IH|name args k IH|a IH]; cbn [translate respects]; [done| | |done].
  - intros [Hf Hk]. split; [by apply compute_ok|]. intros r. by apply IH.
  - intros [Hc Hk]. destruct (linked _ _ _ _) as [f|] eqn:E; [|done]. split; [by eapply call_respects_ok|]. intros r. by apply IH.
Qed.
End application.

(** ** On the kernel *)

Section stack.
Context `{Env, Storage, !StorageOk} {O : Type} `{!TeeLibrary O} (t : bool) `{!TeeLibraryOk t O}.
Context (maxlen : Z) (Hmax : 0 <= maxlen) (sched : sys → sys) (Hsched : ∀ w, rtc serve_step w (sched w)) (alloc : sys → bool).
#[local] Instance app_client_stack : TeeClient (tee O) := tee_client sched alloc.
#[local] Instance app_services_stack : TeeServices (tee O) := tee_services sched.
#[local] Instance app_helper_stack : IoHelper (tee O) := tee_helper sched alloc t maxlen Hmax Hsched.

(** C2: Any application that computes on its own memory, calls native
    functions with any words and passes checkpoints, and whose handlers are
    such applications too, run by the runtime on the kernel with all services,
    the I/O helper and its service loops: it reaches no undefined behaviour
    and its handlers never nest. At the end the runtime's signal table and
    function instances agree, nothing is masked, every request under way on a
    peripheral it serves with handlers has a handler, every call in the
    history went to the handler registered last for its signal, the I/O helper
    agrees with its specification, every lock is given back and the memory has
    its size. With t = true (devices that answer) the run ends. The
    application requests results of the peripherals it serves with handlers
    only through the functions that take a handler, given an entry of its
    table, and keeps the duties of the services' clients (those of
    natives_sandboxed); it does not call promise_set_callback, nor, with t =
    true, the two functions that wait for a result. *)
Theorem application_safe m fuel managed body d a (w : tee O) mem :
  module_ok m → tee_ok t maxlen w → Forall byte mem → (∀ p, in_periph p → managed p → unused (sig_of (te_sys w).1 p)) →
  respects (t:=t) (maxlen:=maxlen) (W:=tee O) m (length mem) managed a →
  (∀ c p q, respects (t:=t) (maxlen:=maxlen) (W:=tee O) m (length mem) managed (body c p q)) →
  wp t (run m (λ c p q, translate (Some m) fuel (body c p q)) (S d) (translate (Some m) fuel a))
    (λ _ s', let w' := app_sys (r_world s') in
       rt_wf (H0:=app_helper) m s' ∧ covered (H0:=app_helper) managed s' ∧ in_handler s' = 0
       ∧ call_depth (r_log s') = 0 ∧ calls_ok (r_log s')
       ∧ (∃ a, sim (te_sys w') a) ∧ d_held (k_d (te_sys w').1) = ∅
       ∧ ∃ mem', app_mem (r_world s') = Some mem' ∧ Forall byte mem' ∧ length mem' = length mem)
    (r_init (app_init w (Some mem))).
Proof.
  intros Hm Hw Hb Hun Ha Hbody. pose proof (tee_services_ok sched alloc t maxlen Hmax Hsched) as Hok. set (s0 := r_init _).
  assert (io_ok (IoHelper:=app_sized (length mem)) (r_world s0)) as Hw0.
  { split; [|done]. split; [exact Hw|by intros ? [= <-]|done]. }
  destruct (rt_wf_init (H0:=app_sized (length mem)) m managed (r_world s0) Hw0 Hun) as [Hwf Hcov].
  eapply wp_mono; [apply (run_ok (H0:=app_sized (length mem)) m managed t)|].
  - intros c p q. by apply translate_ok.
  - by apply translate_ok.
  - split; [by split|done].
  - intros u s' (Hg&Hd&Hc). assert (good (H0:=app_sized (length mem)) m managed (in_handler s') s') as Hg'
      by (by rewrite (gd_mode _ _ _ _ Hg)).
    destruct (sized_mem m (length mem) managed s' Hg') as (Happ&mem'&Em&Hl). destruct Hg as [Hwf' Hcov' Hmode].
    pose proof Happ as [[[b Hsim] _ _ _] Hbytes _]. split_and!; try done.
    + by apply (rt_switch m (app_sized (length mem))).
    + by destruct Hcov'; split.
    + by exists b.
    + apply (rl_shape _ _ (proj1 Hsim)).
    + exists mem'. by split_and!; [|apply Hbytes|].
Qed.
End stack.

(** ** Witness

    An application that asks the GNSS receiver on bus 1 for the longitude; the
    handler fetches the result into the memory, and the application works on
    what is there. On a board whose devices answer at once it also ends. *)
Module AppWitnesses.
#[local] Instance board_env : Env := still_env idle.
#[local] Existing Instance Demo.S.
#[local] Existing Instance Demo.O.
#[local] Existing Instance TzioWitnesses.demo_library.
#[local] Existing Instance TzioWitnesses.demo_library_ok.

Abbreviation sched := RuntimeWitnesses.idle_sched.
Abbreviation module := RuntimeWitnesses.interp_module.
Lemma sched_ok w : rtc serve_step w (sched w).
Proof. apply rtc_refl. Qed.
Lemma max_ok : 0 <= 100.
Proof. done. Qed.
#[local] Instance client : TeeClient (tee TzioWitnesses.storage) := tee_client sched RuntimeWitnesses.plenty.
#[local] Instance services : TeeServices (tee TzioWitnesses.storage) := tee_services sched.
#[local] Instance helper : IoHelper (tee TzioWitnesses.storage) :=
  tee_helper sched RuntimeWitnesses.plenty true 100 max_ok sched_ok.

Definition gnss_app : application :=
  AppCall "tel0157_get_lon_async" [1; 0x20; 1] (λ _, AppCheckpoint
    (AppCompute (λ l, (hd 0 l, 1 :: tl l)) (λ _, AppCall "sign_ptr" [16; 0; 0] (λ _, AppEnd)))).
Definition gnss_handler (c p q : Z) : application :=
  if (0 <=? p) && (p <? 2 ^ 32) && (0 <=? q) && (q <? 2 ^ 32) then
    AppCall "get_async_data" [p; q; signed_ptr 16; signed_ptr 96] (λ _, AppCheckpoint AppEnd)
  else AppEnd.
Definition gnss_bus (p : Z) : Prop := p = 29.

Abbreviation gnss_respects := (respects (t:=true) (maxlen:=100) (W:=tee TzioWitnesses.storage) module 128 gnss_bus).
Ltac solve_args := repeat (apply Forall_cons_2; [first [assumption | by vm_compute]|]); apply Forall_nil_2.
Lemma gnss_app_ok : gnss_respects gnss_app.
Proof.
  split; [split|intros _; split; [|intros _; split; [split|done]]]; try done.
  - solve_args.
  - intros l Hl E. destruct l as [|x l]; [done|]. apply Forall_cons in Hl as [_ Hl]. split; [by apply Forall_cons_2|done].
  - solve_args.
Qed.
Lemma gnss_handler_ok c p q : gnss_respects (gnss_handler c p q).
Proof.
  unfold gnss_handler. destruct (_ && _) eqn:E; [|done]. bool_props. assert (word p) by (unfold word; lia). assert (word q) by (unfold word; lia). split; [split|done]; try done.
  solve_args.
Qed.
Lemma boot_ready : tee_ok true 100 (TzioWitnesses.boot []).
Proof.
  split; cbn [te_sys TzioWitnesses.boot sys_init fst].
  - eexists. apply sim_init.
  - apply PtaWitnesses.board_ready.
  - apply PtaWitnesses.board_bench.
  - done.
Qed.

Abbreviation gnss_run := (run module (λ c p q, translate (W:=tee TzioWitnesses.storage) (Some module) 10 (gnss_handler c p q)) 1
  (translate (Some module) 10 gnss_app) (TzioWitnesses.start TzioWitnesses.memory)).
Lemma application_safe_witness : ∃ s', gnss_run = Ok tt s' ∧ rt_wf module s' ∧ covered gnss_bus s' ∧ in_handler s' = 0.
Proof.
  pose proof (application_safe true 100 max_ok sched sched_ok RuntimeWitnesses.plenty module 10 gnss_bus gnss_handler 0 gnss_app
    (TzioWitnesses.boot []) TzioWitnesses.memory RuntimeWitnesses.interp_module_ok boot_ready TzioWitnesses.memory_bytes) as Hw.
  specialize (Hw ltac:(intros p Hp _ q Hq; exact (rel_sig _ _ p q (proj1 sim_init) Hp Hq)) gnss_app_ok gnss_handler_ok).
  unfold wp in Hw. change (r_init (app_init _ _)) with (TzioWitnesses.start TzioWitnesses.memory) in Hw.
  destruct gnss_run as [[] s'| |]; [|done|done]. exists s'. destruct Hw as (?&?&?&_). by split_and!.
Defined.
End AppWitnesses.
