(* ===== verification/Queues.v ===== *)
(** * Several queues in one node memory

    Operations on one of a list of queues whose nodes share a memory: the
    others keep their contents. *)

From Stdlib Require Import ZArith Lia Bool.
From stdpp Require Import base tactics option list numbers gmap.
From S2P Require Import Prelude Platform IoReq.

Open Scope Z_scope.

Section family.
Context {A : Type}.
Implicit Types (m : qmem (A:=A)) (qs : list io_req_queue) (ql : nat → list (Z * A)).

(** The queue at [i] holds the list [ql i]; no node is in two queues. *)
Record queues_rep m qs ql : Prop := {
  qr_fresh : 0 < qm_fresh m;
  qr_rep i q : qs !! i = Some q → queue_rep m q (ql i);
  qr_apart i j id : (i < length qs)%nat → (j < length qs)%nat → i ≠ j → id ∈ (ql i).*1 → id ∉ (ql j).*1
}.

Definition set_list ql (i : nat) (l : list (Z * A)) : nat → list (Z * A) := λ j, if decide (j = i) then l else ql j.
Lemma set_list_eq ql i l : set_list ql i l i = l.
Proof. unfold set_list. by rewrite decide_True. Qed.
Lemma set_list_ne ql i j l : j ≠ i → set_list ql i l j = ql j.
Proof. intros. unfold set_list. by rewrite decide_False. Qed.

(** An operation on queue [i] that only adds nodes that were not in use. *)
Lemma queues_update m qs ql i q m' q' l : queues_rep m qs ql → qs !! i = Some q → queue_rep m' q' l → qm_fresh m <= qm_fresh m' →
  (∀ id, id ∈ l.*1 → id ∈ (ql i).*1 ∨ qm_fresh m <= id) →
  (∀ id, 0 < id < qm_fresh m → id ∉ (ql i).*1 → qm_nodes m' !! id = qm_nodes m !! id) →
  queues_rep m' (<[i := q']> qs) (set_list ql i l).
Proof.
  intros [Hf Hr Ha] Hi Hq Hfr Hl Hn. pose proof (lookup_lt_Some _ _ _ Hi) as Hlt.
  assert (∀ j id, (j < length qs)%nat → id ∈ (ql j).*1 → 0 < id < qm_fresh m) as Hold.
  { intros j id Hj Hid. destruct (lookup_lt_is_Some_2 qs j Hj) as [qj Ej]. destruct (Hr j qj Ej) as (_&_&_&Hall).
    rewrite Forall_forall in Hall. by apply Hall. }
  split; [lia| |].
  - intros j qj Hj. destruct (decide (j = i)) as [->|Hne].
    + rewrite list_lookup_insert_eq in Hj by done. injection Hj as <-. by rewrite set_list_eq.
    + rewrite list_lookup_insert_ne in Hj by done. rewrite set_list_ne by done. eapply queue_rep_frame; [|exact Hfr|by apply Hr].
      intros id Hid. pose proof (lookup_lt_Some _ _ _ Hj). apply Hn; [by eapply Hold|]. intros Hin. by apply (Ha i j id).
  - intros j k id. rewrite length_insert. intros Hj Hk Hne. unfold set_list.
    destruct (decide (j = i)) as [->|], (decide (k = i)) as [->|]; try done.
    + intros [?|Hid]%Hl; [by apply (Ha i k)|]. intros Hin. apply (Hold k id Hk) in Hin. lia.
    + intros Hin [?|Hid]%Hl; [by apply (Ha j i id)|]. apply (Hold j id Hj) in Hin. lia.
    + by apply Ha.
Qed.

Lemma queues_enqueue t m qs ql i q a : queues_rep m qs ql → qs !! i = Some q →
  wp t (enqueue true a) (λ r s, r = TEE_SUCCESS ∧ queues_rep s.1 (<[i := s.2]> qs) (set_list ql i (ql i ++ [(qm_fresh m, a)]))) (m, q).
Proof.
  intros Hq Hi. eapply wp_mono; [apply enqueue_spec; [by eapply qr_rep|apply Hq]|]. intros r [m' q'] (->&Hr&Hf&Hn). split; [done|].
  cbn [fst snd]. eapply queues_update; [exact Hq|exact Hi|exact Hr|lia| |].
  - intros id. rewrite fmap_app, elem_of_app. intros [?| ->%list_elem_of_singleton]; [by left|by right].
  - intros id Hid Hin. apply Hn; [done|lia].
Qed.

Lemma queues_dequeue t m qs ql i q id a l : queues_rep m qs ql → qs !! i = Some q → ql i = (id, a) :: l →
  wp t dequeue (λ r s, r = (TEE_SUCCESS, Some a) ∧ queues_rep s.1 (<[i := s.2]> qs) (set_list ql i l)) (m, q).
Proof.
  intros Hq Hi El. pose proof (qr_rep _ _ _ Hq i q Hi) as Hrep. rewrite El in Hrep.
  eapply wp_mono; [by apply dequeue_spec|]. intros r [m' q'] (->&Hr&->). split; [done|].
  cbn [fst snd]. eapply queues_update; [exact Hq|exact Hi|exact Hr|done| |].
  - intros x Hx. left. rewrite El. cbn. by right.
  - intros x _ Hx. cbn [qm_nodes]. rewrite lookup_delete_ne; [done|]. intros ->. apply Hx. rewrite El. cbn. by left.
Qed.

(** Changing the request of the first node. *)
Lemma queues_front m qs ql i q id a b l n : queues_rep m qs ql → qs !! i = Some q → ql i = (id, a) :: l →
  qm_nodes m !! id = Some n →
  queues_rep (QMem (<[id := Node b (nd_next n)]> (qm_nodes m)) (qm_fresh m)) qs (set_list ql i ((id, b) :: l)).
Proof.
  intros Hq Hi El Hn. pose proof (qr_rep _ _ _ Hq i q Hi) as (Hc&Hrear&Hnd&Hlt). rewrite El in *.
  rewrite <- (list_insert_id qs i q) by done. eapply queues_update; [exact Hq|exact Hi| |done| |].
  - split_and!; [|done|done|done]. cbn in Hc |- *. destruct Hc as (Hf&Hid&nx&Hm&Hc). split_and!; [done|done|].
    rewrite Hm in Hn. injection Hn as <-. exists nx. rewrite lookup_insert_eq. split; [done|].
    eapply chain_frame; [|exact Hc]. intros x Hx. rewrite lookup_insert_ne; [done|]. cbn in Hnd. apply NoDup_cons in Hnd as [Hni _].
    by intros ->.
  - intros x Hx. left. by rewrite El.
  - intros x _ Hx. cbn [qm_nodes]. rewrite lookup_insert_ne; [done|]. intros ->. apply Hx. rewrite El. cbn. by left.
Qed.
End family.
