(* ===== verification/Adaptive.v ===== *)
(** * Adaptive checkpoints (USE_ADAPTIVE_CHECKPOINT)

    With this option the runtime does not poll the I/O helper at every
    checkpoint: it estimates when the oldest request of the first awaited
    peripheral will be done, and polls once this time has passed
    (tz_io_sigtable.c, aot_runtime.c, wasm_interp.h).  The estimate is learnt
    from the requests that have been handled, in floating point.

    The variables of the option are kept beside the system: a runtime with
    adaptive checkpoints is a runtime over [adapt W]. *)

From Stdlib Require Import ZArith Lia Bool.
From Stdlib Require Import SpecFloat.
From stdpp Require Import base tactics option list numbers gmap.
From S2P Require Import Prelude Platform Params IoReq IoState IoSignal Runtime AppMemory TeeApi.

Open Scope Z_scope.

(** ** Floating point

    IEEE 754 arithmetic with single and double precision, every operation
    rounded to nearest. *)

(** [(float)x], a [float] used as a [double], and a [double] constant given as
    a quotient. *)
Definition to_float (x : Z) : spec_float := binary_normalize 24 128 x 0 false.
Definition to_double (x : spec_float) : spec_float :=
  match x with S754_finite s m e => binary_round 53 1024 s m e | _ => x end.
Definition double_const (n d : Z) : spec_float :=
  SFdiv 53 1024 (binary_normalize 53 1024 n 0 false) (binary_normalize 53 1024 d 0 false).
Definition double_mul : spec_float → spec_float → spec_float := SFmul 53 1024.
Definition double_add : spec_float → spec_float → spec_float := SFadd 53 1024.

(** The integral part; [None] for infinities and NaN. *)
Definition trunc (x : spec_float) : option Z :=
  match x with
  | S754_zero _ => Some 0
  | S754_finite s m e =>
      let v := if 0 <=? e then Zpos m * 2 ^ e else Zpos m / 2 ^ (- e) in Some (if s then - v else v)
  | _ => None
  end.
(** [(uint64_t)x] *)
Definition u64_of_double {S} (x : spec_float) : M S Z :=
  match trunc x with
  | Some v => if (0 <=? v) && (v <? 2 ^ 64) then mret v else undef UB_conv
  | None => undef UB_conv
  end.

Definition COEF_AOT : spec_float := double_const 91 100.
Definition COEF_INTERP : spec_float := double_const 76 100.
Definition COEF_OLD : spec_float := double_const 1 100.
Definition COEF_WAIT : spec_float := double_const 8 10.

(** ** Data (tz_io_sigtable.h) *)

Definition N_REQ_TYPE : Z := 28.

Record io_req_t := Req { rt_type : Z; rt_start : Z; rt_guess_end : Z; rt_len : Z }.
Record exec_time_t := ExecTime { et_k : Z; et_b : Z; et_wait_profile : Z }.

Record adapt (W : Type) := Adapt {
  exec_time_table : list exec_time_t;
  wait_profile : Z;
  no_profile : bool;
  ad_nodes : qmem (A:=io_req_t);          (* the nodes of all queues *)
  io_queues : list io_req_queue;
  ad_sys : W
}.
Arguments Adapt {W}.
Arguments exec_time_table {W}.
Arguments wait_profile {W}.
Arguments no_profile {W}.
Arguments ad_nodes {W}.
Arguments io_queues {W}.
Arguments ad_sys {W}.

(** The initial table: of its entries one has an estimate. *)
Definition exec_time_init : list exec_time_t :=
  [ExecTime 0 0 0; ExecTime 0 0 0; ExecTime 0 5600 0] ++ replicate 25 (ExecTime 0 0 0).
Definition adapt_init {W} (w : W) : adapt W :=
  Adapt exec_time_init 0 false (QMem ∅ 1) (replicate 64 (Queue 0 0)) w.

(** ** The queue of the requests with a handler *)

Definition enqueue (ok : bool) (req : io_req_t) : QM (A:=io_req_t) Z :=
  if negb ok then mret (-1) else
  p ← new_node req;
  e ← is_empty;
  (if e : bool then set_front p;; set_rear p
   else
     rear ← gets (λ s, q_rear s.2);
     store_next rear p;;
     set_rear p);;
  mret 0.

(** The result and [*req], which is left alone when the queue is empty. *)
Definition dequeue : QM (A:=io_req_t) (Z * option io_req_t) :=
  e ← is_empty;
  if e : bool then mret (-1, None) else
  tmp ← gets (λ s, q_front s.2);
  n ← load_node tmp;
  set_front (nd_next n);;
  (if nd_next n =? 0 then set_rear 0 else mret ());;
  free_node tmp;;
  mret (0, Some (nd_req n)).

Section adaptive.
Context {W : Type} `{!TeeClient W, !TeeServices W}.

Definition set_exec_time_table x (s : adapt W) := Adapt x (wait_profile s) (no_profile s) (ad_nodes s) (io_queues s) (ad_sys s).
Definition set_wait_profile x (s : adapt W) := Adapt (exec_time_table s) x (no_profile s) (ad_nodes s) (io_queues s) (ad_sys s).
Definition set_no_profile x (s : adapt W) := Adapt (exec_time_table s) (wait_profile s) x (ad_nodes s) (io_queues s) (ad_sys s).
Definition set_ad_nodes x (s : adapt W) := Adapt (exec_time_table s) (wait_profile s) (no_profile s) x (io_queues s) (ad_sys s).
Definition set_io_queues x (s : adapt W) := Adapt (exec_time_table s) (wait_profile s) (no_profile s) (ad_nodes s) x (ad_sys s).
Definition set_ad_sys (x : W) (s : adapt W) := Adapt (exec_time_table s) (wait_profile s) (no_profile s) (ad_nodes s) (io_queues s) x.

Definition on_system {A} (m : M W A) : M (adapt W) A := zoom ad_sys set_ad_sys m.
#[export] Instance adapt_client : TeeClient (adapt W) := {|
  tee_open := on_system tee_open;
  tee_invoke := λ cmd types ps, on_system (tee_invoke cmd types ps);
  runtime_malloc := on_system runtime_malloc
|}.

(** [teetime_to_micro(t)] of the time now. *)
Definition teetime_to_micro (t : Z * Z) : Z := u64 (u64 (u64 (u32 t.1 * 1000) * 1000) + u32 t.2).
Definition micros_now : M (adapt W) Z := t ← on_system tee_system_time; mret (teetime_to_micro t).

(** An operation on [io_queues[i]]. *)
Definition on_io_queue {A} (i : Z) (m : QM (A:=io_req_t) A) : M (adapt W) A :=
  qs ← gets io_queues;
  q ← arr_get qs i;
  zoom (λ s, (ad_nodes s, q)) (λ r s, set_io_queues (<[Z.to_nat i := r.2]> (io_queues s)) (set_ad_nodes r.1 s)) m.

(** [io_queues[i].front], [front->req] and assignments to two of its members. *)
Definition queue_front (i : Z) : M (adapt W) Z := q ← (qs ← gets io_queues; arr_get qs i); mret (q_front q).
Definition front_req (p : Z) : M (adapt W) io_req_t := n ← gets (λ s, qm_nodes (ad_nodes s) !! p);
  match n with Some n => mret (nd_req n) | None => undef UB_null end.
Definition set_front_req (p : Z) (r : io_req_t) : M (adapt W) unit :=
  ns ← gets (λ s, qm_nodes (ad_nodes s));
  match ns !! p with
  | Some n => modify (λ s, set_ad_nodes (QMem (<[p := Node r (nd_next n)]> ns) (qm_fresh (ad_nodes s))) s)
  | None => undef UB_null
  end.

(** [exec_time_table[type]] *)
Definition exec_time (type : Z) : M (adapt W) exec_time_t := t ← gets exec_time_table; arr_get t type.
Definition set_exec_time (type : Z) (e : exec_time_t) : M (adapt W) unit :=
  t ← gets exec_time_table; t ← arr_set t type e; modify (set_exec_time_table t).

(** The time at which a request that starts now should be done. *)
Definition guess (now : Z) (e : exec_time_t) (len : Z) : Z := u64 (u64 (now + u64 (et_k e * len)) + et_b e).

(** sizeof(io_req_node) *)
Definition sizeof_node : Z := 40.
Definition enqueue_req (signo : Z) (req : io_req_t) : M (adapt W) Z :=
  ok ← on_system (ta_malloc sizeof_node); on_io_queue signo (enqueue ok req).

Definition tzio_register_handler (exec_env : option module_inst)
    (signo sub_signo handler_func_ptr req_type len : Z) : R (adapt W) Z :=
  if (N_SIG <? signo) || (N_SUB_SIG <? sub_signo) then mret (-1) else
  if handler_func_ptr =? 0 then mret (-1) else
  match exec_env with
  | None => mret (-1)
  | Some m =>
      if N_REQ_TYPE <? req_type then mret (-1) else
      now ← sys_call micros_now;
      e ← sys_call (exec_time req_type);
      sys_call (enqueue_req signo (Req req_type now (guess now e len) len));;
      Runtime.tzio_register_handler exec_env signo sub_signo handler_func_ptr
  end.

(** ** Should the runtime poll? *)
Definition profile : R (adapt W) bool :=
  now ← sys_call micros_now;
  modify (λ s, set_profile_times (u64 (profile_times s + 1)) s);;
  pending ← gets io_sigpending;
  let idx := ffsll pending in
  front ← sys_call (queue_front (idx - 1));
  if front =? 0 then mret false else
  req ← sys_call (front_req front);
  if rt_guess_end req <? now then sys_call (modify (set_no_profile true));; mret true
  else
    e ← sys_call (exec_time (rt_type req));
    sys_call (modify (set_wait_profile (et_wait_profile e)));;
    mret false.

(** Before a poll: [no_profile], [wait_profile] and [profile]. *)
Definition poll_now : R (adapt W) bool :=
  np ← sys_call (gets no_profile);
  if np : bool then mret true else
  n ← sys_call (gets wait_profile);
  if n <=? 0 then profile
  else sys_call (modify (set_wait_profile (n - 1)));; mret false.

(** ** Learning from a request that is done

    [coef] weighs the time it took.  The next request of the peripheral is
    taken to start now. *)
Definition mix (coef : spec_float) (elapsed b : Z) : spec_float :=
  double_add (double_mul (to_double (to_float elapsed)) coef) (double_mul (to_double (to_float b)) COEF_OLD).
Definition scale (coef : spec_float) (x : Z) : spec_float := double_mul (to_double (to_float x)) coef.

Definition restart_front (signo now : Z) : M (adapt W) unit :=
  front ← queue_front signo;
  if front =? 0 then mret () else
  r ← front_req front;
  set_front_req front (Req (rt_type r) now (rt_guess_end r) (rt_len r));;
  r ← front_req front;
  e ← exec_time (rt_type r);
  set_front_req front (Req (rt_type r) (rt_start r) (guess now e (rt_len r)) (rt_len r)).

Definition learn (coef : spec_float) (signo : Z) : R (adapt W) unit :=
  now ← sys_call micros_now;
  '(_, o) ← sys_call (on_io_queue signo dequeue);
  match o with
  | None => undef UB_uninit
  | Some req =>
      e ← sys_call (exec_time (rt_type req));
      b ← u64_of_double (mix coef (u64 (now - rt_start req)) (et_b e));
      sys_call (set_exec_time (rt_type req) (ExecTime (et_k e) b (et_wait_profile e)));;
      times ← tzio_get_profile_times;
      e ← sys_call (exec_time (rt_type req));
      w ← u64_of_double (scale COEF_WAIT (u64 times));
      sys_call (set_exec_time (rt_type req) (ExecTime (et_k e) (et_b e) (i64 w)));;
      sys_call (restart_front signo now)
  end.

(** ** Checkpoints *)
Section checkpoints.
Context (m : module_inst) (call_wasm : func_ref → Z → Z → R (adapt W) unit).

Definition profile_again : R (adapt W) unit :=
  sys_call (modify (set_no_profile false));; sys_call (modify (set_wait_profile 0)).

Definition aot_poll_ready_signal : R (adapt W) unit :=
  go ← poll_now;
  if negb go then mret () else
  '(r, sig) ← get_ready_signal;
  if negb (r =? 1) then mret () else
  '(signo, sub_signo) ← signo_array sig;
  learn COEF_AOT signo;;
  aot_call_handler m call_wasm signo sub_signo;;
  profile_again.

Definition sigpoll : R (adapt W) unit :=
  v ← gets io_sigpending; if v =? 0 then mret () else aot_poll_ready_signal.

Definition HANDLE_IO_SIGNAL : R (adapt W) unit :=
  go ← poll_now;
  if negb go then mret () else
  '(r, sig) ← get_ready_signal;
  if negb (r =? 1) then mret () else
  '(signo, sub_signo) ← signo_array sig;
  learn COEF_INTERP signo;;
  interp_call_handler call_wasm signo sub_signo;;
  get_ready_signal;;
  profile_again.

Definition checkpoint : R (adapt W) unit :=
  match module_type m with
  | Wasm_Module_AoT => sigpoll
  | Wasm_Module_Bytecode => HANDLE_IO_SIGNAL
  end.
End checkpoints.
End adaptive.
