(* ===== verification/Estimate.v ===== *)
(** * Accuracy of the learnt estimate

    The adaptive checkpoints mix times as floating point numbers.  Rounding is
    bounded here for the operations of [SpecFloat] that the code uses: the
    conversions back to integers are defined for all inputs, and the result is
    close to the exact mixture. *)

From Stdlib Require Import ZArith Lia Bool QArith Qpower Qabs Lqa.
From Stdlib Require Import SpecFloat.
From stdpp Require Import base tactics option list numbers gmap.
From S2P Require Import Prelude Platform IoReq Runtime TeeApi Adaptive.

Open Scope Z_scope.

(** ** Shifting and rounding *)

Lemma digits_bound p : 2 ^ (Zpos (digits2_pos p) - 1) <= Zpos p < 2 ^ Zpos (digits2_pos p).
Proof.
  induction p as [p IH|p IH|]; cbn [digits2_pos]; [| |by vm_compute].
  all: rewrite Pos2Z.inj_succ; set (d := Zpos (digits2_pos p)) in *; assert (0 < d) by (unfold d; lia).
  all: replace (Z.succ d - 1) with (Z.succ (d - 1)) by lia; rewrite !Z.pow_succ_r by lia; lia.
Qed.

Lemma shr_1_div r : 0 <= shr_m r → shr_m (shr_1 r) = shr_m r / 2.
Proof.
  destruct r as [m r s]. cbn [shr_m]. intros Hm. destruct m as [|[p|p|]|p]; cbn [shr_1 shr_m]; try done; try lia.
  - rewrite (Pos2Z.inj_xI p). Z.div_mod_to_equations. lia.
  - rewrite (Pos2Z.inj_xO p). Z.div_mod_to_equations. lia.
Qed.
Lemma iter_shr n : ∀ r, 0 <= shr_m r → shr_m (SpecFloat.iter_pos shr_1 n r) = shr_m r / 2 ^ Zpos n.
Proof.
  assert (∀ a k l, 0 <= k → 0 <= l → a / 2 ^ k / 2 ^ l = a / 2 ^ (k + l)) as Hdiv.
  { intros. rewrite Z.pow_add_r, Z.div_div by lia. done. }
  induction n as [n IH|n IH|]; intros r Hr; cbn [SpecFloat.iter_pos]; [| |by apply shr_1_div].
  - assert (0 <= shr_m (shr_1 r)) as H1 by (rewrite shr_1_div by done; apply Z.div_pos; lia).
    assert (0 <= shr_m (SpecFloat.iter_pos shr_1 n (shr_1 r))) as H2 by (rewrite IH by done; apply Z.div_pos; lia).
    rewrite IH, IH, shr_1_div by done. change 2 with (2 ^ 1) at 1. rewrite !Hdiv by lia. f_equal. f_equal. lia.
  - assert (0 <= shr_m (SpecFloat.iter_pos shr_1 n r)) as H2 by (rewrite IH by done; apply Z.div_pos; lia).
    rewrite IH, IH, Hdiv by (done || lia). f_equal. f_equal. lia.
Qed.

Lemma round_near m l : m <= round_nearest_even m l <= m + 1.
Proof. destruct l as [|[]]; cbn; try lia. destruct (Z.even m); lia. Qed.

(** One shift of a positive mantissa to at most [prec] digits. *)
Lemma shr_fexp_spec prec emax m e l : 0 < prec → 0 < m → emin prec emax <= Zdigits2 m + e - prec →
  ∃ k, 0 <= k ∧ (shr_fexp prec emax m e l).2 = e + k ∧ shr_m (shr_fexp prec emax m e l).1 = m / 2 ^ k
    ∧ (k = 0 ∧ (shr_fexp prec emax m e l).1 = shr_record_of_loc m l ∨ k = Zdigits2 m - prec).
Proof.
  intros Hp Hm He. unfold shr_fexp, fexp. rewrite Z.max_l by lia. replace (Zdigits2 m + e - prec - e) with (Zdigits2 m - prec) by lia.
  assert (shr_m (shr_record_of_loc m l) = m) as Hl by (by destruct l as [|[]]).
  destruct (Zdigits2 m - prec) as [|k|k] eqn:E; cbn [shr fst snd].
  - exists 0. rewrite Hl. split_and!; [lia|lia|by rewrite Z.div_1_r|by left].
  - exists (Zpos k). rewrite iter_shr by (rewrite Hl; lia). rewrite Hl. split_and!; [lia|lia|done|by right].
  - exists 0. rewrite Hl. split_and!; [lia|lia|by rewrite Z.div_1_r|by left].
Qed.

Lemma Zdigits_bound m : 0 < m → 2 ^ (Zdigits2 m - 1) <= m < 2 ^ Zdigits2 m ∧ 0 < Zdigits2 m.
Proof. destruct m as [|p|p]; [lia| |lia]. intros _. cbn [Zdigits2]. split; [apply digits_bound|lia]. Qed.
Lemma Zdigits_le m d : 0 < m → 0 <= d → m <= 2 ^ d → Zdigits2 m <= d + 1.
Proof.
  intros Hm Hd Hle. destruct (Zdigits_bound m Hm) as [[H1 _] _]. destruct (Z.le_gt_cases (Zdigits2 m) (d + 1)); [done|].
  assert (2 ^ d < 2 ^ (Zdigits2 m - 1)) by (apply Z.pow_lt_mono_r; lia). lia.
Qed.
Lemma Zdigits_ge m d : 0 < m → 0 <= d → 2 ^ d <= m → d + 1 <= Zdigits2 m.
Proof.
  intros Hm Hd Hle. destruct (Zdigits_bound m Hm) as [[_ H1] _]. destruct (Z.le_gt_cases (d + 1) (Zdigits2 m)); [done|].
  assert (2 ^ Zdigits2 m <= 2 ^ d) by (apply Z.pow_le_mono_r; lia). lia.
Qed.

Lemma Zdigits_lt m d : 0 < m → m < 2 ^ d → Zdigits2 m <= d.
Proof.
  intros Hm Hlt. destruct (Zdigits_bound m Hm) as [[H1 _] ?]. destruct (Z.le_gt_cases (Zdigits2 m) d); [done|].
  assert (0 <= d) by (destruct (Z.le_gt_cases 0 d); [done|rewrite Z.pow_neg_r in Hlt by done; lia]).
  assert (2 ^ d <= 2 ^ (Zdigits2 m - 1)) by (apply Z.pow_le_mono_r; lia). lia.
Qed.

(** The error of a rounding, in units of the mantissa before it. *)
Definition near (prec m m' k : Z) : Prop := 0 <= k ∧ Z.abs (m' * 2 ^ k - m) * 2 ^ (prec - 3) <= m.

Lemma round_aux_near prec emax m e : 3 < prec → emin prec emax <= Zdigits2 (Zpos m) + e - prec →
  Zdigits2 (Zpos m) + e < emax → e <= emax - prec →
  ∃ m' k, binary_round_aux prec emax false (Zpos m) e loc_Exact = S754_finite false m' (e + k) ∧ near prec (Zpos m) (Zpos m') k.
Proof.
  intros Hp He Hx Hx'. destruct (shr_fexp_spec prec emax (Zpos m) e loc_Exact) as (k&Hk&E2&E1&Hd); [lia|lia|done|].
  unfold binary_round_aux. destruct (shr_fexp prec emax (Zpos m) e loc_Exact) as [r e1] eqn:E. cbn [fst snd] in *. subst e1.
  destruct (Zdigits_bound (Zpos m)) as [[Hlo _] _]; [lia|]. destruct Hd as [[-> ->]|Hd].
  { cbn [shr_record_of_loc shr_m loc_of_shr_record round_nearest_even]. rewrite Z.add_0_r in E |- *. rewrite E. cbn [shr_record_of_loc shr_m].
    rewrite (proj2 (Z.leb_le e _)) by lia. exists m, 0. rewrite Z.add_0_r. split; [done|]. split; [done|]. rewrite Z.mul_1_r, Z.sub_diag. lia. }
  set (m1 := round_nearest_even (shr_m r) (loc_of_shr_record r)).
  assert (Zpos m / 2 ^ k <= m1 <= Zpos m / 2 ^ k + 1) as Hm1 by (rewrite <- E1; apply round_near).
  assert (0 < 2 ^ k ∧ 2 ^ (prec - 1) * 2 ^ k <= Zpos m) as [H2k Hbig].
  { split; [by apply Z.pow_pos_nonneg|]. rewrite <- Z.pow_add_r by lia. by replace (prec - 1 + k) with (Zdigits2 (Zpos m) - 1) by lia. }
  assert (2 ^ (prec - 1) <= Zpos m / 2 ^ k < 2 ^ prec) as Hq.
  { split; [apply Z.div_le_lower_bound; lia|]. apply Z.div_lt_upper_bound; [done|].
    rewrite <- Z.pow_add_r by lia. replace (k + prec) with (Zdigits2 (Zpos m)) by lia. apply Zdigits_bound. lia. }
  assert (0 < 2 ^ (prec - 1)) by (apply Z.pow_pos_nonneg; lia).
  pose proof (Zdigits_le m1 prec ltac:(lia) ltac:(lia) ltac:(lia)). pose proof (Zdigits_ge m1 (prec - 1) ltac:(lia) ltac:(lia) ltac:(lia)).
  destruct (shr_fexp_spec prec emax m1 (e + k) loc_Exact) as (k2&Hk2&E2'&E1'&Hd2); [lia|lia|lia|].
  destruct (shr_fexp prec emax m1 (e + k) loc_Exact) as [r2 e2]. cbn [fst snd] in *. subst e2.
  assert (k2 = 0 ∨ k2 = 1) as Hk21 by (destruct Hd2 as [[? _]|?]; lia).
  assert (m1 - 1 <= m1 / 2 ^ k2 * 2 ^ k2 <= m1 ∧ 0 < m1 / 2 ^ k2) as [Hm2 Hpos].
  { destruct Hk21 as [-> | ->]; [rewrite Z.div_1_r; lia|]. change (2 ^ 1) with 2. assert (2 <= m1); [|Z.div_mod_to_equations; lia].
    change 2 with (2 ^ 1). etrans; [apply (Z.pow_le_mono_r 2 1 (prec - 1)); lia|lia]. }
  rewrite E1'. destruct (m1 / 2 ^ k2) as [|m2|m2] eqn:Em2; [lia| |lia]. rewrite (proj2 (Z.leb_le _ _)) by lia.
  exists m2, (k + k2). rewrite Z.add_assoc. split; [done|]. split; [lia|]. rewrite Z.pow_add_r by lia.
  pose proof (Z.div_mod (Zpos m) (2 ^ k) ltac:(lia)). pose proof (Z.mod_pos_bound (Zpos m) (2 ^ k) H2k).
  assert (Z.abs (Zpos m2 * (2 ^ k * 2 ^ k2) - Zpos m) <= 2 * 2 ^ k) by nia.
  assert (2 ^ (prec - 1) = 4 * 2 ^ (prec - 3)) as E4 by (rewrite <- (Z.pow_add_r 2 2) by lia; f_equal; lia).
  assert (0 < 2 ^ (prec - 3)) by (apply Z.pow_pos_nonneg; lia). nia.
Qed.

(** ** Values as rationals *)

Definition qv (m : positive) (e : Z) : Q := inject_Z (Zpos m) * Qpower 2 e.
(** A positive number of about [v], between two powers of two. *)
Definition span (m : positive) (e lo hi : Z) : Prop := lo <= Zdigits2 (Zpos m) + e <= hi.
Definition about (x : spec_float) (v eps : Q) (lo hi : Z) : Prop :=
  ∃ m e, x = S754_finite false m e ∧ span m e lo hi ∧ (Qabs (qv m e - v) <= v * eps)%Q.

Lemma pow2_pos e : (0 < Qpower 2 e)%Q.
Proof. apply Qpower_0_lt. reflexivity. Qed.
Lemma pow2_add a b : (Qpower 2 (a + b) == Qpower 2 a * Qpower 2 b)%Q.
Proof. apply Qpower_plus. discriminate. Qed.
Lemma pow2_Z n : 0 <= n → (Qpower 2 n == inject_Z (2 ^ n))%Q.
Proof. intros Hn. symmetry. by apply Zpower_Qpower. Qed.
Lemma qv_pos m e : (0 < qv m e)%Q.
Proof. apply Qmult_lt_0_compat; [reflexivity|apply pow2_pos]. Qed.

Lemma qv_shift m n e d : 0 <= d → Zpos n = Zpos m * 2 ^ d → (qv n (e - d) == qv m e)%Q.
Proof.
  intros Hd E. unfold qv. rewrite E, inject_Z_mult, <- pow2_Z, <- Qmult_assoc, <- pow2_add by done.
  by replace (d + (e - d)) with e by lia.
Qed.
Lemma digits_shift m n d : 0 <= d → Zpos n = Zpos m * 2 ^ d → Zdigits2 (Zpos n) = Zdigits2 (Zpos m) + d.
Proof.
  intros Hd E. destruct (Zdigits_bound (Zpos m)) as [[H1 H2] H3]; [lia|]. assert (0 < 2 ^ d) by (apply Z.pow_pos_nonneg; lia).
  apply Z.le_antisymm.
  - destruct (Zdigits_bound (Zpos n)) as [[H4 _] _]; [lia|]. destruct (Z.le_gt_cases (Zdigits2 (Zpos n)) (Zdigits2 (Zpos m) + d)); [done|].
    assert (2 ^ (Zdigits2 (Zpos m) + d) <= 2 ^ (Zdigits2 (Zpos n) - 1)) by (apply Z.pow_le_mono_r; lia).
    rewrite Z.pow_add_r in * by lia. nia.
  - replace (Zdigits2 (Zpos m) + d) with (Zdigits2 (Zpos m) - 1 + d + 1) by lia. apply Zdigits_ge; [lia|lia|].
    rewrite Z.pow_add_r by lia. nia.
Qed.

(** Rounding moves a value by a small part of it. *)
Lemma near_Q prec m m' e k : 3 < prec → near prec (Zpos m) (Zpos m') k →
  (Qabs (qv m' (e + k) - qv m e) <= qv m e * Qpower 2 (3 - prec))%Q.
Proof.
  intros Hp [Hk Hn]. assert (qv m' (e + k) - qv m e == inject_Z (Zpos m' * 2 ^ k - Zpos m) * Qpower 2 e)%Q as ->.
  { unfold qv. rewrite pow2_add, (pow2_Z k) by done. unfold Zminus. rewrite inject_Z_plus, inject_Z_mult, inject_Z_opp. ring. }
  rewrite Qabs_Qmult, (Qabs_pos (Qpower 2 e)) by (apply Qlt_le_weak, pow2_pos). unfold qv.
  assert (inject_Z (Z.abs (Zpos m' * 2 ^ k - Zpos m)) <= inject_Z (Zpos m) * Qpower 2 (3 - prec))%Q as Hq.
  { apply (Qmult_le_r _ _ (Qpower 2 (prec - 3))); [apply pow2_pos|]. rewrite <- Qmult_assoc, <- pow2_add.
    replace (3 - prec + (prec - 3)) with 0 by lia. change (Qpower 2 0) with 1%Q. rewrite Qmult_1_r, (pow2_Z (prec - 3)), <- inject_Z_mult, <- Zle_Qle by lia.
    exact Hn. }
  assert (Qabs (inject_Z (Zpos m' * 2 ^ k - Zpos m)) == inject_Z (Z.abs (Zpos m' * 2 ^ k - Zpos m)))%Q as -> by reflexivity.
  pose proof (pow2_pos e). nra.
Qed.
Lemma near_span prec m m' k : 3 < prec → near prec (Zpos m) (Zpos m') k →
  Zdigits2 (Zpos m) - 1 <= Zdigits2 (Zpos m') + k <= Zdigits2 (Zpos m) + 1.
Proof.
  intros Hp [Hk Hn]. destruct (Zdigits_bound (Zpos m)) as [[H1 H2] H3]; [lia|].
  assert (2 <= 2 ^ (prec - 3)) by (apply (Z.pow_le_mono_r 2 1); lia). assert (0 < 2 ^ k) as H2k by (by apply Z.pow_pos_nonneg).
  assert (Zpos m <= 2 * (Zpos m' * 2 ^ k) ∧ Zpos m' * 2 ^ k <= 2 * Zpos m) as [Ha Hb] by nia.
  assert (Zpos (Pos.mul m' (Z.to_pos (2 ^ k))) = Zpos m' * 2 ^ k) as En by (rewrite Pos2Z.inj_mul, Z2Pos.id by done; done).
  rewrite <- (digits_shift m' _ k Hk En). rewrite <- En in Ha, Hb. set (n := Pos.mul _ _) in *. split.
  - destruct (Z.eq_dec (Zdigits2 (Zpos m)) 1) as [->|]; [destruct (Zdigits_bound (Zpos n)); lia|].
    replace (Zdigits2 (Zpos m) - 1) with (Zdigits2 (Zpos m) - 2 + 1) by lia. apply Zdigits_ge; [lia|lia|].
    replace (Zdigits2 (Zpos m) - 1) with (Z.succ (Zdigits2 (Zpos m) - 2)) in H1 by lia. rewrite Z.pow_succ_r in H1 by lia. lia.
  - apply Zdigits_lt; [lia|]. rewrite Z.pow_add_r by lia. lia.
Qed.

(** ** The operations *)

(** The exponents at which a format has its full precision. *)
Definition in_format (prec emax lo hi : Z) : Prop := 3 < prec ∧ emin prec emax <= lo - prec ∧ hi < emax ∧ hi - prec < emax - prec.

Lemma round_about prec emax m e lo hi : in_format prec emax lo hi → span m e lo hi → e <= emax - prec →
  about (binary_round_aux prec emax false (Zpos m) e loc_Exact) (qv m e) (Qpower 2 (3 - prec)) (lo - 1) (hi + 1).
Proof.
  intros (Hp&H1&H2&H3) Hs He. unfold span in *.
  destruct (round_aux_near prec emax m e) as (m'&k&->&Hn); [lia|lia|lia|lia|]. exists m', (e + k). split; [done|]. split.
  - pose proof (near_span _ _ _ _ Hp Hn). unfold span. lia.
  - by apply near_Q.
Qed.

Lemma shl_align_spec m e e' : ∃ n d, shl_align m e e' = (n, e - d) ∧ 0 <= d ∧ e - d <= Z.max e' (e - d) ∧ Zpos n = Zpos m * 2 ^ d
  ∧ (e' <= e → e - d = e') ∧ (e <= e' → d = 0).
Proof.
  unfold shl_align. destruct (e' - e) as [|d|d] eqn:E.
  - exists m, 0. rewrite Z.sub_0_r. split_and!; try done; lia.
  - exists m, 0. rewrite Z.sub_0_r. split_and!; try done; lia.
  - exists (Pos.iter xO m d), (Zpos d). replace (e - Zpos d) with e' by lia. split_and!; try done; try lia.
    clear E. rewrite <- Z.shiftl_mul_pow2 by lia. cbn [Z.shiftl]. apply (Pos.iter_swap_gen _ _ Zpos). done.
Qed.

Lemma binary_round_about prec emax m e lo hi : in_format prec emax lo hi → span m e lo hi →
  about (binary_round prec emax false m e) (qv m e) (Qpower 2 (3 - prec)) (lo - 1) (hi + 1).
Proof.
  intros Hf Hs. unfold binary_round.
  destruct (shl_align_spec m e (fexp prec emax (Zpos (digits2_pos m) + e))) as (n&d&->&Hd&_&En&He1&He2).
  assert (fexp prec emax (Zpos (digits2_pos m) + e) = Zdigits2 (Zpos m) + e - prec) as Ef.
  { unfold fexp. rewrite Z.max_l; [done|]. unfold in_format, span in *. cbn [Zdigits2] in *. lia. }
  pose proof (digits_shift m n d Hd En) as Hdig.
  destruct (round_about prec emax n (e - d) lo hi Hf) as (m'&e'&Ex&Hs'&Hq).
  - unfold span in *. lia.
  - rewrite Ef in *. unfold in_format, span in *. destruct (Z.le_gt_cases (Zdigits2 (Zpos m) + e - prec) e); [rewrite He1 by done; lia|].
    rewrite He2 by lia. lia.
  - exists m', e'. split; [done|]. split; [done|]. by rewrite <- (qv_shift m n e d).
Qed.

(** Errors add up. *)
Lemma about_trans x m e v a b lo hi : about x (qv m e) a lo hi → (Qabs (qv m e - v) <= v * b)%Q → (0 <= v)%Q → (0 <= a)%Q → (0 <= b <= 1)%Q →
  about x v (2 * a + b) lo hi.
Proof.
  intros (m'&e'&->&Hs&Hq) Hv H0 Ha Hb. exists m', e'. split; [done|]. split; [done|].
  apply Qabs_Qle_condition in Hq, Hv. apply Qabs_Qle_condition. split; nra.
Qed.

Lemma about_mono x v a b lo hi lo' hi' : about x v a lo hi → (0 <= v)%Q → (a <= b)%Q → lo' <= lo → hi <= hi' → about x v b lo' hi'.
Proof.
  intros (m&e&->&Hs&Hq) Hv Hab ? ?. exists m, e. split; [done|]. split; [unfold span in *; lia|].
  eapply Qle_trans; [exact Hq|]. nra.
Qed.
Lemma about_eq x v v' a lo hi : (v == v')%Q → about x v a lo hi → about x v' a lo hi.
Proof. intros E (m&e&->&Hs&Hq). exists m, e. split; [done|]. split; [done|]. by rewrite <- E. Qed.

(** Zero stays exactly zero. *)
Definition approx (x : spec_float) (v eps : Q) (lo hi : Z) : Prop :=
  x = S754_zero false ∧ (v == 0)%Q ∨ (0 < v)%Q ∧ about x v eps lo hi.

Lemma to_float_approx x : 0 <= x < 2 ^ 64 → approx (to_float x) (inject_Z x) (1 # 2 ^ 21) 0 65.
Proof.
  intros Hx. destruct x as [|p|p]; [by left| |lia]. right. split; [reflexivity|].
  destruct (Zdigits_bound (Zpos p)) as [_ ?]; [lia|]. pose proof (Zdigits_lt (Zpos p) 64 ltac:(lia) ltac:(lia)).
  eapply about_eq, about_mono; [|apply (binary_round_about 24 128 p 0 1 64)| | |reflexivity|lia].
  - unfold qv. change (Qpower 2 0) with 1%Q. ring.
  - by vm_compute.
  - unfold span. lia.
  - apply Qlt_le_weak, qv_pos.
  - by vm_compute.
Qed.

Lemma to_double_approx x v eps lo hi : approx x v eps lo hi → -100 <= lo → hi <= 100 → (0 <= eps <= 1)%Q →
  approx (to_double x) v (2 * (1 # 2 ^ 50) + eps) (lo - 1) (hi + 1).
Proof.
  intros [[-> ?]|[Hv (m&e&->&Hs&Hq)]] ? ? ?; [by left|]. right. split; [done|]. cbn [to_double].
  eapply about_trans; [|exact Hq|by apply Qlt_le_weak|done|done]. apply (binary_round_about 53 1024 m e lo hi); [|done].
  unfold in_format, emin. lia.
Qed.

(** A constant of the code: a double close to a positive fraction. *)
Definition constant (x : spec_float) (v : Q) : Prop := (0 < v)%Q ∧ about x v (1 # 2 ^ 50) (-10) 1.

Lemma digits_mul m n : Zdigits2 (Zpos m) + Zdigits2 (Zpos n) - 1 <= Zdigits2 (Zpos (m * n)) <= Zdigits2 (Zpos m) + Zdigits2 (Zpos n).
Proof.
  destruct (Zdigits_bound (Zpos m)) as [[H1 H2] H3], (Zdigits_bound (Zpos n)) as [[H4 H5] H6]; [lia..|].
  rewrite Pos2Z.inj_mul. split.
  - replace (Zdigits2 (Zpos m) + Zdigits2 (Zpos n) - 1) with ((Zdigits2 (Zpos m) - 1) + (Zdigits2 (Zpos n) - 1) + 1) by lia.
    apply Zdigits_ge; [lia|lia|]. rewrite Z.pow_add_r by lia. assert (0 < 2 ^ (Zdigits2 (Zpos m) - 1)) by (apply Z.pow_pos_nonneg; lia). nia.
  - apply Zdigits_lt; [lia|]. rewrite Z.pow_add_r by lia. nia.
Qed.
Lemma qv_mul m n e f : (qv (m * n) (e + f) == qv m e * qv n f)%Q.
Proof. unfold qv. rewrite Pos2Z.inj_mul, inject_Z_mult, pow2_add. ring. Qed.

Lemma product_error a b va vb ea eb : (0 < va)%Q → (0 < vb)%Q → (0 <= ea <= 1)%Q → (0 <= eb <= 1)%Q →
  (Qabs (a - va) <= va * ea)%Q → (Qabs (b - vb) <= vb * eb)%Q → (Qabs (a * b - va * vb) <= va * vb * (2 * ea + eb))%Q.
Proof.
  intros Ha Hb Hea Heb H1 H2.
  assert (a * b - va * vb == (a - va) * vb + (va * (b - vb) + (a - va) * (b - vb)))%Q as -> by ring.
  eapply Qle_trans; [apply Qabs_triangle|]. eapply Qle_trans; [apply Qplus_le_r, Qabs_triangle|].
  rewrite !Qabs_Qmult, (Qabs_pos va), (Qabs_pos vb) by (by apply Qlt_le_weak).
  set (x := Qabs (a - va)) in *. set (y := Qabs (b - vb)) in *.
  assert (0 <= x)%Q by apply Qabs_nonneg. assert (0 <= y)%Q by apply Qabs_nonneg.
  assert (x * vb <= va * vb * ea)%Q by nra. assert (va * y <= va * vb * eb)%Q by nra.
  assert (x * y <= va * ea * (vb * 1))%Q; [|nra]. apply (Qle_trans _ (va * ea * y)); [nra|]. assert (y <= vb * 1)%Q by nra. assert (0 <= va * ea)%Q by nra. nra.
Qed.

Lemma mul_approx x v eps lo hi c vc : approx x v eps lo hi → constant c vc → -100 <= lo → hi <= 100 → (0 <= eps <= 1 # 4)%Q →
  approx (double_mul x c) (v * vc) (2 * eps + (1 # 2 ^ 48)) (lo - 12) (hi + 2).
Proof.
  intros [[-> Hv]|[Hv (m&e&->&Hs&Hq)]] [Hvc (n&f&->&Hs'&Hq')] ? ? Heps.
  { left. split; [done|]. rewrite Hv. ring. }
  right. split; [by apply Qmult_lt_0_compat|]. cbn [double_mul SFmul xorb]. pose proof (digits_mul m n).
  eapply about_mono; [eapply (about_trans _ (m * n) (e + f) _ (1 # 2 ^ 50) (2 * eps + (1 # 2 ^ 50)))| | |..].
  - apply (round_about 53 1024 (m * n) (e + f) (lo - 11) (hi + 1)).
    + unfold in_format, emin. lia.
    + unfold span in *. lia.
    + unfold span in *. destruct (Zdigits_bound (Zpos (m * n))) as [_ ?]; [lia|]. lia.
  - rewrite qv_mul. apply product_error; try done. destruct Heps. lra.
  - apply Qlt_le_weak. by apply Qmult_lt_0_compat.
  - done.
  - destruct Heps. assert (0 <= 1 # 2 ^ 50)%Q by done. assert (1 # 2 ^ 50 <= 1 # 4)%Q by done. lra.
  - apply Qlt_le_weak. by apply Qmult_lt_0_compat.
  - assert (2 * (1 # 2 ^ 50) + (1 # 2 ^ 50) <= 1 # 2 ^ 48)%Q by (by vm_compute). lra.
  - lia.
  - lia.
Qed.

Lemma add_approx x y v w eps lo hi : approx x v eps lo hi → approx y w eps lo hi → -100 <= lo → hi <= 100 → (0 <= eps <= 1 # 4)%Q →
  approx (double_add x y) (v + w) (eps + (1 # 2 ^ 48)) (lo - 1) (hi + 2).
Proof.
  intros [[-> Hv]|[Hv (m&e&->&Hs&Hq)]] [[-> Hw]|[Hw (n&f&->&Hs'&Hq')]] ? ? Heps; cbn [double_add SFadd].
  - left. split; [done|]. rewrite Hv, Hw. ring.
  - right. split; [rewrite Hv; lra|]. eapply about_eq, about_mono; [|by exists n, f| | |..]; try lia; [rewrite Hv; ring|lra|assert (0 <= 1 # 2 ^ 48)%Q by done; lra].
  - right. split; [rewrite Hw; lra|]. eapply about_eq, about_mono; [|by exists m, e| | |..]; try lia; [rewrite Hw; ring|lra|assert (0 <= 1 # 2 ^ 48)%Q by done; lra].
  - right. split; [lra|].
    destruct (shl_align_spec m e (Z.min e f)) as (m'&d&->&Hd&_&Em&He1&_), (shl_align_spec n f (Z.min e f)) as (n'&d'&->&Hd'&_&En&He2&_).
    specialize (He1 ltac:(lia)). specialize (He2 ltac:(lia)). cbn [fst cond_Zopp]. change (Zpos m' + Zpos n') with (Zpos (m' + n')).
    cbn [binary_normalize]. assert (qv (m' + n') (Z.min e f) == qv m e + qv n f)%Q as Esum.
    { rewrite <- (qv_shift m m' e d), <- (qv_shift n n' f d') by done. rewrite He1, He2. unfold qv.
      rewrite Pos2Z.inj_add, inject_Z_plus. ring. }
    assert (span (m' + n') (Z.min e f) lo (hi + 1)) as Hsum.
    { pose proof (digits_shift m m' d Hd Em). pose proof (digits_shift n n' d' Hd' En). unfold span in *.
      destruct (Zdigits_bound (Zpos m')) as [[G1 G2] G3], (Zdigits_bound (Zpos n')) as [[G4 G5] G6]; [lia..|]. split.
      - assert (Zdigits2 (Zpos m') <= Zdigits2 (Zpos (m' + n'))); [|lia].
        replace (Zdigits2 (Zpos m')) with (Zdigits2 (Zpos m') - 1 + 1) by lia. apply Zdigits_ge; lia.
      - set (t := Z.max (Zdigits2 (Zpos m')) (Zdigits2 (Zpos n'))). assert (Zdigits2 (Zpos (m' + n')) <= t + 1); [|lia].
        apply Zdigits_lt; [lia|]. rewrite Z.pow_add_r by lia. assert (2 ^ Zdigits2 (Zpos m') <= 2 ^ t) by (apply Z.pow_le_mono_r; lia).
        assert (2 ^ Zdigits2 (Zpos n') <= 2 ^ t) by (apply Z.pow_le_mono_r; lia). lia. }
    apply (about_mono _ _ (2 * (1 # 2 ^ 50) + eps) _ (lo - 1) (hi + 1 + 1)); [apply (about_trans _ (m' + n') (Z.min e f))|..]; try lia; try lra; try done.
    + apply (binary_round_about 53 1024 (m' + n') (Z.min e f) lo (hi + 1)); [unfold in_format, emin; lia|done].
    + rewrite Esum. apply Qabs_Qle_condition in Hq, Hq'. apply Qabs_Qle_condition. split; lra.
    + assert (2 * (1 # 2 ^ 50) <= 1 # 2 ^ 48)%Q by (by vm_compute). lra.
Qed.

(** ** The results *)

Ltac solve_constant := split; [by vm_compute|]; do 2 eexists; split; [vm_compute; reflexivity|]; split; [split; by vm_compute|]; by vm_compute.
Lemma coef_aot_constant : constant COEF_AOT (91 # 100).
Proof. solve_constant. Qed.
Lemma coef_interp_constant : constant COEF_INTERP (76 # 100).
Proof. solve_constant. Qed.
Lemma coef_old_constant : constant COEF_OLD (1 # 100).
Proof. solve_constant. Qed.
Lemma coef_wait_constant : constant COEF_WAIT (8 # 10).
Proof. solve_constant. Qed.

Lemma trunc_approx x v eps lo hi : approx x v eps lo hi → (0 <= eps <= 1)%Q →
  ∃ r, trunc x = Some r ∧ 0 <= r ∧ (Qabs (inject_Z r - v) <= v * eps + 1)%Q.
Proof.
  intros [[-> Hv]|[Hv (m&e&->&Hs&Hq)]] Heps.
  { exists 0. split_and!; [done|done|]. rewrite Hv. by vm_compute. }
  eexists. split; [done|]. cbv zeta iota. set (r := if 0 <=? e then _ else _).
  assert (0 <= r ∧ (inject_Z r <= qv m e)%Q ∧ (qv m e <= inject_Z r + 1)%Q) as (H0&H1&H2).
  { unfold r, qv. destruct (Z.leb_spec 0 e).
    - assert (inject_Z (Zpos m * 2 ^ e) == inject_Z (Zpos m) * Qpower 2 e)%Q as -> by (by rewrite inject_Z_mult, (pow2_Z e)).
      split_and!; [assert (0 <= 2 ^ e) by (by apply Z.pow_nonneg); lia|lra|lra].
    - assert (0 < 2 ^ (- e)) as Hpos by (apply Z.pow_pos_nonneg; lia). split; [apply Z.div_pos; lia|].
      assert (Qpower 2 e * inject_Z (2 ^ (- e)) == 1)%Q as E1.
      { rewrite <- (pow2_Z (- e)), <- pow2_add by lia. by replace (e + - e) with 0 by lia. }
      pose proof (Z.div_mod (Zpos m) (2 ^ (- e)) ltac:(lia)) as Hd. pose proof (Z.mod_pos_bound (Zpos m) (2 ^ (- e)) Hpos) as [Hm1 Hm2].
      set (q := Zpos m / 2 ^ (- e)) in *. set (d := 2 ^ (- e)) in *. rewrite Hd, inject_Z_plus, inject_Z_mult.
      rewrite Zle_Qle in Hm1. rewrite Zlt_Qlt in Hm2, Hpos. cbn in Hm1.
      set (rm := inject_Z (Zpos m mod d)) in *. set (D := inject_Z d) in *. change (inject_Z 0) with 0%Q in *. pose proof (pow2_pos e).
      assert ((D * inject_Z q + rm) * Qpower 2 e == inject_Z q + rm * Qpower 2 e)%Q as ->.
      { rewrite <- (Qmult_1_l (inject_Z q)) at 2. rewrite <- E1. ring. }
      assert (rm * Qpower 2 e <= D * Qpower 2 e)%Q by nra. assert (D * Qpower 2 e == 1)%Q by (rewrite <- E1; ring).
      split; [nra|lra]. }
  split; [done|]. apply Qabs_Qle_condition in Hq. apply Qabs_Qle_condition. split; lra.
Qed.

Lemma double_approx x : 0 <= x < 2 ^ 64 → approx (to_double (to_float x)) (inject_Z x) (1 # 2 ^ 20) (-1) 66.
Proof.
  intros Hx. destruct (to_double_approx _ _ _ _ _ (to_float_approx x Hx)) as [?|[? Ha]]; try done; [by left|right].
  split; [done|]. eapply about_mono; [exact Ha|by apply Qlt_le_weak|by vm_compute|done|done].
Qed.
Lemma scale_approx x c v : 0 <= x < 2 ^ 64 → constant c v → approx (scale c x) (inject_Z x * v) (1 # 2 ^ 18) (-13) 68.
Proof.
  intros Hx Hc. destruct (mul_approx _ _ _ _ _ _ _ (double_approx x Hx) Hc) as [?|[? Ha]]; try done; [by left|right].
  split; [done|]. eapply about_mono; [exact Ha|by apply Qlt_le_weak|by vm_compute|done|done].
Qed.

(** From the rational bound to integers: [v] is [a / n]. *)
Lemma integer_bound r a n : 0 < n → 0 <= a → (Qabs (inject_Z r - inject_Z a / inject_Z n) <= inject_Z a / inject_Z n * (1 # 2 ^ 17) + 1)%Q →
  Z.abs (n * r - a) * 2 ^ 17 <= n * 2 ^ 17 + a.
Proof.
  intros Hn Ha Hq. rewrite Zle_Qle, inject_Z_mult, inject_Z_plus, inject_Z_mult.
  assert (inject_Z (Z.abs (n * r - a)) == inject_Z n * Qabs (inject_Z r - inject_Z a / inject_Z n))%Q as ->.
  { assert (0 < inject_Z n)%Q by (by rewrite <- (Zlt_Qlt 0)). rewrite <- (Qabs_pos (inject_Z n)) at 1 by lra. rewrite <- Qabs_Qmult.
    assert (inject_Z n * (inject_Z r - inject_Z a / inject_Z n) == inject_Z (n * r - a))%Q as ->; [|reflexivity].
    unfold Zminus. rewrite inject_Z_plus, inject_Z_mult, inject_Z_opp. field. lra. }
  assert (0 < inject_Z n)%Q as Hn' by (by rewrite <- (Zlt_Qlt 0)). change (inject_Z (2 ^ 17)) with (131072 # 1)%Q.
  set (x := Qabs _) in *. assert (inject_Z n * (inject_Z a / inject_Z n) == inject_Z a)%Q as E by (field; lra).
  set (v := (inject_Z a / inject_Z n)%Q) in *. change (1 # 2 ^ 17)%Q with (1 # 131072)%Q in Hq. nra.
Qed.

Lemma u64_of_approx {S} x a n lo hi (s : S) : approx x (inject_Z a / inject_Z n) (1 # 2 ^ 17) lo hi → 0 < n → 0 <= a → 100 * a <= n * 93 * 2 ^ 64 →
  ∃ r, u64_of_double x s = Ok r s ∧ 0 <= r < 2 ^ 64 ∧ Z.abs (n * r - a) * 2 ^ 17 <= n * 2 ^ 17 + a.
Proof.
  intros Hx Hn Ha Hle. destruct (trunc_approx _ _ _ _ _ Hx) as (r&Et&Hr&Hq); [done|]. pose proof (integer_bound r a n Hn Ha Hq) as Hb.
  assert (r < 2 ^ 64) as Hlt by nia. exists r. unfold u64_of_double. rewrite Et, (proj2 (Z.leb_le _ _)), (proj2 (Z.ltb_lt _ _)) by done. done.
Qed.

Lemma mix_approx c n x b : constant c (n # 100) → 0 <= x < 2 ^ 64 → 0 <= b < 2 ^ 64 → 0 <= n →
  approx (mix c x b) (inject_Z (n * x + b) / inject_Z 100) (1 # 2 ^ 17) (-14) 70.
Proof.
  intros Hc Hx Hb Hn.
  destruct (add_approx _ _ _ _ _ _ _ (scale_approx x c _ Hx Hc) (scale_approx b _ _ Hb coef_old_constant)) as [[E Hv]|[Hv Ha]]; try done;
    [left; split; [exact E|]|right].
  all: assert (inject_Z (n * x + b) / inject_Z 100 == inject_Z x * (n # 100) + inject_Z b * (1 # 100))%Q as Ev
    by (rewrite inject_Z_plus, inject_Z_mult, (Qmake_Qdiv n 100), (Qmake_Qdiv 1 100); field).
  - etransitivity; [exact Ev|exact Hv].
  - split; [by rewrite Ev|]. eapply about_eq; [symmetry; exact Ev|]. eapply about_mono; [exact Ha|by apply Qlt_le_weak|by vm_compute|done|done].
Qed.

(** What the code computes with it. *)
Definition weight (c : spec_float) (n : Z) : Prop := constant c (n # 100) ∧ 0 <= n <= 92.

Lemma mix_u64 {S} c n x b (s : S) : weight c n → 0 <= x < 2 ^ 64 → 0 <= b < 2 ^ 64 →
  ∃ r, u64_of_double (mix c x b) s = Ok r s ∧ 0 <= r < 2 ^ 64 ∧ Z.abs (100 * r - (n * x + b)) * 2 ^ 17 <= 100 * 2 ^ 17 + (n * x + b).
Proof.
  intros [Hc Hn] Hx Hb. eapply u64_of_approx; [by apply mix_approx; [|..|lia]|done|nia|nia].
Qed.
Lemma scale_u64 {S} x (s : S) : 0 <= x < 2 ^ 64 →
  ∃ r, u64_of_double (scale COEF_WAIT x) s = Ok r s ∧ 0 <= r < 2 ^ 64 ∧ Z.abs (10 * r - 8 * x) * 2 ^ 17 <= 10 * 2 ^ 17 + 8 * x.
Proof.
  intros Hx. eapply (u64_of_approx _ (8 * x) 10); [|done|lia|lia].
  destruct (scale_approx x _ _ Hx coef_wait_constant) as [[E Hv]|[Hv Ha]]; [left; split; [exact E|]|right].
  all: assert (inject_Z (8 * x) / inject_Z 10 == inject_Z x * (8 # 10))%Q as Ev by (rewrite inject_Z_mult; change (inject_Z 8) with (8 # 1)%Q; change (inject_Z 10) with (10 # 1)%Q; field).
  - etransitivity; [exact Ev|exact Hv].
  - split; [by rewrite Ev|]. eapply about_eq; [symmetry; exact Ev|]. eapply about_mono; [exact Ha|by apply Qlt_le_weak|by vm_compute|reflexivity|reflexivity].
Qed.
Lemma weight_aot : weight COEF_AOT 91.
Proof. split; [apply coef_aot_constant|done]. Qed.
Lemma weight_interp : weight COEF_INTERP 76.
Proof. split; [apply coef_interp_constant|done]. Qed.
