(* ===== verification/AdaptiveProofs.v ===== *)
(** * Adaptive checkpoints: invariant and dispatch

    The queues and the table of estimates are consistent, kept by every step,
    and a checkpoint that polls dispatches as one without the option. *)

From Stdlib Require Import ZArith Lia Bool.
From Stdlib Require Import SpecFloat.
From stdpp Require Import base tactics option list numbers gmap.
From S2P Require Import Prelude Platform Params IoReq Queues IoState IoSignal IoSignalProofs.
From S2P Require Import Runtime RuntimeScan RuntimeProofs AppMemory TeeApi TzioProofs Frames Adaptive Estimate.

Open Scope Z_scope.

(** ** The queue against the one of the I/O helper *)

Definition status (r : Z) : Z := if r =? TEE_SUCCESS then 0 else -1.

Lemma wp_enqueue t ok req (Q : Z → _ → Prop) s : wp t (IoReq.enqueue ok req) (λ r s', Q (status r) s') s → wp t (enqueue ok req) Q s.
Proof.
  unfold wp, enqueue, IoReq.enqueue, is_empty, set_front, set_rear, gets, modify, mbind, M_bind. destruct ok; cbn [negb]; [|done].
  destruct (new_node req s) as [p s1| |]; [|done|done]. destruct (q_front s1.2 =? 0); [done|]. by destruct (store_next _ p s1).
Qed.
Lemma wp_dequeue t (Q : Z * option io_req_t → _ → Prop) s : wp t IoReq.dequeue (λ r s', Q (status r.1, r.2) s') s → wp t dequeue Q s.
Proof.
  unfold wp, dequeue, IoReq.dequeue, is_empty, set_front, set_rear, gets, modify, mbind, M_bind.
  destruct (q_front s.2 =? 0); [done|]. destruct (load_node _ s) as [n s1| |]; [|done|done].
  destruct (nd_next n =? 0); unfold mret, M_ret; repeat case_match; simplify_eq; done.
Qed.

(** ** Invariant *)

Definition req_ok (r : io_req_t) : Prop := 0 <= rt_type r < N_REQ_TYPE.
Definition entry_ok (e : exec_time_t) : Prop := 0 <= et_b e < 2 ^ 64.

Section invariant.
Context {W : Type} `{!TeeClient W, !TeeServices W}.
Implicit Type w : adapt W.

Record ad_ok w : Prop := {
  ad_table : Z.of_nat (length (exec_time_table w)) = N_REQ_TYPE;
  ad_entries : Forall entry_ok (exec_time_table w);
  ad_queues : Z.of_nat (length (io_queues w)) = N_SIG;
  ad_lists : ∃ ql, queues_rep (ad_nodes w) (io_queues w) ql ∧ ∀ i id r, (i < length (io_queues w))%nat → (id, r) ∈ ql i → req_ok r
}.

(** The first node of a queue. *)
Definition front_of w (p : Z) : Z := from_option q_front 0 (io_queues w !! Z.to_nat p).

Lemma ad_ok_init (x : W) : ad_ok (adapt_init x).
Proof.
  split; [done| |done|].
  - repeat (apply Forall_cons_2; [done|]). apply Forall_nil_2.
  - exists (λ _, []). split; [|by intros ? ? ? _ ?%elem_of_nil]. split; [done| |by intros ? ? ? _ _ _ ?%elem_of_nil].
    intros i q Hq. apply lookup_replicate in Hq as [-> _]. split_and!; [done|done|constructor|constructor].
Qed.

Lemma queue_lookup w p : ad_ok w → in_periph p → ∃ q, io_queues w !! Z.to_nat p = Some q.
Proof.
  intros [_ _ Hl _] Hp. apply lookup_lt_is_Some_2. unfold in_periph, N_PERIPH, N_SIG in *. lia.
Qed.

(** Only the variables of the option change. *)
Definition own w w' : Prop := ad_sys w' = ad_sys w ∧ ad_ok w'.

Lemma exec_time_ok t w ty (Q : exec_time_t → adapt W → Prop) : ad_ok w → 0 <= ty < N_REQ_TYPE → (∀ e, entry_ok e → Q e w) →
  wp t (exec_time ty) Q w.
Proof.
  intros [Hl He _ _] Hty HQ. unfold exec_time. wp_steps. destruct (lookup_lt_is_Some_2 (exec_time_table w) (Z.to_nat ty)) as [e Ee].
  { unfold N_REQ_TYPE in *. lia. }
  eapply wp_arr_get; [lia|exact Ee|]. apply HQ. by apply (Forall_lookup_1 _ _ _ _ He Ee).
Qed.
Lemma set_exec_time_ok t w ty e (Q : unit → adapt W → Prop) : ad_ok w → 0 <= ty < N_REQ_TYPE → entry_ok e →
  (∀ w', own w w' → io_queues w' = io_queues w → Q tt w') → wp t (set_exec_time ty e) Q w.
Proof.
  intros [Hl He Hq Hql] Hty Hen HQ. unfold set_exec_time. wp_steps. apply wp_arr_set; [lia|]. wp_steps. apply HQ; [|done].
  split; [done|]. split; cbn [exec_time_table set_exec_time_table io_queues ad_nodes]; [by rewrite length_insert|by apply Forall_insert|done|done].
Qed.

Lemma queue_front_ok t w p (Q : Z → adapt W → Prop) : ad_ok w → in_periph p → Q (front_of w p) w → wp t (queue_front p) Q w.
Proof.
  intros Hw Hp HQ. destruct (queue_lookup w p Hw Hp) as [q Eq]. unfold queue_front. wp_steps.
  eapply wp_arr_get; [apply Hp|exact Eq|]. wp_steps. unfold front_of in HQ. by rewrite Eq in HQ.
Qed.

Lemma on_queue_ok {A} t w p (f : QM (A:=io_req_t) A) q (Q : A → adapt W → Prop) : in_periph p → io_queues w !! Z.to_nat p = Some q →
  wp t f (λ a r, Q a (set_io_queues (<[Z.to_nat p := r.2]> (io_queues w)) (set_ad_nodes r.1 w))) (ad_nodes w, q) →
  wp t (on_io_queue p f) Q w.
Proof.
  intros Hp Eq Hf. unfold on_io_queue. wp_steps. eapply wp_arr_get; [apply Hp|exact Eq|]. by apply wp_zoom.
Qed.

(** The lists of the invariant, with the request a queue begins with. *)
Lemma front_list w p : ad_ok w → in_periph p → front_of w p ≠ 0 → ∃ ql q r l, queues_rep (ad_nodes w) (io_queues w) ql
  ∧ io_queues w !! Z.to_nat p = Some q ∧ ql (Z.to_nat p) = (front_of w p, r) :: l ∧ req_ok r
  ∧ (∀ i id r, (i < length (io_queues w))%nat → (id, r) ∈ ql i → req_ok r)
  ∧ ∃ n, qm_nodes (ad_nodes w) !! front_of w p = Some n ∧ nd_req n = r.
Proof.
  intros Hw Hp Hne. destruct (queue_lookup w p Hw Hp) as [q Eq]. destruct (ad_lists w Hw) as (ql&Hr&Hty).
  pose proof (qr_rep _ _ _ Hr _ _ Eq) as (Hc&_). unfold front_of in *. rewrite Eq in *. cbn in *. exists ql, q.
  destruct (ql (Z.to_nat p)) as [|[id r] l] eqn:El; [done|]. destruct Hc as (E&Hid&nx&Hn&_). rewrite E.
  exists r, l. split_and!; try done; [|by exists (Node r nx)]. apply (Hty (Z.to_nat p) id); [by eapply lookup_lt_Some|]. rewrite El. by left.
Qed.

Lemma dequeue_ok t w p (Q : Z * option io_req_t → adapt W → Prop) : ad_ok w → in_periph p → front_of w p ≠ 0 →
  (∀ r w', req_ok r → own w w' → Q (0, Some r) w') → wp t (on_io_queue p dequeue) Q w.
Proof.
  intros Hw Hp Hne HQ. destruct (front_list w p Hw Hp Hne) as (ql&q&r&l&Hr&Eq&El&Hro&Hty&_).
  apply (on_queue_ok t w p _ q); [done|done|]. apply wp_dequeue. eapply wp_mono; [by eapply queues_dequeue|].
  intros x [m' q'] [-> Hr']. apply (HQ r); [done|]. split; [done|]. destruct Hw as [Ht He Hql _]. split; cbn; [done|done|by rewrite length_insert|].
  eexists. split; [exact Hr'|]. intros i id r'. rewrite length_insert. intros Hi. destruct (decide (i = Z.to_nat p)) as [->|].
  - rewrite set_list_eq. intros Hin. apply (Hty (Z.to_nat p) id); [done|]. rewrite El. by right.
  - rewrite set_list_ne by done. by apply Hty.
Qed.

Lemma front_req_ok t w p (Q : io_req_t → adapt W → Prop) : ad_ok w → in_periph p → front_of w p ≠ 0 →
  (∀ r, req_ok r → Q r w) → wp t (front_req (front_of w p)) Q w.
Proof.
  intros Hw Hp Hne HQ. destruct (front_list w p Hw Hp Hne) as (_&_&r&_&_&_&_&Hr&_&n&En&<-).
  unfold front_req. wp_steps. rewrite En. wp_steps. by apply HQ.
Qed.
Lemma set_front_req_ok t w p r' (Q : unit → adapt W → Prop) : ad_ok w → in_periph p → front_of w p ≠ 0 → req_ok r' →
  (∀ w', own w w' → io_queues w' = io_queues w → Q tt w') → wp t (set_front_req (front_of w p) r') Q w.
Proof.
  intros Hw Hp Hne Hr' HQ. destruct (front_list w p Hw Hp Hne) as (ql&q&r&l&Hr&Eq&El&_&Hty&n&En&_).
  unfold set_front_req. wp_steps. rewrite En. wp_steps. apply HQ; [|done]. split; [done|].
  destruct Hw as [Ht He Hql _]. split; [done|done|done|]. eexists. split; [by eapply queues_front|].
  intros i id x Hi. destruct (decide (i = Z.to_nat p)) as [->|].
  - rewrite set_list_eq. intros [[= _ ->]|Hin]%elem_of_cons; [done|]. apply (Hty (Z.to_nat p) id); [done|]. rewrite El. by right.
  - rewrite set_list_ne by done. by apply Hty.
Qed.

Lemma restart_front_ok t w p now (Q : unit → adapt W → Prop) : ad_ok w → in_periph p → (∀ w', own w w' → Q tt w') →
  wp t (restart_front p now) Q w.
Proof.
  intros Hw Hp HQ. unfold restart_front. wp_steps. apply queue_front_ok; [done|done|].
  destruct (Z.eqb_spec (front_of w p) 0) as [|Hne]; wp_steps; [by apply HQ|].
  apply front_req_ok; [done|done|done|]. intros r Hr. wp_steps. apply set_front_req_ok; try done. intros w1 [E1 Hw1] Eq1. wp_steps.
  assert (front_of w1 p = front_of w p) as Ef by (unfold front_of; by rewrite Eq1). rewrite <- Ef in *.
  apply front_req_ok; [done|done|done|]. intros r1 Hr1. wp_steps. apply exec_time_ok; [done|done|]. intros e He. wp_steps.
  apply set_front_req_ok; try done. intros w2 [E2 Hw2] _. apply HQ. split; [congruence|done].
Qed.

Lemma ad_ok_time w x : ad_ok w → ad_ok (set_ad_sys x w).
Proof. by intros [? ? ? ?]. Qed.
Lemma ad_ok_wait w n : ad_ok w → ad_ok (set_wait_profile n w).
Proof. by intros [? ? ? ?]. Qed.
Lemma ad_ok_no_profile w b : ad_ok w → ad_ok (set_no_profile b w).
Proof. by intros [? ? ? ?]. Qed.
End invariant.

(** ** The interface of the I/O helper with the option *)

#[export] Instance adapt_helper {W} `{!TeeClient W, !IoHelper W} : IoHelper (adapt W).
Proof.
  refine {| io_ok := λ w, ad_ok w ∧ io_ok (ad_sys w); io_sig := λ w, io_sig (ad_sys w) |}.
  - intros w [Ha Hw]. destruct (io_open_ok _ Hw) as (w'&E&?&?). exists (set_ad_sys w' w). cbn. unfold on_system, zoom. rewrite E.
    split_and!; try done. by apply ad_ok_time.
  - intros w p [Ha Hw] Hp. destruct (io_poll_ok _ p Hw Hp) as (u&w'&E&?&?&?). exists u, (set_ad_sys w' w). cbn. unfold on_system, zoom.
    rewrite E. split_and!; try done. by apply ad_ok_time.
  - intros w [Ha Hw]. destruct (io_malloc_ok _ Hw) as (b&w'&E&?&?). exists b, (set_ad_sys w' w). cbn. unfold on_system, zoom. rewrite E.
    split_and!; try done. by apply ad_ok_time.
Defined.

Section steps.
Context {t : bool} {maxlen : Z} {may : Z → Prop} {W : Type} `{!TeeClient W, !TeeServices W, !IoHelper W, !TeeOk t maxlen may W}.
Context (m : module_inst) (managed : Z → Prop).
Implicit Type s : rstate (adapt W).

(** Steps beside the signal table: the clock, the queues and the counters. *)
Definition aside s s' : Prop := ∃ w n, s' = set_profile_times n (set_world w s) ∧ io_ok w ∧ calmer (sig_now s) (io_sig w).

Lemma calmer_refl (f : Z → Z → sig_state) : calmer f f.
Proof. by left. Qed.
Lemma calmer_trans (f g h : Z → Z → sig_state) : calmer f g → calmer g h → calmer f h.
Proof. intros H1 H2 p q Hp Hq Hh. destruct (H2 p q Hp Hq Hh) as [Hg|[]]. by apply H1. Qed.

Lemma aside_refl s : io_ok (r_world s) → aside s s.
Proof. intros Hw. exists (r_world s), (profile_times s). split; [by destruct s|]. split; [done|apply calmer_refl]. Qed.
Lemma aside_trans s1 s2 s3 : aside s1 s2 → aside s2 s3 → aside s1 s3.
Proof. intros (w&n&->&_&Hc) (w'&n'&->&Hw&Hc'). exists w', n'. split_and!; [done|done|]. by eapply calmer_trans. Qed.
Lemma aside_world s s' w : aside s s' → io_ok w → calmer (sig_now s') (io_sig w) → aside s (set_world w s').
Proof. intros Ha Hw Hc. eapply aside_trans; [exact Ha|]. exists w, (profile_times s'). by destruct s'. Qed.
Lemma aside_own s s' w : aside s s' → own (r_world s') w → aside s (set_world w s').
Proof.
  intros Ha [E Hw]. apply aside_world; [done| |].
  - split; [done|]. rewrite E. destruct Ha as (w'&n&->&[_ ?]&_). done.
  - unfold sig_now. cbn [io_sig adapt_helper]. rewrite E. apply calmer_refl.
Qed.

Lemma good_aside h s s' : good m managed h s → aside s s' → good m managed h s'.
Proof.
  intros [Hwf [Ha Hc] Hh] (w&n&->&Hw&Hcalm). split; [| |done].
  - apply (rt_wf_frame m s); try done; apply Hwf.
  - split; [done|]. intros p q Hp Hq Hm Hs. apply (Hc p q Hp Hq Hm). destruct (Hcalm p q Hp Hq Hs) as [?|[]]. done.
Qed.

Lemma micros_ok s0 s (Q : Z → rstate (adapt W) → Prop) : aside s0 s → ad_ok (r_world s) →
  (∀ now s', aside s0 s' → ad_ok (r_world s') → io_queues (r_world s') = io_queues (r_world s) → 0 <= now < 2 ^ 64 → Q now s') →
  wp t (sys_call micros_now) Q s.
Proof using TeeOk0.
  intros Ha Hw HQ. apply wp_zoom. unfold micros_now. wp_steps. apply wp_zoom.
  assert (io_ok (ad_sys (r_world s))) as Hio by (by destruct Ha as (w&n&->&[_ ?]&_)).
  eapply wp_mono; [by apply ok_time|]. intros x w' [Hw' Hc]. wp_steps. apply HQ.
  - apply aside_world; [done|split; [by apply ad_ok_time|done]|done].
  - by apply ad_ok_time.
  - done.
  - unfold teetime_to_micro, u64. by apply Z.mod_pos_bound.
Qed.

Lemma wp_run {A S} t' (f : M S A) a (Q : A → S → Prop) (x : S) : f x = Ok a x → Q a x → wp t' f Q x.
Proof. intros E HQ. unfold wp. by rewrite E. Qed.

Lemma world_ad s0 s : aside s0 s → ad_ok (r_world s).
Proof. by intros (w&n&->&[? _]&_). Qed.

Lemma learn_ok coef n s p : weight coef n → io_ok (r_world s) → in_periph p → front_of (r_world s) p ≠ 0 →
  wp t (learn coef p) (λ _ s', aside s s') s.
Proof using TeeOk0.
  intros Hc Hio Hp Hne. unfold learn. wp_steps. apply (micros_ok s s); [by apply aside_refl|apply Hio|].
  intros now s1 Ha1 Hw1 Eq1 Hnow. wp_steps. apply wp_zoom. apply dequeue_ok; [done|done|unfold front_of; by rewrite Eq1|].
  intros req w2 Hreq Ho2. pose proof (aside_own _ _ _ Ha1 Ho2) as Ha2. set (s2 := set_world w2 s1) in *. wp_steps.
  apply wp_zoom. apply exec_time_ok; [by eapply world_ad|done|]. intros e He. change (set_world _ s2) with s2. wp_steps.
  destruct (mix_u64 coef n (u64 (now - rt_start req)) (et_b e) s2 Hc) as (b&Eb&Hb&_); [by apply Z.mod_pos_bound|apply He|].
  apply (wp_run _ _ _ _ _ Eb). wp_steps. apply wp_zoom. apply set_exec_time_ok; [by eapply world_ad|done|done|].
  intros w3 Ho3 _. pose proof (aside_own _ _ _ Ha2 Ho3) as Ha3. change (set_world w3 s2) with (set_world w3 s1) in *.
  set (s3 := set_world w3 s1) in *. unfold tzio_get_profile_times. wp_steps. apply wp_zoom. apply exec_time_ok; [by eapply world_ad|done|].
  intros e' He'. change (set_world _ s3) with s3. wp_steps.
  destruct (scale_u64 (u64 (profile_times s3)) s3) as (x&Ex&_); [by apply Z.mod_pos_bound|]. apply (wp_run _ _ _ _ _ Ex). wp_steps.
  apply wp_zoom. apply set_exec_time_ok; [by eapply world_ad|done|done|]. intros w4 Ho4 _.
  pose proof (aside_own _ _ _ Ha3 Ho4) as Ha4. set (s4 := set_world w4 s3) in *. wp_steps. apply wp_zoom.
  apply restart_front_ok; [by eapply world_ad|done|]. intros w5 Ho5. by apply aside_own.
Qed.

(** ** Whether to poll *)

Definition no_profile_of s : bool := no_profile (r_world s).
Lemma micros_frames : frames no_profile_of (λ _, True) (sys_call micros_now).
Proof using.
  intros s. unfold sys_call, micros_now, on_system, zoom, mbind, M_bind. by destruct (tee_system_time (ad_sys (r_world s))).
Qed.

(** The first awaited peripheral. *)
Lemma first_awaited s : shiftable (io_sigpending s) → io_sigpending s ≠ 0 →
  in_periph (ffsll (io_sigpending s) - 1) ∧ awaits s (ffsll (io_sigpending s) - 1).
Proof using.
  intros Hs Hz. destruct (ffsll_spec (io_sigpending s)) as (Hi&Hb&_); [by apply shiftable_64|done|]. by split.
Qed.

(** Nothing but the variables of the option changes, and no queue. *)
Definition asked s s' : Prop := aside s s' ∧ io_queues (r_world s') = io_queues (r_world s).

Lemma profile_ok s : io_ok (r_world s) → shiftable (io_sigpending s) → io_sigpending s ≠ 0 → wp t profile (λ _ s', asked s s') s.
Proof using TeeOk0.
  intros Hio Hs Hz. unfold profile. wp_steps. apply (micros_ok s s); [by apply aside_refl|apply Hio|].
  intros now s1 Ha1 Hw1 Eq1 Hnow. wp_steps. set (s2 := set_profile_times _ s1).
  assert (asked s s2) as [Ha2 Eq2].
  { split; [|done]. destruct Ha1 as (w&k&->&?&?). exists w. eexists. by split_and!. }
  assert (io_sigpending s2 = io_sigpending s) as Ep by (by destruct Ha1 as (w&k&->&_)). rewrite Ep.
  destruct (first_awaited s Hs Hz) as [Hp _]. set (p := ffsll _ - 1) in *. apply wp_zoom. apply queue_front_ok; [done|done|].
  change (set_world (r_world s2) s2) with s2. destruct (Z.eqb_spec (front_of (r_world s2) p) 0) as [|Hne]; wp_steps; [done|].
  apply wp_zoom. apply front_req_ok; [done|done|done|]. intros r Hr. change (set_world (r_world s2) s2) with s2.
  destruct (rt_guess_end r <? now); wp_steps.
  - apply wp_zoom. wp_steps. split; [|done]. apply aside_own; [done|]. split; [done|]. by apply ad_ok_no_profile.
  - apply wp_zoom. apply exec_time_ok; [done|done|]. intros e _. change (set_world (r_world s2) s2) with s2. wp_steps.
    split; [|done]. apply aside_own; [done|]. split; [done|]. by apply ad_ok_wait.
Qed.

(** The clock is asked only if something is awaited. *)
Definition may_ask s : Prop := no_profile (r_world s) = true ∨ 0 < wait_profile (r_world s) ∨ io_sigpending s ≠ 0.

Lemma poll_now_ok s : io_ok (r_world s) → shiftable (io_sigpending s) → may_ask s → wp t poll_now (λ _ s', asked s s') s.
Proof using TeeOk0.
  intros Hio Hs Hm. unfold poll_now. wp_steps. apply wp_zoom. wp_steps.
  replace (set_world (r_world s) s) with s by by destruct s.
  assert (asked s s) as Hrefl by (split; [by apply aside_refl|done]). destruct (no_profile (r_world s)) eqn:En; wp_steps; [done|].
  apply wp_zoom. wp_steps. replace (set_world (r_world s) s) with s by by destruct s.
  destruct (Z.leb_spec (wait_profile (r_world s)) 0); [apply profile_ok; [done|done|]|].
  - destruct Hm as [?|[?|?]]; [congruence|lia|done].
  - wp_steps. apply wp_zoom. wp_steps. split; [|done]. apply aside_own; [apply Hrefl|]. split; [done|]. apply ad_ok_wait, Hio.
Qed.

(** ** Checkpoints *)

(** Polling leaves the variables of the option alone. *)
Definition option_part s : list io_req_queue * bool := (io_queues (r_world s), no_profile (r_world s)).
Lemma system_frames {A} (f : M W A) : frames option_part (λ _, True) (sys_call (on_system f)).
Proof using. intros s. unfold sys_call, on_system, zoom. by destruct (f (ad_sys (r_world s))). Qed.
Lemma ready_poll_frames : frames option_part (λ _, True) get_ready_signal.
Proof using.
  unfold get_ready_signal. apply (frames_bind _ (λ _, True)); [done|]. intros x _. case_match; [|by apply frames_ret].
  apply frames_loop. intros tmp. unfold ready_round, poll_to_io_helper, invoke_io_helper_pta, one_shl, uvalue_a, uvalue_b.
  repeat first [apply system_frames | frames_step]; done.
Qed.

(** Every awaited request has its entry in the queue. *)
Definition backed s : Prop := ∀ p q, in_periph p → in_sig q → awaits s p → sig_now s p q ≠ SigFree → front_of (r_world s) p ≠ 0.

(** The effect of a checkpoint: no poll, or a dispatch in the state after the
    decision to poll. *)
Inductive adaptive_step s : rstate (adapt W) → Prop :=
  | A_skip s' : asked s s' → adaptive_step s s'
  | A_poll s1 s' : asked s s1 → dispatched s1 s' → adaptive_step s s'.

Lemma asked_awaits s s' p : asked s s' → awaits s' p → awaits s p.
Proof using. by intros [(w&n&->&_) _]. Qed.
Lemma backed_asked s s' : backed s → asked s s' → backed s'.
Proof using.
  intros Hb Ha p q Hp Hq Hap Hs. pose proof (asked_awaits _ _ p Ha Hap). destruct Ha as [(w&n&->&_&Hc) Eq].
  unfold front_of in *. rewrite Eq. apply (Hb p q); try done. by destruct (Hc p q Hp Hq Hs) as [?|[]].
Qed.

(** The part of a checkpoint after the decision to poll. *)
Lemma profile_again_ok s : io_ok (r_world s) → wp t profile_again (λ _ s', aside s s') s.
Proof using.
  intros Hio. unfold profile_again. wp_steps. apply wp_zoom. wp_steps. apply wp_zoom. wp_steps.
  apply aside_own; [|split; [done|]].
  - apply aside_own; [by apply aside_refl|]. split; [done|]. apply ad_ok_no_profile, Hio.
  - apply ad_ok_wait, ad_ok_no_profile, Hio.
Qed.

Lemma called_aside s s1 p q s' : aside s s1 → called s1 p q s' → called s p q s'.
Proof using. intros (w&n&->&_). by apply called_frame. Qed.
Lemma aside_log s s' : aside s s' → r_log s' = r_log s.
Proof using. by intros (w&n&->&_). Qed.

(** After a call only variables of the option change. *)
Lemma again_ok s s1 p q : good m managed 0 s1 → called s p q s1 →
  wp t profile_again (λ _ s', good m managed 0 s' ∧ called s p q s') s1.
Proof using.
  intros Hg1 Hc1. eapply wp_mono; [apply profile_again_ok, Hg1|]. intros u s2 Ha. split; [by eapply good_aside|].
  unfold called in *. by rewrite (aside_log _ _ Ha).
Qed.

Lemma learn_then coef n (f : R (adapt W) unit) s p q : weight coef n → good m managed 0 s → in_periph p →
  front_of (r_world s) p ≠ 0 → handler s p q ≠ FNull →
  (∀ s1, good m managed 0 s1 → handler s1 p q ≠ FNull → wp t f (λ _ s', good m managed 0 s' ∧ called s1 p q s') s1) →
  wp t (learn coef p;; f) (λ _ s', good m managed 0 s' ∧ called s p q s') s.
Proof using TeeOk0.
  intros Hc Hg Hp Hne Hh Hf. wp_steps. eapply wp_mono; [apply (learn_ok coef n); try done; apply Hg|].
  intros u s1 Ha1. pose proof (good_aside _ _ _ Hg Ha1) as Hg1. wp_steps.
  eapply wp_mono; [apply Hf; [done|]|].
  { destruct Ha1 as (w&k&->&_). exact Hh. }
  intros u2 s2 [Hg2 Hc2]. split; [done|]. by apply (called_aside s s1).
Qed.

Lemma poll_then_learn coef n (f : Z → Z → R (adapt W) unit) s : weight coef n → good m managed 0 s → backed s →
  (∀ s1 p q, good m managed 0 s1 → in_periph p → in_sig q → handler s1 p q ≠ FNull →
     wp t (f p q) (λ _ s', good m managed 0 s' ∧ called s1 p q s') s1) →
  wp t (poll_then (λ p q, learn coef p;; f p q)) (λ _ s', good m managed 0 s' ∧ dispatched s s') s.
Proof using TeeOk0.
  intros Hc Hg Hb Hf. apply poll_then_ok; [done|]. intros s1 p q Er Hg1 Hp Hq Hap Hused Hne.
  destruct (frames_run option_part get_ready_signal (λ _, True) s _ _ ready_poll_frames Er) as [Eq _].
  eapply learn_then; try done; [|intros; by apply Hf]. injection Eq as Eq _. unfold front_of. rewrite Eq. by apply (Hb p q).
Qed.

Context (call : func_ref → Z → Z → R (adapt W) unit) (Hcall : call_ok m managed t call).

(** A checkpoint as a decision and a poll. *)
Definition decide_then (f : R (adapt W) unit) : R (adapt W) unit := go ← poll_now; if negb go then mret () else f.

Lemma decide_then_ok f s : good m managed 0 s → may_ask s → backed s →
  (∀ s1, good m managed 0 s1 → backed s1 → wp t f (λ _ s', good m managed 0 s' ∧ dispatched s1 s') s1) →
  wp t (decide_then f) (λ _ s', good m managed 0 s' ∧ adaptive_step s s') s.
Proof using TeeOk0.
  intros Hg Ha Hb Hf. unfold decide_then. wp_steps. pose proof (rw_await _ _ (gd_wf _ _ _ _ Hg)) as Hs.
  rewrite awaiting_out in Hs by apply Hg. eapply wp_mono; [apply poll_now_ok; [apply Hg|done|done]|].
  intros go s1 H1. pose proof (good_aside _ _ _ Hg (proj1 H1)) as Hg1. destruct go; cbn [negb]; wp_steps.
  - eapply wp_mono; [apply Hf; [done|by eapply backed_asked]|]. intros u s2 [Hg2 Hd]. split; [done|]. by eapply A_poll.
  - split; [done|]. by apply A_skip.
Qed.

(** The polls of the two kinds of code. *)
Lemma aot_dispatch s : module_type m = Wasm_Module_AoT → good m managed 0 s → backed s →
  wp t (poll_then (λ p q, learn COEF_AOT p;; aot_call_handler m call p q;; profile_again))
    (λ _ s', good m managed 0 s' ∧ dispatched s s') s.
Proof using TeeOk0 Hcall.
  intros Em Hg Hb. apply (poll_then_learn _ _ _ _ weight_aot); [done|done|]. intros s2 p q Hg2 Hp Hq Hh. wp_steps.
  eapply wp_mono; [by apply (aot_call_ok m managed)|]. intros u s3 [Hg3 Hc3]. wp_steps. by apply again_ok.
Qed.
Lemma interp_dispatch s : module_type m = Wasm_Module_Bytecode → good m managed 0 s → backed s →
  wp t (poll_then (λ p q, learn COEF_INTERP p;; interp_call_handler call p q;; get_ready_signal;; profile_again))
    (λ _ s', good m managed 0 s' ∧ dispatched s s') s.
Proof using TeeOk0 Hcall.
  intros Em Hg Hb. apply (poll_then_learn _ _ _ _ weight_interp); [done|done|]. intros s2 p q Hg2 Hp Hq Hh. wp_steps.
  eapply wp_mono; [by apply (interp_call_ok m managed)|]. intros u s3 [Hg3 Hc3]. wp_steps. apply wp_total.
  eapply wp_mono; [by apply ready_good|]. intros [r sig] s4 (Hg4&El&_). wp_steps. apply again_ok; [done|]. unfold called. by rewrite El.
Qed.

Lemma adaptive_checkpoint_ok s : good m managed 0 s → backed s → (module_type m = Wasm_Module_Bytecode → may_ask s) →
  wp t (Adaptive.checkpoint m call) (λ _ s', good m managed 0 s' ∧ adaptive_step s s') s.
Proof using TeeOk0 Hcall.
  intros Hg Hb Hask. unfold Adaptive.checkpoint. destruct (module_type m) eqn:Em.
  - unfold Adaptive.sigpoll. wp_steps. destruct (Z.eqb_spec (io_sigpending s) 0) as [E|Hne]; wp_steps.
    { split; [done|]. apply A_skip. split; [|done]. apply aside_refl, Hg. }
    apply decide_then_ok; [done|by right; right|done|]. intros s1 Hg1 Hb1. by apply aot_dispatch.
  - apply decide_then_ok; [done|by apply Hask|done|]. intros s1 Hg1 Hb1. by apply interp_dispatch.
Qed.

(** Any number of checkpoints. *)
Fixpoint checkpoints (n : nat) : R (adapt W) unit :=
  match n with O => mret () | S n => Adaptive.checkpoint m call;; checkpoints n end.

(** ** A request without an entry *)

(** The first awaited peripheral has nothing in its queue. *)
Record starved s : Prop := {
  st_io : io_ok (r_world s);
  st_pending : shiftable (io_sigpending s) ∧ io_sigpending s ≠ 0;
  st_front : front_of (r_world s) (ffsll (io_sigpending s) - 1) = 0;
  st_profile : no_profile (r_world s) = false
}.
Definition unmoved s s' : Prop := r_log s' = r_log s ∧ io_sigpending s' = io_sigpending s ∧ io_sigtable s' = io_sigtable s.

Lemma aside_unmoved s s' : aside s s' → unmoved s s'.
Proof using. by intros (w&n&->&_). Qed.
Lemma unmoved_trans s1 s2 s3 : unmoved s1 s2 → unmoved s2 s3 → unmoved s1 s3.
Proof using. unfold unmoved. intros (?&?&?) (?&?&?). split_and!; congruence. Qed.

Lemma starved_poll s : starved s → wp t poll_now (λ go s', go = false ∧ starved s' ∧ unmoved s s') s.
Proof using TeeOk0.
  intros Hs. pose proof Hs as [Hio [Hsh Hz] Hf Hn]. unfold poll_now. wp_steps. apply wp_zoom. wp_steps.
  replace (set_world (r_world s) s) with s by by destruct s. rewrite Hn. wp_steps. apply wp_zoom. wp_steps.
  replace (set_world (r_world s) s) with s by by destruct s. destruct (Z.leb_spec (wait_profile (r_world s)) 0).
  - unfold profile. wp_steps. destruct (first_awaited s Hsh Hz) as [Hp _].
    eapply wp_mono; [apply (wp_frames no_profile_of); [apply micros_frames|apply (micros_ok s s (λ _ s', aside s s' ∧ ad_ok (r_world s')
      ∧ io_queues (r_world s') = io_queues (r_world s))); [by apply aside_refl|apply Hio|by intros]]|].
    cbn beta. intros now s1 [(Ha1&Hw1&Eq1) [En1 _]]. wp_steps. set (s2 := set_profile_times _ s1).
    assert (io_sigpending s2 = io_sigpending s) as Ep by (by destruct Ha1 as (w&k&->&_)). rewrite Ep.
    apply wp_zoom. apply queue_front_ok; [done|done|]. change (set_world (r_world s2) s2) with s2.
    assert (front_of (r_world s2) (ffsll (io_sigpending s) - 1) = 0) as Ef by (unfold front_of in *; change (r_world s2) with (r_world s1); by rewrite Eq1).
    rewrite Ef. wp_steps. split; [done|]. split; [|by destruct Ha1 as (w&k&->&_)].
    split; [by destruct Ha1 as (w&k&->&?&_)|by rewrite Ep|by rewrite Ep|]. unfold no_profile_of in En1. cbn. congruence.
  - wp_steps. apply wp_zoom. wp_steps. split; [done|]. split; [|done]. split; try done. destruct Hio. split; [by apply ad_ok_wait|done].
Qed.

Lemma starved_checkpoint s : starved s → wp t (Adaptive.checkpoint m call) (λ _ s', starved s' ∧ unmoved s s') s.
Proof using TeeOk0.
  intros Hs. unfold Adaptive.checkpoint, Adaptive.sigpoll, Adaptive.aot_poll_ready_signal, Adaptive.HANDLE_IO_SIGNAL.
  destruct (module_type m); wp_steps; [rewrite (proj2 (Z.eqb_neq _ _)) by apply Hs; wp_steps|];
    (eapply wp_mono; [by apply starved_poll|]; intros go s1 (->&?&?); by wp_steps).
Qed.

Lemma starved_checkpoints n s : starved s → wp t (checkpoints n) (λ _ s', starved s' ∧ unmoved s s') s.
Proof using TeeOk0.
  revert s. induction n as [|n IH]; intros s Hs; cbn [checkpoints]; wp_steps; [done|].
  eapply wp_mono; [by apply starved_checkpoint|]. intros u s1 [Hs1 Hu1]. wp_steps. eapply wp_mono; [by apply IH|].
  intros u2 s2 [Hs2 Hu2]. split; [done|]. by eapply unmoved_trans.
Qed.

(** ** A request whose time has come *)

Section late.
Context (late : Z).

(** The clock, read now, is past [late]. *)
Definition clock_past s : Prop := ∃ x w', tee_system_time (ad_sys (r_world s)) = Ok x w' ∧ io_ok w'
  ∧ progress (sig_now s) (io_sig w') ∧ late < teetime_to_micro x.

(** The first awaited peripheral waits for a request that should be done. *)
Record overdue s : Prop := {
  ov_pending : io_sigpending s ≠ 0;
  ov_profile : no_profile (r_world s) = false;
  ov_front : ∃ n, qm_nodes (ad_nodes (r_world s)) !! front_of (r_world s) (ffsll (io_sigpending s) - 1) = Some n
    ∧ rt_guess_end (nd_req n) <= late;
  ov_queue : front_of (r_world s) (ffsll (io_sigpending s) - 1) ≠ 0
}.
Definition some_ready s : Prop := ∃ p q, in_periph p ∧ in_sig q ∧ awaits s p ∧ sig_now s p q = SigReady.

Lemma overdue_poll s : clock_past s → good m managed 0 s → overdue s → wait_profile (r_world s) <= 0 →
  wp t poll_now (λ go s1, go = true ∧ asked s s1 ∧ progress (sig_now s) (sig_now s1)) s.
Proof using.
  intros Hclock Hg [Hz Hn (n&En&Hlate) Hne] Hwait. pose proof (rw_io _ _ (gd_wf _ _ _ _ Hg)) as [Hw Hio].
  pose proof (rw_await _ _ (gd_wf _ _ _ _ Hg)) as Hs. rewrite awaiting_out in Hs by apply Hg.
  destruct (first_awaited s Hs Hz) as [Hp _]. destruct Hclock as (x&w'&Ex&Hio'&Hpr&Hlt).
  assert (set_world (r_world s) s = s) as Eself by by destruct s.
  unfold poll_now. wp_steps. apply wp_zoom. wp_steps. rewrite Eself, Hn. wp_steps. apply wp_zoom. wp_steps. rewrite Eself, (proj2 (Z.leb_le _ _)) by done.
  unfold profile. wp_steps. apply wp_zoom. unfold micros_now. wp_steps. apply wp_zoom. unfold wp at 1. rewrite Ex. wp_steps.
  cbn [io_sigpending set_profile_times set_world]. set (s1 := set_profile_times _ _). apply wp_zoom.
  change (r_world s1) with (set_ad_sys w' (r_world s)). apply queue_front_ok; [by apply ad_ok_time|done|].
  change (set_world (set_ad_sys w' (r_world s)) s1) with s1.
  change (front_of (set_ad_sys w' (r_world s))) with (front_of (r_world s)). rewrite (proj2 (Z.eqb_neq _ _)) by done. wp_steps.
  apply wp_zoom. unfold front_req. wp_steps. change (ad_nodes (r_world s1)) with (ad_nodes (r_world s)). rewrite En. wp_steps.
  rewrite (proj2 (Z.ltb_lt _ _)) by lia. wp_steps. apply wp_zoom. wp_steps. split; [done|]. split; [|done].
  split; [|done]. eexists _, _. split; [done|]. split; [split; [by apply ad_ok_no_profile, ad_ok_time|done]|]. by apply progress_calmer.
Qed.

Lemma overdue_handled s : clock_past s → good m managed 0 s → backed s → overdue s → wait_profile (r_world s) <= 0 → some_ready s →
  wp t (Adaptive.checkpoint m call) (λ _ s', good m managed 0 s' ∧ ∃ p q, handler s p q ≠ FNull ∧ called s p q s') s.
Proof using TeeOk0 Hcall.
  intros Hclock Hg Hb Ho Hwait (p&q&Hp&Hq&Hap&Hrdy).
  assert (∀ f, (∀ s1, good m managed 0 s1 → backed s1 → wp t f (λ _ s', good m managed 0 s' ∧ dispatched s1 s') s1) →
    wp t (decide_then f) (λ _ s', good m managed 0 s' ∧ ∃ p q, handler s p q ≠ FNull ∧ called s p q s') s) as Hmain.
  { intros f Hf. unfold decide_then. wp_steps. eapply wp_mono; [by apply overdue_poll|]. intros go s1 (->&Ha&Hpr). cbn [negb].
    pose proof (good_aside _ _ _ Hg (proj1 Ha)) as Hg1. eapply wp_mono; [apply Hf; [done|by eapply backed_asked]|].
    intros u s2 [Hg2 Hd]. split; [done|]. destruct Hd as [s2 Hquiet _|p' q' s0 s2 Hp' Hq' _ _ _ _ _ Hne Hc].
    - destruct (Hquiet p Hp) with q; [|unfold in_periph in Hp; lia|done|].
      + by destruct Ha as [(w&k&->&_) _].
      + by destruct (Hpr p q Hp Hq) as [->|[? _]]; [|congruence].
    - exists p', q'. split; [by destruct Ha as [(w&k&->&_) _]|]. by eapply called_aside; [apply Ha|]. }
  unfold Adaptive.checkpoint. destruct (module_type m) eqn:Em.
  - unfold Adaptive.sigpoll. wp_steps. rewrite (proj2 (Z.eqb_neq _ _)) by apply Ho. apply Hmain. intros s1 Hg1 Hb1. by apply aot_dispatch.
  - apply Hmain. intros s1 Hg1 Hb1. by apply interp_dispatch.
Qed.

(** ** Waiting for it *)

Lemma skip_checkpoint s : io_sigpending s ≠ 0 → no_profile (r_world s) = false → 0 < wait_profile (r_world s) →
  Adaptive.checkpoint m call s = Ok tt (set_world (set_wait_profile (wait_profile (r_world s) - 1) (r_world s)) s).
Proof using.
  intros Hz Hn Hw. unfold Adaptive.checkpoint, Adaptive.sigpoll, Adaptive.aot_poll_ready_signal, Adaptive.HANDLE_IO_SIGNAL, poll_now,
    sys_call, zoom, gets, modify, mbind, M_bind, mret, M_ret.
  destruct (module_type m); rewrite ?(proj2 (Z.eqb_neq _ _) Hz), Hn; cbn; by rewrite (proj2 (Z.leb_gt _ _)) by done.
Qed.

Lemma overdue_checkpoints n s : clock_past s → good m managed 0 s → backed s → overdue s → wait_profile (r_world s) <= Z.of_nat n →
  0 <= wait_profile (r_world s) → some_ready s →
  wp t (checkpoints (S (Z.to_nat (wait_profile (r_world s))))) (λ _ s', good m managed 0 s' ∧ ∃ p q, handler s p q ≠ FNull ∧ called s p q s') s.
Proof using TeeOk0 Hcall.
  revert s. induction n as [|n IH]; intros s Hclock Hg Hb Ho Hle Hnn Hrdy.
  { assert (wait_profile (r_world s) = 0) as E by lia. rewrite E. cbn [checkpoints Z.to_nat]. wp_steps. eapply wp_mono; [by apply overdue_handled; [..|lia|]|].
    intros u s1 Hs1. by wp_steps. }
  destruct (decide (wait_profile (r_world s) = 0)) as [E|Hne]; [apply IH; [done|done|done|done|lia|done|done]|].
  replace (Z.to_nat (wait_profile (r_world s))) with (S (Z.to_nat (wait_profile (r_world s) - 1))) by lia.
  cbn [checkpoints]. wp_steps. unfold wp at 1. rewrite skip_checkpoint by (apply Ho || lia).
  set (s1 := set_world _ s). assert (aside s s1) as Ha.
  { apply aside_own; [apply aside_refl, Hg|]. split; [done|]. apply ad_ok_wait, Hg. }
  change (wait_profile (r_world s) - 1) with (wait_profile (r_world s1)).
  apply (IH s1); [exact Hclock|by eapply good_aside|exact Hb|by destruct Ho|cbn; lia|cbn; lia|exact Hrdy].
Qed.
End late.

(** ** Registration *)

Lemma register_frames_option e p q i : frames option_part (λ _, True) (Runtime.tzio_register_handler (W:=adapt W) e p q i).
Proof using.
  unfold Runtime.tzio_register_handler, wasm_runtime_get_indirect_function, aot_get_indirect_function, wasm_runtime_get_function_idx,
    sig_row, set_sig_row, wasm_runtime_free, func_load, set_signal_pending, one_shl.
  repeat first [apply system_frames | frames_step]; done.
Qed.

(** The heap has room for a node, or has none. *)
Definition heap_gives (b : bool) : Prop := ∀ w : W, io_ok w → wp t (ta_malloc sizeof_node) (λ ok _, ok = b) w.

Lemma enqueue_req_ok s0 s p r (Q : Z → rstate (adapt W) → Prop) : aside s0 s → in_periph p → req_ok r →
  (∀ x s', aside s0 s' → (heap_gives true → front_of (r_world s') p ≠ 0) →
     (heap_gives false → option_part s' = option_part s) → Q x s') → wp t (sys_call (enqueue_req p r)) Q s.
Proof using TeeOk0.
  intros Ha Hp Hr HQ. pose proof (world_ad _ _ Ha) as Hw. assert (io_ok (ad_sys (r_world s))) as Hio by (by destruct Ha as (w&n&->&[_ ?]&_)).
  apply wp_zoom. unfold enqueue_req. wp_steps. apply wp_zoom.
  assert (wp t (ta_malloc sizeof_node) (λ ok w', stays (ad_sys (r_world s)) w' ∧ ∀ b, heap_gives b → ok = b) (ad_sys (r_world s))) as Hm.
  { pose proof (ok_ta_malloc sizeof_node _ Hio) as H1. unfold wp in *. destruct (ta_malloc _ _) as [ok w'| |] eqn:E; [|done|done].
    split; [done|]. intros b Hroom. specialize (Hroom _ Hio). unfold wp in Hroom. by rewrite E in Hroom. }
  eapply wp_mono; [exact Hm|]. intros ok w' [[Hw' Hc] Hok]. set (w1 := set_ad_sys w' (r_world s)).
  assert (ad_ok w1) as Hw1 by (by apply ad_ok_time). assert (aside s0 (set_world w1 s)) as Ha1 by (by apply aside_world).
  destruct (queue_lookup w1 p Hw1 Hp) as [q Eq]. destruct (ad_lists w1 Hw1) as (ql&Hql&Hty).
  apply (on_queue_ok t w1 p _ q); [done|done|]. apply wp_enqueue. destruct ok.
  - eapply wp_mono; [by eapply queues_enqueue|]. intros x [m' q'] [-> Hr']. apply HQ.
    + apply (aside_own s0 (set_world w1 s)); [done|]. split; [done|]. destruct Hw1 as [Ht He Hl _]. split; cbn; [done|done|by rewrite length_insert|].
      eexists. split; [exact Hr'|]. intros i id r'. rewrite length_insert. intros Hi. destruct (decide (i = Z.to_nat p)) as [->|].
      * rewrite set_list_eq. intros [Hin|[= -> ->]%list_elem_of_singleton]%elem_of_app; [by eapply Hty|done].
      * rewrite set_list_ne by done. by apply Hty.
    + intros _. unfold front_of. cbn [r_world set_world io_queues set_io_queues]. pose proof (lookup_lt_Some _ _ _ Eq) as Hlt.
      rewrite list_lookup_insert_eq by done. cbn. pose proof (qr_rep _ _ _ Hr' (Z.to_nat p) q') as Hrep.
      rewrite list_lookup_insert_eq, set_list_eq in Hrep by done. destruct (Hrep eq_refl) as (Hch&_). intros E0.
      apply (chain_front _ _ _ Hch) in E0. by destruct (ql (Z.to_nat p)).
    + intros Hfull. by discriminate (Hok _ Hfull).
  - eapply wp_mono; [apply enqueue_oom|]. intros x ? [-> ->]. apply HQ; [|intros Hroom; by discriminate (Hok _ Hroom)|].
    + apply (aside_own s0 (set_world w1 s)); [done|]. split; [done|]. cbn [fst snd]. rewrite list_insert_id by done. by destruct Hw1.
    + intros _. unfold option_part. cbn [r_world set_world io_queues set_io_queues set_ad_nodes no_profile fst snd].
      by rewrite list_insert_id.
Qed.

Lemma covered_but_aside p q s s' : covered_but managed p q s → aside s s' → covered_but managed p q s'.
Proof using.
  intros [Ha Hc] (w&n&->&_&Hcalm). split; [done|]. intros p' q' Hp Hq Hm Hne Hs. apply (Hc p' q' Hp Hq Hm Hne).
  by destruct (Hcalm p' q' Hp Hq Hs) as [?|[]].
Qed.

(** What comes before the registration proper. *)
Lemma register_after s p q i ty len (Q : Z → rstate (adapt W) → Prop) : io_ok (r_world s) → in_periph p → in_sig q →
  0 < i → 0 <= ty < N_REQ_TYPE →
  (∀ s1, aside s s1 → (heap_gives true → front_of (r_world s1) p ≠ 0) → (heap_gives false → option_part s1 = option_part s) →
     wp t (Runtime.tzio_register_handler (Some m) p q i) Q s1) →
  wp t (Adaptive.tzio_register_handler (Some m) p q i ty len) Q s.
Proof using TeeOk0.
  intros Hio Hp Hq Hi Hty HQ. unfold Adaptive.tzio_register_handler.
  rewrite orb_false_intro by (apply Z.ltb_ge; unfold in_periph, N_PERIPH, N_SIG, in_sig, N_SUB_SIG in *; lia).
  rewrite (proj2 (Z.eqb_neq i 0)), (proj2 (Z.ltb_ge _ _)) by lia. wp_steps.
  eapply wp_mono; [apply (wp_frames no_profile_of); [apply micros_frames|apply (micros_ok s s (λ _ s', aside s s' ∧ ad_ok (r_world s')
    ∧ io_queues (r_world s') = io_queues (r_world s))); [by apply aside_refl|apply Hio|by intros]]|].
  cbn beta. intros now s1 [(Ha1&Hw1&Eq1) [En1 _]]. wp_steps.
  apply wp_zoom. apply exec_time_ok; [done|done|]. intros e _. replace (set_world (r_world s1) s1) with s1 by by destruct s1. wp_steps.
  apply (enqueue_req_ok s s1); [done|done|done|]. intros x s2 Ha2 Hfr Hfull. wp_steps. apply HQ; [done|done|].
  intros H. rewrite (Hfull H). unfold option_part, no_profile_of in *. by rewrite Eq1, En1.
Qed.

Lemma aside_wf s s' : rt_wf m s → aside s s' → rt_wf m s'.
Proof using. intros Hwf (w&n&->&Hw&_). apply (rt_wf_frame m s); try done; apply Hwf. Qed.

Lemma adaptive_register_ok s p q i ty len : module_ok m → rt_wf m s → covered_but managed p q s → 0 <= p < 63 → managed p → in_sig q →
  0 < i → findable (W:=adapt W) m i → 0 <= ty < N_REQ_TYPE →
  wp t (Adaptive.tzio_register_handler (Some m) p q i ty len) (λ r s', r = 0 ∧ good m managed (in_handler s) s' ∧ log_ext s s'
    ∧ (heap_gives true → front_of (r_world s') p ≠ 0)) s.
Proof using TeeOk0.
  intros Hm Hwf Hcov Hp Hmp Hq Hi Hf Hty. apply register_after; [apply Hwf|unfold in_periph, N_PERIPH; lia|done|done|done|].
  intros s2 Ha2 Hfr _. pose proof (aside_wf _ _ Hwf Ha2) as Hwf2.
  eapply wp_mono; [apply (wp_frames option_part); [apply register_frames_option|]|].
  { apply wp_total. apply (register_covers m managed s2 p q i Hm Hwf2); try done. by eapply covered_but_aside. }
  intros r s3 ((->&Hg&Hl)&Eq&_). assert (in_handler s2 = in_handler s ∧ r_log s2 = r_log s) as [Eh El] by (by destruct Ha2 as (w&n&->&_)).
  rewrite Eh in Hg. split_and!; [done|done| |].
  - unfold log_ext in *. by rewrite <- El.
  - intros Hroom. injection Eq as Eq _. unfold front_of in *. rewrite Eq. by apply Hfr.
Qed.

(** Without memory for its entry the request is registered all the same. *)
Lemma ffsll_pow p : 0 <= p < 63 → ffsll (2 ^ p) - 1 = p.
Proof using.
  intros Hp. assert (0 <= 2 ^ p < 2 ^ 63) as Hb by (split; [lia|apply Z.pow_lt_mono_r; lia]).
  destruct (ffsll_spec (2 ^ p)) as (_&Hbit&_); [lia|lia|].
  destruct (Z.eq_dec (ffsll (2 ^ p) - 1) p); [done|]. rewrite Z.pow2_bits_false in Hbit by done. done.
Qed.

Lemma register_lost s p q i ty len : module_ok m → rt_wf m s → heap_gives false → in_handler s = 0 → io_sigpending s = 0 →
  no_profile (r_world s) = false → front_of (r_world s) p = 0 → 0 <= p < 63 → in_sig q → 0 < i → findable (W:=adapt W) m i →
  0 <= ty < N_REQ_TYPE →
  wp t (Adaptive.tzio_register_handler (Some m) p q i ty len) (λ r s', r = 0 ∧ handler s' p q ≠ FNull ∧ awaits s' p ∧ log_ext s s'
    ∧ starved s') s.
Proof using TeeOk0.
  intros Hm Hwf Hfull Hin Hpend Hnp Hfr Hp Hq Hi Hf Hty.
  apply register_after; [apply Hwf|unfold in_periph, N_PERIPH; lia|done|done|done|]. intros s2 Ha2 _ Hopt. specialize (Hopt Hfull).
  pose proof (aside_wf _ _ Hwf Ha2) as Hwf2.
  eapply wp_mono; [apply (wp_frames option_part); [apply register_frames_option|apply wp_total, (register_ok m s2 p q i Hm Hwf2); done]|].
  intros r s3 ((->&Hreg)&Eo&_). rewrite Hopt in Eo. injection Eo as Eq En. destruct Hreg as [Hwf3 _ _ Hnull Haw Hin3 _ Hlog].
  assert (in_handler s2 = 0 ∧ io_sigpending s2 = 0 ∧ r_log s2 = r_log s) as (Eh&Ep&El) by (by destruct Ha2 as (w&n&->&_)).
  assert (io_sigpending s3 = 2 ^ p) as Ep3.
  { rewrite <- (awaiting_out s3) by congruence. by rewrite Haw, (awaiting_out s2), Ep, Z.setbit_spec'. }
  split_and!; [done|by intros ?%Hnull|unfold awaits; rewrite Ep3; apply Z.pow2_bits_true; lia| |].
  - exists [R_register p q (handler s3 p q)]. split; [by repeat constructor|]. by rewrite Hlog, El.
  - pose proof (rw_await _ _ Hwf3) as Hs. rewrite awaiting_out in Hs by congruence. split; [apply Hwf3|split; [done|rewrite Ep3; lia]| |congruence].
    rewrite Ep3, ffsll_pow by done. unfold front_of in *. by rewrite Eq.
Qed.
End steps.
