(* ===== verification/AdaptiveTheorems.v ===== *)
(** * Adaptive checkpoints: what they guarantee

    When the entries of the requests are there, a checkpoint with the option is
    safe and an overdue result is delivered in a bounded number of
    checkpoints; without its entry a result is never delivered. *)

From Stdlib Require Import ZArith Lia Bool.
From Stdlib Require Import SpecFloat.
From stdpp Require Import base tactics option list numbers gmap.
From S2P Require Import Prelude Platform Params Pta PtaProofs IoReq Queues IoState IoSignal IoSignalProofs IoSpec IoHelper IoSystem IoService ServiceTheorems.
From S2P Require Import Runtime RuntimeScan RuntimeProofs RuntimeKernel RuntimeTheorems AppMemory TeeApi TzioProofs TeeKernel TzioTheorems Frames.
From S2P Require Import Adaptive Estimate AdaptiveProofs.

Open Scope Z_scope.

Section theorems.
Context {t : bool} {maxlen : Z} {may : Z → Prop} {W : Type} `{!TeeClient W, !TeeServices W, !IoHelper W, !TeeOk t maxlen may W}.
Context (m : module_inst) (managed : Z → Prop).
Implicit Type s : rstate (adapt W).

(** C14: A checkpoint with adaptive checkpoints, outside handlers, in a state
    in which the invariants of the runtime, the queues and the table of
    estimates hold and every awaited request has its entry: no undefined
    behaviour (queues, floating-point conversions and table accesses
    included), and the invariants hold afterwards. Either it does not poll,
    and only the clock, the counters and the variables of the option change;
    or, from the state after the decision to poll, it dispatches: no awaited
    peripheral had a ready signal then and no handler is called, or the search
    for a ready signal reports an awaited peripheral p with a signal q that is
    the least ready one of p when p is polled, no awaited peripheral before p
    had a ready signal when the search began, and the handler registered for
    (p, q) is called, once. An interpreted checkpoint needs something to wait
    for. *)
Theorem adaptive_checkpoint_safe call s : call_ok m managed t call → good m managed 0 s → backed s →
  (module_type m = Wasm_Module_Bytecode → may_ask s) →
  wp t (Adaptive.checkpoint m call) (λ _ s', good m managed 0 s' ∧ adaptive_step s s') s.
Proof. intros. by apply (adaptive_checkpoint_ok m managed call). Qed.

(** C15: A request whose estimated end lies in the past is not left waiting:
    if every awaited request has its entry in the queue of its peripheral,
    some awaited peripheral has a ready signal and the front request of the
    first awaited peripheral is overdue, then after wait_profile + 1
    checkpoints a registered handler has been called, whatever the estimates
    are. *)
Theorem overdue_request_handled call late s : call_ok m managed t call → good m managed 0 s → backed s →
  clock_past late s → overdue late s → 0 <= wait_profile (r_world s) → some_ready s →
  wp t (checkpoints m call (S (Z.to_nat (wait_profile (r_world s)))))
    (λ _ s', good m managed 0 s' ∧ ∃ p q, handler s p q ≠ FNull ∧ called s p q s') s.
Proof.
  intros Hcall Hg Hb Hc Ho Hw Hr. apply (overdue_checkpoints m managed call Hcall late (Z.to_nat (wait_profile (r_world s)))); try done. lia.
Qed.

(** C39: The result of enqueue is ignored. If nothing else is awaited
    (io_sigpending = 0), profiling is on (no_profile is false) and there is no
    memory for the entry of a request on a peripheral that has none yet, the
    handler is registered and 0 returned, and no number of checkpoints calls
    any handler, whatever the I/O helper does meanwhile: the peripheral stays
    awaited. *)
Theorem lost_entry_starves call n s p q i ty len : module_ok m → rt_wf m s → heap_gives (t:=t) (W:=W) false → in_handler s = 0 →
  io_sigpending s = 0 → no_profile (r_world s) = false → front_of (r_world s) p = 0 → 0 <= p < 63 → in_sig q → 0 < i →
  findable (W:=adapt W) m i → 0 <= ty < N_REQ_TYPE →
  wp t (r ← Adaptive.tzio_register_handler (Some m) p q i ty len; checkpoints m call n;; mret r)
    (λ r s', r = 0 ∧ handler s' p q ≠ FNull ∧ awaits s' p ∧ log_ext s s') s.
Proof.
  intros Hm Hwf Hfull Hin Hpend Hnp Hfr Hp Hq Hi Hf Hty. wp_steps. eapply wp_mono; [by apply register_lost|].
  intros r s1 (->&Hh&Ha&(l&Hl&El)&Hs). wp_steps. eapply wp_mono; [by apply starved_checkpoints|]. intros u s2 [_ (El2&Ep&Et)]. wp_steps.
  split_and!; [done| | |exists l; split; [done|congruence]].
  - unfold handler, row in *. by rewrite Et.
  - unfold awaits in *. by rewrite Ep.
Qed.
End theorems.

(** ** Where the option leaves the program's memory *)

Section escapes.
Context {W : Type} `{!TeeClient W, !TeeServices W}.
Implicit Type s : rstate (adapt W).

Lemma profile_nothing s x w' : io_sigpending s = 0 → tee_system_time (ad_sys (r_world s)) = Ok x w' → profile s = Undef UB_oob.
Proof.
  intros Hz Ex. unfold profile, micros_now, sys_call, on_system, zoom, mbind, M_bind. rewrite Ex. cbn. by rewrite Hz.
Qed.
Lemma poll_nothing s x w' : io_sigpending s = 0 → no_profile (r_world s) = false → wait_profile (r_world s) <= 0 →
  tee_system_time (ad_sys (r_world s)) = Ok x w' → poll_now s = Undef UB_oob.
Proof.
  intros Hz Hn Hw Ex. unfold poll_now, sys_call, zoom, gets, mbind, M_bind. rewrite Hn.
  replace (set_world (r_world s) s) with s by by destruct s. rewrite (proj2 (Z.leb_le _ _)) by done. by eapply profile_nothing.
Qed.
Lemma interp_nothing m call s x w' : module_type m = Wasm_Module_Bytecode → io_sigpending s = 0 → no_profile (r_world s) = false →
  wait_profile (r_world s) <= 0 → tee_system_time (ad_sys (r_world s)) = Ok x w' → Adaptive.checkpoint m call s = Undef UB_oob.
Proof.
  intros Em Hz Hn Hw Ex. unfold Adaptive.checkpoint, Adaptive.HANDLE_IO_SIGNAL, mbind, M_bind. rewrite Em.
  by rewrite (poll_nothing _ _ _ Hz Hn Hw Ex).
Qed.

Lemma register_none m s p q i len x w' : in_periph p → in_sig q → 0 < i → length (exec_time_table (r_world s)) = 28%nat →
  tee_system_time (ad_sys (r_world s)) = Ok x w' → Adaptive.tzio_register_handler (Some m) p q i 28 len s = Undef UB_oob.
Proof.
  intros Hp Hq Hi Hl Ex. unfold Adaptive.tzio_register_handler.
  rewrite orb_false_intro by (apply Z.ltb_ge; unfold in_periph, N_PERIPH, N_SIG, in_sig, N_SUB_SIG in *; lia).
  rewrite (proj2 (Z.eqb_neq i 0)) by lia. change (N_REQ_TYPE <? 28) with false.
  unfold micros_now, exec_time, sys_call, on_system, zoom, arr_get, gets, mbind, M_bind. rewrite Ex. cbn.
  by rewrite lookup_ge_None_2 by lia.
Qed.

Lemma none_type ty : 0 <= ty → io_req_type_of ty = REQ_TYPE_NONE → ty = 28.
Proof.
  unfold io_req_type_of. intros Hty. rewrite (proj2 (Z.leb_le _ _)) by done. intros E. assert (io_req_types !! Z.to_nat ty = Some REQ_TYPE_NONE) as El.
  { by destruct (io_req_types !! Z.to_nat ty); simplify_eq/=. }
  assert (Z.to_nat ty < 29)%nat as Hlt by (apply (lookup_lt_Some _ _ _ El)).
  assert (∀ k, (k < 29)%nat → io_req_types !! k = Some REQ_TYPE_NONE → k = 28%nat) as Hall.
  { intros k Hk. do 29 (destruct k as [|k]; [by (discriminate || reflexivity)|]). lia. }
  apply Hall in El; [lia|done].
Qed.

Lemma learn_nothing coef s p q x w' : in_periph p → io_queues (r_world s) !! Z.to_nat p = Some q → q_front q = 0 →
  tee_system_time (ad_sys (r_world s)) = Ok x w' → learn coef p s = Undef UB_uninit.
Proof.
  intros Hp Eq Hf Ex. unfold learn, micros_now, sys_call, on_system, on_io_queue, zoom, arr_get, gets, mbind, M_bind. rewrite Ex. cbn.
  rewrite (proj2 (Z.leb_le _ _)) by apply Hp. rewrite Eq. unfold dequeue, is_empty, gets, mbind, M_bind. cbn. by rewrite Hf.
Qed.

(** Three uses of the option leave its arrays or read a variable that was
    not written, when the clock answers: an interpreted checkpoint while
    nothing is awaited and no count of checkpoints is left (as at the start)
    indexes the queues at -1; registering with the type for no request, 28,
    which the check accepts, reads behind the table of estimates; learning
    from a peripheral whose queue is empty uses a request that was never
    filled. *)
Theorem adaptive_escapes m call coef s p q i len x w' : tee_system_time (ad_sys (r_world s)) = Ok x w' →
  in_periph p → in_sig q → 0 < i → ad_ok (r_world s) →
  (module_type m = Wasm_Module_Bytecode → io_sigpending s = 0 → no_profile (r_world s) = false → wait_profile (r_world s) <= 0 →
     Adaptive.checkpoint m call s = Undef UB_oob)
  ∧ (∀ ty, 0 <= ty → io_req_type_of ty = REQ_TYPE_NONE → Adaptive.tzio_register_handler (Some m) p q i ty len s = Undef UB_oob)
  ∧ (front_of (r_world s) p = 0 → learn coef p s = Undef UB_uninit).
Proof.
  intros Ex Hp Hq Hi Hw. split_and!.
  - intros. by eapply interp_nothing.
  - intros ty Hty Hnone. rewrite (none_type ty) by done. eapply register_none; try done. pose proof (ad_table _ Hw). unfold N_REQ_TYPE in *. lia.
  - destruct (queue_lookup _ p Hw Hp) as [r Er]. unfold front_of. rewrite Er. cbn. intros Hf. by eapply learn_nothing.
Qed.
End escapes.

(** ** The estimate *)

(** C33: The estimate learnt from a request that took x microseconds, with b
    the one before, is computed without overflow or an undefined conversion
    for all 64-bit values, and is 0.91 x + 0.01 b (compiled) or 0.76 x + 0.01
    b (interpreted) up to one microsecond and a relative error of 2^-17, in
    spite of the rounding to single precision; the number of checkpoints to
    skip is 0.8 of those counted, as precisely. As the weights do not sum to
    1, an estimate that is not above the time taken stays below it, for
    requests of at least 20 microseconds. *)
Theorem estimate_accuracy {S} coef n x b (s : S) : (coef, n) ∈ [(COEF_AOT, 91); (COEF_INTERP, 76)] → 0 <= x < 2 ^ 64 → 0 <= b < 2 ^ 64 →
  (∃ r, u64_of_double (mix coef x b) s = Ok r s ∧ 0 <= r < 2 ^ 64
     ∧ Z.abs (100 * r - (n * x + b)) * 2 ^ 17 <= 100 * 2 ^ 17 + (n * x + b) ∧ (b <= x → 20 <= x → r < x))
  ∧ ∃ r, u64_of_double (scale COEF_WAIT x) s = Ok r s ∧ 0 <= r < 2 ^ 64 ∧ Z.abs (10 * r - 8 * x) * 2 ^ 17 <= 10 * 2 ^ 17 + 8 * x.
Proof.
  intros Hc Hx Hb. assert (weight coef n ∧ n <= 91) as [Hw Hn].
  { apply elem_of_cons in Hc as [[= -> ->]|[[= -> ->]|[]%elem_of_nil]%elem_of_cons]; [split; [apply weight_aot|done]|split; [apply weight_interp|done]]. }
  split; [|by apply scale_u64]. destruct (mix_u64 coef n x b s Hw Hx Hb) as (r&Er&Hr&Habs). exists r. do 3 (split; [done|]).
  intros Hbx Hx20. assert (n * x <= 91 * x) by (apply Z.mul_le_mono_nonneg_r; lia).
  change (2 ^ 17) with 131072 in Habs. lia.
Qed.

(** ** Witnesses

    A board whose I/O helper has a finished request on peripheral 40; the
    application registers a handler for it. *)
Module AdaptiveWitnesses.
#[local] Existing Instance Demo.E.
#[local] Existing Instance Demo.S.
#[local] Existing Instance Demo.O.
#[local] Existing Instance TzioWitnesses.demo_library.
#[local] Existing Instance TzioWitnesses.demo_library_ok.
#[local] Existing Instance TzioWitnesses.client.
#[local] Existing Instance TzioWitnesses.services.
#[local] Existing Instance TzioWitnesses.helper.
#[local] Existing Instance TzioWitnesses.system_ok.

Abbreviation W := (tee TzioWitnesses.storage).
Abbreviation aot := RuntimeWitnesses.aot_module.
Abbreviation only40 := (RuntimeWitnesses.only 40).
Definition quiet (c p q : Z) : prog (adapt W) := Halt.
Definition call : func_ref → Z → Z → Runtime.R (adapt W) unit := call_with quiet (run aot quiet 0).
Lemma quiet_call : call_ok aot only40 false call.
Proof. by apply call_with_ok. Qed.

Definition board (k : sys) : W := Tee k 0 (replicate (Z.to_nat I2C_SERVICE_OVERHEAD_BENCHMARK_SIZE) 0) (TzioWitnesses.StorageState [] [] 100).
Lemma board_ok (k : sys) : reachable k → d_gpio_base (k_d k.1) ≠ SpiProofs.spi_addr (k_d k.1) Spi.SPI_FIFO
  ∧ d_gpio_base (k_d k.1) + 4 ≠ SpiProofs.spi_addr (k_d k.1) Spi.SPI_FIFO → io_ok (board k).
Proof.
  intros Hr Hpins. destruct (reach_sim _ Hr) as (tr&a&_&Hsim). pose proof (rl_shape _ _ (proj1 Hsim)) as (_&_&_&_&_&_&_&_&_&_&Hwf&Hh).
  split; cbn [te_sys board].
  - by exists a.
  - by split.
  - split; [done|]. split; [done|]. by apply Forall_replicate.
  - done.
Qed.
Lemma heap_has_room : heap_gives (t:=false) (W:=W) true.
Proof. by intros w _. Qed.

Definition booted (k : sys) : rstate (adapt W) := r_init (adapt_init (board k)).
Abbreviation waiting := (Adaptive.tzio_register_handler (W:=W) (Some aot) 40 0 1 0 0).

(** The state after the registration: the request is awaited, has its entry,
    and its result is there. *)
Definition entered (k : sys) (s : rstate (adapt W)) : Prop := io_sigpending s = 2 ^ 40 ∧ te_sys (ad_sys (r_world s)) = k
  ∧ te_lib (ad_sys (r_world s)) = TzioWitnesses.StorageState [] [] 101 ∧ wait_profile (r_world s) = 0 ∧ no_profile (r_world s) = false
  ∧ qm_nodes (ad_nodes (r_world s)) !! front_of (r_world s) 40 = Some (Node (Req 0 (10 ^ 8) (10 ^ 8) 0) 0).
Lemma wp_and_run {S A} t (f : M S A) Q (P : S → Prop) s : wp t f Q s → match f s with Ok _ s' => P s' | _ => False end →
  ∃ a s', Q a s' ∧ P s'.
Proof. unfold wp. destruct (f s) as [a s'| |]; [|done|done]. intros. by exists a, s'. Qed.

Lemma waiting_entered k : match waiting (booted k) with Ok _ s => entered k s | _ => False end.
Proof. vm_compute. split_and!; reflexivity. Qed.

Lemma waiting_good k : io_ok (board k) → sig_of k.1 40 0 = SigReady → (∀ q, in_sig q → sig_of k.1 40 q ≠ SigFree → q = 0) →
  ∃ s, good aot only40 0 s ∧ backed s ∧ some_ready s ∧ entered k s ∧ front_of (r_world s) 40 ≠ 0.
Proof.
  intros Hb Hready Hused. assert (rt_wf aot (booted k)) as Hwf.
  { apply (rt_wf_init aot (λ _, False)); [|done]. split; [apply ad_ok_init|done]. }
  assert (covered_but only40 40 0 (booted k)) as Hcb.
  { split; [intros p Hp; change (awaiting (booted k)) with 0; by rewrite Z.bits_0|]. intros p q Hp Hq -> Hne Hs. destruct Hne.
    split; [done|]. by apply Hused. }
  assert (findable (W:=adapt W) aot 1) as Hf.
  { split; [by exists 1; eexists|]. intros w _. by eexists. }
  assert (in_sig 0 ∧ 0 <= 0 < N_REQ_TYPE) as [Hq0 Hty] by (unfold in_sig, N_SUB_SIG, N_REQ_TYPE; lia).
  pose proof (adaptive_register_ok aot only40 (booted k) 40 0 1 0 0 RuntimeWitnesses.aot_module_ok Hwf Hcb ltac:(lia) eq_refl Hq0 ltac:(lia) Hf Hty) as Hreg.
  destruct (wp_and_run _ _ _ _ _ Hreg (waiting_entered k)) as (r&s&(_&Hg&_&Hfr)&He). exists s.
  pose proof He as (Ep&Es&_). specialize (Hfr heap_has_room).
  split; [exact Hg|]. split; [|split; [|by split]].
  - intros p q Hp Hq Ha _. unfold awaits in Ha. rewrite Ep, Z.pow2_bits_eqb in Ha by done. by apply Z.eqb_eq in Ha as <-.
  - exists 40, 0. split_and!; [done|done|unfold awaits; by rewrite Ep|]. unfold sig_now. cbn [io_sig adapt_helper].
    change (sig_of (te_sys (ad_sys (r_world s))).1 40 0 = SigReady). by rewrite Es.
Qed.

Lemma waiting_ok : ∃ k s, good aot only40 0 s ∧ backed s ∧ some_ready s ∧ entered k s ∧ front_of (r_world s) 40 ≠ 0.
Proof.
  destruct Demo.demo_reach_ready as (pc&Hr&_). exists (Demo.demo_k5, pc). apply waiting_good.
  - apply board_ok; [exact Hr|by vm_compute].
  - cbn [fst]. apply Demo.demo_ready.
  - cbn [fst]. apply RuntimeWitnesses.demo_used.
Qed.

Lemma adaptive_checkpoint_safe_witness : ∃ s, some_ready s
  ∧ wp false (Adaptive.checkpoint aot call) (λ _ s', good aot only40 0 s' ∧ adaptive_step s s') s.
Proof.
  destruct waiting_ok as (k&s&Hg&Hb&Hr&_). exists s. split; [exact Hr|].
  apply (adaptive_checkpoint_safe aot only40 call s quiet_call Hg Hb). intros [=].
Defined.

Lemma overdue_request_handled_witness : ∃ s,
  wp false (checkpoints aot call 1) (λ _ s', good aot only40 0 s' ∧ ∃ p q, handler s p q ≠ FNull ∧ called s p q s') s.
Proof.
  destruct waiting_ok as (k&s&Hg&Hb&Hr&He&Hne). pose proof He as (Ep&Es&El&Ew&En&Ef). exists s.
  assert (ffsll (io_sigpending s) - 1 = 40) as E40 by (rewrite Ep; reflexivity).
  pose proof (overdue_request_handled aot only40 call (10 ^ 8) s quiet_call Hg Hb) as Hw. rewrite Ew in Hw. apply Hw.
  - pose proof (rw_io _ _ (gd_wf _ _ _ _ Hg)) as [_ Hio]. eexists (101, 0), _. split; [|split; [|split]].
    + unfold tee_system_time, TzioWitnesses.services, tee_services, on_lib, zoom. rewrite El. reflexivity.
    + by destruct Hio; split.
    + apply reflexivity.
    + by vm_compute.
  - split; rewrite ?E40; [rewrite Ep; done|done| |done]. eexists. split; [exact Ef|]. done.
  - done.
  - done.
Defined.

Lemma adaptive_escapes_witness : ∃ s : rstate (adapt W), Adaptive.checkpoint RuntimeWitnesses.interp_module call s = Undef UB_oob
  ∧ Adaptive.tzio_register_handler (Some aot) 40 0 1 28 0 s = Undef UB_oob ∧ learn COEF_AOT 40 s = Undef UB_uninit.
Proof.
  exists (booted sys_init). assert (tee_system_time (board sys_init) = Ok (100, 0) (set_te_lib (TzioWitnesses.StorageState [] [] 101) (board sys_init)))
    as Ex by reflexivity.
  assert (in_periph 40 ∧ in_sig 0) as [Hp Hq] by (unfold in_periph, N_PERIPH, in_sig, N_SUB_SIG; lia).
  destruct (adaptive_escapes RuntimeWitnesses.interp_module call COEF_AOT (booted sys_init) 40 0 1 0 _ _ Ex Hp Hq ltac:(lia) (ad_ok_init _)) as (H1&_&_).
  destruct (adaptive_escapes aot call COEF_AOT (booted sys_init) 40 0 1 0 _ _ Ex Hp Hq ltac:(lia) (ad_ok_init _)) as (_&H2&H3).
  split_and!; [by apply H1|by apply H2|by apply H3].
Defined.

Lemma estimate_accuracy_witness : ∃ r, u64_of_double (mix COEF_AOT 5600 5600) tt = Ok r tt ∧ r < 5600.
Proof.
  destruct (estimate_accuracy COEF_AOT 91 5600 5600 tt) as [(r&Er&_&_&Hlt) _].
  - by left.
  - done.
  - done.
  - exists r. split; [exact Er|]. by apply Hlt.
Defined.
End AdaptiveWitnesses.

(** The same board without memory for the entry. *)
Module LostWitnesses.
#[local] Existing Instance Demo.E.
#[local] Existing Instance Demo.S.
#[local] Existing Instance Demo.O.
#[local] Instance full_library : TeeLibrary TzioWitnesses.storage := TzioWitnesses.library false.
#[local] Instance full_library_ok (t : bool) : TeeLibraryOk t TzioWitnesses.storage := TzioWitnesses.library_ok false t.
Abbreviation W := (tee TzioWitnesses.storage).
#[local] Instance client : TeeClient W := tee_client RuntimeWitnesses.idle_sched RuntimeWitnesses.plenty.
#[local] Instance services : TeeServices W := tee_services RuntimeWitnesses.idle_sched.
#[local] Instance helper : IoHelper W :=
  tee_helper RuntimeWitnesses.idle_sched RuntimeWitnesses.plenty false TzioWitnesses.maxlen TzioWitnesses.maxlen_ok RuntimeWitnesses.idle_sched_ok.
#[local] Instance system_ok : TeeOk false TzioWitnesses.maxlen anywhere W :=
  tee_services_ok RuntimeWitnesses.idle_sched RuntimeWitnesses.plenty false TzioWitnesses.maxlen TzioWitnesses.maxlen_ok RuntimeWitnesses.idle_sched_ok.
Abbreviation aot := RuntimeWitnesses.aot_module.
Definition start : rstate (adapt W) := r_init (adapt_init (TzioWitnesses.boot [])).
Lemma adaptive_start_wf : rt_wf aot start.
Proof.
  apply (rt_wf_init aot (λ _, False)); [|done]. split; [apply ad_ok_init|]. split; cbn [te_sys TzioWitnesses.boot sys_init fst].
  - eexists. apply sim_init.
  - split; [done|done|by intros|done|by intros].
  - split; [done|]. split; [done|]. by apply Forall_replicate.
  - done.
Qed.

Definition never (f : func_ref) (p q : Z) : Runtime.R (adapt W) unit := mret ().
Lemma lost_entry_starves_witness :
  wp false (r ← Adaptive.tzio_register_handler (Some aot) 40 0 1 0 0; checkpoints aot never 1000;; mret r)
    (λ r s', r = 0 ∧ handler s' 40 0 ≠ FNull ∧ awaits s' 40 ∧ log_ext start s') start.
Proof.
  apply (lost_entry_starves (t:=false) aot never 1000 start 40 0 1 0 0 RuntimeWitnesses.aot_module_ok adaptive_start_wf).
  - by intros w _.
  - done.
  - done.
  - done.
  - done.
  - done.
  - done.
  - done.
  - split; [by exists 1; eexists|]. intros w _. by eexists.
  - done.
Defined.
End LostWitnesses.
