(* ===== verification/RuntimeTa.v ===== *)
(** * The trusted application that runs Wasm (wamr_tzio/ta) and its console

    The commands of the trusted application: it sets the heap size and runs an
    application, from the copy of its code into secure memory to the teardown
    of the runtime (main.c, wasm.c, native_lib.c); and the console of the
    application: [writev] and [os_printf] of the platform layer
    (core/shared/platform/linux-trustzone/tz_file.c, tz_platform.c).

    The WebAssembly runtime, the dynamic linker and the allocator answer as
    functions of the calls made so far; the calls are kept, newest first. *)

From Stdlib Require Import ZArith Lia Bool.
From stdpp Require Import base tactics option list numbers gmap strings.
From S2P Require Import Prelude Platform.

Open Scope Z_scope.

(** ** Calls that leave the program *)

Inductive call :=
  | C_malloc (n p : Z) | C_free (p : Z)                 (* TEE_Malloc: 0 if it fails; TEE_Free *)
  | C_shared (l : list Z)                               (* the client's code, read *)
  | C_print (l : list Z)                                (* a message on the secure console *)
  | C_init (heap : Z) (ok : bool) | C_destroy           (* wasm_runtime_full_init, wasm_runtime_destroy *)
  | C_pool_malloc (p : Z) | C_pool_free (p : Z)         (* wasm_runtime_malloc, wasm_runtime_free *)
  | C_dlopen (name : string) (h : Z) | C_dlclose (h : Z)
  | C_init_lib (name : string) (r : Z) | C_get_lib (name : string) | C_deinit_lib (name : string)
  | C_register (name : string) (ok : bool)              (* wasm_runtime_register_natives *)
  | C_load (code : list Z) (m : Z) | C_unload (m : Z)
  | C_wasi_args (m : Z) (argc : Z)
  | C_instantiate (m i : Z) | C_deinstantiate (i : Z)
  | C_execute (i : Z) (ok : bool).

(** The functions a library exports. *)
Record lib_syms := LibSyms { has_init : bool; has_get : bool; has_deinit : bool }.

Class TaEnv := {
  te_malloc : list call → Z → bool;
  te_shared : list call → Z → Z;                        (* the client's code; the normal world may write to it at any time *)
  te_info : bool;                                       (* info messages are compiled in *)
  te_init : list call → bool;
  te_pool : list call → bool;
  te_dlopen : list call → string → bool;
  te_syms : string → lib_syms;
  te_init_lib : list call → string → Z;
  te_get_lib : list call → string → Z * bool * bool;    (* number; are name and symbols there *)
  te_register : list call → string → bool;
  te_load : list call → list Z → bool;
  te_instantiate : list call → bool;
  te_execute : list call → list (Z * list (list Z)) * bool  (* what the application writes, and its success *)
}.

(** ** State *)

(** [struct native_lib]: the block it is in, its handle and what it has. *)
Record native_lib := NativeLib { nl_block : Z; nl_name : string; nl_handle : Z }.

Record ta := Ta {
  heap_size : Z;                          (* main.c *)
  output_buffer : option Z;               (* tz_file.c: an offset into the client's buffer, or NULL *)
  output_buffer_size : Z;
  ta_output : list Z;                     (* the client's output buffer *)
  native_lib_loaded_list : list native_lib;
  singleton_wamr_context : bool;          (* is it set *)
  ta_blocks : gmap Z buf;                 (* live blocks of the TEE heap *)
  ta_fresh : Z;                           (* next address, handle or object *)
  ta_calls : list call
}.
Definition ta_init : ta := Ta 0 None 0 [] [] false ∅ 1 [].

Definition set_heap_size x s := Ta x (output_buffer s) (output_buffer_size s) (ta_output s) (native_lib_loaded_list s) (singleton_wamr_context s) (ta_blocks s) (ta_fresh s) (ta_calls s).
Definition set_output b n s := Ta (heap_size s) b n (ta_output s) (native_lib_loaded_list s) (singleton_wamr_context s) (ta_blocks s) (ta_fresh s) (ta_calls s).
Definition set_output_mem x s := Ta (heap_size s) (output_buffer s) (output_buffer_size s) x (native_lib_loaded_list s) (singleton_wamr_context s) (ta_blocks s) (ta_fresh s) (ta_calls s).
Definition set_loaded x s := Ta (heap_size s) (output_buffer s) (output_buffer_size s) (ta_output s) x (singleton_wamr_context s) (ta_blocks s) (ta_fresh s) (ta_calls s).
Definition set_singleton x s := Ta (heap_size s) (output_buffer s) (output_buffer_size s) (ta_output s) (native_lib_loaded_list s) x (ta_blocks s) (ta_fresh s) (ta_calls s).
Definition set_blocks x s := Ta (heap_size s) (output_buffer s) (output_buffer_size s) (ta_output s) (native_lib_loaded_list s) (singleton_wamr_context s) x (ta_fresh s) (ta_calls s).
Definition set_fresh x s := Ta (heap_size s) (output_buffer s) (output_buffer_size s) (ta_output s) (native_lib_loaded_list s) (singleton_wamr_context s) (ta_blocks s) x (ta_calls s).
Definition log_call c s := Ta (heap_size s) (output_buffer s) (output_buffer_size s) (ta_output s) (native_lib_loaded_list s) (singleton_wamr_context s) (ta_blocks s) (ta_fresh s) (c :: ta_calls s).

Definition T (A : Type) : Type := M ta A.

Section ta.
Context `{TaEnv}.

(** ** Calls *)
Definition record (c : call) : T unit := modify (log_call c).
Definition calls : T (list call) := gets ta_calls.
(** A new non-null value, or 0. *)
Definition fresh (ok : bool) : T Z :=
  if ok then p ← gets ta_fresh; modify (set_fresh (p + 1));; mret p else mret 0.

Definition TEE_Malloc (n : Z) : T Z :=
  h ← calls; p ← fresh (te_malloc h n); record (C_malloc n p);;
  (if p =? 0 then mret () else modify (λ s, set_blocks (<[p := uninit n]> (ta_blocks s)) s));;
  mret p.
Definition TEE_Free (p : Z) : T unit :=
  if p =? 0 then mret () else
  bs ← gets ta_blocks;
  match bs !! p with
  | None => undef UB_free
  | Some _ => record (C_free p);; modify (λ s, set_blocks (delete p (ta_blocks s)) s)
  end.
(** A copy into a block, and out of it; nothing is copied for length 0. *)
Definition block_write (p off : Z) (l : list Z) : T unit :=
  if (length l =? 0)%nat then mret () else
  bs ← gets ta_blocks;
  match bs !! p with
  | None => undef UB_null
  | Some b =>
      if blen b <? off + Z.of_nat (length l) then undef UB_oob else
      modify (λ s, set_blocks (<[p := take (Z.to_nat off) b ++ bytes l ++ drop (Z.to_nat off + length l) b]> (ta_blocks s)) s)
  end.
Definition block_read (p n : Z) : T (list Z) :=
  if n =? 0 then mret [] else
  bs ← gets ta_blocks;
  match bs !! p with
  | None => undef UB_null
  | Some b =>
      if blen b <? n then undef UB_oob else
      match mapM (M:=option) id (take (Z.to_nat n) b) with Some l => mret l | None => undef UB_uninit end
  end.

(** ** The console (tz_platform.c, tz_file.c) *)

Definition os_malloc (size : Z) : T Z := TEE_Malloc (u32 size).
Definition os_free (p : Z) : T unit := TEE_Free p.

Definition FIXED_BUFFER_SIZE : Z := 2 ^ 9.
(** The characters of a string up to its end. *)
Fixpoint c_string (l : list Z) : list Z := match l with [] => [] | c :: l => if c =? 0 then [] else c :: c_string l end.
(** Does a format without arguments ask for one; ["%%"] stands for itself. *)
Definition percent : Z := 37.
Fixpoint conversion (l : list Z) : bool :=
  match l with
  | [] => false
  | c :: l' =>
      if c =? percent then match l' with c' :: l'' => if c' =? percent then conversion l'' else true | [] => true end
      else conversion l'
  end.
(** [IMSG(msg)]: the message is the format. *)
Definition IMSG (msg : list Z) : T unit :=
  if negb te_info then mret () else if conversion msg then undef UB_format else record (C_print msg).

(** [os_printf("%.*s", n, p)]: at most [n] characters, if [n] is not negative
    as an [int] (otherwise the text must end with a NUL), and at most 511. *)
Definition os_printf_s (n : Z) (l : list Z) : T unit :=
  if (i32 n <? 0) && negb (existsb (Z.eqb 0) l) then undef UB_oob else
  IMSG (take (Z.to_nat (FIXED_BUFFER_SIZE - 1)) (c_string (if 0 <=? i32 n then take (Z.to_nat (i32 n)) l else l))).

Definition nchars (iov : list (list Z)) : Z := foldl (λ n v, u64 (n + Z.of_nat (length v))) 0 iov.
Fixpoint assemble (p off : Z) (iov : list (list Z)) : T unit :=
  match iov with
  | [] => mret ()
  | v :: iov => block_write p off v;; assemble p (off + Z.of_nat (length v)) iov
  end.

(** The copy to the client's buffer. *)
Definition output_write (l : list Z) : T unit :=
  if (length l =? 0)%nat then mret () else
  b ← gets output_buffer;
  out ← gets ta_output;
  match b with
  | None => undef UB_null
  | Some off =>
      if (off <? 0) || (Z.of_nat (length out) <? off + Z.of_nat (length l)) then undef UB_oob else
      modify (set_output_mem (take (Z.to_nat off) out ++ l ++ drop (Z.to_nat off + length l) out))
  end.

Definition writev (fd : Z) (iov : list (list Z)) : T Z :=
  if negb ((fd =? 1) || (fd =? 2)) then mret (-1) else
  let n := nchars iov in
  buffer ← os_malloc n;
  assemble buffer 0 iov;;
  text ← block_read buffer n;
  os_printf_s n text;;
  size ← gets output_buffer_size;
  (if n <? size then
     output_write text;;
     modify (λ s, set_output ((λ off, off + n) <$> output_buffer s) (u64 (size - n)) s)
   else mret ());;
  os_free buffer;;
  mret n.

Definition tzio_set_output_buffer (present : bool) (size : Z) : T unit :=
  modify (set_output (if present then Some 0 else None) size).

(** ** Native libraries (native_lib.c) *)

Definition wasm_runtime_malloc : T Z := h ← calls; p ← fresh (te_pool h); record (C_pool_malloc p);; mret p.
Definition wasm_runtime_free (p : Z) : T unit := record (C_pool_free p).
Definition dlopen (name : string) : T Z := h ← calls; x ← fresh (te_dlopen h name); record (C_dlopen name x);; mret x.
Definition dlclose (h : Z) : T unit := record (C_dlclose h).

(** The label [fail]. *)
Definition load_fail (block handle : Z) : T (option native_lib) :=
  (if block =? 0 then mret ()
   else (if handle =? 0 then mret () else dlclose handle);; wasm_runtime_free block);;
  mret None.

Definition load_native_lib (name : string) : T (option native_lib) :=
  block ← wasm_runtime_malloc;
  if block =? 0 then load_fail 0 0 else
  handle ← dlopen name;
  if handle =? 0 then load_fail block 0 else
  let syms := te_syms name in
  if negb (has_get syms) then load_fail block handle else
  ret ← (if has_init syms then h ← calls; let r := te_init_lib h name in record (C_init_lib name r);; mret r else mret 0);
  if negb (ret =? 0) then load_fail block handle else
  h ← calls;
  let '(n, module_name, native_symbols) := te_get_lib h name in
  record (C_get_lib name);;
  ok ← (if (0 <? n) && module_name && native_symbols then
          h ← calls; let ok := te_register h name in record (C_register name ok);; mret ok
        else mret false);
  if negb ok then
    (if has_deinit syms then record (C_deinit_lib name) else mret ());;
    load_fail block handle
  else mret (Some (NativeLib block name handle)).

Fixpoint load_and_register_native_libs (names : list string) : T (list native_lib) :=
  match names with
  | [] => mret []
  | name :: names =>
      lib ← load_native_lib name;
      loaded ← load_and_register_native_libs names;
      mret (match lib with Some l => l :: loaded | None => loaded end)
  end.

(** ** The runtime's life (wasm.c) *)

Record wamr_context := Context {
  wc_heap : Z; wc_heap_size : Z; wc_code : Z; wc_code_size : Z; wc_module : Z; wc_inst : Z
}.
Definition gpio_lib : string := "b3091a65-9751-4784-abf7-0298a7cc35bc".
Definition tzio_lib : string := "a6799c0f-518a-4107-87be-33757c906262".

Definition TA_InitializeWamrRuntime (c : wamr_context) (argc : Z) : T (Z * wamr_context) :=
  h ← calls;
  let ok := te_init h in
  record (C_init (wc_heap c) ok);;
  if negb ok then mret (TEE_ERROR_GENERIC, c) else
  loaded ← load_and_register_native_libs [gpio_lib; tzio_lib];
  modify (set_loaded loaded);;
  code ← block_read (wc_code c) (wc_code_size c);
  h ← calls;
  m ← fresh (te_load h code);
  record (C_load code m);;
  let c := Context (wc_heap c) (wc_heap_size c) (wc_code c) (wc_code_size c) m (wc_inst c) in
  if m =? 0 then mret (TEE_ERROR_GENERIC, c) else
  record (C_wasi_args m argc);;
  h ← calls;
  i ← fresh (te_instantiate h);
  record (C_instantiate m i);;
  let c := Context (wc_heap c) (wc_heap_size c) (wc_code c) (wc_code_size c) m i in
  if i =? 0 then mret (TEE_ERROR_GENERIC, c) else
  modify (set_singleton true);;
  mret (TEE_SUCCESS, c).

(** The application: what it writes to its file descriptors. *)
Fixpoint writes (l : list (Z * list (list Z))) : T unit :=
  match l with [] => mret () | (fd, iov) :: l => writev fd iov;; writes l end.
Definition wasm_application_execute_main (i : Z) : T bool :=
  h ← calls;
  let '(l, ok) := te_execute h in
  writes l;;
  record (C_execute i ok);;
  mret ok.
Definition TA_ExecuteWamrRuntime (c : wamr_context) : T Z :=
  ok ← wasm_application_execute_main (wc_inst c);
  mret (if negb ok then TEE_ERROR_GENERIC else TEE_SUCCESS).

Definition TA_TearDownWamrRuntime (c : wamr_context) : T unit :=
  modify (set_singleton false);;
  (if wc_inst c =? 0 then mret () else record (C_deinstantiate (wc_inst c)));;
  (if wc_module c =? 0 then mret () else record (C_unload (wc_module c)));;
  record C_destroy.

(** ** Commands (main.c) *)

Definition TA_SetHeapSize (size : Z) : T Z := modify (set_heap_size size);; mret TEE_SUCCESS.

(** [code_size], [has_arg], [out]: the sizes and the presence of the client's
    buffers. *)
Definition TA_RunWasm (code_size : Z) (has_arg : bool) (out : bool) (out_size : Z) : T Z :=
  size ← gets heap_size;
  heap ← TEE_Malloc size;
  code ← TEE_Malloc code_size;
  h ← calls;
  let bytecode := te_shared h <$> seqZ 0 code_size in
  record (C_shared bytecode);;
  block_write code 0 bytecode;;
  tzio_set_output_buffer out out_size;;
  '(result, c) ← TA_InitializeWamrRuntime (Context heap size code code_size 0 0) (if has_arg then 2 else 1);
  result ← (if negb (result =? TEE_SUCCESS) then mret result else TA_ExecuteWamrRuntime c);
  TA_TearDownWamrRuntime c;;
  TEE_Free heap;;
  TEE_Free code;;
  mret result.

Definition COMMAND_RUN_WASM : Z := 0.
Definition COMMAND_CONFIGURE_HEAP : Z := 1.
(** A parameter of the command: a value, or a buffer with its size. *)
Inductive ta_param := P_none | P_value (a : Z) | P_input (present : bool) (size : Z) | P_inout (present : bool) (size : Z).

Definition TA_InvokeCommandEntryPoint (cmd_id : Z) (params : list ta_param) : T Z :=
  if cmd_id =? COMMAND_RUN_WASM then
    match params with
    | [P_input _ code_size; P_input arg _; P_inout out out_size; P_inout _ _] => TA_RunWasm (u32 code_size) arg out out_size
    | _ => mret TEE_ERROR_BAD_PARAMETERS
    end
  else if cmd_id =? COMMAND_CONFIGURE_HEAP then
    match params with
    | [P_value a; P_none; P_none; P_none] => TA_SetHeapSize a
    | _ => mret TEE_ERROR_BAD_PARAMETERS
    end
  else mret TEE_ERROR_BAD_PARAMETERS.

Definition TA_OpenSessionEntryPoint (params : list ta_param) : T Z :=
  mret (if forallb (λ p, match p with P_none => true | _ => false end) params then TEE_SUCCESS else TEE_ERROR_BAD_PARAMETERS).
End ta.
