(* ===== verification/RuntimeTaProofs.v ===== *)
(** * The trusted application: resources and console output

    The calls the trusted application makes are checked against a ledger of
    what is live: heap blocks, library handles, the runtime, its module and
    instance.  The console is described by what the client's buffer holds. *)

From Stdlib Require Import ZArith Lia Bool.
From stdpp Require Import base tactics option list numbers gmap strings.
From S2P Require Import Prelude Platform RuntimeTa.

Open Scope Z_scope.

(** ** The ledger *)

Record res := Res {
  rs_blocks : gset Z;                     (* TEE heap *)
  rs_up : bool;                           (* the runtime *)
  rs_pool : gset Z;                       (* its heap *)
  rs_dl : gset Z;                         (* library handles *)
  rs_module : option Z;
  rs_inst : option Z
}.
Definition no_res : res := Res ∅ false ∅ ∅ None None.

(** Adding an object, unless it is null. *)
Definition obtain (p : Z) (X : gset Z) : gset Z := if p =? 0 then X else {[p]} ∪ X.
Definition found (p : Z) : option Z := if p =? 0 then None else Some p.

Lemma obtain_new p X : p ≠ 0 → obtain p X = {[p]} ∪ X.
Proof. intros. unfold obtain. by rewrite (proj2 (Z.eqb_neq p 0)). Qed.

(** The effect of a call, [None] if it may not be made. Destroying a runtime
    that is not up is harmless (wasm_runtime_common.c). *)
Definition legal (r : res) (c : call) : option res :=
  let '(Res bl up pool dl m i) := r in
  match c with
  | C_malloc _ p => Some (Res (obtain p bl) up pool dl m i)
  | C_free p => if decide (p ∈ bl) then Some (Res (bl ∖ {[p]}) up pool dl m i) else None
  | C_shared _ | C_print _ => Some r
  | C_init h ok => if up || bool_decide (h ∉ bl) && ok then None else Some (Res bl ok pool dl m i)
  | C_destroy => match m, i with None, None => Some (Res bl false ∅ dl None None) | _, _ => None end
  | C_pool_malloc p => if up then Some (Res bl up (obtain p pool) dl m i) else None
  | C_pool_free p => if up && bool_decide (p ∈ pool) then Some (Res bl up (pool ∖ {[p]}) dl m i) else None
  | C_dlopen _ h => Some (Res bl up pool (obtain h dl) m i)
  | C_dlclose h => if decide (h ∈ dl) then Some (Res bl up pool (dl ∖ {[h]}) m i) else None
  | C_init_lib _ _ | C_get_lib _ | C_deinit_lib _ => Some r
  | C_register _ _ => if up then Some r else None
  | C_load _ p => match m with None => if up then Some (Res bl up pool dl (found p) i) else None | Some _ => None end
  | C_unload p => match i with None => if decide (m = Some p) then Some (Res bl up pool dl None i) else None | Some _ => None end
  | C_wasi_args p _ => if decide (m = Some p) then Some r else None
  | C_instantiate p q => if decide (m = Some p ∧ i = None) then Some (Res bl up pool dl m (found q)) else None
  | C_deinstantiate q => if decide (i = Some q) then Some (Res bl up pool dl m None) else None
  | C_execute q _ => if decide (i = Some q) then Some r else None
  end.
Fixpoint ledger (h : list call) : option res :=
  match h with [] => Some no_res | c :: h => r ← ledger h; legal r c end.

(** The state agrees with the ledger, and what is new is new. *)
Record ta_ok (r : res) (s : ta) : Prop := {
  tk_ledger : ledger (ta_calls s) = Some r;
  tk_blocks : dom (ta_blocks s) = rs_blocks r;
  tk_fresh : 0 < ta_fresh s ∧ ∀ p, p ∈ rs_blocks r ∪ rs_dl r → 0 < p < ta_fresh s
}.

(** Calls since a state. *)
Definition since (P : call → Prop) (s s' : ta) : Prop := ∃ new, ta_calls s' = new ++ ta_calls s ∧ Forall P new.
Lemma since_refl P s : since P s s.
Proof. by exists []. Qed.
Lemma since_trans P s1 s2 s3 : since P s1 s2 → since P s2 s3 → since P s1 s3.
Proof. intros (l1&E1&H1) (l2&E2&H2). exists (l2 ++ l1). rewrite E2, E1, app_assoc. split; [done|by apply Forall_app]. Qed.
Lemma since_mono (P Q : call → Prop) s s' : (∀ c, P c → Q c) → since P s s' → since Q s s'.
Proof. intros HPQ (l&E&Hl). exists l. split; [done|by eapply Forall_impl]. Qed.

(** The parts of the state other than blocks, fresh values and calls. *)
Definition outer (s : ta) : Z * (option Z * Z * list Z) * list native_lib * bool :=
  (heap_size s, (output_buffer s, output_buffer_size s, ta_output s), native_lib_loaded_list s, singleton_wamr_context s).

Section proofs.
Context `{TaEnv}.

Lemma record_ok t r r' c s (Q : unit → ta → Prop) : ta_ok r s → legal r c = Some r' → rs_blocks r' = rs_blocks r →
  rs_dl r' ⊆ rs_dl r → (ta_ok r' (log_call c s) → Q tt (log_call c s)) → wp t (record c) Q s.
Proof using.
  intros [Hl Hb [Hf Hall]] Hlg Eb Ed HQ. unfold record. wp_steps. apply HQ. split; cbn [ta_calls ta_blocks ta_fresh log_call ledger].
  - by rewrite Hl.
  - congruence.
  - split; [done|]. intros p Hp. apply Hall. rewrite Eb in Hp. set_solver.
Qed.

Lemma fresh_eq ok s : fresh ok s = Ok (if ok then ta_fresh s else 0) (if ok then set_fresh (ta_fresh s + 1) s else s).
Proof using. by destruct ok. Qed.

Lemma malloc_ok t n r s (Q : Z → ta → Prop) : ta_ok r s → te_malloc (ta_calls s) n = true →
  (∀ p s', p ≠ 0 → p ∉ rs_blocks r → ta_ok (Res ({[p]} ∪ rs_blocks r) (rs_up r) (rs_pool r) (rs_dl r) (rs_module r) (rs_inst r)) s' →
     ta_blocks s' = <[p := uninit n]> (ta_blocks s) → outer s' = outer s → ta_calls s' = C_malloc n p :: ta_calls s → Q p s') →
  wp t (TEE_Malloc n) Q s.
Proof using.
  intros [Hl Hb [Hf Hall]] Hm HQ. unfold TEE_Malloc, calls. wp_steps. unfold wp at 1. rewrite fresh_eq, Hm. unfold record. wp_steps.
  set (p := ta_fresh s) in *. rewrite (proj2 (Z.eqb_neq p 0)) by lia. wp_steps. apply HQ; [lia| | |done|done|done].
  - intros Hp. assert (0 < p < p) by (apply Hall; set_solver). lia.
  - split; cbn [ta_calls ta_blocks ta_fresh log_call set_blocks set_fresh ledger rs_blocks rs_dl].
    + rewrite Hl. cbn. destruct r. cbn. by rewrite obtain_new by lia.
    + rewrite dom_insert_L. cbn. by rewrite Hb.
    + split; [lia|]. intros q Hq. rewrite <- (assoc_L (∪)), elem_of_union, elem_of_singleton in Hq.
      destruct Hq as [->|Hq]; [lia|]. pose proof (Hall q Hq). lia.
Qed.

Lemma free_ok t p r s (Q : unit → ta → Prop) : ta_ok r s → p ∈ rs_blocks r →
  (∀ s', ta_ok (Res (rs_blocks r ∖ {[p]}) (rs_up r) (rs_pool r) (rs_dl r) (rs_module r) (rs_inst r)) s' →
     ta_blocks s' = delete p (ta_blocks s) → outer s' = outer s → ta_calls s' = C_free p :: ta_calls s → Q tt s') →
  wp t (TEE_Free p) Q s.
Proof using.
  intros [Hl Hb [Hf Hall]] Hp HQ. unfold TEE_Free. assert (0 < p) by (apply Hall; set_solver). rewrite (proj2 (Z.eqb_neq p 0)) by lia. wp_steps.
  assert (is_Some (ta_blocks s !! p)) as [b Eb] by (apply elem_of_dom; by rewrite Hb). rewrite Eb. unfold record. wp_steps.
  apply HQ; [|done|done|done]. split; cbn [ta_calls ta_blocks ta_fresh log_call set_blocks ledger rs_blocks rs_dl].
  - rewrite Hl. cbn. destruct r. cbn in *. by rewrite decide_True.
  - by rewrite dom_delete_L, Hb.
  - split; [done|]. intros q Hq. apply Hall. set_solver.
Qed.

(** ** Blocks *)
Lemma block_write_ok t p old rest l s (Q : unit → ta → Prop) : ta_blocks s !! p = Some (bytes old ++ rest) → (length l <= length rest)%nat →
  Q tt (set_blocks (<[p := bytes (old ++ l) ++ drop (length l) rest]> (ta_blocks s)) s) → wp t (block_write p (Z.of_nat (length old)) l) Q s.
Proof using.
  intros Hp Hl HQ. unfold block_write. destruct l as [|x l].
  - cbn. wp_steps. rewrite app_nil_r, drop_0, insert_id in HQ by done. by destruct s.
  - cbn [length Nat.eqb]. wp_steps. rewrite Hp. unfold blen, bytes. rewrite length_app, length_fmap. cbn [length] in *.
    rewrite (proj2 (Z.ltb_ge _ _)) by lia. wp_steps. rewrite Nat2Z.id.
    rewrite take_app_le, take_ge, drop_app_ge by (rewrite length_fmap; lia). rewrite length_fmap.
    replace (length old + S (length l) - length old)%nat with (S (length l)) by lia.
    unfold bytes in HQ. by rewrite fmap_app, <- app_assoc in HQ.
Qed.
Lemma assemble_ok t p old iov rest s (Q : unit → ta → Prop) : ta_blocks s !! p = Some (bytes old ++ rest) → length rest = length (concat iov) →
  Q tt (set_blocks (<[p := bytes (old ++ concat iov)]> (ta_blocks s)) s) → wp t (assemble p (Z.of_nat (length old)) iov) Q s.
Proof using.
  revert old rest s. induction iov as [|v iov IH]; intros old rest s Hp Hl HQ; cbn [assemble].
  - wp_steps. destruct rest; [|done]. cbn in HQ. rewrite app_nil_r in *. rewrite insert_id in HQ by done. by destruct s.
  - cbn [concat] in *. rewrite length_app in Hl. wp_steps. apply (block_write_ok t p old rest v); [done|lia|].
    replace (Z.of_nat (length old) + Z.of_nat (length v)) with (Z.of_nat (length (old ++ v))) by (rewrite length_app; lia).
    eapply IH; [cbn [ta_blocks set_blocks]; by rewrite lookup_insert_eq|rewrite length_drop; lia|].
    cbn [ta_blocks set_blocks]. rewrite insert_insert_eq, <- app_assoc. exact HQ.
Qed.
Lemma mapM_bytes l : mapM (M:=option) id (bytes l) = Some l.
Proof using. induction l as [|x l IH]; [done|]. cbn. unfold bytes in IH. by rewrite IH. Qed.
Lemma block_read_ok t p l s (Q : list Z → ta → Prop) : ta_blocks s !! p = Some (bytes l) → Q l s → wp t (block_read p (Z.of_nat (length l))) Q s.
Proof using.
  intros Hp HQ. unfold block_read. destruct l as [|x l]; [done|]. rewrite (proj2 (Z.eqb_neq _ 0)) by (cbn; lia). wp_steps. rewrite Hp.
  unfold blen. assert (length (bytes (x :: l)) = length (x :: l)) as El by (unfold bytes; by rewrite length_fmap). rewrite El, Z.ltb_irrefl, Nat2Z.id, take_ge by (by rewrite El).
  rewrite mapM_bytes. by wp_steps.
Qed.

(** ** The console *)

(** The client's buffer: where the next text goes, the room left, the content. *)
Definition console : Type := option Z * Z * list Z.
Definition console_of (s : ta) : console := (output_buffer s, output_buffer_size s, ta_output s).
Definition room_ok (o : console) : Prop :=
  let '(b, n, out) := o in
  match b with Some off => 0 <= off ∧ 0 <= n < 2 ^ 64 ∧ off + n <= Z.of_nat (length out) | None => n = 0 end.
(** A text is stored if there is room for it and one more character. *)
Definition captured (o : console) (l : list Z) : console :=
  let '(b, n, out) := o in
  match b with
  | Some off =>
      let k := Z.of_nat (length l) in
      if k <? n then (Some (off + k), n - k, take (Z.to_nat off) out ++ l ++ drop (Z.to_nat off + length l) out) else o
  | None => o
  end.
(** The text asks for no argument when it is used as a format. *)
Definition plain (l : list Z) : Prop := te_info = true → conversion (take (Z.to_nat (FIXED_BUFFER_SIZE - 1)) (c_string l)) = false.
Definition console_call (c : call) : Prop := match c with C_malloc _ _ | C_free _ | C_print _ => True | _ => False end.

Lemma console_outer s : console_of s = (outer s).1.1.2.
Proof using. done. Qed.
Lemma ta_ok_same r s s' : ta_ok r s → ta_calls s' = ta_calls s → ta_blocks s' = ta_blocks s → ta_fresh s' = ta_fresh s → ta_ok r s'.
Proof using. intros [Hl Hb Hf] Ec Eb Ef. by split; rewrite ?Ec, ?Eb, ?Ef. Qed.

Lemma captured_room o l : room_ok o → room_ok (captured o l).
Proof using.
  destruct o as [[[off|] n] out]; cbn; [|done]. intros (?&?&?). destruct (Z.ltb_spec (Z.of_nat (length l)) n); cbn; [|done].
  rewrite !length_app, length_take, length_drop. lia.
Qed.

Lemma nchars_eq iov : Z.of_nat (length (concat iov)) < 2 ^ 64 → nchars iov = Z.of_nat (length (concat iov)).
Proof using.
  unfold nchars. assert (∀ k, 0 <= k → k + Z.of_nat (length (concat iov)) < 2 ^ 64 →
    foldl (λ n v, u64 (n + Z.of_nat (length v))) k iov = k + Z.of_nat (length (concat iov))) as Hk; [|intros; apply Hk; lia].
  induction iov as [|v iov IH]; intros k Hk0 Hk; cbn [foldl concat length] in *; [lia|]. rewrite length_app in *.
  rewrite u64_id by lia. rewrite IH by lia. lia.
Qed.

Lemma imsg_ok t msg r s (Q : unit → ta → Prop) : ta_ok r s → (te_info = true → conversion msg = false) →
  (∀ s', ta_ok r s' → ta_blocks s' = ta_blocks s → outer s' = outer s → since console_call s s' → Q tt s') → wp t (IMSG msg) Q s.
Proof using.
  intros Hk Hc HQ. unfold IMSG. destruct te_info eqn:E; cbn [negb]; wp_steps; [|apply HQ; [done..|apply since_refl]].
  rewrite Hc by done. apply (record_ok _ r r); [done|by destruct r|done|done|]. intros Hk'. apply HQ; [done|done|done|].
  exists [C_print msg]. split; [done|by repeat constructor].
Qed.

Lemma output_ok t l s (Q : unit → ta → Prop) : room_ok (console_of s) →
  (∀ s', ta_blocks s' = ta_blocks s → ta_fresh s' = ta_fresh s → ta_calls s' = ta_calls s → heap_size s' = heap_size s →
     native_lib_loaded_list s' = native_lib_loaded_list s → singleton_wamr_context s' = singleton_wamr_context s →
     console_of s' = captured (console_of s) l → Q tt s') →
  let n := Z.of_nat (length l) in let size := output_buffer_size s in
  wp t (if n <? size then output_write l;; modify (λ s, set_output ((λ off, off + n) <$> output_buffer s) (u64 (size - n)) s)
        else mret ()) Q s.
Proof using.
  intros Hr HQ n size. unfold n, size. unfold console_of in Hr. destruct (Z.ltb_spec (Z.of_nat (length l)) (output_buffer_size s)) as [Hlt|Hge]; wp_steps.
  - unfold output_write. destruct (output_buffer s) as [off|] eqn:Eb; cbn in Hr; [destruct Hr as (H1&H2&H3)|lia].
    destruct l as [|x l].
    + cbn [length Nat.eqb]. wp_steps. apply HQ; try done. unfold console_of. cbn. rewrite Eb. cbn. rewrite (proj2 (Z.ltb_lt _ _)) by (cbn in *; lia).
      rewrite Nat.add_0_r, take_drop, u64_id by (cbn in *; lia). done.
    + cbn [Nat.eqb length]. wp_steps. rewrite Eb. cbn [length] in Hlt. rewrite (proj2 (Z.ltb_ge _ _)), (proj2 (Z.ltb_ge _ _)) by lia. cbn [orb]. wp_steps. apply HQ; try done.
      unfold console_of. cbn [output_buffer output_buffer_size ta_output set_output set_output_mem fmap option_fmap option_map].
      rewrite Eb. cbn [captured fmap option_fmap option_map]. cbn [length] in *. rewrite (proj2 (Z.ltb_lt _ _)) by lia. by rewrite u64_id by lia.
  - apply HQ; try done. unfold console_of. cbn. destruct (output_buffer s); [|done]. by rewrite (proj2 (Z.ltb_ge _ _)) by lia.
Qed.

Lemma writev_ok t fd iov r s (Q : Z → ta → Prop) : let l := concat iov in
  ta_ok r s → room_ok (console_of s) → fd = 1 ∨ fd = 2 → Z.of_nat (length l) < 2 ^ 31 → te_malloc (ta_calls s) (Z.of_nat (length l)) = true → plain l →
  (∀ s', ta_ok r s' → ta_blocks s' = ta_blocks s → outer s' = (heap_size s, captured (console_of s) l, native_lib_loaded_list s, singleton_wamr_context s) →
     since console_call s s' → Q (Z.of_nat (length l)) s') →
  wp t (writev fd iov) Q s.
Proof using.
  intros l Hk Hr Hfd Hlen Hm Hpl HQ. unfold writev. assert (negb ((fd =? 1) || (fd =? 2)) = false) as -> by (by destruct Hfd; subst).
  rewrite nchars_eq by (fold l; lia). fold l. cbv zeta. unfold os_malloc, os_free, os_printf_s. rewrite u32_id by lia. wp_steps.
  apply (malloc_ok _ _ r); [done|done|]. intros p s1 Hp Hpr Hk1 Eb1 Eo1 Ec1. wp_steps.
  eapply (assemble_ok t p [] iov (uninit (Z.of_nat (length l)))); [by rewrite Eb1, lookup_insert_eq|unfold uninit; rewrite length_replicate; fold l; lia|].
  cbn [app]. fold l. set (s2 := set_blocks _ s1). assert (ta_blocks s2 = <[p := bytes l]> (ta_blocks s)) as Eb2.
  { unfold s2. cbn. by rewrite Eb1, insert_insert_eq. }
  assert (ta_ok (Res ({[p]} ∪ rs_blocks r) (rs_up r) (rs_pool r) (rs_dl r) (rs_module r) (rs_inst r)) s2) as Hk2.
  { destruct Hk1 as [Hl Hb Hf]. split; [done| |done]. rewrite Eb2, dom_insert_L. rewrite Eb1, dom_insert_L in Hb. done. }
  wp_steps. eapply block_read_ok; [by rewrite Eb2, lookup_insert_eq|]. wp_steps.
  rewrite i32_pos by lia. rewrite (proj2 (Z.ltb_ge (Z.of_nat (length l)) 0)), (proj2 (Z.leb_le 0 (Z.of_nat (length l)))) by lia. cbn [andb]. rewrite Nat2Z.id. rewrite (take_ge l (length l)) by lia.
  eapply (imsg_ok _ _ _ _ _ Hk2); [exact Hpl|]. intros s3 Hk3 Eb3 Eo3 Hs3. wp_steps.
  assert (console_of s3 = console_of s) as Ecn.
  { rewrite !console_outer, Eo3. change (outer s2) with (outer s1). by rewrite Eo1. }
  apply output_ok; [by rewrite Ecn|]. intros s4 Eb4 Ef4 Ec4 Eh4 En4 Es4 Ecn4. wp_steps.
  assert (outer s3 = outer s) as Eo by (rewrite Eo3; exact Eo1). pose proof (ta_ok_same _ _ _ Hk3 Ec4 Eb4 Ef4) as Hk4.
  eapply (free_ok _ p _ _ _ Hk4); [cbn; set_solver|]. cbn [rs_blocks rs_up rs_pool rs_dl rs_module rs_inst].
  intros s5 Hk5 Eb5 Eo5 Ec5. wp_steps. apply HQ.
  - destruct r. cbn in *. by replace (({[p]} ∪ rs_blocks0) ∖ {[p]}) with rs_blocks0 in Hk5 by set_solver.
  - rewrite Eb5, Eb4, Eb3, Eb2. apply delete_insert_id. apply not_elem_of_dom. by rewrite (tk_blocks _ _ Hk).
  - rewrite Eo5. unfold outer in Eo |- *. injection Eo as Eh _ _ _ En Es. rewrite Eh4, En4, Es4, Eh, En, Es.
    change (output_buffer s4, output_buffer_size s4, ta_output s4) with (console_of s4). by rewrite Ecn4, Ecn.
  - eapply since_trans; [exists [C_malloc (Z.of_nat (length l)) p]; split; [exact Ec1|by repeat constructor]|].
    eapply since_trans; [exact Hs3|]. exists [C_free p]. rewrite Ec5, Ec4. split; [done|by repeat constructor].
Qed.

(** All that an application writes. *)
Definition is_console (fd : Z) : bool := (fd =? 1) || (fd =? 2).
Definition fine (w : Z * list (list Z)) : Prop := is_console w.1 = true → Z.of_nat (length (concat w.2)) < 2 ^ 31 ∧ plain (concat w.2).
Definition captured_all (o : console) (l : list (Z * list (list Z))) : console :=
  foldl (λ o w, if is_console w.1 then captured o (concat w.2) else o) o l.
Definition roomy : Prop := ∀ h n, te_malloc h n = true.

Lemma writes_ok t l r s (Q : unit → ta → Prop) : roomy → ta_ok r s → room_ok (console_of s) → Forall fine l →
  (∀ s', ta_ok r s' → ta_blocks s' = ta_blocks s →
     outer s' = (heap_size s, captured_all (console_of s) l, native_lib_loaded_list s, singleton_wamr_context s) →
     since console_call s s' → Q tt s') → wp t (writes l) Q s.
Proof using.
  intros Hroom. revert s. induction l as [|[fd iov] l IH]; intros s Hk Hr Hl HQ; cbn [writes].
  - wp_steps. apply HQ; [done|done|done|apply since_refl].
  - apply Forall_cons in Hl as [Hf Hl]. cbn [captured_all foldl fst snd] in HQ. unfold fine in Hf. cbn [fst snd] in Hf. wp_steps.
    destruct (is_console fd) eqn:Efd.
    + destruct Hf as [Hlen Hpl]; [done|]. apply (writev_ok _ _ _ r); try done; [unfold is_console in Efd; bool_props; lia|].
      intros s1 Hk1 Eb1 Eo1 Hs1. wp_steps.
      assert (console_of s1 = captured (console_of s) (concat iov)) as Ec1 by (by rewrite console_outer, Eo1).
      apply IH; [done|by rewrite Ec1; apply captured_room|done|]. intros s2 Hk2 Eb2 Eo2 Hs2. unfold outer in Eo1. injection Eo1 as Eh _ En Es.
      apply HQ; [done|congruence|by rewrite Eo2, Ec1, Eh, En, Es|by eapply since_trans].
    + unfold writev. unfold is_console in Efd. rewrite Efd. cbn [negb]. wp_steps. by apply IH.
Qed.

(** ** Native libraries *)

Definition lib_call (c : call) : Prop :=
  match c with
  | C_pool_malloc _ | C_pool_free _ | C_dlopen _ _ | C_dlclose _ | C_init_lib _ _ | C_get_lib _ | C_deinit_lib _ | C_register _ _ => True
  | _ => False
  end.
(** Only the runtime's heap and the handles differ. *)
Definition up_with (r : res) (pool dl : gset Z) : res := Res (rs_blocks r) true pool dl (rs_module r) (rs_inst r).

(** A library call that is recorded. *)
Lemma lib_record t r pool dl pool' dl' c s0 s (Q : unit → ta → Prop) : ta_ok (up_with r pool dl) s → legal (up_with r pool dl) c = Some (up_with r pool' dl') →
  dl' ⊆ dl → lib_call c → outer s = outer s0 → ta_blocks s = ta_blocks s0 → since lib_call s0 s →
  (∀ s', ta_ok (up_with r pool' dl') s' → outer s' = outer s0 → ta_blocks s' = ta_blocks s0 → since lib_call s0 s' → Q tt s') →
  wp t (record c) Q s.
Proof using.
  intros Hk Hl Hd Hc Eo Eb Hs HQ. apply (record_ok _ _ _ _ _ _ Hk Hl); [done|done|]. intros Hk'. apply HQ; [done|exact Eo|exact Eb|].
  eapply since_trans; [done|]. exists [c]. by repeat constructor.
Qed.

Lemma dlopen_ok t name r pool dl s (Q : Z → ta → Prop) : ta_ok (up_with r pool dl) s →
  (∀ x s', outer s' = outer s → ta_blocks s' = ta_blocks s → since lib_call s s' →
     (if decide (x = 0) then ta_ok (up_with r pool dl) s' else ((x ∉ dl) ∧ ta_ok (up_with r pool ({[x]} ∪ dl)) s')) → Q x s') → wp t (dlopen name) Q s.
Proof using.
  intros [Hl Hb [Hf Hall]] HQ. unfold dlopen, calls. wp_steps. unfold wp at 1. rewrite fresh_eq. unfold record. destruct (te_dlopen (ta_calls s) name); wp_steps.
  - set (x := ta_fresh s) in *. apply HQ; [done|done|exists [C_dlopen name x]; by repeat constructor|]. rewrite decide_False by lia. split.
    + intros Hx. assert (0 < x < x) by (apply Hall; cbn; set_solver). lia.
    + split; cbn [ta_calls ta_blocks ta_fresh log_call set_fresh ledger rs_blocks rs_dl up_with].
      * rewrite Hl. cbn. by rewrite obtain_new by lia.
      * done.
      * split; [lia|]. intros q Hq. cbn in Hall. assert (q = x ∨ q ∈ rs_blocks r ∪ dl) as [->|Hq'] by set_solver; [lia|]. pose proof (Hall q Hq'). lia.
  - apply HQ; [done|done|exists [C_dlopen name 0]; by repeat constructor|]. rewrite decide_True by done. split; cbn [ta_calls ta_blocks ta_fresh log_call ledger]; [by rewrite Hl|done|done].
Qed.

Lemma pool_malloc_ok t r pool dl s (Q : Z → ta → Prop) : ta_ok (up_with r pool dl) s →
  (∀ p s', outer s' = outer s → ta_blocks s' = ta_blocks s → since lib_call s s' → ta_ok (up_with r (obtain p pool) dl) s' → Q p s') →
  wp t wasm_runtime_malloc Q s.
Proof using.
  intros [Hl Hb [Hf Hall]] HQ. unfold wasm_runtime_malloc, calls. wp_steps. unfold wp at 1. rewrite fresh_eq. unfold record.
  destruct (te_pool (ta_calls s)); wp_steps; (apply HQ; [done|done|eexists [_]; by repeat constructor|]);
    (split; cbn [ta_calls ta_blocks ta_fresh log_call set_fresh ledger]; [by rewrite Hl|done|split; [lia|]; intros q Hq; pose proof (Hall q Hq); lia]).
Qed.

(** Since [s0] only the libraries were worked on. *)
Definition lib_steps (s0 s : ta) : Prop := outer s = outer s0 ∧ ta_blocks s = ta_blocks s0 ∧ since lib_call s0 s.
Lemma lib_steps_refl s : lib_steps s s.
Proof using. split_and!; [done|done|apply since_refl]. Qed.
Lemma lib_steps_trans s1 s2 s3 : lib_steps s1 s2 → lib_steps s2 s3 → lib_steps s1 s3.
Proof using. intros (?&?&?) (?&?&?). split_and!; [congruence|congruence|by eapply since_trans]. Qed.

Lemma load_fail_ok t block handle r pool dl s0 s (Q : option native_lib → ta → Prop) : ta_ok (up_with r pool dl) s → lib_steps s0 s →
  block ∈ pool → block ≠ 0 → (handle ≠ 0 → handle ∈ dl) →
  (∀ s' pool', ta_ok (up_with r pool' (if decide (handle = 0) then dl else dl ∖ {[handle]})) s' → lib_steps s0 s' → Q None s') →
  wp t (load_fail block handle) Q s.
Proof using.
  intros Hk Hs Hb Hb0 Hh HQ. unfold load_fail. rewrite (proj2 (Z.eqb_neq block 0)) by done. wp_steps.
  assert (∀ dl' s1, ta_ok (up_with r pool dl') s1 → lib_steps s0 s1 → dl' = (if decide (handle = 0) then dl else dl ∖ {[handle]}) →
    wp t (wasm_runtime_free block) (λ _ s', wp t (mret None) Q s') s1) as Hfree.
  { intros dl' s1 Hk1 (Eo&Eb&Hc) ->. unfold wasm_runtime_free. eapply (lib_record t r pool _ (pool ∖ {[block]}) _ _ s0); [exact Hk1| |done|done|done|done|done|].
    - cbn. by rewrite bool_decide_true.
    - intros s2 Hk2 Eo2 Eb2 Hc2. wp_steps. by eapply HQ. }
  destruct (Z.eqb_spec handle 0) as [->|Hne]; wp_steps; [by eapply (Hfree dl)|]. unfold dlclose. destruct Hs as (Eo&Eb&Hc).
  eapply (lib_record t r pool dl pool (dl ∖ {[handle]}) _ s0); [exact Hk| |set_solver|done|done|done|done|].
  - cbn. by rewrite decide_True by auto.
  - intros s2 Hk2 Eo2 Eb2 Hc2. eapply (Hfree (dl ∖ {[handle]})); [done|done|by rewrite decide_False].
Qed.

(** The handles of a result. *)
Definition handles (l : list native_lib) : gset Z := list_to_set (nl_handle <$> l).

Lemma load_native_lib_ok t name r pool dl s (Q : option native_lib → ta → Prop) : ta_ok (up_with r pool dl) s →
  (∀ o s' pool', ta_ok (up_with r pool' (handles (option_list o) ∪ dl)) s' → lib_steps s s' → Q o s') → wp t (load_native_lib name) Q s.
Proof using.
  intros Hk HQ. unfold load_native_lib. wp_steps. apply (pool_malloc_ok _ _ _ _ _ _ Hk). intros block s1 Eo1 Eb1 Hs1 Hk1. wp_steps.
  assert (∀ pool s', ta_ok (up_with r pool dl) s' → lib_steps s s' → Q None s') as Hnone.
  { intros pool' s' Hk' Hs'. eapply HQ; [|done]. unfold handles. cbn. by rewrite (left_id_L ∅ (∪)). }
  destruct (Z.eqb_spec block 0) as [->|Hb]; [unfold load_fail; wp_steps; by eapply Hnone|]. rewrite obtain_new in Hk1 by done. wp_steps.
  apply (dlopen_ok _ _ _ _ _ _ _ Hk1). intros handle s2 Eo2 Eb2 Hs2 Hk2. wp_steps.
  assert (lib_steps s s2) as Hs02 by (eapply lib_steps_trans; [by split_and!|by split_and!]).
  destruct (Z.eqb_spec handle 0) as [->|Hh].
  { rewrite decide_True in Hk2 by done. eapply (load_fail_ok t block 0 r _ _ s); [exact Hk2|done|set_solver|done|done|]. intros s' pool' Hk' Hs'. by eapply Hnone. }
  rewrite decide_False in Hk2 by done. destruct Hk2 as [Hnew Hk2].
  assert (∀ s', ta_ok (up_with r ({[block]} ∪ pool) ({[handle]} ∪ dl)) s' → lib_steps s s' → wp t (load_fail block handle) Q s') as Hfail.
  { intros s' Hk' Hs'. eapply (load_fail_ok t block handle r _ _ s); [exact Hk'|done|set_solver|done|set_solver|]. intros s3 pool' Hk3 Hs3.
    rewrite decide_False in Hk3 by done. replace (({[handle]} ∪ dl) ∖ {[handle]}) with dl in Hk3 by set_solver. by eapply Hnone. }
  destruct (has_get (te_syms name)); cbn [negb]; [|by apply Hfail]. wp_steps.
  assert (∀ c s' (K : unit → ta → Prop), match c with C_init_lib _ _ | C_get_lib _ | C_deinit_lib _ | C_register _ _ => True | _ => False end →
    ta_ok (up_with r ({[block]} ∪ pool) ({[handle]} ∪ dl)) s' → lib_steps s s' →
    (∀ s'', ta_ok (up_with r ({[block]} ∪ pool) ({[handle]} ∪ dl)) s'' → lib_steps s s'' → K tt s'') → wp t (record c) K s') as Hnote.
  { intros c s' K Hc Hk' (Eo'&Eb'&Hs') HK. eapply (lib_record t r _ _ _ _ c s); [exact Hk'|by destruct c|done|by destruct c|done..|].
    intros s'' Hk'' ? ? ?. by apply HK. }
  match goal with |- wp _ ?f _ _ => assert (wp t f (λ _ s', ta_ok (up_with r ({[block]} ∪ pool) ({[handle]} ∪ dl)) s' ∧ lib_steps s s') s2) as Hinit end.
  { destruct (has_init (te_syms name)); unfold calls; wp_steps; [apply Hnote; [done..|]; intros; by wp_steps|done]. }
  eapply wp_mono; [exact Hinit|]. intros ret s3 [Hk3 Hs3]. destruct (negb (ret =? 0)); [by apply Hfail|]. unfold calls. wp_steps.
  destruct (te_get_lib (ta_calls s3) name) as [[n a] b]. wp_steps. apply Hnote; [done..|]. intros s4 Hk4 Hs4. wp_steps.
  match goal with |- wp _ ?f _ _ => assert (wp t f (λ _ s', ta_ok (up_with r ({[block]} ∪ pool) ({[handle]} ∪ dl)) s' ∧ lib_steps s s') s4) as Hreg end.
  { destruct ((0 <? n) && a && b); unfold calls; wp_steps; [apply Hnote; [done..|]; intros; by wp_steps|done]. }
  eapply wp_mono; [exact Hreg|]. intros ok s5 [Hk5 Hs5]. destruct ok; cbn [negb]; wp_steps.
  - eapply HQ; [|done]. unfold handles. cbn. rewrite (right_id_L ∅ (∪)). exact Hk5.
  - match goal with |- wp _ ?f _ _ => assert (wp t f (λ _ s', ta_ok (up_with r ({[block]} ∪ pool) ({[handle]} ∪ dl)) s' ∧ lib_steps s s') s5) as Hde end.
    { destruct (has_deinit (te_syms name)); wp_steps; [by apply Hnote|done]. }
    eapply wp_mono; [exact Hde|]. intros u s6 [Hk6 Hs6]. by apply Hfail.
Qed.

Lemma load_native_libs_ok t names r pool dl s (Q : list native_lib → ta → Prop) : ta_ok (up_with r pool dl) s →
  (∀ l s' pool', ta_ok (up_with r pool' (handles l ∪ dl)) s' → lib_steps s s' → (length l <= length names)%nat → Q l s') →
  wp t (load_and_register_native_libs names) Q s.
Proof using.
  revert pool dl s Q. induction names as [|name names IH]; intros pool dl s Q Hk HQ; cbn [load_and_register_native_libs].
  - wp_steps. eapply HQ; [|apply lib_steps_refl|done]. unfold handles. cbn. rewrite (left_id_L ∅ (∪)). exact Hk.
  - wp_steps. apply (load_native_lib_ok _ _ _ _ _ _ _ Hk). intros o s1 pool1 Hk1 Hs1. wp_steps. apply (IH _ _ _ _ Hk1). intros l s2 pool2 Hk2 Hs2 Hlen. wp_steps.
    eapply HQ; [|by eapply lib_steps_trans|destruct o; cbn; lia]. destruct o as [x|]; unfold handles in *; cbn in *.
    + replace ({[nl_handle x]} ∪ list_to_set (nl_handle <$> l) ∪ dl) with (list_to_set (nl_handle <$> l) ∪ ({[nl_handle x]} ∪ ∅ ∪ dl)) by set_solver. exact Hk2.
    + by rewrite (left_id_L ∅ (∪)) in Hk2.
Qed.

(** ** A run *)

(** What happens while the runtime is set up with [code]. *)
Definition setup_call (code : list Z) (c : call) : Prop :=
  lib_call c ∨ match c with C_load l _ => l = code | C_init _ _ | C_wasi_args _ _ | C_instantiate _ _ => True | _ => False end.
Definition set_up (code : list Z) (s0 s : ta) : Prop :=
  heap_size s = heap_size s0 ∧ console_of s = console_of s0 ∧ ta_blocks s = ta_blocks s0 ∧ since (setup_call code) s0 s.

Lemma set_up_trans code s1 s2 s3 : set_up code s1 s2 → set_up code s2 s3 → set_up code s1 s3.
Proof using. intros (?&?&?&?) (?&?&?&?). split_and!; [congruence..|by eapply since_trans]. Qed.
Lemma lib_set_up code s s' : lib_steps s s' → set_up code s s'.
Proof using.
  intros (Eo&Eb&Hs). split_and!; [|by rewrite !console_outer, Eo|done|].
  - unfold outer in Eo. by injection Eo.
  - eapply since_mono; [|exact Hs]. by left.
Qed.
Lemma set_up_call code c s : setup_call code c → set_up code s (log_call c s).
Proof using. intros Hc. split_and!; try done. exists [c]. split; [done|by apply Forall_singleton]. Qed.

(** A new object, recorded. *)
Lemma object_ok {B} t ok (c : Z → call) r (f : Z → res) (k : Z → T B) s (Q : B → ta → Prop) : ta_ok r s →
  (∀ p, legal r (c p) = Some (f p)) → (∀ p, rs_blocks (f p) = rs_blocks r ∧ rs_dl (f p) = rs_dl r) →
  (∀ p s', ta_ok (f p) s' → outer s' = outer s → ta_blocks s' = ta_blocks s → ta_calls s' = c p :: ta_calls s → wp t (k p) Q s') →
  wp t (fresh ok) (λ p s', wp t (record (c p);; k p) Q s') s.
Proof using.
  intros [Hl Hb [Hf Hall]] Hlg Hfr HQ. unfold wp at 1. rewrite fresh_eq. unfold record. wp_steps.
  destruct ok; (apply HQ; [|done|done|done]); (split; cbn [ta_calls ta_blocks ta_fresh log_call set_fresh ledger];
    [rewrite Hl; apply Hlg|by rewrite (proj1 (Hfr _))|split; [lia|]; rewrite (proj1 (Hfr _)), (proj2 (Hfr _)); intros q Hq; pose proof (Hall q Hq); lia]).
Qed.

(** The runtime after its setup: [c] has the module and the instance. *)
Definition started (bl dl : gset Z) (c : wamr_context) (result : Z) (s : ta) : Prop :=
  (∃ up pool libs, ta_ok (Res bl up pool (libs ∪ dl) (found (wc_module c)) (found (wc_inst c))) s)
  ∧ (wc_inst c ≠ 0 → wc_module c ≠ 0) ∧ (result = TEE_SUCCESS ∧ wc_inst c ≠ 0 ∨ result = TEE_ERROR_GENERIC).

Lemma initialize_ok t heap size p code argc bl dl s (Q : Z * wamr_context → ta → Prop) : ta_ok (Res bl false ∅ dl None None) s →
  heap ∈ bl → ta_blocks s !! p = Some (bytes code) →
  (∀ result c s', started bl dl c result s' → set_up code s s' → Q (result, c) s') →
  wp t (TA_InitializeWamrRuntime (Context heap size p (Z.of_nat (length code)) 0 0) argc) Q s.
Proof using.
  intros Hk Hheap Hp HQ. unfold TA_InitializeWamrRuntime, calls. cbn [wc_heap wc_heap_size wc_code wc_code_size wc_module wc_inst]. wp_steps.
  eapply record_ok; [exact Hk|cbn; by rewrite bool_decide_false by set_solver|done|done|]. intros Hk1.
  assert (set_up code s (log_call (C_init heap (te_init (ta_calls s))) s)) as Hs1 by (apply set_up_call; by right).
  destruct (te_init (ta_calls s)); cbn [negb]; wp_steps.
  2:{ apply HQ; [|done]. split; [|by split; [|right]]. exists false, ∅, ∅. by rewrite (left_id_L ∅ (∪)). }
  set (s1 := log_call _ s) in *. apply (load_native_libs_ok _ _ (Res bl true ∅ dl None None) ∅ dl _ _ Hk1). intros libs s2 pool2 Hk2 Hl2 _. wp_steps.
  pose proof (set_up_trans _ _ _ _ Hs1 (lib_set_up code _ _ Hl2)) as Hs2. set (s3 := set_loaded libs s2).
  assert (ta_ok (Res bl true pool2 (handles libs ∪ dl) None None) s3) as Hk3 by (by apply (ta_ok_same _ s2)).
  assert (set_up code s s3) as Hs3 by (by destruct Hs2 as (?&?&?&?)).
  eapply block_read_ok; [destruct Hs3 as (_&_&->&_); exact Hp|]. wp_steps.
  eapply (object_ok _ _ (λ m, C_load code m) _ (λ m, Res bl true pool2 (handles libs ∪ dl) (found m) None)); [exact Hk3|done|done|].
  intros m s4 Hk4 Eo4 Eb4 Ec4. wp_steps.
  assert (set_up code s3 s4) as Hs34.
  { split_and!; [unfold outer in Eo4; by injection Eo4|by rewrite !console_outer, Eo4|done|]. exists [C_load code m]. split; [done|].
    apply Forall_singleton. by right. }
  pose proof (set_up_trans _ _ _ _ Hs3 Hs34) as Hs4. destruct (Z.eqb_spec m 0) as [->|Hm]; wp_steps.
  { apply HQ; [|done]. split; [by eexists _, _, _|]. by split; [|right]. }
  eapply record_ok; [exact Hk4|cbn; unfold found; by rewrite (proj2 (Z.eqb_neq m 0)), decide_True|done|done|]. intros Hk5. wp_steps.
  set (s5 := log_call _ s4) in *. assert (set_up code s s5) as Hs5 by (eapply set_up_trans; [exact Hs4|apply set_up_call; by right]).
  eapply (object_ok _ _ (λ i, C_instantiate m i) _ (λ i, Res bl true pool2 (handles libs ∪ dl) (found m) (found i))); [exact Hk5| |done|].
  { intros i. cbn. unfold found. by rewrite (proj2 (Z.eqb_neq m 0)), decide_True. }
  intros i s6 Hk6 Eo6 Eb6 Ec6.
  assert (set_up code s5 s6) as Hs56.
  { split_and!; [unfold outer in Eo6; by injection Eo6|by rewrite !console_outer, Eo6|done|]. exists [C_instantiate m i]. split; [done|].
    apply Forall_singleton. by right. }
  pose proof (set_up_trans _ _ _ _ Hs5 Hs56) as Hs6. destruct (Z.eqb_spec i 0) as [->|Hi]; wp_steps.
  { apply HQ; [|done]. split; [by eexists _, _, _|]. by split; [|right]. }
  apply HQ; [|by destruct Hs6 as (?&?&?&?)]. split; [|by split; [|left]]. eexists _, _, _. by apply (ta_ok_same _ s6).
Qed.

(** The teardown returns what is there. *)
Definition teardown_call (c : call) : Prop := match c with C_deinstantiate _ | C_unload _ | C_destroy => True | _ => False end.
Lemma record_if t b r r' c s (Q : unit → ta → Prop) : ta_ok r s → (if b : bool then r' = r else legal r c = Some r') → rs_blocks r' = rs_blocks r → rs_dl r' = rs_dl r →
  teardown_call c → (∀ s', ta_ok r' s' → outer s' = outer s → ta_blocks s' = ta_blocks s → since teardown_call s s' → Q tt s') →
  wp t (if b then mret () else record c) Q s.
Proof using.
  intros Hk Hl Eb Ed Hc HQ. destruct b; [wp_steps; subst; by apply HQ; [..|apply since_refl]|].
  apply (record_ok _ _ _ _ _ _ Hk Hl); [done|by rewrite Ed|]. intros Hk'. apply HQ; [done|done|done|]. exists [c]. split; [done|by apply Forall_singleton].
Qed.

Lemma teardown_ok t c bl dl result s (Q : unit → ta → Prop) : started bl dl c result s →
  (∀ s' libs, ta_ok (Res bl false ∅ (libs ∪ dl) None None) s' → heap_size s' = heap_size s → console_of s' = console_of s →
     ta_blocks s' = ta_blocks s → singleton_wamr_context s' = false → since teardown_call s s' → Q tt s') →
  wp t (TA_TearDownWamrRuntime c) Q s.
Proof using.
  intros ((up&pool&libs&Hk)&Hord&_) HQ. unfold TA_TearDownWamrRuntime. wp_steps. set (s1 := set_singleton false s).
  assert (ta_ok (Res bl up pool (libs ∪ dl) (found (wc_module c)) (found (wc_inst c))) s1) as Hk1 by (by apply (ta_ok_same _ s)).
  eapply (record_if _ _ _ (Res bl up pool (libs ∪ dl) (found (wc_module c)) None)); [exact Hk1| |done|done|done|].
  { unfold found. destruct (wc_inst c =? 0); [done|]. cbn. by rewrite decide_True. }
  intros s2 Hk2 Eo2 Eb2 Hs2. wp_steps. eapply (record_if _ _ _ (Res bl up pool (libs ∪ dl) None None)); [exact Hk2| |done|done|done|].
  { unfold found. destruct (wc_module c =? 0); [done|]. cbn. by rewrite decide_True. }
  intros s3 Hk3 Eo3 Eb3 Hs3. wp_steps. eapply record_ok; [exact Hk3|done|done|done|]. intros Hk4.
  assert (outer s3 = outer s1) as Eo by congruence. eapply (HQ _ libs); [exact Hk4|unfold outer in Eo; by injection Eo| | | |].
  - change (console_of s3 = console_of s). by rewrite console_outer, Eo.
  - etrans; [exact Eb3|exact Eb2].
  - unfold outer in Eo. by injection Eo.
  - eapply since_trans; [exact Hs2|]. eapply since_trans; [exact Hs3|]. exists [C_destroy]. split; [done|by apply Forall_singleton].
Qed.

(** *** The whole command *)

(** What a run with [code] calls after it has read it. *)
Definition run_call (code : list Z) (c : call) : Prop := match c with C_shared _ => False | C_load l _ => l = code | _ => True end.
Definition executed (h : list call) : Prop := ∃ i, C_execute i true ∈ h.
Definition idle (bl dl : gset Z) : res := Res bl false ∅ dl None None.

(** The outcome: of the calls, the code was read once, before everything else
    but the two allocations; the application ran to its end if the command
    succeeds. *)
Record ran (s : ta) (result code_size : Z) (s' : ta) : Prop := {
  rn_status : result = TEE_SUCCESS ∨ result = TEE_ERROR_GENERIC;
  rn_blocks : ta_blocks s' = ta_blocks s;
  rn_singleton : singleton_wamr_context s' = false;
  rn_heap : heap_size s' = heap_size s;
  rn_calls : ∃ code new p q, Z.of_nat (length code) = code_size ∧ Forall (run_call code) new
    ∧ ta_calls s' = new ++ C_shared code :: C_malloc code_size q :: C_malloc (heap_size s) p :: ta_calls s
    ∧ (result = TEE_SUCCESS ↔ executed new)
}.

Lemma executed_app l1 l2 : executed (l1 ++ l2) ↔ executed l1 ∨ executed l2.
Proof using. unfold executed. setoid_rewrite elem_of_app. naive_solver. Qed.
Lemma not_executed (P : call → Prop) l : (∀ i, ¬ P (C_execute i true)) → Forall P l → ¬ executed l.
Proof using. intros HP Hl [i Hi]. rewrite Forall_forall in Hl. by apply (HP i), Hl. Qed.

(** The application's part. *)
Lemma execute_ok t c bl up pool dl s (Q : Z → ta → Prop) : roomy → ta_ok (Res bl up pool dl (found (wc_module c)) (found (wc_inst c))) s →
  wc_inst c ≠ 0 → room_ok (console_of s) → Forall fine (te_execute (ta_calls s)).1 →
  (∀ result s' new, ta_ok (Res bl up pool dl (found (wc_module c)) (found (wc_inst c))) s' → heap_size s' = heap_size s → ta_blocks s' = ta_blocks s →
     console_of s' = captured_all (console_of s) (te_execute (ta_calls s)).1 → ta_calls s' = new ++ ta_calls s →
     Forall (λ c, console_call c ∨ ∃ i ok, c = C_execute i ok) new →
     (result = TEE_SUCCESS ∧ executed new ∨ result = TEE_ERROR_GENERIC ∧ ¬ executed new) → Q result s') →
  wp t (TA_ExecuteWamrRuntime c) Q s.
Proof using.
  intros Hroom Hk Hi Hr Hf HQ. unfold TA_ExecuteWamrRuntime, wasm_application_execute_main, calls. wp_steps.
  destruct (te_execute (ta_calls s)) as [l ok]. cbn [fst] in *. wp_steps. eapply (writes_ok _ _ _ _ _ Hroom Hk); [done|done|].
  intros s1 Hk1 Eb1 Eo1 (new&Ec1&Hnew). wp_steps. eapply record_ok; [exact Hk1| |done|done|].
  { cbn. unfold found. by rewrite (proj2 (Z.eqb_neq _ 0)), decide_True. }
  intros Hk2. wp_steps. eapply (HQ _ _ (C_execute (wc_inst c) ok :: new)); [exact Hk2|unfold outer in Eo1; by injection Eo1|exact Eb1| | | |].
  - change (console_of s1 = captured_all (console_of s) l). by rewrite console_outer, Eo1.
  - cbn. by rewrite Ec1.
  - apply Forall_cons. split; [by right; eauto|]. eapply Forall_impl; [exact Hnew|]. by left.
  - assert (¬ executed new) as Hno by (by eapply not_executed; [|exact Hnew]; intros i []). destruct ok; [left; split; [done|by eexists; left]|right].
    split; [done|]. intros [i [Hx|Hx]%elem_of_cons]; [done|]. apply Hno. by exists i.
Qed.

(** The secure memory and the copy of the code. *)
Lemma prepare_ok {A} t code_size (out : bool) out_size bl dl s (k : Z → Z → T A) (Q : A → ta → Prop) : roomy → ta_ok (idle bl dl) s → 0 <= code_size →
  (∀ heap p code s', heap ∉ bl → p ∉ bl → heap ≠ p → Z.of_nat (length code) = code_size → ta_ok (idle ({[p]} ∪ ({[heap]} ∪ bl)) dl) s' →
     ta_blocks s' = <[p := bytes code]> (<[heap := uninit (heap_size s)]> (ta_blocks s)) → heap_size s' = heap_size s →
     console_of s' = (if out then Some 0 else None, out_size, ta_output s) →
     ta_calls s' = C_shared code :: C_malloc code_size p :: C_malloc (heap_size s) heap :: ta_calls s → wp t (k heap p) Q s') →
  wp t (heap ← TEE_Malloc (heap_size s); p ← TEE_Malloc code_size; h ← calls;
        let bytecode := te_shared h <$> seqZ 0 code_size in
        record (C_shared bytecode);; block_write p 0 bytecode;; tzio_set_output_buffer out out_size;; k heap p) Q s.
Proof using.
  intros Hroom Hk Hcs HQ. wp_steps. eapply malloc_ok; [exact Hk|apply Hroom|].
  intros heap s1 Hh Hhn Hk1 Eb1 Eo1 Ec1. wp_steps. eapply malloc_ok; [exact Hk1|apply Hroom|]. cbn [rs_blocks rs_up rs_pool rs_dl rs_module rs_inst idle] in *.
  intros p s2 Hp Hpn Hk2 Eb2 Eo2 Ec2. unfold calls. wp_steps. set (code := te_shared (ta_calls s2) <$> seqZ 0 code_size).
  assert (Z.of_nat (length code) = code_size) as Elen by (unfold code; rewrite length_fmap, length_seqZ; lia).
  eapply record_ok; [exact Hk2|done|done|done|]. intros Hk3. set (s3 := log_call _ s2) in *. wp_steps.
  eapply (block_write_ok t p [] (uninit code_size) code); [cbn; by rewrite Eb2, lookup_insert_eq|unfold uninit; rewrite length_replicate; lia|].
  set (s4 := set_blocks _ s3). unfold tzio_set_output_buffer. wp_steps. assert (outer s2 = outer s) as Eo by congruence.
  assert (ta_blocks s4 = <[p := bytes code]> (<[heap := uninit (heap_size s)]> (ta_blocks s))) as Eb4.
  { unfold s4. cbn [ta_blocks set_blocks]. rewrite drop_ge by (unfold uninit; rewrite length_replicate; lia). cbn [app]. rewrite app_nil_r.
    unfold s3. cbn [ta_blocks log_call]. by rewrite Eb2, Eb1, insert_insert_eq. }
  unfold outer in Eo. injection Eo as Eh _ _ Eout _ _. apply (HQ heap p code); [set_solver|set_solver|set_solver|done| |exact Eb4|exact Eh| |].
  - destruct Hk3 as [Hl3 Hd3 Hf3]. split; [exact Hl3| |exact Hf3]. change (dom (ta_blocks s4) = {[p]} ∪ ({[heap]} ∪ bl)).
    rewrite Eb4, !dom_insert_L. cbn in Hd3. by rewrite (tk_blocks _ _ Hk).
  - unfold console_of. cbn. by rewrite Eout.
  - cbn. by rewrite Ec2, Ec1.
Qed.

(** The application runs if the setup succeeded. *)
Definition output_of (o o' : console) (result : Z) : Prop :=
  ∃ l, o' = captured_all o l ∧ (l = [] ∨ ∃ h, l = (te_execute h).1) ∧ (result = TEE_SUCCESS → ∃ h, l = (te_execute h).1).
Lemma perform_ok t code c result bl dl s (Q : Z → ta → Prop) : roomy → started bl dl c result s → room_ok (console_of s) → (∀ h, Forall fine (te_execute h).1) →
  (∀ result' s' new, started bl dl c result' s' → heap_size s' = heap_size s → ta_blocks s' = ta_blocks s → output_of (console_of s) (console_of s') result' →
     ta_calls s' = new ++ ta_calls s → Forall (run_call code) new →
     (result' = TEE_SUCCESS ∧ executed new ∨ result' = TEE_ERROR_GENERIC ∧ ¬ executed new) → Q result' s') →
  wp t (if negb (result =? TEE_SUCCESS) then mret result else TA_ExecuteWamrRuntime c) Q s.
Proof using.
  intros Hroom ((up&pool&libs&Hk)&Hord&Hres) Hr Hfine HQ. destruct Hres as [[-> Hi]| ->].
  - change (negb (TEE_SUCCESS =? TEE_SUCCESS)) with false. cbn iota. eapply (execute_ok _ _ _ _ _ _ _ _ Hroom Hk Hi); [done|apply Hfine|].
    intros result' s7 new Hk7 Eh7 Eb7 Ecn7 Ec7 Hnew7 Hres. apply (HQ _ _ new); try done.
    + split; [by eexists _, _, _|]. split; [done|]. destruct Hres as [[-> _]|[-> _]]; [by left|by right].
    + eexists. split; [exact Ecn7|]. split; [right; by eexists|by eexists].
    + eapply Forall_impl; [exact Hnew7|]. intros x [Hx|(i&ok&->)]; [by destruct x|done].
  - change (negb (TEE_ERROR_GENERIC =? TEE_SUCCESS)) with true. cbn iota. wp_steps. apply (HQ _ _ []); try done.
    + split; [by eexists _, _, _|]. split; [done|by right].
    + exists []. split; [done|]. split; [by left|done].
    + right. split; [done|]. by intros [i Hi%elem_of_nil].
Qed.

Lemma run_wasm_ok t code_size has_arg (out : bool) out_size bl dl s (Q : Z → ta → Prop) : roomy → ta_ok (idle bl dl) s → 0 <= code_size →
  room_ok (if out then Some 0 else None, out_size, ta_output s) → (∀ h, Forall fine (te_execute h).1) →
  (∀ result s' libs, ta_ok (idle bl (libs ∪ dl)) s' → ran s result code_size s' →
     output_of (if out then Some 0 else None, out_size, ta_output s) (console_of s') result → Q result s') →
  wp t (TA_RunWasm code_size has_arg out out_size) Q s.
Proof using.
  intros Hroom Hk Hcs Hro Hfine HQ. unfold TA_RunWasm. apply wp_bind, wp_gets. eapply prepare_ok; [done|done|done|].
  intros heap p code s5 Hh Hp Hne Elen Hk5 Eb5 Eh5 Ecn5 Ec5. wp_steps. rewrite <- Elen. eapply (initialize_ok _ _ _ _ code); [exact Hk5|set_solver|by rewrite Eb5, lookup_insert_eq|].
  intros result c s6 Hst (Eh6&Ecn6&Eb6&new6&Ec6&Hnew6). cbn beta iota. wp_steps.
  eapply (perform_ok _ code); [done|exact Hst|by rewrite Ecn6, Ecn5|done|]. clear Hst result. intros result s7 new7 Hst Eh7 Eb7 Hout7 Ec7 Hnew7 Hres. wp_steps.
  eapply teardown_ok; [exact Hst|]. intros s8 libs Hk8 Eh8 Ecn8 Eb8 Es8 (new8&Ec8&Hnew8). wp_steps.
  eapply free_ok; [exact Hk8|cbn; set_solver|]. cbn [rs_blocks rs_up rs_pool rs_dl rs_module rs_inst]. intros s9 Hk9 Eb9 Eo9 Ec9. wp_steps.
  eapply free_ok; [exact Hk9|cbn; set_solver|]. cbn [rs_blocks rs_up rs_pool rs_dl rs_module rs_inst]. intros s10 Hk10 Eb10 Eo10 Ec10. wp_steps.
  assert (outer s10 = outer s8) as Eo by congruence.
  replace (({[p]} ∪ ({[heap]} ∪ bl)) ∖ {[heap]} ∖ {[p]}) with bl in Hk10 by set_solver.
  apply (HQ _ _ libs); [exact Hk10| |by rewrite console_outer, Eo, <- console_outer, Ecn8, <- Ecn5, <- Ecn6]. unfold outer in Eo. injection Eo as Eo1 _ _ _ _ Eo2. split.
  - destruct Hres as [[-> _]|[-> _]]; [by left|by right].
  - assert (∀ x, x ∉ bl → ta_blocks s !! x = None) as Hn by (intros; apply not_elem_of_dom; by rewrite (tk_blocks _ _ Hk)).
    rewrite Eb10, Eb9, Eb8, Eb7, Eb6, Eb5, delete_insert_ne, (delete_insert_id (ta_blocks s)) by auto. by apply delete_insert_id, Hn.
  - by rewrite Eo2.
  - congruence.
  - exists code, ([C_free p; C_free heap] ++ new8 ++ new7 ++ new6), heap, p. split; [done|].
    assert (Forall (run_call code) new8) by (eapply Forall_impl; [exact Hnew8|by intros []]).
    assert (Forall (run_call code) new6) by (eapply Forall_impl; [exact Hnew6|intros x [Hx|Hx]; by destruct x]).
    split; [repeat (apply Forall_app; split); try done; by repeat constructor|]. split; [rewrite Ec10, Ec9, Ec8, Ec7, Ec6, Ec5; cbn; by rewrite <- !app_assoc|].
    assert (¬ executed [C_free p; C_free heap]) by (eapply (not_executed console_call); [by intros i []|by repeat constructor]).
    assert (¬ executed new8) by (eapply not_executed; [|exact Hnew8]; by intros i []).
    assert (¬ executed new6) by (eapply not_executed; [|exact Hnew6]; intros i [[]|[]]). rewrite !executed_app.
    destruct Hres as [[-> ?]|[-> ?]]; [tauto|]. split; [done|tauto].
Qed.
End proofs.
