(* ===== verification/RuntimeTaTheorems.v ===== *)
(** * The trusted application: what it guarantees

    A run gives back everything it took but the handles of the native
    libraries, runs a private copy of the code, and reports success exactly if
    the application ran to its end; the client's buffer holds what the
    application wrote, text by text; and two ways to undefined behaviour. *)

From Stdlib Require Import ZArith Lia Bool.
From stdpp Require Import base tactics option list numbers gmap strings.
From S2P Require Import Prelude Platform RuntimeTa RuntimeTaProofs.

Open Scope Z_scope.

Section theorems.
Context `{TaEnv}.

(** C16: With memory for its allocations, and an application whose output asks
    for no format argument, running Wasm code reaches no undefined behaviour
    and returns. Every call it makes is legal: nothing is freed twice or used
    after it is gone, the runtime, the module and the instance are created and
    destroyed in order on every path. Afterwards the heap is as before, no
    runtime, module or instance is left, and of the rest only handles of
    native libraries. The client's memory is read once, into a block of its
    own, and the code that is loaded is what was read. The status is success
    exactly if the application was run and returned without an exception. *)
Theorem run_wasm_contract t code_size has_arg (out : bool) out_size bl dl s : roomy → ta_ok (idle bl dl) s → 0 <= code_size →
  room_ok (if out then Some 0 else None, out_size, ta_output s) → (∀ h, Forall fine (te_execute h).1) →
  wp t (TA_RunWasm code_size has_arg out out_size) (λ result s', (∃ libs, ta_ok (idle bl (libs ∪ dl)) s') ∧ ran s result code_size s'
    ∧ output_of (if out then Some 0 else None, out_size, ta_output s) (console_of s') result) s.
Proof. intros. eapply (run_wasm_ok _ _ _ _ _ bl dl); try done. intros result s' libs ? ? ?. split_and!; [by exists libs|done|done]. Qed.

(** ** Any sequence of commands *)

(** A command, with the content of the client's output buffer. *)
Record command := Command { cm_id : Z; cm_params : list ta_param; cm_output : list Z }.
Definition invoke (c : command) : T Z := modify (set_output_mem (cm_output c));; TA_InvokeCommandEntryPoint (cm_id c) (cm_params c).
Fixpoint invoke_all (l : list command) : T (list Z) :=
  match l with [] => mret [] | c :: l => r ← invoke c; rs ← invoke_all l; mret (r :: rs) end.

(** The buffer for the output is as large as it is said to be. *)
Definition param_ok (n : Z) (p : ta_param) : Prop :=
  match p with
  | P_input present size => 0 <= size
  | P_inout present size => 0 <= size < 2 ^ 64 ∧ (present = true → size <= n) ∧ (present = false → size = 0)
  | _ => True
  end.
Definition command_ok (c : command) : Prop := ∀ p, nth_error (cm_params c) 2 = Some p → param_ok (Z.of_nat (length (cm_output c))) p.

Lemma ta_invoke_ok t c dl s (Q : Z → ta → Prop) : roomy → (∀ h, Forall fine (te_execute h).1) → command_ok c → ta_ok (idle ∅ dl) s →
  singleton_wamr_context s = false →
  (∀ r s' dl', ta_ok (idle ∅ dl') s' → singleton_wamr_context s' = false → (r = TEE_SUCCESS ∨ r = TEE_ERROR_GENERIC ∨ r = TEE_ERROR_BAD_PARAMETERS) → Q r s') →
  wp t (invoke c) Q s.
Proof.
  intros Hroom Hfine Hc Hk Hsg HQ. unfold invoke. wp_steps. set (s1 := set_output_mem (cm_output c) s).
  assert (ta_ok (idle ∅ dl) s1) as Hk1 by (by apply (ta_ok_same _ s)). assert (wp t (mret TEE_ERROR_BAD_PARAMETERS) Q s1) as Hbad by (wp_steps; by eapply HQ; auto).
  unfold TA_InvokeCommandEntryPoint. destruct (cm_id c =? COMMAND_RUN_WASM).
  - destruct (cm_params c) as [|[| |? code_size|] [|[| |arg ?|] [|[| | |out out_size] [|[| | |] [|]]]]] eqn:Ep; try exact Hbad.
    unfold command_ok in *. rewrite Ep in *. pose proof (Hc _ eq_refl) as (Ho1&Ho2&Ho3).
    eapply (run_wasm_ok _ _ _ _ _ ∅ dl); [done|done|apply u32_range| |done|].
    + destruct out; cbn; [split_and!; [done|lia|lia|]|by apply Ho3]. cbn in *. specialize (Ho2 eq_refl). lia.
    + intros r s' libs Hk' Hran _. eapply HQ; [done|by apply Hran|]. destruct (rn_status _ _ _ _ Hran); auto.
  - destruct (cm_id c =? COMMAND_CONFIGURE_HEAP); [|exact Hbad].
    destruct (cm_params c) as [|[|a| |] [|[| | |] [|[| | |] [|[| | |] [|]]]]]; try exact Hbad. unfold TA_SetHeapSize. wp_steps.
    eapply HQ; [by apply (ta_ok_same _ s1)|done|by left].
Qed.

(** C17: Any sequence of commands to a trusted application that has just
    started, any numbers and parameters, the output buffer as large as
    declared, on a system where every allocation succeeds and for applications
    whose output is fine (each text to the standard output or error is shorter
    than 2^31 bytes and has no conversion in what is printed of it): no
    undefined behaviour, every command returns with success, a generic error
    or a refusal, and after each the trusted application holds no block,
    runtime, module or instance. *)
Theorem ta_session_safe t l : roomy → (∀ h, Forall fine (te_execute h).1) → Forall command_ok l →
  wp t (invoke_all l) (λ rs s', (∃ dl, ta_ok (idle ∅ dl) s') ∧ ta_blocks s' = ∅ ∧ singleton_wamr_context s' = false
    ∧ Forall (λ r, r = TEE_SUCCESS ∨ r = TEE_ERROR_GENERIC ∨ r = TEE_ERROR_BAD_PARAMETERS) rs) ta_init.
Proof.
  intros Hroom Hfine Hl. assert (∀ dl s, ta_ok (idle ∅ dl) s → singleton_wamr_context s = false →
    wp t (invoke_all l) (λ rs s', (∃ dl, ta_ok (idle ∅ dl) s') ∧ ta_blocks s' = ∅ ∧ singleton_wamr_context s' = false
      ∧ Forall (λ r, r = TEE_SUCCESS ∨ r = TEE_ERROR_GENERIC ∨ r = TEE_ERROR_BAD_PARAMETERS) rs) s) as Hall.
  - induction Hl as [|c l Hc Hl IH]; intros dl s Hk Hsg; cbn [invoke_all].
    + wp_steps. split_and!; [by exists dl|apply dom_empty_inv_L, (tk_blocks _ _ Hk)|done|constructor].
    + wp_steps. apply (ta_invoke_ok _ _ dl); [done..|]. intros r s1 dl1 Hk1 Hsg1 Hr. wp_steps.
      eapply wp_mono; [by eapply IH|]. intros rs s2 (?&?&?&?). wp_steps. split_and!; [done..|by constructor].
  - apply (Hall ∅); [|done]. split; [done|done|]. split; [done|]. intros p Hp. set_solver.
Qed.

(** ** The console *)

(** The texts that are stored in a buffer with [n] characters left. *)
Fixpoint stored (n : Z) (l : list (list Z)) : list (list Z) :=
  match l with
  | [] => []
  | v :: l => if Z.of_nat (length v) <? n then v :: stored (n - Z.of_nat (length v)) l else stored n l
  end.
Definition texts (l : list (Z * list (list Z))) : list (list Z) := (λ w, concat w.2) <$> filter (λ w, is_console w.1 = true) l.

Lemma captured_texts off n out l : 0 <= off → 0 <= n → off + n <= Z.of_nat (length out) →
  let k := Z.of_nat (length (concat (stored n (texts l)))) in
  captured_all (Some off, n, out) l = (Some (off + k), n - k, take (Z.to_nat off) out ++ concat (stored n (texts l)) ++ drop (Z.to_nat (off + k)) out)
  ∧ (0 < n → k < n) ∧ (n = 0 → k = 0).
Proof.
  revert off n out. induction l as [|[fd iov] l IH]; intros off n out Ho Hn Hle.
  { cbn. rewrite Z.add_0_r, Z.sub_0_r, take_drop. by split_and!. }
  unfold captured_all, texts. cbn [foldl fst]. rewrite filter_cons. cbn [fst]. destruct (is_console fd) eqn:Efd.
  2:{ rewrite decide_False by done. by apply IH. }
  rewrite decide_True by done. cbn [fmap list_fmap stored snd captured]. set (v := concat iov). destruct (Z.ltb_spec (Z.of_nat (length v)) n) as [Hlt|Hge]; [|by apply IH].
  fold (texts l). set (out' := take (Z.to_nat off) out ++ v ++ drop (Z.to_nat off + length v) out).
  assert (length out' = length out) as El by (unfold out'; rewrite !length_app, length_take, length_drop; lia).
  destruct (IH (off + Z.of_nat (length v)) (n - Z.of_nat (length v)) out') as (E&H1&H2); [lia|lia|lia|]. cbn [concat]. rewrite length_app.
  set (w := concat (stored (n - Z.of_nat (length v)) (texts l))) in *. split; [|lia]. unfold captured_all in E. rewrite E. f_equal; [f_equal; [f_equal|]; lia|].
  assert (take (Z.to_nat (off + Z.of_nat (length v))) out' = take (Z.to_nat off) out ++ v) as ->.
  { unfold out'. rewrite (assoc_L (++)). apply take_app_length'. rewrite length_app, length_take. lia. }
  rewrite <- app_assoc, <- (assoc_L (++) v). do 3 f_equal. unfold out'. rewrite (assoc_L (++)), drop_app_ge by (rewrite length_app, length_take; lia).
  rewrite drop_drop, length_app, length_take. f_equal. lia.
Qed.

(** C26: What an application writes to its standard output and error, where
    every allocation succeeds and each such text is shorter than 2^31 bytes
    and has no format conversion in what is printed of it, appears in the
    client's buffer text by text, from the front, in order; a text that would
    fill the buffer or more is left out as a whole, and later ones that fit
    are still stored. Of a buffer that is not empty the last character is
    never used, and nothing behind the stored texts is changed. Writes to
    other descriptors change nothing. *)
Theorem stdout_capture t l r s size out : roomy → ta_ok r s → Forall fine l → console_of s = (Some 0, size, out) → 0 <= size < 2 ^ 64 →
  size <= Z.of_nat (length out) →
  wp t (writes l) (λ _ s', let text := concat (stored size (texts l)) in
    ta_ok r s' ∧ ta_blocks s' = ta_blocks s ∧ ta_output s' = text ++ drop (length text) out ∧ (0 < size → Z.of_nat (length text) < size)) s.
Proof.
  intros Hroom Hk Hf Hc Hs Hle. apply (writes_ok _ _ r); [done|done|by rewrite Hc|done|]. intros s' Hk' Eb Eo _.
  destruct (captured_texts 0 size out l) as (E&Hlt&_); [lia|lia|lia|]. split_and!; [done|done| |done].
  assert (console_of s' = captured_all (console_of s) l) as Ec by (by rewrite console_outer, Eo). rewrite Hc, E in Ec. unfold console_of in Ec. injection Ec as _ _ Eout.
  by rewrite Eout, Z.add_0_l, Nat2Z.id.
Qed.

(** The text an application writes is used as the format of the message on
    the secure console. If it asks for an argument, as in ["%s"], there is
    none: undefined behaviour that any application can cause by printing. *)
Theorem stdout_is_a_format fd iov r s : let l := concat iov in
  te_info = true → ta_ok r s → fd = 1 ∨ fd = 2 → Z.of_nat (length l) < 2 ^ 31 → te_malloc (ta_calls s) (Z.of_nat (length l)) = true →
  conversion (take (Z.to_nat (FIXED_BUFFER_SIZE - 1)) (c_string l)) = true → writev fd iov s = Undef UB_format.
Proof.
  intros l Hi Hk Hfd Hlen Hm Hconv. unfold writev. assert (negb ((fd =? 1) || (fd =? 2)) = false) as -> by (by destruct Hfd; subst).
  rewrite nchars_eq by (fold l; lia). fold l. cbv zeta. unfold os_malloc. rewrite u32_id by lia.
  assert (wp true (p ← TEE_Malloc (Z.of_nat (length l)); assemble p 0 iov;; block_read p (Z.of_nat (length l))) (λ text _, text = l) s) as Hw.
  { wp_steps. apply (malloc_ok _ _ r); [done|done|]. intros p s1 Hp _ _ Eb1 _ _. wp_steps.
    eapply (assemble_ok _ p [] iov (uninit (Z.of_nat (length l)))); [by rewrite Eb1, lookup_insert_eq|unfold uninit; rewrite length_replicate; fold l; lia|].
    eapply block_read_ok; [cbn; by rewrite lookup_insert_eq|done]. }
  unfold wp, mbind, M_bind in *. destruct (TEE_Malloc _ s) as [p s1| |]; [|done|done]. destruct (assemble p 0 iov s1) as [u s2| |]; [|done|done].
  destruct (block_read p _ s2) as [text s3| |]; [|done|done]. subst text. unfold os_printf_s. rewrite i32_pos by lia. rewrite (proj2 (Z.ltb_ge (Z.of_nat (length l)) 0)), (proj2 (Z.leb_le 0 (Z.of_nat (length l)))) by lia. cbn [andb].
  rewrite Nat2Z.id, (take_ge l) by lia. unfold IMSG. by rewrite Hi, Hconv.
Qed.

(** Null stays free. *)
Lemma malloc_null n s : ta_blocks s !! 0 = None → 0 < ta_fresh s →
  wp true (TEE_Malloc n) (λ p s', ta_blocks s' !! 0 = None ∧ 0 < ta_fresh s' ∧ (te_malloc (ta_calls s) n = false → p = 0)) s.
Proof.
  intros Hb Hf. unfold TEE_Malloc, calls. wp_steps. unfold wp at 1. rewrite fresh_eq. unfold record. destruct (te_malloc (ta_calls s) n); wp_steps.
  - rewrite (proj2 (Z.eqb_neq _ 0)) by lia. wp_steps. split_and!; [|cbn; lia|done]. cbn. by rewrite lookup_insert_ne by lia.
  - done.
Qed.

(** The allocations of a run are not checked: when there is no memory for
    the code, it is copied to a null pointer. *)
Theorem run_wasm_out_of_memory code_size has_arg out out_size s : 0 < code_size → ta_blocks s !! 0 = None → 0 < ta_fresh s →
  (∀ h, te_malloc h code_size = false) → TA_RunWasm code_size has_arg out out_size s = Undef UB_null.
Proof.
  intros Hcs Hb Hf Hm. unfold TA_RunWasm, gets at 1, mbind, M_bind.
  pose proof (malloc_null (heap_size s) s Hb Hf) as H1. unfold wp in H1. destruct (TEE_Malloc (heap_size s) s) as [heap s1| |]; [|done|done].
  destruct H1 as (Hb1&Hf1&_). pose proof (malloc_null code_size s1 Hb1 Hf1) as H2. unfold wp in H2.
  destruct (TEE_Malloc code_size s1) as [p s2| |]; [|done|done]. destruct H2 as (Hb2&_&->); [|apply Hm].
  unfold calls, gets, record, modify, block_write. rewrite length_fmap, length_seqZ. destruct (Z.to_nat code_size =? 0)%nat eqn:E.
  { apply Nat.eqb_eq in E. lia. }
  unfold gets, mbind, M_bind. cbn [ta_blocks log_call]. by rewrite Hb2.
Qed.
End theorems.

(** ** Witnesses

    A trusted application with memory for everything, whose application prints
    one line. *)
Module TaWitnesses.
Definition hello : list Z := [104; 105; 10].
Definition percent_s : list Z := [37; 115].
Definition ta_env (room : bool) (line : list Z) : TaEnv := {|
  te_malloc := λ _ _, room; te_shared := λ _ i, i mod 256; te_info := true; te_init := λ _, true; te_pool := λ _, true;
  te_dlopen := λ _ _, true; te_syms := λ _, LibSyms false true true; te_init_lib := λ _ _, 0; te_get_lib := λ _ _, (5, true, true);
  te_register := λ _ _, true; te_load := λ _ _, true; te_instantiate := λ _, true; te_execute := λ _, ([(1, [line])], true)
|}.
#[local] Instance demo_env : TaEnv := ta_env true hello.
Lemma demo_roomy : roomy.
Proof. by intros h n. Qed.
Lemma demo_fine h : Forall fine (te_execute h).1.
Proof. apply Forall_singleton. intros _. split; [done|]. by intros _. Qed.
Lemma ta_starts_ok : ta_ok (idle ∅ ∅) ta_init.
Proof. split; [done|done|]. split; [done|]. intros p Hp. set_solver. Qed.
Definition with_output : ta := set_output_mem [0; 0; 0; 0; 0] ta_init.
Lemma with_output_ok : ta_ok (idle ∅ ∅) with_output.
Proof. by apply (ta_ok_same _ ta_init _ ta_starts_ok). Qed.

Lemma run_wasm_contract_witness :
  wp true (TA_RunWasm 100 false true 5) (λ result s', (∃ libs, ta_ok (idle ∅ (libs ∪ ∅)) s') ∧ ran with_output result 100 s'
    ∧ output_of (Some 0, 5, [0; 0; 0; 0; 0]) (console_of s') result) with_output.
Proof. apply (run_wasm_contract true 100 false true 5 ∅ ∅ with_output demo_roomy with_output_ok); [done|done|apply demo_fine]. Defined.
Example run_output : match TA_RunWasm 100 false true 5 with_output with Ok r s => r = TEE_SUCCESS ∧ ta_output s = [104; 105; 10; 0; 0] | _ => False end.
Proof. by vm_compute. Qed.

Definition demo_commands : list command :=
  [Command COMMAND_CONFIGURE_HEAP [P_value 4096; P_none; P_none; P_none] [];
   Command COMMAND_RUN_WASM [P_input true 100; P_input false 0; P_inout true 5; P_inout true 5] [0; 0; 0; 0; 0]; Command 7 [] []].
Lemma ta_session_safe_witness :
  wp true (invoke_all demo_commands) (λ rs s', (∃ dl, ta_ok (idle ∅ dl) s') ∧ ta_blocks s' = ∅ ∧ singleton_wamr_context s' = false
    ∧ Forall (λ r, r = TEE_SUCCESS ∨ r = TEE_ERROR_GENERIC ∨ r = TEE_ERROR_BAD_PARAMETERS) rs) ta_init.
Proof.
  apply (ta_session_safe true demo_commands demo_roomy demo_fine); repeat apply Forall_cons_2; try apply Forall_nil_2; intros p [= <-]; cbn; try done.
Defined.

Definition open_buffer : ta := set_output (Some 0) 5 with_output.
Definition demo_writes : list (Z * list (list Z)) := [(1, [[104]; [105]]); (2, [[1; 2; 3; 4]]); (3, [[7]]); (1, [[10]])].
Lemma stdout_capture_witness :
  wp true (writes demo_writes) (λ _ s', let text := concat (stored 5 (texts demo_writes)) in
    ta_ok (idle ∅ ∅) s' ∧ ta_blocks s' = ta_blocks open_buffer ∧ ta_output s' = text ++ drop (length text) [0; 0; 0; 0; 0]
    ∧ (0 < 5 → Z.of_nat (length text) < 5)) open_buffer.
Proof.
  apply (stdout_capture true demo_writes (idle ∅ ∅) open_buffer 5 [0; 0; 0; 0; 0] demo_roomy).
  - apply (ta_ok_same _ _ _ with_output_ok); reflexivity.
  - repeat (apply Forall_cons_2; [intros Hx; split; [done|by intros _]|]). apply Forall_nil_2.
  - reflexivity.
  - done.
  - done.
Defined.
Lemma demo_stored : stored 5 (texts demo_writes) = [[104; 105]; [10]].
Proof. reflexivity. Qed.

Lemma stdout_is_a_format_witness : writev 1 [percent_s] with_output = Undef UB_format.
Proof.
  apply (stdout_is_a_format 1 [percent_s] (idle ∅ ∅) with_output); [reflexivity|apply with_output_ok|by left|reflexivity|reflexivity|reflexivity].
Defined.

Lemma run_wasm_out_of_memory_witness : TA_RunWasm (H:=ta_env false hello) 100 false true 5 with_output = Undef UB_null.
Proof. apply (run_wasm_out_of_memory (H:=ta_env false hello) 100 false true 5 with_output); [lia|reflexivity|reflexivity|reflexivity]. Defined.
End TaWitnesses.
