(* ===== verification/TzPlatform.v ===== *)
(** * The platform layer of the runtime (core/shared/platform/linux-trustzone)

    Memory mappings, string copy (tz_platform.c) and clocks (tz_time.c). A
    mapping goes through libutee (tee_system_pta.c) to the system service of
    the kernel (core/pta/system.c), whose virtual memory (core/mm/vm.c) is the
    interface [Vm] with the laws [VmOk]. The console is in RuntimeTa. *)

From Stdlib Require Import ZArith Lia Bool.
From stdpp Require Import base tactics option list numbers gmap.
From S2P Require Import Prelude Platform Params.

Open Scope Z_scope.

Definition PAGE_SIZE : Z := 4 * 1024.
Definition TEE_MATTR_PR : Z := BIT 4.
Definition TEE_MATTR_PW : Z := BIT 5.
Definition TEE_MATTR_PX : Z := BIT 6.
Definition TEE_MATTR_UR : Z := BIT 7.
Definition TEE_MATTR_UW : Z := BIT 8.
Definition TEE_MATTR_UX : Z := BIT 9.
Definition VM_FLAG_PERMANENT : Z := BIT 1.
Definition VM_FLAG_SHAREABLE : Z := BIT 2.
Definition PTA_SYSTEM_MAP_FLAG_SHAREABLE : Z := BIT 0.
Definition TEE_MEMORY_ACCESS_ANY_OWNER : Z := 4.
Definition PTA_SYSTEM_MAP_ZI : Z := 2.
Definition PTA_SYSTEM_UNMAP : Z := 3.
Definition PTA_SYSTEM_MPROTECT : Z := 20.

(** [ROUNDUP(v, PAGE_SIZE)] on a [w]-bit [v]; [ROUNDUP_DIV]; register pairs. *)
Definition ROUNDUP (w v : Z) : Z := Z.land ((v + (PAGE_SIZE - 1)) mod 2 ^ w) (unot w (PAGE_SIZE - 1)).
Definition ROUNDUP_DIV (x : Z) : Z := x / PAGE_SIZE + (if truth (Z.land x (PAGE_SIZE - 1)) then 1 else 0).
Definition reg_pair_to_64 (reg0 reg1 : Z) : Z := Z.lor (Z.shiftl reg0 32) reg1.
Definition reg_pair_from_64 (val : Z) : Z * Z := (u32 (Z.shiftr val 32), u32 val).

(** ** Virtual memory of the kernel

    A region has a size, a protection and flags; it is found by its address. *)
Definition regions : Type := gmap Z (Z * Z * Z).
Class Vm := {
  fobj_ta_mem_alloc : regions → Z → bool;
  mobj_with_fobj_alloc : regions → Z → bool;
  vm_map_pad : regions → Z → Z → Z → Z → Z → Z → Z * Z * regions;
  vm_get_flags : regions → Z → Z → Z * Z;
  vm_set_prot : regions → Z → Z → Z → Z * regions;
  vm_unmap : regions → Z → Z → Z * regions;
  ta_session : Z;                                   (* status of TEE_OpenTASession *)
}.
(** What vm.c does with a range that is exactly one region. *)
Class VmOk `{Vm} := {
  vo_map R n prot flags a R' : vm_map_pad R 0 n prot flags 0 0 = (TEE_SUCCESS, a, R') →
    0 < a ∧ a + n < 2 ^ 64 ∧ R !! a = None ∧ R' = <[a := (n, prot, flags)]> R;
  vo_map_err R n prot flags res a R' : vm_map_pad R 0 n prot flags 0 0 = (res, a, R') → res ≠ TEE_SUCCESS → R' = R;
  vo_get_flags R a n prot flags : R !! a = Some (n, prot, flags) → 0 < n → vm_get_flags R a n = (TEE_SUCCESS, flags);
  vo_set_prot R a n prot flags prot' : R !! a = Some (n, prot, flags) → 0 < n →
    vm_set_prot R a n prot' = (TEE_SUCCESS, <[a := (n, prot', flags)]> R)
    ∨ ∃ res, res ≠ TEE_SUCCESS ∧ vm_set_prot R a n prot' = (res, R);
  vo_unmap R a n prot flags : R !! a = Some (n, prot, flags) → 0 < n → vm_unmap R a n = (TEE_SUCCESS, delete a R)
}.

(** The session of the library with the system service, and the regions. *)
Record memory := Memory { sess : bool; uregions : regions }.
Definition set_regions (R : regions) (s : memory) : memory := Memory (sess s) R.
Definition P (A : Type) : Type := M memory A.

Definition initial_attributes : Z := Z.lor (Z.lor TEE_MATTR_UR TEE_MATTR_UW) (Z.lor TEE_MATTR_PR TEE_MATTR_PW).

Section system_service.
Context `{Vm}.

(** ** core/pta/system.c

    Only values are passed: the first three parameters. *)
Record values := Values { v0 : Z * Z; v1 : Z * Z; v2 : Z * Z }.

Definition system_map_zi (param_types : Z) (params : values) : P (Z * values) :=
  if negb (TEE_PARAM_TYPES TEE_PARAM_TYPE_VALUE_INPUT TEE_PARAM_TYPE_VALUE_INOUT TEE_PARAM_TYPE_VALUE_INPUT TEE_PARAM_TYPE_NONE =? param_types)
  then mret (TEE_ERROR_BAD_PARAMETERS, params) else
  if truth (Z.land (v0 params).2 (unot 32 PTA_SYSTEM_MAP_FLAG_SHAREABLE)) then mret (TEE_ERROR_BAD_PARAMETERS, params) else
  let vm_flags := if truth (Z.land (v0 params).2 PTA_SYSTEM_MAP_FLAG_SHAREABLE) then Z.lor 0 VM_FLAG_SHAREABLE else 0 in
  let num_bytes := (v0 params).1 in
  let va := reg_pair_to_64 (v1 params).1 (v1 params).2 in
  R ← gets uregions;
  if negb (fobj_ta_mem_alloc R (ROUNDUP_DIV num_bytes)) then mret (TEE_ERROR_OUT_OF_MEMORY, params) else
  if negb (mobj_with_fobj_alloc R (ROUNDUP_DIV num_bytes)) then mret (TEE_ERROR_OUT_OF_MEMORY, params) else
  let prot := initial_attributes in
  let '(res, va, R') := vm_map_pad R va num_bytes prot vm_flags (v2 params).1 (v2 params).2 in
  modify (set_regions R');;
  mret (res, if negb (truth res) then Values (v0 params) (reg_pair_from_64 va) (v2 params) else params).

Definition range_types : Z := TEE_PARAM_TYPES TEE_PARAM_TYPE_VALUE_INPUT TEE_PARAM_TYPE_VALUE_INPUT TEE_PARAM_TYPE_NONE TEE_PARAM_TYPE_NONE.

Definition system_mprotect (param_types : Z) (params : values) : P Z :=
  if negb (range_types =? param_types) then mret TEE_ERROR_BAD_PARAMETERS else
  let va := reg_pair_to_64 (v1 params).1 (v1 params).2 in
  let sz := ROUNDUP 32 (v0 params).1 in
  let prot := (v0 params).2 in
  if 2 ^ 64 <=? va + sz then mret TEE_ERROR_BAD_PARAMETERS else
  R ← gets uregions;
  let '(res, vm_flags) := vm_get_flags R va sz in
  if truth res then mret res else
  if truth (Z.land vm_flags VM_FLAG_PERMANENT) then mret TEE_ERROR_ACCESS_DENIED else
  let '(res, R') := vm_set_prot R va sz prot in
  modify (set_regions R');; mret res.

Definition system_unmap (param_types : Z) (params : values) : P Z :=
  if negb (range_types =? param_types) then mret TEE_ERROR_BAD_PARAMETERS else
  if truth (v0 params).2 then mret TEE_ERROR_BAD_PARAMETERS else
  let va := reg_pair_to_64 (v1 params).1 (v1 params).2 in
  let sz := ROUNDUP 32 (v0 params).1 in
  if 2 ^ 64 <=? va + sz then mret TEE_ERROR_BAD_PARAMETERS else
  R ← gets uregions;
  let '(res, vm_flags) := vm_get_flags R va sz in
  if truth res then mret res else
  if truth (Z.land vm_flags VM_FLAG_PERMANENT) then mret TEE_ERROR_ACCESS_DENIED else
  let '(res, R') := vm_unmap R va sz in
  modify (set_regions R');; mret res.

(** ** libutee/tee_system_pta.c *)

(** The commands of the service that the runtime uses. *)
Definition system_command (cmd_id param_types : Z) (params : values) : P (Z * values) :=
  if cmd_id =? PTA_SYSTEM_MAP_ZI then system_map_zi param_types params
  else if cmd_id =? PTA_SYSTEM_MPROTECT then res ← system_mprotect param_types params; mret (res, params)
  else if cmd_id =? PTA_SYSTEM_UNMAP then res ← system_unmap param_types params; mret (res, params)
  else mret (TEE_ERROR_NOT_IMPLEMENTED, params).

Definition invoke_system_pta (cmd_id param_types : Z) (params : values) : P (Z * values) :=
  opened ← gets sess;
  (if (opened : bool) then system_command cmd_id param_types params else
   if truth ta_session then mret (ta_session, params) else
   modify (λ s, Memory true (uregions s));; system_command cmd_id param_types params).

Definition tee_map_zi (len flags : Z) : P Z :=
  let param_types := TEE_PARAM_TYPES TEE_PARAM_TYPE_VALUE_INPUT TEE_PARAM_TYPE_VALUE_INOUT TEE_PARAM_TYPE_VALUE_INPUT TEE_PARAM_TYPE_NONE in
  if negb (u32 len =? len) then mret 0 else
  let call (b : Z) : P Z :=
    r ← invoke_system_pta PTA_SYSTEM_MAP_ZI param_types (Values (u32 len, b) (0, 0) (0, 0));
    (if truth (fst r) then mret 0 else mret (reg_pair_to_64 (v1 (snd r)).1 (v1 (snd r)).2)) in
  if flags =? 0 then call 0
  else if flags =? TEE_MEMORY_ACCESS_ANY_OWNER then call PTA_SYSTEM_MAP_FLAG_SHAREABLE
  else mret 0.

Definition tee_mprotect (buf len prot : Z) : P Z :=
  r ← invoke_system_pta PTA_SYSTEM_MPROTECT range_types (Values (u32 len, u32 prot) (reg_pair_from_64 buf) (0, 0)); mret (fst r).
Definition tee_unmap (buf len : Z) : P Z :=
  r ← invoke_system_pta PTA_SYSTEM_UNMAP range_types (Values (u32 len, 0) (reg_pair_from_64 buf) (0, 0)); mret (fst r).

(** ** tz_platform.c *)

Definition MMAP_PROT_READ : Z := 1.
Definition MMAP_PROT_WRITE : Z := 2.
Definition MMAP_PROT_EXEC : Z := 4.

Definition attributes (prot : Z) : Z :=
  let a := if truth (Z.land prot MMAP_PROT_READ) then Z.lor 0 (Z.lor TEE_MATTR_UR TEE_MATTR_PR) else 0 in
  let a := if truth (Z.land prot MMAP_PROT_WRITE) then Z.lor a (Z.lor TEE_MATTR_UW TEE_MATTR_PW) else a in
  if truth (Z.land prot MMAP_PROT_EXEC) then Z.lor a (Z.lor TEE_MATTR_UX TEE_MATTR_PX) else a.
Definition os_mprotect (addr size prot : Z) : P Z :=
  res ← tee_mprotect addr size (attributes prot); mret (if res =? TEE_SUCCESS then 0 else -1).

(** [(size + page_size - 1) & ~(page_size - 1)] *)
Definition aligned_size (size : Z) : Z := Z.land (u64 (size + PAGE_SIZE - 1)) (unot 64 (PAGE_SIZE - 1)).
Definition UINT32_MAX : Z := 2 ^ 32 - 1.

Definition os_mmap (size prot : Z) : P Z :=
  let aligned := aligned_size size in
  if UINT32_MAX <=? aligned then mret 0 else
  ret ← tee_map_zi aligned 0;
  if ret =? 0 then mret 0 else
  r ← os_mprotect ret aligned prot;
  if negb (r =? 0) then tee_unmap ret aligned;; mret 0 else mret ret.
Definition os_munmap (addr size : Z) : P unit := tee_unmap addr (aligned_size size);; mret ().
End system_service.

(** ** [strcpy]

    The destination starts at the beginning of a block. *)
Fixpoint strcpy (dest : buf) (i : Z) (src : list Z) : M unit buf :=
  match src with
  | [] => undef UB_oob
  | c :: src => d ← buf_set dest i c; if c =? 0 then mret d else strcpy d (i + 1) src
  end.

(** ** Clocks (tz_time.c) *)

(** [TEE_Time]: 32-bit seconds and milliseconds, 64-bit nanoseconds. *)
Record TEE_Time := Time { tm_seconds : Z; tm_millis : Z; tm_nanos : Z }.
Definition tee_time_to_ms (t : TEE_Time) : Z := u32 (tm_seconds t * 1000 + tm_millis t).
Definition os_time_get_boot_microsecond (ree_time : TEE_Time) : Z := u64 (u32 (tee_time_to_ms ree_time * 1000)).
Definition CLOCK_MONOTONIC : Z := 1.
Definition clock_gettime (ree_time : TEE_Time) (clock_id : Z) : Z * option (Z * Z) :=
  if negb (clock_id =? CLOCK_MONOTONIC) then (-1, None) else (0, Some (tm_seconds ree_time, tm_nanos ree_time)).

(** ** Correctness *)

Lemma roundup_spec w v : 12 <= w → 0 <= v <= 2 ^ w - PAGE_SIZE → ROUNDUP w v = (v + (PAGE_SIZE - 1)) / PAGE_SIZE * PAGE_SIZE.
Proof.
  unfold PAGE_SIZE. intros Hw Hs. unfold ROUNDUP, PAGE_SIZE. rewrite Z.mod_small by lia. set (x := v + _). change (4 * 1024) with (2 ^ 12).
  rewrite <- Z.shiftr_div_pow2, <- Z.shiftl_mul_pow2 by lia. apply Z.bits_inj'. intros i Hi. rewrite Z.land_spec, Z.shiftl_spec by done.
  destruct (Z.lt_ge_cases i 12).
  - rewrite (Z.testbit_neg_r _ (i - 12)) by lia. rewrite unot_spec by lia. change (2 ^ 12 - 1) with (Z.ones 12). rewrite ones_spec by lia.
    rewrite (proj2 (Z.leb_le 0 i)), (proj2 (Z.ltb_lt i 12)) by lia. by rewrite !andb_false_r.
  - rewrite Z.shiftr_spec by lia. replace (i - 12 + 12) with i by lia. rewrite unot_spec by lia. change (2 ^ 12 - 1) with (Z.ones 12). rewrite ones_spec by lia.
    rewrite (proj2 (Z.leb_le 0 i)), (proj2 (Z.ltb_ge i 12)) by lia. cbn [andb negb]. destruct (Z.ltb_spec i w); [by rewrite andb_true_r|].
    rewrite (testbit_high _ w) by lia. done.
Qed.
Lemma roundup_bounds w v : 12 <= w → 0 <= v <= 2 ^ w - PAGE_SIZE → v <= ROUNDUP w v < v + PAGE_SIZE.
Proof.
  intros Hw Hs. rewrite roundup_spec by done. unfold PAGE_SIZE in *. pose proof (Z.div_mod (v + (4 * 1024 - 1)) (4 * 1024)).
  pose proof (Z.mod_pos_bound (v + (4 * 1024 - 1)) (4 * 1024)). lia.
Qed.
Lemma roundup_divide w v : 12 <= w → 0 <= v <= 2 ^ w - PAGE_SIZE → (PAGE_SIZE | ROUNDUP w v).
Proof. intros Hw Hs. rewrite roundup_spec by done. by eexists. Qed.
(** A size that is a number of pages is kept. *)
Lemma roundup_pages w v : 12 <= w → 0 <= v <= 2 ^ w - PAGE_SIZE → (PAGE_SIZE | v) → ROUNDUP w v = v.
Proof.
  intros Hw Hs [k ->]. rewrite roundup_spec by done. f_equal. rewrite Z.div_add_l by done. rewrite Z.div_small by (unfold PAGE_SIZE; lia). lia.
Qed.
Lemma aligned_roundup size : aligned_size size = ROUNDUP 64 size.
Proof. unfold aligned_size, ROUNDUP, u64. by replace (size + (PAGE_SIZE - 1)) with (size + PAGE_SIZE - 1) by lia. Qed.
Lemma reg_pair_roundtrip a : 0 <= a < 2 ^ 64 → reg_pair_to_64 (reg_pair_from_64 a).1 (reg_pair_from_64 a).2 = a.
Proof.
  intros Ha. unfold reg_pair_to_64, reg_pair_from_64. cbn [fst snd]. rewrite Z.shiftr_div_pow2 by lia.
  assert (0 <= a / 2 ^ 32 < 2 ^ 32) by (split; [apply Z.div_pos; lia|apply Z.div_lt_upper_bound; lia]).
  rewrite (u32_id (a / _)) by lia. unfold u32. rewrite lor_shiftl_add by (lia || (apply Z.mod_pos_bound; lia)).
  pose proof (Z.div_mod a (2 ^ 32)). lia.
Qed.

Section mapping_specs.
Context `{VmOk}.

(** The system calls on a number of pages. *)
Lemma invoke_system_ok t cmd types v Q (s : memory) :
  (truth ta_session = true → Q (ta_session, v) s) → wp t (system_command cmd types v) Q (Memory true (uregions s)) →
  wp t (invoke_system_pta cmd types v) Q s.
Proof.
  intros Herr Hok. unfold invoke_system_pta. wp_steps. destruct s as [[] R]; [done|]. cbn [sess]. destruct (truth ta_session) eqn:Et; wp_steps; [by apply Herr|done].
Qed.
Lemma invoke_open t cmd types v Q (s : memory) : sess s = true → wp t (system_command cmd types v) Q s → wp t (invoke_system_pta cmd types v) Q s.
Proof. intros E Hok. unfold invoke_system_pta. wp_steps. by rewrite E. Qed.

Lemma tee_map_zi_ok t n (s : memory) : 0 < n < UINT32_MAX → (PAGE_SIZE | n) →
  wp t (tee_map_zi n 0) (λ a s', (a = 0 ∧ uregions s' = uregions s)
    ∨ (sess s' = true ∧ 0 < a ∧ a + n < 2 ^ 64 ∧ uregions s !! a = None ∧ uregions s' = <[a := (n, initial_attributes, 0)]> (uregions s))) s.
Proof.
  unfold UINT32_MAX. intros Hn Hp. unfold tee_map_zi. rewrite u32_id, Z.eqb_refl by lia. cbn [negb]. change (0 =? 0) with true. cbn iota. wp_steps.
  apply invoke_system_ok; [intros Et; cbn; rewrite Et; wp_steps; by left|]. unfold system_command.
  rewrite Z.eqb_refl. unfold system_map_zi. rewrite Z.eqb_refl. cbn [negb v0 v1 v2 fst snd]. change (truth (Z.land 0 _)) with false. cbn iota. wp_steps.
  cbn [uregions]. destruct (fobj_ta_mem_alloc _ _); cbn [negb]; [|wp_steps; cbn; wp_steps; by left].
  destruct (mobj_with_fobj_alloc _ _); cbn [negb]; [|wp_steps; cbn; wp_steps; by left].
  change (reg_pair_to_64 0 0) with 0. destruct (vm_map_pad _ _ _ _ _ _ _) as [[res a] R'] eqn:Em. wp_steps. unfold truth.
  destruct (Z.eqb_spec res 0) as [->|Hne]; cbn [negb].
  - destruct (vo_map _ _ _ _ _ _ Em) as (Ha&Hb&HN&->). cbn [fst snd v1]. wp_steps. right. rewrite reg_pair_roundtrip by lia. by split_and!.
  - rewrite (vo_map_err _ _ _ _ _ _ _ Em Hne). cbn [fst snd]. rewrite (proj2 (Z.eqb_neq res 0)) by done. cbn [negb]. wp_steps. by left.
Qed.

(** A range that is one region of whole pages. *)
Definition region (s : memory) (a n prot : Z) : Prop :=
  uregions s !! a = Some (n, prot, 0) ∧ 0 < a ∧ a + n < 2 ^ 64 ∧ 0 < n < UINT32_MAX ∧ (PAGE_SIZE | n).

Lemma roundup_u32 n : 0 < n < UINT32_MAX → (PAGE_SIZE | n) → ROUNDUP 32 (u32 n) = n.
Proof.
  unfold UINT32_MAX. intros Hn Hp. rewrite u32_id by lia. apply roundup_pages; [lia| |done]. destruct Hp as [k ->]. unfold PAGE_SIZE in *. lia.
Qed.

Lemma tee_mprotect_ok t a n prot prot' (s : memory) : sess s = true → region s a n prot → 0 <= prot' < 2 ^ 32 →
  wp t (tee_mprotect a n prot') (λ r s', sess s' = true ∧ (r = TEE_SUCCESS ∧ uregions s' = <[a := (n, prot', 0)]> (uregions s)
    ∨ r ≠ TEE_SUCCESS ∧ s' = s)) s.
Proof.
  intros Hs (HR&Ha&Hb&Hn&Hp) Hq. unfold tee_mprotect. wp_steps. apply invoke_open; [done|].
  unfold system_command. change (PTA_SYSTEM_MPROTECT =? PTA_SYSTEM_MAP_ZI) with false. rewrite Z.eqb_refl. unfold system_mprotect.
  rewrite Z.eqb_refl. cbn [negb v0 v1 fst snd]. rewrite (u32_id prot') by done. rewrite reg_pair_roundtrip by lia. rewrite roundup_u32 by done.
  rewrite (proj2 (Z.leb_gt _ (a + n))) by lia. wp_steps. rewrite (vo_get_flags _ a n prot 0 HR) by lia.
  change (truth TEE_SUCCESS) with false. change (truth (Z.land 0 _)) with false. cbn iota.
  destruct (vo_set_prot _ a n prot 0 prot' HR) as [->|(res&Hres&->)]; [lia| |]; wp_steps; (split; [done|]); [by left|right]. split; [done|by destruct s].
Qed.

Lemma tee_unmap_ok t a n prot (s : memory) : sess s = true → region s a n prot →
  wp t (tee_unmap a n) (λ r s', r = TEE_SUCCESS ∧ sess s' = true ∧ uregions s' = delete a (uregions s)) s.
Proof.
  intros Hs (HR&Ha&Hb&Hn&Hp). unfold tee_unmap. wp_steps. apply invoke_open; [done|].
  unfold system_command. change (PTA_SYSTEM_UNMAP =? PTA_SYSTEM_MAP_ZI) with false. change (PTA_SYSTEM_UNMAP =? PTA_SYSTEM_MPROTECT) with false.
  rewrite Z.eqb_refl. unfold system_unmap. rewrite Z.eqb_refl. cbn [negb v0 v1 fst snd]. change (truth 0) with false. cbn iota.
  rewrite reg_pair_roundtrip by lia. rewrite roundup_u32 by done. rewrite (proj2 (Z.leb_gt _ (a + n))) by lia. wp_steps.
  rewrite (vo_get_flags _ a n prot 0 HR) by lia. change (truth TEE_SUCCESS) with false. change (truth (Z.land 0 _)) with false. cbn iota.
  rewrite (vo_unmap _ a n prot 0 HR) by lia. by wp_steps.
Qed.

Lemma attributes_range prot : 0 <= attributes prot < 2 ^ 32.
Proof. unfold attributes. repeat case_match; vm_compute; split; congruence. Qed.

(** A request for memory: nothing and no change, or a new region of whole
    pages that holds [size] bytes with the rights asked for. *)
Lemma os_mmap_ok t size prot (s : memory) : 0 < size <= 2 ^ 64 - PAGE_SIZE →
  wp t (os_mmap size prot) (λ a s', (a = 0 ∧ uregions s' = uregions s)
    ∨ (sess s' = true ∧ uregions s !! a = None ∧ region s' a (aligned_size size) (attributes prot)
        ∧ uregions s' = <[a := (aligned_size size, attributes prot, 0)]> (uregions s))) s.
Proof.
  intros Hs. unfold os_mmap. destruct (Z.leb_spec UINT32_MAX (aligned_size size)) as [|Hlt]; wp_steps; [by left|].
  assert (0 < aligned_size size < UINT32_MAX ∧ (PAGE_SIZE | aligned_size size)) as [Hn Hp].
  { rewrite aligned_roundup in *. pose proof (roundup_bounds 64 size). split; [lia|apply roundup_divide; lia]. }
  eapply wp_mono; [by apply tee_map_zi_ok|]. intros a s1 [[-> E]|(E1&Ha&Hb&HN&E)]; [wp_steps; by left|]. rewrite (proj2 (Z.eqb_neq a 0)) by lia.
  assert (∀ s' p, uregions s' !! a = Some (aligned_size size, p, 0) → region s' a (aligned_size size) p) as Hreg by (by intros s' p Hl; split_and!; first [done|lia]).
  unfold os_mprotect. wp_steps. eapply wp_mono; [eapply tee_mprotect_ok; [done| |apply attributes_range]; apply Hreg; rewrite E; apply lookup_insert_eq|].
  intros r s2 [E2 [[-> E3]|[Hr ->]]]; wp_steps.
  - cbn. wp_steps. right. rewrite E in E3. setoid_rewrite (insert_insert_eq (uregions s) a) in E3. split_and!; try done. apply Hreg. rewrite E3. apply lookup_insert_eq.
  - rewrite (proj2 (Z.eqb_neq r _)) by done. cbn. wp_steps. eapply wp_mono; [eapply tee_unmap_ok; [done|]; apply Hreg; rewrite E; apply lookup_insert_eq|].
    intros r' s3 (_&_&E3). wp_steps. left. split; [done|]. rewrite E3, E. by apply delete_insert_id.
Qed.
End mapping_specs.

Section theorems.
Context `{VmOk}.

(** C27: Mapping and unmapping: a request for at least one byte and at most
    2^64 - 4096 gives the null pointer and leaves the regions as they were,
    also when the protection is refused after the mapping was made; or it
    gives the address of a new region of whole pages that holds the request
    with the rights that were asked for, no page larger than needed, and
    unmapping it with the size of the request, through the rounding of the
    runtime, the 32-bit value of the library and the rounding of the kernel,
    succeeds and restores the regions of before the request. *)
Theorem mmap_munmap_roundtrip t size prot (s : memory) : 0 < size <= 2 ^ 64 - PAGE_SIZE →
  wp t (os_mmap size prot) (λ a s', (a = 0 ∧ uregions s' = uregions s)
    ∨ (uregions s !! a = None ∧ uregions s' = <[a := (aligned_size size, attributes prot, 0)]> (uregions s)
        ∧ size <= aligned_size size < size + PAGE_SIZE ∧ (PAGE_SIZE | aligned_size size)
        ∧ wp t (os_munmap a size) (λ _ s'', uregions s'' = uregions s) s')) s.
Proof.
  intros Hs. eapply wp_mono; [by apply os_mmap_ok|]. intros a s' [?|(Eo&HN&Hreg&E)]; [by left|]. right. split; [done|]. split; [done|].
  rewrite aligned_roundup. split; [apply roundup_bounds; lia|]. split; [apply roundup_divide; lia|]. rewrite aligned_roundup in *.
  unfold os_munmap. wp_steps. rewrite aligned_roundup. eapply wp_mono; [by eapply tee_unmap_ok|]. intros r s'' (_&_&E''). wp_steps.
  rewrite E'', E. by apply delete_insert_id.
Qed.
End theorems.
(** The rounding wraps for the largest sizes: they are rounded to nothing. *)
Lemma aligned_wraps size : 2 ^ 64 - PAGE_SIZE < size < 2 ^ 64 → aligned_size size = 0.
Proof.
  unfold PAGE_SIZE. intros Hs. unfold aligned_size, PAGE_SIZE. assert (u64 (size + 4 * 1024 - 1) = size + 4 * 1024 - 1 - 2 ^ 64) as ->.
  { unfold u64. symmetry. apply (Z.mod_unique _ _ 1); lia. }
  apply Z.bits_inj'. intros i Hi. rewrite Z.land_spec, Z.bits_0, unot_spec by lia. change (4 * 1024 - 1) with (Z.ones 12). rewrite ones_spec by lia.
  destruct (Z.lt_ge_cases i 12); [rewrite (proj2 (Z.leb_le 0 i)), (proj2 (Z.ltb_lt i 12)) by lia; by rewrite !andb_false_r|].
  by rewrite (testbit_high _ 12) by lia.
Qed.

(** The clock of the runtime, documented as microseconds since 1970, is computed in 32 bits: it wraps after
    less than 72 minutes. *)
Lemma boot_time_wraps t : 0 <= tm_seconds t → 0 <= tm_millis t →
  os_time_get_boot_microsecond t = (tm_seconds t * 1000000 + tm_millis t * 1000) mod 2 ^ 32.
Proof.
  intros Hs Hm. unfold os_time_get_boot_microsecond, tee_time_to_ms. rewrite (u64_id (u32 _)).
  - unfold u32. rewrite Zmult_mod_idemp_l. f_equal. lia.
  - pose proof (Z.mod_pos_bound (u32 (tm_seconds t * 1000 + tm_millis t) * 1000) (2 ^ 32)). unfold u32 in *. lia.
Qed.

(** [strcpy] copies up to and including the terminator. *)
Lemma strcpy_ok t s rest dest i (u : unit) : Forall (λ c, c ≠ 0) s → 0 <= i → i + Z.of_nat (length s) < blen dest →
  wp t (strcpy dest i (s ++ 0 :: rest)) (λ d _, d = take (Z.to_nat i) dest ++ bytes (s ++ [0]) ++ drop (Z.to_nat i + length s + 1) dest) u.
Proof.
  intros Hs. revert dest i. induction Hs as [|c s Hc Hs IH]; intros dest i Hi Hl; cbn [app strcpy length] in *; wp_steps.
  - apply wp_buf_set; [lia|]. wp_steps. unfold blen in Hl. rewrite insert_take_drop by lia. by rewrite Nat.add_0_r, Nat.add_1_r.
  - apply wp_buf_set; [lia|]. rewrite (proj2 (Z.eqb_neq c 0)) by done. unfold blen in *. eapply wp_mono; [apply IH; [lia|rewrite length_insert; lia]|].
    intros d [] ->. replace (Z.to_nat (i + 1)) with (S (Z.to_nat i)) by lia. rewrite insert_take_drop by lia.
    assert (length (take (Z.to_nat i) dest) = Z.to_nat i) as Et by (rewrite length_take; lia).
    rewrite take_app_ge, drop_app_ge by (rewrite Et; lia). rewrite Et. replace (S (Z.to_nat i) - Z.to_nat i)%nat with 1%nat by lia. cbn [take].
    rewrite take_0, <- (assoc_L (++)). f_equal. cbn. f_equal. f_equal.
    replace (S (Z.to_nat i + length s + 1) - Z.to_nat i)%nat with (S (S (length s))) by lia.
    trans (drop (S (length s)) (drop (S (Z.to_nat i)) dest)); [done|]. rewrite drop_drop. f_equal. lia.
Qed.


(** ** Witness

    A kernel that gives the pages above the highest region, has memory for
    requests below 1 MiB, and never grants a writable and executable region. *)
Module PlatformWitnesses.
Definition top (R : regions) : Z := map_fold (λ a e acc, Z.max acc (a + e.1.1)) (64 * PAGE_SIZE) R.
#[local] Instance demo_vm : Vm := {|
  fobj_ta_mem_alloc := λ _ n, n <=? 256; mobj_with_fobj_alloc := λ _ _, true;
  vm_map_pad := λ R _ n prot flags _ _, if decide (n <= 0 ∨ 2 ^ 64 <= top R + n ∨ R !! top R ≠ None ∨ top R <= 0)
    then (TEE_ERROR_BAD_PARAMETERS, 0, R) else (TEE_SUCCESS, top R, <[top R := (n, prot, flags)]> R);
  vm_get_flags := λ R a n, match R !! a with Some (n', _, flags) => if (n =? n') then (TEE_SUCCESS, flags) else (TEE_ERROR_BAD_PARAMETERS, 0) | None => (TEE_ERROR_BAD_PARAMETERS, 0) end;
  vm_set_prot := λ R a n prot, match R !! a with
    | Some (n', _, flags) => if (n =? n') && negb (Z.testbit prot 8 && Z.testbit prot 9) then (TEE_SUCCESS, <[a := (n', prot, flags)]> R) else (TEE_ERROR_BAD_PARAMETERS, R)
    | None => (TEE_ERROR_BAD_PARAMETERS, R) end;
  vm_unmap := λ R a n, match R !! a with Some (n', _, _) => if n =? n' then (TEE_SUCCESS, delete a R) else (TEE_ERROR_BAD_PARAMETERS, R) | None => (TEE_ERROR_BAD_PARAMETERS, R) end;
  ta_session := TEE_SUCCESS |}.
#[local] Instance demo_vm_ok : VmOk.
Proof.
  split; unfold vm_map_pad, vm_get_flags, vm_set_prot, vm_unmap, demo_vm; intros.
  - case_decide as Hd; [discriminate|]. simplify_eq. destruct (R !! top R) eqn:E; [destruct Hd; right; right; by left|]. split_and!; [lia|lia|done|done].
  - case_decide; by simplify_eq.
  - rewrite H. by rewrite Z.eqb_refl.
  - rewrite H, Z.eqb_refl. cbn [andb]. destruct (negb _); [by left|right]. by exists TEE_ERROR_BAD_PARAMETERS.
  - rewrite H. by rewrite Z.eqb_refl.
Qed.

Definition start : memory := Memory false ∅.
Lemma mmap_munmap_roundtrip_witness :
  wp true (os_mmap 5000 3) (λ a s', (a = 0 ∧ uregions s' = ∅)
    ∨ (uregions start !! a = None ∧ uregions s' = <[a := (aligned_size 5000, attributes 3, 0)]> ∅
        ∧ 5000 <= aligned_size 5000 < 5000 + PAGE_SIZE ∧ (PAGE_SIZE | aligned_size 5000)
        ∧ wp true (os_munmap a 5000) (λ _ s'', uregions s'' = ∅) s')) start
  ∧ (match os_mmap 5000 3 start with Ok a s => (a, uregions s !! a) | _ => (0, None) end) = (64 * PAGE_SIZE, Some (8192, 0x1b0, 0))
  ∧ (match os_mmap 5000 7 start with Ok a s => (a, bool_decide (uregions s = ∅)) | _ => (1, false) end) = (0, true).
Proof. split; [apply (mmap_munmap_roundtrip true 5000 3 start); unfold PAGE_SIZE; lia|split; vm_compute; reflexivity]. Defined.
End PlatformWitnesses.
